(* ===== verification/_CoqProject ===== *)
-Q . S2P
Prelude.v
RustStr.v
RepoUtil.v
Externals.v
Demo.v
StoreTypes.v
Paging.v
MemoryStore.v
MemoryProps.v
OAuthCore.v
Jose.v
Dpop.v
Client.v
OAuthServer.v
OAuthProps.v
Html.v
AuthorizeProps.v
Session.v
Repo.v
RepoWriter.v
RepoDemo.v
RepoProps.v
RepoRead.v
Firehose.v
KeyCrypto.v
Identity.v
Accounts.v
AccountProps.v
RepoXrpc.v
RepoXrpcProps.v
Tail.v
Utf8.v
EmbServer.v
EmbRepo.v
EmbDemo.v
WsFrame.v
Outbound.v
IdentityXrpc.v
Clients.v
Follower.v
Flaky.v
Machine.v
Setup.v
Commands.v
CommandProps.v
Init.v
InitProps.v
InitSafety.v
InitServe.v
ServiceProxy.v
ServiceProps.v
EmbRoute.v
EmbProps.v
Sql.v
SqliteStore.v
Conformance.v
SqlProps.v
SqliteProps.v
DoStore.v
DoProps.v
Suite.v
Registry.v
RegistryProps.v
WorkerSeq.v
WorkerSeqProps.v
WorkerAccounts.v
WorkerRepo.v
Durable.v
WorkerFront.v
Transport.v
WorkerProps.v
WorkerInv.v
WorkerDemo.v
WorkerRepoProps.v
WorkerCommitProps.v
FrontProps.v
