(* ===== verification/Prelude.v ===== *)
(** * Stelyph (rust-pds): a verification library

    Stelyph is an AT Protocol personal data server: it keeps the signed
    repositories of its accounts, authenticates their clients (app passwords
    and OAuth with DPoP), and broadcasts every commit on a firehose.  The same
    core, [src/rust-core], runs in three deployments: the desktop server
    [src/rust-pds] on an in-memory or SQLite store, an embedded on-device server
    ([src/rust-core/src/server]), and a Cloudflare Worker ([src/rust-worker]) in
    which every account is a Durable Object, with one registry object for
    handles and one sequencer object for the firehose.

    ** The parts, and the files that model them

    The language and its environment.  [Prelude]: results, and the monad [SE] of
    runs over a store that may fail, in which an error keeps the writes made
    before it.  [RustStr], [Utf8]: the string functions of Rust's standard
    library.  [Externals]: the third-party code, as classes of parameters, each
    with a class of the documented laws relied on.

    Storage.  [StoreTypes]: the storage traits of
    [rust-core/src/storage/traits.rs] as type classes, and the contract
    [OAuthStoreOk].  [MemoryStore]: [storage/memory].  [Sql], [SqliteStore]:
    [storage/sqlite].  [DoStore]: [rust-worker/src/store.rs].  [Conformance]:
    the calls of the traits as data, and when one backend conforms to another.
    [Suite]: [storage/conformance.rs], its tests as runs over any backend.
    [Paging]: cursors.  [KeyCrypto]: [storage/crypto.rs], keys at rest.

    Repositories.  [RepoUtil]: [repo/util.rs], record keys and TIDs.  [Repo]:
    blocks, commits, frames, and [atrium]'s trees as programs over the store.
    [RepoWriter], [RepoRead]: [repo/writer.rs] and [repo/read.rs].

    Identity and authentication.  [OAuthCore], [Jose], [Dpop], [Client]: the
    modules of [rust-core/src/oauth].  [Session]: [auth/jwt.rs] and the request
    extractor.  [Identity]: did:plc and did:web.

    The desktop server.  [OAuthServer]: [rust-pds/src/xrpc/oauth], its pages in
    [Html] ([oauth/html.rs]).  [Accounts]: [xrpc/server.rs].  [IdentityXrpc]:
    [xrpc/identity.rs], [preferences.rs], the did:web resolver and
    [firehose/crawl.rs].  [RepoXrpc]: [xrpc/repo.rs].  [ServiceProxy], [Outbound]:
    [xrpc/appview], service tokens and what may be addressed.  [Firehose]:
    [firehose/subscribe.rs].  [Tail]: [rust-core/src/firehose/tail.rs], what a
    follower does with a frame.  [Follower]: [bin/firehose-tail.rs].  [Clients]:
    [oauth/client_resolver.rs] and both clients of the PLC directory.

    Its command line, [rust-pds/src/cmd].  [Flaky]: a storage any call of which
    may fail.  [Machine]: the databases, files, prompts and Keychain of the
    machine, with [config.rs] and [keychain.rs].
    [Setup]: the settings [serve] decides on, [detect.rs], [dns.rs], and the
    start-up of the authorization server.  [Commands]: [admin.rs],
    [export_keys.rs], [import_keys.rs], [keychain.rs].  [Init]: [init.rs], and
    the start of [serve.rs].

    The embedded server.  [EmbServer], [EmbRepo], [EmbRoute]:
    [rust-core/src/server/mod.rs] and [repo.rs].  [WsFrame]: [firehose_ws.rs].

    The worker.  [Registry]: [registry.rs].  [WorkerSeq]: [sequencer.rs].
    [WorkerAccounts], [WorkerRepo]: [handlers.rs].  [Durable]: [durable.rs], the
    account object's route.  [WorkerFront]: [lib.rs], the route of the whole
    deployment.

    A file [XProps] holds the theorems about [X]; [Demo], [RepoDemo], [EmbDemo]
    and [WorkerDemo] hold concrete instances of the parameters, in which every
    class of laws is satisfied, for the witnesses.

    ** How they interact

    A handler is a run [SE S E A]: it takes the store and gives its answer or
    error with the store it leaves.  The handlers, the writer and the readers
    are written against the storage classes, so they run on each backend.  The
    writer runs over a [World], a store and the frames broadcast so far.  The
    firehose subscription is a state machine whose steps interleave with those
    of the rest of the server.  The worker's objects are the fields of a
    [Deployment]; a call between them is a message with a fate ([Delivery]): it
    arrives, is lost before, or does its work and its reply is lost.

    The SQL stores run over a schedule of failures: each statement consumes the
    head of the schedule, which says whether the engine fails it.  SQLite's
    writes are transactions; the worker's objects have none, so the statements
    before a failed one stay done.  A command runs over a [Machine] with such a
    schedule for the operating system and the databases it opens; a path of it
    holds one thing, so a file that is written replaces a database.  One step of the model is what the code does
    without letting another task in: a call under the store's mutex, a write
    under the account's lock, a request to an object between two suspensions.

    Integers keep their width: [u64_wrap], [i64_add] and the like write out the
    wrap-around, casts are explicit, and a [usize] of the key importer has a
    parameter for its modulus.  Clock readings and random draws are arguments,
    one per reading.  Fuel occurs in the scanning of strings ([RustStr], [Utf8],
    [ServiceProxy]) and of frames, where it is the length of the input, which
    every step shortens; and in the clients that walk pages, where any number
    above that of the entries will do.  The other loops recurse on their data.

    ** What the theorems show

    - [RepoProps], against [RepoStoreOk], which the in-memory store ([Repo]) and
      SQLite ([SqliteProps]) meet: a successful write makes one signed commit whose tree is the
      old one with the operation applied, logs it once and installs it; a batch
      is the composition of its operations; a failed write is invisible; any
      sequence of writes keeps every repository a history of signed commits.
    - [RepoRead], [RepoXrpcProps], [EmbProps], over the in-memory store: what is
      written is read back, pages are complete, a failing batch leaves a prefix,
      and the embedded server's writes agree with the desktop one's.
    - [OAuthProps], [Jose], [Dpop], [Session]: a grant, a proof, a signature or a
      session that is accepted had every required property; codes and refresh
      tokens are used once and rotate within their scope.  They are proved
      against [OAuthStoreOk], which [MemoryProps] discharges.
    - [AuthorizeProps], [Html]: a code is issued only to the account whose
      password was given, for the request the page showed, once; the page a
      browser gets and reads is that request's, whatever text it holds; the code
      redeems.
    - [AccountProps], [KeyCrypto]: what a registration leaves, and keys at rest.
    - [CommandProps], [InitProps], [InitSafety], [InitServe]: exported keys
      import; a reset password is the password; [init] leaves every account
      there was and its keys, but in a database its configuration is written
      over; the server starts where it stopped, with the account it made, and
      only ever with real secrets.
    - [SqliteProps], [DoProps], [MemoryProps], for calls in a stated range and
      not for the two listings whose order differs: the SQLite backend refines
      the in-memory one under any schedule of failures; without failures both
      SQL backends answer as it does, SQLite but for the text of an error; the
      invariants of each.  [Suite]: all three pass the tests of the code's own
      suite.
    - [Firehose], [WsFrame], [WorkerSeqProps]: a subscriber gets exactly the
      frames after its cursor, once and in order, and decodes them; [Tail]: the
      commit in such a frame verifies under the repository's key, and [Follower]
      marks it so.
    - [ServiceProps], [Outbound], [Clients], [Follower]: what is ever asked of
      other hosts, and what of their answers is believed; where a redirect
      takes the upstream client past its guard, and where a token never goes.
    - [RegistryProps], [WorkerProps], [WorkerInv], [FrontProps]: the worker's
      handles and invites, sign-in, the one account of each object, what only
      the administrator may do, and registration across objects.
    - [Transport]: the repository layer answers alike over two stores in step,
      which carries its theorems from one backend to another.  With it
      [WorkerRepoProps] and [WorkerCommitProps] show of the worker's object that
      a write is one commit, read back and handed to the stream, and that while
      no statement fails a batch is all or nothing.

    Some theorems state what the code does where that is not what its comments
    say: two interleaved registrations, a broadcast out of order, a torn commit,
    a lost reply, a key export that overwrites itself, a configuration written
    over a database, a redirect past a guard.

    ** Parameters

    SHA-256, ECDSA, Argon2id, AES-GCM, JSON, CBOR, JWT, TOML, URL and IP parsing, CID
    encoding, CAR writing and [atrium_repo] are parameters.  Their laws are
    their documented behaviour: a round trip, verification of what was signed,
    the map a tree denotes.  [CidLaws] idealises the hash: two blocks with one
    identifier are one block.  [RedirectPolicy] is how [reqwest] follows the
    redirects of an answer; its laws are that only the redirect statuses do, and
    that credentials do not follow to another host.  [scan_rows] is the order in which SQL returns
    rows without ORDER BY; its law is that it permutes them.

    ** Not modelled

    - Argument parsing, what the commands print, the text of the proxy snippet,
      certificates ([tls.rs]) and the accept loops.
    - The transport under the HTTP clients ([reqwest], [fetch]): what is sent and
      what is made of the answer is modelled.  The clients of the PLC directory,
      of the relay and of the echo service follow redirects too: what they are
      answered, at whatever address, is the answer of the parameter.
    - The journal beside a SQLite database, spellings of one path, and a failed
      call of a command that has done a part of its work: it has done nothing.
    - SQLite's pool, WAL and online backup; schema creation is one statement.
    - The HTML of the worker's registration page, log output, timers.
    - The precision of JavaScript numbers in the Durable Object store: a number
      is an [i64] throughout. *)

From Stdlib Require Import ZArith Lia.
From stdpp Require Export base option list strings gmap sorting.
From stdpp Require Import options.

#[global] Open Scope Z_scope.
#[global] Open Scope stdpp_scope.

(** ** Bytes

    A Rust [&str], [String], [&\[u8\]] or [Vec<u8>] is its sequence of bytes. *)
Abbreviation bytes := string (only parsing).

(** ** The result type and the error monad *)

Inductive result (E A : Type) : Type :=
| Ok (a : A)
| Err (e : E).
Arguments Ok {E A} a.
Arguments Err {E A} e.

Declare Scope res_scope.
Delimit Scope res_scope with res.
#[global] Open Scope res_scope.

(** [let? x := m in k] is Rust's [let x = m?; k]. *)
Notation "'let?' x := m 'in' k" :=
  (match m with Ok x => k | Err e => Err e end)
  (at level 10, x name, m at level 100, k at level 200) : res_scope.

(** [ensure b orelse e in k] is Rust's [if !b { return Err(e) } k]. *)
Notation "'ensure' b 'orelse' e 'in' k" :=
  (if b then k else Err e)
  (at level 10, b at level 100, e at level 100, k at level 200) : res_scope.

Definition is_ok {E A} (r : result E A) : bool :=
  match r with Ok _ => true | Err _ => false end.

Definition is_err {E A} (r : result E A) : bool := negb (is_ok r).

Definition map_err {E F A} (f : E -> F) (r : result E A) : result F A :=
  match r with Ok a => Ok a | Err e => Err (f e) end.

Definition ok_or {E A} (o : option A) (e : E) : result E A :=
  match o with Some a => Ok a | None => Err e end.

Definition res_opt {E A} (r : result E A) : option A :=
  match r with Ok a => Some a | Err _ => None end.

Lemma map_err_Ok {E F A} (f : E -> F) (r : result E A) a :
  map_err f r = Ok a <-> r = Ok a.
Proof. destruct r; naive_solver. Qed.

Lemma ok_or_Ok {E A} (o : option A) (e : E) a :
  ok_or o e = Ok a <-> o = Some a.
Proof. destruct o; naive_solver. Qed.

Lemma ok_or_Err {E A} (o : option A) (e e' : E) :
  ok_or o e = Err e' <-> o = None /\ e = e'.
Proof. destruct o; naive_solver. Qed.

Lemma is_ok_spec {E A} (r : result E A) : is_ok r = true <-> exists a, r = Ok a.
Proof. destruct r; naive_solver. Qed.

Lemma is_err_spec {E A} (r : result E A) : is_err r = true <-> exists e, r = Err e.
Proof. destruct r; naive_solver. Qed.

(** ** The state-and-error monad: a handler running over a store

    An operation over a store of type [S] takes the store and returns the
    outcome together with the store it leaves.  As in the code, an error does
    not undo the writes made before it. *)

Definition SE (S E A : Type) : Type := S -> result E A * S.

Definition ret {S E A} (a : A) : SE S E A := fun s => (Ok a, s).
Definition throw {S E A} (e : E) : SE S E A := fun s => (Err e, s).
Definition lift {S E A} (r : result E A) : SE S E A := fun s => (r, s).
Definition bind {S E A B} (m : SE S E A) (k : A -> SE S E B) : SE S E B :=
  fun s => match m s with
           | (Ok a, s') => k a s'
           | (Err e, s') => (Err e, s')
           end.
(** [catch m] exposes the outcome of [m] as a value: a Rust [match] on a
    [Result], or a [let _ = ...] that drops it. *)
Definition catch {S E F A} (m : SE S E A) : SE S F (result E A) :=
  fun s => let '(r, s') := m s in (Ok r, s').
Definition with_err {S E F A} (f : E -> F) (m : SE S E A) : SE S F A :=
  fun s => let '(r, s') := m s in (map_err f r, s').
Definition assert_or {S E} (b : bool) (e : E) : SE S E unit :=
  if b then ret tt else throw e.

Declare Scope se_scope.
Delimit Scope se_scope with se.
Notation "'let!' x := m 'in' k" := (bind m (fun x => k))
  (at level 10, x binder, m at level 100, k at level 200) : se_scope.
Notation "m ;;! k" := (bind m (fun _ => k))
  (at level 199, right associativity) : se_scope.

Lemma bind_Ok {S E A B} (m : SE S E A) (k : A -> SE S E B) s b s2 :
  bind m k s = (Ok b, s2) <-> exists a s1, m s = (Ok a, s1) /\ k a s1 = (Ok b, s2).
Proof. unfold bind. destruct (m s) as [[a|e] s1]; naive_solver. Qed.

Lemma bind_Err {S E A B} (m : SE S E A) (k : A -> SE S E B) s e s2 :
  bind m k s = (Err e, s2) <->
  m s = (Err e, s2) \/ exists a s1, m s = (Ok a, s1) /\ k a s1 = (Err e, s2).
Proof. unfold bind. destruct (m s) as [[a|e'] s1]; naive_solver. Qed.

Lemma assert_or_Ok {S E} (b : bool) (e : E) (s s' : S) u :
  assert_or b e s = (Ok u, s') <-> b = true /\ s' = s.
Proof. destruct b, u; unfold assert_or, ret, throw; naive_solver. Qed.

(** [res_inv] takes a successful run apart: every [let?], [ensure] and [match]
    of the hypotheses, leaving the branch taken. *)
Ltac res_inv :=
  repeat (case_match; simplify_eq/=; try done).

(** [se_inv H] does the same for a run [H : (let! ...) s = (Ok _, _)] of the
    state-and-error monad. *)
Ltac se_inv H :=
  repeat match type of H with
         | bind _ _ _ = (Ok _, _) =>
             let a := fresh "a" in let s1 := fresh "s" in let Hm := fresh "Hm" in
             apply bind_Ok in H as (a & s1 & Hm & H)
         end.

(** ** Machine integers

    A [u64] or [i64] is a [Z] in range; an operation that can leave the range
    wraps, as a release build does. *)
Definition u64_mod : Z := 2 ^ 64.
Definition i64_max : Z := 2 ^ 63 - 1.
Definition is_u64 (z : Z) : Prop := 0 <= z < u64_mod.
Definition u64_wrap (z : Z) : Z := z mod u64_mod.
Definition u64_add (a b : Z) : Z := u64_wrap (a + b).
Definition u64_saturating_sub (a b : Z) : Z := Z.max 0 (a - b).
Definition u64_abs_diff (a b : Z) : Z := Z.abs (a - b).
Definition u64_shl (a k : Z) : Z := u64_wrap (Z.shiftl a k).
Definition i64_wrap (z : Z) : Z := (z + 2 ^ 63) mod u64_mod - 2 ^ 63.
Definition i64_add (a b : Z) : Z := i64_wrap (a + b).

Lemma u64_wrap_id z : 0 <= z < u64_mod -> u64_wrap z = z.
Proof. intros H. unfold u64_wrap. by apply Z.mod_small. Qed.

Lemma u64_add_id a b : 0 <= a + b < u64_mod -> u64_add a b = a + b.
Proof. apply u64_wrap_id. Qed.

Lemma i64_wrap_id z : - 2 ^ 63 <= z <= i64_max -> i64_wrap z = z.
Proof.
  intros H. unfold i64_wrap, i64_max, u64_mod in *. rewrite Z.mod_small; lia.
Qed.

Lemma u64_wrap_range z : is_u64 (u64_wrap z).
Proof. unfold is_u64, u64_wrap, u64_mod. apply Z.mod_pos_bound. lia. Qed.

Create HintDb pds.
#[export] Hint Resolve u64_wrap_range : pds.

(** ** Lists *)

Lemma filter_all {A} (f : A -> bool) (l : list A) :
  Forall (fun x => f x = true) l -> List.filter f l = l.
Proof. induction 1 as [|x l Hx _ IH]; simpl; [done|]. rewrite Hx. by f_equal. Qed.

Lemma filter_none {A} (f : A -> bool) (l : list A) :
  Forall (fun x => f x = false) l -> List.filter f l = [].
Proof. induction 1 as [|x l Hx _ IH]; simpl; [done|]. by rewrite Hx. Qed.

(** ** Maps *)

Lemma map_lookup_filter_case `{Countable K} {A} (P : K * A -> Prop)
    `{!forall x, Decision (P x)} (m : gmap K A) k :
  filter P m !! k =
  match m !! k with Some x => if decide (P (k, x)) then Some x else None | None => None end.
Proof.
  destruct (m !! k) as [x|] eqn:E; [case_decide|].
  - by apply map_lookup_filter_Some.
  - apply map_lookup_filter_None. right. intros y Hy. by simplify_eq.
  - apply map_lookup_filter_None. by left.
Qed.
