(* ===== verification/RustStr.v ===== *)
(** * Rust strings

    The functions of Rust's [str], [char] and [u8] the program calls, over
    byte strings.  Every predicate used here concerns ASCII characters, so
    working on the UTF-8 bytes agrees with working on [char]s. *)

From Stdlib Require Import ZArith Lia.
From Stdlib Require Import Ascii.
From S2P Require Import Prelude.

Definition byte_val (c : ascii) : Z := Z.of_N (N_of_ascii c).
Definition in_range (lo hi : Z) (c : ascii) : bool :=
  (lo <=? byte_val c) && (byte_val c <=? hi).

Definition is_ascii_digit : ascii -> bool := in_range 48 57.
Definition is_ascii_upper : ascii -> bool := in_range 65 90.
Definition is_ascii_lower : ascii -> bool := in_range 97 122.
Definition is_ascii_alphabetic (c : ascii) : bool := is_ascii_upper c || is_ascii_lower c.
Definition is_ascii_alphanumeric (c : ascii) : bool := is_ascii_alphabetic c || is_ascii_digit c.
(** Space, tab, line feed, form feed, carriage return. *)
Definition is_ascii_whitespace (c : ascii) : bool :=
  let b := byte_val c in
  (b =? 32) || (b =? 9) || (b =? 10) || (b =? 12) || (b =? 13).
Definition to_ascii_lowercase_char (c : ascii) : ascii :=
  if is_ascii_upper c then ascii_of_N (Z.to_N (byte_val c + 32)) else c.

Definition str_len (s : string) : Z := Z.of_nat (String.length s).

Fixpoint all_bytes (p : ascii -> bool) (s : string) : bool :=
  match s with
  | EmptyString => true
  | String c s => p c && all_bytes p s
  end.

Fixpoint contains_char (c : ascii) (s : string) : bool :=
  match s with
  | EmptyString => false
  | String c' s => Ascii.eqb c c' || contains_char c s
  end.

Fixpoint map_bytes (f : ascii -> ascii) (s : string) : string :=
  match s with
  | EmptyString => EmptyString
  | String c s => String (f c) (map_bytes f s)
  end.
Definition to_ascii_lowercase : string -> string := map_bytes to_ascii_lowercase_char.

(** [str::split(c)]: always at least one segment. *)
Fixpoint split_char (c : ascii) (s : string) : list string :=
  match s with
  | EmptyString => [EmptyString]
  | String a s =>
      if Ascii.eqb a c then EmptyString :: split_char c s
      else match split_char c s with
           | [] => [String a EmptyString]
           | w :: ws => String a w :: ws
           end
  end.

Fixpoint split_once (c : ascii) (s : string) : option (string * string) :=
  match s with
  | EmptyString => None
  | String a s =>
      if Ascii.eqb a c then Some (EmptyString, s)
      else match split_once c s with
           | None => None
           | Some (x, y) => Some (String a x, y)
           end
  end.

(** [str::split_ascii_whitespace]: the maximal runs of non-whitespace. *)
Fixpoint split_ascii_whitespace_go (cur : string) (s : string) : list string :=
  let flush := if String.eqb cur EmptyString then [] else [String.rev cur] in
  match s with
  | EmptyString => flush
  | String a s =>
      if is_ascii_whitespace a then flush ++ split_ascii_whitespace_go EmptyString s
      else split_ascii_whitespace_go (String a cur) s
  end.
Definition split_ascii_whitespace : string -> list string :=
  split_ascii_whitespace_go EmptyString.

Fixpoint strip_prefix (p s : string) : option string :=
  match p, s with
  | EmptyString, _ => Some s
  | String a p, String b s => if Ascii.eqb a b then strip_prefix p s else None
  | String _ _, EmptyString => None
  end.
Definition starts_with (p s : string) : bool :=
  match strip_prefix p s with Some _ => true | None => false end.
Definition strip_suffix (p s : string) : option string :=
  option_map String.rev (strip_prefix (String.rev p) (String.rev s)).
Definition ends_with (p s : string) : bool :=
  match strip_suffix p s with Some _ => true | None => false end.

Fixpoint contains_str (p s : string) : bool :=
  starts_with p s ||
  match s with EmptyString => false | String _ s => contains_str p s end.

(** [s.find(p)], with the parts before and after the first occurrence. *)
Fixpoint split_once_str (p s : string) : option (string * string) :=
  match strip_prefix p s with
  | Some r => Some (EmptyString, r)
  | None =>
      match s with
      | EmptyString => None
      | String a s =>
          match split_once_str p s with
          | Some (x, y) => Some (String a x, y)
          | None => None
          end
      end
  end.

(** [s.split(c).next()]: everything before the first [c]. *)
Definition before_char (c : ascii) (s : string) : string :=
  match split_once c s with Some (x, _) => x | None => s end.

Definition eq_ignore_ascii_case (a b : string) : bool :=
  String.eqb (to_ascii_lowercase a) (to_ascii_lowercase b).

(** The characters with the Unicode [White_Space] property, in UTF-8. *)
Definition utf8 (l : list N) : string := String.string_of_list_ascii (map ascii_of_N l).
Definition unicode_whitespace : list string :=
  map utf8
    ([[9]; [10]; [11]; [12]; [13]; [32]; [194; 133]; [194; 160]; [225; 154; 128];
      [226; 128; 128]; [226; 128; 129]; [226; 128; 130]; [226; 128; 131]; [226; 128; 132];
      [226; 128; 133]; [226; 128; 134]; [226; 128; 135]; [226; 128; 136]; [226; 128; 137];
      [226; 128; 138]; [226; 128; 168]; [226; 128; 169]; [226; 128; 175]; [226; 129; 159];
      [227; 128; 128]]%N).

(** Drop leading occurrences of the strings of [ws]; [fuel] is the length. *)
Fixpoint drop_leading (fuel : nat) (ws : list string) (s : string) : string :=
  match fuel with
  | O => s
  | S fuel =>
      match List.find (fun w => starts_with w s) ws with
      | Some w => match strip_prefix w s with
                  | Some r => drop_leading fuel ws r
                  | None => s
                  end
      | None => s
      end
  end.
Definition trim_start (s : string) : string :=
  drop_leading (String.length s) unicode_whitespace s.
Definition trim_end (s : string) : string :=
  String.rev (drop_leading (String.length s) (map String.rev unicode_whitespace) (String.rev s)).
Definition trim (s : string) : string := trim_end (trim_start s).

Example trim_nbsp : trim (utf8 [32; 97; 11; 98; 194; 160]%N) = utf8 [97; 11; 98]%N.
Proof. reflexivity. Qed.

(** [w.to_be_bytes()] of an [n]-byte integer. *)
Fixpoint be_bytes (n : nat) (z : Z) (acc : string) : string :=
  match n with
  | O => acc
  | S n => be_bytes n (Z.shiftr z 8) (String (ascii_of_N (Z.to_N (Z.land z 255))) acc)
  end.

Fixpoint join (sep : string) (l : list string) : string :=
  match l with
  | [] => EmptyString
  | [w] => w
  | w :: ws => w +:+ sep +:+ join sep ws
  end.

(** The order of [str]: byte by byte. *)
Definition str_ltb (a b : string) : bool := String.ltb a b.

(** ** Lemmas *)

Lemma str_app_nil_l s : EmptyString +:+ s = s.
Proof. done. Qed.

Lemma str_app_cons c s t : String c s +:+ t = String c (s +:+ t).
Proof. done. Qed.

Lemma str_app_nil_r s : s +:+ EmptyString = s.
Proof. induction s; [done|]. rewrite str_app_cons. by f_equal. Qed.

Lemma str_app_assoc s t u : (s +:+ t) +:+ u = s +:+ t +:+ u.
Proof. induction s; [done|]. rewrite !str_app_cons. by f_equal. Qed.

Lemma length_str_app s t : String.length (s +:+ t) = (String.length s + String.length t)%nat.
Proof. induction s; [done|]. rewrite str_app_cons. simpl. lia. Qed.

Lemma str_len_nonneg s : 0 <= str_len s.
Proof. unfold str_len. lia. Qed.

Lemma str_len_app s t : str_len (s +:+ t) = str_len s + str_len t.
Proof. unfold str_len. rewrite length_str_app. lia. Qed.

Lemma str_app_inj_len s s' t t' :
  String.length s = String.length s' -> s +:+ t = s' +:+ t' -> s = s' /\ t = t'.
Proof.
  revert s'. induction s as [|c s IH]; intros [|c' s'] Hl; simpl in *; try done.
  rewrite !str_app_cons. intros [= -> H]. destruct (IH s' ltac:(lia) H). by subst.
Qed.

Lemma strip_prefix_Some p s r : strip_prefix p s = Some r <-> s = p +:+ r.
Proof.
  revert s. induction p as [|a p IH]; intros s; [simpl; rewrite str_app_nil_l; naive_solver|].
  destruct s as [|b s]; simpl; [naive_solver|].
  rewrite str_app_cons. destruct (Ascii.eqb_spec a b); [subst|naive_solver].
  rewrite IH. naive_solver.
Qed.

Lemma starts_with_spec p s : starts_with p s = true <-> exists r, s = p +:+ r.
Proof.
  unfold starts_with. destruct (strip_prefix p s) as [r|] eqn:E.
  - apply strip_prefix_Some in E. naive_solver.
  - split; [done|]. intros [r Hr]. apply strip_prefix_Some in Hr. congruence.
Qed.

Lemma all_bytes_app p s t : all_bytes p (s +:+ t) = all_bytes p s && all_bytes p t.
Proof.
  induction s; [done|]. rewrite str_app_cons. simpl. rewrite IHs. by rewrite andb_assoc.
Qed.

Lemma all_bytes_no_char p c s :
  all_bytes p s = true -> p c = false -> contains_char c s = false.
Proof.
  induction s as [|a s IH]; [done|]; simpl. rewrite andb_true_iff. intros [Ha Hs] Hc.
  destruct (Ascii.eqb_spec c a); [congruence|]. simpl. auto.
Qed.

Lemma all_bytes_impl (p q : ascii -> bool) s :
  (forall c, p c = true -> q c = true) -> all_bytes p s = true -> all_bytes q s = true.
Proof.
  intros Hi. induction s as [|a s IH]; [done|]; simpl. rewrite !andb_true_iff. naive_solver.
Qed.

Lemma contains_char_app c s t :
  contains_char c (s +:+ t) = contains_char c s || contains_char c t.
Proof.
  induction s; [done|]. rewrite str_app_cons. simpl. rewrite IHs. by rewrite orb_assoc.
Qed.

Lemma split_once_Some c s x y :
  split_once c s = Some (x, y) <-> s = x +:+ String c y /\ contains_char c x = false.
Proof.
  revert x. induction s as [|a s IH]; intros x; simpl.
  - split; [done|]. intros [H _]. destruct x; [done|]. by rewrite str_app_cons in H.
  - destruct (Ascii.eqb_spec a c) as [->|Hne].
    + split; [intros [= <- <-]; done|]. intros [H Hx]. destruct x as [|b x].
      * rewrite str_app_nil_l in H. naive_solver.
      * rewrite str_app_cons in H. simplify_eq. simpl in Hx.
        by rewrite Ascii.eqb_refl in Hx.
    + destruct x as [|b x].
      * rewrite str_app_nil_l. destruct (split_once c s) as [[??]|]; naive_solver.
      * rewrite str_app_cons. simpl. specialize (IH x).
        destruct (split_once c s) as [[u v]|].
        -- split.
           ++ intros [= -> -> ->]. destruct (proj1 IH eq_refl) as [-> Hx].
              split; [done|]. rewrite Hx, orb_false_r.
              destruct (Ascii.eqb_spec c b); [congruence|done].
           ++ intros [[= -> ->] Hx]. apply orb_false_iff in Hx as [_ Hx].
              destruct IH as [_ IH]. specialize (IH (conj eq_refl Hx)). naive_solver.
        -- split; [done|]. intros [[= -> ->] Hx]. apply orb_false_iff in Hx as [_ Hx].
           destruct IH as [_ IH]. specialize (IH (conj eq_refl Hx)). done.
Qed.

Lemma split_once_None c s : split_once c s = None <-> contains_char c s = false.
Proof.
  induction s as [|a s IH]; simpl; [done|]. rewrite Ascii.eqb_sym.
  destruct (Ascii.eqb_spec c a); simpl; [done|]. rewrite <- IH.
  destruct (split_once c s) as [[??]|]; done.
Qed.

Lemma before_char_none c s : contains_char c s = false -> before_char c s = s.
Proof. intros E%split_once_None. unfold before_char. by rewrite E. Qed.

Lemma before_char_app c s t : contains_char c s = false -> before_char c (s +:+ String c t) = s.
Proof.
  intros E. unfold before_char.
  by rewrite (proj2 (split_once_Some c (s +:+ String c t) s t) (conj eq_refl E)).
Qed.

Lemma split_char_nonempty c s : split_char c s <> [].
Proof.
  destruct s as [|a s]; simpl; [done|]. case_match; [done|]. by case_match.
Qed.

Lemma join_split_char c s : join (String c EmptyString) (split_char c s) = s.
Proof.
  induction s as [|a s IH]; [done|]; simpl.
  pose proof (split_char_nonempty c s) as Hne.
  destruct (split_char c s) as [|w ws] eqn:E; [done|].
  destruct (Ascii.eqb_spec a c) as [->|].
  - change (String c (join (String c EmptyString) (w :: ws)) = String c s). by rewrite IH.
  - rewrite <- IH. destruct ws; simpl; by rewrite ?str_app_cons.
Qed.

Lemma split_char_word c w : contains_char c w = false -> split_char c w = [w].
Proof.
  induction w as [|a w IH]; [done|]. simpl. rewrite orb_false_iff. intros [Ha Hw].
  rewrite Ascii.eqb_sym, Ha, IH; done.
Qed.

Lemma split_char_app c w s :
  contains_char c w = false -> split_char c (w +:+ String c s) = w :: split_char c s.
Proof.
  induction w as [|a w IH]; intros Hw.
  - rewrite str_app_nil_l. simpl. by rewrite Ascii.eqb_refl.
  - simpl in Hw. apply orb_false_iff in Hw as [Ha Hw]. rewrite str_app_cons. simpl.
    rewrite Ascii.eqb_sym, Ha, IH; done.
Qed.

(** A string that splits in three is those three segments joined. *)
Lemma split_char_three c s x y z :
  split_char c s = [x; y; z] -> s = x +:+ String c (y +:+ String c z).
Proof.
  intros E. rewrite <- (join_split_char c s), E. simpl. by rewrite !str_app_cons, !str_app_nil_l.
Qed.

Lemma split_char_segments c s : Forall (fun w => contains_char c w = false) (split_char c s).
Proof.
  induction s as [|a s IH]; simpl; [by repeat constructor|].
  destruct (Ascii.eqb_spec a c) as [->|Hne]; [by constructor|].
  destruct (split_char c s) as [|w ws]; simpl in *.
  - constructor; [|done]. simpl. destruct (Ascii.eqb_spec c a); [congruence|done].
  - inversion IH as [|?? Hw Hws]; subst. constructor; [|done]. simpl. rewrite Hw.
    destruct (Ascii.eqb_spec c a); [congruence|done].
Qed.

Lemma rev_app_rev_app s t u : String.rev_app (String.rev_app s t) u = String.rev_app t (s +:+ u).
Proof. revert t. induction s as [|c s IH]; intros t; [done|]. simpl. by rewrite IH. Qed.

Lemma rev_rev_app s : String.rev (String.rev_app s EmptyString) = s.
Proof. unfold String.rev. rewrite rev_app_rev_app. simpl. apply str_app_nil_r. Qed.

Lemma rev_app_split a acc : String.rev_app a acc = String.rev_app a EmptyString +:+ acc.
Proof.
  revert acc. induction a as [|c a IH]; intros acc; [done|]. cbn. rewrite (IH (String c acc)), (IH (String c EmptyString)).
  by rewrite str_app_assoc.
Qed.

Lemma str_rev_app a b : String.rev (a +:+ b) = String.rev b +:+ String.rev a.
Proof.
  unfold String.rev. rewrite <- rev_app_split. generalize EmptyString as acc.
  induction a as [|c a IH]; intros acc; [done|]. rewrite str_app_cons. cbn. apply IH.
Qed.

Lemma strip_suffix_Some p s r : strip_suffix p s = Some r -> s = r +:+ p.
Proof.
  unfold strip_suffix. destruct (strip_prefix _ _) as [x|] eqn:E; [|done]. cbn. intros [= <-].
  apply strip_prefix_Some in E. rewrite <- (rev_rev_app s), <- (rev_rev_app p). fold (String.rev s) (String.rev p).
  by rewrite E, str_rev_app.
Qed.

Lemma ends_with_suffix p s : ends_with p (s +:+ p) = true.
Proof.
  unfold ends_with, strip_suffix. rewrite str_rev_app.
  by rewrite (proj2 (strip_prefix_Some (String.rev p) (String.rev p +:+ String.rev s) (String.rev s)) eq_refl).
Qed.

(** Of two suffixes of one length, one. *)
Lemma ends_with_same p q s : String.length p = String.length q -> ends_with p s = true -> ends_with q s = true -> p = q.
Proof.
  unfold ends_with. intros Hl. destruct (strip_suffix p s) as [a|] eqn:Ep, (strip_suffix q s) as [b|] eqn:Eq; [|done..].
  apply strip_suffix_Some in Ep, Eq. intros _ _. rewrite Ep in Eq.
  assert (String.length a = String.length b) as Hab.
  { apply (f_equal String.length) in Eq. rewrite !length_str_app in Eq. lia. }
  by destruct (str_app_inj_len _ _ _ _ Hab Eq).
Qed.

(** A word: not empty, no ASCII whitespace in it. *)
Definition is_word (w : string) : Prop :=
  w <> EmptyString /\ all_bytes (fun c => negb (is_ascii_whitespace c)) w = true.

Lemma split_whitespace_go_word cur w s :
  all_bytes (fun c => negb (is_ascii_whitespace c)) w = true ->
  split_ascii_whitespace_go cur (w +:+ s) = split_ascii_whitespace_go (String.rev_app w cur) s.
Proof.
  revert cur. induction w as [|c w IH]; intros cur; [done|].
  rewrite str_app_cons. cbn -[is_ascii_whitespace]. rewrite andb_true_iff. intros [Hc Hw].
  destruct (is_ascii_whitespace c); [done|]. by apply IH.
Qed.

Lemma rev_app_ne w cur : w <> EmptyString -> String.rev_app w cur <> EmptyString.
Proof.
  assert (forall w c cur, String.rev_app w (String c cur) <> EmptyString) as Hc.
  { clear. induction w as [|d w IH]; intros c cur; [done|]. apply IH. }
  destruct w as [|c w]; [done|]. intros _. apply Hc.
Qed.

(** Splitting on whitespace inverts joining words with a space. *)
Lemma split_join_words l :
  Forall is_word l -> split_ascii_whitespace (join " " l) = l.
Proof.
  unfold split_ascii_whitespace. induction 1 as [|w l [Hne Hw] Hl IH]; [done|].
  pose proof (rev_app_ne w EmptyString Hne) as Hr. apply String.eqb_neq in Hr.
  destruct l as [|w' l].
  - simpl. rewrite <- (str_app_nil_r w), split_whitespace_go_word, str_app_nil_r by done.
    cbn -[String.rev]. rewrite Hr. by rewrite rev_rev_app.
  - change (join " " (w :: w' :: l)) with (w +:+ String " " (join " " (w' :: l))).
    rewrite split_whitespace_go_word by done. cbn [split_ascii_whitespace_go].
    change (is_ascii_whitespace " ") with true. cbn match. rewrite Hr, rev_rev_app, IH. done.
Qed.

(** A big-endian integer can be read back. *)
Lemma be_bytes_inj n z z' s s' :
  0 <= z < 256 ^ Z.of_nat n -> 0 <= z' < 256 ^ Z.of_nat n ->
  be_bytes n z s = be_bytes n z' s' -> z = z' /\ s = s'.
Proof.
  revert z z' s s'. induction n as [|n IH]; intros z z' s s' Hz Hz' E; [simpl in *; split; [lia|done]|].
  cbn [be_bytes] in E. rewrite !Z.shiftr_div_pow2 in E by lia. change (2 ^ 8) with 256 in E.
  rewrite Nat2Z.inj_succ, Z.pow_succ_r in Hz, Hz' by lia.
  apply IH in E as [Eq E];
    [|split; [apply Z.div_pos; lia|apply Z.div_lt_upper_bound; lia]
     |split; [apply Z.div_pos; lia|apply Z.div_lt_upper_bound; lia]].
  injection E as Ec ->. split; [|done].
  rewrite !(Z.land_ones _ 8) in Ec by lia. change (2 ^ 8) with 256 in Ec.
  pose proof (Z.mod_pos_bound z 256). pose proof (Z.mod_pos_bound z' 256).
  apply (f_equal N_of_ascii) in Ec. rewrite !N_ascii_embedding in Ec by lia.
  rewrite (Z.div_mod z 256), (Z.div_mod z' 256), Eq by lia. lia.
Qed.

Lemma split_once_str_app_char p s c r :
  contains_char c s = false -> split_once_str (String c p) (s +:+ String c p +:+ r) = Some (s, r).
Proof.
  induction s as [|a s IH]; intros Hs.
  - rewrite str_app_nil_l, str_app_cons. cbn [split_once_str strip_prefix].
    rewrite Ascii.eqb_refl. by rewrite (proj2 (strip_prefix_Some p (p +:+ r) r) eq_refl).
  - simpl in Hs. apply orb_false_iff in Hs as [Ha Hs]. rewrite str_app_cons.
    cbn [split_once_str strip_prefix]. rewrite Ha. by rewrite IH.
Qed.

(** ** The byte order *)

Lemma str_ltb_compare a b : str_ltb a b = true <-> String.compare a b = Lt.
Proof. unfold str_ltb, String.ltb. destruct (String.compare a b); split; done. Qed.

Lemma str_le_ltb a b : String.le a b <-> str_ltb b a = false.
Proof.
  unfold String.le, String.leb, str_ltb, String.ltb. rewrite (String.compare_antisym a b).
  destruct (String.compare b a); simpl; split; done.
Qed.

Lemma str_ltb_irrefl a : str_ltb a a = false.
Proof. apply str_le_ltb. apply (reflexivity (R:=String.le)). Qed.

Lemma str_ltb_le a b : str_ltb a b = true -> String.le a b.
Proof.
  unfold String.le, String.leb, str_ltb, String.ltb. destruct (String.compare a b); done.
Qed.

Lemma str_ltb_le_iff a b : str_ltb a b = true <-> String.le a b /\ a <> b.
Proof.
  split.
  - intros H. split; [by apply str_ltb_le|]. intros ->. by rewrite str_ltb_irrefl in H.
  - intros [H Hne]. destruct (str_ltb a b) eqn:E; [done|].
    apply str_le_ltb in E. destruct Hne. by apply (anti_symm String.le).
Qed.

Lemma str_ltb_trans a b c : str_ltb a b = true -> str_ltb b c = true -> str_ltb a c = true.
Proof.
  rewrite !str_ltb_le_iff. intros [H1 N1] [H2 N2]. split; [by etrans|].
  intros ->. apply N1. by apply (anti_symm String.le).
Qed.

#[export] Hint Resolve str_len_nonneg : pds.
