(* ===== verification/RepoUtil.v ===== *)
(** * Record keys, collections and TIDs

    [src/rust-core/src/repo/util.rs]: the validation rules every record write
    passes, the MST key [collection/rkey] they protect, and the timestamp
    identifiers handed out as record keys. *)

From Stdlib Require Import ZArith Lia Ascii.
From S2P Require Import Prelude RustStr.

(** ** Validation *)

Definition is_visible_ascii : ascii -> bool := in_range 33 126.

Definition validate_rkey (rkey : string) : result string unit :=
  if String.eqb rkey "" || (512 <? str_len rkey) then Err "rkey must be 1–512 chars"
  else if contains_char "/" rkey || contains_char "000" rkey then
    Err "rkey must not contain '/' or NUL"
  else ensure all_bytes is_visible_ascii rkey
    orelse "rkey must contain only printable ASCII characters" in
  Ok tt.

Definition is_segment_char (c : ascii) : bool :=
  is_ascii_alphanumeric c || Ascii.eqb c "-".

(** One turn of the loop over the dot-separated segments. *)
Definition validate_segment (seg : string) : result string unit :=
  match seg with
  | EmptyString => Err "collection segment must not be empty"
  | String c _ =>
      ensure is_ascii_alphabetic c
        orelse "collection segment must start with a letter" in
      ensure all_bytes is_segment_char seg
        orelse "collection segment must contain only alphanumeric chars or hyphens" in
      Ok tt
  end.

Fixpoint validate_segments (segs : list string) : result string unit :=
  match segs with
  | [] => Ok tt
  | seg :: segs => let? _u := validate_segment seg in validate_segments segs
  end.

Definition validate_collection (collection : string) : result string unit :=
  if String.eqb collection "" || contains_char "000" collection
     || contains_char "/" collection then
    Err "collection must be a valid NSID (e.g. app.bsky.feed.post)"
  else
    let segments := split_char "." collection in
    if (length segments <? 2)%nat then
      Err "collection must have at least two dot-separated segments"
    else validate_segments segments.

(** The MST key every write builds: [format!("{collection}/{rkey}")]. *)
Definition mst_key (collection rkey : string) : string :=
  collection +:+ "/" +:+ rkey.

(** ** Conversion of JSON records

    DAG-CBOR is a bridge: encode the JSON value, decode an IPLD value.  The
    codec is [serde_ipld_dagcbor], a parameter. *)
Section JsonToIpld.
Context {Json Ipld : Type}.
Variable to_vec : Json -> result string bytes.
Variable from_slice : bytes -> result string Ipld.

Definition json_value_to_ipld (value : Json) : result string Ipld :=
  let? cbor_bytes :=
    map_err (fun e => "json→dagcbor encode failed: " +:+ e) (to_vec value) in
  map_err (fun e => "dagcbor→ipld decode failed: " +:+ e) (from_slice cbor_bytes).
End JsonToIpld.

(** ** TIDs *)

Definition tid_alphabet : list ascii :=
  String.list_ascii_of_string "234567abcdefghijklmnopqrstuvwxyz".

Definition tid_char (v : Z) : ascii :=
  nth (Z.to_nat (Z.land v 31)) tid_alphabet "2"%char.

(** The loop [for i in (0..13).rev()]: the least significant group is written
    last in the string, so each turn puts its character in front. *)
Fixpoint tid_loop (n : nat) (val : Z) (acc : string) : string :=
  match n with
  | O => acc
  | S n => tid_loop n (Z.shiftr val 5) (String (tid_char val) acc)
  end.

Definition tid_from_micros (us : Z) : string :=
  tid_loop 13 (u64_shl us 10) EmptyString.

Example tid_epoch : tid_from_micros 0 = "2222222222222".
Proof. reflexivity. Qed.

(** ** Validation: lemmas *)

Lemma validate_rkey_ok r :
  validate_rkey r = Ok tt <->
  1 <= str_len r <= 512 /\ contains_char "/" r = false /\
  all_bytes is_visible_ascii r = true.
Proof.
  unfold validate_rkey. destruct (String.eqb_spec r "") as [->|Hne]; simpl.
  { split; [done|]. intros [H _]. unfold str_len in H. simpl in H. lia. }
  assert (1 <= str_len r).
  { destruct r; [done|]. unfold str_len. simpl. lia. }
  destruct (Z.ltb_spec 512 (str_len r)); [split; [done|lia]|].
  destruct (contains_char "/" r) eqn:Hs; simpl; [naive_solver|].
  destruct (contains_char "000" r) eqn:Hn; simpl.
  2:{ destruct (all_bytes is_visible_ascii r); [|naive_solver].
      split; [|done]. intros _. repeat split; lia. }
  split; [done|]. intros (_ & _ & Ha).
  by rewrite (all_bytes_no_char _ "000"%char r Ha) in Hn.
Qed.

Definition valid_segment (s : string) : Prop :=
  (exists c r, s = String c r /\ is_ascii_alphabetic c = true) /\
  all_bytes is_segment_char s = true.

Lemma validate_segment_ok s : validate_segment s = Ok tt <-> valid_segment s.
Proof.
  unfold valid_segment. destruct s as [|c s]; cbn -[all_bytes].
  - split; [done|]. by intros [(? & ? & ? & ?) ?].
  - destruct (is_ascii_alphabetic c) eqn:Hc, (all_bytes _ _) eqn:Ha.
    { split; [|done]. intros _. split; [by exists c, s|done]. }
    all: split; [done|]; intros [(? & ? & [= <- <-] & ?) ?]; congruence.
Qed.

Lemma validate_segments_ok l : validate_segments l = Ok tt <-> Forall valid_segment l.
Proof.
  induction l as [|s l IH]; simpl; [by split|]. rewrite Forall_cons, <- validate_segment_ok, <- IH.
  destruct (validate_segment s) as [[]|]; split; try done; by intros [? ?].
Qed.

Lemma join_all_bytes p sep l :
  all_bytes p sep = true -> Forall (fun s => all_bytes p s = true) l ->
  all_bytes p (join sep l) = true.
Proof.
  intros Hsep. induction 1 as [|s l Hs Hl IH]; [done|].
  destruct l; [done|]. change (all_bytes p (s +:+ sep +:+ join sep (s0 :: l)) = true).
  by rewrite !all_bytes_app, Hs, Hsep, IH.
Qed.

(** An accepted collection is made of visible characters other than [/]. *)
Lemma validate_collection_chars c :
  validate_collection c = Ok tt ->
  contains_char "/" c = false /\ all_bytes is_visible_ascii c = true.
Proof.
  unfold validate_collection. intros H. res_inv.
  apply orb_false_iff in H0 as [_ Hs]. split; [done|].
  apply validate_segments_ok in H.
  rewrite <- (join_split_char "." c). apply join_all_bytes; [done|].
  eapply Forall_impl; [exact H|]. intros s [_ Hv]. revert Hv. apply all_bytes_impl.
  intros a. unfold is_segment_char, is_visible_ascii, is_ascii_alphanumeric, is_ascii_alphabetic,
    is_ascii_upper, is_ascii_lower, is_ascii_digit, in_range.
  destruct (Ascii.eqb_spec a "-"); [by subst|]. lia.
Qed.

(** ** TIDs: lemmas *)

Lemma tid_char_mod v : 0 <= v -> tid_char v = tid_char (v mod 32).
Proof.
  intros H. unfold tid_char. rewrite !(Z.land_ones _ 5) by lia.
  change (2 ^ 5) with 32. by rewrite Z.mod_mod by lia.
Qed.

Definition tid_digit_ok (i j : nat) : bool :=
  match Ascii.compare (tid_char (Z.of_nat i)) (tid_char (Z.of_nat j)),
        Nat.compare i j with
  | Lt, Lt | Eq, Eq | Gt, Gt => true
  | _, _ => false
  end.

Lemma tid_digits_ok :
  forallb (fun i => forallb (tid_digit_ok i) (seq 0 32)) (seq 0 32) = true.
Proof. vm_compute. reflexivity. Qed.

(** The alphabet is sorted: comparing digits is comparing their values. *)
Lemma tid_char_compare a b :
  0 <= a < 32 -> 0 <= b < 32 -> Ascii.compare (tid_char a) (tid_char b) = (a ?= b).
Proof.
  intros Ha Hb. pose proof tid_digits_ok as H. rewrite forallb_forall in H.
  specialize (H (Z.to_nat a)). rewrite forallb_forall in H.
  specialize (H ltac:(apply in_seq; lia) (Z.to_nat b) ltac:(apply in_seq; lia)).
  unfold tid_digit_ok in H. rewrite !Z2Nat.id, Z2Nat.inj_compare in * by lia.
  destruct (Ascii.compare _ _), (a ?= b); done.
Qed.

Lemma compare_div_mod a b :
  0 <= a -> 0 <= b ->
  (a ?= b) = match a / 32 ?= b / 32 with Eq => a mod 32 ?= b mod 32 | c => c end.
Proof.
  intros Ha Hb. pose proof (Z.div_mod a 32). pose proof (Z.div_mod b 32).
  pose proof (Z.mod_pos_bound a 32). pose proof (Z.mod_pos_bound b 32).
  destruct (Z.compare_spec (a / 32) (b / 32)).
  - destruct (Z.compare_spec (a mod 32) (b mod 32));
      [apply Z.compare_eq_iff|apply Z.compare_lt_iff|apply Z.compare_gt_iff]; lia.
  - apply Z.compare_lt_iff; lia.
  - apply Z.compare_gt_iff; lia.
Qed.

Lemma tid_loop_compare n a b s t :
  0 <= a < 32 ^ Z.of_nat n -> 0 <= b < 32 ^ Z.of_nat n ->
  String.compare (tid_loop n a s) (tid_loop n b t) =
  match a ?= b with Eq => String.compare s t | c => c end.
Proof.
  revert a b s t. induction n as [|n IH]; intros a b s t Ha Hb.
  { simpl. assert (a = b) as -> by lia. by rewrite Z.compare_refl. }
  cbn [tid_loop]. rewrite !Z.shiftr_div_pow2 by lia. change (2 ^ 5) with 32.
  rewrite Nat2Z.inj_succ, Z.pow_succ_r in Ha, Hb by lia.
  rewrite IH by (split; [apply Z.div_pos; lia|apply Z.div_lt_upper_bound; lia]).
  rewrite (compare_div_mod a b) by lia. cbn [String.compare].
  rewrite (tid_char_mod a), (tid_char_mod b) by lia.
  rewrite tid_char_compare by (apply Z.mod_pos_bound; lia).
  by destruct (a / 32 ?= b / 32), (a mod 32 ?= b mod 32).
Qed.

Lemma tid_loop_bytes (p : ascii -> bool) n v s :
  (forall w, p (tid_char w) = true) -> all_bytes p s = true ->
  all_bytes p (tid_loop n v s) = true.
Proof.
  intros Hp. revert v s. induction n as [|n IH]; intros v s Hs; [done|].
  simpl. apply IH. simpl. by rewrite Hp, Hs.
Qed.

Lemma length_tid_loop n v s : String.length (tid_loop n v s) = (n + String.length s)%nat.
Proof. revert v s. induction n as [|n IH]; intros; simpl; [done|]. rewrite IH. simpl. lia. Qed.

Lemma tid_char_visible v : is_visible_ascii (tid_char v) && negb (Ascii.eqb "/" (tid_char v)) = true.
Proof.
  unfold tid_char.
  assert (Forall (fun c => is_visible_ascii c && negb (Ascii.eqb "/" c) = true) tid_alphabet)
    as Hall by (repeat constructor).
  rewrite Forall_forall in Hall.
  destruct (decide (Z.to_nat (Z.land v 31) < length tid_alphabet)%nat).
  - apply Hall, list_elem_of_In, nth_In. done.
  - rewrite nth_overflow by lia. done.
Qed.

(** ** Properties *)

(** [validate_rkey] and [validate_collection] protect the MST key space:
    when both accept, the MST key [collection/rkey] splits back, at its first
    [/], into exactly that collection and that record key, so two distinct
    pairs never share a key. *)
Theorem mst_key_split (c r : string)
    (Hc : validate_collection c = Ok tt) (Hr : validate_rkey r = Ok tt) :
  split_once "/" (mst_key c r) = Some (c, r) /\
  forall c' r', validate_collection c' = Ok tt -> mst_key c' r' = mst_key c r ->
                c' = c /\ r' = r.
Proof.
  assert (forall c r, validate_collection c = Ok tt ->
            split_once "/" (mst_key c r) = Some (c, r)) as Hsplit.
  { intros c0 r0 H0. apply split_once_Some. split; [done|].
    by apply validate_collection_chars in H0 as [? _]. }
  split; [by apply Hsplit|]. intros c' r' Hc' E.
  pose proof (Hsplit c r Hc) as H1. pose proof (Hsplit c' r' Hc') as H2. rewrite E, H1 in H2. by simplify_eq.
Qed.

Lemma mst_key_split_witness :
  split_once "/" (mst_key "app.bsky.feed.post" "3k2akqmqhh52c")
    = Some ("app.bsky.feed.post", "3k2akqmqhh52c") /\
  forall c' r', validate_collection c' = Ok tt ->
                mst_key c' r' = mst_key "app.bsky.feed.post" "3k2akqmqhh52c" ->
                c' = "app.bsky.feed.post" /\ r' = "3k2akqmqhh52c".
Proof. apply mst_key_split; reflexivity. Defined.

(** [validate_collection] accepts exactly the strings with at least two
    dot-separated segments, each of them starting with an ASCII letter and made
    of ASCII alphanumerics and hyphens; the separate tests for the empty
    string, [NUL] and [/] reject nothing else. *)
Theorem validate_collection_spec (c : string) :
  validate_collection c = Ok tt <->
  (2 <= length (split_char "." c))%nat /\ Forall valid_segment (split_char "." c).
Proof.
  rewrite <- validate_segments_ok. unfold validate_collection.
  destruct (_ || _) eqn:Hbad.
  - split; [done|]. intros [Hl Hv]. exfalso. apply validate_segments_ok in Hv.
    assert (c <> "") by (intros ->; simpl in Hl; lia).
    assert (all_bytes (fun a => is_segment_char a || Ascii.eqb a ".") c = true) as Hall.
    { rewrite <- (join_split_char "." c). apply join_all_bytes; [done|].
      eapply Forall_impl; [exact Hv|]. intros s [_ Hs]. revert Hs.
      apply all_bytes_impl. by intros a ->. }
    rewrite (all_bytes_no_char _ "000"%char c Hall), (all_bytes_no_char _ "/"%char c Hall)
      in Hbad by done.
    destruct (String.eqb_spec c ""); done.
  - destruct (Nat.ltb_spec (length (split_char "." c)) 2).
    + split; [done|]. intros [? _]. lia.
    + split; [by split|by intros [_ ?]].
Qed.

(** a TID is always 13 characters, and always an rkey that
    [validate_rkey] accepts, for every timestamp (one past the 54 bits the
    shift keeps included). *)
Theorem tid_valid_rkey (us : Z) :
  String.length (tid_from_micros us) = 13%nat /\
  validate_rkey (tid_from_micros us) = Ok tt.
Proof.
  assert (String.length (tid_from_micros us) = 13%nat) as Hl by apply length_tid_loop.
  split; [done|]. apply validate_rkey_ok. unfold str_len. rewrite Hl. split; [lia|].
  assert (all_bytes (fun c => is_visible_ascii c && negb (Ascii.eqb "/" c))
            (tid_from_micros us) = true) as Ha.
  { apply tid_loop_bytes; [|done]. apply tid_char_visible. }
  split; [by apply (all_bytes_no_char _ _ _ Ha)|].
  revert Ha. apply all_bytes_impl. intros c. rewrite andb_true_iff. by intros [? _].
Qed.

(** TIDs sort by time.  For timestamps below [2^54] microseconds (the year
    2540) the byte order of two TIDs is the order of their timestamps; in
    particular distinct timestamps get distinct record keys. *)
Theorem tid_order (a b : Z) (Ha : 0 <= a < 2 ^ 54) (Hb : 0 <= b < 2 ^ 54) :
  String.compare (tid_from_micros a) (tid_from_micros b) = (a ?= b).
Proof.
  unfold tid_from_micros, u64_shl. rewrite !Z.shiftl_mul_pow2 by lia.
  rewrite !u64_wrap_id by (unfold u64_mod; lia).
  rewrite tid_loop_compare by lia.
  rewrite <- (Zmult_compare_compat_r a b (2 ^ 10)) by lia. by destruct (a ?= b).
Qed.

Lemma tid_order_witness :
  String.compare (tid_from_micros 1000000) (tid_from_micros 2000000) = Lt.
Proof. apply (tid_order 1000000 2000000); lia. Defined.
