(* ===== verification/Externals.v ===== *)
(** * What the program calls but does not define

    The third-party code the OAuth layer is built on, as classes of parameters
    with the documented laws it relies on: SHA-256 ([sha2]), the encodings of
    [data_encoding], [serde_json], ECDSA ([p256], [k256]).  No definition of
    the library depends on a law; the theorems that do take the class of laws
    as a hypothesis. *)

From Stdlib Require Import ZArith Lia Ascii.
From S2P Require Import Prelude RustStr.

(** ** Digests and encodings *)

Class Digests := {
  sha256 : bytes -> bytes;
  hexlower_encode : bytes -> string;
  b64url_encode : bytes -> string;
  b64url_decode : string -> option bytes;
}.

Definition is_b64url_char (c : ascii) : bool :=
  is_ascii_alphanumeric c || Ascii.eqb c "-" || Ascii.eqb c "_".

Class DigestLaws `{Digests} := {
  b64url_decode_encode b : b64url_decode (b64url_encode b) = Some b;
  b64url_decode_chars s b : b64url_decode s = Some b -> all_bytes is_b64url_char s = true;
  b64url_encode_chars b : all_bytes is_b64url_char (b64url_encode b) = true;
}.

(** ** JSON

    [serde_json::Value] with the accessors the code uses, and the object
    literals [json!({ k: "v", ... })] it builds. *)
Class Json := {
  Value : Type;
  json_get : string -> Value -> option Value;
  json_as_str : Value -> option string;
  json_has_member : Value -> string -> bool;
  json_strings : list (string * string) -> Value;
  json_to_vec : Value -> result string bytes;
  json_from_slice : bytes -> option Value;
}.

Definition json_str `{Json} (key : string) (v : Value) : option string :=
  x ← json_get key v; json_as_str x.

Class JsonLaws `{Json} := {
  json_from_to_vec v b : json_to_vec v = Ok b -> json_from_slice b = Some v;
  json_strings_get l k s :
    NoDup l.*1 -> (k, s) ∈ l -> json_str k (json_strings l) = Some s;
}.

(** A type with derived [Serialize] and [Deserialize]. *)
Class Serde (T : Type) := {
  to_vec : T -> result string bytes;
  from_slice : bytes -> result string T;
}.

Class SerdeLaws (T : Type) `{Serde T} := {
  from_slice_to_vec t b : to_vec t = Ok b -> from_slice b = Ok t;
}.

(** ** ECDSA *)

Inductive Alg := ES256 | ES256K.

#[export] Instance Alg_eq_dec : EqDecision Alg.
Proof. solve_decision. Defined.

(** Public points are SEC1-encoded; signatures are raw [r‖s]. *)
Class Ecdsa := {
  ec_point_ok : Alg -> bytes -> bool;
  ec_signature_ok : Alg -> bytes -> bool;
  ec_verify : Alg -> bytes -> bytes -> bytes -> bool;
  P256Key : Type;
  p256_from_slice : bytes -> option P256Key;
  p256_to_bytes : P256Key -> bytes;
  p256_x : P256Key -> bytes;
  p256_y : P256Key -> bytes;
  p256_sign : P256Key -> bytes -> bytes;
}.

Definition sec1_point (x y : bytes) : bytes := String "004" (x +:+ y).

Class EcdsaLaws `{Ecdsa} := {
  p256_x_len k : str_len (p256_x k) = 32;
  p256_y_len k : str_len (p256_y k) = 32;
  p256_point_ok k : ec_point_ok ES256 (sec1_point (p256_x k) (p256_y k)) = true;
  p256_sign_ok k m : ec_signature_ok ES256 (p256_sign k m) = true;
  p256_verify_sign k m :
    ec_verify ES256 (sec1_point (p256_x k) (p256_y k)) m (p256_sign k m) = true;
  p256_from_to_bytes k : p256_from_slice (p256_to_bytes k) = Some k;
}.
