(* ===== verification/Demo.v ===== *)
(** * A concrete instance of the external functions

    Toy implementations that satisfy every documented law of [Externals]: they
    show that the hypotheses of the theorems can hold together, and they make
    the operations run on concrete inputs.  No definition of the model uses
    them. *)

From Stdlib Require Import ZArith Lia Ascii.
From S2P Require Import Prelude RustStr Externals.

(** ** Encodings

    Every byte becomes two letters [A]..[P], one for each half. *)
Definition nibble (b3 b2 b1 b0 : bool) : ascii :=
  ascii_of_N (65 + (if b3 then 8 else 0) + (if b2 then 4 else 0) + (if b1 then 2 else 0)
                 + (if b0 then 1 else 0)).

Definition un_nibble (c : ascii) : option (bool * bool * bool * bool) :=
  if (65 <=? byte_val c) && (byte_val c <=? 80) then
    let v := byte_val c - 65 in
    Some (Z.testbit v 3, Z.testbit v 2, Z.testbit v 1, Z.testbit v 0)
  else None.

Fixpoint demo_encode (s : bytes) : string :=
  match s with
  | EmptyString => EmptyString
  | String (Ascii b0 b1 b2 b3 b4 b5 b6 b7) s =>
      String (nibble b7 b6 b5 b4) (String (nibble b3 b2 b1 b0) (demo_encode s))
  end.

Fixpoint demo_decode (s : string) : option bytes :=
  match s with
  | EmptyString => Some EmptyString
  | String c1 (String c2 s) =>
      '(b7, b6, b5, b4) ← un_nibble c1; '(b3, b2, b1, b0) ← un_nibble c2;
      r ← demo_decode s; Some (String (Ascii b0 b1 b2 b3 b4 b5 b6 b7) r)
  | String _ EmptyString => None
  end.

Lemma un_nibble_nibble b3 b2 b1 b0 : un_nibble (nibble b3 b2 b1 b0) = Some (b3, b2, b1, b0).
Proof. by destruct b3, b2, b1, b0. Qed.

Lemma nibble_char b3 b2 b1 b0 : is_b64url_char (nibble b3 b2 b1 b0) = true.
Proof. by destruct b3, b2, b1, b0. Qed.

Lemma un_nibble_char c x : un_nibble c = Some x -> is_b64url_char c = true.
Proof.
  unfold un_nibble, is_b64url_char, is_ascii_alphanumeric, is_ascii_alphabetic, is_ascii_upper,
    in_range. destruct (_ && _) eqn:E; [|done]. intros _. apply andb_true_iff in E as [E1 E2].
  rewrite E1. destruct (Z.leb_spec (byte_val c) 90); [done|lia].
Qed.

#[export] Instance demo_digests : Digests := {
  sha256 s := s;
  hexlower_encode := demo_encode;
  b64url_encode := demo_encode;
  b64url_decode := demo_decode;
}.

Lemma demo_decode_chars s : forall b, demo_decode s = Some b -> all_bytes is_b64url_char s = true.
Proof.
  induction s as [s IH] using (induction_ltof1 _ String.length). unfold ltof in IH.
  destruct s as [|c1 [|c2 s]]; intros b E; [done|done|]. simpl in E.
  destruct (un_nibble c1) as [[[[? ?] ?] ?]|] eqn:E1; [|done].
  destruct (un_nibble c2) as [[[[? ?] ?] ?]|] eqn:E2; [|done].
  destruct (demo_decode s) as [r|] eqn:E3; [|done].
  cbn [all_bytes]. rewrite (un_nibble_char _ _ E1), (un_nibble_char _ _ E2).
  apply (IH s ltac:(simpl; lia) r E3).
Qed.

#[export] Instance demo_digest_laws : DigestLaws.
Proof.
  split.
  - intros b. simpl. induction b as [|[b0 b1 b2 b3 b4 b5 b6 b7] s IH]; [done|].
    cbn [demo_encode demo_decode]. rewrite !un_nibble_nibble. cbn. by rewrite IH.
  - intros s b. apply demo_decode_chars.
  - intros b. simpl. induction b as [|[b0 b1 b2 b3 b4 b5 b6 b7] s IH]; [done|].
    cbn [demo_encode all_bytes]. by rewrite !nibble_char, IH.
Defined.

Lemma demo_decode_encode b : demo_decode (demo_encode b) = Some b.
Proof. apply (@b64url_decode_encode demo_digests demo_digest_laws). Qed.

(** ** Lists of fields: each field in hex, followed by a comma. *)
Fixpoint fields_encode (l : list string) : string :=
  match l with
  | [] => EmptyString
  | w :: l => demo_encode w +:+ String "," (fields_encode l)
  end.

Definition fields_decode (s : string) : option (list string) :=
  mapM demo_decode (removelast (split_char "," s)).

Lemma demo_encode_no_char c s : is_b64url_char c = false -> contains_char c (demo_encode s) = false.
Proof.
  intros Hc. pose proof (b64url_encode_chars s) as Hs. simpl in Hs. by eapply all_bytes_no_char.
Qed.

Lemma fields_decode_encode l : fields_decode (fields_encode l) = Some l.
Proof.
  assert (forall l, exists x, split_char "," (fields_encode l) = map demo_encode l ++ [x]) as Hsplit.
  { clear. induction l as [|w l [x IH]]; [by exists EmptyString|]. exists x. cbn [fields_encode].
    rewrite split_char_app, IH by by apply demo_encode_no_char. done. }
  unfold fields_decode. destruct (Hsplit l) as [x ->]. rewrite removelast_last. clear.
  induction l as [|w l IH]; [done|]. cbn [map mapM]. unfold mapM in *. cbn.
  pose proof (b64url_decode_encode w) as Hd. simpl in Hd. rewrite Hd. cbn. by rewrite IH.
Qed.

(** Numbers, as their sign and binary digits. *)
Fixpoint pos_bits (p : positive) : string :=
  match p with
  | xH => EmptyString
  | xO p => String "0" (pos_bits p)
  | xI p => String "1" (pos_bits p)
  end.
Fixpoint bits_pos (s : string) : positive :=
  match s with
  | EmptyString => xH
  | String c s => if Ascii.eqb c "1" then xI (bits_pos s) else xO (bits_pos s)
  end.
Definition Z_text (z : Z) : string :=
  match z with
  | Z0 => "z"
  | Zpos p => String "+" (pos_bits p)
  | Zneg p => String "-" (pos_bits p)
  end.
Definition text_Z (s : string) : Z :=
  match s with
  | String c s => if Ascii.eqb c "+" then Zpos (bits_pos s)
                  else if Ascii.eqb c "-" then Zneg (bits_pos s) else 0
  | EmptyString => 0
  end.

Lemma text_Z_text z : text_Z (Z_text z) = z.
Proof.
  assert (forall p, bits_pos (pos_bits p) = p) as H.
  { induction p; simpl; [by rewrite IHp|by rewrite IHp|done]. }
  destruct z; simpl; by rewrite ?H.
Qed.

Definition opt_text (o : option string) : string :=
  match o with None => "n" | Some s => String "s" s end.
Definition text_opt (s : string) : option string :=
  match s with String "s" s => Some s | _ => None end.

Lemma text_opt_text o : text_opt (opt_text o) = o.
Proof. by destruct o. Qed.

(** ** JSON: strings, and flat objects of strings *)
Inductive demo_value := DStr (s : string) | DObj (l : list (string * string)).

Definition demo_get (k : string) (v : demo_value) : option demo_value :=
  match v with
  | DStr _ => None
  | DObj l => option_map (fun p => DStr (snd p)) (List.find (fun p => String.eqb (fst p) k) l)
  end.

Fixpoint flatten (l : list (string * string)) : list string :=
  match l with [] => [] | (k, v) :: l => k :: v :: flatten l end.
Fixpoint unflatten (l : list string) : list (string * string) :=
  match l with k :: v :: l => (k, v) :: unflatten l | _ => [] end.

Lemma unflatten_flatten l : unflatten (flatten l) = l.
Proof. induction l as [|[k v] l IH]; simpl; [done|]. by rewrite IH. Qed.

#[export] Instance demo_json : Json := {
  Value := demo_value;
  json_get := demo_get;
  json_as_str v := match v with DStr s => Some s | DObj _ => None end;
  json_has_member v k := match demo_get k v with Some _ => true | None => false end;
  json_strings := DObj;
  json_to_vec v := Ok match v with
                      | DStr s => String "s" s
                      | DObj l => String "o" (fields_encode (flatten l))
                      end;
  json_from_slice b := match b with
                       | String "s" s => Some (DStr s)
                       | String "o" s => option_map (fun l => DObj (unflatten l)) (fields_decode s)
                       | _ => None
                       end;
}.

#[export] Instance demo_json_laws : JsonLaws.
Proof.
  split.
  - intros [s|l] b [= <-]; simpl; [done|].
    by rewrite fields_decode_encode; simpl; rewrite unflatten_flatten.
  - intros l k s Hn Hin. unfold json_str. simpl.
    assert (List.find (fun p => String.eqb (fst p) k) l = Some (k, s)) as ->; [|done].
    induction l as [|[k' s'] l IH]; [by apply not_elem_of_nil in Hin|].
    cbn in Hn. apply NoDup_cons in Hn as [Hk Hn]. simpl.
    destruct (String.eqb_spec k' k) as [->|Hne].
    + apply elem_of_cons in Hin as [[= ->]|Hin]; [done|]. destruct Hk.
      by apply list_elem_of_fmap_2' with (x := (k, s)).
    + apply elem_of_cons in Hin as [[= -> ->]|Hin]; [done|]. by apply IH.
Defined.

(** ** Signatures: the key is the x coordinate, a signature is key and message *)
Definition demo_pad (k : string) : string := String.substring 0 32 (k +:+ "................................").

Lemma demo_pad_len k : str_len (demo_pad k) = 32.
Proof.
  unfold demo_pad, str_len. set (s := "................................").
  assert (forall n t, (n <= String.length t)%nat -> String.length (String.substring 0 n t) = n) as Hs.
  { induction n as [|n IH]; intros [|c t] Hl; simpl in *; try done; try lia. by rewrite IH by lia. }
  rewrite Hs; [done|]. rewrite length_str_app. simpl. lia.
Qed.

#[export] Instance demo_ecdsa : Ecdsa := {
  ec_point_ok _ p := str_len p =? 65;
  ec_signature_ok _ s := negb (String.eqb s "");
  ec_verify _ p m s := String.eqb s (p +:+ m);
  P256Key := string;
  p256_from_slice s := Some s;
  p256_to_bytes s := s;
  p256_x k := demo_pad k;
  p256_y k := demo_pad "y";
  p256_sign k m := sec1_point (demo_pad k) (demo_pad "y") +:+ m;
}.

#[export] Instance demo_ecdsa_laws : EcdsaLaws.
Proof.
  split; intros; cbn -[demo_pad str_len]; try apply demo_pad_len; try reflexivity.
  - unfold sec1_point.
    assert (str_len (String "004" (demo_pad k +:+ demo_pad "y")) = 65) as ->; [|done].
    unfold str_len in *. simpl String.length. rewrite length_str_app.
    pose proof (demo_pad_len k). pose proof (demo_pad_len "y"). unfold str_len in *. lia.
  - apply String.eqb_refl.
Defined.

Definition demo_key : P256Key := "server-key".
Definition demo_client_key : P256Key := "client-key".

#[export] Instance demo_serde_string : Serde string := { to_vec s := Ok s; from_slice s := Ok s }.
#[export] Instance demo_serde_string_laws : SerdeLaws string.
Proof. split. by intros t b [= ->]. Defined.
