(* ===== verification/StoreTypes.v ===== *)
(** * The storage contracts

    [src/rust-core/src/storage/traits.rs], the error type of
    [storage/mod.rs] and the OAuth records of [oauth/store.rs].  Each trait is
    a type class of operations over a store; [OAuthStoreOk] states what the
    OAuth layer relies on, as a refinement of the abstract state [OAuthView],
    and is what the endpoints' theorems are proved against. *)

From Stdlib Require Import ZArith Lia Ascii.
From S2P Require Import Prelude RustStr Externals.

(** ** Errors *)

Inductive StorageError :=
| Sqlite (msg : string)
| AsyncSqlite (msg : string)
| Pool (msg : string)
| Crypto (msg : string)
| BlockNotFound
| Constraint (msg : string).

(** The [Display] text ([thiserror] attributes). *)
Definition StorageError_to_string (e : StorageError) : string :=
  match e with
  | Sqlite m => "sqlite error: " +:+ m
  | AsyncSqlite m => "async sqlite error: " +:+ m
  | Pool m => "pool error: " +:+ m
  | Crypto m => "crypto error: " +:+ m
  | BlockNotFound => "block not found"
  | Constraint m => "constraint violation: " +:+ m
  end.

(** ** OAuth records *)

Definition hash_secret `{Digests} (secret : string) : string :=
  hexlower_encode (sha256 secret).

Record StoredPushedRequest := {
  spr_request_uri_hash : string;
  spr_client_id : string;
  spr_redirect_uri : string;
  spr_scope : string;
  spr_state : string;
  spr_code_challenge : string;
  spr_dpop_jkt : option string;
  spr_login_hint : option string;
  spr_expires_at : Z;
}.

Record AuthCode := {
  ac_code_hash : string;
  ac_did : string;
  ac_client_id : string;
  ac_redirect_uri : string;
  ac_scope : string;
  ac_code_challenge : string;
  ac_dpop_jkt : option string;
  ac_expires_at : Z;
}.

Record RefreshTokenRecord := {
  rt_token_hash : string;
  rt_session_id : string;
  rt_did : string;
  rt_client_id : string;
  rt_scope : string;
  rt_dpop_jkt : string;
  rt_issued_at : Z;
  rt_expires_at : Z;
}.

Inductive ConsumeResult :=
| Consumed (r : RefreshTokenRecord)
| Reused (session_id : string)
| NotFound.

(** One row of [list_accounts]. *)
Record AccountSummary := {
  as_did : string;
  as_handle : option string;
  as_deactivated_at : option string;
  as_takedown_ref : option string;
  as_created_at : string;
}.

(** ** The traits, as operations over a store [S] *)

Notation "'op' S A" := (SE S StorageError A) (at level 10, S at level 9, A at level 9).

Class BlockStore (Cid S : Type) := {
  read_block_bytes : Cid -> op S bytes;
  put_block : Cid -> bytes -> op S unit;
}.

Class Sequencer (S : Type) := {
  max_seq : op S Z;
  backfill_page : Z -> Z -> op S (list (Z * bytes));
}.

Class RepoStore (Cid S : Type) := {
  repo_block_store :: BlockStore Cid S;
  repo_sequencer :: Sequencer S;
  load_repo_root : string -> op S (option Cid);
  update_repo_root : string -> Cid -> op S unit;
  commit_blocks : list (Cid * bytes) -> string -> Cid -> bytes -> op S Z;
}.

(** [created_at] and takedown stamps come from the clock: [now] is the
    formatted time the operation reads. *)
Class AccountStore (S : Type) := {
  count_accounts : op S Z;
  insert_account : string -> string -> option string -> string -> string -> op S unit;
  count_and_insert_account : string -> string -> option string -> string -> string -> op S Z;
  get_account_by_handle : string -> op S (option (string * string));
  get_did_by_handle : string -> op S (option string);
  get_handle_by_did : string -> op S (option string);
  list_accounts : op S (list AccountSummary);
  update_password : string -> string -> op S Z;
  set_takedown : string -> string -> string -> op S Z;
  clear_takedown : string -> op S Z;
  insert_invite : string -> Z -> string -> op S unit;
  consume_invite : string -> string -> op S bool;
  upsert_preferences : string -> string -> op S unit;
  get_preferences : string -> op S (option string);
}.

Class KeyStore (S : Type) := {
  put_key_blob : string -> bytes -> op S unit;
  get_key_blob : string -> op S (option bytes);
}.

Class BlobStore (S : Type) := {
  put_blob : string -> string -> string -> Z -> bytes -> op S unit;
  get_blob : string -> string -> op S (option (string * bytes));
  list_blobs : string -> Z -> option string -> op S (list string);
}.

Class OAuthStore (S : Type) := {
  put_pushed_request : StoredPushedRequest -> op S unit;
  get_pushed_request : string -> Z -> op S (option StoredPushedRequest);
  delete_pushed_request : string -> op S unit;
  put_auth_code : AuthCode -> op S unit;
  consume_auth_code : string -> Z -> op S (option AuthCode);
  put_refresh_token : RefreshTokenRecord -> op S unit;
  consume_refresh_token : string -> Z -> op S ConsumeResult;
  revoke_session : string -> op S Z;
  revoke_refresh_token : string -> op S bool;
  list_sessions_for_did : string -> Z -> op S (list RefreshTokenRecord);
  record_dpop_jti : string -> Z -> op S bool;
  purge_expired : Z -> op S Z;
}.

Class StorageBackend (Cid S : Type) := {
  backend_repo :: RepoStore Cid S;
  backend_accounts :: AccountStore S;
  backend_keys :: KeyStore S;
  backend_blobs :: BlobStore S;
  backend_oauth :: OAuthStore S;
}.

(** ** What the OAuth layer relies on

    The abstract state of the authorization server: pushed requests, codes not
    yet redeemed, refresh tokens with their spent mark, and the DPoP replay
    cache. *)
Record OAuthView := {
  v_par : gmap string StoredPushedRequest;
  v_codes : gmap string AuthCode;
  v_refresh : gmap string (RefreshTokenRecord * bool);
  v_jti : gmap string Z;
}.

Definition v_set_par m v := {| v_par := m; v_codes := v_codes v;
  v_refresh := v_refresh v; v_jti := v_jti v |}.
Definition v_set_codes m v := {| v_par := v_par v; v_codes := m;
  v_refresh := v_refresh v; v_jti := v_jti v |}.
Definition v_set_refresh m v := {| v_par := v_par v; v_codes := v_codes v;
  v_refresh := m; v_jti := v_jti v |}.
Definition v_set_jti m v := {| v_par := v_par v; v_codes := v_codes v;
  v_refresh := v_refresh v; v_jti := m |}.

(** [refines view m f]: on every store the operation [m] either fails and
    leaves the abstract state alone, or returns what [f] returns on the
    abstract state and moves to the state [f] gives. *)
Definition refines {S V A} (view : S -> V) (m : op S A) (f : V -> A * V) : Prop :=
  forall s, (exists e s', m s = (Err e, s') /\ view s' = view s) \/
            (exists s', m s = (Ok (fst (f (view s))), s') /\ view s' = snd (f (view s))).

(** The chain of a refresh token, and the rows that survive a revocation. *)
Definition in_session (sid : string) (p : RefreshTokenRecord * bool) : Prop :=
  rt_session_id (fst p) = sid.
#[export] Instance in_session_dec sid p : Decision (in_session sid p).
Proof. unfold in_session. apply _. Defined.

Definition drop_session (sid : string) (m : gmap string (RefreshTokenRecord * bool)) :=
  filter (fun kv => ~ in_session sid (snd kv)) m.

Definition spec_consume_auth_code (h : string) (now : Z) (v : OAuthView) :=
  (match v_codes v !! h with
   | Some c => if now <? ac_expires_at c then Some c else None
   | None => None
   end, v_set_codes (delete h (v_codes v)) v).

Definition spec_consume_refresh_token (h : string) (now : Z) (v : OAuthView) :=
  match v_refresh v !! h with
  | None => (NotFound, v)
  | Some (r, used) =>
      if rt_expires_at r <=? now then (NotFound, v)
      else if (used : bool) then (Reused (rt_session_id r), v)
      else (Consumed r, v_set_refresh (<[h := (r, true)]> (v_refresh v)) v)
  end.

Definition spec_revoke_session (sid : string) (v : OAuthView) :=
  let m := drop_session sid (v_refresh v) in
  (Z.of_nat (size (v_refresh v)) - Z.of_nat (size m), v_set_refresh m v).

Definition spec_revoke_refresh_token (h : string) (v : OAuthView) :=
  match v_refresh v !! h with
  | None => (false, v)
  | Some (r, _) => (true, v_set_refresh (drop_session (rt_session_id r) (v_refresh v)) v)
  end.

Definition spec_record_dpop_jti (jti : string) (expires_at : Z) (v : OAuthView) :=
  match v_jti v !! jti with
  | Some _ => (false, v)
  | None => (true, v_set_jti (<[jti := expires_at]> (v_jti v)) v)
  end.

Definition spec_get_pushed_request (h : string) (now : Z) (v : OAuthView) :=
  (match v_par v !! h with
   | Some r => if now <? spr_expires_at r then Some r else None
   | None => None
   end, v).

Class OAuthStoreOk (S : Type) `{OAuthStore S} := {
  oview : S -> OAuthView;
  put_pushed_request_ok r : refines oview (put_pushed_request r)
    (fun v => (tt, v_set_par (<[spr_request_uri_hash r := r]> (v_par v)) v));
  get_pushed_request_ok h now :
    refines oview (get_pushed_request h now) (spec_get_pushed_request h now);
  delete_pushed_request_ok h : refines oview (delete_pushed_request h)
    (fun v => (tt, v_set_par (delete h (v_par v)) v));
  put_auth_code_ok c : refines oview (put_auth_code c)
    (fun v => (tt, v_set_codes (<[ac_code_hash c := c]> (v_codes v)) v));
  consume_auth_code_ok h now :
    refines oview (consume_auth_code h now) (spec_consume_auth_code h now);
  put_refresh_token_ok r : refines oview (put_refresh_token r)
    (fun v => (tt, v_set_refresh (<[rt_token_hash r := (r, false)]> (v_refresh v)) v));
  consume_refresh_token_ok h now :
    refines oview (consume_refresh_token h now) (spec_consume_refresh_token h now);
  revoke_session_ok sid : refines oview (revoke_session sid) (spec_revoke_session sid);
  revoke_refresh_token_ok h :
    refines oview (revoke_refresh_token h) (spec_revoke_refresh_token h);
  record_dpop_jti_ok j e :
    refines oview (record_dpop_jti j e) (spec_record_dpop_jti j e);
}.

(** ** Lemmas *)

Lemma refines_Ok {S V A} (view : S -> V) (m : op S A) f s a s' :
  refines view m f -> m s = (Ok a, s') -> a = fst (f (view s)) /\ view s' = snd (f (view s)).
Proof. intros H E. destruct (H s) as [(? & ? & ? & ?)|(? & ? & ?)]; naive_solver congruence. Qed.

Lemma refines_Err {S V A} (view : S -> V) (m : op S A) f s e s' :
  refines view m f -> m s = (Err e, s') -> view s' = view s.
Proof. intros H E. destruct (H s) as [(? & ? & ? & ?)|(? & ? & ?)]; naive_solver congruence. Qed.

Lemma drop_session_lookup sid m h p :
  drop_session sid m !! h = Some p <-> m !! h = Some p /\ rt_session_id (fst p) <> sid.
Proof. unfold drop_session. by rewrite map_lookup_filter_Some. Qed.
