(* ===== verification/Paging.v ===== *)
(** * Cursor pagination over a sorted key space

    [listBlobs] and [listRecords] page the same way: keep the entries whose key
    is after the cursor, take [limit] of them, and hand back the last key as
    the next cursor. *)

From Stdlib Require Import ZArith Lia Ascii.
From S2P Require Import Prelude RustStr.

Section Paging.
Context {A : Type} (key : A -> string).
Implicit Types (l : list A).

(** Keys strictly ascending. *)
Definition key_lt (x y : A) : Prop := str_ltb (key x) (key y) = true.
Definition ascending : list A -> Prop := StronglySorted key_lt.

Definition after (cursor : option string) (x : A) : bool :=
  match cursor with None => true | Some cur => str_ltb cur (key x) end.

Definition page (limit : nat) (cursor : option string) l : list A :=
  take limit (List.filter (after cursor) l).

(** A client that follows the cursor until a page comes back empty. *)
Fixpoint collect (fuel limit : nat) (cursor : option string) l : list A :=
  match fuel with
  | O => []
  | S fuel =>
      let p := page limit cursor l in
      match last p with
      | None => []
      | Some x => p ++ collect fuel limit (Some (key x)) l
      end
  end.

Definition cursor_of (l : list A) : option string := option_map key (last l).

(** The entries after the last key of a prefix are the rest of the list. *)
Lemma filter_after_split pre suf :
  ascending (pre ++ suf) -> List.filter (after (cursor_of pre)) (pre ++ suf) = suf.
Proof.
  destruct pre as [|x pre' _] using rev_ind; unfold cursor_of.
  { intros _. apply filter_all. by apply Forall_true. }
  rewrite last_snoc. cbn [option_map]. rewrite <- app_assoc. intros Hs.
  pose proof (StronglySorted_app_1_r _ _ _ Hs) as [Hx _]%StronglySorted_cons.
  rewrite List.filter_app, (filter_none _ pre').
  - cbn. rewrite str_ltb_irrefl. apply filter_all. done.
  - rewrite Forall_forall. intros y Hy.
    pose proof (StronglySorted_app_1_elem_of _ _ _ y x Hs Hy ltac:(left)) as Hyx.
    simpl. destruct (str_ltb (key x) (key y)) eqn:E; [|done].
    pose proof (str_ltb_trans _ _ _ Hyx E) as Hc. by rewrite str_ltb_irrefl in Hc.
Qed.

Lemma page_split limit pre suf :
  ascending (pre ++ suf) -> page limit (cursor_of pre) (pre ++ suf) = take limit suf.
Proof. intros Hs. unfold page. by rewrite filter_after_split. Qed.

Lemma collect_split fuel limit pre suf :
  (1 <= limit)%nat -> (length suf < fuel)%nat -> ascending (pre ++ suf) ->
  collect fuel limit (cursor_of pre) (pre ++ suf) = suf.
Proof.
  intros Hl. revert pre suf. induction fuel as [|fuel IH]; intros pre suf Hf Hs; [lia|].
  simpl. rewrite page_split by done.
  destruct (last (take limit suf)) as [x|] eqn:E.
  - assert (take limit suf <> []) as Hne by (intros H0; by rewrite H0 in E).
    assert (0 < length (take limit suf))%nat.
    { destruct (take limit suf); [done|simpl; lia]. }
    rewrite length_take in H.
    assert (Some (key x) = cursor_of (pre ++ take limit suf)) as ->.
    { unfold cursor_of. rewrite last_app, E. done. }
    rewrite <- (take_drop limit suf) at 3. rewrite app_assoc. rewrite IH.
    + apply take_drop.
    + rewrite length_drop. lia.
    + by rewrite <- app_assoc, take_drop.
  - apply last_None in E. destruct suf, limit; simpl in *; [done|done|lia|done].
Qed.

Lemma collect_all fuel limit l :
  (1 <= limit)%nat -> (length l < fuel)%nat -> ascending l -> collect fuel limit None l = l.
Proof. apply (collect_split fuel limit [] l). Qed.

End Paging.

(** A duplicate-free list sorted by [<=] is strictly ascending. *)
Lemma sorted_nodup_ascending (l : list string) :
  StronglySorted String.le l -> NoDup l -> ascending id l.
Proof.
  unfold ascending. induction 1 as [|x l Hl IH Hx]; intros Hn; [constructor|].
  inversion_clear Hn as [|?? Hnin Hnd]. constructor; [by apply IH|].
  rewrite Forall_forall in *. intros y Hy. apply str_ltb_le_iff. split; [by apply Hx|].
  intros E. unfold id in E. by subst.
Qed.
