(* ===== verification/MemoryStore.v ===== *)
(** * The in-memory storage backend

    [src/rust-core/src/storage/memory/mod.rs].  One mutex guards the whole
    state, so every method is one atomic step on [Inner]: an operation
    [Inner -> result StorageError A * Inner].  The clock's readings are
    arguments.  The iteration order of a [HashMap] is unspecified; where the
    code sorts afterwards the result does not depend on it, and where it
    searches ([active_by_handle]) the invariant makes the match unique. *)

From Stdlib Require Import ZArith Lia Ascii.
From S2P Require Import Prelude RustStr Externals StoreTypes.

Record Account := MkAccount {
  a_did : string;
  a_handle : option string;
  a_email : option string;
  a_password_phc : string;
  a_created_at : string;
  a_deactivated_at : option string;
  a_takedown_ref : option string;
  a_ordinal : Z;
}.

Record Invite := MkInvite { available_uses : Z; disabled : bool }.

Record SeqRow := MkSeqRow { seq_no : Z; event : bytes; invalidated : bool }.

Section MemoryStore.
Context {Cid : Type} `{Countable Cid}.

(** ** State *)

Record Inner := MkInner {
  blocks : gmap Cid bytes;
  repo_seq : list SeqRow;
  next_seq : Z;
  repo_roots : gmap string Cid;
  accounts : gmap string Account;
  next_ordinal : Z;
  invites : gmap string Invite;
  invite_uses : gset (string * string);
  keys : gmap string bytes;
  blobs : gmap (string * string) (string * bytes);
  prefs : gmap string string;
  oauth_par : gmap string StoredPushedRequest;
  oauth_codes : gmap string AuthCode;
  oauth_refresh : gmap string (RefreshTokenRecord * bool);
  oauth_jti : gmap string Z;
}.

Definition Inner_default : Inner :=
  MkInner ∅ [] 0 ∅ ∅ 0 ∅ ∅ ∅ ∅ ∅ ∅ ∅ ∅ ∅.

Definition set_blocks (v : gmap Cid bytes) (g : Inner) : Inner :=
  MkInner v g.(repo_seq) g.(next_seq) g.(repo_roots) g.(accounts) g.(next_ordinal)
    g.(invites) g.(invite_uses) g.(keys) g.(blobs) g.(prefs) g.(oauth_par)
    g.(oauth_codes) g.(oauth_refresh) g.(oauth_jti).
Definition set_repo_seq (v : list SeqRow) (g : Inner) : Inner :=
  MkInner g.(blocks) v g.(next_seq) g.(repo_roots) g.(accounts) g.(next_ordinal)
    g.(invites) g.(invite_uses) g.(keys) g.(blobs) g.(prefs) g.(oauth_par)
    g.(oauth_codes) g.(oauth_refresh) g.(oauth_jti).
Definition set_next_seq (v : Z) (g : Inner) : Inner :=
  MkInner g.(blocks) g.(repo_seq) v g.(repo_roots) g.(accounts) g.(next_ordinal)
    g.(invites) g.(invite_uses) g.(keys) g.(blobs) g.(prefs) g.(oauth_par)
    g.(oauth_codes) g.(oauth_refresh) g.(oauth_jti).
Definition set_repo_roots (v : gmap string Cid) (g : Inner) : Inner :=
  MkInner g.(blocks) g.(repo_seq) g.(next_seq) v g.(accounts) g.(next_ordinal)
    g.(invites) g.(invite_uses) g.(keys) g.(blobs) g.(prefs) g.(oauth_par)
    g.(oauth_codes) g.(oauth_refresh) g.(oauth_jti).
Definition set_accounts (v : gmap string Account) (g : Inner) : Inner :=
  MkInner g.(blocks) g.(repo_seq) g.(next_seq) g.(repo_roots) v g.(next_ordinal)
    g.(invites) g.(invite_uses) g.(keys) g.(blobs) g.(prefs) g.(oauth_par)
    g.(oauth_codes) g.(oauth_refresh) g.(oauth_jti).
Definition set_next_ordinal (v : Z) (g : Inner) : Inner :=
  MkInner g.(blocks) g.(repo_seq) g.(next_seq) g.(repo_roots) g.(accounts) v g.(invites)
    g.(invite_uses) g.(keys) g.(blobs) g.(prefs) g.(oauth_par) g.(oauth_codes)
    g.(oauth_refresh) g.(oauth_jti).
Definition set_invites (v : gmap string Invite) (g : Inner) : Inner :=
  MkInner g.(blocks) g.(repo_seq) g.(next_seq) g.(repo_roots) g.(accounts)
    g.(next_ordinal) v g.(invite_uses) g.(keys) g.(blobs) g.(prefs) g.(oauth_par)
    g.(oauth_codes) g.(oauth_refresh) g.(oauth_jti).
Definition set_invite_uses (v : gset (string * string)) (g : Inner) : Inner :=
  MkInner g.(blocks) g.(repo_seq) g.(next_seq) g.(repo_roots) g.(accounts)
    g.(next_ordinal) g.(invites) v g.(keys) g.(blobs) g.(prefs) g.(oauth_par)
    g.(oauth_codes) g.(oauth_refresh) g.(oauth_jti).
Definition set_keys (v : gmap string bytes) (g : Inner) : Inner :=
  MkInner g.(blocks) g.(repo_seq) g.(next_seq) g.(repo_roots) g.(accounts)
    g.(next_ordinal) g.(invites) g.(invite_uses) v g.(blobs) g.(prefs) g.(oauth_par)
    g.(oauth_codes) g.(oauth_refresh) g.(oauth_jti).
Definition set_blobs (v : gmap (string * string) (string * bytes)) (g : Inner) : Inner :=
  MkInner g.(blocks) g.(repo_seq) g.(next_seq) g.(repo_roots) g.(accounts)
    g.(next_ordinal) g.(invites) g.(invite_uses) g.(keys) v g.(prefs) g.(oauth_par)
    g.(oauth_codes) g.(oauth_refresh) g.(oauth_jti).
Definition set_prefs (v : gmap string string) (g : Inner) : Inner :=
  MkInner g.(blocks) g.(repo_seq) g.(next_seq) g.(repo_roots) g.(accounts)
    g.(next_ordinal) g.(invites) g.(invite_uses) g.(keys) g.(blobs) v g.(oauth_par)
    g.(oauth_codes) g.(oauth_refresh) g.(oauth_jti).
Definition set_oauth_par (v : gmap string StoredPushedRequest) (g : Inner) : Inner :=
  MkInner g.(blocks) g.(repo_seq) g.(next_seq) g.(repo_roots) g.(accounts)
    g.(next_ordinal) g.(invites) g.(invite_uses) g.(keys) g.(blobs) g.(prefs) v
    g.(oauth_codes) g.(oauth_refresh) g.(oauth_jti).
Definition set_oauth_codes (v : gmap string AuthCode) (g : Inner) : Inner :=
  MkInner g.(blocks) g.(repo_seq) g.(next_seq) g.(repo_roots) g.(accounts)
    g.(next_ordinal) g.(invites) g.(invite_uses) g.(keys) g.(blobs) g.(prefs)
    g.(oauth_par) v g.(oauth_refresh) g.(oauth_jti).
Definition set_oauth_refresh (v : gmap string (RefreshTokenRecord * bool)) (g : Inner) : Inner :=
  MkInner g.(blocks) g.(repo_seq) g.(next_seq) g.(repo_roots) g.(accounts)
    g.(next_ordinal) g.(invites) g.(invite_uses) g.(keys) g.(blobs) g.(prefs)
    g.(oauth_par) g.(oauth_codes) v g.(oauth_jti).
Definition set_oauth_jti (v : gmap string Z) (g : Inner) : Inner :=
  MkInner g.(blocks) g.(repo_seq) g.(next_seq) g.(repo_roots) g.(accounts)
    g.(next_ordinal) g.(invites) g.(invite_uses) g.(keys) g.(blobs) g.(prefs)
    g.(oauth_par) g.(oauth_codes) g.(oauth_refresh) v.

(** ** Helpers on [Inner] *)

Definition is_none {A} (o : option A) : bool := match o with None => true | _ => false end.

Definition account_visible (a : Account) : bool :=
  is_none (a_deactivated_at a) && is_none (a_takedown_ref a).

Definition has_handle (handle : string) (a : Account) : bool :=
  match a_handle a with Some h => String.eqb h handle | None => false end.

Definition account_values (g : Inner) : list Account := (map_to_list g.(accounts)).*2.

Definition active (did : string) (g : Inner) : option Account :=
  a ← g.(accounts) !! did; if account_visible a then Some a else None.

Definition active_by_handle (handle : string) (g : Inner) : option Account :=
  a ← List.find (has_handle handle) (account_values g);
  if account_visible a then Some a else None.

(** A read: the answer is a function of the state under the guard. *)
Definition read {A} (f : Inner -> A) : op Inner A := fun g => (Ok (f g), g).
(** A write that cannot fail. *)
Definition write {A} (a : A) (f : Inner -> Inner) : op Inner A := fun g => (Ok a, f g).

(** [HashMap::entry(k).or_insert(v)]. *)
Definition or_insert `{Countable K} {V} (k : K) (v : V) (m : gmap K V) : gmap K V :=
  match m !! k with Some _ => m | None => <[k := v]> m end.

(** ** Blocks, sequencer, repo roots *)

Definition mem_read_block_bytes (cid : Cid) : op Inner bytes :=
  fun g => (ok_or (g.(blocks) !! cid) BlockNotFound, g).

Definition mem_put_block (cid : Cid) (b : bytes) : op Inner unit :=
  write tt (fun g => set_blocks (or_insert cid b g.(blocks)) g).

Definition mem_max_seq : op Inner Z :=
  read (fun g => match last g.(repo_seq) with Some r => seq_no r | None => 0 end).

Definition in_page (after_seq : Z) (r : SeqRow) : bool :=
  (after_seq <? seq_no r) && negb (invalidated r).

Definition mem_backfill_page (after_seq limit : Z) : op Inner (list (Z * bytes)) :=
  read (fun g =>
    map (fun r => (seq_no r, event r))
      (take (Z.to_nat (Z.max limit 0)) (List.filter (in_page after_seq) g.(repo_seq)))).

Definition mem_load_repo_root (did : string) : op Inner (option Cid) :=
  read (fun g => g.(repo_roots) !! did).

Definition mem_update_repo_root (did : string) (root_cid : Cid) : op Inner unit :=
  write tt (fun g => set_repo_roots (<[did := root_cid]> g.(repo_roots)) g).

Definition insert_blocks (bs : list (Cid * bytes)) (m : gmap Cid bytes) : gmap Cid bytes :=
  foldl (fun m '(cid, b) => or_insert cid b m) m bs.

Definition mem_commit_blocks (bs : list (Cid * bytes)) (did : string) (new_root : Cid)
    (event_body : bytes) : op Inner Z :=
  fun g =>
    let g := set_blocks (insert_blocks bs g.(blocks)) g in
    let g := set_next_seq (i64_add g.(next_seq) 1) g in
    let seq := g.(next_seq) in
    let g := set_repo_seq (g.(repo_seq) ++ [MkSeqRow seq event_body false]) g in
    let g := set_repo_roots (<[did := new_root]> g.(repo_roots)) g in
    (Ok seq, g).

(** ** Accounts *)

Definition mem_count_accounts : op Inner Z :=
  read (fun g => Z.of_nat (size g.(accounts))).

Definition insert_account_locked (did handle : string) (email : option string)
    (password_phc now : string) : op Inner unit :=
  fun g =>
    match g.(accounts) !! did with
    | Some _ => (Err (Constraint ("account already exists: " +:+ did)), g)
    | None =>
        if existsb (has_handle handle) (account_values g) then
          (Err (Constraint ("handle already taken: " +:+ handle)), g)
        else
          let ordinal := g.(next_ordinal) in
          let g := set_next_ordinal (u64_add g.(next_ordinal) 1) g in
          (Ok tt, set_accounts
             (<[did := MkAccount did (Some handle) email password_phc now None None ordinal]>
                g.(accounts)) g)
    end.

Definition mem_insert_account := insert_account_locked.

Definition mem_count_and_insert_account (did handle : string) (email : option string)
    (password_phc now : string) : op Inner Z :=
  fun g =>
    let before := Z.of_nat (size g.(accounts)) in
    bind (insert_account_locked did handle email password_phc now)
      (fun _ => ret before) g.

Definition mem_get_account_by_handle (handle : string) : op Inner (option (string * string)) :=
  read (fun g => option_map (fun a => (a_did a, a_password_phc a)) (active_by_handle handle g)).

Definition mem_get_did_by_handle (handle : string) : op Inner (option string) :=
  read (fun g => option_map a_did (active_by_handle handle g)).

Definition mem_get_handle_by_did (did : string) : op Inner (option string) :=
  read (fun g => a ← active did g; a_handle a).

(** [sort_by] on [(created_at, ordinal)]. *)
Definition account_le (a b : Account) : Prop :=
  str_ltb (a_created_at a) (a_created_at b) = true \/
  (a_created_at a = a_created_at b /\ a_ordinal a <= a_ordinal b).
#[local] Instance account_le_dec : RelDecision account_le.
Proof. unfold account_le. intros a b. apply _. Defined.

Definition summary (a : Account) : AccountSummary := {|
  as_did := a_did a; as_handle := a_handle a; as_deactivated_at := a_deactivated_at a;
  as_takedown_ref := a_takedown_ref a; as_created_at := a_created_at a |}.

Definition mem_list_accounts : op Inner (list AccountSummary) :=
  read (fun g => map summary (merge_sort account_le (account_values g))).

(** [accounts.get_mut(did)]: change the row in place, and count the rows changed. *)
Definition alter_account (f : Account -> Account) (did : string) : op Inner Z :=
  fun g => match g.(accounts) !! did with
           | Some a => (Ok 1, set_accounts (<[did := f a]> g.(accounts)) g)
           | None => (Ok 0, g)
           end.

Definition with_password (phc : string) (a : Account) : Account :=
  MkAccount (a_did a) (a_handle a) (a_email a) phc (a_created_at a) (a_deactivated_at a)
    (a_takedown_ref a) (a_ordinal a).
Definition with_takedown (t : option string) (a : Account) : Account :=
  MkAccount (a_did a) (a_handle a) (a_email a) (a_password_phc a) (a_created_at a)
    (a_deactivated_at a) t (a_ordinal a).

Definition mem_update_password (did password_phc : string) : op Inner Z :=
  alter_account (with_password password_phc) did.
Definition mem_set_takedown (did reference now : string) : op Inner Z :=
  alter_account
    (with_takedown (Some (if String.eqb reference "" then now else reference))) did.
Definition mem_clear_takedown (did : string) : op Inner Z :=
  alter_account (with_takedown None) did.

(** ** Invites and preferences *)

Definition mem_insert_invite (code : string) (uses : Z) (_for_account : string)
    : op Inner unit :=
  fun g => match g.(invites) !! code with
           | Some _ => (Err (Constraint ("invite code already exists: " +:+ code)), g)
           | None => (Ok tt, set_invites (<[code := MkInvite uses false]> g.(invites)) g)
           end.

Definition mem_consume_invite (code used_by : string) : op Inner bool :=
  fun g =>
    match g.(invites) !! code with
    | None => (Ok false, g)
    | Some i =>
        if disabled i then (Ok false, g)
        else if available_uses i <=? 0 then (Ok false, g)
        else if decide ((code, used_by) ∈ g.(invite_uses)) then (Ok false, g)
        else
          let g := set_invite_uses ({[ (code, used_by) ]} ∪ g.(invite_uses)) g in
          (Ok true,
           set_invites (<[code := MkInvite (available_uses i - 1) (disabled i)]> g.(invites)) g)
    end.

Definition mem_upsert_preferences (did prefs_json : string) : op Inner unit :=
  write tt (fun g => set_prefs (<[did := prefs_json]> g.(prefs)) g).

Definition mem_get_preferences (did : string) : op Inner (option string) :=
  read (fun g => g.(prefs) !! did).

(** ** Keys and blobs *)

Definition mem_put_key_blob (id : string) (ciphertext : bytes) : op Inner unit :=
  write tt (fun g => set_keys (<[id := ciphertext]> g.(keys)) g).

Definition mem_get_key_blob (id : string) : op Inner (option bytes) :=
  read (fun g => g.(keys) !! id).

Definition mem_put_blob (did cid mime_type : string) (_size : Z) (b : bytes) : op Inner unit :=
  write tt (fun g => set_blobs (<[(did, cid) := (mime_type, b)]> g.(blobs)) g).

Definition mem_get_blob (did cid : string) : op Inner (option (string * bytes)) :=
  read (fun g => g.(blobs) !! (did, cid)).

Definition blob_cids (did : string) (g : Inner) : list string :=
  map snd (List.filter (fun k => String.eqb (fst k) did) (map_to_list g.(blobs)).*1).

Definition after_cursor (cursor : option string) (c : string) : bool :=
  match cursor with None => true | Some cur => str_ltb cur c end.

Definition mem_list_blobs (did : string) (limit : Z) (cursor : option string)
    : op Inner (list string) :=
  read (fun g =>
    take (Z.to_nat limit)
      (List.filter (after_cursor cursor) (merge_sort String.le (blob_cids did g)))).

(** ** OAuth state *)

Definition mem_put_pushed_request (r : StoredPushedRequest) : op Inner unit :=
  write tt (fun g => set_oauth_par (<[spr_request_uri_hash r := r]> g.(oauth_par)) g).

Definition mem_get_pushed_request (h : string) (now : Z)
    : op Inner (option StoredPushedRequest) :=
  read (fun g => r ← g.(oauth_par) !! h; if now <? spr_expires_at r then Some r else None).

Definition mem_delete_pushed_request (h : string) : op Inner unit :=
  write tt (fun g => set_oauth_par (delete h g.(oauth_par)) g).

Definition mem_put_auth_code (c : AuthCode) : op Inner unit :=
  write tt (fun g => set_oauth_codes (<[ac_code_hash c := c]> g.(oauth_codes)) g).

Definition mem_consume_auth_code (code_hash : string) (now : Z) : op Inner (option AuthCode) :=
  fun g =>
    (Ok (c ← g.(oauth_codes) !! code_hash; if now <? ac_expires_at c then Some c else None),
     set_oauth_codes (delete code_hash g.(oauth_codes)) g).

Definition mem_put_refresh_token (r : RefreshTokenRecord) : op Inner unit :=
  write tt (fun g => set_oauth_refresh (<[rt_token_hash r := (r, false)]> g.(oauth_refresh)) g).

Definition mem_consume_refresh_token (token_hash : string) (now : Z) : op Inner ConsumeResult :=
  fun g =>
    match g.(oauth_refresh) !! token_hash with
    | None => (Ok NotFound, g)
    | Some (rec, used) =>
        if rt_expires_at rec <=? now then (Ok NotFound, g)
        else if (used : bool) then (Ok (Reused (rt_session_id rec)), g)
        else (Ok (Consumed rec),
              set_oauth_refresh (<[token_hash := (rec, true)]> g.(oauth_refresh)) g)
    end.

Definition retain_refresh (sid : string) (g : Inner) : Inner :=
  set_oauth_refresh (drop_session sid g.(oauth_refresh)) g.

Definition mem_revoke_session (sid : string) : op Inner Z :=
  fun g =>
    let before := Z.of_nat (size g.(oauth_refresh)) in
    let g := retain_refresh sid g in
    (Ok (before - Z.of_nat (size g.(oauth_refresh))), g).

Definition mem_revoke_refresh_token (token_hash : string) : op Inner bool :=
  fun g =>
    match g.(oauth_refresh) !! token_hash with
    | None => (Ok false, g)
    | Some (rec, _) => (Ok true, retain_refresh (rt_session_id rec) g)
    end.

(** [sort_by] on [issued_at] descending, then [token_hash]. *)
Definition session_le (a b : RefreshTokenRecord) : Prop :=
  rt_issued_at b < rt_issued_at a \/
  (rt_issued_at a = rt_issued_at b /\ String.le (rt_token_hash a) (rt_token_hash b)).
#[local] Instance session_le_dec : RelDecision session_le.
Proof. unfold session_le. intros a b. apply _. Defined.

Definition is_open_session (did : string) (now : Z) (p : RefreshTokenRecord * bool) : bool :=
  negb (snd p) && String.eqb (rt_did (fst p)) did && (now <? rt_expires_at (fst p)).

Definition mem_list_sessions_for_did (did : string) (now : Z)
    : op Inner (list RefreshTokenRecord) :=
  read (fun g =>
    merge_sort session_le
      (map fst (List.filter (is_open_session did now) (map_to_list g.(oauth_refresh)).*2))).

Definition mem_record_dpop_jti (jti : string) (expires_at : Z) : op Inner bool :=
  fun g =>
    match g.(oauth_jti) !! jti with
    | Some _ => (Ok false, g)
    | None => (Ok true, set_oauth_jti (<[jti := expires_at]> g.(oauth_jti)) g)
    end.

Definition oauth_rows (g : Inner) : Z :=
  Z.of_nat (size g.(oauth_par)) + Z.of_nat (size g.(oauth_codes))
  + Z.of_nat (size g.(oauth_refresh)) + Z.of_nat (size g.(oauth_jti)).

Definition mem_purge_expired (now : Z) : op Inner Z :=
  fun g =>
    let before := oauth_rows g in
    let g := set_oauth_par (filter (fun kv => now < spr_expires_at (snd kv)) g.(oauth_par)) g in
    let g := set_oauth_codes (filter (fun kv => now < ac_expires_at (snd kv)) g.(oauth_codes)) g in
    let g := set_oauth_refresh
               (filter (fun kv => now < rt_expires_at (fst (snd kv))) g.(oauth_refresh)) g in
    let g := set_oauth_jti (filter (fun kv => now < snd kv) g.(oauth_jti)) g in
    (Ok (before - oauth_rows g), g).

End MemoryStore.
Arguments Inner Cid {_ _}.
