(* ===== verification/MemoryProps.v ===== *)
(** * The in-memory backend is correct

    Instances of the storage traits for [Inner], the invariant of its states,
    and the properties every interleaving of calls keeps: since one mutex
    serialises the calls, an interleaving is a list of operations. *)

From Stdlib Require Import ZArith Lia Ascii.
From S2P Require Import Prelude RustStr Externals StoreTypes Paging MemoryStore.

(** Unfold one call down to the branch it takes. *)
Ltac exec_cases :=
  simpl; try done;
  unfold mem_count_and_insert_account, mem_insert_account, insert_account_locked,
    mem_update_password, mem_set_takedown, mem_clear_takedown, alter_account,
    mem_insert_invite, mem_consume_invite, mem_consume_refresh_token,
    mem_revoke_refresh_token, mem_record_dpop_jti, bind, ret;
  repeat case_match; simplify_eq/=.

Section Instances.
Context {Cid : Type} `{Countable Cid}.

#[export] Instance mem_block_store : BlockStore Cid (Inner Cid) := {
  read_block_bytes := mem_read_block_bytes;
  put_block := mem_put_block;
}.
#[export] Instance mem_sequencer : Sequencer (Inner Cid) := {
  max_seq := mem_max_seq;
  backfill_page := mem_backfill_page;
}.
#[export] Instance mem_repo_store : RepoStore Cid (Inner Cid) := {
  load_repo_root := mem_load_repo_root;
  update_repo_root := mem_update_repo_root;
  commit_blocks := mem_commit_blocks;
}.
#[export] Instance mem_account_store : AccountStore (Inner Cid) := {
  count_accounts := mem_count_accounts;
  insert_account := mem_insert_account;
  count_and_insert_account := mem_count_and_insert_account;
  get_account_by_handle := mem_get_account_by_handle;
  get_did_by_handle := mem_get_did_by_handle;
  get_handle_by_did := mem_get_handle_by_did;
  list_accounts := mem_list_accounts;
  update_password := mem_update_password;
  set_takedown := mem_set_takedown;
  clear_takedown := mem_clear_takedown;
  insert_invite := mem_insert_invite;
  consume_invite := mem_consume_invite;
  upsert_preferences := mem_upsert_preferences;
  get_preferences := mem_get_preferences;
}.
#[export] Instance mem_key_store : KeyStore (Inner Cid) := {
  put_key_blob := mem_put_key_blob;
  get_key_blob := mem_get_key_blob;
}.
#[export] Instance mem_blob_store : BlobStore (Inner Cid) := {
  put_blob := mem_put_blob;
  get_blob := mem_get_blob;
  list_blobs := mem_list_blobs;
}.
#[export] Instance mem_oauth_store : OAuthStore (Inner Cid) := {
  put_pushed_request := mem_put_pushed_request;
  get_pushed_request := mem_get_pushed_request;
  delete_pushed_request := mem_delete_pushed_request;
  put_auth_code := mem_put_auth_code;
  consume_auth_code := mem_consume_auth_code;
  put_refresh_token := mem_put_refresh_token;
  consume_refresh_token := mem_consume_refresh_token;
  revoke_session := mem_revoke_session;
  revoke_refresh_token := mem_revoke_refresh_token;
  list_sessions_for_did := mem_list_sessions_for_did;
  record_dpop_jti := mem_record_dpop_jti;
  purge_expired := mem_purge_expired;
}.
#[export] Instance mem_backend : StorageBackend Cid (Inner Cid) := {}.

(** The OAuth tables are the abstract state of the contract. *)
Definition mem_oview (g : Inner Cid) : OAuthView := {|
  v_par := g.(oauth_par); v_codes := g.(oauth_codes);
  v_refresh := g.(oauth_refresh); v_jti := g.(oauth_jti) |}.

#[export] Instance mem_oauth_ok : OAuthStoreOk (Inner Cid).
Proof.
  refine {| oview := mem_oview |}; intros; intros g; right; simpl;
    unfold mem_get_pushed_request, mem_consume_auth_code, mem_consume_refresh_token,
      mem_revoke_refresh_token, mem_record_dpop_jti, read, write, spec_consume_refresh_token,
      spec_revoke_refresh_token, spec_record_dpop_jti, mbind, option_bind; simpl;
    repeat case_match; simpl; eexists; split; reflexivity.
Defined.

(** ** Every state-changing call, as one step *)

Inductive mem_call :=
| CPutBlock (cid : Cid) (b : bytes)
| CUpdateRepoRoot (did : string) (root : Cid)
| CCommitBlocks (bs : list (Cid * bytes)) (did : string) (root : Cid) (body : bytes)
| CInsertAccount (did handle : string) (email : option string) (phc now : string)
| CCountAndInsertAccount (did handle : string) (email : option string) (phc now : string)
| CUpdatePassword (did phc : string)
| CSetTakedown (did reference now : string)
| CClearTakedown (did : string)
| CInsertInvite (code : string) (uses : Z) (for_account : string)
| CConsumeInvite (code used_by : string)
| CUpsertPreferences (did prefs : string)
| CPutKeyBlob (id : string) (b : bytes)
| CPutBlob (did cid mime : string) (size : Z) (b : bytes)
| CPutPushedRequest (r : StoredPushedRequest)
| CDeletePushedRequest (h : string)
| CPutAuthCode (c : AuthCode)
| CConsumeAuthCode (h : string) (now : Z)
| CPutRefreshToken (r : RefreshTokenRecord)
| CConsumeRefreshToken (h : string) (now : Z)
| CRevokeSession (sid : string)
| CRevokeRefreshToken (h : string)
| CRecordDpopJti (jti : string) (expires_at : Z)
| CPurgeExpired (now : Z).

Definition exec (c : mem_call) (g : Inner Cid) : Inner Cid :=
  match c with
  | CPutBlock cid b => snd (put_block cid b g)
  | CUpdateRepoRoot did root => snd (update_repo_root did root g)
  | CCommitBlocks bs did root body => snd (commit_blocks bs did root body g)
  | CInsertAccount did h e p now => snd (insert_account did h e p now g)
  | CCountAndInsertAccount did h e p now => snd (count_and_insert_account did h e p now g)
  | CUpdatePassword did p => snd (update_password did p g)
  | CSetTakedown did r now => snd (set_takedown did r now g)
  | CClearTakedown did => snd (clear_takedown did g)
  | CInsertInvite code n a => snd (insert_invite code n a g)
  | CConsumeInvite code d => snd (consume_invite code d g)
  | CUpsertPreferences d p => snd (upsert_preferences d p g)
  | CPutKeyBlob i b => snd (put_key_blob i b g)
  | CPutBlob d c m n b => snd (put_blob d c m n b g)
  | CPutPushedRequest r => snd (put_pushed_request r g)
  | CDeletePushedRequest h => snd (delete_pushed_request h g)
  | CPutAuthCode c => snd (put_auth_code c g)
  | CConsumeAuthCode h now => snd (consume_auth_code h now g)
  | CPutRefreshToken r => snd (put_refresh_token r g)
  | CConsumeRefreshToken h now => snd (consume_refresh_token h now g)
  | CRevokeSession sid => snd (revoke_session sid g)
  | CRevokeRefreshToken h => snd (revoke_refresh_token h g)
  | CRecordDpopJti j e => snd (record_dpop_jti j e g)
  | CPurgeExpired now => snd (purge_expired now g)
  end.

Definition run (cs : list mem_call) (g : Inner Cid) : Inner Cid := foldl (fun g c => exec c g) g cs.

Definition is_commit (c : mem_call) : bool :=
  match c with CCommitBlocks _ _ _ _ => true | _ => false end.
Definition commits (cs : list mem_call) : nat := length (List.filter is_commit cs).

(** ** The sequencer's log *)

Definition log_seqs (g : Inner Cid) : list Z := map seq_no g.(repo_seq).
Definition upto (n : nat) : list Z := map Z.of_nat (seq 1 n).

Definition log_inv (n : nat) (g : Inner Cid) : Prop :=
  log_seqs g = upto n /\ g.(next_seq) = Z.of_nat n.

Lemma upto_S n : upto (S n) = upto n ++ [Z.of_nat (S n)].
Proof. unfold upto. rewrite seq_S, map_app. done. Qed.

Lemma exec_log_other c g :
  is_commit c = false -> (exec c g).(repo_seq) = g.(repo_seq) /\ (exec c g).(next_seq) = g.(next_seq).
Proof. destruct c; try done; intros _; exec_cases; done. Qed.

Lemma exec_log_inv c n g :
  log_inv n g -> Z.of_nat n < i64_max ->
  log_inv (if is_commit c then S n else n) (exec c g).
Proof.
  intros [Hl Hn] Hb. destruct (is_commit c) eqn:Hc.
  - destruct c; try done. unfold log_inv, log_seqs in *. simpl.
    assert (i64_add (next_seq g) 1 = Z.of_nat (S n)) as ->.
    { unfold i64_add. rewrite i64_wrap_id; unfold i64_max in *; lia. }
    rewrite map_app, Hl, upto_S. done.
  - destruct (exec_log_other c g Hc) as [H1 H2]. unfold log_inv, log_seqs. by rewrite H1, H2.
Qed.

Lemma run_log_inv cs n g :
  log_inv n g -> Z.of_nat (n + commits cs) <= i64_max -> log_inv (n + commits cs) (run cs g).
Proof.
  unfold commits. revert n g. induction cs as [|c cs IH]; intros n g Hi Hb; simpl in *.
  { by rewrite Nat.add_0_r. }
  assert (is_commit c = true -> Z.of_nat n < i64_max).
  { intros E. rewrite E in Hb. simpl in Hb. lia. }
  destruct (is_commit c) eqn:Hc; simpl in *.
  - rewrite <- Nat.add_succ_comm in *. apply IH; [|done].
    pose proof (exec_log_inv c n g Hi (H0 eq_refl)) as Hx. by rewrite Hc in Hx.
  - apply IH; [|done]. destruct (exec_log_other c g Hc) as [H1 H2].
    destruct Hi. unfold log_inv, log_seqs. by rewrite H1, H2.
Qed.

Lemma log_inv_default : log_inv 0 Inner_default.
Proof. done. Qed.

Lemma upto_last n : last (upto n) = match n with O => None | _ => Some (Z.of_nat n) end.
Proof. destruct n; [done|]. rewrite upto_S. by rewrite last_snoc. Qed.

Lemma log_inv_max_seq n g : log_inv n g -> fst (max_seq g) = Ok (Z.of_nat n).
Proof.
  intros [Hl _]. simpl. f_equal. unfold log_seqs in Hl.
  pose proof (upto_last n) as Hu. rewrite <- Hl in Hu.
  assert (last (map seq_no (repo_seq g)) = option_map seq_no (last (repo_seq g))) as E
    by apply (fmap_last seq_no).
  rewrite E in Hu. destruct (last (repo_seq g)), n; cbn in Hu; try discriminate; try done.
  by injection Hu.
Qed.

(** ** Accounts *)

Definition handle_unique (m : gmap string Account) : Prop :=
  forall d1 a1 d2 a2 h, m !! d1 = Some a1 -> m !! d2 = Some a2 ->
    a_handle a1 = Some h -> a_handle a2 = Some h -> d1 = d2.

Definition account_inv (g : Inner Cid) : Prop :=
  (forall d a, g.(accounts) !! d = Some a -> a_did a = d) /\ handle_unique g.(accounts).

Lemma account_values_spec (g : Inner Cid) a :
  In a (account_values g) <-> exists d, g.(accounts) !! d = Some a.
Proof.
  unfold account_values. rewrite <- list_elem_of_In, list_elem_of_fmap. split.
  - intros ([d x] & -> & E). apply elem_of_map_to_list in E. by exists d.
  - intros [d E]. exists (d, a). split; [done|]. by apply elem_of_map_to_list.
Qed.

Lemma has_handle_spec h a : has_handle h a = true <-> a_handle a = Some h.
Proof.
  unfold has_handle. destruct (a_handle a) as [x|]; [|split; discriminate].
  destruct (String.eqb_spec x h); split; congruence.
Qed.

Lemma handle_free (g : Inner Cid) h :
  existsb (has_handle h) (account_values g) = false ->
  forall d a, g.(accounts) !! d = Some a -> a_handle a <> Some h.
Proof.
  intros E d a Ha Hh. assert (existsb (has_handle h) (account_values g) = true); [|congruence].
  apply existsb_exists. exists a. rewrite has_handle_spec, account_values_spec. eauto.
Qed.

(** A row rewritten in place, keeping its DID and handle. *)
Lemma account_inv_alter (g : Inner Cid) d a a' :
  account_inv g -> g.(accounts) !! d = Some a ->
  a_did a' = a_did a -> a_handle a' = a_handle a ->
  account_inv (set_accounts (<[d := a']> g.(accounts)) g).
Proof.
  intros [Hk Hu] Ha Hd Hh. split; simpl.
  - intros d0 a0 [[<- <-]|[_ ?]]%lookup_insert_Some; [rewrite Hd|]; eauto.
  - intros d1 a1 d2 a2 h H1 H2 Hh1 Hh2.
    apply lookup_insert_Some in H1 as [[<- <-]|[? H1]];
      apply lookup_insert_Some in H2 as [[<- <-]|[? H2]]; rewrite ?Hh in *; eauto.
Qed.

Lemma account_inv_insert (g : Inner Cid) d h e p now o :
  account_inv g -> g.(accounts) !! d = None ->
  existsb (has_handle h) (account_values g) = false ->
  account_inv (set_accounts (<[d := MkAccount d (Some h) e p now None None o]> g.(accounts)) g).
Proof.
  intros [Hk Hu] Hd Hf. pose proof (handle_free g h Hf) as Hfree. split; simpl.
  - intros d0 a0 [[<- <-]|[_ ?]]%lookup_insert_Some; eauto.
  - intros d1 a1 d2 a2 h' H1 H2 Hh1 Hh2.
    apply lookup_insert_Some in H1 as [[<- <-]|[? H1]];
      apply lookup_insert_Some in H2 as [[<- <-]|[? H2]]; simplify_eq/=; eauto; exfalso; by eapply Hfree.
Qed.

Lemma account_inv_ext g g' : g'.(accounts) = g.(accounts) -> account_inv g -> account_inv g'.
Proof. unfold account_inv. by intros ->. Qed.

Lemma exec_account_inv c g : account_inv g -> account_inv (exec c g).
Proof.
  intros Hi. destruct c; exec_cases; try done;
    try (eapply account_inv_alter; eauto; done);
    change (accounts g) with (accounts (set_next_ordinal (u64_add (next_ordinal g) 1) g));
    apply account_inv_insert; done.
Qed.

Lemma run_account_inv cs g : account_inv g -> account_inv (run cs g).
Proof. revert g. induction cs; intros g Hi; [done|]. simpl. by apply IHcs, exec_account_inv. Qed.

Lemma account_inv_default : account_inv Inner_default.
Proof. split; [intros ?? E|intros ????? E]; simpl in E; by apply lookup_empty_Some in E. Qed.

(** The search by handle, through the invariant: the row found does not depend
    on the iteration order. *)
Lemma active_by_handle_Some (g : Inner Cid) h a :
  account_inv g ->
  active_by_handle h g = Some a <->
  g.(accounts) !! a_did a = Some a /\ a_handle a = Some h /\ account_visible a = true.
Proof.
  intros [Hk Hu]. unfold active_by_handle.
  destruct (List.find _ _) as [x|] eqn:E; simpl.
  - apply find_some in E as [E Hx]. apply has_handle_spec in Hx.
    apply account_values_spec in E as [d Hd]. pose proof (Hk _ _ Hd); subst d. split.
    + case_match; intros; simplify_eq. done.
    + intros (Ha & Hh & Hv). assert (a_did x = a_did a) as E by eauto.
      rewrite E in Hd. simplify_eq. by rewrite Hv.
  - split; [done|]. intros (Ha & Hh & Hv).
    assert (has_handle h a = false) as Hf.
    { eapply find_none; [exact E|]. apply account_values_spec. eauto. }
    apply has_handle_spec in Hh. congruence.
Qed.

End Instances.
Arguments mem_call Cid : clear implicits.

(** ** Counting outcomes along a run

    [hits P cs g]: how many of the calls [cs], run from [g], satisfy [P] in the
    state they are executed in. *)
Section Hits.
Context {Cid : Type} `{Countable Cid}.
Implicit Types (g : Inner Cid) (c : mem_call Cid) (cs : list (mem_call Cid)).

Fixpoint hits (P : mem_call Cid -> Inner Cid -> bool) cs g : nat :=
  match cs with
  | [] => 0
  | c :: cs => ((if P c g then 1 else 0) + hits P cs (exec c g))%nat
  end.

(** A step that satisfies [P] makes [dead] true, [dead] persists, and a dead
    state has no further hit. *)
Lemma hits_at_most_once (P : mem_call Cid -> Inner Cid -> bool) (dead : Inner Cid -> Prop)
    (allowed : mem_call Cid -> Prop) :
  (forall c g, allowed c -> P c g = true -> dead (exec c g)) ->
  (forall c g, allowed c -> dead g -> dead (exec c g)) ->
  (forall c g, dead g -> P c g = false) ->
  forall cs g, Forall allowed cs -> (hits P cs g <= 1)%nat /\ (dead g -> hits P cs g = 0%nat).
Proof.
  intros Hkill Hkeep Hdead cs. induction cs as [|c cs IH]; intros g Hall; [simpl; lia|].
  inversion_clear Hall as [|?? Hc Hcs]. simpl. destruct (IH (exec c g) Hcs) as [Hle Hz].
  destruct (P c g) eqn:E.
  - rewrite Hz by eauto. split; [lia|]. intros Hd. by rewrite Hdead in E.
  - split; [lia|]. intros Hd. rewrite Hz; eauto.
Qed.

(** *** Authorization codes *)

Definition redeems_code (h : string) (c : mem_call Cid) (g : Inner Cid) : bool :=
  match c with
  | CConsumeAuthCode h' now =>
      String.eqb h' h && match fst (consume_auth_code h' now g) with Ok (Some _) => true | _ => false end
  | _ => false
  end.

Definition reissues_code (h : string) (c : mem_call Cid) : bool :=
  match c with CPutAuthCode a => String.eqb (ac_code_hash a) h | _ => false end.

Lemma exec_code_none h c g :
  reissues_code h c = false -> g.(oauth_codes) !! h = None -> (exec c g).(oauth_codes) !! h = None.
Proof.
  intros Hr Hn. destruct c; exec_cases; try done.
  - destruct (String.eqb_spec (ac_code_hash c) h); [done|]. by rewrite lookup_insert_ne.
  - destruct (decide (h = h0)) as [->|]; [apply lookup_delete_eq|by rewrite lookup_delete_ne].
  - rewrite map_lookup_filter_None. by left.
Qed.

Lemma redeems_code_kills h c g :
  redeems_code h c g = true -> (exec c g).(oauth_codes) !! h = None.
Proof.
  destruct c; try done. simpl. destruct (String.eqb_spec h0 h) as [->|]; [|done].
  intros _. apply lookup_delete_eq.
Qed.

Lemma redeems_code_none h c g : g.(oauth_codes) !! h = None -> redeems_code h c g = false.
Proof.
  intros Hn. destruct c; try done. simpl. destruct (String.eqb_spec h0 h) as [->|]; [|done].
  by rewrite Hn.
Qed.

(** *** Refresh tokens *)

Definition spends_token (h : string) (c : mem_call Cid) (g : Inner Cid) : bool :=
  match c with
  | CConsumeRefreshToken h' now =>
      String.eqb h' h && match fst (consume_refresh_token h' now g) with Ok (Consumed _) => true | _ => false end
  | _ => false
  end.

Definition reissues_token (h : string) (c : mem_call Cid) : bool :=
  match c with CPutRefreshToken r => String.eqb (rt_token_hash r) h | _ => false end.

(** Calls that remove refresh tokens. *)
Definition drops_tokens (c : mem_call Cid) : bool :=
  match c with
  | CRevokeSession _ | CRevokeRefreshToken _ | CPurgeExpired _ => true
  | _ => false
  end.

Definition spent_in (h : string) (m : gmap string (RefreshTokenRecord * bool)) : Prop :=
  forall r used, m !! h = Some (r, used) -> used = true.
Definition spent (h : string) (g : Inner Cid) : Prop := spent_in h g.(oauth_refresh).

Lemma spent_in_filter (P : string * (RefreshTokenRecord * bool) -> Prop)
    `{!forall x, Decision (P x)} h m : spent_in h m -> spent_in h (filter P m).
Proof. intros Hs r u [E _]%map_lookup_filter_Some. by eapply Hs. Qed.

Lemma spent_in_insert_ne h h' p m : h' <> h -> spent_in h m -> spent_in h (<[h' := p]> m).
Proof. unfold spent_in. intros Hne Hs. by rewrite lookup_insert_ne. Qed.

Lemma spent_in_insert_true h h' r m : spent_in h m -> spent_in h (<[h' := (r, true)]> m).
Proof. intros Hs r0 u [[_ ?]|[_ E]]%lookup_insert_Some; [naive_solver|by eapply Hs]. Qed.

Lemma exec_spent h c g : reissues_token h c = false -> spent h g -> spent h (exec c g).
Proof.
  intros Hr Hs. destruct c; exec_cases; unfold spent; try done;
    try (by apply spent_in_filter); try (by apply spent_in_insert_true).
  apply spent_in_insert_ne; [|done].
  by destruct (String.eqb_spec (rt_token_hash r) h).
Qed.

Lemma spends_token_Some h c g :
  spends_token h c g = true ->
  exists r now, c = CConsumeRefreshToken h now /\ g.(oauth_refresh) !! h = Some (r, false) /\
    now < rt_expires_at r /\ (exec c g).(oauth_refresh) = <[h := (r, true)]> g.(oauth_refresh).
Proof.
  destruct c as [| | | | | | | | | | | | | | | | | |h' now| | | |]; try done. simpl.
  destruct (String.eqb_spec h' h) as [->|]; [|done]. unfold mem_consume_refresh_token.
  intros E. repeat case_match; simplify_eq/=.
  eexists _, _. split; [done|]. split; [done|]. split; [lia|done].
Qed.

Lemma spent_spends h c g : spent h g -> spends_token h c g = false.
Proof.
  intros Hs. destruct (spends_token h c g) eqn:E; [|done].
  apply spends_token_Some in E as (r & now & _ & Hl & _). by apply Hs in Hl.
Qed.

(** A spent row survives every call but a revocation, a purge or a re-issue. *)
Lemma run_spent_row h r cs g :
  Forall (fun c => reissues_token h c = false /\ drops_tokens c = false) cs ->
  g.(oauth_refresh) !! h = Some (r, true) -> (run cs g).(oauth_refresh) !! h = Some (r, true).
Proof.
  intros Hall. revert g. induction Hall as [|c cs [Hr Hd] _ IH]; intros g Hl; [done|].
  simpl. apply IH. destruct c; exec_cases; try done.
  - destruct (String.eqb_spec (rt_token_hash r0) h); [done|]. by rewrite lookup_insert_ne.
  - destruct (decide (h0 = h)) as [->|]; [congruence|]. by rewrite lookup_insert_ne.
Qed.

(** *** Invites *)

Definition redeems_invite (code : string) (c : mem_call Cid) (g : Inner Cid) : bool :=
  match c with
  | CConsumeInvite code' d =>
      String.eqb code' code && match fst (consume_invite code' d g) with Ok b => b | _ => false end
  | _ => false
  end.

Lemma exec_invite code c g n :
  g.(invites) !! code = Some (MkInvite n false) ->
  let k := if redeems_invite code c g then 1 else 0 in
  (exec c g).(invites) !! code = Some (MkInvite (n - k) false) /\ (k = 1 -> 0 < n).
Proof.
  intros Hl. destruct (redeems_invite code c g) eqn:E; simpl.
  - destruct c; try done. simpl in E. apply andb_true_iff in E as [->%String.eqb_eq E].
    revert E. exec_cases; try done. intros _. rewrite lookup_insert_eq.
    split; [by simplify_eq/=|]. simplify_eq/=. lia.
  - rewrite Z.sub_0_r. split; [|done]. destruct c; revert E; exec_cases; try done; intros E.
    + rewrite lookup_insert_ne; [done|congruence].
    + rewrite andb_true_r in E. apply String.eqb_neq in E. by rewrite lookup_insert_ne.
Qed.

End Hits.

(** *** Blocks *)

Section Blocks.
Context {Cid : Type} `{Countable Cid}.
Implicit Types (m : gmap Cid bytes) (bs : list (Cid * bytes)).

Lemma insert_blocks_keep bs m cid b :
  m !! cid = Some b -> insert_blocks bs m !! cid = Some b.
Proof.
  revert m. induction bs as [|[c x] bs IH]; intros m Hm; [done|]. simpl. apply IH.
  unfold or_insert. destruct (m !! c) eqn:E; [done|]. rewrite lookup_insert_ne; congruence.
Qed.

Lemma insert_blocks_in bs m cid b :
  (cid, b) ∈ bs -> exists b', insert_blocks bs m !! cid = Some b'.
Proof.
  revert m. induction bs as [|[c x] bs IH]; intros m Hin; [by apply not_elem_of_nil in Hin|].
  apply elem_of_cons in Hin as [[= <- <-]|Hin]; [|by apply IH]. simpl.
  assert (is_Some (or_insert cid b m !! cid)) as [y Hy].
  { unfold or_insert. destruct (m !! cid) eqn:E; [by rewrite E|by rewrite lookup_insert_eq]. }
  exists y. by apply insert_blocks_keep.
Qed.
End Blocks.

(** ** Properties *)

(** the firehose log is gap-free and strictly ordered.  Whatever calls run,
    in whatever interleaving, after [n] commits the log holds exactly the
    sequence numbers [1, 2, ..., n] in that order, [max_seq] answers [n], and
    the next commit is given [n + 1]. *)
Theorem seq_log_gap_free {Cid : Type} `{Countable Cid} (cs : list (mem_call Cid))
    (Hb : Z.of_nat (commits cs) < i64_max) :
  let g := run cs Inner_default in
  log_seqs g = map Z.of_nat (seq 1 (commits cs)) /\
  fst (max_seq g) = Ok (Z.of_nat (commits cs)) /\
  forall bs did root body,
    fst (commit_blocks bs did root body g) = Ok (Z.of_nat (commits cs) + 1).
Proof.
  assert (log_inv (commits cs) (run cs Inner_default)) as Hi.
  { apply (run_log_inv cs 0); [apply log_inv_default|]. simpl. lia. }
  split; [apply Hi|]. split; [by apply log_inv_max_seq|]. intros. simpl. f_equal.
  destruct Hi as [_ ->]. apply i64_wrap_id. unfold i64_max in *. lia.
Qed.

Definition demo_calls : list (mem_call string) :=
  [CCommitBlocks [("c1", "b1")] "did:a" "c1" "e1"; CPutKeyBlob "k" "x";
   CCommitBlocks [("c2", "b2")] "did:b" "c2" "e2"].

Lemma seq_log_gap_free_witness :
  let g := run demo_calls Inner_default in
  log_seqs g = [1; 2] /\ fst (max_seq g) = Ok 2 /\
  forall bs did root body, fst (commit_blocks bs did root body g) = Ok 3.
Proof. apply (seq_log_gap_free demo_calls). vm_compute. reflexivity. Defined.

(** what one [commit_blocks] leaves behind: the new root is the one loaded
    for its DID and no other DID's root moves; every block of the batch can be
    read; a block already stored keeps its bytes (writes are idempotent); and
    exactly one row, carrying the event body and the returned sequence number,
    is appended to the log. *)
Theorem commit_blocks_effect {Cid : Type} `{Countable Cid} (g g' : Inner Cid)
    bs did root body n (Hrun : commit_blocks bs did root body g = (Ok n, g')) :
  (forall d, fst (load_repo_root d g') =
             if decide (d = did) then Ok (Some root) else fst (load_repo_root d g)) /\
  (forall cid b, (cid, b) ∈ bs -> exists b', fst (read_block_bytes cid g') = Ok b') /\
  (forall cid b, fst (read_block_bytes cid g) = Ok b -> fst (read_block_bytes cid g') = Ok b) /\
  g'.(repo_seq) = g.(repo_seq) ++ [MkSeqRow n body false].
Proof.
  simpl in Hrun. unfold mem_commit_blocks in Hrun. simplify_eq/=.
  split; [|split; [|split; [|done]]].
  - intros d. destruct (decide (d = did)) as [->|]; f_equal;
      [by rewrite lookup_insert_eq|by rewrite lookup_insert_ne].
  - intros cid b Hin. destruct (insert_blocks_in bs g.(blocks) _ _ Hin) as [b' ->]. by exists b'.
  - intros cid b E. apply ok_or_Ok in E. by rewrite (insert_blocks_keep _ _ _ _ E).
Qed.

Lemma commit_blocks_effect_witness :
  let g := run demo_calls Inner_default in
  let g' := snd (commit_blocks [("c3", "b3")] "did:a" "c3" "e3" g) in
  (forall d, fst (load_repo_root d g') =
             if decide (d = "did:a") then Ok (Some "c3") else fst (load_repo_root d g)) /\
  (forall cid b, (cid, b) ∈ [("c3", "b3")] -> exists b', fst (read_block_bytes cid g') = Ok b') /\
  (forall cid b, fst (read_block_bytes cid g) = Ok b -> fst (read_block_bytes cid g') = Ok b) /\
  g'.(repo_seq) = g.(repo_seq) ++ [MkSeqRow 3 "e3" false].
Proof.
  apply (commit_blocks_effect _ _ [("c3", "b3")] "did:a" "c3" "e3" 3). vm_compute. reflexivity.
Defined.

(** handle resolution.  In every reachable state a handle resolves to a DID
    exactly when that DID's account row carries the handle and is neither
    deactivated nor taken down, and login finds that row's password hash; two
    rows never share a handle, so the answer does not depend on the order in
    which the hash map is searched. *)
Theorem handle_resolution {Cid : Type} `{Countable Cid} (cs : list (mem_call Cid)) (h d : string) :
  let g := run cs Inner_default in
  (fst (get_did_by_handle h g) = Ok (Some d) <->
   exists a, g.(accounts) !! d = Some a /\ a_handle a = Some h /\ account_visible a = true) /\
  (forall phc, fst (get_account_by_handle h g) = Ok (Some (d, phc)) <->
   exists a, g.(accounts) !! d = Some a /\ a_handle a = Some h /\ account_visible a = true /\
             a_password_phc a = phc) /\
  (forall a d', g.(accounts) !! d = Some a -> a_handle a = Some h ->
                forall a', g.(accounts) !! d' = Some a' -> a_handle a' = Some h -> d' = d).
Proof.
  intros g. assert (account_inv g) as Hi by apply run_account_inv, account_inv_default.
  pose proof (fun a => active_by_handle_Some g h a Hi) as Hs. destruct Hi as [Hk Hu]. simpl.
  destruct (active_by_handle h g) as [x|] eqn:E; simpl; [pose proof (proj1 (Hs x) eq_refl) as (?&?&?)|].
  - split; [|split; [|by eauto]].
    + split; [intros [= <-]; by exists x|]. intros (a & ? & ? & ?).
      by rewrite (Hu _ _ _ _ _ H0 H3 H1 H4).
    + intros phc. split; [intros [= <- <-]; by exists x|]. intros (a & Ha & Hh & Hv & <-).
      assert (a_did x = d) as <- by eauto. by simplify_eq.
  - assert (forall a, g.(accounts) !! d = Some a -> a_handle a = Some h ->
                      account_visible a = true -> False) as Hno.
    { intros a Ha Hh Hv. pose proof (Hk _ _ Ha); subst d.
      by pose proof (proj2 (Hs a) (conj Ha (conj Hh Hv))). }
    split; [|split; [|by eauto]]; [|intros phc]; (split; [done|]); naive_solver.
Qed.

(** a takedown hides the account from every auth-path lookup, also when the
    moderator gives an empty reference, and clearing it restores exactly the
    answers the account gave before; every other account is untouched. *)
Theorem takedown_hides_and_clears {Cid : Type} `{Countable Cid} (g : Inner Cid)
    (d reference now : string) a
    (Ha : g.(accounts) !! d = Some a) (Ht : a_takedown_ref a = None) :
  let '(r, g1) := set_takedown d reference now g in
  let '(r2, g2) := clear_takedown d g1 in
  r = Ok 1 /\ r2 = Ok 1 /\ active d g1 = None /\ g2.(accounts) = g.(accounts) /\
  forall d', d' <> d -> g1.(accounts) !! d' = g.(accounts) !! d'.
Proof.
  simpl. unfold mem_set_takedown, alter_account. rewrite Ha. simpl.
  unfold mem_clear_takedown, alter_account. simpl. rewrite lookup_insert_eq. simpl.
  split; [done|]. split; [done|]. split.
  { unfold active. simpl. rewrite lookup_insert_eq. simpl. unfold account_visible. simpl.
    by rewrite andb_false_r. }
  split; [|by intros d' Hne; rewrite lookup_insert_ne].
  rewrite insert_insert_eq. apply insert_id. rewrite Ha. f_equal.
  destruct a; simpl in *. unfold with_takedown; simpl. by rewrite Ht.
Qed.

Definition demo_account : Inner string :=
  run [CInsertAccount "did:a" "a.test" None "phc" "2026"] Inner_default.

Lemma takedown_hides_and_clears_witness :
  let '(r, g1) := set_takedown "did:a" "" "2027" demo_account in
  let '(r2, g2) := clear_takedown "did:a" g1 in
  r = Ok 1 /\ r2 = Ok 1 /\ active "did:a" g1 = None /\
  g2.(accounts) = demo_account.(accounts) /\
  forall d', d' <> "did:a" -> g1.(accounts) !! d' = demo_account.(accounts) !! d'.
Proof.
  apply (takedown_hides_and_clears demo_account "did:a" "" "2027"
           (MkAccount "did:a" (Some "a.test") None "phc" "2026" None None 0)); reflexivity.
Defined.

(** an authorization code is single use.  Along any interleaving of calls
    that does not issue the same code again, at most one redemption of it
    succeeds, whatever times the redemptions present. *)
Theorem auth_code_single_use {Cid : Type} `{Countable Cid} (g : Inner Cid) (h : string)
    (cs : list (mem_call Cid)) (Hcs : Forall (fun c => reissues_code h c = false) cs) :
  (hits (redeems_code h) cs g <= 1)%nat.
Proof.
  apply (hits_at_most_once (redeems_code h) (fun g => g.(oauth_codes) !! h = None)
           (fun c => reissues_code h c = false)); try done.
  - intros c g' _. apply redeems_code_kills.
  - intros c g'. apply exec_code_none.
  - intros c g'. apply redeems_code_none.
Qed.

Definition demo_code : AuthCode := {|
  ac_code_hash := "h"; ac_did := "did:a"; ac_client_id := "c"; ac_redirect_uri := "r";
  ac_scope := "atproto"; ac_code_challenge := "cc"; ac_dpop_jkt := None; ac_expires_at := 100 |}.

Lemma auth_code_single_use_witness :
  (hits (Cid := string) (redeems_code "h")
     [CConsumeAuthCode "h" 10; CConsumeAuthCode "h" 11]
     (run [CPutAuthCode demo_code] Inner_default) <= 1)%nat.
Proof. apply auth_code_single_use. repeat constructor. Defined.

(** C37: a refresh token is spent at most once, and its reuse is detected: along
    any interleaving that does not store the same token again, at most one
    redemption yields [Consumed]; and from the spending on, until it expires
    or its chain is revoked, every further presentation reports [Reused] with
    the chain's session id. *)
Theorem refresh_single_use_and_reuse {Cid : Type} `{Countable Cid} (g : Inner Cid) (h : string)
    (cs : list (mem_call Cid)) (Hcs : Forall (fun c => reissues_token h c = false) cs) :
  (hits (spends_token h) cs g <= 1)%nat /\
  forall now r g1, consume_refresh_token h now g = (Ok (Consumed r), g1) ->
    Forall (fun c => drops_tokens c = false) cs ->
    forall now', now' < rt_expires_at r ->
    fst (consume_refresh_token h now' (run cs g1)) = Ok (Reused (rt_session_id r)).
Proof.
  split.
  - apply (hits_at_most_once (spends_token h) (spent h) (fun c => reissues_token h c = false)).
    + intros c g' _ E. apply spends_token_Some in E as (r & now & -> & _ & _ & E).
      unfold spent. rewrite E. intros r' u Hl. rewrite lookup_insert_eq in Hl. by simplify_eq.
    + intros c g'. apply exec_spent.
    + intros c g'. apply spent_spends.
    + done.
  - intros now r g1 E Hd now' Hnow.
    assert ((run cs g1).(oauth_refresh) !! h = Some (r, true)) as Hl.
    { apply run_spent_row; [by apply Forall_and|]. simpl in E.
      unfold mem_consume_refresh_token in E. repeat case_match; simplify_eq/=.
      by rewrite lookup_insert_eq. }
    simpl. unfold mem_consume_refresh_token. rewrite Hl.
    by destruct (Z.leb_spec (rt_expires_at r) now'); [lia|].
Qed.

Definition demo_token : RefreshTokenRecord := {|
  rt_token_hash := "h"; rt_session_id := "s"; rt_did := "did:a"; rt_client_id := "c";
  rt_scope := "atproto"; rt_dpop_jkt := "k"; rt_issued_at := 0; rt_expires_at := 100 |}.

Lemma refresh_single_use_and_reuse_witness :
  let g := run (Cid := string) [CPutRefreshToken demo_token] Inner_default in
  (hits (spends_token "h") [CConsumeRefreshToken "h" 10; CConsumeRefreshToken "h" 11] g <= 1)%nat /\
  fst (consume_refresh_token "h" 12
         (run [CPutKeyBlob "k" "x"] (snd (consume_refresh_token "h" 10 g)))) = Ok (Reused "s").
Proof.
  split.
  - apply refresh_single_use_and_reuse. repeat constructor.
  - eapply (proj2 (refresh_single_use_and_reuse
                     (run (Cid := string) [CPutRefreshToken demo_token] Inner_default) "h"
                     [CPutKeyBlob "k" "x"] ltac:(repeat constructor)) 10 demo_token);
      [reflexivity|repeat constructor|reflexivity].
Defined.

(** an invite is conserved: along any interleaving of calls, whoever
    redeems it, the uses left are the uses it had less the redemptions that
    succeeded, so a code of [n] uses is never redeemed more than [n] times and
    the count never goes below zero. *)
Theorem invite_conserved {Cid : Type} `{Countable Cid} (cs : list (mem_call Cid)) (g : Inner Cid)
    (code : string) (n : Z) (Hn : 0 <= n)
    (Hl : g.(invites) !! code = Some (MkInvite n false)) :
  let k := Z.of_nat (hits (redeems_invite code) cs g) in
  (run cs g).(invites) !! code = Some (MkInvite (n - k) false) /\ k <= n.
Proof.
  revert g n Hn Hl. induction cs as [|c cs IH]; intros g n Hn Hl; simpl.
  { rewrite Z.sub_0_r. split; [done|lia]. }
  pose proof (exec_invite code c g n Hl) as [He Hk].
  specialize (IH (exec c g) (n - if redeems_invite code c g then 1 else 0)).
  destruct (redeems_invite code c g); destruct IH as [IH1 IH2]; try done; try lia;
    rewrite IH1; (split; [do 2 f_equal; lia|lia]).
Qed.

Lemma invite_conserved_witness :
  let g := run (Cid := string) [CInsertInvite "code" 1 "admin"] Inner_default in
  let cs := [CConsumeInvite "code" "did:a"; CConsumeInvite "code" "did:b"] in
  let k := Z.of_nat (hits (redeems_invite "code") cs g) in
  (run cs g).(invites) !! "code" = Some (MkInvite (1 - k) false) /\ k <= 1.
Proof. apply invite_conserved; [lia|reflexivity]. Defined.

(** purging never changes an answer, with one exception.  At any time from
    [now] on, pushed requests, authorization codes, refresh tokens and session
    lists read the same before and after [purge_expired now]; but a DPoP [jti]
    whose entry has expired is forgotten, and [record_dpop_jti], which does not
    look at the expiry, then accepts it as new where it was refused before. *)
Theorem purge_preserves_all_but_jti {Cid : Type} `{Countable Cid} (g : Inner Cid) (now t : Z)
    (Ht : now <= t) :
  let g' := snd (purge_expired now g) in
  (forall h, fst (get_pushed_request h t g') = fst (get_pushed_request h t g)) /\
  (forall h, fst (consume_auth_code h t g') = fst (consume_auth_code h t g)) /\
  (forall h, fst (consume_refresh_token h t g') = fst (consume_refresh_token h t g)) /\
  (forall j e e', g.(oauth_jti) !! j = Some e -> e <= now ->
     fst (record_dpop_jti j e' g) = Ok false /\ fst (record_dpop_jti j e' g') = Ok true).
Proof.
  simpl. split; [|split; [|split]]; intros h; simpl.
  - f_equal. rewrite map_lookup_filter_case. destruct (oauth_par g !! h) as [r|]; [|done].
    case_decide; simpl in *; [done|]. destruct (Z.ltb_spec t (spr_expires_at r)); [lia|done].
  - f_equal. rewrite map_lookup_filter_case. destruct (oauth_codes g !! h) as [r|]; [|done].
    case_decide; simpl in *; [done|]. destruct (Z.ltb_spec t (ac_expires_at r)); [lia|done].
  - unfold mem_consume_refresh_token. simpl. rewrite map_lookup_filter_case.
    destruct (oauth_refresh g !! h) as [[r u]|]; [|done].
    case_decide; simpl in *; [by repeat case_match|].
    destruct (Z.leb_spec (rt_expires_at r) t); [done|lia].
  - intros e e' Hj He. unfold mem_record_dpop_jti. rewrite Hj. split; [done|]. simpl.
    rewrite map_lookup_filter_case, Hj. case_decide; simpl in *; [lia|done].
Qed.

Lemma purge_preserves_all_but_jti_witness :
  let g := run (Cid := string) [CRecordDpopJti "j" 5] Inner_default in
  fst (record_dpop_jti "j" 9 g) = Ok false /\
  fst (record_dpop_jti "j" 9 (snd (purge_expired 6 g))) = Ok true.
Proof.
  apply (purge_preserves_all_but_jti
           (run (Cid := string) [CRecordDpopJti "j" 5] Inner_default) 6 7 ltac:(lia) ) with (e := 5);
    [reflexivity|lia].
Defined.

(** ** Blob listing *)

Section BlobWalk.
Context {Cid : Type} `{Countable Cid}.
Implicit Types (g : Inner Cid).

(** A relay following [listBlobs] cursors until a page is empty. *)
Fixpoint blob_walk (fuel : nat) (limit : Z) (cursor : option string) (did : string) g
    : list string :=
  match fuel with
  | O => []
  | S fuel =>
      match fst (list_blobs did limit cursor g) with
      | Ok p => match last p with
                | None => []
                | Some x => p ++ blob_walk fuel limit (Some x) did g
                end
      | Err _ => []
      end
  end.

Lemma blob_walk_collect fuel limit cursor did g :
  blob_walk fuel limit cursor did g =
  collect id fuel (Z.to_nat limit) cursor (merge_sort String.le (blob_cids did g)).
Proof.
  revert cursor. induction fuel as [|fuel IH]; intros cursor; [done|]. simpl.
  change (List.filter (after_cursor cursor)) with (List.filter (after id cursor)).
  unfold page. case_match; [|done]. by rewrite IH.
Qed.

Lemma blob_cids_spec did g c :
  c ∈ blob_cids did g <-> is_Some (g.(blobs) !! (did, c)).
Proof.
  unfold blob_cids. rewrite list_elem_of_In, in_map_iff. split.
  - intros ([d c'] & <- & Hin). apply filter_In in Hin as [Hin E]. simpl in *.
    apply String.eqb_eq in E as ->. apply list_elem_of_In, list_elem_of_fmap in Hin as ([k v] & -> & Hin).
    apply elem_of_map_to_list in Hin. by exists v.
  - intros [v Hv]. exists (did, c). split; [done|]. apply filter_In. simpl.
    split; [|by apply String.eqb_refl]. apply list_elem_of_In, list_elem_of_fmap.
    exists (did, c, v). split; [done|]. by apply elem_of_map_to_list.
Qed.

Lemma blob_cids_NoDup did g : NoDup (blob_cids did g).
Proof.
  unfold blob_cids. pose proof (NoDup_fst_map_to_list g.(blobs)) as Hn.
  induction Hn as [|[d c] l Hx Hl IH]; simpl; [constructor|].
  destruct (String.eqb_spec d did) as [->|]; [|done]. simpl. constructor; [|done].
  rewrite list_elem_of_In, in_map_iff. intros ([d' c'] & E & Hin). apply filter_In in Hin as [Hin E'].
  simpl in *. apply String.eqb_eq in E'. subst. by apply Hx, list_elem_of_In.
Qed.

Lemma blob_cids_length did g : (length (blob_cids did g) <= size g.(blobs))%nat.
Proof.
  unfold blob_cids. rewrite length_map. etrans; [apply filter_length_le|].
  by rewrite length_fmap, length_map_to_list.
Qed.
End BlobWalk.

(** blob pagination loses and repeats nothing.  Following [listBlobs]
    cursors with any positive page size visits the CIDs of exactly the blobs
    stored for that account, each once, in ascending order; one more call than
    there are blobs is enough to reach the end. *)
Theorem list_blobs_pages_complete {Cid : Type} `{Countable Cid} (g : Inner Cid) (did : string)
    (limit : Z) (fuel : nat) (Hl : 1 <= limit) (Hf : (size g.(blobs) < fuel)%nat) :
  let walk := blob_walk fuel limit None did g in
  StronglySorted (fun a b => str_ltb a b = true) walk /\
  forall c, c ∈ walk <-> exists b, fst (get_blob did c g) = Ok (Some b).
Proof.
  simpl. pose proof (merge_sort_Permutation String.le (blob_cids did g)) as Hp.
  assert (ascending id (merge_sort String.le (blob_cids did g))) as Hs.
  { apply sorted_nodup_ascending; [apply (StronglySorted_merge_sort String.le)|].
    rewrite Hp. apply blob_cids_NoDup. }
  rewrite blob_walk_collect, collect_all; [|lia| |done].
  - split; [done|]. intros c. rewrite Hp, blob_cids_spec. simpl. split.
    + intros [b Hb]. exists b. by rewrite Hb.
    + intros [b Hb]. exists b. congruence.
  - rewrite Hp. pose proof (blob_cids_length did g). lia.
Qed.

Lemma list_blobs_pages_complete_witness :
  let g := run (Cid := string)
    [CPutBlob "did:a" "c2" "image/png" 1 "x"; CPutBlob "did:a" "c1" "image/png" 1 "y";
     CPutBlob "did:b" "c9" "image/png" 1 "z"] Inner_default in
  let walk := blob_walk 4 1 None "did:a" g in
  StronglySorted (fun a b => str_ltb a b = true) walk /\
  forall c, c ∈ walk <-> exists b, fst (get_blob "did:a" c g) = Ok (Some b).
Proof. apply list_blobs_pages_complete; [lia|vm_compute; lia]. Defined.
