(* ===== verification/OAuthCore.v ===== *)
(** * The OAuth layer's errors, scopes, PKCE and device approvals

    [src/rust-core/src/oauth/mod.rs], [scope.rs], [pkce.rs] and [device.rs]. *)

From Stdlib Require Import ZArith Lia Ascii.
From S2P Require Import Prelude RustStr Externals StoreTypes.

(** ** Errors *)

Inductive OAuthError :=
| InvalidRequest (msg : string)
| InvalidClient (msg : string)
| InvalidGrant (msg : string)
| InvalidScope (msg : string)
| UnauthorizedClient (msg : string)
| UnsupportedGrantType (msg : string)
| AccessDenied (msg : string)
| InvalidDpopProof (msg : string)
| UseDpopNonce (msg : string)
| InvalidToken (msg : string)
| UnsupportedAlgorithm (msg : string)
| Storage (e : StorageError)
| Internal (msg : string).

Definition error_code (e : OAuthError) : string :=
  match e with
  | InvalidRequest _ => "invalid_request"
  | InvalidClient _ => "invalid_client"
  | InvalidGrant _ => "invalid_grant"
  | InvalidScope _ => "invalid_scope"
  | UnauthorizedClient _ => "unauthorized_client"
  | UnsupportedGrantType _ => "unsupported_grant_type"
  | AccessDenied _ => "access_denied"
  | InvalidDpopProof _ => "invalid_dpop_proof"
  | UseDpopNonce _ => "use_dpop_nonce"
  | InvalidToken _ => "invalid_token"
  | UnsupportedAlgorithm _ => "invalid_request"
  | Storage _ | Internal _ => "server_error"
  end.

(** The [Display] text ([thiserror] attributes). *)
Definition OAuthError_to_string (e : OAuthError) : string :=
  match e with
  | InvalidRequest m => "invalid_request: " +:+ m
  | InvalidClient m => "invalid_client: " +:+ m
  | InvalidGrant m => "invalid_grant: " +:+ m
  | InvalidScope m => "invalid_scope: " +:+ m
  | UnauthorizedClient m => "unauthorized_client: " +:+ m
  | UnsupportedGrantType m => "unsupported_grant_type: " +:+ m
  | AccessDenied m => "access_denied: " +:+ m
  | InvalidDpopProof m => "invalid_dpop_proof: " +:+ m
  | UseDpopNonce m => "use_dpop_nonce: " +:+ m
  | InvalidToken m => "invalid_token: " +:+ m
  | UnsupportedAlgorithm m => "unsupported algorithm: " +:+ m
  | Storage e => "storage error: " +:+ StorageError_to_string e
  | Internal m => "server_error: " +:+ m
  end.

Definition public_description (e : OAuthError) : string :=
  match e with
  | Storage _ | Internal _ => "internal server error"
  | other => OAuthError_to_string other
  end.

(** The accumulation [diff |= x ^ y] over the zipped bytes. *)
Fixpoint diff_bytes (a b : string) (diff : Z) : Z :=
  match a, b with
  | String x a, String y b => diff_bytes a b (Z.lor diff (Z.lxor (byte_val x) (byte_val y)))
  | _, _ => diff
  end.

Definition constant_time_eq (a b : string) : bool :=
  if negb (str_len a =? str_len b) then false else diff_bytes a b 0 =? 0.

(** ** Scopes *)

Definition ATPROTO : string := "atproto".
Definition SUPPORTED : list string :=
  [ATPROTO; "transition:generic"; "transition:chat.bsky"; "transition:email"].

(** A [BTreeSet<String>]: the elements in ascending order, without duplicates. *)
Fixpoint btree_insert (x : string) (l : list string) : list string :=
  match l with
  | [] => [x]
  | y :: l' =>
      match String.compare x y with
      | Lt => x :: l
      | Eq => l
      | Gt => y :: btree_insert x l'
      end
  end.

Definition mem_str (x : string) (l : list string) : bool := existsb (String.eqb x) l.

Module Scope.

Definition t : Type := list string.

(** The loop over the tokens; it stops at the first one that is not supported. *)
Fixpoint parse_tokens (tokens : list string) (set : t) : result OAuthError t :=
  match tokens with
  | [] => Ok set
  | token :: tokens =>
      ensure mem_str token SUPPORTED orelse InvalidScope ("unknown scope: " +:+ token) in
      parse_tokens tokens (btree_insert token set)
  end.

Definition parse (s : string) : result OAuthError t :=
  let? set := parse_tokens (split_ascii_whitespace s) [] in
  match set with
  | [] => Err (InvalidScope "scope is required")
  | _ =>
      ensure mem_str ATPROTO set
        orelse InvalidScope "the `atproto` scope is required" in
      Ok set
  end.

Definition contains (self : t) (scope : string) : bool := mem_str scope self.
Definition is_subset_of (self other : t) : bool := forallb (fun s => mem_str s other) self.
Definition to_string (self : t) : string := join " " self.

End Scope.

(** ** PKCE *)

Definition is_unreserved (c : ascii) : bool :=
  is_ascii_alphanumeric c || Ascii.eqb c "-" || Ascii.eqb c "." || Ascii.eqb c "_"
  || Ascii.eqb c "~".

Module CodeChallenge.
Section WithDigests.
Context `{Digests}.

(** The struct has the one field [challenge]. *)
Definition parse (challenge : string) (method : option string) : result OAuthError string :=
  let? _u :=
    match method with
    | Some m =>
        ensure String.eqb m "S256" orelse
          InvalidRequest ("unsupported code_challenge_method: " +:+ m +:+
                          " (only S256 is allowed)") in Ok tt
    | None => Err (InvalidRequest "code_challenge_method is required and must be S256")
    end in
  ensure str_len challenge =? 43
    orelse InvalidRequest "code_challenge must be a base64url-encoded SHA-256 digest" in
  match b64url_decode challenge with
  | None => Err (InvalidRequest "code_challenge is not valid base64url")
  | Some _ => Ok challenge
  end.

Definition verify (challenge code_verifier : string) : result OAuthError unit :=
  ensure (43 <=? str_len code_verifier) && (str_len code_verifier <=? 128)
    orelse InvalidGrant "code_verifier must be 43-128 characters" in
  ensure all_bytes is_unreserved code_verifier
    orelse InvalidGrant "code_verifier contains characters outside the unreserved set" in
  let computed := b64url_encode (sha256 code_verifier) in
  ensure constant_time_eq computed challenge
    orelse InvalidGrant "code_verifier does not match code_challenge" in
  Ok tt.

End WithDigests.
End CodeChallenge.

(** ** Device sign-in approvals *)

Inductive SigninStatus := Pending | Approved | Denied | Expired.

Definition SigninStatus_as_str (s : SigninStatus) : string :=
  match s with
  | Pending => "pending"
  | Approved => "approved"
  | Denied => "denied"
  | Expired => "expired"
  end.

Definition approval_challenge (request_id user_code : string) : bytes :=
  "stelyph-signin-approval:v1:" +:+ request_id +:+ ":" +:+ user_code.

(** [verify_signature] is [atrium_crypto]'s. *)
Definition verify_approval (verify_signature : string -> bytes -> bytes -> result string unit)
    (device_did_key request_id user_code : string) (signature : bytes) : bool :=
  is_ok (verify_signature device_did_key (approval_challenge request_id user_code) signature).

(** ** Lemmas *)

Lemma byte_val_inj a b : byte_val a = byte_val b -> a = b.
Proof.
  unfold byte_val. intros E. rewrite <- (ascii_N_embedding a), <- (ascii_N_embedding b).
  f_equal. lia.
Qed.

Lemma diff_bytes_zero a b d :
  String.length a = String.length b -> diff_bytes a b d = 0 <-> d = 0 /\ a = b.
Proof.
  revert b d. induction a as [|x a IH]; intros [|y b] d Hl; simpl in *; try done.
  { split; [done|by intros [? _]]. }
  rewrite IH by lia. rewrite Z.lor_eq_0_iff, Z.lxor_eq_0_iff. split.
  - intros [[-> E] ->]. by apply byte_val_inj in E as ->.
  - intros [-> [= -> ->]]. done.
Qed.

Lemma constant_time_eq_true a b : constant_time_eq a b = true <-> a = b.
Proof.
  unfold constant_time_eq, str_len.
  destruct (Z.eqb_spec (Z.of_nat (String.length a)) (Z.of_nat (String.length b))); simpl.
  - rewrite Z.eqb_eq, diff_bytes_zero by lia. split; [by intros [_ ?]|done].
  - split; [done|]. by intros ->.
Qed.

Lemma mem_str_In x l : mem_str x l = true <-> In x l.
Proof.
  unfold mem_str. rewrite existsb_exists. split.
  - intros (y & Hy & E). apply String.eqb_eq in E. by subst.
  - intros Hx. exists x. by rewrite String.eqb_refl.
Qed.

Notation str_ascending := (StronglySorted (fun a b => str_ltb a b = true)).

Lemma btree_insert_In x y l : In y (btree_insert x l) <-> y = x \/ In y l.
Proof.
  induction l as [|z l IH]; simpl; [split; intros [|]; auto|].
  destruct (String.compare x z) eqn:E; simpl; [|split; intros; intuition auto|rewrite IH; tauto].
  apply String.compare_eq_iff in E as ->. split; [auto|]. intros [->|]; auto.
Qed.

Lemma btree_insert_ascending x l : str_ascending l -> str_ascending (btree_insert x l).
Proof.
  induction 1 as [|z l Hl IH Hz]; simpl; [by repeat constructor|].
  destruct (String.compare x z) eqn:E.
  - by constructor.
  - apply str_ltb_compare in E. constructor; [by constructor|]. constructor; [done|].
    eapply Forall_impl; [exact Hz|]. intros y Hy. by eapply str_ltb_trans.
  - constructor; [done|]. rewrite Forall_forall in *. intros y Hy.
    apply list_elem_of_In, btree_insert_In in Hy as [->|Hy].
    + apply str_ltb_compare. rewrite String.compare_antisym, E. done.
    + by apply Hz, list_elem_of_In.
Qed.

(** A [BTreeSet] is determined by its elements. *)
Lemma ascending_ext l1 l2 :
  str_ascending l1 -> str_ascending l2 -> (forall x, In x l1 <-> In x l2) -> l1 = l2.
Proof.
  assert (forall l, str_ascending l -> NoDup l) as Hnd.
  { induction 1 as [|x l Hl IH Hx]; constructor; [|done]. intros Hin.
    rewrite Forall_forall in Hx. apply Hx in Hin. by rewrite str_ltb_irrefl in Hin. }
  intros H1 H2 Hiff. apply (StronglySorted_unique_strong (fun a b => str_ltb a b = true)); [|done|done|].
  - intros x y _ _ Hxy Hyx. pose proof (str_ltb_trans _ _ _ Hxy Hyx) as Hc.
    by rewrite str_ltb_irrefl in Hc.
  - apply NoDup_Permutation; [by apply Hnd|by apply Hnd|].
    intros x. by rewrite !list_elem_of_In.
Qed.

Lemma parse_tokens_Ok tokens set sc :
  Scope.parse_tokens tokens set = Ok sc <->
  Forall (fun t => In t SUPPORTED) tokens /\ sc = foldl (fun s t => btree_insert t s) set tokens.
Proof.
  revert set. induction tokens as [|t tokens IH]; intros set; cbn [Scope.parse_tokens foldl].
  { split; [intros [= ->]; done|by intros [_ ->]]. }
  destruct (mem_str t SUPPORTED) eqn:E.
  - apply mem_str_In in E. rewrite IH, Forall_cons. tauto.
  - split; [done|]. intros [[Ht _]%Forall_cons _]. apply mem_str_In in Ht. congruence.
Qed.

Lemma foldl_btree_insert tokens set :
  str_ascending set ->
  str_ascending (foldl (fun s t => btree_insert t s) set tokens) /\
  forall x, In x (foldl (fun s t => btree_insert t s) set tokens) <-> In x set \/ In x tokens.
Proof.
  revert set. induction tokens as [|t tokens IH]; intros set Hs; simpl; [tauto|].
  destruct (IH (btree_insert t set)) as [H1 H2]; [by apply btree_insert_ascending|].
  split; [done|]. intros x. rewrite H2, btree_insert_In. intuition congruence.
Qed.

(** What a parsed scope is: the sorted set of the tokens, all supported, with
    [atproto] among them. *)
Lemma Scope_parse_Ok s sc :
  Scope.parse s = Ok sc <->
  Forall (fun t => In t SUPPORTED) (split_ascii_whitespace s) /\
  In ATPROTO (split_ascii_whitespace s) /\
  str_ascending sc /\ forall x, In x sc <-> In x (split_ascii_whitespace s).
Proof.
  unfold Scope.parse. pose proof (parse_tokens_Ok (split_ascii_whitespace s) []) as Hp.
  destruct (foldl_btree_insert (split_ascii_whitespace s) []) as [Hasc Hin]; [constructor|].
  simpl in Hin. destruct (Scope.parse_tokens _ _) as [set|e] eqn:E.
  - destruct (proj1 (Hp _) eq_refl) as [Hall ->]. clear E Hp.
    set (st := foldl _ _ _) in *.
    assert (In ATPROTO st <-> In ATPROTO (split_ascii_whitespace s)) as Hat
      by (rewrite Hin; tauto).
    transitivity (mem_str ATPROTO st = true /\ sc = st).
    { destruct st as [|y l]; [by split; [|intros [? _]]|].
      destruct (mem_str ATPROTO (y :: l)); naive_solver. }
    rewrite mem_str_In, Hat. split.
    + intros [? ->]. repeat split; try done; rewrite Hin; tauto.
    + intros (_ & ? & Hsc & Hx). split; [done|]. apply ascending_ext; [done|done|].
      intros x. rewrite Hx, Hin. tauto.
  - split; [done|]. intros (Hall & _). by pose proof (proj2 (Hp _) (conj Hall eq_refl)).
Qed.

(** ** Properties *)

Lemma supported_words l : Forall (fun t => In t SUPPORTED) l -> Forall is_word l.
Proof.
  intros Hl. eapply Forall_impl; [exact Hl|]. intros t Ht. simpl in Ht.
  destruct Ht as [<-|[<-|[<-|[<-|[]]]]]; (split; [discriminate|reflexivity]).
Qed.

(** scopes are canonical.  Whatever order, repetition or whitespace a
    client writes, a scope that parses is the sorted set of its tokens, every
    one supported and [atproto] among them; its displayed form parses back to
    the same scope; any other string with the same tokens parses to the same
    scope; and [is_subset_of] is inclusion of the tokens. *)
Theorem scope_canonical (s : string) (sc : Scope.t) (Hs : Scope.parse s = Ok sc) :
  Scope.parse (Scope.to_string sc) = Ok sc /\
  Scope.contains sc ATPROTO = true /\
  Forall (fun t => In t SUPPORTED) sc /\
  forall s' sc', Scope.parse s' = Ok sc' ->
    ((forall x, In x (split_ascii_whitespace s') <-> In x (split_ascii_whitespace s)) -> sc' = sc) /\
    (Scope.is_subset_of sc' sc = true <->
     forall x, In x (split_ascii_whitespace s') -> In x (split_ascii_whitespace s)).
Proof.
  apply Scope_parse_Ok in Hs as (Hsup & Hat & Hasc & Hin).
  assert (Forall (fun t => In t SUPPORTED) sc) as Hsc.
  { rewrite Forall_forall in *. intros x Hx. apply Hsup, list_elem_of_In, Hin, list_elem_of_In, Hx. }
  split; [|split; [|split; [done|]]].
  - apply Scope_parse_Ok. unfold Scope.to_string.
    rewrite split_join_words by by apply supported_words. split; [done|].
    split; [by apply Hin|]. done.
  - apply mem_str_In, Hin, Hat.
  - intros s' sc' Hs'. apply Scope_parse_Ok in Hs' as (_ & _ & Hasc' & Hin'). split.
    + intros Hsame. apply ascending_ext; [done|done|]. intros x. by rewrite Hin, Hin', Hsame.
    + unfold Scope.is_subset_of. rewrite forallb_forall. setoid_rewrite mem_str_In.
      setoid_rewrite Hin. setoid_rewrite Hin'. done.
Qed.

Lemma scope_canonical_witness :
  Scope.parse (Scope.to_string ["atproto"; "transition:generic"]) =
    Ok ["atproto"; "transition:generic"] /\
  Scope.contains ["atproto"; "transition:generic"] ATPROTO = true /\
  Forall (fun t => In t SUPPORTED) ["atproto"; "transition:generic"] /\
  forall s' sc', Scope.parse s' = Ok sc' ->
    ((forall x, In x (split_ascii_whitespace s') <->
                In x (split_ascii_whitespace " transition:generic atproto  atproto ")) ->
     sc' = ["atproto"; "transition:generic"]) /\
    (Scope.is_subset_of sc' ["atproto"; "transition:generic"] = true <->
     forall x, In x (split_ascii_whitespace s') ->
               In x (split_ascii_whitespace " transition:generic atproto  atproto ")).
Proof. apply scope_canonical. reflexivity. Defined.

(** PKCE.  A verifier is accepted exactly when it has 43 to 128 unreserved
    characters and its SHA-256, base64url-encoded, is the challenge; the
    constant-time comparison of the code is string equality. *)
Theorem pkce_verify_spec `{Digests} (challenge verifier : string) :
  CodeChallenge.verify challenge verifier = Ok tt <->
  43 <= str_len verifier <= 128 /\ all_bytes is_unreserved verifier = true /\
  b64url_encode (sha256 verifier) = challenge.
Proof.
  unfold CodeChallenge.verify. rewrite <- constant_time_eq_true.
  destruct (Z.leb_spec 43 (str_len verifier)), (Z.leb_spec (str_len verifier) 128); simpl;
    try (split; [done|lia]).
  destruct (all_bytes is_unreserved verifier); [|split; [done|by intros (_ & ? & _)]].
  destruct (constant_time_eq _ _); split; try done; by intros (_ & _ & ?).
Qed.

Lemma approval_challenge_split request_id user_code :
  contains_char ":" request_id = false ->
  exists r, approval_challenge request_id user_code = "stelyph-signin-approval:v1:" +:+ r /\
            split_once ":" r = Some (request_id, user_code).
Proof. intros Hc. eexists. split; [done|]. by apply split_once_Some. Qed.

(** the bytes a device signs name one sign-in request: for request ids
    without a colon (they are base64url tokens) the challenge determines both
    the request id and the user code, so an approval of one request is the
    approval of no other; without that condition it does not. *)
Theorem approval_challenge_binds (id1 code1 id2 code2 : string)
    (H1 : contains_char ":" id1 = false) (H2 : contains_char ":" id2 = false)
    (E : approval_challenge id1 code1 = approval_challenge id2 code2) :
  id1 = id2 /\ code1 = code2 /\
  approval_challenge "a:b" "c" = approval_challenge "a" "b:c".
Proof.
  destruct (approval_challenge_split id1 code1 H1) as (r1 & E1 & S1).
  destruct (approval_challenge_split id2 code2 H2) as (r2 & E2 & S2).
  rewrite E1, E2 in E. apply (inj (String.app _)) in E. subst r2. rewrite S1 in S2. by simplify_eq.
Qed.

Lemma approval_challenge_binds_witness :
  "req-123" = "req-123" /\ "WXYZ-1234" = "WXYZ-1234" /\
  approval_challenge "a:b" "c" = approval_challenge "a" "b:c".
Proof. apply approval_challenge_binds; reflexivity. Defined.
