(* ===== verification/Jose.v ===== *)
(** * Keys and signed tokens

    [src/rust-core/src/oauth/jwk.rs] and [jws.rs]: the EC subset of JWK, and
    the compact JWS the DPoP proofs and access tokens are. *)

From Stdlib Require Import ZArith Lia Ascii.
From S2P Require Import Prelude RustStr Externals Demo OAuthCore.

(** ** Algorithms *)

Module AlgFn.

Definition as_str (a : Alg) : string :=
  match a with ES256 => "ES256" | ES256K => "ES256K" end.

Definition parse (s : string) : result OAuthError Alg :=
  if String.eqb s "ES256" then Ok ES256
  else if String.eqb s "ES256K" then Ok ES256K
  else Err (UnsupportedAlgorithm s).

Definition curve (a : Alg) : string :=
  match a with ES256 => "P-256" | ES256K => "secp256k1" end.

End AlgFn.

(** ** Public keys *)

Record PublicJwk := {
  kty : string;
  crv : string;
  jwk_x : string;
  jwk_y : string;
  kid : option string;
  jwk_alg : option string;
  use_ : option string;
}.

Section Jose.
Context `{Digests} `{Json} `{Ecdsa}.

Definition PRIVATE_MEMBERS : list string := ["d"; "p"; "q"; "dp"; "dq"; "qi"; "oth"].

Definition reject_if_private (value : Value) : result OAuthError unit :=
  if existsb (json_has_member value) PRIVATE_MEMBERS then
    Err (InvalidDpopProof "embedded JWK contains private key material")
  else Ok tt.

Definition jwk_key_alg (self : PublicJwk) : result OAuthError Alg :=
  ensure String.eqb (kty self) "EC"
    orelse UnsupportedAlgorithm ("unsupported kty: " +:+ kty self) in
  let? from_curve :=
    if String.eqb (crv self) "P-256" then Ok ES256
    else if String.eqb (crv self) "secp256k1" then Ok ES256K
    else Err (UnsupportedAlgorithm ("unsupported crv: " +:+ crv self)) in
  match jwk_alg self with
  | None => Ok from_curve
  | Some declared =>
      let? declared := AlgFn.parse declared in
      ensure bool_decide (declared = from_curve) orelse
        UnsupportedAlgorithm ("JWK declares alg " +:+ AlgFn.as_str declared +:+ " but crv "
          +:+ crv self +:+ " implies " +:+ AlgFn.as_str from_curve) in
      Ok from_curve
  end.

Definition sec1_uncompressed (self : PublicJwk) : result OAuthError bytes :=
  let? x := ok_or (b64url_decode (jwk_x self)) (InvalidDpopProof "JWK x is not base64url") in
  let? y := ok_or (b64url_decode (jwk_y self)) (InvalidDpopProof "JWK y is not base64url") in
  ensure (str_len x =? 32) && (str_len y =? 32)
    orelse InvalidDpopProof "JWK coordinates must be 32 bytes" in
  Ok (sec1_point x y).

Definition bad_sig : OAuthError := InvalidDpopProof "signature verification failed".

Definition jwk_verify (self : PublicJwk) (message signature : bytes) : result OAuthError unit :=
  let? point := sec1_uncompressed self in
  let? a := jwk_key_alg self in
  ensure ec_point_ok a point orelse
    match a with
    | ES256 => InvalidDpopProof "invalid P-256 point"
    | ES256K => InvalidDpopProof "invalid secp256k1 point"
    end in
  ensure ec_signature_ok a signature orelse bad_sig in
  ensure ec_verify a point message signature orelse bad_sig in
  Ok tt.

Definition quote : string := String "034" EmptyString.

(** The canonical JSON of RFC 7638, built by hand. *)
Definition canonical_jwk (self : PublicJwk) : string :=
  "{" +:+ quote +:+ "crv" +:+ quote +:+ ":" +:+ quote +:+ crv self +:+ quote +:+ ","
  +:+ quote +:+ "kty" +:+ quote +:+ ":" +:+ quote +:+ kty self +:+ quote +:+ ","
  +:+ quote +:+ "x" +:+ quote +:+ ":" +:+ quote +:+ jwk_x self +:+ quote +:+ ","
  +:+ quote +:+ "y" +:+ quote +:+ ":" +:+ quote +:+ jwk_y self +:+ quote +:+ "}".

Definition thumbprint (self : PublicJwk) : string :=
  b64url_encode (sha256 (canonical_jwk self)).

(** ** The server's signing key *)

Record SigningKey := { inner : P256Key; key_id : string }.

Definition public_jwk_without_kid (k : P256Key) : PublicJwk := {|
  kty := "EC"; crv := "P-256"; jwk_x := b64url_encode (p256_x k);
  jwk_y := b64url_encode (p256_y k); kid := None; jwk_alg := None; use_ := None |}.

Definition with_derived_kid (k : P256Key) : SigningKey :=
  {| inner := k; key_id := thumbprint (public_jwk_without_kid k) |}.

(** [generate]: [k] is the key drawn from the operating system's generator. *)
Definition generate (k : P256Key) : SigningKey := with_derived_kid k.

Definition import (scalar : bytes) : result OAuthError SigningKey :=
  let? k := ok_or (p256_from_slice scalar) (Internal "invalid P-256 signing key scalar") in
  Ok (with_derived_kid k).

Definition export (self : SigningKey) : bytes := p256_to_bytes (inner self).

Definition public_jwk (self : SigningKey) : PublicJwk :=
  let j := public_jwk_without_kid (inner self) in
  {| kty := kty j; crv := crv j; jwk_x := jwk_x j; jwk_y := jwk_y j;
     kid := Some (key_id self); jwk_alg := Some "ES256"; use_ := Some "sig" |}.

Definition key_sign (self : SigningKey) (message : bytes) : bytes :=
  p256_sign (inner self) message.

(** ** Compact JWS *)

Record Unverified := {
  header : Value;
  payload_bytes : bytes;
  signing_input : string;
  signature : bytes;
}.

Definition malformed (what : string) : OAuthError :=
  InvalidDpopProof ("malformed JWS: " +:+ what).

Definition jws_parse (token : string) : result OAuthError Unverified :=
  match split_char "." token with
  | [h; p; s] =>
      let? header_bytes := ok_or (b64url_decode h) (malformed "header is not base64url") in
      let? payload := ok_or (b64url_decode p) (malformed "payload is not base64url") in
      let? sig := ok_or (b64url_decode s) (malformed "signature is not base64url") in
      let? hd := ok_or (json_from_slice header_bytes) (malformed "header is not JSON") in
      Ok {| header := hd; payload_bytes := payload; signing_input := h +:+ "." +:+ p;
            signature := sig |}
  | _ => Err (malformed "expected exactly three segments")
  end.

Definition header_str (self : Unverified) (key : string) : option string :=
  json_str key (header self).

Definition jws_alg (self : Unverified) : result OAuthError Alg :=
  let? alg := ok_or (header_str self "alg") (InvalidDpopProof "JWS header has no alg") in
  AlgFn.parse alg.

Definition payload_unverified {T} `{Serde T} (self : Unverified) : result OAuthError T :=
  map_err (fun e => InvalidDpopProof ("payload is not valid JSON: " +:+ e))
    (from_slice (payload_bytes self)).

Definition verify_with {T} `{Serde T} (self : Unverified) (jwk : PublicJwk)
    : result OAuthError T :=
  let? key_alg := jwk_key_alg jwk in
  let? header_alg := jws_alg self in
  ensure bool_decide (header_alg = key_alg)
    orelse InvalidDpopProof "JWS alg does not match the key's curve" in
  let? _u := jwk_verify jwk (signing_input self) (signature self) in
  map_err (fun e => InvalidDpopProof ("payload is not valid JSON: " +:+ e))
    (from_slice (payload_bytes self)).

Definition jws_sign {T} `{Serde T} (key : SigningKey) (typ : string) (claims : T)
    : result OAuthError string :=
  let hd := json_strings [("typ", typ); ("alg", "ES256"); ("kid", key_id key)] in
  let? header_bytes :=
    map_err (fun e => Internal ("encode JWS header: " +:+ e)) (json_to_vec hd) in
  let? payload :=
    map_err (fun e => Internal ("encode JWS payload: " +:+ e)) (to_vec claims) in
  let input := b64url_encode header_bytes +:+ "." +:+ b64url_encode payload in
  Ok (input +:+ "." +:+ b64url_encode (key_sign key input)).

Definition jws_verify {T} `{Serde T} (key : SigningKey) (expected_typ token : string)
    : result OAuthError T :=
  let? unverified := map_err (fun _ => InvalidToken "malformed token") (jws_parse token) in
  let typ_ok := match header_str unverified "typ" with
                | Some t => String.eqb t expected_typ
                | None => false
                end in
  ensure typ_ok orelse InvalidToken ("expected typ " +:+ expected_typ) in
  map_err (fun _ => InvalidToken "signature verification failed")
    (verify_with unverified (public_jwk key)).

(** ** Lemmas *)

Lemma b64url_no_char c s b :
  DigestLaws -> b64url_decode s = Some b -> is_b64url_char c = false -> contains_char c s = false.
Proof. intros HL Hd Hc. eapply all_bytes_no_char; [by eapply b64url_decode_chars|done]. Qed.

(** What parsing keeps: the three segments, and their decoded parts. *)
Lemma jws_parse_Ok token u :
  jws_parse token = Ok u <->
  exists h p s hb, split_char "." token = [h; p; s] /\ b64url_decode h = Some hb /\
    b64url_decode p = Some (payload_bytes u) /\ b64url_decode s = Some (signature u) /\
    json_from_slice hb = Some (header u) /\ signing_input u = h +:+ "." +:+ p.
Proof.
  unfold jws_parse. split.
  - intros E. destruct (split_char "." token) as [|h [|p [|s [|]]]]; try done.
    destruct (b64url_decode h) as [hb|] eqn:E1; [|done].
    destruct (b64url_decode p) eqn:E2; [|done].
    destruct (b64url_decode s) eqn:E3; [|done]. simpl in E.
    destruct (json_from_slice hb) eqn:E4; [|done]. simpl in E. injection E as <-.
    by exists h, p, s, hb.
  - intros (h & p & s & hb & -> & -> & -> & -> & E & E'). simpl. rewrite E. simpl.
    rewrite <- E'. by destruct u.
Qed.

(** The key's algorithm is the curve's, never the token's. *)
Lemma jwk_key_alg_Ok j a :
  jwk_key_alg j = Ok a -> kty j = "EC" /\ crv j = AlgFn.curve a.
Proof.
  unfold jwk_key_alg. destruct (String.eqb_spec (kty j) "EC"); [|done].
  destruct (String.eqb_spec (crv j) "P-256") as [->|]; [intros E; res_inv|].
  destruct (String.eqb_spec (crv j) "secp256k1") as [->|]; [intros E; res_inv|done].
Qed.

Lemma verify_with_Ok {T} `{Serde T} u jwk (c : T) :
  verify_with u jwk = Ok c ->
  exists a point, jwk_key_alg jwk = Ok a /\ header_str u "alg" = Some (AlgFn.as_str a) /\
    sec1_uncompressed jwk = Ok point /\
    ec_verify a point (signing_input u) (signature u) = true /\
    from_slice (payload_bytes u) = Ok c.
Proof.
  unfold verify_with, jwk_verify. intros E.
  destruct (jwk_key_alg jwk) as [a|] eqn:Ea; [|done].
  unfold jws_alg in E. destruct (header_str u "alg") as [s|] eqn:Eh; [|done]. simpl in E.
  destruct (AlgFn.parse s) as [a'|] eqn:Ep; [|done].
  destruct (sec1_uncompressed jwk) as [pt|] eqn:Ept; [|by case_bool_decide].
  case_bool_decide as Haa; [subst a'|done]. exists a, pt.
  assert (s = AlgFn.as_str a) as ->.
  { unfold AlgFn.parse in Ep. destruct (String.eqb_spec s "ES256"); [by simplify_eq|].
    destruct (String.eqb_spec s "ES256K"); by simplify_eq. }
  res_inv. apply map_err_Ok in E. done.
Qed.

Lemma b64url_encode_inj x y : DigestLaws -> b64url_encode x = b64url_encode y -> x = y.
Proof.
  intros HL E. pose proof (b64url_decode_encode x) as Hx. pose proof (b64url_decode_encode y) as Hy.
  rewrite E, Hy in Hx. by simplify_eq.
Qed.

(** Quote-free coordinates can be read back from the canonical form. *)
Lemma canonical_jwk_inj j1 j2 a1 a2 :
  jwk_key_alg j1 = Ok a1 -> jwk_key_alg j2 = Ok a2 ->
  contains_char "034" (jwk_x j1) = false -> contains_char "034" (jwk_x j2) = false ->
  contains_char "034" (jwk_y j1) = false -> contains_char "034" (jwk_y j2) = false ->
  canonical_jwk j1 = canonical_jwk j2 ->
  crv j1 = crv j2 /\ jwk_x j1 = jwk_x j2 /\ jwk_y j1 = jwk_y j2.
Proof.
  intros [K1 C1]%jwk_key_alg_Ok [K2 C2]%jwk_key_alg_Ok X1 X2 Y1 Y2. unfold canonical_jwk.
  rewrite K1, K2, C1, C2. intros E. repeat apply (inj (String.app _)) in E.
  destruct a1, a2; simpl in E; try discriminate; split; try reflexivity;
    repeat apply (inj (String.app _)) in E.
  all: assert (forall x r y r', contains_char "034" x = false -> contains_char "034" y = false ->
         x +:+ quote +:+ r = y +:+ quote +:+ r' -> x = y /\ r = r') as Hq
    by (intros x r y r' Hx Hy Exy; pose proof (proj2 (split_once_Some "034" _ x r) (conj eq_refl Hx)) as P1;
        pose proof (proj2 (split_once_Some "034" _ y r') (conj eq_refl Hy)) as P2;
        change (x +:+ String "034" r = y +:+ String "034" r') in Exy; rewrite Exy, P2 in P1;
        by simplify_eq).
  all: destruct (Hq _ _ _ _ X1 X2 E) as [Ex E']; repeat apply (inj (String.app _)) in E';
    by destruct (Hq _ _ _ _ Y1 Y2 E').
Qed.

End Jose.

(** ** Properties *)

(** signing then verifying gives the claims back.  A token the server signs
    verifies under the same key and [typ] to exactly the claims that went in,
    and is refused under every other [typ]. *)
Theorem jws_sign_verify `{DigestLaws} `{JsonLaws} `{EcdsaLaws} {T} `{SerdeLaws T}
    (k : P256Key) (typ : string) (claims : T) (token : string)
    (Hsign : jws_sign (with_derived_kid k) typ claims = Ok token) :
  jws_verify (with_derived_kid k) typ token = Ok claims /\
  forall typ', typ' <> typ ->
    jws_verify (T := T) (with_derived_kid k) typ' token = Err (InvalidToken ("expected typ " +:+ typ')).
Proof.
  unfold jws_sign in Hsign. set (hd := json_strings _) in *.
  destruct (json_to_vec hd) as [hb|] eqn:Eh; [|done]. simpl in Hsign.
  destruct (to_vec claims) as [pb|] eqn:Ep; [|done]. simpl in Hsign. injection Hsign as <-.
  set (h := b64url_encode hb). set (p := b64url_encode pb).
  set (sg := key_sign _ _). set (s := b64url_encode sg).
  assert (forall b, contains_char "." (b64url_encode b) = false) as Hdot.
  { intros b. eapply all_bytes_no_char; [apply b64url_encode_chars|done]. }
  assert (jws_parse ((h +:+ "." +:+ p) +:+ "." +:+ s) =
          Ok {| header := hd; payload_bytes := pb; signing_input := h +:+ "." +:+ p;
                signature := sg |}) as Hparse.
  { apply jws_parse_Ok. exists h, p, s, hb. simpl. rewrite str_app_assoc.
    change ("." +:+ ?x) with (String "." x). rewrite str_app_cons, !split_char_app by apply Hdot.
    rewrite split_char_word by apply Hdot. unfold h, p, s.
    by rewrite !b64url_decode_encode, (json_from_to_vec _ _ Eh). }
  assert (forall x y, (x, y) ∈ [("typ", typ); ("alg", "ES256"); ("kid", key_id (with_derived_kid k))] ->
            json_str x hd = Some y) as Hget.
  { intros x y. apply json_strings_get. repeat constructor; set_solver. }
  unfold jws_verify. rewrite Hparse. unfold header_str. simpl.
  rewrite (Hget "typ" typ) by left. split.
  - rewrite String.eqb_refl. apply map_err_Ok. unfold verify_with, jws_alg, header_str. simpl.
    rewrite (Hget "alg" "ES256") by (right; left). simpl.
    unfold jwk_verify, sec1_uncompressed, public_jwk. simpl. rewrite !b64url_decode_encode. simpl.
    rewrite p256_x_len, p256_y_len. simpl. unfold jwk_key_alg. simpl.
    rewrite p256_point_ok. unfold sg, key_sign. simpl. rewrite p256_sign_ok, p256_verify_sign.
    by apply map_err_Ok, from_slice_to_vec.
  - intros typ' Hne. destruct (String.eqb_spec typ typ'); [congruence|done].
Qed.

Definition demo_signing_key : SigningKey := with_derived_kid demo_key.
Definition demo_token : string :=
  match jws_sign demo_signing_key "at+jwt" "claims" with Ok t => t | Err _ => "" end.

Lemma jws_sign_verify_witness :
  jws_verify demo_signing_key "at+jwt" demo_token = Ok "claims" /\
  forall typ', typ' <> "at+jwt" ->
    jws_verify (T := string) demo_signing_key typ' demo_token
    = Err (InvalidToken ("expected typ " +:+ typ')).
Proof. apply (jws_sign_verify demo_key "at+jwt" "claims"). vm_compute. reflexivity. Defined.

(** what a verified token proves.  If [jws_verify] accepts, the token is
    exactly three dot-separated base64url segments, its header names the
    expected [typ] and the algorithm of the server's curve (so neither [none]
    nor another algorithm), the signature over the first two segments verifies
    under the server's own key, and the claims are the decoded payload. *)
Theorem jws_verify_sound `{Digests} `{Json} `{Ecdsa} {T} `{Serde T} (key : SigningKey)
    (typ token : string) (c : T) (Hok : jws_verify key typ token = Ok c) :
  exists h p s hb hd pb sb point,
    token = h +:+ "." +:+ p +:+ "." +:+ s /\
    b64url_decode h = Some hb /\ b64url_decode p = Some pb /\ b64url_decode s = Some sb /\
    json_from_slice hb = Some hd /\
    json_str "typ" hd = Some typ /\ json_str "alg" hd = Some "ES256" /\
    sec1_uncompressed (public_jwk key) = Ok point /\
    ec_verify ES256 point (h +:+ "." +:+ p) sb = true /\ from_slice pb = Ok c.
Proof.
  unfold jws_verify in Hok. destruct (jws_parse token) as [u|] eqn:Ep; [|done]. simpl in Hok.
  destruct (header_str u "typ") as [t|] eqn:Et; [|done].
  destruct (String.eqb_spec t typ) as [->|]; [|done]. apply map_err_Ok in Hok.
  apply verify_with_Ok in Hok as (a & point & Ha & Halg & Hpt & Hv & Hc).
  assert (a = ES256) as ->.
  { apply jwk_key_alg_Ok in Ha as [_ Ha]. by destruct a. }
  apply jws_parse_Ok in Ep as (h & p & s & hb & Hs & Hh & Hp & Hsg & Hhd & Hin).
  apply split_char_three in Hs. rewrite Hin in Hv.
  exists h, p, s, hb, (header u), (payload_bytes u), (signature u), point. done.
Qed.

Lemma jws_verify_sound_witness :
  exists h p s hb hd pb sb point,
    demo_token = h +:+ "." +:+ p +:+ "." +:+ s /\
    b64url_decode h = Some hb /\ b64url_decode p = Some pb /\ b64url_decode s = Some sb /\
    json_from_slice hb = Some hd /\
    json_str "typ" hd = Some "at+jwt" /\ json_str "alg" hd = Some "ES256" /\
    sec1_uncompressed (public_jwk demo_signing_key) = Ok point /\
    ec_verify ES256 point (h +:+ "." +:+ p) sb = true /\ from_slice pb = Ok "claims".
Proof. apply (jws_verify_sound demo_signing_key "at+jwt"). vm_compute. reflexivity. Defined.

(** a thumbprint identifies the key and nothing else.  It ignores [kid],
    [alg] and [use]; and two usable keys with the same thumbprint have the same
    curve and coordinates, unless their canonical forms are a SHA-256
    collision. *)
Theorem thumbprint_identifies_key `{DigestLaws} (j1 j2 : PublicJwk) a1 a2 p1 p2
    (A1 : jwk_key_alg j1 = Ok a1) (A2 : jwk_key_alg j2 = Ok a2)
    (P1 : sec1_uncompressed j1 = Ok p1) (P2 : sec1_uncompressed j2 = Ok p2) :
  thumbprint j1 = thumbprint j2 <->
  (kty j1 = kty j2 /\ crv j1 = crv j2 /\ jwk_x j1 = jwk_x j2 /\ jwk_y j1 = jwk_y j2) \/
  (canonical_jwk j1 <> canonical_jwk j2 /\
   sha256 (canonical_jwk j1) = sha256 (canonical_jwk j2)).
Proof.
  assert (forall j p, sec1_uncompressed j = Ok p ->
            contains_char "034" (jwk_x j) = false /\ contains_char "034" (jwk_y j) = false) as Hchars.
  { intros j p. unfold sec1_uncompressed.
    destruct (b64url_decode (jwk_x j)) eqn:Ex, (b64url_decode (jwk_y j)) eqn:Ey; try done.
    intros _. split; eapply b64url_no_char; eauto. }
  destruct (Hchars _ _ P1), (Hchars _ _ P2). unfold thumbprint. split.
  - intros E%b64url_encode_inj; [|done].
    destruct (decide (canonical_jwk j1 = canonical_jwk j2)) as [Ec|]; [left|by right].
    pose proof (jwk_key_alg_Ok _ _ A1) as [-> _]. pose proof (jwk_key_alg_Ok _ _ A2) as [-> _].
    split; [done|]. by eapply canonical_jwk_inj.
  - intros [(E1 & E2 & E3 & E4)|[_ E]]; [|by rewrite E].
    unfold canonical_jwk. by rewrite E1, E2, E3, E4.
Qed.

Lemma thumbprint_identifies_key_witness :
  let j1 := public_jwk_without_kid demo_key in
  let j2 := public_jwk demo_signing_key in
  thumbprint j1 = thumbprint j2 <->
  (kty j1 = kty j2 /\ crv j1 = crv j2 /\ jwk_x j1 = jwk_x j2 /\ jwk_y j1 = jwk_y j2) \/
  (canonical_jwk j1 <> canonical_jwk j2 /\
   sha256 (canonical_jwk j1) = sha256 (canonical_jwk j2)).
Proof. eapply (thumbprint_identifies_key _ _ ES256 ES256); vm_compute; reflexivity. Defined.
