(* ===== verification/Dpop.v ===== *)
(** * DPoP proofs

    [src/rust-core/src/oauth/dpop.rs]: nonces derived from a secret, and the
    verification of a proof against the request it accompanies.  Each reading
    of the clock is an argument: [now] for the age of the proof, [now_nonce]
    for the nonce. *)

From Stdlib Require Import ZArith Lia Ascii.
From S2P Require Import Prelude RustStr Externals Demo StoreTypes OAuthCore Jose MemoryStore.
From S2P Require Import MemoryProps.

Definition NONCE_WINDOW_SECS : Z := 300.
Definition MAX_PROOF_AGE_SECS : Z := 300.

Record DpopClaims := {
  dc_jti : string;
  dc_htm : string;
  dc_htu : string;
  dc_iat : Z;
  dc_nonce : option string;
  dc_ath : option string;
}.

Record DpopProof := {
  dp_jkt : string;
  dp_jti : string;
  dp_htm : string;
  dp_htu : string;
  dp_iat : Z;
  dp_ath : option string;
}.

(** The derived deserialisers a proof goes through. *)
Class DpopSerde `{Json} := {
  jwk_from_value : Value -> result string PublicJwk;
  dpop_claims_serde :: Serde DpopClaims;
}.

(** ** URI normalisation *)

Definition strip_suffix_or (p s : string) : string :=
  match strip_suffix p s with Some r => r | None => s end.

Definition normalize_htu (uri : string) : string :=
  let without_fragment := before_char "#" uri in
  let base := before_char "?" without_fragment in
  match split_once_str "://" base with
  | None => base
  | Some (scheme, rest) =>
      let '(authority, path) :=
        match split_once "/" rest with
        | Some (a, p) => (a, String "/" p)
        | None => (rest, EmptyString)
        end in
      let scheme := to_ascii_lowercase scheme in
      let authority := to_ascii_lowercase authority in
      let authority :=
        if String.eqb scheme "https" then strip_suffix_or ":443" authority
        else if String.eqb scheme "http" then strip_suffix_or ":80" authority
        else authority in
      let path := if String.eqb path "/" then EmptyString else path in
      scheme +:+ "://" +:+ authority +:+ path
  end.

Section Dpop.
Context `{Digests} `{Json} `{Ecdsa} `{!DpopSerde}.

(** ** Nonces *)

Definition nonce_for_window (nonce_secret : bytes) (window : Z) : string :=
  b64url_encode (sha256 (nonce_secret +:+ be_bytes 8 window EmptyString)).

Definition current_nonce (nonce_secret : bytes) (now : Z) : string :=
  nonce_for_window nonce_secret (now / NONCE_WINDOW_SECS).

Definition nonce_is_valid (nonce_secret : bytes) (now : Z) (nonce : string) : bool :=
  let window := now / NONCE_WINDOW_SECS in
  constant_time_eq nonce (nonce_for_window nonce_secret window)
  || constant_time_eq nonce (nonce_for_window nonce_secret (u64_saturating_sub window 1)).

(** ** Verification *)

Definition bad (m : string) : OAuthError := InvalidDpopProof m.

(** Steps (2) to (7): shape, [typ], embedded key, signature. *)
Definition dpop_authenticate (proof : string) : result OAuthError (PublicJwk * DpopClaims) :=
  let? unverified := jws_parse proof in
  let typ_ok := match header_str unverified "typ" with
                | Some t => String.eqb t "dpop+jwt"
                | None => false
                end in
  ensure typ_ok orelse bad "DPoP proof must have typ=dpop+jwt" in
  let? jwk_value :=
    ok_or (json_get "jwk" (header unverified)) (bad "DPoP proof header has no jwk") in
  let? _u := reject_if_private jwk_value in
  let? jwk :=
    map_err (fun e => bad ("DPoP proof jwk is not a supported EC key: " +:+ e))
      (jwk_from_value jwk_value) in
  let? claims := verify_with unverified jwk in
  Ok (jwk, claims).

(** Step (10). *)
Definition check_nonce (nonce_secret : bytes) (now_nonce : Z) (require_nonce : bool)
    (nonce : option string) : result OAuthError unit :=
  if require_nonce then
    match nonce with
    | None => Err (UseDpopNonce "a DPoP nonce is required")
    | Some n =>
        ensure nonce_is_valid nonce_secret now_nonce n
          orelse UseDpopNonce "the supplied DPoP nonce is stale or unrecognised" in
        Ok tt
    end
  else Ok tt.

(** Step (11). *)
Definition check_ath (access_token ath : option string) : result OAuthError unit :=
  match access_token, ath with
  | Some token, Some ath =>
      ensure constant_time_eq ath (b64url_encode (sha256 token))
        orelse bad "DPoP ath does not match the presented access token" in
      Ok tt
  | Some _, None => Err (bad "DPoP proof must carry ath when an access token is presented")
  | None, _ => Ok tt
  end.

(** Every check before the replay cache. *)
Definition dpop_check (nonce_secret : bytes) (now now_nonce : Z) (proof method uri : string)
    (access_token : option string) (require_nonce : bool)
    : result OAuthError (PublicJwk * DpopClaims) :=
  let? kc := dpop_authenticate proof in
  let claims := snd kc in
  ensure eq_ignore_ascii_case (dc_htm claims) method
    orelse bad "DPoP htm does not match the request method" in
  ensure String.eqb (normalize_htu (dc_htu claims)) (normalize_htu uri)
    orelse bad "DPoP htu does not match the request URI" in
  ensure u64_abs_diff now (dc_iat claims) <=? MAX_PROOF_AGE_SECS
    orelse bad "DPoP proof iat is outside the acceptable window" in
  let? _n := check_nonce nonce_secret now_nonce require_nonce (dc_nonce claims) in
  let? _a := check_ath access_token (dc_ath claims) in
  Ok kc.

Definition proof_of (kc : PublicJwk * DpopClaims) : DpopProof :=
  let claims := snd kc in {|
  dp_jkt := thumbprint (fst kc); dp_jti := dc_jti claims; dp_htm := dc_htm claims;
  dp_htu := dc_htu claims; dp_iat := dc_iat claims; dp_ath := dc_ath claims |}.

Definition dpop_verify {S} `{OAuthStore S} (nonce_secret : bytes) (now now_nonce : Z)
    (proof method uri : string) (access_token : option string) (require_nonce : bool)
    : SE S OAuthError DpopProof :=
  (let! kc := lift (dpop_check nonce_secret now now_nonce proof method uri access_token
                      require_nonce) in
   let! fresh := with_err Storage
                   (record_dpop_jti (dc_jti (snd kc)) (u64_add now MAX_PROOF_AGE_SECS)) in
   assert_or fresh (bad "DPoP proof jti has already been used") ;;!
   ret (proof_of kc))%se.

(** ** Lemmas *)

Lemma dpop_check_Ok secret now now_n proof method uri tok req kc :
  dpop_check secret now now_n proof method uri tok req = Ok kc <->
  dpop_authenticate proof = Ok kc /\
  eq_ignore_ascii_case (dc_htm (snd kc)) method = true /\
  normalize_htu (dc_htu (snd kc)) = normalize_htu uri /\
  u64_abs_diff now (dc_iat (snd kc)) <= MAX_PROOF_AGE_SECS /\
  check_nonce secret now_n req (dc_nonce (snd kc)) = Ok tt /\
  check_ath tok (dc_ath (snd kc)) = Ok tt.
Proof.
  unfold dpop_check. destruct (dpop_authenticate proof) as [kc'|]; [|naive_solver].
  split.
  - intros E. destruct (eq_ignore_ascii_case _ _) eqn:E1; [|done].
    destruct (String.eqb_spec (normalize_htu (dc_htu (snd kc'))) (normalize_htu uri)); [|done].
    destruct (Z.leb_spec (u64_abs_diff now (dc_iat (snd kc'))) MAX_PROOF_AGE_SECS); [|done].
    destruct (check_nonce _ _ _ _) as [[]|] eqn:E2; [|done].
    destruct (check_ath _ _) as [[]|] eqn:E3; [|done]. by simplify_eq.
  - intros ([= ->] & -> & -> & H4 & -> & ->). rewrite String.eqb_refl.
    by destruct (Z.leb_spec (u64_abs_diff now (dc_iat (snd kc))) MAX_PROOF_AGE_SECS); [|lia].
Qed.

Lemma dpop_authenticate_Ok proof jwk claims :
  dpop_authenticate proof = Ok (jwk, claims) ->
  exists u v a point, jws_parse proof = Ok u /\ header_str u "typ" = Some "dpop+jwt" /\
    json_get "jwk" (header u) = Some v /\
    Forall (fun m => json_has_member v m = false) PRIVATE_MEMBERS /\ jwk_from_value v = Ok jwk /\
    jwk_key_alg jwk = Ok a /\ header_str u "alg" = Some (AlgFn.as_str a) /\
    sec1_uncompressed jwk = Ok point /\
    ec_verify a point (signing_input u) (signature u) = true /\
    from_slice (payload_bytes u) = Ok claims.
Proof.
  unfold dpop_authenticate. intros E. destruct (jws_parse proof) as [u|] eqn:Eu; [|done].
  destruct (header_str u "typ") as [t|] eqn:Et; [|done].
  destruct (String.eqb_spec t "dpop+jwt") as [->|]; [|done].
  destruct (json_get "jwk" (header u)) as [v|] eqn:Ev; [|done]. simpl in E.
  unfold reject_if_private in E. destruct (existsb _ _) eqn:Ep; [done|].
  destruct (jwk_from_value v) as [jwk'|] eqn:Ej; [|done]. simpl in E.
  destruct (verify_with u jwk') as [c|] eqn:Ec; [|done]. simplify_eq/=.
  apply verify_with_Ok in Ec as (a & point & ? & ? & ? & ? & ?).
  exists u, v, a, point. repeat split; try done.
  apply Forall_forall. intros m Hm. destruct (json_has_member v m) eqn:Em; [|done].
  assert (existsb (json_has_member v) PRIVATE_MEMBERS = true) as Hx
    ; [|by pose proof (eq_trans (eq_sym Hx) Ep)].
  apply existsb_exists. exists m. split; [|done]. by apply list_elem_of_In.
Qed.

Lemma dpop_verify_Ok {S} `{OAuthStoreOk S} secret now now_n proof method uri tok req (s s' : S) p :
  dpop_verify secret now now_n proof method uri tok req s = (Ok p, s') ->
  exists kc, dpop_check secret now now_n proof method uri tok req = Ok kc /\ p = proof_of kc /\
    v_jti (oview s) !! dc_jti (snd kc) = None /\
    oview s' = v_set_jti (<[dc_jti (snd kc) := u64_add now MAX_PROOF_AGE_SECS]> (v_jti (oview s)))
                 (oview s).
Proof.
  unfold dpop_verify. intros E. apply bind_Ok in E as (kc & s1 & E1 & E).
  unfold lift in E1. simplify_eq. exists kc.
  apply bind_Ok in E as (fresh & s2 & E2 & E). apply bind_Ok in E as (u & s3 & E3 & E).
  apply assert_or_Ok in E3 as [-> ->]. unfold ret in E. simplify_eq.
  unfold with_err in E2. destruct (record_dpop_jti _ _ _) as [r s4] eqn:E4.
  injection E2 as E2 <-. apply map_err_Ok in E2 as ->.
  apply (refines_Ok _ _ _ _ _ _ (record_dpop_jti_ok _ _)) in E4 as [E4 E5].
  unfold spec_record_dpop_jti in *. destruct (v_jti (oview s1) !! _) eqn:El; [done|].
  rewrite E5. done.
Qed.

End Dpop.

(** ** A concrete client *)

Definition fields_or_nil (s : string) : list string := default [] (fields_decode s).

Definition claims_fields (c : DpopClaims) : list string :=
  [dc_jti c; dc_htm c; dc_htu c; Z_text (dc_iat c); opt_text (dc_nonce c); opt_text (dc_ath c)].

#[export] Instance demo_dpop_serde : DpopSerde := {
  jwk_from_value v :=
    match v with
    | DStr s => match fields_or_nil s with
                | [x; y] => Ok {| kty := "EC"; crv := "P-256"; jwk_x := x; jwk_y := y;
                                  kid := None; jwk_alg := None; use_ := None |}
                | _ => Err "bad jwk"
                end
    | DObj _ => Err "bad jwk"
    end;
  dpop_claims_serde := {|
    to_vec c := Ok (fields_encode (claims_fields c));
    from_slice b := match fields_or_nil b with
                    | [j; m; u; i; n; a] =>
                        Ok {| dc_jti := j; dc_htm := m; dc_htu := u; dc_iat := text_Z i;
                              dc_nonce := text_opt n; dc_ath := text_opt a |}
                    | _ => Err "bad claims"
                    end
  |};
}.

(** A proof a client with [demo_client_key] makes. *)
Definition demo_proof (c : DpopClaims) : string :=
  let j := public_jwk_without_kid demo_client_key in
  let hd := DObj [("typ", "dpop+jwt"); ("alg", "ES256");
                  ("jwk", fields_encode [jwk_x j; jwk_y j])] in
  match json_to_vec hd with
  | Ok hb =>
      let input := demo_encode hb +:+ "." +:+ demo_encode (fields_encode (claims_fields c)) in
      input +:+ "." +:+ demo_encode (p256_sign demo_client_key input)
  | Err _ => EmptyString
  end.

Definition demo_claims (jti : string) (iat : Z) (nonce ath : option string) : DpopClaims := {|
  dc_jti := jti; dc_htm := "post"; dc_htu := "https://pds.test/oauth/token"; dc_iat := iat;
  dc_nonce := nonce; dc_ath := ath |}.

Definition demo_secret : bytes := "secret".
Definition demo_store : Inner string := Inner_default.

(** ** Properties *)

(** C8: what a verified proof means.  If [verify] accepts, the proof is a
    [dpop+jwt] whose embedded key is public, is one of the two supported curves
    and signs the token under the algorithm of its own curve; method and
    normalised URI are those of the request; [iat] is within 300 seconds; where
    required, the nonce is a current one; where a token is presented, [ath] is
    its hash; the [jti] was not in the replay cache and is now; and the result
    names the thumbprint of that key.  Nothing else in the store changes. *)
Theorem dpop_verify_sound `{Digests} `{Json} `{Ecdsa} `{!DpopSerde} {S} `{OAuthStoreOk S}
    secret now now_n proof method uri tok req (s s' : S) p
    (Hok : dpop_verify secret now now_n proof method uri tok req s = (Ok p, s')) :
  exists u v jwk a point claims,
    jws_parse proof = Ok u /\ header_str u "typ" = Some "dpop+jwt" /\
    json_get "jwk" (header u) = Some v /\
    Forall (fun m => json_has_member v m = false) PRIVATE_MEMBERS /\ jwk_from_value v = Ok jwk /\
    jwk_key_alg jwk = Ok a /\ header_str u "alg" = Some (AlgFn.as_str a) /\
    sec1_uncompressed jwk = Ok point /\
    ec_verify a point (signing_input u) (signature u) = true /\
    from_slice (payload_bytes u) = Ok claims /\
    eq_ignore_ascii_case (dc_htm claims) method = true /\
    normalize_htu (dc_htu claims) = normalize_htu uri /\
    Z.abs (now - dc_iat claims) <= 300 /\
    (req = true -> exists n, dc_nonce claims = Some n /\ nonce_is_valid secret now_n n = true) /\
    (forall t, tok = Some t -> dc_ath claims = Some (b64url_encode (sha256 t))) /\
    v_jti (oview s) !! dc_jti claims = None /\
    oview s' = v_set_jti (<[dc_jti claims := u64_add now 300]> (v_jti (oview s))) (oview s) /\
    dp_jkt p = thumbprint jwk /\ dp_jti p = dc_jti claims.
Proof.
  apply dpop_verify_Ok in Hok as ([jwk claims] & Hc & -> & Hj & Hs).
  apply dpop_check_Ok in Hc as (Ha & Hm & Hu & Hi & Hn & Hath).
  apply dpop_authenticate_Ok in Ha as (u & v & a & point & H1' & H2' & H3' & H4' & H5' & H6' & H7'
    & H8' & H9' & H10'). simpl in *.
  exists u, v, jwk, a, point, claims. repeat (split; [done|]). repeat split; try done.
  - intros ->. unfold check_nonce in Hn. destruct (dc_nonce claims) as [n|]; [|done].
    exists n. split; [done|]. by destruct (nonce_is_valid secret now_n n).
  - intros t ->. unfold check_ath in Hath. destruct (dc_ath claims) as [x|]; [|done].
    destruct (constant_time_eq _ _) eqn:E; [|done]. apply constant_time_eq_true in E. by subst.
Qed.

Definition run_proof {S} (r : result OAuthError DpopProof * S) : DpopProof :=
  match fst r with
  | Ok p => p
  | Err _ => proof_of (public_jwk_without_kid demo_key, demo_claims "" 0 None None)
  end.

Definition demo_nonce : string := current_nonce demo_secret 1000.
Definition demo_p1 : string := demo_proof (demo_claims "j1" 1000 (Some demo_nonce) None).
Definition demo_run1 :=
  dpop_verify demo_secret 1000 1000 demo_p1 "POST" "HTTPS://Pds.Test:443/oauth/token?x=1" None true
    demo_store.

Lemma dpop_verify_sound_witness :
  exists u v jwk a point claims,
    jws_parse demo_p1 = Ok u /\ header_str u "typ" = Some "dpop+jwt" /\
    json_get "jwk" (header u) = Some v /\
    Forall (fun m => json_has_member v m = false) PRIVATE_MEMBERS /\ jwk_from_value v = Ok jwk /\
    jwk_key_alg jwk = Ok a /\ header_str u "alg" = Some (AlgFn.as_str a) /\
    sec1_uncompressed jwk = Ok point /\
    ec_verify a point (signing_input u) (signature u) = true /\
    from_slice (payload_bytes u) = Ok claims /\
    eq_ignore_ascii_case (dc_htm claims) "POST" = true /\
    normalize_htu (dc_htu claims) = normalize_htu "HTTPS://Pds.Test:443/oauth/token?x=1" /\
    Z.abs (1000 - dc_iat claims) <= 300 /\
    (true = true -> exists n, dc_nonce claims = Some n /\ nonce_is_valid demo_secret 1000 n = true) /\
    (forall t, None = Some t -> dc_ath claims = Some (b64url_encode (sha256 t))) /\
    v_jti (oview demo_store) !! dc_jti claims = None /\
    oview (snd demo_run1)
      = v_set_jti (<[dc_jti claims := u64_add 1000 300]> (v_jti (oview demo_store))) (oview demo_store) /\
    dp_jkt (run_proof demo_run1)
      = thumbprint jwk /\
    dp_jti (run_proof demo_run1)
      = dc_jti claims.
Proof.
  apply (dpop_verify_sound demo_secret 1000 1000 demo_p1 "POST"
           "HTTPS://Pds.Test:443/oauth/token?x=1" None true demo_store).
  vm_compute. reflexivity.
Defined.

(** C38: no replay while the entry is remembered.  Once a proof has been
    accepted, no later presentation of it (with any method, URI, token or time)
    is accepted in any state that still holds the replay entries of the state
    it left. *)
Theorem dpop_no_replay `{Digests} `{Json} `{Ecdsa} `{!DpopSerde} {S} `{OAuthStoreOk S}
    secret now now_n proof method uri tok req (s s1 : S) p
    (Hok : dpop_verify secret now now_n proof method uri tok req s = (Ok p, s1))
    (s2 : S) (Hkeep : v_jti (oview s1) ⊆ v_jti (oview s2)) :
  forall now' now_n' method' uri' tok' req' p' s3,
    dpop_verify secret now' now_n' proof method' uri' tok' req' s2 <> (Ok p', s3).
Proof.
  intros now' now_n' method' uri' tok' req' p' s3 E.
  apply dpop_verify_Ok in Hok as (kc & Hc & _ & _ & Hs). apply dpop_verify_Ok in E as (kc' & Hc' & _ & Hj & _).
  apply dpop_check_Ok in Hc as [Ha _]. apply dpop_check_Ok in Hc' as [Ha' _].
  rewrite Ha in Ha'. injection Ha' as <-.
  assert (v_jti (oview s2) !! dc_jti (snd kc) = Some (u64_add now MAX_PROOF_AGE_SECS)) as Hl.
  { eapply lookup_weaken; [|exact Hkeep]. rewrite Hs. apply lookup_insert_eq. }
  congruence.
Qed.

Lemma dpop_no_replay_witness :
  dpop_verify demo_secret 1100 1100 demo_p1 "POST" "HTTPS://Pds.Test:443/oauth/token?x=1" None true
    (snd demo_run1) <> (fst demo_run1, snd demo_run1).
Proof.
  destruct (fst demo_run1) as [p|e] eqn:E.
  - eapply (dpop_no_replay demo_secret 1000 1000 demo_p1 "POST" "HTTPS://Pds.Test:443/oauth/token?x=1"
            None true demo_store (snd demo_run1) p).
    + rewrite <- E. vm_compute; reflexivity.
    + reflexivity.
  - exfalso. vm_compute in E. discriminate E.
Defined.

(** the replay window the cache leaves open.  The cache remembers a [jti]
    until 300 seconds after the server saw it, but a proof is fresh until 300
    seconds after its own [iat], which may lie up to 300 seconds in the future.
    So after [purge_expired] the very same proof is accepted a second time, at
    any time from [now + 300] to [iat + 300] at which its nonce is still
    current. *)
Theorem dpop_replay_after_purge `{Digests} `{Json} `{Ecdsa} `{!DpopSerde} {Cid} `{Countable Cid}
    secret now now_n proof method uri tok req (g g1 : Inner Cid) p jwk claims t
    (Hok : dpop_verify secret now now_n proof method uri tok req g = (Ok p, g1))
    (Ha : dpop_authenticate proof = Ok (jwk, claims))
    (Hb : 0 <= now /\ now + 300 < u64_mod)
    (Ht : now + 300 <= t <= dc_iat claims + 300)
    (Hn : check_nonce secret t req (dc_nonce claims) = Ok tt) :
  exists g3, dpop_verify secret t t proof method uri tok req (snd (purge_expired t g1)) = (Ok p, g3).
Proof.
  apply dpop_verify_Ok in Hok as (kc & Hc & -> & Hj & Hs).
  apply dpop_check_Ok in Hc as (Ha' & Hm & Hu & Hi & _ & Hath).
  rewrite Ha in Ha'. injection Ha' as <-. simpl in *.
  assert (dpop_check secret t t proof method uri tok req = Ok (jwk, claims)) as Hc2.
  { apply dpop_check_Ok. simpl. repeat split; try done.
    unfold u64_abs_diff, MAX_PROOF_AGE_SECS in *. lia. }
  unfold dpop_verify, bind, lift. rewrite Hc2. simpl.
  unfold with_err, mem_record_dpop_jti. simpl.
  assert (oauth_jti g1 = <[dc_jti claims := u64_add now MAX_PROOF_AGE_SECS]> (oauth_jti g)) as ->.
  { apply (f_equal v_jti) in Hs. done. }
  rewrite map_lookup_filter_case, lookup_insert_eq.
  rewrite u64_add_id by (unfold MAX_PROOF_AGE_SECS; lia).
  case_decide as Hd; [unfold MAX_PROOF_AGE_SECS in Hd; simpl in Hd; lia|]. simpl. eauto.
Qed.

(** A proof dated 300 seconds ahead, with the nonce of the window before. *)
Definition demo_p2 : string := demo_proof (demo_claims "j2" 1300 (Some demo_nonce) None).
Definition demo_run2 :=
  dpop_verify demo_secret 1000 1000 demo_p2 "POST" "https://pds.test/oauth/token" None true demo_store.

Lemma dpop_replay_after_purge_witness :
  exists p g3, fst demo_run2 = Ok p /\
    dpop_verify demo_secret 1300 1300 demo_p2 "POST" "https://pds.test/oauth/token" None true
      (snd (purge_expired 1300 (snd demo_run2))) = (Ok p, g3).
Proof.
  destruct (dpop_replay_after_purge demo_secret 1000 1000 demo_p2 "POST" "https://pds.test/oauth/token"
              None true demo_store (snd demo_run2)
              (run_proof demo_run2)
              (public_jwk_without_kid demo_client_key)
              (demo_claims "j2" 1300 (Some demo_nonce) None) 1300) as [g3 Hg].
  - vm_compute. reflexivity.
  - vm_compute. reflexivity.
  - vm_compute. split; congruence.
  - vm_compute. split; congruence.
  - vm_compute. reflexivity.
  - eexists _, g3. split; [|exact Hg]. vm_compute. reflexivity.
Defined.

(** the nonce the server advertises is accepted for at least 300 seconds
    and never past the next window: one advertised at [t] is valid at every
    [t'] from [t] to [t + 299]; and if it is valid at any [t'], then [t'] is in
    the window of [t] or the one after it, or two distinct windows collide
    under SHA-256. *)
Theorem nonce_window `{DigestLaws} (secret : bytes) (t t' : Z)
    (Ht : 0 <= t < u64_mod) (Ht' : 0 <= t' < u64_mod) :
  (t <= t' < t + 300 -> nonce_is_valid secret t' (current_nonce secret t) = true) /\
  (nonce_is_valid secret t' (current_nonce secret t) = true ->
   t' / 300 = t / 300 \/ t' / 300 = t / 300 + 1 \/
   exists w w', w <> w' /\ sha256 (secret +:+ be_bytes 8 w "") = sha256 (secret +:+ be_bytes 8 w' "")).
Proof.
  unfold nonce_is_valid, current_nonce, NONCE_WINDOW_SECS, u64_saturating_sub.
  rewrite orb_true_iff, !constant_time_eq_true.
  pose proof (Z.div_pos t 300). pose proof (Z.div_pos t' 300).
  pose proof (Z.div_mod t 300). pose proof (Z.div_mod t' 300).
  pose proof (Z.mod_pos_bound t 300). pose proof (Z.mod_pos_bound t' 300). split.
  - intros Hr. assert (t' / 300 = t / 300 \/ t' / 300 = t / 300 + 1) as [->| ->] by lia; [by left|right].
    f_equal. lia.
  - intros Hv. destruct (decide (t' / 300 = t / 300)) as [|Hne]; [by left|right].
    destruct (decide (t' / 300 = t / 300 + 1)) as [|Hne2]; [by left|right].
    destruct Hv as [Hv|Hv]; apply b64url_encode_inj in Hv; try done.
    + exists (t / 300), (t' / 300). split; [lia|done].
    + exists (t / 300), (Z.max 0 (t' / 300 - 1)). split; [lia|done].
Qed.

Lemma nonce_window_witness :
  (1000 <= 1299 < 1000 + 300 -> nonce_is_valid "s" 1299 (current_nonce "s" 1000) = true) /\
  (nonce_is_valid "s" 1299 (current_nonce "s" 1000) = true ->
   1299 / 300 = 1000 / 300 \/ 1299 / 300 = 1000 / 300 + 1 \/
   exists w w', w <> w' /\ sha256 ("s" +:+ be_bytes 8 w "") = sha256 ("s" +:+ be_bytes 8 w' "")).
Proof. apply (nonce_window "s" 1000 1299); vm_compute; split; congruence. Defined.

(** what [normalize_htu] compares.  For a URI written as scheme, authority,
    path, optional query and fragment, the normal form has scheme and authority
    in lower case, the scheme's default port dropped, query and fragment gone,
    a bare [/] path removed and any other path kept as it is. *)
Theorem normalize_htu_spec (scheme authority path tail : string)
    (Hs : contains_char ":" scheme = false)
    (Hc : all_bytes (fun c => negb (Ascii.eqb c "#") && negb (Ascii.eqb c "?"))
            (scheme +:+ "://" +:+ authority +:+ path) = true)
    (Ha : contains_char "/" authority = false)
    (Hp : path = "" \/ starts_with "/" path = true)
    (Htail : tail = "" \/ starts_with "?" tail = true \/ starts_with "#" tail = true) :
  normalize_htu ((scheme +:+ "://" +:+ authority +:+ path) +:+ tail) =
  let sch := to_ascii_lowercase scheme in
  let auth := to_ascii_lowercase authority in
  sch +:+ "://" +:+
    (if String.eqb sch "https" then strip_suffix_or ":443" auth
     else if String.eqb sch "http" then strip_suffix_or ":80" auth else auth)
    +:+ (if String.eqb path "/" then "" else path).
Proof.
  set (base := scheme +:+ "://" +:+ authority +:+ path) in *.
  assert (contains_char "#" base = false /\ contains_char "?" base = false) as [H1 H2].
  { split; eapply all_bytes_no_char; try exact Hc; done. }
  assert (before_char "?" (before_char "#" (base +:+ tail)) = base) as Hbase.
  { destruct Htail as [->|[[r ->]%starts_with_spec|[r ->]%starts_with_spec]].
    - rewrite str_app_nil_r, (before_char_none "#") by done. by apply before_char_none.
    - change ("?" +:+ r) with (String "?" r). unfold before_char at 2.
      destruct (split_once "#" (base +:+ String "?" r)) as [[x y]|] eqn:E.
      + apply split_once_Some in E as [E Ex].
        assert (exists r', x = base +:+ String "?" r') as [r' ->].
        { clear -E H1. revert x E. induction base as [|a b IH]; intros x E.
          - rewrite str_app_nil_l in E. destruct x as [|c x]; [done|].
            rewrite str_app_cons in E. injection E as <- E. by exists x.
          - simpl in H1. apply orb_false_iff in H1 as [Ha Hb]. rewrite str_app_cons in E.
            destruct x as [|c x].
            + rewrite str_app_nil_l in E. injection E as -> _. done.
            + rewrite str_app_cons in E. injection E as -> E.
              destruct (IH Hb x E) as [r' ->]. by exists r'. }
        by rewrite before_char_app.
      + by rewrite before_char_app.
    - change ("#" +:+ r) with (String "#" r). rewrite before_char_app by done.
      by rewrite before_char_none. }
  unfold normalize_htu. rewrite Hbase. unfold base.
  change ("://" +:+ ?x) with (String ":" "//" +:+ x). rewrite split_once_str_app_char by done.
  destruct Hp as [->|[r ->]%starts_with_spec].
  - rewrite str_app_nil_r, (proj2 (split_once_None _ _) Ha). done.
  - change ("/" +:+ r) with (String "/" r).
    rewrite (proj2 (split_once_Some "/" _ authority r) (conj eq_refl Ha)). done.
Qed.

Lemma normalize_htu_spec_witness :
  normalize_htu (("HTTPS" +:+ "://" +:+ "Pds.Example.com:443" +:+ "/X") +:+ "?q#f") =
  "https://pds.example.com/X".
Proof.
  refine (eq_trans (normalize_htu_spec "HTTPS" "Pds.Example.com:443" "/X" "?q#f" _ _ _ _ _) _);
    try (vm_compute; reflexivity); right; [vm_compute; reflexivity|left; vm_compute; reflexivity].
Defined.
