(* ===== verification/Client.v ===== *)
(** * Clients, pushed requests, access tokens and discovery documents

    [src/rust-core/src/oauth/client.rs], [request.rs], [token.rs] and
    [metadata.rs].  URL parsing is the [url] crate's: a class of accessors. *)

From Stdlib Require Import ZArith Lia Ascii.
From S2P Require Import Prelude RustStr Externals Demo StoreTypes OAuthCore Jose.

(** ** URLs *)

Inductive Host := Domain (d : string) | Ipv4 (a : string) | Ipv6 (a : string).

Class UrlLib := {
  Url : Type;
  Url_parse : string -> result string Url;
  url_scheme : Url -> string;
  url_username : Url -> string;
  url_password : Url -> option string;
  url_fragment : Url -> option string;
  url_host : Url -> option Host;
  url_port : Url -> option Z;
  url_path : Url -> string;
  url_query : Url -> option string;
  url_query_pairs : Url -> list (string * string);
  url_as_str : Url -> string;
}.

Definition is_some {A} (o : option A) : bool := match o with Some _ => true | None => false end.

(** ** Client identifiers *)

Inductive ClientId `{UrlLib} :=
| Web (u : Url)
| Loopback (redirect_uris : list string) (scope : option string) (raw : string).

Record ClientMetadata `{Json} := {
  cm_client_id : string;
  cm_client_name : option string;
  cm_redirect_uris : list string;
  cm_grant_types : list string;
  cm_response_types : list string;
  cm_scope : string;
  cm_token_endpoint_auth_method : string;
  cm_dpop_bound_access_tokens : bool;
  cm_application_type : option string;
  cm_jwks_uri : option string;
  cm_jwks : option Value;
  cm_client_uri : option string;
  cm_logo_uri : option string;
  cm_policy_uri : option string;
  cm_tos_uri : option string;
}.

Definition default_auth_method : string := "none".

Section Client.
Context `{UrlLib} `{Json}.

Definition bad_client (m : string) : OAuthError := InvalidClient m.

Definition parse_web (url : Url) : result OAuthError ClientId :=
  let? _h :=
    match url_host url with
    | Some (Domain d) =>
        if String.eqb d "localhost" || ends_with ".localhost" d then
          Err (bad_client "localhost clients must use the http:// loopback form")
        else Ok tt
    | Some _ => Err (bad_client "client_id host must be a domain name, not an IP address")
    | None => Err (bad_client "client_id must have a host")
    end in
  ensure negb (is_some (url_port url)) orelse bad_client "client_id must not specify a port" in
  ensure negb (String.eqb (url_path url) "" || String.eqb (url_path url) "/")
    orelse bad_client "client_id must include a path to the metadata document" in
  ensure negb (is_some (url_query url))
    orelse bad_client "client_id must not contain a query string" in
  Ok (Web url).

(** The loop over the query pairs. *)
Fixpoint loopback_pairs (pairs : list (string * string)) (redirect_uris : list string)
    (scope : option string) : result OAuthError (list string * option string) :=
  match pairs with
  | [] => Ok (redirect_uris, scope)
  | (k, v) :: pairs =>
      if String.eqb k "redirect_uri" then loopback_pairs pairs (redirect_uris ++ [v]) scope
      else if String.eqb k "scope" then loopback_pairs pairs redirect_uris (Some v)
      else Err (bad_client ("unsupported localhost client_id parameter: " +:+ k))
  end.

Definition parse_loopback (raw : string) (url : Url) : result OAuthError ClientId :=
  let host_ok := match url_host url with Some (Domain d) => String.eqb d "localhost" | _ => false end in
  ensure host_ok orelse bad_client "http client_id is only permitted for localhost" in
  ensure negb (is_some (url_port url))
    orelse bad_client "localhost client_id must not specify a port" in
  ensure String.eqb (url_path url) "" || String.eqb (url_path url) "/"
    orelse bad_client "localhost client_id must not have a path" in
  let? rs := loopback_pairs (url_query_pairs url) [] None in
  let redirect_uris :=
    match fst rs with [] => ["http://127.0.0.1/"; "http://[::1]/"] | l => l end in
  Ok (Loopback redirect_uris (snd rs) raw).

Definition ClientId_parse (raw : string) : result OAuthError ClientId :=
  let? url := map_err (fun e => bad_client ("client_id is not a URL: " +:+ e)) (Url_parse raw) in
  ensure String.eqb (url_username url) "" && negb (is_some (url_password url))
    orelse bad_client "client_id must not contain credentials" in
  ensure negb (is_some (url_fragment url))
    orelse bad_client "client_id must not contain a fragment" in
  if String.eqb (url_scheme url) "http" then parse_loopback raw url
  else if String.eqb (url_scheme url) "https" then parse_web url
  else Err (bad_client ("client_id scheme must be https (or http for localhost), got "
                        +:+ url_scheme url)).

Definition ClientId_as_str (self : ClientId) : string :=
  match self with Web u => url_as_str u | Loopback _ _ raw => raw end.

Definition is_loopback (self : ClientId) : bool :=
  match self with Web _ => false | Loopback _ _ _ => true end.

Definition loopback_metadata (self : ClientId) : option ClientMetadata :=
  match self with
  | Web _ => None
  | Loopback redirect_uris scope raw => Some {|
      cm_client_id := raw;
      cm_client_name := Some "Local development client";
      cm_redirect_uris := redirect_uris;
      cm_grant_types := ["authorization_code"; "refresh_token"];
      cm_response_types := ["code"];
      cm_scope := default "atproto" scope;
      cm_token_endpoint_auth_method := "none";
      cm_dpop_bound_access_tokens := true;
      cm_application_type := Some "native";
      cm_jwks_uri := None; cm_jwks := None; cm_client_uri := None; cm_logo_uri := None;
      cm_policy_uri := None; cm_tos_uri := None |}
  end.

(** ** Client metadata *)

Definition metadata_validate (self : ClientMetadata) (client_id : ClientId)
    : result OAuthError unit :=
  ensure String.eqb (cm_client_id self) (ClientId_as_str client_id) orelse
    bad_client ("client metadata declares client_id " +:+ cm_client_id self
                +:+ " but was fetched as " +:+ ClientId_as_str client_id) in
  ensure cm_dpop_bound_access_tokens self
    orelse bad_client "client metadata must set dpop_bound_access_tokens to true" in
  ensure mem_str "authorization_code" (cm_grant_types self)
    orelse bad_client "client metadata must include the authorization_code grant type" in
  ensure mem_str "code" (cm_response_types self)
    orelse bad_client "client metadata must include the `code` response type" in
  ensure negb (length (cm_redirect_uris self) =? 0)%nat
    orelse bad_client "client metadata must declare at least one redirect_uri" in
  let? _m :=
    if String.eqb (cm_token_endpoint_auth_method self) "none" then Ok tt
    else if String.eqb (cm_token_endpoint_auth_method self) "private_key_jwt" then
      ensure is_some (cm_jwks_uri self) || is_some (cm_jwks self)
        orelse bad_client "a private_key_jwt client must publish jwks or jwks_uri" in Ok tt
    else Err (bad_client ("unsupported token_endpoint_auth_method: "
                          +:+ cm_token_endpoint_auth_method self)) in
  if negb (String.eqb (cm_scope self) "") then
    let? _s := Scope.parse (cm_scope self) in Ok tt
  else Ok tt.

Definition allows_redirect_uri (self : ClientMetadata) (uri : string) : bool :=
  existsb (fun u => String.eqb u uri) (cm_redirect_uris self).

Definition display_name (self : ClientMetadata) : string :=
  match cm_client_name self with
  | Some n => if negb (String.eqb (trim n) EmptyString) then n else cm_client_id self
  | None => cm_client_id self
  end.

End Client.

(** ** Token lifetimes *)

Definition ACCESS_TOKEN_TTL_SECS : Z := 3600.
Definition REFRESH_TOKEN_TTL_SECS : Z := 90 * 24 * 3600.
Definition AUTH_CODE_TTL_SECS : Z := 60.
Definition PAR_TTL_SECS : Z := 300.

(** ** Pushed authorization requests *)

Record PushedRequest := {
  pq_client_id : string;
  pq_response_type : string;
  pq_redirect_uri : option string;
  pq_scope : option string;
  pq_state : option string;
  pq_code_challenge : option string;
  pq_code_challenge_method : option string;
  pq_login_hint : option string;
}.

Record AuthorizationRequest `{Json} := {
  request_uri : string;
  stored : StoredPushedRequest;
  ar_client : ClientMetadata;
}.

Definition REQUEST_URI_PREFIX : string := "urn:ietf:params:oauth:request_uri:".

Section Request.
Context `{Digests} `{UrlLib} `{Json}.

(** [handle] is the fresh [random_token(32)], [now] the clock's reading. *)
Definition pushed_request_validate (self : PushedRequest) (client_id : ClientId)
    (client : ClientMetadata) (dpop_jkt : option string) (handle : string) (now : Z)
    : result OAuthError AuthorizationRequest :=
  ensure String.eqb (pq_response_type self) "code"
    orelse InvalidRequest "response_type must be `code`" in
  let? state :=
    match pq_state self with
    | Some s => if negb (String.eqb s "") then Ok s else Err (InvalidRequest "state is required")
    | None => Err (InvalidRequest "state is required")
    end in
  let? redirect_uri :=
    ok_or (pq_redirect_uri self) (InvalidRequest "redirect_uri is required") in
  ensure allows_redirect_uri client redirect_uri
    orelse InvalidRequest "redirect_uri is not registered for this client" in
  let? requested := Scope.parse (default "" (pq_scope self)) in
  let? _d :=
    if negb (String.eqb (cm_scope client) "") then
      let? declared := Scope.parse (cm_scope client) in
      ensure Scope.is_subset_of requested declared
        orelse InvalidScope "requested scope exceeds the client's registered scope" in
      Ok tt
    else Ok tt in
  let? cc := ok_or (pq_code_challenge self) (InvalidRequest "code_challenge is required") in
  let? challenge := CodeChallenge.parse cc (pq_code_challenge_method self) in
  let request_uri := REQUEST_URI_PREFIX +:+ handle in
  Ok {| stored := {|
          spr_request_uri_hash := hash_secret request_uri;
          spr_client_id := ClientId_as_str client_id;
          spr_redirect_uri := redirect_uri;
          spr_scope := Scope.to_string requested;
          spr_state := state;
          spr_code_challenge := challenge;
          spr_dpop_jkt := dpop_jkt;
          spr_login_hint := pq_login_hint self;
          spr_expires_at := u64_add now PAR_TTL_SECS |};
        request_uri := request_uri;
        ar_client := client |}.

Definition validate_request_uri (request_uri : string) : result OAuthError unit :=
  ensure starts_with REQUEST_URI_PREFIX request_uri
    orelse InvalidRequest "request_uri is not a recognised pushed-request handle" in
  Ok tt.

End Request.

(** ** Access tokens *)

Record AccessTokenClaims := {
  at_iss : string;
  at_sub : string;
  at_aud : string;
  at_client_id : string;
  at_scope : string;
  at_jti : string;
  at_iat : Z;
  at_exp : Z;
  at_cnf_jkt : string;
}.

Record TokenIssuer `{Ecdsa} := {
  ti_key : SigningKey;
  ti_issuer : string;
  ti_audience : string;
}.

Section Token.
Context `{Digests} `{Json} `{Ecdsa} `{Serde AccessTokenClaims}.

Definition claims_scope (self : AccessTokenClaims) : result OAuthError Scope.t :=
  Scope.parse (at_scope self).

(** [jti] is the fresh [random_token(16)]. *)
Definition issue_access_token (self : TokenIssuer) (did client_id : string) (scope : Scope.t)
    (jkt jti : string) (now : Z) : result OAuthError (string * Z) :=
  let claims := {|
    at_iss := ti_issuer self; at_sub := did; at_aud := ti_audience self;
    at_client_id := client_id; at_scope := Scope.to_string scope; at_jti := jti;
    at_iat := now; at_exp := u64_add now ACCESS_TOKEN_TTL_SECS; at_cnf_jkt := jkt |} in
  let? token := jws_sign (ti_key self) "at+jwt" claims in
  Ok (token, ACCESS_TOKEN_TTL_SECS).

Definition verify_access_token (self : TokenIssuer) (token : string) (now : Z)
    : result OAuthError AccessTokenClaims :=
  let? claims := jws_verify (ti_key self) "at+jwt" token in
  ensure negb (at_exp claims <=? now) orelse InvalidToken "access token has expired" in
  ensure String.eqb (at_iss claims) (ti_issuer self)
    orelse InvalidToken "access token issuer does not match" in
  ensure String.eqb (at_aud claims) (ti_audience self)
    orelse InvalidToken "access token audience does not match" in
  Ok claims.

End Token.

(** ** Discovery documents *)

Record AuthorizationServerMetadata := {
  issuer : string;
  authorization_endpoint : string;
  token_endpoint : string;
  pushed_authorization_request_endpoint : string;
  revocation_endpoint : string;
  jwks_uri : string;
  scopes_supported : list string;
  response_types_supported : list string;
  grant_types_supported : list string;
  code_challenge_methods_supported : list string;
  token_endpoint_auth_methods_supported : list string;
  token_endpoint_auth_signing_alg_values_supported : list string;
  require_pushed_authorization_requests : bool;
  dpop_signing_alg_values_supported : list string;
  require_request_uri_registration : bool;
  client_id_metadata_document_supported : bool;
  authorization_response_iss_parameter_supported : bool;
}.

(** [str::trim_end_matches('/')]. *)
Fixpoint trim_start_char (c : ascii) (s : string) : string :=
  match s with
  | String a s' => if Ascii.eqb a c then trim_start_char c s' else s
  | EmptyString => EmptyString
  end.
Definition trim_end_matches (c : ascii) (s : string) : string :=
  String.rev (trim_start_char c (String.rev s)).

Definition AuthorizationServerMetadata_new (iss : string) : AuthorizationServerMetadata :=
  let iss := trim_end_matches "/" iss in {|
    authorization_endpoint := iss +:+ "/oauth/authorize";
    token_endpoint := iss +:+ "/oauth/token";
    pushed_authorization_request_endpoint := iss +:+ "/oauth/par";
    revocation_endpoint := iss +:+ "/oauth/revoke";
    jwks_uri := iss +:+ "/oauth/jwks";
    issuer := iss;
    scopes_supported := SUPPORTED;
    response_types_supported := ["code"];
    grant_types_supported := ["authorization_code"; "refresh_token"];
    code_challenge_methods_supported := ["S256"];
    token_endpoint_auth_methods_supported := ["none"; "private_key_jwt"];
    token_endpoint_auth_signing_alg_values_supported := ["ES256"];
    require_pushed_authorization_requests := true;
    dpop_signing_alg_values_supported := ["ES256"; "ES256K"];
    require_request_uri_registration := false;
    client_id_metadata_document_supported := true;
    authorization_response_iss_parameter_supported := true |}.

Record ProtectedResourceMetadata := {
  resource : string;
  authorization_servers : list string;
  pr_scopes_supported : list string;
  bearer_methods_supported : list string;
  resource_documentation : string;
}.

Definition ProtectedResourceMetadata_new (res : string) : ProtectedResourceMetadata :=
  let res := trim_end_matches "/" res in {|
    authorization_servers := [res];
    resource := res;
    pr_scopes_supported := SUPPORTED;
    bearer_methods_supported := ["DPoP"];
    resource_documentation := "https://atproto.com" |}.

(** ** A concrete URL library

    A URL is its fields joined with blanks: enough to run the operations. *)
Record demo_url := { du_raw : string; du_scheme : string; du_host : string; du_path : string }.

#[export] Instance demo_urls : UrlLib := {
  Url := demo_url;
  Url_parse s :=
    match split_once_str "://" s with
    | Some (sch, r) =>
        match split_once "/" r with
        | Some (h, p) => Ok {| du_raw := s; du_scheme := sch; du_host := h; du_path := String "/" p |}
        | None => Ok {| du_raw := s; du_scheme := sch; du_host := r; du_path := "" |}
        end
    | None => Err "relative URL without a base"
    end;
  url_scheme := du_scheme;
  url_username _ := "";
  url_password _ := None;
  url_fragment _ := None;
  url_host u := Some (Domain (du_host u));
  url_port _ := None;
  url_path := du_path;
  url_query _ := None;
  url_query_pairs _ := [];
  url_as_str := du_raw;
}.

Definition at_fields (c : AccessTokenClaims) : list string :=
  [at_iss c; at_sub c; at_aud c; at_client_id c; at_scope c; at_jti c; Z_text (at_iat c);
   Z_text (at_exp c); at_cnf_jkt c].

#[export] Instance demo_access_serde : Serde AccessTokenClaims := {
  to_vec c := Ok (fields_encode (at_fields c));
  from_slice b := match fields_decode b with
                  | Some [i; s; a; c; sc; j; t; e; k] =>
                      Ok {| at_iss := i; at_sub := s; at_aud := a; at_client_id := c; at_scope := sc;
                            at_jti := j; at_iat := text_Z t; at_exp := text_Z e; at_cnf_jkt := k |}
                  | _ => Err "bad claims"
                  end;
}.

#[export] Instance demo_access_serde_laws : SerdeLaws AccessTokenClaims.
Proof.
  split. intros c b E. change (Ok (fields_encode (at_fields c)) = Ok (E := string) b) in E.
  assert (b = fields_encode (at_fields c)) as -> by congruence. cbn -[fields_encode fields_decode].
  rewrite fields_decode_encode. destruct c. simpl.
  by rewrite !text_Z_text.
Defined.

(** ** Properties *)

(** which client identifiers are accepted.  An accepted [https] client_id
    is a credential-free, fragment-free, query-free URL of a domain name other
    than [localhost] and its subdomains, on the default port, with a path.  The
    only other accepted form is [http://localhost] with no port and no path;
    its registration is non-empty, and when it does not name a scope the
    metadata synthesised from it passes the server's own validation. *)
Theorem client_id_parse_sound `{UrlLib} `{Json} (raw : string) (c : ClientId)
    (Hok : ClientId_parse raw = Ok c) :
  exists u, Url_parse raw = Ok u /\ url_username u = "" /\ url_password u = None /\
    url_fragment u = None /\ url_port u = None /\
    match c with
    | Web u' =>
        u' = u /\ url_scheme u = "https" /\ url_query u = None /\
        url_path u <> "" /\ url_path u <> "/" /\
        exists d, url_host u = Some (Domain d) /\ d <> "localhost" /\ ends_with ".localhost" d = false
    | Loopback uris scope raw' =>
        raw' = raw /\ url_scheme u = "http" /\ url_host u = Some (Domain "localhost") /\
        (url_path u = "" \/ url_path u = "/") /\ uris <> [] /\
        (scope = None -> exists m, loopback_metadata c = Some m /\ metadata_validate m c = Ok tt)
    end.
Proof.
  unfold ClientId_parse in Hok. destruct (Url_parse raw) as [u|] eqn:Eu; [|done]. simpl in Hok.
  exists u. destruct (String.eqb_spec (url_username u) ""); [|done].
  destruct (url_password u); [done|]. simpl in Hok. destruct (url_fragment u); [done|]. simpl in Hok.
  repeat (split; [done|]). destruct (String.eqb_spec (url_scheme u) "http") as [Es|Es].
  - unfold parse_loopback in Hok. destruct (url_host u) as [[d| |]|] eqn:Eh; try done.
    destruct (String.eqb_spec d "localhost") as [->|]; [|done].
    destruct (url_port u); [done|]. simpl in Hok.
    destruct (_ || _) eqn:Epath in Hok; [|done].
    destruct (loopback_pairs _ _ _) as [[uris sc]|]; [|done]. simpl in Hok. injection Hok as <-.
    split; [done|]. split; [done|]. split; [done|]. split; [done|]. split.
    { apply orb_true_iff in Epath as [E|E]; apply String.eqb_eq in E; auto. }
    split; [by destruct uris|]. intros ->. eexists. split; [done|].
    unfold metadata_validate. cbn -[Scope.parse]. rewrite String.eqb_refl. by destruct uris.
  - destruct (String.eqb_spec (url_scheme u) "https"); [|done].
    unfold parse_web in Hok. destruct (url_host u) as [[d| |]|] eqn:Eh; try done.
    destruct (String.eqb_spec d "localhost") as [->|]; [done|]. simpl in Hok.
    destruct (ends_with ".localhost" d) eqn:Ee; [done|].
    destruct (url_port u); [done|]. simpl in Hok.
    destruct (String.eqb_spec (url_path u) ""); [done|]. simpl in Hok.
    destruct (String.eqb_spec (url_path u) "/"); [done|]. simpl in Hok.
    destruct (url_query u) eqn:Eq; [done|]. simpl in Hok. injection Hok as <-.
    repeat (split; [done|]). by exists d.
Qed.

Lemma client_id_parse_sound_witness :
  exists u, Url_parse "http://localhost" = Ok u /\ url_username u = "" /\ url_password u = None /\
    url_fragment u = None /\ url_port u = None /\
    ("http://localhost" = "http://localhost" /\ url_scheme u = "http" /\
     url_host u = Some (Domain "localhost") /\ (url_path u = "" \/ url_path u = "/") /\
     ["http://127.0.0.1/"; "http://[::1]/"] <> [] /\
     (None = (None : option string) ->
      exists m, loopback_metadata (Loopback ["http://127.0.0.1/"; "http://[::1]/"] None "http://localhost")
                = Some m /\
        metadata_validate m (Loopback ["http://127.0.0.1/"; "http://[::1]/"] None "http://localhost")
        = Ok tt)).
Proof.
  apply (client_id_parse_sound "http://localhost"
           (Loopback ["http://127.0.0.1/"; "http://[::1]/"] None "http://localhost")).
  vm_compute. reflexivity.
Defined.

(** the PAR entry point.  A pushed request is accepted exactly when it asks
    for a code, carries a non-empty state, names a registered redirect URI, a
    valid scope within the client's declared one, and an S256 challenge of the
    right shape; and what is stored is exactly that, under the hash of the
    fresh handle, with the normalised scope and an expiry 300 seconds away. *)
Theorem pushed_request_validate_spec `{Digests} `{UrlLib} `{Json} (q : PushedRequest)
    (cid : ClientId) (client : ClientMetadata) jkt handle now (ar : AuthorizationRequest) :
  pushed_request_validate q cid client jkt handle now = Ok ar <->
  exists state redirect sc cc,
    pq_response_type q = "code" /\ pq_state q = Some state /\ state <> "" /\
    pq_redirect_uri q = Some redirect /\ In redirect (cm_redirect_uris client) /\
    Scope.parse (default "" (pq_scope q)) = Ok sc /\
    (cm_scope client <> "" -> exists d, Scope.parse (cm_scope client) = Ok d /\
                                        Scope.is_subset_of sc d = true) /\
    pq_code_challenge q = Some cc /\ CodeChallenge.parse cc (pq_code_challenge_method q) = Ok cc /\
    ar = {| request_uri := REQUEST_URI_PREFIX +:+ handle;
            stored := Build_StoredPushedRequest (hash_secret (REQUEST_URI_PREFIX +:+ handle))
                        (ClientId_as_str cid) redirect (Scope.to_string sc) state cc jkt
                        (pq_login_hint q) (u64_add now 300);
            ar_client := client |}.
Proof.
  assert (forall s, allows_redirect_uri client s = true <-> In s (cm_redirect_uris client)) as Hin.
  { intros s. unfold allows_redirect_uri. rewrite existsb_exists. split.
    - intros (x & Hx & E). apply String.eqb_eq in E. by subst.
    - intros Hx. exists s. by rewrite String.eqb_refl. }
  assert (forall cc m c, CodeChallenge.parse cc m = Ok c -> c = cc) as Hcc.
  { intros cc m c. unfold CodeChallenge.parse. intros E. res_inv. }
  unfold pushed_request_validate. split.
  - intros E. destruct (String.eqb_spec (pq_response_type q) "code"); [|done].
    destruct (pq_state q) as [st|] eqn:Est; [|done].
    destruct (String.eqb_spec st ""); [done|]. simpl in E.
    destruct (pq_redirect_uri q) as [ru|]; [|done]. simpl in E.
    destruct (allows_redirect_uri client ru) eqn:Er; [|done].
    destruct (Scope.parse (default "" (pq_scope q))) as [sc|]; [|done].
    match type of E with (match ?m with _ => _ end) = _ => destruct m as [[]|] eqn:Ed; [|done] end.
    destruct (pq_code_challenge q) as [cc|]; [|done]. simpl in E.
    destruct (CodeChallenge.parse cc _) as [c|] eqn:Ec; [|done]. pose proof (Hcc _ _ _ Ec) as ->.
    injection E as <-. exists st, ru, sc, cc. repeat split; try done; [by apply Hin|].
    intros Hne. apply String.eqb_neq in Hne. rewrite Hne in Ed. simpl in Ed.
    destruct (Scope.parse (cm_scope client)) as [d|]; [|done]. exists d.
    split; [done|]. by destruct (Scope.is_subset_of sc d).
  - intros (st & ru & sc & cc & -> & -> & Hst & -> & Hru & -> & Hd & -> & Hc & ->). simpl.
    apply String.eqb_neq in Hst. rewrite Hst. simpl. apply Hin in Hru. rewrite Hru.
    destruct (String.eqb_spec (cm_scope client) ""); simpl; [by rewrite Hc|].
    destruct (Hd n) as (d & -> & ->). by rewrite Hc.
Qed.

(** the life of an access token.  A token minted at [now] verifies to its
    own claims (subject, client, scope, and the DPoP key it is bound to) at
    exactly the times before [now + 3600], under the same issuer; an issuer
    with the same key but another name or audience refuses it. *)
Theorem access_token_lifetime `{DigestLaws} `{JsonLaws} `{EcdsaLaws} `{SerdeLaws AccessTokenClaims}
    (k : P256Key) iss aud did client_id sc jkt jti now token ttl
    (Hnow : 0 <= now /\ now + 3600 < u64_mod)
    (Hi : issue_access_token {| ti_key := with_derived_kid k; ti_issuer := iss; ti_audience := aud |}
            did client_id sc jkt jti now = Ok (token, ttl)) :
  (forall t c, verify_access_token {| ti_key := with_derived_kid k; ti_issuer := iss; ti_audience := aud |}
                 token t = Ok c <->
     t < now + 3600 /\
     c = {| at_iss := iss; at_sub := did; at_aud := aud; at_client_id := client_id;
            at_scope := Scope.to_string sc; at_jti := jti; at_iat := now; at_exp := now + 3600;
            at_cnf_jkt := jkt |}) /\
  (forall iss' aud' t, iss' <> iss \/ aud' <> aud ->
     is_err (verify_access_token {| ti_key := with_derived_kid k; ti_issuer := iss'; ti_audience := aud' |}
               token t) = true).
Proof.
  unfold issue_access_token in Hi. simpl in Hi.
  destruct (jws_sign _ _ _) as [tk|] eqn:Es; [|done]. injection Hi as -> <-.
  apply jws_sign_verify in Es as [Hv _]. unfold verify_access_token. simpl. rewrite Hv.
  rewrite u64_add_id by (unfold ACCESS_TOKEN_TTL_SECS; lia). unfold ACCESS_TOKEN_TTL_SECS. simpl. split.
  - intros t c. rewrite !String.eqb_refl. destruct (Z.leb_spec (now + 3600) t); simpl.
    + split; [done|lia].
    + split; [by intros [= <-]|]. by intros [_ ->].
  - intros iss' aud' t Hne. destruct (_ <=? t); [done|]. simpl.
    destruct (String.eqb_spec iss iss'), (String.eqb_spec aud aud'); try done. naive_solver.
Qed.

Definition demo_issuer : TokenIssuer :=
  {| ti_key := demo_signing_key; ti_issuer := "https://pds.test"; ti_audience := "did:web:pds.test" |}.

Definition demo_access : string :=
  match issue_access_token demo_issuer "did:a" "client" ["atproto"] "jkt" "jti" 1000 with
  | Ok (t, _) => t | Err _ => "" end.

Lemma access_token_lifetime_witness :
  is_ok (verify_access_token demo_issuer demo_access 4599) = true /\
  is_ok (verify_access_token demo_issuer demo_access 4600) = false.
Proof.
  destruct (access_token_lifetime demo_key "https://pds.test" "did:web:pds.test" "did:a" "client"
              ["atproto"] "jkt" "jti" 1000 demo_access 3600) as [H1 _].
  - vm_compute. split; congruence.
  - vm_compute. reflexivity.
  - split.
    + apply is_ok_spec. eexists. apply H1. split; [lia|reflexivity].
    + apply not_true_iff_false. rewrite is_ok_spec. intros [c Hc]. apply H1 in Hc as [Hc _]. lia.
Defined.
