(* ===== verification/OAuthServer.v ===== *)
(** * The OAuth endpoints

    [src/rust-pds/src/xrpc/oauth/]: the token, pushed-authorization, authorize
    and revocation endpoints as runs over any store that meets the storage
    contracts, and the HTTP rendering of their errors.  What a request reads
    from outside (clock, random draws) is in [Ambient], one field per reading;
    fetching a client's metadata document is a parameter. *)

From Stdlib Require Import ZArith Lia Ascii.
From S2P Require Import Prelude RustStr Externals Demo StoreTypes OAuthCore Jose MemoryStore.
From S2P Require Import MemoryProps Dpop Client.

(** The readings of the clock and the random values of one request. *)
Record Ambient := {
  now_proof : Z;
  now_nonce : Z;
  now_store : Z;
  now_access : Z;
  now_refresh : Z;
  rnd_access_jti : string;
  rnd_refresh : string;
  rnd_session : string;
  rnd_code : string;
  rnd_handle : string;
}.

(** ** Rendering errors *)

Record HttpError := {
  he_status : Z;
  he_error : string;
  he_description : string;
  he_dpop_nonce : option string;
  he_www_authenticate : option string;
}.

Definition error_status (e : OAuthError) : Z :=
  match e with
  | UseDpopNonce _ => 400
  | InvalidClient _ | InvalidToken _ => 401
  | InvalidDpopProof _ => 401
  | AccessDenied _ => 403
  | Storage _ | Internal _ => 500
  | _ => 400
  end.

(** [header_value_ok] is [HeaderValue::from_str] succeeding. *)
Definition error_response (header_value_ok : string -> bool) (e : OAuthError)
    (nonce : option string) : HttpError := {|
  he_status := error_status e;
  he_error := error_code e;
  he_description := public_description e;
  he_dpop_nonce := n ← nonce; if header_value_ok n then Some n else None;
  he_www_authenticate :=
    if error_status e =? 401
    then Some ("DPoP algs=" +:+ quote +:+ "ES256 ES256K" +:+ quote) else None |}.

(** ** Query strings *)

Definition hex_digit (z : Z) : ascii :=
  ascii_of_N (Z.to_N (if z <? 10 then 48 + z else 55 + z)).

Definition urlencode_byte (c : ascii) : string :=
  if is_unreserved c then String c EmptyString
  else String "%" (String (hex_digit (byte_val c / 16))
                     (String (hex_digit (byte_val c mod 16)) EmptyString)).

Fixpoint urlencode (s : string) : string :=
  match s with
  | EmptyString => EmptyString
  | String c s => urlencode_byte c +:+ urlencode s
  end.

Fixpoint push_params (sep : ascii) (params : list (string * string)) : string :=
  match params with
  | [] => EmptyString
  | (k, v) :: params =>
      String sep (urlencode k +:+ String "=" (urlencode v +:+ push_params "&" params))
  end.

Definition append_query (base : string) (params : list (string * string)) : string :=
  base +:+ push_params (if contains_char "?" base then "&"%char else "?"%char) params.

(** ** Forms and responses *)

Record TokenForm := {
  tf_grant_type : string;
  tf_client_id : string;
  tf_code : option string;
  tf_redirect_uri : option string;
  tf_code_verifier : option string;
  tf_refresh_token : option string;
  tf_scope : option string;
}.

Record TokenResponse := {
  tr_access_token : string;
  tr_token_type : string;
  tr_expires_in : Z;
  tr_refresh_token : string;
  tr_scope : string;
  tr_sub : string;
}.

Record ParForm := {
  pf_client_id : string;
  pf_response_type : string;
  pf_redirect_uri : option string;
  pf_scope : option string;
  pf_state : option string;
  pf_code_challenge : option string;
  pf_code_challenge_method : option string;
  pf_login_hint : option string;
}.

Record ParResponse := { par_request_uri : string; par_expires_in : Z }.

(** What the authorize endpoint answers. *)
Inductive AuthorizeResponse :=
| RedirectTo (location : string)
| ErrorPage (status : Z) (title message : string)
| ConsentPage (request_uri client_name client_id : string) (scopes : list string)
    (login_hint error : option string).

Record AuthorizeForm := {
  af_request_uri : string;
  af_username : string;
  af_password : string;
  af_action : string;
}.

Record OAuthState `{Json} `{Ecdsa} `{UrlLib} := {
  os_issuer : TokenIssuer;
  os_nonce_secret : bytes;
  os_resolve : ClientId -> result OAuthError ClientMetadata;
  os_issuer_url : string;
}.

Section Server.
Context `{Digests} `{Json} `{Ecdsa} `{UrlLib} `{!DpopSerde} `{Serde AccessTokenClaims}.
Context {Cid St : Type} `{StorageBackend Cid St}.
(** [verify_password] is argon2id's: whether the password matches the PHC. *)
Variable verify_password : string -> string -> result string bool.
Variable state : OAuthState.

Notation M A := (SE St OAuthError A).

(** [?] on a storage result: [From<StorageError>]. *)
Definition store {A} (m : SE St StorageError A) : M A := with_err Storage m.

Definition endpoint_url (path : string) : string := os_issuer_url state +:+ path.

(** ** The token endpoint *)

(** [headers] holds the values of the [DPoP] headers; [None] is a value that
    is not visible ASCII. *)
Definition server_verify_dpop (amb : Ambient) (headers : list (option string)) : M DpopProof :=
  match headers with
  | [] => throw (InvalidDpopProof "a DPoP proof is required")
  | [None] => throw (InvalidDpopProof "DPoP header is not valid ASCII")
  | [Some proof] =>
      dpop_verify (os_nonce_secret state) (now_proof amb) (now_nonce amb) proof "POST"
        (endpoint_url "/oauth/token") None true
  | _ => throw (InvalidDpopProof "exactly one DPoP header is permitted")
  end.

Definition issue (amb : Ambient) (did client_id : string) (scope : Scope.t) (jkt : string)
    (session_id : option string) : M TokenResponse :=
  (let! access := lift (issue_access_token (os_issuer state) did client_id scope jkt
                          (rnd_access_jti amb) (now_access amb)) in
   let! _u := store (put_refresh_token {|
     rt_token_hash := hash_secret (rnd_refresh amb);
     rt_session_id := default (rnd_session amb) session_id;
     rt_did := did;
     rt_client_id := client_id;
     rt_scope := Scope.to_string scope;
     rt_dpop_jkt := jkt;
     rt_issued_at := now_refresh amb;
     rt_expires_at := u64_add (now_refresh amb) REFRESH_TOKEN_TTL_SECS |}) in
   ret {| tr_access_token := fst access; tr_token_type := "DPoP"; tr_expires_in := snd access;
          tr_refresh_token := rnd_refresh amb; tr_scope := Scope.to_string scope;
          tr_sub := did |})%se.

(** Everything the code grant checks once the code is spent. *)
Definition code_grant_checks (form : TokenForm) (proof : DpopProof) (record : AuthCode)
    : result OAuthError Scope.t :=
  ensure String.eqb (ac_client_id record) (tf_client_id form)
    orelse InvalidGrant "authorization code was issued to a different client" in
  let? redirect_uri := ok_or (tf_redirect_uri form) (InvalidRequest "redirect_uri is required") in
  ensure String.eqb redirect_uri (ac_redirect_uri record)
    orelse InvalidGrant "redirect_uri does not match" in
  let? verifier := ok_or (tf_code_verifier form) (InvalidRequest "code_verifier is required") in
  let? _p := CodeChallenge.verify (ac_code_challenge record) verifier in
  let? _k :=
    match ac_dpop_jkt record with
    | Some expected =>
        ensure String.eqb expected (dp_jkt proof) orelse
          InvalidGrant "DPoP key does not match the key bound at authorization time" in
        Ok tt
    | None => Ok tt
    end in
  Scope.parse (ac_scope record).

Definition authorization_code_grant (amb : Ambient) (form : TokenForm) (proof : DpopProof)
    : M TokenResponse :=
  (let! code := lift (ok_or (tf_code form) (InvalidRequest "code is required")) in
   let! found := store (consume_auth_code (hash_secret code) (now_store amb)) in
   let! record := lift (ok_or found
     (InvalidGrant "authorization code is invalid, expired, or already used")) in
   let! scope := lift (code_grant_checks form proof record) in
   issue amb (ac_did record) (ac_client_id record) scope (dp_jkt proof) None)%se.

Definition refresh_grant_checks (form : TokenForm) (proof : DpopProof)
    (record : RefreshTokenRecord) : result OAuthError Scope.t :=
  ensure String.eqb (rt_client_id record) (tf_client_id form)
    orelse InvalidGrant "refresh token was issued to a different client" in
  ensure String.eqb (rt_dpop_jkt record) (dp_jkt proof)
    orelse InvalidGrant "DPoP key does not match the key this refresh token is bound to" in
  let? granted := Scope.parse (rt_scope record) in
  match tf_scope form with
  | None => Ok granted
  | Some requested =>
      let? requested := Scope.parse requested in
      ensure Scope.is_subset_of requested granted
        orelse InvalidScope "requested scope exceeds the originally granted scope" in
      Ok requested
  end.

(** Up to the last check: the storage calls of redeeming the presented token. *)
Definition refresh_redeem (amb : Ambient) (form : TokenForm) (proof : DpopProof)
    : M (RefreshTokenRecord * Scope.t) :=
  (let! presented :=
     lift (ok_or (tf_refresh_token form) (InvalidRequest "refresh_token is required")) in
   let! outcome := store (consume_refresh_token (hash_secret presented) (now_store amb)) in
   match outcome with
   | Consumed record =>
       let! scope := lift (refresh_grant_checks form proof record) in
       ret (record, scope)
   | Reused session_id =>
       let! _n := store (revoke_session session_id) in
       throw (InvalidGrant "refresh token has already been used; the session has been revoked")
   | NotFound => throw (InvalidGrant "refresh token is invalid or expired")
   end)%se.

Definition refresh_token_grant (amb : Ambient) (form : TokenForm) (proof : DpopProof)
    : M TokenResponse :=
  (let! rs := refresh_redeem amb form proof in
   issue amb (rt_did (fst rs)) (rt_client_id (fst rs)) (snd rs) (dp_jkt proof)
     (Some (rt_session_id (fst rs))))%se.

Definition token_handle (amb : Ambient) (headers : list (option string)) (form : TokenForm)
    : M TokenResponse :=
  (let! proof := server_verify_dpop amb headers in
   if String.eqb (tf_grant_type form) "authorization_code" then
     authorization_code_grant amb form proof
   else if String.eqb (tf_grant_type form) "refresh_token" then
     refresh_token_grant amb form proof
   else throw (UnsupportedGrantType (tf_grant_type form)))%se.

(** The endpoint: the nonce is computed first and goes out with either answer. *)
Definition token_endpoint (header_value_ok : string -> bool) (now : Z) (amb : Ambient)
    (headers : list (option string)) (form : TokenForm) (s : St)
    : result HttpError (TokenResponse * option string) * St :=
  let nonce := current_nonce (os_nonce_secret state) now in
  match token_handle amb headers form s with
  | (Ok body, s) => (Ok (body, if header_value_ok nonce then Some nonce else None), s)
  | (Err e, s) => (Err (error_response header_value_ok e (Some nonce)), s)
  end.

(** ** Pushed authorization requests *)

Definition pushed_of (f : ParForm) : PushedRequest := {|
  pq_client_id := pf_client_id f; pq_response_type := pf_response_type f;
  pq_redirect_uri := pf_redirect_uri f; pq_scope := pf_scope f; pq_state := pf_state f;
  pq_code_challenge := pf_code_challenge f;
  pq_code_challenge_method := pf_code_challenge_method f; pq_login_hint := pf_login_hint f |}.

Definition par_handle (amb : Ambient) (headers : list (option string)) (form : ParForm)
    : M ParResponse :=
  (let! client_id := lift (ClientId_parse (pf_client_id form)) in
   let! resolved := lift (os_resolve state client_id) in
   let! dpop_jkt :=
     match headers with
     | Some proof :: _ =>
         let! verified := dpop_verify (os_nonce_secret state) (now_proof amb) (now_nonce amb)
                            proof "POST" (endpoint_url "/oauth/par") None false in
         ret (Some (dp_jkt verified))
     | _ => ret None
     end in
   let! validated := lift (pushed_request_validate (pushed_of form) client_id resolved dpop_jkt
                             (rnd_handle amb) (now_store amb)) in
   let expires_in :=
     u64_saturating_sub (spr_expires_at (stored validated)) (now_refresh amb) in
   let! _u := store (put_pushed_request (stored validated)) in
   ret {| par_request_uri := request_uri validated; par_expires_in := expires_in |})%se.

(** ** The authorize endpoint *)

(** Loading a pushed request: the request, or the page to show. *)
Definition load_request (now : Z) (request_uri : string)
    : SE St AuthorizeResponse StoredPushedRequest :=
  match validate_request_uri request_uri with
  | Err _ => throw (ErrorPage 400 "Invalid request" "This authorization request is not recognised.")
  | Ok _ => fun s =>
      match get_pushed_request (hash_secret request_uri) now s with
      | (Ok (Some stored), s) => (Ok stored, s)
      | (Ok None, s) =>
          (Err (ErrorPage 400 "Request expired"
             "This authorization request has expired or has already been used. Please start again from the application."), s)
      | (Err _, s) =>
          (Err (ErrorPage 500 "Server error" "Something went wrong. Please try again."), s)
      end
  end.

Definition GENERIC : string := "Incorrect handle or password.".

Definition login_handle (username : string) : string :=
  to_ascii_lowercase (trim_start_char "@" (trim username)).

Definition authenticate (username password : string) : SE St string string :=
  fun s =>
    match get_account_by_handle (login_handle username) s with
    | (Ok (Some (did, phc)), s) =>
        (match verify_password password phc with
         | Ok true => Ok did
         | Ok false => Err GENERIC
         | Err _ => Err "Something went wrong. Please try again."
         end, s)
    | (Ok None, s) => (Err GENERIC, s)
    | (Err _, s) => (Err "Something went wrong. Please try again.", s)
    end.

Definition redirect_error (stored : StoredPushedRequest) (code description : string)
    : AuthorizeResponse :=
  RedirectTo (append_query (spr_redirect_uri stored)
    [("error", code); ("error_description", description); ("state", spr_state stored)]).

Definition issue_code (amb : Ambient) (stored : StoredPushedRequest) (did : string)
    : M AuthorizeResponse :=
  (let! _p := store (put_auth_code {|
     ac_code_hash := hash_secret (rnd_code amb);
     ac_did := did;
     ac_client_id := spr_client_id stored;
     ac_redirect_uri := spr_redirect_uri stored;
     ac_scope := spr_scope stored;
     ac_code_challenge := spr_code_challenge stored;
     ac_dpop_jkt := spr_dpop_jkt stored;
     ac_expires_at := u64_add (now_refresh amb) AUTH_CODE_TTL_SECS |}) in
   let! _d := store (delete_pushed_request (spr_request_uri_hash stored)) in
   ret (RedirectTo (append_query (spr_redirect_uri stored)
     [("code", rnd_code amb); ("state", spr_state stored); ("iss", os_issuer_url state)])))%se.

Definition render_page (request_uri : string) (stored : StoredPushedRequest)
    (error : option string) : AuthorizeResponse :=
  let client_name :=
    match ClientId_parse (spr_client_id stored) with
    | Ok id => match os_resolve state id with
               | Ok md => display_name md
               | Err _ => spr_client_id stored
               end
    | Err _ => spr_client_id stored
    end in
  let scopes := match Scope.parse (spr_scope stored) with Ok s => s | Err _ => [] end in
  ConsentPage request_uri client_name (spr_client_id stored) scopes (spr_login_hint stored) error.

(** Both handlers always answer: the outcome is the response itself. *)
Definition authorize_page (now : Z) (request_uri : string) (client_id : option string) (s : St)
    : AuthorizeResponse * St :=
  match load_request now request_uri s with
  | (Err page, s) => (page, s)
  | (Ok stored, s) =>
      let mismatch := match client_id with
                      | Some c => negb (String.eqb c (spr_client_id stored))
                      | None => false
                      end in
      if mismatch then
        (ErrorPage 400 "Invalid request"
           "The client_id does not match this authorization request.", s)
      else (render_page request_uri stored None, s)
  end.

Definition authorize_submit (amb : Ambient) (form : AuthorizeForm) (s : St)
    : AuthorizeResponse * St :=
  match load_request (now_store amb) (af_request_uri form) s with
  | (Err page, s) => (page, s)
  | (Ok stored, s) =>
      if negb (String.eqb (af_action form) "accept") then
        let '(_, s) := delete_pushed_request (spr_request_uri_hash stored) s in
        (redirect_error stored "access_denied" "The user denied the request.", s)
      else
        match authenticate (af_username form) (af_password form) s with
        | (Err message, s) => (render_page (af_request_uri form) stored (Some message), s)
        | (Ok did, s) =>
            match issue_code amb stored did s with
            | (Ok redirect, s) => (redirect, s)
            | (Err e, s) => (redirect_error stored (error_code e) (public_description e), s)
            end
        end
  end.

(** ** Revocation: always 200 *)

Definition revoke (token : string) (s : St) : Z * St :=
  let '(_, s) := revoke_refresh_token (hash_secret token) s in (200, s).

End Server.

Definition derive_nonce_secret `{Digests} (jwt_secret : bytes) : bytes :=
  sha256 ("stelyph-oauth-dpop-nonce-v1" +:+ jwt_secret).
