(* ===== verification/OAuthProps.v ===== *)
(** * The OAuth endpoints: properties

    Proved against the storage contract [OAuthStoreOk], so they hold over any
    backend that meets it. *)

From Stdlib Require Import ZArith Lia Ascii.
From S2P Require Import Prelude RustStr Externals Demo StoreTypes OAuthCore Jose MemoryStore.
From S2P Require Import MemoryProps Dpop Client OAuthServer.

(** ** Lemmas about the runs *)

Section Runs.
Context `{Digests} `{Json} `{Ecdsa} `{UrlLib} `{!DpopSerde} `{Serde AccessTokenClaims}.
Context {Cid St : Type} `{StorageBackend Cid St} `{!OAuthStoreOk St}.
Variable state : OAuthState.
Implicit Types (s : St) (v : OAuthView).

Lemma store_Ok {A} (m : SE St StorageError A) f s a s' :
  refines oview m f -> store m s = (Ok a, s') ->
  a = fst (f (oview s)) /\ oview s' = snd (f (oview s)).
Proof.
  unfold store, with_err. intros Hr E. destruct (m s) as [r s1] eqn:Em.
  injection E as E <-. apply map_err_Ok in E as ->. by eapply refines_Ok.
Qed.

Lemma store_Err {A} (m : SE St StorageError A) f s e s' :
  refines oview m f -> store m s = (Err e, s') -> (exists x, e = Storage x) /\ oview s' = oview s.
Proof.
  unfold store, with_err. intros Hr E. destruct (m s) as [[a|x] s1] eqn:Em; [done|].
  injection E as <- <-. split; [by exists x|by eapply refines_Err].
Qed.

Definition new_token (amb : Ambient) did client_id (scope : Scope.t) jkt session_id
    : RefreshTokenRecord := {|
  rt_token_hash := hash_secret (rnd_refresh amb);
  rt_session_id := default (rnd_session amb) session_id; rt_did := did;
  rt_client_id := client_id; rt_scope := Scope.to_string scope; rt_dpop_jkt := jkt;
  rt_issued_at := now_refresh amb;
  rt_expires_at := u64_add (now_refresh amb) REFRESH_TOKEN_TTL_SECS |}.

Lemma issue_Ok amb did client_id scope jkt session_id s r s' :
  issue state amb did client_id scope jkt session_id s = (Ok r, s') ->
  oview s' = v_set_refresh
    (<[hash_secret (rnd_refresh amb) := (new_token amb did client_id scope jkt session_id, false)]>
       (v_refresh (oview s))) (oview s) /\
  issue_access_token (os_issuer state) did client_id scope jkt (rnd_access_jti amb)
    (now_access amb) = Ok (tr_access_token r, tr_expires_in r) /\
  tr_token_type r = "DPoP" /\ tr_refresh_token r = rnd_refresh amb /\
  tr_scope r = Scope.to_string scope /\ tr_sub r = did.
Proof.
  unfold issue. intros E. se_inv E. unfold lift in Hm. injection Hm as Hm <-.
  unfold ret in E. injection E as <- <-. rewrite Hm. simpl.
  destruct (store_Ok _ _ _ _ _ (put_refresh_token_ok _) Hm0) as [_ ->].
  by destruct a.
Qed.

(** Minting never touches the codes, whatever its outcome. *)
Lemma issue_codes amb did client_id scope jkt session_id s r s' :
  issue state amb did client_id scope jkt session_id s = (r, s') ->
  v_codes (oview s') = v_codes (oview s).
Proof.
  destruct r as [r|e]; intros E; [apply issue_Ok in E as [-> _]; done|].
  unfold issue in E. apply bind_Err in E as [E|(a & s1 & E1 & E)].
  - unfold lift in E. by simplify_eq.
  - unfold lift in E1. injection E1 as _ <-. apply bind_Err in E as [E|(b & s2 & E2 & E)]; [|done].
    by destruct (store_Err _ _ _ _ _ (put_refresh_token_ok _) E) as [_ ->].
Qed.

Lemma server_verify_dpop_view amb headers s r s' :
  server_verify_dpop state amb headers s = (r, s') ->
  v_codes (oview s') = v_codes (oview s) /\ v_refresh (oview s') = v_refresh (oview s).
Proof.
  unfold server_verify_dpop.
  destruct headers as [|[p|] [|]]; try (unfold throw; by intros [= <- <-]).
  unfold dpop_verify. intros E. destruct r as [r|e].
  - apply dpop_verify_Ok in E as (? & _ & _ & _ & ->). done.
  - apply bind_Err in E as [E|(kc & s1 & E1 & E)]; [unfold lift in E; by simplify_eq|].
    unfold lift in E1. injection E1 as _ <-.
    apply bind_Err in E as [E|(b & s2 & E2 & E)].
    + unfold with_err in E. destruct (record_dpop_jti _ _ _) as [[?|x] s3] eqn:E3; [done|].
      injection E as _ <-. by rewrite (refines_Err _ _ _ _ _ _ (record_dpop_jti_ok _ _) E3).
    + unfold with_err in E2. destruct (record_dpop_jti _ _ _) as [r3 s3] eqn:E3.
      injection E2 as E2 <-. apply map_err_Ok in E2 as ->.
      destruct (refines_Ok _ _ _ _ _ _ (record_dpop_jti_ok _ _) E3) as [_ Hv].
      assert (s' = s3) as ->.
      { unfold bind, assert_or, ret, throw in E. destruct b; by simplify_eq. }
      rewrite Hv. unfold spec_record_dpop_jti. by case_match.
Qed.

Lemma code_grant_checks_Ok form proof record sc :
  code_grant_checks form proof record = Ok sc ->
  ac_client_id record = tf_client_id form /\
  tf_redirect_uri form = Some (ac_redirect_uri record) /\
  (exists verifier, tf_code_verifier form = Some verifier /\
                    CodeChallenge.verify (ac_code_challenge record) verifier = Ok tt) /\
  (forall k, ac_dpop_jkt record = Some k -> k = dp_jkt proof) /\
  Scope.parse (ac_scope record) = Ok sc.
Proof.
  unfold code_grant_checks. intros E.
  destruct (String.eqb_spec (ac_client_id record) (tf_client_id form)); [|done].
  destruct (tf_redirect_uri form) as [ru|]; [|done]. simpl in E.
  destruct (String.eqb_spec ru (ac_redirect_uri record)) as [Hru|]; [|done].
  destruct (tf_code_verifier form) as [ver|]; [|done]. simpl in E.
  destruct (CodeChallenge.verify _ ver) as [[]|] eqn:Ev; [|done].
  repeat split; try done; [by rewrite Hru|by exists ver| |].
  - intros k Hk. rewrite Hk in E. by destruct (String.eqb_spec k (dp_jkt proof)).
  - destruct (ac_dpop_jkt record) as [k|]; [|done]. by destruct (String.eqb k (dp_jkt proof)).
Qed.

Lemma refresh_grant_checks_Ok form proof record sc :
  refresh_grant_checks form proof record = Ok sc ->
  rt_client_id record = tf_client_id form /\ rt_dpop_jkt record = dp_jkt proof /\
  exists granted, Scope.parse (rt_scope record) = Ok granted /\
    Scope.is_subset_of sc granted = true.
Proof.
  assert (forall l : Scope.t, Scope.is_subset_of l l = true) as Hrefl.
  { intros l. apply forallb_forall. intros x. apply mem_str_In. }
  unfold refresh_grant_checks. intros E.
  destruct (String.eqb_spec (rt_client_id record) (tf_client_id form)); [|done].
  destruct (String.eqb_spec (rt_dpop_jkt record) (dp_jkt proof)); [|done].
  destruct (Scope.parse (rt_scope record)) as [granted|]; [|done].
  repeat split; try done. exists granted. split; [done|].
  destruct (tf_scope form) as [rq|]; [|by simplify_eq].
  destruct (Scope.parse rq) as [rs|]; [|done].
  destruct (Scope.is_subset_of rs granted) eqn:Es; by simplify_eq.
Qed.

Lemma refresh_redeem_Ok amb form proof s rec sc s' :
  refresh_redeem amb form proof s = (Ok (rec, sc), s') ->
  exists token, tf_refresh_token form = Some token /\
    v_refresh (oview s) !! hash_secret token = Some (rec, false) /\
    now_store amb < rt_expires_at rec /\ refresh_grant_checks form proof rec = Ok sc /\
    oview s' = v_set_refresh (<[hash_secret token := (rec, true)]> (v_refresh (oview s))) (oview s).
Proof.
  unfold refresh_redeem. intros E. apply bind_Ok in E as (token & s1 & E1 & E).
  unfold lift in E1. injection E1 as E1 <-. apply ok_or_Ok in E1. exists token. split; [done|].
  apply bind_Ok in E as (oc & s2 & E2 & E).
  destruct (store_Ok _ _ _ _ _ (consume_refresh_token_ok _ _) E2) as [-> Hv].
  unfold spec_consume_refresh_token in *.
  destruct (v_refresh (oview s) !! hash_secret token) as [[r used]|]; [|done].
  destruct (Z.leb_spec (rt_expires_at r) (now_store amb)); [done|].
  destruct used; simpl in *.
  - apply bind_Ok in E as (? & ? & _ & E). done.
  - apply bind_Ok in E as (sc' & s3 & E3 & E). unfold lift in E3. unfold ret in E. simplify_eq. done.
Qed.

End Runs.

(** ** A concrete server *)

Definition demo_state : OAuthState := {|
  os_issuer := demo_issuer;
  os_nonce_secret := demo_secret;
  os_resolve _ := Err (InvalidClient "not fetched");
  os_issuer_url := "https://pds.test" |}.

Definition demo_ambient (now : Z) (tag : string) : Ambient := {|
  now_proof := now; OAuthServer.now_nonce := now; now_store := now; now_access := now;
  now_refresh := now; rnd_access_jti := "aj" +:+ tag; rnd_refresh := "rt" +:+ tag;
  rnd_session := "sid" +:+ tag; rnd_code := "code" +:+ tag; rnd_handle := "handle" +:+ tag |}.

Definition demo_jkt : string := thumbprint (public_jwk_without_kid demo_client_key).
Definition demo_verifier : string := "dBjftJeZ4CVP-mB92K27uhbUJU1p1r_wW1gFWFOEjXk".

(** A store holding one code, [secret-code], bound to the client's key. *)
Definition demo_auth_code : AuthCode := {|
  ac_code_hash := hash_secret "secret-code"; ac_did := "did:a"; ac_client_id := "client";
  ac_redirect_uri := "https://app.test/cb"; ac_scope := "atproto transition:generic";
  ac_code_challenge := b64url_encode (sha256 demo_verifier); ac_dpop_jkt := Some demo_jkt;
  ac_expires_at := 1060 |}.
Definition demo_s0 : Inner string := run [CPutAuthCode demo_auth_code] Inner_default.

Definition demo_code_form : TokenForm := {|
  tf_grant_type := "authorization_code"; tf_client_id := "client"; tf_code := Some "secret-code";
  tf_redirect_uri := Some "https://app.test/cb"; tf_code_verifier := Some demo_verifier;
  tf_refresh_token := None; tf_scope := None |}.
Definition demo_headers (jti : string) (now : Z) : list (option string) :=
  [Some (demo_proof (demo_claims jti now (Some (current_nonce demo_secret now)) None))].

Definition demo_vp (_ _ : string) : result string bool := Ok true.
Definition demo_exchange : result OAuthError TokenResponse * Inner string :=
  token_handle (Cid := string) demo_state (demo_ambient 1000 "1") (demo_headers "j1" 1000)
    demo_code_form demo_s0.
Definition demo_s1 : Inner string := snd demo_exchange.
Definition demo_response : TokenResponse :=
  match fst demo_exchange with
  | Ok r => r
  | Err _ => Build_TokenResponse "" "" 0 "" "" ""
  end.

(** The abstract state of the in-memory backend, as the endpoints see it. *)
Definition mem_view (s : Inner string) : OAuthView :=
  @oview (Inner string) (@backend_oauth string (Inner string) mem_backend) mem_oauth_ok s.

(** ** Properties *)

(** C4: the code exchange.  If the token endpoint answers a code grant with
    tokens, the DPoP proof verified, the code was stored and unexpired, and the
    request matched it in client, redirect URI, PKCE verifier and bound key;
    the tokens are for the account that approved, under the approved scope and
    the proof's key; the code is gone and the new refresh token is stored, live
    and bound to that key. *)
Theorem code_grant_sound `{Digests} `{Json} `{Ecdsa} `{UrlLib} `{!DpopSerde}
    `{Serde AccessTokenClaims} {Cid St} `{StorageBackend Cid St} `{!OAuthStoreOk St}
    (state : OAuthState) amb headers form (s s' : St) r
    (Hg : tf_grant_type form = "authorization_code")
    (Hok : token_handle state amb headers form s = (Ok r, s')) :
  exists code record proof s1 sc,
    server_verify_dpop state amb headers s = (Ok proof, s1) /\
    tf_code form = Some code /\ v_codes (oview s) !! hash_secret code = Some record /\
    now_store amb < ac_expires_at record /\ ac_client_id record = tf_client_id form /\
    tf_redirect_uri form = Some (ac_redirect_uri record) /\
    (exists verifier, tf_code_verifier form = Some verifier /\
       CodeChallenge.verify (ac_code_challenge record) verifier = Ok tt) /\
    (forall k, ac_dpop_jkt record = Some k -> k = dp_jkt proof) /\
    Scope.parse (ac_scope record) = Ok sc /\ tr_scope r = Scope.to_string sc /\
    tr_sub r = ac_did record /\
    issue_access_token (os_issuer state) (ac_did record) (ac_client_id record) sc (dp_jkt proof)
      (rnd_access_jti amb) (now_access amb) = Ok (tr_access_token r, tr_expires_in r) /\
    v_codes (oview s') = delete (hash_secret code) (v_codes (oview s)) /\
    v_refresh (oview s') = <[hash_secret (tr_refresh_token r) :=
      (new_token amb (ac_did record) (ac_client_id record) sc (dp_jkt proof) None, false)]>
      (v_refresh (oview s)).
Proof.
  unfold token_handle in Hok. apply bind_Ok in Hok as (proof & s1 & Ep & Hok).
  destruct (server_verify_dpop_view _ _ _ _ _ _ Ep) as [Hc Hr]. rewrite Hg in Hok. simpl in Hok.
  unfold authorization_code_grant in Hok. apply bind_Ok in Hok as (code & s2 & E2 & Hok).
  unfold lift in E2. injection E2 as E2 <-. apply ok_or_Ok in E2.
  apply bind_Ok in Hok as (found & s3 & E3 & Hok).
  destruct (store_Ok _ _ _ _ _ (consume_auth_code_ok _ _) E3) as [-> Hv]. simpl in Hok, Hv.
  apply bind_Ok in Hok as (record & s4 & E4 & Hok). unfold lift in E4. injection E4 as E4 <-.
  apply ok_or_Ok in E4. rewrite Hc in E4.
  destruct (v_codes (oview s) !! hash_secret code) as [rec|] eqn:El; [|done].
  destruct (Z.ltb_spec (now_store amb) (ac_expires_at rec)); [|done]. injection E4 as <-.
  apply bind_Ok in Hok as (sc & s5 & E5 & Hok). unfold lift in E5. injection E5 as E5 <-.
  apply code_grant_checks_Ok in E5 as (K1 & K2 & K3 & K4 & K5).
  apply issue_Ok in Hok as (Hview & Hacc & _ & Hrt & Hsc & Hsub).
  exists code, rec, proof, s1, sc. rewrite Hrt, Hview. simpl. rewrite Hv. simpl. rewrite Hc, Hr. done.
Qed.

Lemma code_grant_sound_witness :
  v_codes (mem_view demo_s1) !! hash_secret "secret-code" = None /\
  exists proof scope, v_refresh (mem_view demo_s1) =
    <[hash_secret (tr_refresh_token demo_response) :=
        (new_token (demo_ambient 1000 "1") "did:a" "client" scope (dp_jkt proof) None, false)]>
      (v_refresh (mem_view demo_s0)) /\ dp_jkt proof = demo_jkt.
Proof.
  destruct (code_grant_sound demo_state (demo_ambient 1000 "1") (demo_headers "j1" 1000)
              demo_code_form demo_s0 demo_s1 demo_response)
    as (code & rec & proof & s1 & sc & _ & Hc & Hl & _ & _ & _ & _ & Hk & _ & _ & _ & _ & Hv & Hr);
    [reflexivity|vm_compute; reflexivity|].
  injection Hc as <-.
  assert (rec = demo_auth_code) as -> by (vm_compute in Hl; injection Hl as <-; vm_compute; reflexivity).
  split.
  - unfold mem_view. rewrite Hv. apply lookup_delete_eq.
  - exists proof, sc. split; [exact Hr|]. symmetry. by apply Hk.
Defined.

(** a code is spent whatever follows.  Once the DPoP proof of a code grant
    has verified and storage does not fail, the presented code is no longer
    redeemable afterwards: wrong client, wrong redirect URI, wrong verifier,
    wrong key and success all leave it deleted. *)
Theorem code_spent_whatever_follows `{Digests} `{Json} `{Ecdsa} `{UrlLib} `{!DpopSerde}
    `{Serde AccessTokenClaims} {Cid St} `{StorageBackend Cid St} `{!OAuthStoreOk St}
    (state : OAuthState) amb headers form (s s' : St) r code
    (Hg : tf_grant_type form = "authorization_code") (Hcode : tf_code form = Some code)
    (Hp : is_ok (fst (server_verify_dpop state amb headers s)) = true)
    (Hr : token_handle state amb headers form s = (r, s'))
    (Hst : forall e, r <> Err (Storage e)) :
  v_codes (oview s') !! hash_secret code = None.
Proof.
  unfold token_handle, bind in Hr.
  destruct (server_verify_dpop state amb headers s) as [[proof|] s1] eqn:Ep; [|done].
  rewrite Hg in Hr. simpl in Hr. unfold authorization_code_grant, bind, lift in Hr.
  rewrite Hcode in Hr. simpl in Hr.
  destruct (store _ s1) as [[found|e] s2] eqn:E2.
  2:{ apply (store_Err _ _ _ _ _ (consume_auth_code_ok _ _)) in E2 as [[x ->] _].
      injection Hr as <- _. by destruct (Hst x). }
  destruct (store_Ok _ _ _ _ _ (consume_auth_code_ok _ _) E2) as [_ Hv].
  assert (v_codes (oview s2) !! hash_secret code = None) as Hnone.
  { rewrite Hv. apply lookup_delete_eq. }
  destruct (ok_or found _) as [record|e]; [|by injection Hr as _ <-].
  destruct (code_grant_checks form proof record) as [sc|e]; [|by injection Hr as _ <-].
  apply issue_codes in Hr. by rewrite Hr.
Qed.

(** The right code, but from another client. *)
Definition demo_stolen_form : TokenForm := {|
  tf_grant_type := "authorization_code"; tf_client_id := "thief"; tf_code := Some "secret-code";
  tf_redirect_uri := Some "https://app.test/cb"; tf_code_verifier := Some demo_verifier;
  tf_refresh_token := None; tf_scope := None |}.

Definition demo_stolen : result OAuthError TokenResponse * Inner string :=
  token_handle (Cid := string) demo_state (demo_ambient 1000 "1") (demo_headers "j1" 1000)
    demo_stolen_form demo_s0.
Definition demo_stolen_s1 : Inner string := snd demo_stolen.

Lemma code_spent_whatever_follows_witness :
  v_codes (mem_view demo_stolen_s1) !! hash_secret "secret-code" = None.
Proof.
  refine (code_spent_whatever_follows demo_state (demo_ambient 1000 "1") (demo_headers "j1" 1000)
    demo_stolen_form demo_s0 demo_stolen_s1
    (Err (InvalidGrant "authorization code was issued to a different client"))
    "secret-code" eq_refl eq_refl _ _ ltac:(discriminate)); vm_compute; reflexivity.
Defined.

(** ** Refreshing *)

(** C23: rotation.  A successful refresh spends the presented token and stores
    exactly one successor, in the same session, for the same account and
    client, bound to the same DPoP key and within the granted scope; every
    other token keeps its row.  Presenting a spent token that has not expired
    yields an error and, storage permitting, leaves no token of its session. *)
Theorem refresh_rotates `{Digests} `{Json} `{Ecdsa} `{UrlLib} `{!DpopSerde}
    `{Serde AccessTokenClaims} {Cid St} `{StorageBackend Cid St} `{!OAuthStoreOk St}
    (state : OAuthState) amb form proof (s s' : St) r token rec used
    (Ht : tf_refresh_token form = Some token)
    (Hl : v_refresh (oview s) !! hash_secret token = Some (rec, used))
    (Hexp : now_store amb < rt_expires_at rec)
    (Hrun : refresh_token_grant state amb form proof s = (r, s')) :
  (forall resp, r = Ok resp ->
     used = false /\ rt_client_id rec = tf_client_id form /\ rt_dpop_jkt rec = dp_jkt proof /\
     exists sc granted, Scope.parse (rt_scope rec) = Ok granted /\
       Scope.is_subset_of sc granted = true /\ tr_scope resp = Scope.to_string sc /\
       tr_sub resp = rt_did rec /\
       v_refresh (oview s') =
         <[hash_secret (tr_refresh_token resp) :=
             (new_token amb (rt_did rec) (rt_client_id rec) sc (rt_dpop_jkt rec)
                (Some (rt_session_id rec)), false)]>
         (<[hash_secret token := (rec, true)]> (v_refresh (oview s)))) /\
  (used = true -> exists e, r = Err e /\
     ((exists x, e = Storage x) \/
      forall h p, v_refresh (oview s') !! h = Some p -> rt_session_id (fst p) <> rt_session_id rec)).
Proof.
  unfold refresh_token_grant in Hrun. split.
  - intros resp ->. apply bind_Ok in Hrun as ([rec' sc] & s1 & E1 & E2).
    apply refresh_redeem_Ok in E1 as (token' & Ht' & Hl' & _ & Hc & Hv).
    rewrite Ht in Ht'. injection Ht' as <-. rewrite Hl in Hl'. injection Hl' as <- ->.
    apply refresh_grant_checks_Ok in Hc as (K1 & K2 & granted & K3 & K4). simpl in E2.
    apply issue_Ok in E2 as (Hv' & _ & _ & Hrt & Hsc & Hsub).
    repeat split; try done. exists sc, granted. rewrite Hrt, Hv'. simpl. rewrite Hv. simpl.
    by rewrite K2.
  - intros ->. destruct r as [resp|e].
    { apply bind_Ok in Hrun as ([rec' sc] & s1 & E1 & _).
      apply refresh_redeem_Ok in E1 as (token' & Ht' & Hl' & _). congruence. }
    exists e. split; [done|]. apply bind_Err in Hrun as [E|([rec' sc] & s1 & E1 & _)].
    2:{ apply refresh_redeem_Ok in E1 as (token' & Ht' & Hl' & _). congruence. }
    unfold refresh_redeem in E. rewrite Ht in E. apply bind_Err in E as [E|(tk & s1 & E1 & E)]; [done|].
    unfold lift in E1. injection E1 as <- <-.
    apply bind_Err in E as [E|(oc & s2 & E2 & E)].
    { left. by apply (store_Err _ _ _ _ _ (consume_refresh_token_ok _ _)) in E as [? _]. }
    destruct (store_Ok _ _ _ _ _ (consume_refresh_token_ok _ _) E2) as [-> Hv].
    unfold spec_consume_refresh_token in *. rewrite Hl in *.
    destruct (Z.leb_spec (rt_expires_at rec) (now_store amb)); [lia|]. simpl in *.
    apply bind_Err in E as [E|(n & s3 & E3 & E)].
    { left. by apply (store_Err _ _ _ _ _ (revoke_session_ok _)) in E as [? _]. }
    right. destruct (store_Ok _ _ _ _ _ (revoke_session_ok _) E3) as [_ Hv3].
    unfold throw in E. injection E as _ <-. intros h p. rewrite Hv3. simpl.
    intros [_ ?]%drop_session_lookup. done.
Qed.

Definition demo_rt : RefreshTokenRecord := {|
  rt_token_hash := hash_secret "R"; rt_session_id := "S"; rt_did := "did:a";
  rt_client_id := "client"; rt_scope := "atproto"; rt_dpop_jkt := demo_jkt; rt_issued_at := 900;
  rt_expires_at := 9000 |}.
Definition demo_r0 : Inner string := run [CPutRefreshToken demo_rt] Inner_default.
Definition demo_refresh_form : TokenForm := {|
  tf_grant_type := "refresh_token"; tf_client_id := "client"; tf_code := None;
  tf_redirect_uri := None; tf_code_verifier := None; tf_refresh_token := Some "R";
  tf_scope := None |}.
Definition demo_dpop (jti : string) : DpopProof := {|
  dp_jkt := demo_jkt; dp_jti := jti; dp_htm := "POST"; dp_htu := "u"; dp_iat := 1000;
  dp_ath := None |}.

Definition demo_refresh : result OAuthError TokenResponse * Inner string :=
  refresh_token_grant (Cid := string) demo_state (demo_ambient 1000 "2") demo_refresh_form
    (demo_dpop "j") demo_r0.
Definition demo_r1 : Inner string := snd demo_refresh.
Definition demo_reuse : result OAuthError TokenResponse * Inner string :=
  refresh_token_grant (Cid := string) demo_state (demo_ambient 1001 "3") demo_refresh_form
    (demo_dpop "k") demo_r1.

Lemma refresh_rotates_witness :
  exists e, fst demo_reuse = Err e /\
    ((exists x, e = Storage x) \/
     forall h p, v_refresh (mem_view (snd demo_reuse)) !! h = Some p -> rt_session_id (fst p) <> "S").
Proof.
  refine (proj2 (refresh_rotates demo_state (demo_ambient 1001 "3") demo_refresh_form (demo_dpop "k")
            demo_r1 (snd demo_reuse) (fst demo_reuse) "R" demo_rt true eq_refl _ _ _) eq_refl);
    vm_compute; reflexivity.
Defined.

(** revocation on reuse does not stop an exchange already under way.  Take
    two requests presenting the same refresh token, served concurrently: the
    first has redeemed it and is about to mint, the second is then detected as
    a reuse and revokes the session, leaving no token of it.  When the first
    resumes, it stores its successor in the revoked session, and that token
    can still be redeemed: the holder of the stolen token keeps the session. *)
Theorem reuse_revocation_race `{Digests} `{Json} `{Ecdsa} `{UrlLib} `{!DpopSerde}
    `{Serde AccessTokenClaims} {Cid St} `{StorageBackend Cid St} `{!OAuthStoreOk St}
    (state : OAuthState) ambA ambB formA formB proofA proofB (s s1 s2 s3 : St)
    token rec sc e resp
    (HtA : tf_refresh_token formA = Some token) (HtB : tf_refresh_token formB = Some token)
    (HA1 : refresh_redeem ambA formA proofA s = (Ok (rec, sc), s1))
    (HtimeB : now_store ambB < rt_expires_at rec)
    (HB : refresh_token_grant state ambB formB proofB s1 = (Err (InvalidGrant e), s2))
    (HA2 : issue state ambA (rt_did rec) (rt_client_id rec) sc (dp_jkt proofA)
             (Some (rt_session_id rec)) s2 = (Ok resp, s3)) :
  (forall h p, v_refresh (oview s2) !! h = Some p -> rt_session_id (fst p) <> rt_session_id rec) /\
  exists rt, v_refresh (oview s3) !! hash_secret (tr_refresh_token resp) = Some (rt, false) /\
    rt_session_id rt = rt_session_id rec /\
    forall t, t < rt_expires_at rt ->
      fst (spec_consume_refresh_token (hash_secret (tr_refresh_token resp)) t (oview s3)) = Consumed rt.
Proof.
  apply refresh_redeem_Ok in HA1 as (token' & Ht' & _ & _ & _ & Hv).
  rewrite HtA in Ht'. injection Ht' as <-.
  assert (v_refresh (oview s1) !! hash_secret token = Some (rec, true)) as Hl.
  { rewrite Hv. apply lookup_insert_eq. }
  split.
  - unfold refresh_token_grant in HB. apply bind_Err in HB as [HB|([? ?] & ? & E1 & _)].
    2:{ apply refresh_redeem_Ok in E1 as (token' & Ht' & Hl' & _). congruence. }
    unfold refresh_redeem in HB. rewrite HtB in HB.
    apply bind_Err in HB as [E|(tk & s4 & E1 & E)]; [done|]. unfold lift in E1. injection E1 as <- <-.
    apply bind_Err in E as [E|(oc & s5 & E2 & E)].
    { by apply (store_Err _ _ _ _ _ (consume_refresh_token_ok _ _)) in E as [[? ?] _]. }
    destruct (store_Ok _ _ _ _ _ (consume_refresh_token_ok _ _) E2) as [-> _].
    unfold spec_consume_refresh_token in E. rewrite Hl in E.
    destruct (Z.leb_spec (rt_expires_at rec) (now_store ambB)); [lia|]. simpl in E.
    apply bind_Err in E as [E|(n & s6 & E3 & E)].
    { by apply (store_Err _ _ _ _ _ (revoke_session_ok _)) in E as [[? ?] _]. }
    destruct (store_Ok _ _ _ _ _ (revoke_session_ok _) E3) as [_ Hv3].
    unfold throw in E. injection E as _ <-. intros h p. rewrite Hv3. simpl.
    by intros [_ ?]%drop_session_lookup.
  - apply issue_Ok in HA2 as (Hv2 & _ & _ & Hrt & _). rewrite Hrt, Hv2. simpl.
    eexists. split; [apply lookup_insert_eq|]. split; [done|]. intros t Ht.
    unfold spec_consume_refresh_token. cbn [v_refresh v_set_refresh]. rewrite lookup_insert_eq.
    destruct (Z.leb_spec (rt_expires_at (new_token ambA (rt_did rec) (rt_client_id rec) sc
      (dp_jkt proofA) (Some (rt_session_id rec)))) t); [lia|done].
Qed.

Definition demo_race1 := refresh_redeem (Cid := string) (demo_ambient 1000 "A") demo_refresh_form
  (demo_dpop "a") demo_r0.
Definition demo_race2 : result OAuthError TokenResponse * Inner string :=
  refresh_token_grant (Cid := string) demo_state (demo_ambient 1000 "B") demo_refresh_form
    (demo_dpop "b") (snd demo_race1).
Definition demo_race3 : result OAuthError TokenResponse * Inner string :=
  issue (Cid := string) demo_state (demo_ambient 1000 "A") "did:a" "client" ["atproto"] demo_jkt
    (Some "S") (snd demo_race2).
Definition demo_race_resp : TokenResponse :=
  match fst demo_race3 with Ok r => r | Err _ => Build_TokenResponse "" "" 0 "" "" "" end.

Lemma reuse_revocation_race_witness :
  (forall h p, v_refresh (mem_view (snd demo_race2)) !! h = Some p -> rt_session_id (fst p) <> "S") /\
  exists rt, v_refresh (mem_view (snd demo_race3)) !! hash_secret (tr_refresh_token demo_race_resp)
      = Some (rt, false) /\ rt_session_id rt = "S" /\
    forall t, t < rt_expires_at rt ->
      fst (spec_consume_refresh_token (hash_secret (tr_refresh_token demo_race_resp)) t
             (mem_view (snd demo_race3))) = Consumed rt.
Proof.
  refine (reuse_revocation_race demo_state (demo_ambient 1000 "A") (demo_ambient 1000 "B")
            demo_refresh_form demo_refresh_form (demo_dpop "a") (demo_dpop "b") demo_r0
            (snd demo_race1) (snd demo_race2) (snd demo_race3) "R" demo_rt ["atproto"]
            "refresh token has already been used; the session has been revoked" demo_race_resp
            eq_refl eq_refl _ _ _ _); vm_compute; reflexivity.
Defined.

(** ** Redirects *)

(** Reading a query back: what a client's URL parser does. *)
Definition un_hex (c : ascii) : Z :=
  let b := byte_val c in if b <? 58 then b - 48 else b - 55.

Fixpoint urldecode (s : string) : string :=
  match s with
  | String "%" (String h (String l s)) =>
      String (ascii_of_N (Z.to_N (16 * un_hex h + un_hex l))) (urldecode s)
  | String c s => String c (urldecode s)
  | EmptyString => EmptyString
  end.

Definition parse_query (q : string) : list (string * string) :=
  map (fun seg => match split_once "=" seg with
                  | Some (k, v) => (urldecode k, urldecode v)
                  | None => (urldecode seg, "")
                  end) (split_char "&" q).

Definition is_query_char (c : ascii) : bool := is_unreserved c || Ascii.eqb c "%".

Lemma urlencode_chars s : all_bytes is_query_char (urlencode s) = true.
Proof.
  induction s as [|c s IH]; [done|]. simpl. rewrite all_bytes_app, IH, andb_true_r.
  by destruct c as [[] [] [] [] [] [] [] []].
Qed.

Lemma urldecode_encode s : urldecode (urlencode s) = s.
Proof.
  induction s as [|c s IH]; [done|]. cbn [urlencode].
  assert (forall t, urldecode (urlencode_byte c +:+ t) = String c (urldecode t)) as ->.
  { intros t. by destruct c as [[] [] [] [] [] [] [] []]. }
  by rewrite IH.
Qed.

Lemma urlencode_no_char c s : is_query_char c = false -> contains_char c (urlencode s) = false.
Proof. intros Hc. eapply all_bytes_no_char; [apply urlencode_chars|done]. Qed.

Lemma parse_push_params c params :
  params <> [] ->
  exists q, push_params c params = String c q /\ parse_query q = params /\
            contains_char "#" q = false /\ contains_char "?" q = false.
Proof.
  revert c. induction params as [|[k v] params IH]; intros c Hne; [done|]. simpl.
  eexists. split; [done|].
  assert (forall x, is_query_char x = false -> x <> "="%char ->
            contains_char x (urlencode k +:+ String "=" (urlencode v)) = false) as Hseg.
  { intros x Hx Hn. rewrite contains_char_app. simpl. rewrite !urlencode_no_char by done. simpl.
    destruct (Ascii.eqb_spec x "="); [congruence|done]. }
  assert (split_once "=" (urlencode k +:+ String "=" (urlencode v)) = Some (urlencode k, urlencode v)) as Hs.
  { apply split_once_Some. split; [done|]. by apply urlencode_no_char. }
  change (String "=" (urlencode v +:+ ?r)) with (String "=" (urlencode v) +:+ r).
  rewrite <- str_app_assoc. destruct params as [|p params].
  - simpl. rewrite str_app_nil_r. unfold parse_query.
    rewrite split_char_word by by apply Hseg. cbn [map]. rewrite Hs, !urldecode_encode.
    split; [done|]. split; by apply Hseg.
  - destruct (IH "&"%char ltac:(done)) as (q & -> & Hq & H1 & H2). unfold parse_query.
    rewrite split_char_app by by apply Hseg. cbn [map]. rewrite Hs, !urldecode_encode.
    split; [by f_equal|].
    split; rewrite contains_char_app, Hseg by done; simpl; done.
Qed.

(** The URL is the base followed by a query that reads back as the parameters. *)
Lemma append_query_ok (base : string) (params : list (string * string)) :
  params <> [] ->
  exists q, append_query base params =
      base +:+ String (if contains_char "?" base then "&" else "?") q /\
    parse_query q = params /\ contains_char "#" q = false /\ contains_char "?" q = false.
Proof.
  intros Hne. unfold append_query.
  destruct (parse_push_params (if contains_char "?" base then "&"%char else "?"%char) params Hne)
    as (q & -> & Hq). by exists q.
Qed.

Lemma append_query_inj base p p' :
  p <> [] -> p' <> [] -> append_query base p = append_query base p' -> p = p'.
Proof.
  intros Hp Hp' E. unfold append_query in E.
  destruct (parse_push_params (if contains_char "?" base then "&"%char else "?"%char) p Hp)
    as (q & Eq & Hq & _).
  destruct (parse_push_params (if contains_char "?" base then "&"%char else "?"%char) p' Hp')
    as (q' & Eq' & Hq' & _).
  rewrite Eq, Eq' in E. apply (inj (String.append base)) in E. congruence.
Qed.

(** redirects cannot be injected into.  Whatever the values (an error
    description, a client's [state], a code), the URL built by [append_query]
    is the registered URI followed by a query that parses back to exactly the
    given parameters and contains no [#]; the separator is [?], or [&] when the
    URI already has a query. *)
Theorem append_query_parses (base : string) (params : list (string * string))
    (Hne : params <> []) :
  exists q, append_query base params =
      base +:+ String (if contains_char "?" base then "&" else "?") q /\
    parse_query q = params /\ contains_char "#" q = false /\ contains_char "?" q = false.
Proof. exact (append_query_ok base params Hne). Qed.

Lemma append_query_parses_witness :
  exists q, append_query "https://app.test/cb" [("code", "a&b=c#d"); ("state", "é")] =
      "https://app.test/cb" +:+ String "?" q /\
    parse_query q = [("code", "a&b=c#d"); ("state", "é")] /\ contains_char "#" q = false /\
    contains_char "?" q = false.
Proof. apply (append_query_parses "https://app.test/cb"). discriminate. Defined.
