(* ===== verification/Html.v ===== *)
(** * The login and consent page

    [src/rust-pds/src/xrpc/oauth/html.rs]: the page a user consents on, and the
    error page.  Everything a client or a request brings into them goes through
    [escape]. *)

From Stdlib Require Import ZArith Lia Ascii.
From S2P Require Import Prelude RustStr OAuthServer.

(** A text of the module: a backtick stands for the double quote. *)
Fixpoint text (s : string) : string :=
  match s with
  | EmptyString => EmptyString
  | String c s => String (if Ascii.eqb c "`" then "034" else c)%char (text s)
  end.

Definition escape_char (c : ascii) : string :=
  if Ascii.eqb c "&" then "&amp;"
  else if Ascii.eqb c "<" then "&lt;"
  else if Ascii.eqb c ">" then "&gt;"
  else if Ascii.eqb c "034" then "&quot;"
  else if Ascii.eqb c "'" then "&#x27;"
  else String c EmptyString.

Fixpoint escape (s : string) : string :=
  match s with EmptyString => EmptyString | String c s => escape_char c +:+ escape s end.

Definition STYLE : string := text "
:root { color-scheme: light dark; }
* { box-sizing: border-box; }
body {
  font: 15px/1.5 system-ui, -apple-system, `Segoe UI`, sans-serif;
  margin: 0; padding: 2rem 1rem;
  display: flex; justify-content: center;
  background: Canvas; color: CanvasText;
}
main { width: 100%; max-width: 26rem; }
h1 { font-size: 1.25rem; margin: 0 0 .25rem; }
.sub { color: GrayText; margin: 0 0 1.5rem; font-size: .9rem; }
.card {
  border: 1px solid color-mix(in srgb, CanvasText 15%, transparent);
  border-radius: 10px; padding: 1.25rem; margin-bottom: 1.25rem;
}
.client { font-weight: 600; }
.client-id { font-family: ui-monospace, monospace; font-size: .8rem;
             color: GrayText; word-break: break-all; }
ul.scopes { margin: .75rem 0 0; padding-left: 1.1rem; }
ul.scopes li { margin: .2rem 0; }
label { display: block; margin: .85rem 0 .3rem; font-weight: 500; }
input[type=text], input[type=password] {
  width: 100%; padding: .55rem .65rem; font-size: 1rem;
  border: 1px solid color-mix(in srgb, CanvasText 25%, transparent);
  border-radius: 6px; background: Field; color: FieldText;
}
.actions { display: flex; gap: .6rem; margin-top: 1.25rem; }
button { flex: 1; padding: .6rem; font-size: 1rem; font-weight: 500;
         border-radius: 6px; cursor: pointer; border: 1px solid transparent; }
button.primary { background: AccentColor; color: AccentColorText; }
button.secondary { background: transparent; color: CanvasText;
                   border-color: color-mix(in srgb, CanvasText 25%, transparent); }
.error { padding: .6rem .75rem; border-radius: 6px; margin-bottom: 1rem;
         background: color-mix(in srgb, #d33 15%, Canvas); color: CanvasText; }
".

Definition describe_scope (scope : string) : string :=
  if String.eqb scope "atproto" then "Know which account you are"
  else if String.eqb scope "transition:generic" then "Read and write your posts, follows, likes, and profile"
  else if String.eqb scope "transition:chat.bsky" then "Read and send your direct messages"
  else if String.eqb scope "transition:email" then "See your email address"
  else scope.

Definition scope_item (s : string) : string := "<li>" +:+ escape (describe_scope s) +:+ "</li>".

Fixpoint concat_all (l : list string) : string :=
  match l with [] => EmptyString | s :: l => s +:+ concat_all l end.

Definition authorize_page (request_uri client_name client_id : string) (scopes : list string)
    (login_hint error : option string) : string :=
  let scope_items := concat_all (map scope_item scopes) in
  let error_block := match error with
                     | Some e => text "<div class=`error`>" +:+ escape e +:+ "</div>"
                     | None => EmptyString
                     end in
  text "<!doctype html>
<html lang=`en`>
<head>
<meta charset=`utf-8`>
<meta name=`viewport` content=`width=device-width, initial-scale=1`>
<title>Authorize " +:+
  escape client_name +:+
  text "</title>
<style>" +:+
  STYLE +:+
  text "</style>
</head>
<body>
<main>
  <h1>Authorize application</h1>
  <p class=`sub`>Sign in to grant access to your account.</p>
  " +:+
  error_block +:+
  text "
  <form method=`post` action=`/oauth/authorize` autocomplete=`on`>
    <input type=`hidden` name=`request_uri` value=`" +:+
  escape request_uri +:+
  text "`>
    <div class=`card`>
      <div class=`client`>" +:+
  escape client_name +:+
  text "</div>
      <div class=`client-id`>" +:+
  escape client_id +:+
  text "</div>
      <ul class=`scopes`>" +:+
  scope_items +:+
  text "</ul>
    </div>
    <div class=`card`>
      <label for=`username`>Handle or email</label>
      <input id=`username` name=`username` type=`text` autocomplete=`username`
             autocapitalize=`none` autocorrect=`off` spellcheck=`false`
             required value=`" +:+
  escape (default EmptyString login_hint) +:+
  text "`>
      <label for=`password`>Password</label>
      <input id=`password` name=`password` type=`password`
             autocomplete=`current-password` required>
      <div class=`actions`>
        <button class=`secondary` type=`submit` name=`action` value=`deny`>Deny</button>
        <button class=`primary` type=`submit` name=`action` value=`accept`>Authorize</button>
      </div>
    </div>
  </form>
</main>
</body>
</html>".

Definition error_page (title message : string) : string :=
  text "<!doctype html>
<html lang=`en`>
<head>
<meta charset=`utf-8`>
<meta name=`viewport` content=`width=device-width, initial-scale=1`>
<title>" +:+
  escape title +:+
  text "</title>
<style>" +:+
  STYLE +:+
  text "</style>
</head>
<body>
<main>
  <h1>" +:+
  escape title +:+
  text "</h1>
  <div class=`card`>" +:+
  escape message +:+
  text "</div>
</main>
</body>
</html>".

(** ** A reference reader of pages

    What a browser makes of a page: each tag, cut at the quotes of its attribute
    values, with the text before it, character references decoded. *)

(** The character a reference stands for. *)
Definition entity (name : string) : option string :=
  if String.eqb name "amp" then Some "&"
  else if String.eqb name "lt" then Some "<"
  else if String.eqb name "gt" then Some ">"
  else if String.eqb name "quot" then Some (text "`")
  else if String.eqb name "#x27" then Some "'"
  else None.

(** Decoding, [pending] being the reference read so far. *)
Fixpoint decode (pending : option string) (s : string) : string :=
  match s, pending with
  | EmptyString, None => EmptyString
  | EmptyString, Some p => "&" +:+ p
  | String c s, None =>
      if Ascii.eqb c "&" then decode (Some EmptyString) s else String c (decode None s)
  | String c s, Some p =>
      if Ascii.eqb c ";"
      then default ("&" +:+ p +:+ ";") (entity p) +:+ decode None s
      else decode (Some (p +:+ String c EmptyString)) s
  end.

Definition unescape (s : string) : string := decode None s.

(** The text before a tag, and the tag's pieces. *)
Definition token : Type := string * list string.

(** Where the reader is: in text, in a tag, or in a quoted value of a tag. *)
Inductive mode :=
  | InText (cur : string)
  | InTag (before : string) (pieces : list string) (cur : string)
  | InValue (before : string) (pieces : list string) (quote : ascii) (cur : string).

Definition snoc (s : string) (c : ascii) : string := s +:+ String c EmptyString.

(** One character: the tokens it completes and where it leaves the reader. *)
Definition read_char (m : mode) (c : ascii) : list token * mode :=
  match m with
  | InText cur =>
      if Ascii.eqb c "<" then ([], InTag (unescape cur) [] EmptyString)
      else ([], InText (snoc cur c))
  | InTag t ps cur =>
      if Ascii.eqb c ">" then ([(t, ps ++ [cur])], InText EmptyString)
      else if Ascii.eqb c "034" || Ascii.eqb c "'" then ([], InValue t (ps ++ [cur]) c EmptyString)
      else ([], InTag t ps (snoc cur c))
  | InValue t ps q cur =>
      if Ascii.eqb c q then ([], InTag t (ps ++ [unescape cur]) EmptyString)
      else ([], InValue t ps q (snoc cur c))
  end.

Fixpoint read_from (m : mode) (s : string) : list token * mode :=
  match s with
  | EmptyString => ([], m)
  | String c s =>
      let '(ts, m) := read_char m c in
      let '(ts', m) := read_from m s in (ts ++ ts', m)
  end.

(** The page's tags, each with the text before it. *)
Definition read_page (s : string) : list token * mode := read_from (InText EmptyString) s.

Fixpoint spaces (n : nat) : string :=
  match n with O => EmptyString | S n => String " " (spaces n) end.

(** A line break and the indentation after it. *)
Definition nl (indent : nat) : string := String "010" (spaces indent).

(** The documents the two pages mean to be. *)
Definition head_tags (title : string) : list token :=
  [ (EmptyString, ["!doctype html"]); (nl 0, ["html lang="; "en"; EmptyString]);
    (nl 0, ["head"]);
    (nl 0, ["meta charset="; "utf-8"; EmptyString]);
    (nl 0, ["meta name="; "viewport"; " content="; "width=device-width, initial-scale=1"; EmptyString]);
    (nl 0, ["title"]); (title, ["/title"]);
    (nl 0, ["style"]); (STYLE, ["/style"]);
    (nl 0, ["/head"]); (nl 0, ["body"]); (nl 0, ["main"]) ].

Definition error_document (title message : string) : list token :=
  head_tags title ++
  [ (nl 2, ["h1"]); (title, ["/h1"]);
    (nl 2, ["div class="; "card"; EmptyString]); (message, ["/div"]);
    (nl 0, ["/main"]); (nl 0, ["/body"]); (nl 0, ["/html"]) ].

Lemma read_from_app m a b :
  read_from m (a +:+ b) =
  (let '(ts, m) := read_from m a in let '(ts', m) := read_from m b in (ts ++ ts', m)).
Proof.
  revert m. induction a as [|c a IH]; intros m.
  - rewrite str_app_nil_l. simpl. by destruct (read_from m b).
  - rewrite str_app_cons. simpl. destruct (read_char m c) as [ts m']. rewrite IH.
    destruct (read_from m' a) as [ts1 m1]. destruct (read_from m1 b) as [ts2 m2].
    by rewrite app_assoc.
Qed.

(** *** What escaping does *)

Lemma decode_escape_char c s : decode None (escape_char c +:+ s) = String c (decode None s).
Proof.
  unfold escape_char.
  destruct (Ascii.eqb c "&") eqn:Hamp; [apply Ascii.eqb_eq in Hamp; by subst c|].
  repeat (case_match; [match goal with H : Ascii.eqb _ _ = true |- _ => apply Ascii.eqb_eq in H; by subst c end|]).
  rewrite str_app_cons, str_app_nil_l. simpl. by rewrite Hamp.
Qed.

Lemma decode_escape v s : decode None (escape v +:+ s) = v +:+ decode None s.
Proof.
  induction v as [|c v IH]; [done|]. simpl escape.
  by rewrite str_app_assoc, decode_escape_char, IH, str_app_cons.
Qed.

(** Text without references decodes to itself, whatever follows it. *)
Definition no_reference (s : string) : bool := all_bytes (fun c => negb (Ascii.eqb c "&")) s.

Lemma decode_plain p s : no_reference p = true -> decode None (p +:+ s) = p +:+ decode None s.
Proof.
  unfold no_reference. induction p as [|c p IH]; [done|]. rewrite !str_app_cons. simpl.
  destruct (Ascii.eqb c "&"); [done|]. intros Hp. by rewrite IH.
Qed.

Lemma unescape_field p v : no_reference p = true -> unescape (p +:+ escape v) = p +:+ v.
Proof.
  intros Hp. unfold unescape. rewrite decode_plain by done.
  rewrite <- (str_app_nil_r (escape v)), decode_escape. simpl. by rewrite str_app_nil_r.
Qed.

Lemma unescape_escape v : unescape (escape v) = v.
Proof. exact (unescape_field EmptyString v eq_refl). Qed.

(** The characters the reader acts on. *)
Definition markup_char (c : ascii) : bool :=
  Ascii.eqb c "<" || Ascii.eqb c ">" || Ascii.eqb c "034" || Ascii.eqb c "'".

Lemma escape_no_markup v : all_bytes (fun c => negb (markup_char c)) (escape v) = true.
Proof.
  induction v as [|c v IH]; [done|]. simpl escape. rewrite all_bytes_app, IH, andb_true_r.
  unfold escape_char. repeat (case_match; [reflexivity|]). cbn. unfold markup_char.
  by repeat match goal with H : Ascii.eqb _ _ = false |- _ => rewrite H; clear H end.
Qed.

Lemma read_text_plain s : forall cur,
  all_bytes (fun c => negb (markup_char c)) s = true -> read_from (InText cur) s = ([], InText (cur +:+ s)).
Proof.
  induction s as [|c s IH]; intros cur; simpl; [by rewrite str_app_nil_r|].
  intros [Hc Hs]%andb_true_iff. unfold markup_char in Hc.
  destruct (Ascii.eqb c "<"); [done|]. rewrite IH by done. unfold snoc.
  by rewrite str_app_assoc, str_app_cons, str_app_nil_l.
Qed.

Lemma read_value_plain s t ps : forall cur,
  all_bytes (fun c => negb (markup_char c)) s = true ->
  read_from (InValue t ps "034" cur) s = ([], InValue t ps "034" (cur +:+ s)).
Proof.
  induction s as [|c s IH]; intros cur; simpl; [by rewrite str_app_nil_r|].
  intros [Hc Hs]%andb_true_iff. unfold markup_char in Hc.
  destruct (Ascii.eqb c "034"); [by rewrite !orb_true_r in Hc|]. rewrite IH by done. unfold snoc.
  by rewrite str_app_assoc, str_app_cons, str_app_nil_l.
Qed.

(** *** Reading a piece of a page and carrying on *)

(** The tokens read so far, in front of what the rest gives. *)
Definition after (ts : list token) (r : list token * mode) : list token * mode := (ts ++ r.1, r.2).

Lemma read_chunk m a b ts m' :
  read_from m a = (ts, m') -> read_from m (a +:+ b) = after ts (read_from m' b).
Proof. intros H. rewrite read_from_app, H. unfold after. by destruct (read_from m' b). Qed.

Lemma after_after a b r : after a (after b r) = after (a ++ b) r.
Proof. unfold after. simpl. by rewrite app_assoc. Qed.

Lemma read_escaped_text cur v b :
  read_from (InText cur) (escape v +:+ b) = read_from (InText (cur +:+ escape v)) b.
Proof. rewrite (read_chunk _ _ _ _ _ (read_text_plain _ _ (escape_no_markup v))). by destruct (read_from _ b). Qed.

Lemma read_escaped_value t ps cur v b :
  read_from (InValue t ps "034" cur) (escape v +:+ b) =
  read_from (InValue t ps "034" (cur +:+ escape v)) b.
Proof.
  rewrite (read_chunk _ _ _ _ _ (read_value_plain _ _ _ _ (escape_no_markup v))). by destruct (read_from _ b).
Qed.

(** A field in the text of a page, up to the tag after it. *)
Lemma read_text_field p v s b :
  no_reference p = true ->
  read_from (InText p) (escape v +:+ (text (String "<" s) +:+ b)) =
  read_from (InTag (p +:+ v) [] EmptyString) (text s +:+ b).
Proof.
  intros Hp. rewrite read_escaped_text. simpl text. rewrite str_app_cons. cbn.
  rewrite unescape_field by done. by destruct (read_from _ _).
Qed.

(** A field in a quoted value, up to the quote. *)
Lemma read_value_field t ps p v s b :
  no_reference p = true ->
  read_from (InValue t ps "034" p) (escape v +:+ (text (String "`" s) +:+ b)) =
  read_from (InTag t (ps ++ [p +:+ v]) EmptyString) (text s +:+ b).
Proof.
  intros Hp. rewrite read_escaped_value. simpl text. rewrite str_app_cons. cbn.
  rewrite unescape_field by done. by destruct (read_from _ _).
Qed.

(** The next fixed part of the page, then the field after it. *)
Ltac read_part :=
  match goal with
  | |- context [read_from ?m (?a +:+ ?b)] =>
      erewrite (read_chunk m a b) by (vm_compute; reflexivity); rewrite ?after_after
  end.
Ltac read_text := rewrite read_text_field by reflexivity.
Ltac read_value := rewrite read_value_field by reflexivity.

Lemma error_page_tags title message :
  read_page (error_page title message) = (error_document title message, InText EmptyString).
Proof.
  rewrite <- (str_app_nil_r (error_page title message)).
  unfold read_page, error_page. rewrite !str_app_assoc.
  read_part. read_text. read_part. read_part. read_part. read_text. read_part. read_text. read_part.
  vm_compute. reflexivity.
Qed.

(** The items of the scope list. *)
Definition scope_tags (scopes : list string) : list token :=
  flat_map (fun s => [ (EmptyString, ["li"]); (describe_scope s, ["/li"]) ]) scopes.

Definition authorize_document (request_uri client_name client_id : string) (scopes : list string)
    (login_hint error : option string) : list token :=
  head_tags ("Authorize " +:+ client_name) ++
  [ (nl 2, ["h1"]); ("Authorize application", ["/h1"]);
    (nl 2, ["p class="; "sub"; EmptyString]);
    ("Sign in to grant access to your account.", ["/p"]) ] ++
  match error with
  | Some e => [ (nl 2, ["div class="; "error"; EmptyString]); (e, ["/div"]) ]
  | None => []
  end ++
  [ (match error with Some _ => nl 2 | None => nl 2 +:+ nl 2 end,
      ["form method="; "post"; " action="; "/oauth/authorize"; " autocomplete="; "on"; EmptyString]);
    (nl 4, ["input type="; "hidden"; " name="; "request_uri"; " value="; request_uri; EmptyString]);
    (nl 4, ["div class="; "card"; EmptyString]);
    (nl 6, ["div class="; "client"; EmptyString]); (client_name, ["/div"]);
    (nl 6, ["div class="; "client-id"; EmptyString]); (client_id, ["/div"]);
    (nl 6, ["ul class="; "scopes"; EmptyString]) ] ++
  scope_tags scopes ++
  [ (EmptyString, ["/ul"]); (nl 4, ["/div"]);
    (nl 4, ["div class="; "card"; EmptyString]);
    (nl 6, ["label for="; "username"; EmptyString]); ("Handle or email", ["/label"]);
    (nl 6, ["input id="; "username"; " name="; "username"; " type="; "text";
            " autocomplete="; "username"; nl 13 +:+ "autocapitalize="; "none"; " autocorrect="; "off";
            " spellcheck="; "false"; nl 13 +:+ "required value="; default EmptyString login_hint; EmptyString]);
    (nl 6, ["label for="; "password"; EmptyString]); ("Password", ["/label"]);
    (nl 6, ["input id="; "password"; " name="; "password"; " type="; "password";
            nl 13 +:+ "autocomplete="; "current-password"; " required"]);
    (nl 6, ["div class="; "actions"; EmptyString]);
    (nl 8, ["button class="; "secondary"; " type="; "submit"; " name="; "action"; " value="; "deny"; EmptyString]);
    ("Deny", ["/button"]);
    (nl 8, ["button class="; "primary"; " type="; "submit"; " name="; "action"; " value="; "accept"; EmptyString]);
    ("Authorize", ["/button"]);
    (nl 6, ["/div"]); (nl 4, ["/div"]); (nl 2, ["/form"]);
    (nl 0, ["/main"]); (nl 0, ["/body"]); (nl 0, ["/html"]) ].

Lemma read_scope_item s b :
  read_from (InText EmptyString) (scope_item s +:+ b) =
  after [ (EmptyString, ["li"]); (describe_scope s, ["/li"]) ] (read_from (InText EmptyString) b).
Proof.
  unfold scope_item. rewrite !str_app_assoc. read_part.
  change "</li>" with (text "</li>"). read_text. read_part. reflexivity.
Qed.

Lemma read_scopes scopes b :
  read_from (InText EmptyString) (concat_all (map scope_item scopes) +:+ b) =
  after (scope_tags scopes) (read_from (InText EmptyString) b).
Proof.
  induction scopes as [|s l IH]; cbn [map concat_all].
  - rewrite str_app_nil_l. by destruct (read_from _ b).
  - by rewrite str_app_assoc, read_scope_item, IH, after_after.
Qed.

Lemma authorize_page_tags ru name cid scopes hint error :
  read_page (authorize_page ru name cid scopes hint error) =
  (authorize_document ru name cid scopes hint error, InText EmptyString).
Proof.
  rewrite <- (str_app_nil_r (authorize_page ru name cid scopes hint error)).
  unfold read_page, authorize_page. rewrite !str_app_assoc.
  read_part. read_text. read_part. read_part. read_part.
  destruct error as [e|]; rewrite ?str_app_assoc.
  - change "</div>" with (text "</div>"). read_part. read_text. read_part. read_part. read_value.
    read_part. read_text. read_part. read_text. read_part.
    rewrite read_scopes, after_after. read_part. read_value. read_part.
    unfold after. rewrite <- !app_assoc. vm_compute. reflexivity.
  - rewrite str_app_nil_l. read_part. read_value.
    read_part. read_text. read_part. read_text. read_part.
    rewrite read_scopes, after_after. read_part. read_value. read_part.
    unfold after. rewrite <- !app_assoc. vm_compute. reflexivity.
Qed.

(** The body of an answer of the authorize endpoint ([error_html], and the
    [Html] of [render_page]); a redirect has none. *)
Definition response_html (r : AuthorizeResponse) : option string :=
  match r with
  | RedirectTo _ => None
  | ErrorPage _ title message => Some (error_page title message)
  | ConsentPage ru name cid scopes hint error => Some (authorize_page ru name cid scopes hint error)
  end.

(** The document an answer means to show. *)
Definition response_document (r : AuthorizeResponse) : list token :=
  match r with
  | RedirectTo _ => []
  | ErrorPage _ title message => error_document title message
  | ConsentPage ru name cid scopes hint error => authorize_document ru name cid scopes hint error
  end.

Lemma response_tags (r : AuthorizeResponse) (body : string) :
  response_html r = Some body -> read_page body = (response_document r, InText EmptyString).
Proof.
  intros Hbody.
  destruct r; simplify_eq/=; [exact (error_page_tags _ _)|exact (authorize_page_tags _ _ _ _ _ _)].
Qed.

(** an answer's page is the document it means to show.  Whatever the client's
    document, the request or the error say, a browser reads the intended tags,
    with the intended attributes, in the intended order, one list item per
    requested scope, and every value exactly as it was given; it ends in text,
    with no tag or quote left open. *)
Theorem page_reads (r : AuthorizeResponse) (body : string) (Hbody : response_html r = Some body) :
  read_page body = (response_document r, InText EmptyString).
Proof. exact (response_tags r body Hbody). Qed.

Lemma page_reads_witness :
  read_page (error_page (text "</h1><img src=x onerror=`alert(1)`>") "a & 'b'") =
  (error_document (text "</h1><img src=x onerror=`alert(1)`>") "a & 'b'", InText EmptyString).
Proof.
  exact (page_reads (ErrorPage 400 (text "</h1><img src=x onerror=`alert(1)`>") "a & 'b'") _ eq_refl).
Defined.
