(* ===== verification/AuthorizeProps.v ===== *)
(** * The authorize endpoint

    Properties of the consent flow ([src/rust-pds/src/xrpc/oauth/authorize.rs],
    modelled in OAuthServer.v): when a code is issued, what the pages show, that
    a request is good for one code, and that the code it issues is the one the
    token endpoint redeems. *)

From Stdlib Require Import ZArith Lia Ascii.
From S2P Require Import Prelude RustStr Externals Demo StoreTypes OAuthCore Jose MemoryStore.
From S2P Require Import MemoryProps Dpop Client OAuthServer OAuthProps Html.

(** What the flow relies on of the account store: reading an account does not
    touch the authorization server's state. *)
Class AccountReadsOk (S : Type) `{OAuthStoreOk S} `{!AccountStore S} := {
  handle_read_keeps h (s : S) : oview (snd (get_account_by_handle h s)) = oview s;
}.

#[export] Instance mem_account_reads `{Countable Cid} : AccountReadsOk (Inner Cid).
Proof. constructor. intros h s. reflexivity. Qed.

(** Every stored request sits under its own hash. *)
Definition par_keyed (v : OAuthView) : Prop :=
  forall h r, v_par v !! h = Some r -> spr_request_uri_hash r = h.

Section Flow.
Context `{Digests} `{Json} `{Ecdsa} `{UrlLib} `{!DpopSerde} `{Serde AccessTokenClaims}.
Context {Cid St : Type} `{StorageBackend Cid St} `{!OAuthStoreOk St} `{!AccountReadsOk St}.
Variable verify_password : string -> string -> result string bool.
Variable state : OAuthState.
Implicit Types (s : St) (amb : Ambient).

(** The code an approval stores. *)
Definition code_for amb (stored : StoredPushedRequest) (did : string) : AuthCode := {|
  ac_code_hash := hash_secret (rnd_code amb); ac_did := did;
  ac_client_id := spr_client_id stored; ac_redirect_uri := spr_redirect_uri stored;
  ac_scope := spr_scope stored; ac_code_challenge := spr_code_challenge stored;
  ac_dpop_jkt := spr_dpop_jkt stored;
  ac_expires_at := u64_add (now_refresh amb) AUTH_CODE_TTL_SECS |}.

(** The redirect that hands a code to the client. *)
Definition code_redirect amb (stored : StoredPushedRequest) : string :=
  append_query (spr_redirect_uri stored)
    [("code", rnd_code amb); ("state", spr_state stored); ("iss", os_issuer_url state)].

(** The request behind a handle, if it is known and live. *)
Definition live_request (ru : string) (now : Z) (stored : StoredPushedRequest) s : Prop :=
  (exists u, validate_request_uri ru = Ok u) /\
  v_par (oview s) !! hash_secret ru = Some stored /\ now < spr_expires_at stored.

(** Loading a request changes nothing; what it loads is live. *)
Lemma load_request_view now ru s r s' :
  load_request now ru s = (r, s') ->
  oview s' = oview s /\
  match r with
  | Ok stored => live_request ru now stored s
  | Err page => exists status title message, page = ErrorPage status title message
  end.
Proof.
  unfold load_request, live_request, throw.
  destruct (validate_request_uri ru) as [u|] eqn:Ev; [|intros [= <- <-]; eauto].
  destruct (get_pushed_request (hash_secret ru) now s) as [g s1] eqn:Eg.
  destruct g as [o|e].
  - destruct (refines_Ok _ _ _ _ _ _ (get_pushed_request_ok _ _) Eg) as [-> Hv]. simpl in Hv.
    unfold spec_get_pushed_request. simpl.
    destruct (v_par (oview s) !! hash_secret ru) as [x|] eqn:El.
    + destruct (Z.ltb_spec now (spr_expires_at x)); intros [= <- <-]; split; eauto 6.
    + intros [= <- <-]. split; eauto.
  - pose proof (refines_Err _ _ _ _ _ _ (get_pushed_request_ok _ _) Eg) as Hv.
    intros [= <- <-]. split; eauto.
Qed.

Lemma authenticate_view user password s r s' :
  authenticate verify_password user password s = (r, s') ->
  oview s' = oview s /\
  match r with
  | Ok did => exists phc, fst (get_account_by_handle (login_handle user) s) = Ok (Some (did, phc)) /\
                          verify_password password phc = Ok true
  | Err _ => True
  end.
Proof.
  unfold authenticate. pose proof (handle_read_keeps (login_handle user) s) as Hk.
  destruct (get_account_by_handle (login_handle user) s) as [[[[did phc]|]|e] s1]; simpl in *;
    try (intros [= <- <-]; done).
  destruct (verify_password password phc) as [[]|] eqn:Ep; intros [= <- <-]; eauto.
Qed.

(** Issuing: whatever storage does, the codes are unchanged or hold the new
    one; if it succeeds, the request is gone as well. *)
Lemma issue_code_view amb stored did s r s' :
  issue_code state amb stored did s = (r, s') ->
  let issued := <[hash_secret (rnd_code amb) := code_for amb stored did]> (v_codes (oview s)) in
  match r with
  | Ok answer =>
      answer = RedirectTo (code_redirect amb stored) /\ v_codes (oview s') = issued /\
      v_par (oview s') = delete (spr_request_uri_hash stored) (v_par (oview s))
  | Err e =>
      (exists x, e = Storage x) /\ v_par (oview s') = v_par (oview s) /\
      (v_codes (oview s') = v_codes (oview s) \/ v_codes (oview s') = issued)
  end.
Proof.
  intros E issued. unfold issue_code in E. destruct r as [answer|e].
  - apply bind_Ok in E as (u & s1 & E1 & E).
    destruct (store_Ok _ _ _ _ _ (put_auth_code_ok _) E1) as [_ Hv1].
    apply bind_Ok in E as (d & s2 & E2 & E).
    destruct (store_Ok _ _ _ _ _ (delete_pushed_request_ok _) E2) as [_ Hv2].
    unfold ret in E. injection E as <- <-. by rewrite Hv2, Hv1.
  - apply bind_Err in E as [E|(u & s1 & E1 & E)].
    + destruct (store_Err _ _ _ _ _ (put_auth_code_ok _) E) as [Hx ->]. by eauto.
    + destruct (store_Ok _ _ _ _ _ (put_auth_code_ok _) E1) as [_ Hv1].
      apply bind_Err in E as [E|(d & s2 & E2 & E)]; [|done].
      destruct (store_Err _ _ _ _ _ (delete_pushed_request_ok _) E) as [Hx ->].
      rewrite Hv1. split; [done|]. split; [done|]. by right.
Qed.

(** The submitted form, case by case. *)
Lemma submit_cases amb form s r s' :
  authorize_submit verify_password state amb form s = (r, s') ->
  (exists status title message, r = ErrorPage status title message /\ oview s' = oview s) \/
  exists stored, live_request (af_request_uri form) (now_store amb) stored s /\
  ((af_action form <> "accept" /\
    r = redirect_error stored "access_denied" "The user denied the request." /\
    exists s1, oview s1 = oview s /\
      s' = snd (delete_pushed_request (spr_request_uri_hash stored) s1)) \/
   (af_action form = "accept" /\ exists message,
    r = render_page state (af_request_uri form) stored (Some message) /\ oview s' = oview s) \/
   (af_action form = "accept" /\ exists did phc s1 s2 answer, oview s1 = oview s /\
    fst (get_account_by_handle (login_handle (af_username form)) s1) = Ok (Some (did, phc)) /\
    verify_password (af_password form) phc = Ok true /\
    oview s2 = oview s /\ issue_code state amb stored did s2 = (answer, s') /\
    r = match answer with
        | Ok redirect => redirect
        | Err e => redirect_error stored (error_code e) (public_description e)
        end)).
Proof.
  unfold authorize_submit. destruct (load_request _ _ s) as [[stored|page] s1] eqn:El;
    apply load_request_view in El as [Hv1 Hl].
  2:{ destruct Hl as (st & t & m & ->). intros [= <- <-]. left. eauto 6. }
  intros E. right. exists stored. split; [done|].
  destruct (String.eqb_spec (af_action form) "accept") as [Ha|Ha]; simpl in E.
  2:{ left. destruct (delete_pushed_request _ s1) as [d s2] eqn:Ed. injection E as <- <-.
      repeat split; [done|]. exists s1. by rewrite Ed. }
  right. destruct (authenticate _ _ _ s1) as [[did|m] s2] eqn:Eu;
    apply authenticate_view in Eu as [Hv2 Hu].
  2:{ left. injection E as <- <-. split; [done|]. exists m. by rewrite Hv2, Hv1. }
  right. split; [done|]. destruct Hu as (phc & Hg & Hp).
  exists did, phc, s1, s2. destruct (issue_code _ _ _ _ s2) as [answer s3] eqn:Ei.
  exists answer. rewrite Hv2, Hv1. destruct answer; injection E as <- <-; done.
Qed.

(** A request that is no longer stored, or has expired, gets an error page and
    changes nothing. *)
Lemma spent_request ru s :
  v_par (oview s) !! hash_secret ru = None ->
  (forall now cid, exists status title message,
     fst (OAuthServer.authorize_page state now ru cid s) = ErrorPage status title message) /\
  (forall amb form, af_request_uri form = ru ->
     exists status title message s',
       authorize_submit verify_password state amb form s = (ErrorPage status title message, s') /\
       oview s' = oview s).
Proof.
  intros Hn. split.
  - intros now cid. unfold OAuthServer.authorize_page.
    destruct (load_request now ru s) as [[stored|page] s1] eqn:El; apply load_request_view in El as [Hv Hl].
    + destruct Hl as (_ & Hs & _). congruence.
    + exact Hl.
  - intros amb form <-. destruct (authorize_submit _ _ _ _ _) as [r s'] eqn:E.
    apply submit_cases in E as [(st & t & m & -> & Hv)|(stored & (_ & Hs & _) & _)]; [eauto 6|congruence].
Qed.

End Flow.

(** ** Properties *)

(** C5: a code is issued to nobody else.  Whatever is posted and whatever the store
    answers, either the authorization codes are left as they were, and the
    answer is a page or a redirect that reports an error; or the posted handle
    named a live pushed request, the user accepted, the password verified for
    the account of the handle given, and exactly one code was added: for that
    account, and for the client, redirect URI, scope, challenge and key of the
    request. *)
Theorem code_issued_soundly `{Digests} `{Json} `{Ecdsa} `{UrlLib} `{!DpopSerde}
    `{Serde AccessTokenClaims} {Cid St} `{StorageBackend Cid St} `{!OAuthStoreOk St}
    `{!AccountReadsOk St} verify_password (state : OAuthState) amb form (s s' : St) r
    (Hsub : authorize_submit verify_password state amb form s = (r, s')) :
  (v_codes (oview s') = v_codes (oview s) /\
   ((exists page, response_html r = Some page) \/
    exists stored code description, live_request (af_request_uri form) (now_store amb) stored s /\
      r = redirect_error stored code description)) \/
  exists stored did phc s1,
    live_request (af_request_uri form) (now_store amb) stored s /\ af_action form = "accept" /\
    oview s1 = oview s /\
    fst (get_account_by_handle (login_handle (af_username form)) s1) = Ok (Some (did, phc)) /\
    verify_password (af_password form) phc = Ok true /\
    v_codes (oview s') =
      <[hash_secret (rnd_code amb) := code_for amb stored did]> (v_codes (oview s)) /\
    ((r = RedirectTo (code_redirect state amb stored) /\
      v_par (oview s') = delete (spr_request_uri_hash stored) (v_par (oview s))) \/
     exists e, r = redirect_error stored (error_code e) (public_description e)).
Proof.
  apply submit_cases in Hsub as [(st & t & m & -> & Hv)|(stored & Hl & [C|[C|C]])].
  - left. rewrite Hv. eauto.
  - destruct C as (_ & -> & s1 & Hs1 & ->). left. split; [|right; eauto].
    destruct (delete_pushed_request _ s1) as [[u|e] s2] eqn:Ed; simpl.
    + destruct (refines_Ok _ _ _ _ _ _ (delete_pushed_request_ok _) Ed) as [_ ->]. by rewrite Hs1.
    + by rewrite (refines_Err _ _ _ _ _ _ (delete_pushed_request_ok _) Ed), Hs1.
  - destruct C as (_ & m & -> & ->). left. split; [done|]. left. unfold render_page. simpl. eauto.
  - destruct C as (Ha & did & phc & s1 & s2 & answer & Hs1 & Hg & Hp & Hs2 & Ei & ->).
    apply issue_code_view in Ei. rewrite Hs2 in Ei. destruct answer as [a|e].
    + destruct Ei as (-> & Hc & Hr). right. exists stored, did, phc, s1. eauto 12.
    + destruct Ei as (_ & _ & [Hc|Hc]); [left; split; [done|]; right; by eauto|].
      right. exists stored, did, phc, s1. eauto 12.
Qed.

(** C24: one request, one code.  Once an approval has redirected the browser with a
    code, the pushed request is gone: its handle gets an error page from then
    on, for viewing and for posting, with any password, and no further code. *)
Theorem request_spent_by_approval `{Digests} `{Json} `{Ecdsa} `{UrlLib} `{!DpopSerde}
    `{Serde AccessTokenClaims} {Cid St} `{StorageBackend Cid St} `{!OAuthStoreOk St}
    `{!AccountReadsOk St} verify_password (state : OAuthState) amb form (s s' : St) stored
    (Hkeyed : par_keyed (oview s))
    (Hlive : live_request (af_request_uri form) (now_store amb) stored s)
    (Hsub : authorize_submit verify_password state amb form s =
            (RedirectTo (code_redirect state amb stored), s')) :
  v_par (oview s') = delete (hash_secret (af_request_uri form)) (v_par (oview s)) /\
  (forall now cid, exists status title message,
     fst (OAuthServer.authorize_page state now (af_request_uri form) cid s') =
     ErrorPage status title message) /\
  (forall amb2 form2, af_request_uri form2 = af_request_uri form ->
     exists status title message s2,
       authorize_submit verify_password state amb2 form2 s' = (ErrorPage status title message, s2) /\
       oview s2 = oview s').
Proof.
  assert (v_par (oview s') = delete (hash_secret (af_request_uri form)) (v_par (oview s))) as Hv.
  2:{ split; [done|]. apply spent_request. rewrite Hv. apply lookup_delete_eq. }
  destruct Hlive as (Hu & Hs & Ht). rewrite <- (Hkeyed _ _ Hs).
  apply submit_cases in Hsub as [(st & t & m & E & _)|(x & (_ & Hx & _) & C)]; [done|].
  assert (x = stored) as -> by congruence.
  assert (forall c d, redirect_error stored c d = RedirectTo (code_redirect state amb stored) -> False) as Hne.
  { intros c d E. injection E as E. by apply append_query_inj in E. }
  destruct C as [(_ & E & _)|[(_ & m & E & _)|C]]; [by destruct (Hne _ _ (eq_sym E))|done|].
  destruct C as (_ & did & phc & s1 & s2 & answer & _ & _ & _ & Hs2 & Ei & Hr).
  destruct answer as [a|e]; [|by destruct (Hne _ _ (eq_sym Hr))].
  apply issue_code_view in Ei as (_ & _ & ->). by rewrite Hs2.
Qed.

(** C25: the code in the redirect is the one the token endpoint redeems.  The
    browser is sent to the registered redirect URI with a query that reads back
    as the code, the client's state and the issuer; and a token request that
    presents that code in time, with the client, redirect URI, verifier and key
    of the request, is issued tokens for the account that approved, under the
    approved scope, and spends the code. *)
Theorem approved_code_redeems `{Digests} `{Json} `{Ecdsa} `{UrlLib} `{!DpopSerde}
    `{Serde AccessTokenClaims} {Cid St} `{StorageBackend Cid St} `{!OAuthStoreOk St}
    `{!AccountReadsOk St} (state : OAuthState) amb stored did (s s1 s2 : St) answer
    amb2 form proof scope verifier found
    (Hissue : issue_code state amb stored did s = (Ok answer, s1))
    (Hscope : Scope.parse (spr_scope stored) = Ok scope)
    (Hclient : tf_client_id form = spr_client_id stored)
    (Huri : tf_redirect_uri form = Some (spr_redirect_uri stored))
    (Hver : tf_code_verifier form = Some verifier)
    (Hpkce : CodeChallenge.verify (spr_code_challenge stored) verifier = Ok tt)
    (Hkey : forall k, spr_dpop_jkt stored = Some k -> k = dp_jkt proof)
    (Htime : now_store amb2 < u64_add (now_refresh amb) AUTH_CODE_TTL_SECS)
    (Hcode : tf_code form = Some (rnd_code amb))
    (Hread : consume_auth_code (hash_secret (rnd_code amb)) (now_store amb2) s1 = (Ok found, s2)) :
  (exists q, answer = RedirectTo (spr_redirect_uri stored +:+
                        String (if contains_char "?" (spr_redirect_uri stored) then "&" else "?") q) /\
     parse_query q = [("code", rnd_code amb); ("state", spr_state stored); ("iss", os_issuer_url state)]) /\
  authorization_code_grant state amb2 form proof s1 =
    issue state amb2 did (spr_client_id stored) scope (dp_jkt proof) None s2 /\
  v_codes (oview s2) !! hash_secret (rnd_code amb) = None.
Proof.
  apply issue_code_view in Hissue as (-> & Hc & _).
  destruct (refines_Ok _ _ _ _ _ _ (consume_auth_code_ok _ _) Hread) as [Hf Hv].
  unfold spec_consume_auth_code in Hf, Hv. simpl in Hf, Hv.
  rewrite Hc, lookup_insert_eq in Hf. simpl in Hf.
  destruct (Z.ltb_spec (now_store amb2) (u64_add (now_refresh amb) AUTH_CODE_TTL_SECS)); [|lia].
  split; [|split].
  - unfold code_redirect. destruct (append_query_ok (spr_redirect_uri stored)
      [("code", rnd_code amb); ("state", spr_state stored); ("iss", os_issuer_url state)]) as (q & -> & Hq & _);
      [done|]. eauto.
  - unfold authorization_code_grant, bind at 1, lift at 1. rewrite Hcode. simpl.
    unfold bind at 1, store at 1, with_err at 1. rewrite Hread, Hf. simpl.
    assert (code_grant_checks form proof (code_for amb stored did) = Ok scope) as Hchk.
    { unfold code_grant_checks. simpl. rewrite Hclient, String.eqb_refl, Huri. simpl.
      rewrite String.eqb_refl, Hver. simpl. rewrite Hpkce. simpl.
      destruct (spr_dpop_jkt stored) as [k|]; [|done]. by rewrite (Hkey k), String.eqb_refl. }
    unfold bind, lift. simpl. by rewrite Hchk.
  - rewrite Hv. simpl. apply lookup_delete_eq.
Qed.

(** C34: the user consents to the stored request.  A page answered to a browser is
    an error page, or the consent document of the live pushed request its handle
    names: the hidden field holds that handle, the client shown is the request's
    (its identifier always, its name as its metadata gives it now), and the list
    shows every scope the code will carry.  Looking changes nothing. *)
Theorem consent_shows_request `{Digests} `{Json} `{Ecdsa} `{UrlLib} `{!DpopSerde}
    `{Serde AccessTokenClaims} {Cid St} `{StorageBackend Cid St} `{!OAuthStoreOk St}
    (state : OAuthState) now ru cid (s s' : St) r page
    (Hget : OAuthServer.authorize_page state now ru cid s = (r, s'))
    (Hpage : response_html r = Some page) :
  oview s' = oview s /\
  ((exists title message, read_page page = (error_document title message, InText EmptyString)) \/
   exists stored name, live_request ru now stored s /\
     (forall c, cid = Some c -> c = spr_client_id stored) /\
     (name = spr_client_id stored \/
      exists id md, ClientId_parse (spr_client_id stored) = Ok id /\ os_resolve state id = Ok md /\
                    name = display_name md) /\
     read_page page =
       (authorize_document ru name (spr_client_id stored)
          (match Scope.parse (spr_scope stored) with Ok sc => sc | Err _ => [] end)
          (spr_login_hint stored) None, InText EmptyString)).
Proof.
  apply response_tags in Hpage. rewrite Hpage. unfold OAuthServer.authorize_page in Hget.
  destruct (load_request now ru s) as [[stored|e] s1] eqn:El; apply load_request_view in El as [Hv Hl].
  2:{ destruct Hl as (st & t & m & ->). injection Hget as <- <-. split; [done|]. left. by exists t, m. }
  destruct (match cid with Some c => negb (String.eqb c (spr_client_id stored)) | None => false end) eqn:Em;
    injection Hget as <- <-; (split; [done|]).
  { left. by eexists _, _. }
  right. exists stored. unfold render_page. simpl. eexists. split; [done|]. split.
  { intros c ->. by destruct (String.eqb_spec c (spr_client_id stored)). }
  split; [|reflexivity].
  destruct (ClientId_parse (spr_client_id stored)) as [id|]; [|by left].
  destruct (os_resolve state id) as [md|] eqn:Er; [right|by left]. by exists id, md.
Qed.

(** ** Witnesses *)

Definition demo_handle_uri : string := REQUEST_URI_PREFIX +:+ "abc".

Definition demo_pushed : StoredPushedRequest := {|
  spr_request_uri_hash := hash_secret demo_handle_uri; spr_client_id := "https://app.test/client.json";
  spr_redirect_uri := "https://app.test/cb?x=1"; spr_scope := "atproto transition:generic";
  spr_state := "st&te"; spr_code_challenge := b64url_encode (sha256 demo_verifier);
  spr_dpop_jkt := Some demo_jkt; spr_login_hint := Some "alice"; spr_expires_at := 1300 |}.

Definition demo_consent_store : Inner string :=
  snd (mem_put_pushed_request demo_pushed
    (run [CInsertAccount "did:a" "a.test" None "phc" "2026"] Inner_default)).

Definition demo_form (action : string) : AuthorizeForm := {|
  af_request_uri := demo_handle_uri; af_username := " @A.test "; af_password := "pw";
  af_action := action |}.

Definition demo_submit (action : string) : AuthorizeResponse * Inner string :=
  authorize_submit (Cid := string) demo_vp demo_state (demo_ambient 1000 "7") (demo_form action)
    demo_consent_store.
Definition demo_consented : Inner string := snd (demo_submit "accept").

Lemma demo_live : live_request (Cid := string) demo_handle_uri 1000 demo_pushed demo_consent_store.
Proof. split; [exists tt; vm_compute; reflexivity|]. split; vm_compute; reflexivity. Qed.

Lemma demo_accepts :
  demo_submit "accept" = (RedirectTo (code_redirect demo_state (demo_ambient 1000 "7") demo_pushed), demo_consented).
Proof. vm_compute. reflexivity. Qed.

Lemma code_issued_soundly_witness :
  v_codes (mem_view demo_consented) !! hash_secret "code7" <> None.
Proof.
  destruct (code_issued_soundly (Cid := string) demo_vp demo_state (demo_ambient 1000 "7")
              (demo_form "accept") demo_consent_store demo_consented _ demo_accepts)
    as [(_ & [(p & Hp)|(x & c & d & (_ & Hl & _) & E)])|(x & did & phc & s1 & _ & _ & _ & _ & _ & Hc & _)].
  - discriminate Hp.
  - exfalso. vm_compute in Hl. injection Hl as <-. discriminate E.
  - unfold mem_view. rewrite Hc. vm_compute. discriminate.
Defined.

Lemma request_spent_by_approval_witness :
  exists status title message,
    fst (demo_submit "accept") <> ErrorPage status title message /\
    fst (OAuthServer.authorize_page (Cid := string) demo_state 1001 demo_handle_uri None demo_consented) =
    ErrorPage status title message.
Proof.
  destruct (request_spent_by_approval (Cid := string) demo_vp demo_state (demo_ambient 1000 "7")
              (demo_form "accept") demo_consent_store demo_consented demo_pushed)
    as (_ & Hget & _).
  - intros h r Hr. destruct (decide (h = hash_secret demo_handle_uri)) as [->|Hn].
    + vm_compute in Hr. injection Hr as <-. vm_compute. reflexivity.
    + change (<[hash_secret demo_handle_uri := demo_pushed]> (∅ : gmap string StoredPushedRequest) !! h = Some r) in Hr.
      rewrite lookup_insert_ne in Hr by exact (not_eq_sym Hn). discriminate Hr.
  - exact demo_live.
  - exact demo_accepts.
  - destruct (Hget 1001 None) as (st & t & m & E). exists st, t, m. split; [|exact E].
    rewrite demo_accepts. discriminate.
Defined.

Definition demo_token_form : TokenForm := {|
  tf_grant_type := "authorization_code"; tf_client_id := spr_client_id demo_pushed;
  tf_code := Some "code7"; tf_redirect_uri := Some (spr_redirect_uri demo_pushed);
  tf_code_verifier := Some demo_verifier; tf_refresh_token := None; tf_scope := None |}.

Lemma approved_code_redeems_witness :
  exists r s2, authorization_code_grant (Cid := string) demo_state (demo_ambient 1010 "8") demo_token_form
      (demo_dpop "j") demo_consented = (Ok r, s2) /\ tr_sub r = "did:a" /\
    v_codes (mem_view s2) !! hash_secret "code7" = None.
Proof.
  set (g := snd (issue_code (Cid := string) demo_state (demo_ambient 1000 "7") demo_pushed "did:a"
                   demo_consent_store)).
  destruct (approved_code_redeems (Cid := string) demo_state (demo_ambient 1000 "7") demo_pushed "did:a"
              demo_consent_store g (snd (mem_consume_auth_code (hash_secret "code7") 1010 g))
              (RedirectTo (code_redirect demo_state (demo_ambient 1000 "7") demo_pushed))
              (demo_ambient 1010 "8") demo_token_form (demo_dpop "j")
              ["atproto"; "transition:generic"] demo_verifier
              (Some (code_for (demo_ambient 1000 "7") demo_pushed "did:a")))
    as (_ & Hgrant & _);
    [vm_compute; reflexivity|vm_compute; reflexivity|reflexivity|reflexivity|reflexivity
    |vm_compute; reflexivity| | | | |].
  - intros k Hk. vm_compute in Hk. injection Hk as <-. vm_compute. reflexivity.
  - vm_compute. reflexivity.
  - reflexivity.
  - vm_compute. reflexivity.
  - change demo_consented with g. rewrite Hgrant. vm_compute. eexists _, _. split; [reflexivity|done].
Defined.

Definition demo_consent_page : AuthorizeResponse :=
  ConsentPage demo_handle_uri (spr_client_id demo_pushed) (spr_client_id demo_pushed)
    ["atproto"; "transition:generic"] (Some "alice") None.

Lemma demo_looks :
  OAuthServer.authorize_page (Cid := string) demo_state 1000 demo_handle_uri None demo_consent_store =
  (demo_consent_page, demo_consent_store).
Proof. vm_compute. reflexivity. Qed.

Definition demo_consent_html : string :=
  Html.authorize_page demo_handle_uri (spr_client_id demo_pushed) (spr_client_id demo_pushed)
    ["atproto"; "transition:generic"] (Some "alice") None.

Lemma consent_shows_request_witness :
  read_page demo_consent_html = (response_document demo_consent_page, InText EmptyString).
Proof.
  pose proof (consent_shows_request (Cid := string) demo_state 1000 demo_handle_uri None demo_consent_store
                demo_consent_store demo_consent_page demo_consent_html demo_looks eq_refl) as Hall.
  destruct Hall as (_ & [(t & m & E)|(x & name & (_ & Hl & _) & _ & Hn & E)]).
  - exfalso. apply (f_equal (fun d => length (fst d))) in E. vm_compute in E. discriminate E.
  - vm_compute in Hl. injection Hl as <-.
    destruct Hn as [->|(i & md & _ & Hr & _)]; [exact E|discriminate Hr].
Defined.
