(* ===== verification/Session.v ===== *)
(** * Request authentication

    [src/rust-core/src/auth/jwt.rs] (app-password session tokens),
    [src/rust-core/src/error.rs], [src/rust-pds/src/xrpc/error.rs] and
    [src/rust-pds/src/auth/extractor.rs]: which requests count as
    authenticated, under the legacy [Bearer] scheme and under [DPoP].  The
    [jsonwebtoken] crate is a parameter with its documented behaviour. *)

From Stdlib Require Import ZArith Lia Ascii.
From S2P Require Import Prelude RustStr Externals Demo StoreTypes OAuthCore Jose MemoryStore.
From S2P Require Import MemoryProps Dpop Client OAuthServer OAuthProps.

(** ** Errors *)

Inductive CoreError :=
| CoreExpiredToken
| CoreInvalidToken
| CoreInternal (msg : string).

Definition CoreError_to_string (e : CoreError) : string :=
  match e with
  | CoreExpiredToken => "expired token"
  | CoreInvalidToken => "invalid token"
  | CoreInternal msg => "internal error: " +:+ msg
  end.

Inductive XrpcError :=
| XExpiredToken | XInvalidToken | XAuthRequired | XAccountTakedown
| XInvalidHandle | XHandleNotAvailable | XInvalidInviteCode | XUnsupportedDomain
| XUnresolvableDid | XIncompatibleDidDoc
| XInvalidSwap
| XHandleNotFound
| XMethodNotImplemented
| XInvalidRequest (msg : string)
| XUpstreamFailure (msg : string)
| XInternal (msg : string).

Definition xrpc_of_storage (e : StorageError) : XrpcError := XInternal (StorageError_to_string e).

Definition xrpc_of_core (e : CoreError) : XrpcError :=
  match e with
  | CoreExpiredToken => XExpiredToken
  | CoreInvalidToken => XInvalidToken
  | CoreInternal inner => XInternal inner
  end.

Definition xrpc_to_string (e : XrpcError) : string :=
  match e with
  | XExpiredToken => "Token has expired"
  | XInvalidToken => "Token could not be verified"
  | XAuthRequired => "Authentication required"
  | XAccountTakedown => "Account has been taken down"
  | XInvalidHandle => "Invalid handle"
  | XHandleNotAvailable => "Handle not available"
  | XInvalidInviteCode => "Invalid invite code"
  | XUnsupportedDomain => "Unsupported domain"
  | XUnresolvableDid => "DID cannot be resolved"
  | XIncompatibleDidDoc => "Incompatible DID document"
  | XInvalidSwap => "Swap commit mismatch"
  | XHandleNotFound => "Handle not found"
  | XMethodNotImplemented => "Method not implemented"
  | XInvalidRequest m => m
  | XUpstreamFailure _ => "Upstream service error"
  | XInternal _ => "Internal error"
  end.

Definition xrpc_status (e : XrpcError) : Z :=
  match e with
  | XExpiredToken | XInvalidToken | XAuthRequired | XAccountTakedown => 401
  | XHandleNotFound | XMethodNotImplemented => 404
  | XUpstreamFailure _ => 502
  | XInternal _ => 500
  | _ => 400
  end.

Definition xrpc_name (e : XrpcError) : string :=
  match e with
  | XExpiredToken => "ExpiredToken"
  | XInvalidToken => "InvalidToken"
  | XAuthRequired => "AuthRequired"
  | XAccountTakedown => "AccountTakedown"
  | XInvalidHandle => "InvalidHandle"
  | XHandleNotAvailable => "HandleNotAvailable"
  | XInvalidInviteCode => "InvalidInviteCode"
  | XUnsupportedDomain => "UnsupportedDomain"
  | XUnresolvableDid => "UnresolvableDid"
  | XIncompatibleDidDoc => "IncompatibleDidDoc"
  | XInvalidSwap => "InvalidSwap"
  | XHandleNotFound => "HandleNotFound"
  | XMethodNotImplemented => "MethodNotImplemented"
  | XInvalidRequest _ => "InvalidRequest"
  | XUpstreamFailure _ => "UpstreamFailure"
  | XInternal _ => "InternalServerError"
  end.

(** Status, lexicon name and message of the response. *)
Definition xrpc_response (e : XrpcError) : Z * string * string :=
  (xrpc_status e, xrpc_name e,
   match e with
   | XInternal _ => "Internal error"
   | XUpstreamFailure _ => "Upstream service error"
   | other => xrpc_to_string other
   end).

(** ** Session tokens *)

Record AuthClaims := {
  au_sub : string;
  au_scope : string;
  au_exp : Z;
  au_iat : Z;
  au_jti : option string;
}.

Inductive JwtError := ExpiredSignature | OtherJwtError (msg : string).

(** [jsonwebtoken::encode] with an HS256 header and [decode] with
    [Validation::new(HS256)] at a given time. *)
Class Jwt := {
  jwt_encode : AuthClaims -> bytes -> result string string;
  jwt_decode : Z -> string -> bytes -> result JwtError AuthClaims;
}.

(** A decoded token is the one encoded, up to its expiry and a leeway of 60
    seconds; a token is letters and digits of base64url separated by dots. *)
Class JwtLaws `{Jwt} := {
  jwt_decode_encode c k tok now : jwt_encode c k = Ok tok ->
    jwt_decode now tok k = if au_exp c <? now - 60 then Err ExpiredSignature else Ok c;
  jwt_encode_chars c k tok : jwt_encode c k = Ok tok ->
    tok <> "" /\ all_bytes (fun a => is_b64url_char a || Ascii.eqb a ".") tok = true;
}.

Section Session.
Context `{Jwt}.

Definition jwt_encode_core (c : AuthClaims) (secret : bytes) : result CoreError string :=
  map_err (fun e => CoreInternal ("JWT encode error: " +:+ e)) (jwt_encode c secret).

Definition encode_access_jwt_at (did : string) (secret : bytes) (now : Z)
    : result CoreError string :=
  jwt_encode_core {| au_sub := did; au_scope := "com.atproto.access";
    au_exp := u64_add now 7200; au_iat := now; au_jti := None |} secret.

(** [uuid] is the fresh [Uuid::new_v4()]. *)
Definition encode_refresh_jwt_at (uuid did : string) (secret : bytes) (now : Z)
    : result CoreError string :=
  jwt_encode_core {| au_sub := did; au_scope := "com.atproto.refresh";
    au_exp := u64_add now 7776000; au_iat := now; au_jti := Some uuid |} secret.

Definition decode_jwt (now : Z) (token : string) (secret : bytes) : result CoreError AuthClaims :=
  map_err (fun e => match e with
                    | ExpiredSignature => CoreExpiredToken
                    | _ => CoreInvalidToken
                    end) (jwt_decode now token secret).

(** ** The [Authorization] header

    A header map holds the values of a name in order; a value that is not
    visible ASCII is [None]. *)
Inductive Scheme := Bearer | Dpop.

Definition HeaderValues := list (option string).

Definition authorization (headers : HeaderValues) : result XrpcError (Scheme * string) :=
  let? value := ok_or (head headers) XAuthRequired in
  let? hd := ok_or value XInvalidToken in
  let? st := ok_or (split_once " " hd) XInvalidToken in
  let '(scheme, token) := st in
  let token := trim token in
  if String.eqb token "" then Err XInvalidToken
  else if eq_ignore_ascii_case scheme "bearer" then Ok (Bearer, token)
  else if eq_ignore_ascii_case scheme "dpop" then Ok (Dpop, token)
  else Err XInvalidToken.

Definition bearer_token (headers : HeaderValues) : result XrpcError string :=
  let? st := authorization headers in
  match st with
  | (Bearer, token) => Ok token
  | (Dpop, _) => Err XInvalidToken
  end.

Definition authenticate_access (headers : HeaderValues) (secret : bytes) (now : Z)
    : result XrpcError string :=
  let? token := bearer_token headers in
  let? claims := map_err xrpc_of_core (decode_jwt now token secret) in
  ensure String.eqb (au_scope claims) "com.atproto.access" orelse XInvalidToken in
  Ok (au_sub claims).

Definition authenticate_refresh (headers : HeaderValues) (secret : bytes) (now : Z)
    : result XrpcError string :=
  let? token := bearer_token headers in
  let? claims := map_err xrpc_of_core (decode_jwt now token secret) in
  ensure String.eqb (au_scope claims) "com.atproto.refresh" orelse XInvalidToken in
  Ok (au_sub claims).

(** ** The extractors *)

(** The parts of a request they read. *)
Record Parts := {
  p_authorization : HeaderValues;
  p_dpop : HeaderValues;
  p_method : string;
  p_path : string;
}.

Context `{Digests} `{Json} `{Ecdsa} `{UrlLib} `{!DpopSerde} `{Serde AccessTokenClaims}.
Context {St : Type} `{OAuthStore St}.
Variable state : OAuthState.

(** [now_access] is read for the token's expiry, [now_proof] and [now_nonce]
    by the DPoP verifier. *)
Definition authenticate_dpop (amb : Ambient) (parts : Parts) (access_token : string)
    : SE St XrpcError string :=
  match p_dpop parts with
  | [] => throw XAuthRequired
  | _ :: _ :: _ => throw XInvalidToken
  | [proof] =>
      (let! proof := lift (ok_or proof XInvalidToken) in
       let! claims := lift (map_err (fun _ => XInvalidToken)
                        (verify_access_token (os_issuer state) access_token (now_access amb))) in
       let url := endpoint_url state (p_path parts) in
       let! verified := with_err (fun _ => XInvalidToken)
         (dpop_verify (os_nonce_secret state) (now_proof amb) (now_nonce amb) proof
            (p_method parts) url (Some access_token) true) in
       assert_or (String.eqb (dp_jkt verified) (at_cnf_jkt claims)) XInvalidToken ;;!
       ret (at_sub claims))%se
  end.

(** [AccessAuth::from_request_parts] and [RefreshAuth::from_request_parts];
    [now] is the clock the session-token path reads. *)
Definition access_auth (secret : bytes) (now : Z) (amb : Ambient) (parts : Parts)
    : SE St XrpcError string :=
  (let! st := lift (authorization (p_authorization parts)) in
   match st with
   | (Bearer, _) => lift (authenticate_access (p_authorization parts) secret now)
   | (Dpop, token) => authenticate_dpop amb parts token
   end)%se.

Definition refresh_auth (secret : bytes) (now : Z) (parts : Parts) : SE St XrpcError string :=
  lift (authenticate_refresh (p_authorization parts) secret now).

End Session.

(** ** Lemmas *)

Lemma drop_leading_stop n ws c s :
  Forall (fun w => exists b w', w = String b w' /\ b <> c) ws ->
  drop_leading n ws (String c s) = String c s.
Proof.
  intros Hw. destruct n as [|n]; [done|]. simpl.
  destruct (List.find _ ws) as [w|] eqn:E; [|done].
  apply List.find_some in E as [Hin E]. rewrite List.Forall_forall in Hw.
  destruct (Hw w Hin) as (b & w' & -> & Hne). unfold starts_with in E. simpl in E.
  destruct (Ascii.eqb_spec b c); done.
Qed.

Definition is_graphic : ascii -> bool := in_range 33 126.

Lemma drop_leading_graphic n ws s :
  forallb (fun w => match w with String b _ => negb (is_graphic b) | _ => false end) ws = true ->
  all_bytes is_graphic s = true -> drop_leading n ws s = s.
Proof.
  intros Hw Hs. destruct s as [|c s].
  - destruct n as [|n]; [done|]. simpl. destruct (List.find _ ws) as [w|] eqn:E; [|done].
    apply List.find_some in E as [Hin E]. rewrite forallb_forall in Hw. specialize (Hw w Hin).
    by destruct w.
  - simpl in Hs. apply andb_true_iff in Hs as [Hc _]. apply drop_leading_stop.
    apply List.Forall_forall. intros w Hin. rewrite forallb_forall in Hw. specialize (Hw w Hin).
    destruct w as [|b w]; [done|]. exists b, w. split; [done|]. intros ->. by rewrite Hc in Hw.
Qed.

Lemma all_bytes_rev p s : all_bytes p (String.rev s) = all_bytes p s.
Proof.
  assert (forall s t, all_bytes p (String.rev_app s t) = all_bytes p s && all_bytes p t) as H.
  { clear. induction s as [|c s IH]; intros t; simpl; [done|]. rewrite IH. simpl.
    destruct (p c), (all_bytes p s), (all_bytes p t); done. }
  unfold String.rev. rewrite H. simpl. by rewrite andb_true_r.
Qed.

Lemma trim_graphic s : all_bytes is_graphic s = true -> trim s = s.
Proof.
  intros Hs. unfold trim, trim_end, trim_start.
  rewrite (drop_leading_graphic _ unicode_whitespace s) by done.
  rewrite drop_leading_graphic by (try rewrite all_bytes_rev; done).
  apply rev_rev_app.
Qed.

(** A header written with a bearer scheme and one token. *)
Lemma authorization_bearer scheme tok rest :
  eq_ignore_ascii_case scheme "bearer" = true -> tok <> "" -> all_bytes is_graphic tok = true ->
  authorization (Some (scheme +:+ String " " tok) :: rest) = Ok (Bearer, tok).
Proof.
  intros Hs Hne Ht. unfold authorization. cbn [head ok_or].
  assert (contains_char " " scheme = false) as Hsp.
  { unfold eq_ignore_ascii_case in Hs. apply String.eqb_eq in Hs. change (to_ascii_lowercase "bearer") with "bearer" in Hs.
    assert (contains_char " " (to_ascii_lowercase scheme) = false) as H by by rewrite Hs.
    clear -H. induction scheme as [|c s IH]; [done|].
    unfold to_ascii_lowercase in *. cbn [map_bytes contains_char] in *.
    apply orb_false_iff in H as [Hc H]. rewrite IH by done.
    destruct (Ascii.eqb_spec " " c) as [<-|Hn]; [by vm_compute in Hc|done]. }
  rewrite (proj2 (split_once_Some " " _ scheme tok) (conj eq_refl Hsp)). cbn [ok_or].
  rewrite trim_graphic by done. destruct (String.eqb_spec tok ""); [done|]. by rewrite Hs.
Qed.

Lemma bearer_token_Ok h tok : bearer_token h = Ok tok <-> authorization h = Ok (Bearer, tok).
Proof. unfold bearer_token. destruct (authorization h) as [[[] t]|]; naive_solver. Qed.

Lemma authenticate_access_Ok `{Jwt} h secret now did :
  authenticate_access h secret now = Ok did <->
  exists tok c, authorization h = Ok (Bearer, tok) /\ jwt_decode now tok secret = Ok c /\
    au_scope c = "com.atproto.access" /\ au_sub c = did.
Proof.
  unfold authenticate_access, decode_jwt. split.
  - destruct (bearer_token h) as [tok|] eqn:Eb; [|done]. apply bearer_token_Ok in Eb.
    destruct (jwt_decode now tok secret) as [c|] eqn:Ed; [|done]. simpl.
    destruct (String.eqb_spec (au_scope c) "com.atproto.access"); [|done]. intros [= <-]. by exists tok, c.
  - intros (tok & c & Ha & Hd & Hs & Hsub). rewrite (proj2 (bearer_token_Ok h tok) Ha), Hd. simpl.
    by rewrite Hs, Hsub.
Qed.

Lemma session_token_runs `{JwtLaws} scheme c secret tok rest now :
  eq_ignore_ascii_case scheme "bearer" = true -> jwt_encode_core c secret = Ok tok ->
  bearer_token (Some (scheme +:+ String " " tok) :: rest) = Ok tok /\
  decode_jwt now tok secret = if au_exp c <? now - 60 then Err CoreExpiredToken else Ok c.
Proof.
  unfold jwt_encode_core. intros Hs He. apply map_err_Ok in He.
  destruct (jwt_encode_chars _ _ _ He) as [Hne Hc]. split.
  - apply bearer_token_Ok, authorization_bearer; [done|done|].
    eapply all_bytes_impl; [|exact Hc]. intros a. unfold is_b64url_char, is_ascii_alphanumeric,
      is_ascii_alphabetic, is_ascii_upper, is_ascii_lower, is_ascii_digit, is_graphic, in_range.
    clear. destruct a as [[] [] [] [] [] [] [] []]; vm_compute; done.
  - unfold decode_jwt. rewrite (jwt_decode_encode _ _ _ now He). by destruct (_ <? _).
Qed.

(** ** Properties *)

(** session tokens are not interchangeable.  Sent as a bearer token under
    any spelling of the scheme, an access token minted at [t0] authenticates
    its DID on the access path up to [t0 + 7200] and the decoder's leeway, and
    a refresh token on the refresh path up to [t0 + 7776000] and the leeway;
    on the other path each of them is refused at every time, as invalid while
    it lives and as expired afterwards. *)
Theorem session_tokens_separate `{JwtLaws} did uuid secret t0 ta tr scheme rest now
    (Hs : eq_ignore_ascii_case scheme "bearer" = true)
    (Hb : 0 <= t0 /\ t0 + 7776000 < u64_mod)
    (Ha : encode_access_jwt_at did secret t0 = Ok ta)
    (Hr : encode_refresh_jwt_at uuid did secret t0 = Ok tr) :
  let sent tok := Some (scheme +:+ String " " tok) :: rest in
  authenticate_access (sent ta) secret now =
    (if now - 60 <=? t0 + 7200 then Ok did else Err XExpiredToken) /\
  authenticate_refresh (sent ta) secret now =
    (if now - 60 <=? t0 + 7200 then Err XInvalidToken else Err XExpiredToken) /\
  authenticate_refresh (sent tr) secret now =
    (if now - 60 <=? t0 + 7776000 then Ok did else Err XExpiredToken) /\
  authenticate_access (sent tr) secret now =
    (if now - 60 <=? t0 + 7776000 then Err XInvalidToken else Err XExpiredToken).
Proof.
  intros sent. unfold sent, authenticate_access, authenticate_refresh.
  destruct (session_token_runs scheme _ secret ta rest now Hs Ha) as [-> ->].
  destruct (session_token_runs scheme _ secret tr rest now Hs Hr) as [-> ->]. simpl.
  rewrite !u64_add_id by lia. rewrite !(Z.ltb_antisym (_ - _)).
  by destruct (now - 60 <=? t0 + 7200), (now - 60 <=? t0 + 7776000).
Qed.

Definition jwt_fields (c : AuthClaims) : list string :=
  [au_sub c; au_scope c; Z_text (au_exp c); Z_text (au_iat c); opt_text (au_jti c)].

#[export] Instance demo_jwt : Jwt := {
  jwt_encode c k := Ok (demo_encode (fields_encode (k :: jwt_fields c)));
  jwt_decode now t k :=
    match demo_decode t ≫= fields_decode with
    | Some [k'; sub; scope; e; i; j] =>
        if String.eqb k k' then
          if text_Z e <? now - 60 then Err ExpiredSignature
          else Ok {| au_sub := sub; au_scope := scope; au_exp := text_Z e; au_iat := text_Z i;
                     au_jti := text_opt j |}
        else Err (OtherJwtError "bad signature")
    | _ => Err (OtherJwtError "malformed")
    end;
}.

#[export] Instance demo_jwt_laws : JwtLaws.
Proof.
  split.
  - intros c k tok now E.
    assert (tok = demo_encode (fields_encode (k :: jwt_fields c))) as -> by (by injection E).
    unfold jwt_decode, demo_jwt.
    rewrite demo_decode_encode.
    change (Some ?x ≫= ?f) with (f x). rewrite fields_decode_encode. unfold jwt_fields. cbn iota.
    rewrite String.eqb_refl, !text_Z_text, text_opt_text. by destruct c.
  - intros c k tok E.
    assert (tok = demo_encode (fields_encode (k :: jwt_fields c))) as -> by (by injection E). split.
    + cbn [fields_encode]. destruct (demo_encode k) as [|[] x]; done.
    + pose proof (b64url_encode_chars (fields_encode (k :: jwt_fields c))) as Hc.
      cbn [b64url_encode demo_digests] in Hc. eapply all_bytes_impl; [|exact Hc].
      intros a Ha. by rewrite Ha.
Defined.

Definition demo_session_token (r : result CoreError string) : string :=
  match r with Ok t => t | Err _ => EmptyString end.
Definition demo_access_jwt : string :=
  demo_session_token (encode_access_jwt_at "did:a" "hmac" 1000).
Definition demo_refresh_jwt : string :=
  demo_session_token (encode_refresh_jwt_at "uuid" "did:a" "hmac" 1000).

Lemma session_tokens_separate_witness :
  authenticate_access [Some ("bEaReR" +:+ String " " demo_access_jwt)] "hmac" 8000 = Ok "did:a" /\
  authenticate_refresh [Some ("bEaReR" +:+ String " " demo_access_jwt)] "hmac" 8000
  = Err XInvalidToken /\
  authenticate_access [Some ("bEaReR" +:+ String " " demo_refresh_jwt)] "hmac" 8000
  = Err XInvalidToken.
Proof.
  destruct (session_tokens_separate "did:a" "uuid" "hmac" 1000 demo_access_jwt demo_refresh_jwt
              "bEaReR" [] 8000) as (H1 & H2 & _ & H4); [reflexivity|vm_compute; split; congruence
    |vm_compute; reflexivity|vm_compute; reflexivity|].
  split; [exact H1|split; [exact H2|exact H4]].
Defined.

(** C7: what an authenticated request has shown.  If the access extractor
    yields a DID then either the request carried a bearer token that decodes,
    under the server's secret and at that time, to access-scoped claims of
    that DID, and the store is untouched; or it carried an OAuth access token
    and exactly one DPoP proof, the token verifies under the server's own key,
    the proof verifies against this method and this server's URL for the path,
    covers this token, and is signed by the very key the token is bound to;
    and the only trace is the proof's [jti]. *)
Theorem access_auth_sound `{Jwt} `{Digests} `{Json} `{Ecdsa} `{UrlLib} `{!DpopSerde}
    `{Serde AccessTokenClaims} {St} `{OAuthStoreOk St}
    (state : OAuthState) secret now amb parts (s s' : St) did
    (Hok : access_auth state secret now amb parts s = (Ok did, s')) :
  (exists tok c, authorization (p_authorization parts) = Ok (Bearer, tok) /\
     jwt_decode now tok secret = Ok c /\ au_scope c = "com.atproto.access" /\ au_sub c = did /\
     s' = s) \/
  (exists tok c proof jwk claims,
     authorization (p_authorization parts) = Ok (Dpop, tok) /\ p_dpop parts = [Some proof] /\
     verify_access_token (os_issuer state) tok (now_access amb) = Ok c /\ at_sub c = did /\
     dpop_authenticate proof = Ok (jwk, claims) /\ thumbprint jwk = at_cnf_jkt c /\
     eq_ignore_ascii_case (dc_htm claims) (p_method parts) = true /\
     normalize_htu (dc_htu claims) = normalize_htu (os_issuer_url state +:+ p_path parts) /\
     dc_ath claims = Some (b64url_encode (sha256 tok)) /\
     Z.abs (now_proof amb - dc_iat claims) <= 300 /\
     v_jti (oview s) !! dc_jti claims = None /\
     oview s' = v_set_jti (<[dc_jti claims := u64_add (now_proof amb) 300]> (v_jti (oview s)))
                  (oview s)).
Proof.
  unfold access_auth in Hok. se_inv Hok. unfold lift in Hm. injection Hm as Ea <-.
  destruct a as [[] tok].
  - left. unfold lift in Hok. injection Hok as Hok <-.
    apply authenticate_access_Ok in Hok as (tok' & c & Ha & Hd & Hs & Hsub). by exists tok', c.
  - right. unfold authenticate_dpop in Hok.
    destruct (p_dpop parts) as [|[proof|] [|]] eqn:Ep; try done. se_inv Hok.
    unfold lift in Hm, Hm0. injection Hm as <- <-. injection Hm0 as Hv <-.
    apply map_err_Ok in Hv. unfold with_err in Hm1.
    destruct (dpop_verify _ _ _ _ _ _ _ _ s) as [r s4] eqn:Ed. injection Hm1 as Hr <-.
    apply map_err_Ok in Hr as ->. apply assert_or_Ok in Hm2 as [Hj ->]. injection Hok as <- <-.
    apply dpop_verify_Ok in Ed as ([jwk claims] & Hc & -> & Hjti & Hst).
    apply dpop_check_Ok in Hc as (Hau & Hm & Hu & Hi & _ & Hath).
    exists tok, a0, proof, jwk, claims. simpl in *. apply String.eqb_eq in Hj.
    repeat (split; [done|]). split; [|done].
    unfold check_ath in Hath. destruct (dc_ath claims) as [x|]; [|done].
    destruct (constant_time_eq _ _) eqn:E; [|done]. apply constant_time_eq_true in E. by subst.
Qed.

(** A request with an OAuth token bound to the client's key, and its proof. *)
Definition demo_oauth_token : string :=
  match issue_access_token demo_issuer "did:a" "client" ["atproto"] demo_jkt "jti" 1000 with
  | Ok (t, _) => t
  | Err _ => EmptyString
  end.
Definition demo_parts : Parts := {|
  p_authorization := [Some ("DPoP" +:+ String " " demo_oauth_token)];
  p_dpop := [Some (demo_proof {|
    dc_jti := "j9"; dc_htm := "GET"; dc_htu := "https://pds.test/xrpc/app.x?cursor=1";
    dc_iat := 1100; dc_nonce := Some (current_nonce demo_secret 1100);
    dc_ath := Some (b64url_encode (sha256 demo_oauth_token)) |})];
  p_method := "GET"; p_path := "/xrpc/app.x" |}.
Definition demo_auth_run : result XrpcError string * Inner string :=
  access_auth demo_state "hmac" 1100 (demo_ambient 1100 "9") demo_parts demo_store.
Definition demo_auth_state : Inner string := snd demo_auth_run.

(** What the proof of that request carries. *)
Lemma demo_parts_bearer tok : authorization (p_authorization demo_parts) <> Ok (Bearer, tok).
Proof. vm_compute. congruence. Qed.

Lemma demo_parts_jti proof jwk claims :
  p_dpop demo_parts = [Some proof] -> dpop_authenticate proof = Ok (jwk, claims) ->
  dc_jti claims = "j9".
Proof.
  intros Hp Ha.
  assert (match p_dpop demo_parts with
          | [Some p] => match dpop_authenticate p with Ok kc => dc_jti (snd kc) = "j9" | _ => True end
          | _ => True
          end) as H by (vm_compute; reflexivity).
  by rewrite Hp, Ha in H.
Qed.

Lemma access_auth_sound_witness :
  v_jti (mem_view demo_auth_state) = <["j9" := u64_add 1100 300]> (v_jti (mem_view demo_store)).
Proof.
  destruct (access_auth_sound demo_state "hmac" 1100 (demo_ambient 1100 "9") demo_parts demo_store
              demo_auth_state "did:a")
    as [(tok & c & Ha & _)|(tok & c & proof & jwk & claims & _ & Hp & _ & _ & Ha & _ & _ & _ & _ & _
                            & _ & Hv)];
    [vm_compute; reflexivity|exfalso; exact (demo_parts_bearer _ Ha)|].
  apply (f_equal v_jti) in Hv. rewrite (demo_parts_jti _ _ _ Hp Ha) in Hv. exact Hv.
Defined.
