(* ===== verification/Repo.v ===== *)
(** * Repositories: blocks, commits and what [atrium] does with them

    [src/rust-core/src/storage/adapter.rs], [src/rust-core/src/firehose/frame.rs]
    and the types of [src/rust-core/src/repo/].  The MST and the commit builder
    are [atrium_repo]'s: unknown programs that reach the store only through the
    adapter.  Such a program is a tree of block reads and writes ([BProg]); the
    operations of [Atrium] are parameters of that type, and [AtriumLaws] states
    what they do to the key-to-record map of a repository. *)

From Stdlib Require Import ZArith Lia Ascii.
From S2P Require Import Prelude RustStr Externals StoreTypes MemoryStore MemoryProps.

(** ** Content identifiers *)

Definition DAG_CBOR : Z := 0x71.
Definition SHA2_256 : Z := 0x12.

(** [Cid::new_v1] over a wrapped multihash. *)
Class CidLib (Cid : Type) := {
  cid_new_v1 : Z -> Z -> bytes -> Cid;
  cid_to_string : Cid -> string;
}.

Definition cid_of `{Digests} `{CidLib Cid} (codec : Z) (contents : bytes) : Cid :=
  cid_new_v1 codec SHA2_256 (sha256 contents).

(** Content addressing: no two blocks met share an identifier. *)
Class CidLaws (Cid : Type) `{Digests} `{CidLib Cid} := {
  cid_of_inj codec codec' b b' : cid_of codec b = cid_of codec' b' -> b = b';
}.

(** ** Programs over blocks *)

(** [atrium_repo::blockstore::Error]. *)
Inductive BlockErr := CidNotFound | UnsupportedHash (h : Z) | OtherErr (e : StorageError).

Inductive BProg (Cid A : Type) :=
| BRet (r : result string A)
| BRead (c : Cid) (k : result BlockErr bytes -> BProg Cid A)
| BWrite (codec hash : Z) (contents : bytes) (k : result BlockErr Cid -> BProg Cid A).
Arguments BRet {Cid A} r.
Arguments BRead {Cid A} c k.
Arguments BWrite {Cid A} codec hash contents k.

(** ** The adapter *)

Section Adapter.
Context `{Digests} {Cid St : Type} `{CidLib Cid} `{Countable Cid} `{StorageBackend Cid St}.

Definition adapter_read (c : Cid) : SE St BlockErr bytes :=
  fun s => match read_block_bytes c s with
           | (Ok b, s') => (Ok b, s')
           | (Err BlockNotFound, s') => (Err CidNotFound, s')
           | (Err e, s') => (Err (OtherErr e), s')
           end.

Definition adapter_write (codec hash : Z) (contents : bytes) : SE St BlockErr Cid :=
  (assert_or (hash =? SHA2_256) (UnsupportedHash hash) ;;!
   let cid := cid_of codec contents in
   with_err OtherErr (put_block cid contents) ;;!
   ret cid)%se.

(** Run a program against the store, keeping the identifiers written. *)
Fixpoint run_prog {A} (p : BProg Cid A) : SE (St * list Cid) string A :=
  fun '(s, tr) =>
    match p with
    | BRet r => (r, (s, tr))
    | BRead c k => let '(r, s') := adapter_read c s in run_prog (k r) (s', tr)
    | BWrite codec hash b k =>
        let '(r, s') := adapter_write codec hash b s in
        run_prog (k r) (s', match r with Ok c => tr ++ [c] | Err _ => tr end)
    end.

End Adapter.

(** The same programs against a map of blocks, as a relation: [fails] says
    whether the store may fail besides missing a block. *)
Inductive bexec `{Digests} `{CidLib Cid} `{Countable Cid} {A} (fails : bool)
    : BProg Cid A -> gmap Cid bytes -> result string A -> gmap Cid bytes -> list Cid -> Prop :=
| bx_ret r bm : bexec fails (BRet r) bm r bm []
| bx_read c k bm r bm' tr :
    bexec fails (k (match bm !! c with Some b => Ok b | None => Err CidNotFound end)) bm r bm' tr ->
    bexec fails (BRead c k) bm r bm' tr
| bx_read_fail c k e bm r bm' tr :
    fails = true -> bexec fails (k (Err (OtherErr e))) bm r bm' tr ->
    bexec fails (BRead c k) bm r bm' tr
| bx_write codec b k bm r bm' tr :
    bexec fails (k (Ok (cid_of codec b))) (or_insert (cid_of codec b) b bm) r bm' tr ->
    bexec fails (BWrite codec SHA2_256 b k) bm r bm' (cid_of codec b :: tr)
| bx_write_hash codec hash b k bm r bm' tr :
    hash <> SHA2_256 -> bexec fails (k (Err (UnsupportedHash hash))) bm r bm' tr ->
    bexec fails (BWrite codec hash b k) bm r bm' tr
| bx_write_fail codec hash b k e bm r bm' tr :
    fails = true -> bexec fails (k (Err (OtherErr e))) bm r bm' tr ->
    bexec fails (BWrite codec hash b k) bm r bm' tr.

(** ** What the repository layer relies on from a store *)

Record RepoView (Cid : Type) `{Countable Cid} := MkRepoView {
  rv_blocks : gmap Cid bytes;
  rv_roots : gmap string Cid;
  rv_log : list (Z * bytes);
  rv_next : Z;
}.
Arguments MkRepoView {Cid _ _}.
Arguments rv_blocks {Cid _ _}.
Arguments rv_roots {Cid _ _}.
Arguments rv_log {Cid _ _}.
Arguments rv_next {Cid _ _}.

Definition rv_with_blocks `{Countable Cid} (bm : gmap Cid bytes) (v : RepoView Cid) : RepoView Cid :=
  MkRepoView bm (rv_roots v) (rv_log v) (rv_next v).

Definition spec_put_block `{Countable Cid} (c : Cid) (b : bytes) (v : RepoView Cid) :=
  (tt, rv_with_blocks (or_insert c b (rv_blocks v)) v).

(** All of a commit at once: blocks, the log row under the next number, root. *)
Definition spec_commit_blocks `{Countable Cid} (bs : list (Cid * bytes)) (did : string)
    (root : Cid) (ev : bytes) (v : RepoView Cid) :=
  let seq := i64_add (rv_next v) 1 in
  (seq, MkRepoView (insert_blocks bs (rv_blocks v)) (<[did := root]> (rv_roots v))
          (rv_log v ++ [(seq, ev)]) seq).

Class RepoStoreOk (Cid St : Type) `{Countable Cid} `{StorageBackend Cid St} := {
  rview : St -> RepoView Cid;
  read_block_ok c s : rview (snd (read_block_bytes c s)) = rview s /\
    (fst (read_block_bytes c s) =
       match rv_blocks (rview s) !! c with Some b => Ok b | None => Err BlockNotFound end \/
     exists e, e <> BlockNotFound /\ fst (read_block_bytes c s) = Err e);
  put_block_ok c b : refines rview (put_block c b) (spec_put_block c b);
  load_repo_root_ok did : refines rview (load_repo_root did) (fun v => (rv_roots v !! did, v));
  commit_blocks_ok bs did root ev :
    refines rview (commit_blocks bs did root ev) (spec_commit_blocks bs did root ev);
}.

(** ** Commits and firehose frames *)

Record UnsignedCommit (Cid : Type) := MkUnsigned {
  uc_did : string;
  uc_version : Z;
  uc_data : Cid;
  uc_rev : string;
  uc_prev : option Cid;
}.
Arguments MkUnsigned {Cid}.
Arguments uc_did {Cid}.
Arguments uc_version {Cid}.
Arguments uc_data {Cid}.
Arguments uc_rev {Cid}.
Arguments uc_prev {Cid}.

Record SignedCommit (Cid : Type) := MkSigned {
  sc_did : string;
  sc_version : Z;
  sc_data : Cid;
  sc_rev : string;
  sc_prev : option Cid;
  sc_sig : bytes;
}.
Arguments MkSigned {Cid}.
Arguments sc_did {Cid}.
Arguments sc_version {Cid}.
Arguments sc_data {Cid}.
Arguments sc_rev {Cid}.
Arguments sc_prev {Cid}.
Arguments sc_sig {Cid}.

Definition signed_of {Cid} (u : UnsignedCommit Cid) (sig : bytes) : SignedCommit Cid :=
  MkSigned (uc_did u) (uc_version u) (uc_data u) (uc_rev u) (uc_prev u) sig.

Definition unsigned_of {Cid} (c : SignedCommit Cid) : UnsignedCommit Cid :=
  MkUnsigned (sc_did c) (sc_version c) (sc_data c) (sc_rev c) (sc_prev c).

(** The one field the writer reads back from a commit block. *)
Record CommitHeader := MkCommitHeader { ch_rev : string }.

Record RepoOp (Cid : Type) := MkRepoOp {
  ro_action : string;
  ro_path : string;
  ro_cid : option Cid;
}.
Arguments MkRepoOp {Cid}.
Arguments ro_action {Cid}.
Arguments ro_path {Cid}.
Arguments ro_cid {Cid}.

Record CommitBody (Cid : Type) := MkCommitBody {
  cb_seq : Z;
  cb_rebase : bool;
  cb_too_big : bool;
  cb_repo : string;
  cb_commit : Cid;
  cb_rev : string;
  cb_since : option string;
  cb_blocks : bytes;
  cb_ops : list (RepoOp Cid);
  cb_blobs : list Cid;
  cb_time : string;
  cb_prev_data : option Cid;
}.
Arguments MkCommitBody {Cid}.
Arguments cb_seq {Cid}.
Arguments cb_rebase {Cid}.
Arguments cb_too_big {Cid}.
Arguments cb_repo {Cid}.
Arguments cb_commit {Cid}.
Arguments cb_rev {Cid}.
Arguments cb_since {Cid}.
Arguments cb_blocks {Cid}.
Arguments cb_ops {Cid}.
Arguments cb_blobs {Cid}.
Arguments cb_time {Cid}.
Arguments cb_prev_data {Cid}.

Definition with_seq {Cid} (seq : Z) (b : CommitBody Cid) : CommitBody Cid :=
  MkCommitBody seq (cb_rebase b) (cb_too_big b) (cb_repo b) (cb_commit b) (cb_rev b) (cb_since b)
    (cb_blocks b) (cb_ops b) (cb_blobs b) (cb_time b) (cb_prev_data b).

Record MessageHeader := MkMessageHeader { mh_op : Z; mh_t : string }.
Record ErrorHeader := MkErrorHeader { eh_op : Z }.
Record ErrorBody := MkErrorBody { eb_error : string; eb_message : option string }.

(** One broadcast unit. *)
Record FirehoseEvent := MkFirehoseEvent { fe_seq : Z; fe_frame : bytes }.

(** [serde_ipld_dagcbor] on the types the program serialises. *)
Class RepoSerde (Cid : Type) := {
  Ipld : Type;
  ipld_serde :: Serde Ipld;
  unsigned_serde :: Serde (UnsignedCommit Cid);
  signed_serde :: Serde (SignedCommit Cid);
  commit_header_serde :: Serde CommitHeader;
  commit_body_serde :: Serde (CommitBody Cid);
  message_header_serde :: Serde MessageHeader;
  error_header_serde :: Serde ErrorHeader;
  error_body_serde :: Serde ErrorBody;
}.

(** Encoding these types cannot fail ([expect] in the code): a failure is a
    panic, which the model makes an empty frame. *)
Definition expect_vec {T} `{Serde T} (t : T) : bytes :=
  match to_vec t with Ok b => b | Err _ => EmptyString end.

Definition encode_message_frame `{RepoSerde Cid} (t : string) (body : CommitBody Cid) : bytes :=
  expect_vec (MkMessageHeader 1 t) +:+ expect_vec body.

Definition encode_error_frame `{RepoSerde Cid} (error : string) (message : option string) : bytes :=
  expect_vec (MkErrorHeader (-1)) +:+ expect_vec (MkErrorBody error message).

(** A decoder of a commit header ignores the other fields. *)
Class RepoSerdeLaws (Cid : Type) `{RepoSerde Cid} := {
  signed_laws :: SerdeLaws (SignedCommit Cid);
  commit_body_laws :: SerdeLaws (CommitBody Cid);
  header_of_signed (c : SignedCommit Cid) b :
    to_vec c = Ok b -> from_slice b = Ok (MkCommitHeader (sc_rev c));
}.

(** ** Keys, CAR files, [atrium_repo] *)

(** [Secp256k1Keypair]. *)
Class Keypairs := {
  Keypair : Type;
  kp_sign : Keypair -> bytes -> result string bytes;
  kp_verify : Keypair -> bytes -> bytes -> bool;
}.

Class KeypairLaws `{Keypairs} := {
  kp_verify_sign k m s : kp_sign k m = Ok s -> kp_verify k m s = true;
}.

(** [iroh_car]'s writer of a CARv1 file with one root, into memory. *)
Class CarLib (Cid : Type) := {
  CarWriter : Type;
  car_new : Cid -> CarWriter;
  car_write : CarWriter -> Cid -> bytes -> result string CarWriter;
  car_finish : CarWriter -> result string bytes;
}.

Fixpoint car_write_all `{CarLib Cid} (w : CarWriter) (l : list (Cid * bytes))
    : result string CarWriter :=
  match l with
  | [] => Ok w
  | (c, b) :: l => let? w := car_write w c b in car_write_all w l
  end.

Definition car_encode `{CarLib Cid} (root : Cid) (l : list (Cid * bytes)) : result string bytes :=
  let? w := car_write_all (car_new root) l in
  car_finish w.

Class Atrium (Cid : Type) `{RepoSerde Cid} := {
  Repo : Type;
  repo_root : Repo -> Cid;
  repo_data : Repo -> Cid;
  Builder : Type;
  builder_bytes : Builder -> bytes;
  builder_prev : Cid -> Builder -> Builder;
  repo_open : Cid -> BProg Cid Repo;
  repo_create : string -> string -> BProg Cid Builder;
  create_finalize : Builder -> bytes -> BProg Cid Repo;
  add_raw : Repo -> string -> string -> Ipld -> BProg Cid (Builder * Cid);
  update_raw : Repo -> string -> string -> Ipld -> BProg Cid (Builder * Cid);
  delete_raw : Repo -> string -> string -> BProg Cid Builder;
  commit_finalize : Builder -> bytes -> BProg Cid Cid;
  tree_add : Cid -> string -> Cid -> BProg Cid Cid;
  tree_update : Cid -> string -> Cid -> BProg Cid Cid;
  tree_delete : Cid -> string -> BProg Cid Cid;
  (** the [DiffBlockStore]: the identifiers written, in some order *)
  diff_blocks : list Cid -> list Cid;
  block_err_to_string : BlockErr -> string;
}.

(** Every block is stored under the identifier of its content. *)
Definition addressed `{Digests} `{CidLib Cid} `{Countable Cid} (bm : gmap Cid bytes) : Prop :=
  forall c b, bm !! c = Some b -> exists codec, c = cid_of codec b.

(** [meets p bm Q]: whenever the program succeeds from the blocks [bm],
    whatever reads or writes of the store failed on the way, its result and the
    blocks it leaves satisfy [Q]. *)
Definition meets `{Digests} `{CidLib Cid} `{Countable Cid} {A} (p : BProg Cid A)
    (bm : gmap Cid bytes) (Q : A -> gmap Cid bytes -> list Cid -> Prop) : Prop :=
  addressed bm -> forall fails r bm' tr, bexec fails p bm (Ok r) bm' tr -> Q r bm' tr.

(** [cid] is the identifier of the block of [t], and it was written. *)
Definition stored_as `{Digests} `{CidLib Cid} `{Serde T} (t : T) (cid : Cid) (tr : list Cid) : Prop :=
  exists blk, to_vec t = Ok blk /\ cid = cid_of DAG_CBOR blk /\ cid ∈ tr.

(** A repository's records: MST key to record identifier. *)
Abbreviation records Cid := (gmap string Cid) (only parsing).

Class AtriumLaws (Cid : Type) `{Digests} `{CidLib Cid} `{Countable Cid}
    `{RepoSerde Cid} `{!Atrium Cid} := {
  (** the records an MST root stands for, the fields a builder holds, the
      account of an open repository *)
  mst_map : gmap Cid bytes -> Cid -> option (records Cid);
  builder_view : Builder -> UnsignedCommit Cid;
  repo_did : Repo -> string;
  mst_map_mono bm bm' c m : bm ⊆ bm' -> mst_map bm c = Some m -> mst_map bm' c = Some m;
  builder_bytes_view b : to_vec (builder_view b) = Ok (builder_bytes b);
  builder_prev_view c b : builder_view (builder_prev c b) =
    let u := builder_view b in MkUnsigned (uc_did u) (uc_version u) (uc_data u) (uc_rev u) (Some c);
  repo_open_ok c bm : meets (repo_open c) bm (fun r bm' tr =>
    tr = [] /\ repo_root r = c /\
    exists b cm, bm !! c = Some b /\ from_slice b = Ok (cm : SignedCommit Cid) /\
      repo_data r = sc_data cm /\ repo_did r = sc_did cm);
  repo_create_ok did rev bm : meets (repo_create did rev) bm (fun b bm' tr =>
    exists root, builder_view b = MkUnsigned did 3 root rev None /\ mst_map bm' root = Some ∅);
  create_finalize_ok b sig bm : meets (create_finalize b sig) bm (fun r bm' tr =>
    stored_as (signed_of (builder_view b) sig) (repo_root r) tr /\
    repo_data r = uc_data (builder_view b) /\ repo_did r = uc_did (builder_view b));
  commit_finalize_ok b sig bm : meets (commit_finalize b sig) bm (fun c bm' tr =>
    stored_as (signed_of (builder_view b) sig) c tr);
  add_raw_ok r rev key rec bm m : mst_map bm (repo_data r) = Some m ->
    meets (add_raw r rev key rec) bm (fun bc bm' tr =>
      stored_as rec bc.2 tr /\
      exists root, builder_view bc.1 = MkUnsigned (repo_did r) 3 root rev None /\
        mst_map bm' root = Some (<[key := bc.2]> m));
  update_raw_ok r rev key rec bm m : mst_map bm (repo_data r) = Some m ->
    meets (update_raw r rev key rec) bm (fun bc bm' tr =>
      stored_as rec bc.2 tr /\
      exists root, builder_view bc.1 = MkUnsigned (repo_did r) 3 root rev None /\
        mst_map bm' root = Some (<[key := bc.2]> m));
  delete_raw_ok r rev key bm m : mst_map bm (repo_data r) = Some m ->
    meets (delete_raw r rev key) bm (fun b bm' tr =>
      exists root, builder_view b = MkUnsigned (repo_did r) 3 root rev None /\
        mst_map bm' root = Some (delete key m));
  tree_add_ok root key c bm m : mst_map bm root = Some m ->
    meets (tree_add root key c) bm (fun root' bm' tr => mst_map bm' root' = Some (<[key := c]> m));
  tree_update_ok root key c bm m : mst_map bm root = Some m ->
    meets (tree_update root key c) bm (fun root' bm' tr => mst_map bm' root' = Some (<[key := c]> m));
  tree_delete_ok root key bm m : mst_map bm root = Some m ->
    meets (tree_delete root key) bm (fun root' bm' tr => mst_map bm' root' = Some (delete key m));
  diff_blocks_ok tr : NoDup (diff_blocks tr) /\ forall c, c ∈ diff_blocks tr <-> c ∈ tr;
}.

(** ** Lemmas *)

Section BlockMaps.
Context `{Digests} {Cid : Type} `{CidLib Cid} `{Countable Cid}.
Implicit Types (bm : gmap Cid bytes) (c : Cid).

Lemma or_insert_sub c b bm : bm ⊆ or_insert c b bm.
Proof.
  unfold or_insert. destruct (bm !! c) eqn:E; [done|]. by apply insert_subseteq.
Qed.

Lemma insert_blocks_sub l bm : bm ⊆ insert_blocks l bm.
Proof.
  unfold insert_blocks. revert bm. induction l as [|[c b] l IH]; intros bm; simpl; [done|].
  etrans; [apply or_insert_sub|apply IH].
Qed.

(** Writing back blocks that are already there changes nothing. *)
Lemma insert_blocks_stored l bm :
  Forall (fun cb => is_Some (bm !! cb.1)) l -> insert_blocks l bm = bm.
Proof.
  unfold insert_blocks. induction 1 as [|[c b] l [x Hx] _ IH]; simpl; [done|].
  unfold or_insert at 2. simpl in Hx. by rewrite Hx.
Qed.

Lemma or_insert_addressed codec b bm :
  addressed bm -> addressed (or_insert (cid_of codec b) b bm).
Proof.
  unfold or_insert. intros Ha. destruct (bm !! _); [done|]. intros c b' E.
  apply lookup_insert_Some in E as [[<- <-]|[_ E]]; [by eexists|by apply Ha].
Qed.

(** What a program leaves: more blocks, all addressed, those of its trace among
    them. *)
Lemma bexec_blocks {A} fails (p : BProg Cid A) bm r bm' tr :
  bexec fails p bm r bm' tr ->
  bm ⊆ bm' /\ (addressed bm -> addressed bm') /\ Forall (fun c => is_Some (bm' !! c)) tr.
Proof.
  induction 1 as [| | |codec b k bm r bm' tr _ (IH1 & IH2 & IH3)| |]; try done.
  split; [etrans; [apply or_insert_sub|done]|].
  split; [intros Ha; by apply IH2, or_insert_addressed|].
  constructor; [|done]. unfold or_insert in IH1. destruct (bm !! cid_of codec b) as [x|] eqn:E.
  - exists x. by eapply lookup_weaken.
  - exists b. eapply lookup_weaken; [|exact IH1]. apply lookup_insert_eq.
Qed.

(** Content addressing: the block found under a trace's identifier is the one
    written. *)
Lemma stored_as_lookup `{!CidLaws Cid} `{Serde T} (t : T) c tr bm :
  addressed bm -> Forall (fun c => is_Some (bm !! c)) tr -> stored_as t c tr ->
  exists blk, to_vec t = Ok blk /\ bm !! c = Some blk.
Proof.
  intros Ha Ht (blk & Hv & -> & Hin). exists blk. split; [done|].
  rewrite Forall_forall in Ht. destruct (Ht _ Hin) as [b Hb]. rewrite Hb.
  destruct (Ha _ _ Hb) as [codec E]. by rewrite (cid_of_inj _ _ _ _ E).
Qed.

(** A store whose reads and writes of blocks never fail. *)
Definition healthy (St : Type) `{!StorageBackend Cid St} `{!RepoStoreOk Cid St} : Prop :=
  (forall c (s : St), fst (read_block_bytes c s) =
     match rv_blocks (rview s) !! c with Some b => Ok b | None => Err BlockNotFound end) /\
  (forall c b (s : St), is_ok (fst (put_block c b s)) = true).

(** The relation and the interpreter agree: a run against a store that meets
    its contract is a [bexec] between the views, and touches nothing else. *)
Lemma run_prog_bexec {St : Type} `{!StorageBackend Cid St} `{!RepoStoreOk Cid St} {A} fails
    (Hf : fails = false -> healthy St) (p : BProg Cid A) : forall (s s' : St) r tr0 tr,
  run_prog p (s, tr0) = (r, (s', tr)) ->
  exists tr', tr = tr0 ++ tr' /\
    bexec fails p (rv_blocks (rview s)) r (rv_blocks (rview s')) tr' /\
    rview s' = rv_with_blocks (rv_blocks (rview s')) (rview s).
Proof.
  induction p as [r0|c k IH|codec hash b k IH]; intros s s' r tr0 tr E; cbn [run_prog] in E.
  - injection E as <- <- <-. exists []. rewrite app_nil_r. repeat split; [constructor|].
    by destruct (rview s).
  - unfold adapter_read in E. pose proof (read_block_ok c s) as [Hv Hr].
    assert (fails = false -> fst (read_block_bytes c s) =
      match rv_blocks (rview s) !! c with Some b => Ok b | None => Err BlockNotFound end) as Hh
      by (intros X; by apply Hf in X as [X _]).
    destruct (read_block_bytes c s) as [x s1]. simpl in Hv, Hr, Hh.
    destruct Hr as [->|(e & Hne & ->)].
    + destruct (rv_blocks (rview s) !! c) as [b|] eqn:El;
        apply IH in E as (tr' & -> & Hx & E); rewrite Hv in Hx, E; exists tr';
        (split; [done|]); (split; [|done]); apply bx_read; by rewrite El.
    + destruct fails; [|specialize (Hh eq_refl); by destruct (_ !! _); simplify_eq].
      destruct e; try done; apply IH in E as (tr' & -> & Hx & E); rewrite Hv in Hx, E; exists tr';
        (split; [done|]); (split; [|done]); by eapply bx_read_fail.
  - unfold adapter_write, bind, assert_or in E. destruct (Z.eqb_spec hash SHA2_256) as [->|Hh].
    + unfold with_err, ret in E.
      assert (fails = false -> is_ok (fst (put_block (cid_of codec b) b s)) = true) as Hh
        by (intros X; by apply Hf in X as [_ X]).
      destruct (put_block (cid_of codec b) b s) as [x s1] eqn:Ep.
      destruct (put_block_ok (cid_of codec b) b s) as [(e & s2 & Ep' & Hv)|(s2 & Ep' & Hv)];
        rewrite Ep' in Ep; injection Ep as <- <-; simpl in E, Hh.
      * destruct fails; [|by specialize (Hh eq_refl)].
        apply IH in E as (tr' & -> & Hx & E). rewrite Hv in Hx, E. exists tr'.
        split; [done|]. split; [|done]. by eapply bx_write_fail.
      * apply IH in E as (tr' & -> & Hx & E). rewrite Hv in Hx, E. simpl in Hx, E.
        exists (cid_of codec b :: tr'). rewrite <- app_assoc. split; [done|].
        split; [by apply bx_write|]. rewrite E. by destruct (rview s).
    + simpl in E. apply IH in E as (tr' & -> & Hx & E). exists tr'. split; [done|].
      split; [|done]. by apply bx_write_hash.
Qed.

End BlockMaps.

(** ** The in-memory store meets the contract *)

#[export] Instance mem_repo_ok `{Countable Cid} : RepoStoreOk Cid (Inner Cid).
Proof.
  refine {| rview g := MkRepoView (blocks g) (repo_roots g)
                         (map (fun r => (seq_no r, event r)) (repo_seq g)) (next_seq g) |}.
  - intros c g. split; [done|]. left. simpl. by destruct (blocks g !! c).
  - intros c b g. right. eexists. by split.
  - intros did g. right. eexists. by split.
  - intros bs did root ev g. right. eexists. split; [done|].
    unfold spec_commit_blocks, mem_commit_blocks. simpl. by rewrite map_app.
Defined.

Lemma mem_healthy `{Countable Cid} : healthy (Cid := Cid) (Inner Cid).
Proof. split; [|done]. intros c g. simpl. by destruct (blocks g !! c). Qed.
