(* ===== verification/RepoWriter.v ===== *)
(** * The repository writer

    [src/rust-core/src/repo/writer.rs] and [error.rs]: one signed commit per
    write ([commit_op]) or per batch ([apply_many_parts]).  The per-account
    lock is held for the whole of either, so each is one step over the world: a
    store and the frames broadcast so far.  What a write reads from outside
    (clock, fresh revisions) is in [Stamps]. *)

From Stdlib Require Import ZArith Lia Ascii.
From S2P Require Import Prelude RustStr Externals StoreTypes MemoryStore MemoryProps Repo.

Inductive RepoError :=
| RStorage (e : StorageError)
| RRepo (msg : string)
| RCrypto (msg : string).

Inductive Publish := Broadcast | Never.

Record Stamps := { rev_create : string; rev_now : string; time_now : string }.

Record WriteOutcome (Cid : Type) := MkOutcome {
  wo_action : string;
  wo_key : string;
  wo_record_cid : option Cid;
  wo_commit_cid : Cid;
  wo_rev : string;
}.
Arguments MkOutcome {Cid}.
Arguments wo_action {Cid}.
Arguments wo_key {Cid}.
Arguments wo_record_cid {Cid}.
Arguments wo_commit_cid {Cid}.
Arguments wo_rev {Cid}.

Section Writer.
Context `{Digests} {Cid St : Type} `{CidLib Cid} `{Countable Cid} `{StorageBackend Cid St}.
Context `{RepoSerde Cid} `{!Atrium Cid} `{Keypairs} `{CarLib Cid}.

Inductive WriteOp :=
| WCreate (key : string) (record : Ipld)
| WUpdate (key : string) (record : Ipld)
| WDelete (key : string).

Record Writer := MkWriter { signing_key : Keypair; did : string }.

(** The store, and the events sent on [firehose_tx]. *)
Definition World : Type := St * list FirehoseEvent.
Notation M A := (SE World RepoError A).

(** [?] on a storage result. *)
Definition on_store {A} (m : SE St StorageError A) : M A :=
  fun '(s, pub) => let '(r, s') := m s in (map_err RStorage r, (s', pub)).

(** [.await.map_err(|e| RepoError::Repo(e.to_string()))?] on an atrium call,
    through the [DiffBlockStore] whose trace is [tr]. *)
Definition prog {A} (f : string -> string) (p : BProg Cid A) (tr : list Cid)
    : M (A * list Cid) :=
  fun '(s, pub) =>
    let '(r, (s', tr')) := run_prog p (s, tr) in
    (match r with Ok a => Ok (a, tr') | Err e => Err (RRepo (f e)) end, (s', pub)).

(** [DiffBlockStore::write_block] of a DAG-CBOR block. *)
Definition diff_write (contents : bytes) : BProg Cid Cid :=
  BWrite DAG_CBOR SHA2_256 contents (fun r => BRet (map_err block_err_to_string r)).

Definition repo_err {A} (f : string -> string) (r : result string A) : M A :=
  lift (map_err (fun e => RRepo (f e)) r).

Definition read_block (c : Cid) : M bytes := on_store (read_block_bytes c).

Fixpoint read_blocks (cids : list Cid) : M (list (Cid * bytes)) :=
  match cids with
  | [] => ret []
  | c :: cids => (let! b := read_block c in let! l := read_blocks cids in ret ((c, b) :: l))%se
  end.

(** The [rev] of a stored commit. *)
Definition commit_rev (context : string) (c : Cid) : M string :=
  (let! b := read_block c in
   let! h := repo_err (fun e => context +:+ e) (from_slice b) in
   ret (ch_rev h))%se.

Section Handlers.
Variable self : Writer.

Definition sign (m : bytes) : M bytes := lift (map_err RCrypto (kp_sign (signing_key self) m)).

Definition open_or_create (st : Stamps) (maybe_root : option Cid) : M (Repo * list Cid) :=
  match maybe_root with
  | Some root => prog id (repo_open root) []
  | None =>
      (let! bt := prog id (repo_create (did self) (rev_create st)) [] in
       let! sig := sign (builder_bytes (fst bt)) in
       prog id (create_finalize (fst bt) sig) (snd bt))%se
  end.

(** Chain, sign and finalize a built commit. *)
Definition chain_and_sign (prev_cid : Cid) (b : Builder) (tr : list Cid) : M (Cid * list Cid) :=
  (let cb := builder_prev prev_cid b in
   let! sig := sign (builder_bytes cb) in
   prog id (commit_finalize cb sig) tr)%se.

(** The [match op] of [commit_op]: action, key, record and commit identifiers. *)
Definition apply_op (st : Stamps) (repo : Repo) (wop : WriteOp) (tr : list Cid)
    : M (string * string * option Cid * Cid * list Cid) :=
  let prev_cid := repo_root repo in
  match wop with
  | WCreate key record =>
      (let! x := prog id (add_raw repo (rev_now st) key record) tr in
       let! c := chain_and_sign prev_cid (fst (fst x)) (snd x) in
       ret ("create", key, Some (snd (fst x)), fst c, snd c))%se
  | WUpdate key record =>
      (let! x := prog id (update_raw repo (rev_now st) key record) tr in
       let! c := chain_and_sign prev_cid (fst (fst x)) (snd x) in
       ret ("update", key, Some (snd (fst x)), fst c, snd c))%se
  | WDelete key =>
      (let! x := prog id (delete_raw repo (rev_now st) key) tr in
       let! c := chain_and_sign prev_cid (fst x) (snd x) in
       ret ("delete", key, None, fst c, snd c))%se
  end.

Definition since_of (context : string) (maybe_root : option Cid) (prev_cid : Cid)
    : M (option string) :=
  match maybe_root with
  | Some _ => (let! r := commit_rev context prev_cid in ret (Some r))%se
  | None => ret None
  end.

Definition commit_body (st : Stamps) (commit_cid : Cid) (rev : string) (since : option string)
    (car : bytes) (ops : list (RepoOp Cid)) : CommitBody Cid := {|
  cb_seq := 0; cb_rebase := false; cb_too_big := false; cb_repo := did self;
  cb_commit := commit_cid; cb_rev := rev; cb_since := since; cb_blocks := car; cb_ops := ops;
  cb_blobs := []; cb_time := time_now st; cb_prev_data := None |}.

(** Encode the event, commit everything in one transaction, stamp the number. *)
Definition persist (blocks : list (Cid * bytes)) (body : CommitBody Cid) : M (CommitBody Cid) :=
  (let! event_body := repo_err (fun e => "encode event body: " +:+ e) (to_vec body) in
   let! seq := on_store (commit_blocks blocks (did self) (cb_commit body) event_body) in
   ret (with_seq seq body))%se.

Definition broadcast (publish : Publish) (body : CommitBody Cid) : M unit :=
  match publish with
  | Broadcast => fun '(s, pub) =>
      (Ok tt, (s, pub ++ [MkFirehoseEvent (cb_seq body) (encode_message_frame "#commit" body)]))
  | Never => ret tt
  end.

Definition commit_op (st : Stamps) (wop : WriteOp) (publish : Publish)
    : M (WriteOutcome Cid * CommitBody Cid) :=
  (let! maybe_root := on_store (load_repo_root (did self)) in
   let! rt := open_or_create st maybe_root in
   let prev_cid := repo_root (fst rt) in
   let! a := apply_op st (fst rt) wop (snd rt) in
   let '(action, key, record_cid, commit_cid, tr) := a in
   let! blocks := read_blocks (diff_blocks tr) in
   let! car := repo_err id (car_encode commit_cid blocks) in
   let! rev := commit_rev "decode commit block for rev/prev: " commit_cid in
   let! since := since_of "decode prev commit block for since: " maybe_root prev_cid in
   let! body := persist blocks
     (commit_body st commit_cid rev since car [MkRepoOp action key record_cid]) in
   broadcast publish body ;;!
   ret (MkOutcome action key record_cid commit_cid rev, body))%se.

Definition apply_one (st : Stamps) (wop : WriteOp) : M (WriteOutcome Cid) :=
  (let! r := commit_op st wop Broadcast in ret (fst r))%se.

Definition apply_one_parts (st : Stamps) (wop : WriteOp)
    : M (WriteOutcome Cid * CommitBody Cid) := commit_op st wop Never.

(** ** Batches *)

Record Prepared := MkPrepared { pr_action : string; pr_key : string; pr_cid : option Cid }.

Definition prepare_record (action key : string) (record : Ipld) (tr : list Cid)
    : M (Prepared * list Cid) :=
  (let! b := repo_err (fun e => "encode record: " +:+ e) (to_vec record) in
   let! c := prog id (diff_write b) tr in
   ret (MkPrepared action key (Some (fst c)), snd c))%se.

Definition prepare_one (wop : WriteOp) (tr : list Cid) : M (Prepared * list Cid) :=
  match wop with
  | WCreate key record => prepare_record "create" key record tr
  | WUpdate key record => prepare_record "update" key record tr
  | WDelete key => ret (MkPrepared "delete" key None, tr)
  end.

Fixpoint prepare (ops : list WriteOp) (tr : list Cid) : M (list Prepared * list Cid) :=
  match ops with
  | [] => ret ([], tr)
  | wop :: ops =>
      (let! p := prepare_one wop tr in
       let! l := prepare ops (snd p) in
       ret (fst p :: fst l, snd l))%se
  end.

(** One turn of the loop over the open tree, whose root is [root]. *)
Definition tree_step (p : Prepared) (root : Cid) (tr : list Cid) : M (Cid * list Cid) :=
  prog (fun e => "mst " +:+ pr_action p +:+ " " +:+ pr_key p +:+ ": " +:+ e)
    (match pr_cid p with
     | Some cid =>
         if String.eqb (pr_action p) "create" then tree_add root (pr_key p) cid
         else if String.eqb (pr_action p) "update" then tree_update root (pr_key p) cid
         else tree_delete root (pr_key p)
     | None => tree_delete root (pr_key p)
     end) tr.

Fixpoint tree_steps (l : list Prepared) (root : Cid) (tr : list Cid) : M (Cid * list Cid) :=
  match l with
  | [] => ret (root, tr)
  | p :: l => (let! x := tree_step p root tr in tree_steps l (fst x) (snd x))%se
  end.

(** Build, sign and store the commit block by hand. *)
Definition write_commit (st : Stamps) (prev_cid new_data : Cid) (tr : list Cid)
    : M (Cid * list Cid) :=
  (let unsigned := MkUnsigned (did self) 3 new_data (rev_now st) (Some prev_cid) in
   let! preimage := repo_err (fun e => "encode commit: " +:+ e) (to_vec unsigned) in
   let! sig := sign preimage in
   let! b := repo_err (fun e => "encode signed commit: " +:+ e) (to_vec (signed_of unsigned sig)) in
   prog id (diff_write b) tr)%se.

Definition op_of (p : Prepared) : RepoOp Cid := MkRepoOp (pr_action p) (pr_key p) (pr_cid p).

Definition outcome_of (commit_cid : Cid) (rev : string) (p : Prepared) : WriteOutcome Cid :=
  MkOutcome (pr_action p) (pr_key p) (pr_cid p) commit_cid rev.

Definition apply_many_parts (st : Stamps) (ops : list WriteOp)
    : M (list (WriteOutcome Cid) * CommitBody Cid) :=
  match ops with
  | [] => throw (RRepo "applyWrites with no writes")
  | _ =>
      (let! maybe_root := on_store (load_repo_root (did self)) in
       let! rt := open_or_create st maybe_root in
       let prev_cid := repo_root (fst rt) in
       let! pt := prepare ops (snd rt) in
       let! nt := tree_steps (fst pt) (repo_data (fst rt)) (snd pt) in
       let! ct := write_commit st prev_cid (fst nt) (snd nt) in
       let commit_cid := fst ct in
       let! blocks := read_blocks (diff_blocks (snd ct)) in
       let! car := repo_err id (car_encode commit_cid blocks) in
       let! since := since_of "decode prev commit: " maybe_root prev_cid in
       let! body := persist blocks
         (commit_body st commit_cid (rev_now st) since car (map op_of (fst pt))) in
       ret (map (outcome_of commit_cid (rev_now st)) (fst pt), body))%se
  end.

Definition current_mst_root : M (option Cid) :=
  (let! maybe_root := on_store (load_repo_root (did self)) in
   match maybe_root with
   | None => ret None
   | Some root => let! rt := prog id (repo_open root) [] in ret (Some (repo_data (fst rt)))
   end)%se.

End Handlers.
End Writer.
