(* ===== verification/RepoDemo.v ===== *)
(** * A concrete [atrium]

    Toy implementations of the parameters of [Repo] that satisfy its laws: an
    identifier is the content itself, an MST is one block listing its entries.
    They show the hypotheses of the repository theorems can hold together, and
    let the writer run on concrete inputs.  No definition of the model uses
    them. *)

From Stdlib Require Import ZArith Lia Ascii.
From S2P Require Import Prelude RustStr Externals Demo StoreTypes MemoryStore MemoryProps Repo.

#[export] Instance demo_cid : CidLib string := {
  cid_new_v1 _ _ digest := digest; cid_to_string c := c }.
#[export] Instance demo_cid_laws : CidLaws string.
Proof. split. by intros codec codec' b b' E. Defined.

#[export] Instance demo_keypairs : Keypairs := {
  Keypair := string;
  kp_sign k m := Ok (k +:+ m);
  kp_verify k m s := String.eqb s (k +:+ m);
}.
#[export] Instance demo_keypair_laws : KeypairLaws.
Proof. split. intros k m s [= <-]. apply String.eqb_refl. Defined.

#[export] Instance demo_car : CarLib string := {
  CarWriter := list string;
  car_new root := [root];
  car_write w c b := Ok (w ++ [c; b]);
  car_finish w := Ok (fields_encode w);
}.

(** ** Encodings *)

Definition demo_serde {T} (enc : T -> list string) (dec : list string -> option T) : Serde T := {|
  to_vec t := Ok (fields_encode (enc t));
  from_slice b := ok_or (fields_decode b ≫= dec) "malformed";
|}.

Lemma demo_serde_laws {T} (enc : T -> list string) dec :
  (forall t, dec (enc t) = Some t) -> @SerdeLaws T (demo_serde enc dec).
Proof.
  intros Hd. split. unfold to_vec, from_slice, demo_serde. intros t b E.
  assert (b = fields_encode (enc t)) as -> by congruence.
  rewrite fields_decode_encode. cbn [mbind option_bind]. by rewrite Hd.
Qed.

Definition unsigned_fields (u : UnsignedCommit string) : list string :=
  [uc_did u; Z_text (uc_version u); uc_data u; uc_rev u; opt_text (uc_prev u)].
Definition fields_unsigned (l : list string) : option (UnsignedCommit string) :=
  match l with
  | [d; v; t; r; p] => Some (MkUnsigned d (text_Z v) t r (text_opt p))
  | _ => None
  end.
Definition signed_fields (c : SignedCommit string) : list string :=
  [sc_did c; Z_text (sc_version c); sc_data c; sc_rev c; opt_text (sc_prev c); sc_sig c].
Definition fields_signed (l : list string) : option (SignedCommit string) :=
  match l with
  | [d; v; t; r; p; s] => Some (MkSigned d (text_Z v) t r (text_opt p) s)
  | _ => None
  end.
Definition fields_header (l : list string) : option CommitHeader :=
  match l with
  | [_; _; _; r; _; _] => Some (MkCommitHeader r)
  | _ => None
  end.

Definition bool_text (b : bool) : string := if b then "t" else "f".
Definition text_bool (s : string) : bool := String.eqb s "t".
Definition op_text (o : RepoOp string) : string :=
  fields_encode [ro_action o; ro_path o; opt_text (ro_cid o)].
Definition text_op (s : string) : option (RepoOp string) :=
  match fields_decode s with
  | Some [a; p; c] => Some (MkRepoOp a p (text_opt c))
  | _ => None
  end.
Definition body_fields (b : CommitBody string) : list string :=
  [Z_text (cb_seq b); bool_text (cb_rebase b); bool_text (cb_too_big b); cb_repo b; cb_commit b;
   cb_rev b; opt_text (cb_since b); cb_blocks b; fields_encode (map op_text (cb_ops b));
   fields_encode (cb_blobs b); cb_time b; opt_text (cb_prev_data b)].
Definition fields_body (l : list string) : option (CommitBody string) :=
  match l with
  | [s; r; t; d; c; v; n; k; o; bl; tm; pd] =>
      ops ← fields_decode o ≫= mapM text_op; blobs ← fields_decode bl;
      Some (MkCommitBody (text_Z s) (text_bool r) (text_bool t) d c v (text_opt n) k ops blobs tm
              (text_opt pd))
  | _ => None
  end.

Lemma text_op_text o : text_op (op_text o) = Some o.
Proof.
  unfold text_op, op_text. rewrite fields_decode_encode. cbn. rewrite text_opt_text. by destruct o.
Qed.

Lemma fields_body_fields b : fields_body (body_fields b) = Some b.
Proof.
  unfold fields_body, body_fields. rewrite !fields_decode_encode. cbn [mbind option_bind].
  assert (mapM text_op (map op_text (cb_ops b)) = Some (cb_ops b)) as ->.
  { apply (mapM_fmap_Some text_op op_text), text_op_text. }
  cbn. rewrite text_Z_text, !text_opt_text. unfold text_bool, bool_text.
  destruct b as [? [] []]; done.
Qed.

#[export] Instance demo_repo_serde : RepoSerde string := {
  Ipld := string;
  ipld_serde := demo_serde_string;
  unsigned_serde := demo_serde unsigned_fields fields_unsigned;
  signed_serde := demo_serde signed_fields fields_signed;
  commit_header_serde := demo_serde (fun h => [ch_rev h]) fields_header;
  commit_body_serde := demo_serde body_fields fields_body;
  message_header_serde := demo_serde (fun h => [Z_text (mh_op h); mh_t h]) (fun _ => None);
  error_header_serde := demo_serde (fun h => [Z_text (eh_op h)]) (fun _ => None);
  error_body_serde := demo_serde (fun b => [eb_error b; opt_text (eb_message b)]) (fun _ => None);
}.

#[export] Instance demo_repo_serde_laws : RepoSerdeLaws string.
Proof.
  split.
  - apply demo_serde_laws. intros [d v t r p s]. cbn. by rewrite text_Z_text, text_opt_text.
  - apply demo_serde_laws, fields_body_fields.
  - intros c b E. assert (b = fields_encode (signed_fields c)) as -> by (by injection E).
    unfold from_slice. cbn [commit_header_serde demo_repo_serde demo_serde].
    by rewrite fields_decode_encode.
Defined.

(** ** Programs *)

Definition demo_write {A} (b : bytes) (k : string -> BProg string A) : BProg string A :=
  BWrite DAG_CBOR SHA2_256 b (fun r => match r with Ok c => k c | Err _ => BRet (Err "io") end).
Definition demo_read {A} (c : string) (k : bytes -> BProg string A) : BProg string A :=
  BRead c (fun r => match r with Ok b => k b | Err _ => BRet (Err "missing") end).
Definition demo_ok {A B} (r : result string A) (k : A -> BProg string B) : BProg string B :=
  match r with Ok a => k a | Err e => BRet (Err e) end.

Lemma meets_err {A} e bm (Q : A -> gmap string bytes -> list string -> Prop) :
  meets (BRet (Err e)) bm Q.
Proof. intros _ fails r bm' tr Hx. inversion Hx. Qed.

Lemma meets_ret {A} (a : A) bm (Q : A -> gmap string bytes -> list string -> Prop) :
  (addressed bm -> Q a bm []) -> meets (BRet (Ok a)) bm Q.
Proof. intros HQ Ha fails r bm' tr Hx. inversion Hx; subst. auto. Qed.

Lemma meets_read {A} c (k : bytes -> BProg string A) bm Q :
  (forall b, bm !! c = Some b -> meets (k b) bm Q) -> meets (demo_read c k) bm Q.
Proof.
  intros Hk Ha fails r bm' tr Hx. unfold demo_read in Hx. inversion Hx; subst.
  - destruct (bm !! c) as [b|] eqn:E; [by eapply Hk|by eapply meets_err].
  - by eapply meets_err.
Qed.

(** After a write the block is there: identifiers are contents. *)
Lemma meets_write {A} b (k : string -> BProg string A) bm Q :
  (forall bm1, bm ⊆ bm1 -> bm1 !! b = Some b ->
     meets (k b) bm1 (fun r bm' tr => Q r bm' (b :: tr))) -> meets (demo_write b k) bm Q.
Proof.
  intros Hk Ha fails r bm' tr Hx. unfold demo_write in Hx. inversion Hx; subst.
  - match goal with X : bexec _ (k _) _ _ _ _ |- _ => eapply (Hk (or_insert b b bm)); [| | |exact X] end.
    + apply or_insert_sub.
    + unfold or_insert. destruct (bm !! b) as [x|] eqn:E; [|apply lookup_insert_eq].
      destruct (Ha _ _ E) as [codec Hc]. by rewrite E, Hc.
    + exact (or_insert_addressed DAG_CBOR b bm Ha).
  - by eapply meets_err.
  - by eapply meets_err.
Qed.

Definition mst_encode (m : gmap string string) : bytes := fields_encode (flatten (map_to_list m)).
Definition mst_decode (b : bytes) : option (gmap string string) :=
  l ← fields_decode b; Some (list_to_map (unflatten l)).

Lemma mst_decode_encode m : mst_decode (mst_encode m) = Some m.
Proof.
  unfold mst_decode, mst_encode. rewrite fields_decode_encode. cbn [mbind option_bind].
  by rewrite unflatten_flatten, list_to_map_to_list.
Qed.

(** Edit the entries under [root] and store the result. *)
Definition demo_edit {A} (root : string) (f : gmap string string -> result string (gmap string string))
    (k : string -> BProg string A) : BProg string A :=
  demo_read root (fun b =>
    match mst_decode b with
    | Some m => match f m with
                | Ok m' => demo_write (mst_encode m') k
                | Err e => BRet (Err e)
                end
    | None => BRet (Err "not a node")
    end).

Definition demo_mst_map (bm : gmap string bytes) (c : string) : option (gmap string string) :=
  b ← bm !! c; mst_decode b.

Lemma meets_edit {A} root f (k : string -> BProg string A) bm m Q :
  demo_mst_map bm root = Some m ->
  (forall m' bm1, f m = Ok m' -> bm ⊆ bm1 -> demo_mst_map bm1 (mst_encode m') = Some m' ->
     meets (k (mst_encode m')) bm1 (fun r bm' tr => Q r bm' (mst_encode m' :: tr))) ->
  meets (demo_edit root f k) bm Q.
Proof.
  unfold demo_mst_map, demo_edit. intros Hm Hk. apply meets_read. intros b E.
  rewrite E in Hm. cbn in Hm. rewrite Hm.
  destruct (f m) as [m'|e] eqn:Ef; [|apply meets_err]. apply meets_write. intros bm1 Hs Hl.
  apply Hk; [done|done|]. rewrite Hl. apply mst_decode_encode.
Qed.

Definition demo_absent (key : string) (c : string) (m : gmap string string) :=
  match m !! key with
  | Some _ => Err "key already exists"
  | None => Ok (<[key := c]> m)
  end.
Definition demo_present (key : string) (m' : gmap string string) (m : gmap string string) :=
  match m !! key with
  | Some _ => Ok m'
  | None => Err "key not found"
  end : result string (gmap string string).

Definition demo_unsigned_bytes (u : UnsignedCommit string) : bytes :=
  fields_encode (unsigned_fields u).
Definition demo_finalize {A} (b : UnsignedCommit string) (sig : bytes) (k : string -> BProg string A)
    : BProg string A := demo_write (fields_encode (signed_fields (signed_of b sig))) k.

#[export] Instance demo_atrium : Atrium string := {
  Repo := string * string * string;
  repo_root r := fst (fst r);
  repo_data r := snd (fst r);
  Builder := UnsignedCommit string;
  builder_bytes := demo_unsigned_bytes;
  builder_prev c u := MkUnsigned (uc_did u) (uc_version u) (uc_data u) (uc_rev u) (Some c);
  repo_open c := demo_read c (fun b =>
    demo_ok (from_slice b) (fun cm : SignedCommit string =>
      BRet (Ok (c, sc_data cm, sc_did cm))));
  repo_create did rev := demo_write (mst_encode ∅) (fun root =>
    BRet (Ok (MkUnsigned did 3 root rev None)));
  create_finalize b sig := demo_finalize b sig (fun c => BRet (Ok (c, uc_data b, uc_did b)));
  add_raw r rev key rec := demo_write rec (fun c =>
    demo_edit (snd (fst r)) (demo_absent key c) (fun root =>
      BRet (Ok (MkUnsigned (snd r) 3 root rev None, c))));
  update_raw r rev key rec := demo_write rec (fun c =>
    demo_edit (snd (fst r)) (fun m => demo_present key (<[key := c]> m) m) (fun root =>
      BRet (Ok (MkUnsigned (snd r) 3 root rev None, c))));
  delete_raw r rev key :=
    demo_edit (snd (fst r)) (fun m => demo_present key (delete key m) m) (fun root =>
      BRet (Ok (MkUnsigned (snd r) 3 root rev None)));
  commit_finalize b sig := demo_finalize b sig (fun c => BRet (Ok c));
  tree_add root key c := demo_edit root (demo_absent key c) (fun root => BRet (Ok root));
  tree_update root key c :=
    demo_edit root (fun m => demo_present key (<[key := c]> m) m) (fun root => BRet (Ok root));
  tree_delete root key :=
    demo_edit root (fun m => demo_present key (delete key m) m) (fun root => BRet (Ok root));
  diff_blocks := remove_dups;
  block_err_to_string _ := "block error";
}.

Lemma demo_absent_Ok key c m m' : demo_absent key c m = Ok m' -> m' = <[key := c]> m.
Proof. unfold demo_absent. destruct (m !! key); naive_solver. Qed.
Lemma demo_present_Ok key x m m' : demo_present key x m = Ok m' -> m' = x.
Proof. unfold demo_present. destruct (m !! key); naive_solver. Qed.

Lemma demo_map_mono bm bm' c m :
  bm ⊆ bm' -> demo_mst_map bm c = Some m -> demo_mst_map bm' c = Some m.
Proof.
  unfold demo_mst_map. intros Hs. destruct (bm !! c) eqn:E; [|done].
  by rewrite (lookup_weaken _ _ _ _ E Hs).
Qed.

(** The three edits that go with a record or a key. *)
Lemma demo_record_edit (r : string * string * string) rev rec
    (f : string -> gmap string string -> result string (gmap string string)) g bm m :
  demo_mst_map bm (snd (fst r)) = Some m -> (forall c m', f c m = Ok m' -> m' = g c m) ->
  meets (A := UnsignedCommit string * string)
    (demo_write rec (fun c => demo_edit (snd (fst r)) (f c) (fun root =>
       BRet (Ok (MkUnsigned (snd r) 3 root rev None, c))))) bm
    (fun bc bm' tr => stored_as (T := string) rec bc.2 tr /\
       exists root, bc.1 = MkUnsigned (snd r) 3 root rev None /\
         demo_mst_map bm' root = Some (g bc.2 m)).
Proof.
  intros Hm Hf. apply meets_write. intros bm1 Hs Hl.
  eapply meets_edit; [by eapply demo_map_mono|]. intros m' bm2 Ef _ Hm'. apply meets_ret. intros _.
  cbn. split; [exists rec; repeat split; left|]. eexists. split; [done|]. by rewrite Hm', (Hf _ _ Ef).
Qed.

Lemma demo_key_edit {A} root f x bm m (k : string -> A)
    (Q : A -> gmap string bytes -> list string -> Prop) :
  demo_mst_map bm root = Some m -> (forall m', f m = Ok m' -> m' = x) ->
  (forall root' bm' tr, demo_mst_map bm' root' = Some x -> Q (k root') bm' tr) ->
  meets (demo_edit root f (fun root => BRet (Ok (k root)))) bm Q.
Proof.
  intros Hm Hf HQ. eapply meets_edit; [done|]. intros m' bm1 Ef _ Hm'. apply meets_ret. intros _.
  apply HQ. by rewrite Hm', (Hf _ Ef).
Qed.

Lemma demo_finalize_ok {A} b sig (k : string -> A) bm
    (Q : A -> gmap string bytes -> list string -> Prop) :
  (forall c bm', stored_as (signed_of b sig) c [c] -> Q (k c) bm' [c]) ->
  meets (demo_finalize b sig (fun c => BRet (Ok (k c)))) bm Q.
Proof.
  intros HQ. apply meets_write. intros bm1 _ _. apply meets_ret. intros _. apply HQ.
  exists (fields_encode (signed_fields (signed_of b sig))). repeat split. left.
Qed.

Definition demo_repo_did : @Repo string demo_repo_serde demo_atrium -> string :=
  fun r : string * string * string => snd r.
Definition demo_builder_view
    : @Builder string demo_repo_serde demo_atrium -> UnsignedCommit string :=
  fun b : UnsignedCommit string => b.

#[export] Instance demo_atrium_laws : AtriumLaws string.
Proof.
  refine {| mst_map := demo_mst_map; builder_view := demo_builder_view;
            repo_did := demo_repo_did |}.
  - exact demo_map_mono.
  - done.
  - done.
  - intros c bm. apply meets_read. intros b E. unfold demo_ok.
    destruct (from_slice b) as [cm|] eqn:Ef; [|apply meets_err]. apply meets_ret. intros _.
    split; [done|]. split; [done|]. by exists b, cm.
  - intros did rev bm. apply meets_write. intros bm1 _ Hl. apply meets_ret. intros _.
    exists (mst_encode ∅). split; [done|]. unfold demo_mst_map. rewrite Hl. apply mst_decode_encode.
  - intros b sig bm. by apply demo_finalize_ok.
  - intros b sig bm. by apply demo_finalize_ok.
  - intros r rev key rec bm m Hm.
    apply (demo_record_edit r rev rec (demo_absent key) (fun c m => <[key := c]> m)); [done|].
    intros c m'. apply demo_absent_Ok.
  - intros r rev key rec bm m Hm.
    apply (demo_record_edit r rev rec (fun c m => demo_present key (<[key := c]> m) m)
             (fun c m => <[key := c]> m)); [done|].
    intros c m'. apply demo_present_Ok.
  - intros r rev key bm m Hm. eapply demo_key_edit; [done|intros m'; apply demo_present_Ok|].
    intros root bm' tr Hr. by exists root.
  - intros root key c bm m Hm. eapply (demo_key_edit _ _ _ _ _ id); [done|intros m'; apply demo_absent_Ok|].
    done.
  - intros root key c bm m Hm. eapply (demo_key_edit _ _ _ _ _ id); [done|intros m'; apply demo_present_Ok|].
    done.
  - intros root key bm m Hm. eapply (demo_key_edit _ _ _ _ _ id); [done|intros m'; apply demo_present_Ok|].
    done.
  - intros tr. split; [apply NoDup_remove_dups|]. intros c. apply elem_of_remove_dups.
Defined.
