(* ===== verification/RepoProps.v ===== *)
(** * The repository writer: properties

    Proved over any store that meets [RepoStoreOk] and any [atrium] that meets
    [AtriumLaws]: a successful write moves the account's repository from one
    signed commit to the next and logs it once; a failed one is invisible. *)

From Stdlib Require Import ZArith Lia Ascii.
From S2P Require Import Prelude RustStr Externals Demo StoreTypes MemoryStore MemoryProps Repo.
From S2P Require Import RepoWriter RepoDemo.

Section Props.
Context `{Digests} {Cid St : Type} `{CidLib Cid} `{Countable Cid} `{StorageBackend Cid St}.
Context `{RepoSerde Cid} `{!Atrium Cid} `{Keypairs} `{CarLib Cid}.
Context `{!RepoStoreOk Cid St}.
Implicit Types (w : World (St := St)) (bm : gmap Cid bytes).

Definition wview w : RepoView Cid := rview (fst w).
Definition wblocks w : gmap Cid bytes := rv_blocks (wview w).

(** [grows w w']: only blocks were added. *)
Definition grows w w' : Prop :=
  snd w' = snd w /\ wview w' = rv_with_blocks (wblocks w') (wview w) /\
  wblocks w ⊆ wblocks w' /\ (addressed (wblocks w) -> addressed (wblocks w')).

Lemma rv_with_blocks_id (v : RepoView Cid) : v = rv_with_blocks (rv_blocks v) v.
Proof. by destruct v. Qed.

Lemma grows_refl w : grows w w.
Proof. split; [done|]. split; [apply rv_with_blocks_id|done]. Qed.

Lemma grows_trans w1 w2 w3 : grows w1 w2 -> grows w2 w3 -> grows w1 w3.
Proof.
  intros (G1 & G2 & G3 & G4) (K1 & K2 & K3 & K4).
  split; [congruence|]. split; [by rewrite K2, G2|]. split; [by etrans|auto].
Qed.

(** [keeps m]: every outcome of [m] only adds blocks. *)
Definition keeps {A} (m : SE (World (St := St)) RepoError A) : Prop :=
  forall w r w', m w = (r, w') -> grows w w'.

Lemma keeps_bind {A B} (m : SE World RepoError A) (k : A -> SE World RepoError B) :
  keeps m -> (forall a, keeps (k a)) -> keeps (bind m k).
Proof.
  unfold keeps, bind. intros Hm Hk w r w' E.
  destruct (m w) as [[a|e] w1] eqn:Em; [|by simplify_eq; eapply Hm].
  eapply grows_trans; [by eapply Hm|by eapply Hk].
Qed.

Lemma keeps_ret {A} (a : A) : keeps (ret a).
Proof. intros w r w' [= _ <-]. apply grows_refl. Qed.

Lemma keeps_lift {A} (r : result RepoError A) : keeps (lift r).
Proof. intros w r' w' [= _ <-]. apply grows_refl. Qed.

Lemma prog_grows {A} f (p : BProg Cid A) tr w r w' :
  prog f p tr w = (r, w') -> grows w w'.
Proof.
  destruct w as [s pub]. unfold prog. destruct (run_prog p (s, tr)) as [r0 [s' tr']] eqn:E.
  apply (run_prog_bexec true) in E as (tr2 & _ & Hx & Hv); [|done]. intros [= _ <-].
  apply bexec_blocks in Hx as (G1 & G2 & _). repeat split; done.
Qed.

Lemma keeps_prog {A} f (p : BProg Cid A) tr : keeps (prog (St := St) f p tr).
Proof. intros w r w'. apply prog_grows. Qed.

(** A storage operation that only reads. *)
Lemma on_store_read {A} (m : SE St StorageError A) w r w' :
  (forall s, rview (snd (m s)) = rview s) -> on_store m w = (r, w') -> grows w w'.
Proof.
  intros Hm. destruct w as [s pub]. unfold on_store. specialize (Hm s).
  destruct (m s) as [r0 s']. intros [= _ <-]. simpl in Hm. unfold grows, wblocks, wview. simpl.
  rewrite Hm. split; [done|]. split; [apply rv_with_blocks_id|done].
Qed.

Lemma keeps_read_block c : keeps (read_block (St := St) c).
Proof. intros w r w'. apply on_store_read. intros s. apply read_block_ok. Qed.

Lemma keeps_load did : keeps (on_store (load_repo_root (Cid := Cid) (S := St) did)).
Proof.
  intros w r w'. apply on_store_read. intros s.
  by destruct (load_repo_root_ok did s) as [(e & s' & -> & Hv)|(s' & -> & Hv)].
Qed.

Lemma prog_Ok {A} f (p : BProg Cid A) tr w a tr' w' :
  prog f p tr w = (Ok (a, tr'), w') ->
  exists tr2, tr' = tr ++ tr2 /\ bexec true p (wblocks w) (Ok a) (wblocks w') tr2.
Proof.
  destruct w as [s pub]. unfold prog. destruct (run_prog p (s, tr)) as [r0 [s' tr1]] eqn:E.
  apply (run_prog_bexec true) in E as (tr2 & -> & Hx & Hv); [|done]. intros E. destruct r0; simplify_eq. by exists tr2.
Qed.

Lemma read_block_Ok c w b w' :
  read_block c w = (Ok b, w') -> wblocks w !! c = Some b.
Proof.
  destruct w as [s pub]. unfold read_block, on_store. destruct (read_block_ok c s) as [Hv Hr].
  destruct (read_block_bytes c s) as [r s']. simpl in *. intros [= E <-].
  apply map_err_Ok in E as ->. unfold wblocks, wview. simpl.
  destruct Hr as [Hr|(e & _ & Hr)]; [|done]. by destruct (rv_blocks (rview s) !! c); simplify_eq.
Qed.

Lemma load_Ok did w r w' :
  on_store (load_repo_root did) w = (Ok r, w') -> r = rv_roots (wview w) !! did.
Proof.
  destruct w as [s pub]. unfold on_store, wview. simpl.
  destruct (load_repo_root_ok did s) as [(e & s' & -> & Hv)|(s' & -> & Hv)]; [done|].
  by intros [= <- <-].
Qed.

End Props.

(** Composite computations, by structure. *)
Ltac keeps :=
  repeat first
    [ apply keeps_bind; [|intros]
    | apply keeps_ret | apply keeps_lift | apply keeps_prog
    | apply keeps_read_block | apply keeps_load
    | progress cbn beta iota zeta
    | case_match ].

Section Laws.
Context `{Digests} {Cid St : Type} `{CidLib Cid} `{Countable Cid} `{StorageBackend Cid St}.
Context `{RepoSerde Cid} `{!Atrium Cid} `{Keypairs} `{CarLib Cid}.
Context `{!RepoStoreOk Cid St} `{!CidLaws Cid} `{!RepoSerdeLaws Cid} `{!KeypairLaws}.
Context `{!AtriumLaws Cid}.
Implicit Types (w : World (St := St)) (bm : gmap Cid bytes) (m : records Cid) (tr : list Cid).

(** [commit_at bm k acct c m rev prev]: the block [c] is a commit of [acct],
    signed by [k], at revision [rev], over the records [m], after [prev]. *)
Definition commit_at bm (k : Keypair) (acct : string) (c : Cid) m (rev : string)
    (prev : option Cid) : Prop :=
  exists blk data sig pre,
    let u := MkUnsigned acct 3 data rev prev in
    bm !! c = Some blk /\ to_vec (signed_of u sig) = Ok blk /\ to_vec u = Ok pre /\
    kp_verify k pre sig = true /\ mst_map bm data = Some m.

Definition present bm tr : Prop := Forall (fun c => is_Some (bm !! c)) tr.

Lemma present_mono bm bm' tr : bm ⊆ bm' -> present bm tr -> present bm' tr.
Proof.
  intros Hs Ht. eapply Forall_impl; [exact Ht|]. intros c [b Hb]. exists b. by eapply lookup_weaken.
Qed.

Lemma present_app bm tr tr2 : present bm tr -> present bm tr2 -> present bm (tr ++ tr2).
Proof. intros. by apply Forall_app. Qed.

Lemma commit_at_mono bm bm' k acct c m rev prev :
  bm ⊆ bm' -> commit_at bm k acct c m rev prev -> commit_at bm' k acct c m rev prev.
Proof.
  intros Hs (blk & data & sig & pre & Hl & Hv & Hp & Hk & Hm). exists blk, data, sig, pre.
  repeat split; try done; [by eapply lookup_weaken|by eapply mst_map_mono].
Qed.

(** A successful run of a program against the world, with what it met. *)
Lemma prog_meets {A} f (p : BProg Cid A) tr w a tr' w' Q :
  prog f p tr w = (Ok (a, tr'), w') -> addressed (wblocks w) -> present (wblocks w) tr ->
  meets p (wblocks w) Q ->
  wblocks w ⊆ wblocks w' /\ addressed (wblocks w') /\ present (wblocks w') tr' /\
  exists tr2, tr' = tr ++ tr2 /\ present (wblocks w') tr2 /\ Q a (wblocks w') tr2.
Proof.
  intros E Ha Ht HQ. pose proof (prog_grows _ _ _ _ _ _ E) as (_ & _ & Hs & Had).
  apply prog_Ok in E as (tr2 & -> & Hx). pose proof (bexec_blocks _ _ _ _ _ _ Hx) as (_ & _ & Ht2).
  specialize (HQ Ha true a _ _ Hx). split; [done|]. split; [by apply Had|].
  split; [apply present_app; [by eapply present_mono|done]|]. by exists tr2.
Qed.

(** A signed commit among the blocks written. *)
Lemma stored_commit bm k u sig pre c m tr :
  addressed bm -> present bm tr -> stored_as (signed_of u sig) c tr -> uc_version u = 3 ->
  to_vec u = Ok pre -> kp_sign k pre = Ok sig -> mst_map bm (uc_data u) = Some m ->
  commit_at bm k (uc_did u) c m (uc_rev u) (uc_prev u).
Proof.
  intros Ha Ht Hst Hver Hp Hk Hm. destruct (stored_as_lookup _ _ _ _ Ha Ht Hst) as (blk & Hv & Hl).
  exists blk, (uc_data u), sig, pre. destruct u. simpl in *. subst. repeat split; try done.
  by apply kp_verify_sign.
Qed.

Lemma sign_Ok (self : Writer) pre w sig w' :
  sign self pre w = (Ok sig, w') -> kp_sign (signing_key self) pre = Ok sig /\ w' = w.
Proof. unfold sign, lift. intros [= E <-]. split; [|done]. by destruct (kp_sign _ _); simplify_eq/=. Qed.

(** What the account's repository is before a write. *)
Definition current bm k acct (mr : option Cid) m : Prop :=
  match mr with
  | Some root => exists rev prev, commit_at bm k acct root m rev prev
  | None => m = ∅
  end.

(** The commit the new one chains from: the stored root, or the empty first
    commit made on the spot. *)
Definition base_commit bm k acct (mr : option Cid) (st : Stamps) (c : Cid) m rev : Prop :=
  match mr with
  | Some root => c = root /\ exists prev, commit_at bm k acct root m rev prev
  | None => m = ∅ /\ rev = rev_create st /\ commit_at bm k acct c ∅ rev None
  end.

Lemma base_commit_mono bm bm' k acct mr st c m rev :
  bm ⊆ bm' -> base_commit bm k acct mr st c m rev -> base_commit bm' k acct mr st c m rev.
Proof.
  intros Hs. destruct mr as [r|]; simpl.
  - intros (-> & prev & Hc). split; [done|]. exists prev. by eapply commit_at_mono.
  - intros (-> & -> & Hc). repeat split; try done. by eapply commit_at_mono.
Qed.

Lemma open_or_create_Ok (self : Writer) st mr w repo tr w' m :
  open_or_create self st mr w = (Ok (repo, tr), w') -> addressed (wblocks w) ->
  current (wblocks w) (signing_key self) (did self) mr m ->
  wblocks w ⊆ wblocks w' /\ addressed (wblocks w') /\ present (wblocks w') tr /\
  repo_did repo = did self /\ mst_map (wblocks w') (repo_data repo) = Some m /\
  exists rev, base_commit (wblocks w') (signing_key self) (did self) mr st (repo_root repo) m rev.
Proof.
  destruct mr as [root|]; cbn [open_or_create current base_commit]; intros E Ha Hcur.
  - destruct Hcur as (rev & prev & Hc).
    destruct (prog_meets _ _ _ _ _ _ _ _ E Ha ltac:(constructor) (repo_open_ok root _))
      as (Hs & Ha' & Ht & tr2 & _ & _ & (_ & Hr & b & cm & Hl & Hf & Hd & Hdid)).
    repeat (split; [done|]). destruct Hc as (blk & data & sig & pre & Hl' & Hv & Hp & Hk & Hm).
    rewrite Hl in Hl'. injection Hl' as ->. apply from_slice_to_vec in Hv as Hv'.
    rewrite Hf in Hv'. injection Hv' as ->. rewrite Hd, Hdid. cbn. split; [done|].
    split; [by eapply mst_map_mono|]. exists rev. split; [done|]. exists prev.
    apply (commit_at_mono _ _ _ _ _ _ _ _ Hs). by exists blk, data, sig, pre.
  - subst m. se_inv E. destruct a as [b tr1]. cbn [fst snd] in *.
    destruct (prog_meets _ _ _ _ _ _ _ _ Hm Ha ltac:(constructor) (repo_create_ok _ _ _))
      as (Hs1 & Ha1 & Ht1 & tr2 & -> & _ & (data & Hb & Hmap)).
    apply sign_Ok in Hm0 as [Hsig ->].
    destruct (prog_meets _ _ _ _ _ _ _ _ E Ha1 Ht1 (create_finalize_ok _ _ _))
      as (Hs2 & Ha2 & Ht2 & tr3 & -> & Ht3 & (Hst & Hd & Hdid)).
    rewrite Hd, Hdid, Hb. cbn. split; [by etrans|]. repeat (split; [done|]).
    split; [by eapply mst_map_mono|]. exists (rev_create st). split; [done|]. split; [done|].
    pose proof (stored_commit (wblocks w') (signing_key self) _ a0 (builder_bytes b) (repo_root repo) ∅ tr3
                  Ha2 Ht3 Hst) as Hc.
    rewrite Hb in Hc. cbn in Hc. eapply Hc; [done| |exact Hsig|by eapply mst_map_mono].
    rewrite <- Hb. apply builder_bytes_view.
Qed.

Lemma chain_and_sign_Ok (self : Writer) prev b tr w c tr' w' data rev m :
  chain_and_sign self prev b tr w = (Ok (c, tr'), w') -> addressed (wblocks w) ->
  present (wblocks w) tr -> builder_view b = MkUnsigned (did self) 3 data rev None ->
  mst_map (wblocks w) data = Some m ->
  wblocks w ⊆ wblocks w' /\ addressed (wblocks w') /\ present (wblocks w') tr' /\
  (exists tr2, tr' = tr ++ tr2 /\ c ∈ tr2) /\
  commit_at (wblocks w') (signing_key self) (did self) c m rev (Some prev).
Proof.
  intros E Ha Ht Hb Hmap. unfold chain_and_sign in E. se_inv E. apply sign_Ok in Hm as [Hsig ->].
  destruct (prog_meets _ _ _ _ _ _ _ _ E Ha Ht (commit_finalize_ok _ _ _))
    as (Hs2 & Ha2 & Ht2 & tr3 & -> & Ht3 & Hst).
  repeat (split; [done|]).
  split. { exists tr3. split; [done|]. by destruct Hst as (? & _ & _ & ?). }
  pose proof (builder_prev_view prev b) as Hv. rewrite Hb in Hv. cbn in Hv.
  pose proof (stored_commit (wblocks w') (signing_key self) _ a
                (builder_bytes (builder_prev prev b)) c m tr3 Ha2 Ht3 Hst) as Hc.
  rewrite Hv in Hc. cbn in Hc. eapply Hc; [done| |exact Hsig|by eapply mst_map_mono].
  rewrite <- Hv. apply builder_bytes_view.
Qed.

(** What an operation does to the records, and the label it goes by. *)
Definition op_records (o : WriteOp) (rc : option Cid) m : records Cid :=
  match o, rc with
  | WCreate key _, Some c | WUpdate key _, Some c => <[key := c]> m
  | WDelete key, _ => delete key m
  | _, None => m
  end.

Definition op_label (o : WriteOp) : string * string :=
  match o with
  | WCreate key _ => ("create", key)
  | WUpdate key _ => ("update", key)
  | WDelete key => ("delete", key)
  end.

(** The record an operation carries is a stored, written block. *)
Definition op_stored bm tr (o : WriteOp) (rc : option Cid) : Prop :=
  match o with
  | WCreate _ rec | WUpdate _ rec =>
      exists c blk, rc = Some c /\ c ∈ tr /\ to_vec rec = Ok blk /\ bm !! c = Some blk
  | WDelete _ => rc = None
  end.

Lemma op_stored_mono bm bm' tr tr' o rc :
  bm ⊆ bm' -> tr ⊆ tr' -> op_stored bm tr o rc -> op_stored bm' tr' o rc.
Proof.
  intros Hs Ht. destruct o; simpl; try done; intros (c & blk & -> & Hc & Hv & Hl);
    exists c, blk; (repeat split; [by apply Ht|done|by eapply lookup_weaken]).
Qed.

(** Storing a record and rebuilding the tree, then signing. *)
Lemma record_op_Ok (self : Writer) (p : BProg Cid (Builder * Cid)) repo rev rec key tr w w' m
    b c0 tr1 w1 c tr' :
  prog id p tr w = (Ok ((b, c0), tr1), w1) ->
  chain_and_sign self (repo_root repo) b tr1 w1 = (Ok (c, tr'), w') ->
  addressed (wblocks w) -> present (wblocks w) tr -> repo_did repo = did self ->
  meets p (wblocks w) (fun bc bm' tr =>
    stored_as rec bc.2 tr /\
    exists root, builder_view bc.1 = MkUnsigned (repo_did repo) 3 root rev None /\
      mst_map bm' root = Some (<[key := bc.2]> m)) ->
  wblocks w ⊆ wblocks w' /\ addressed (wblocks w') /\ present (wblocks w') tr' /\ c ∈ tr' /\
  commit_at (wblocks w') (signing_key self) (did self) c (<[key := c0]> m) rev
    (Some (repo_root repo)) /\
  exists blk, c0 ∈ tr' /\ to_vec rec = Ok blk /\ wblocks w' !! c0 = Some blk.
Proof.
  intros E1 E2 Ha Ht Hdid HQ.
  destruct (prog_meets _ _ _ _ _ _ _ _ E1 Ha Ht HQ)
    as (Hs1 & Ha1 & Ht1 & tr2 & -> & Ht2 & (Hst & root & Hb & Hmap)).
  cbn in Hst, Hb, Hmap. rewrite Hdid in Hb.
  destruct (chain_and_sign_Ok _ _ _ _ _ _ _ _ _ _ _ E2 Ha1 Ht1 Hb Hmap)
    as (Hs2 & Ha2 & Ht3 & (tr3 & -> & Hc) & Hat).
  split; [by etrans|]. repeat (split; [done|]). split; [set_solver|]. split; [done|].
  destruct (stored_as_lookup _ _ _ _ Ha1 Ht2 Hst) as (blk & Hv & Hl).
  exists blk. destruct Hst as (? & _ & _ & Hin). split; [set_solver|].
  split; [done|by eapply lookup_weaken].
Qed.

Lemma apply_op_Ok (self : Writer) st repo o tr w action key rc c tr' w' m :
  apply_op self st repo o tr w = (Ok (action, key, rc, c, tr'), w') ->
  addressed (wblocks w) -> present (wblocks w) tr -> repo_did repo = did self ->
  mst_map (wblocks w) (repo_data repo) = Some m ->
  wblocks w ⊆ wblocks w' /\ addressed (wblocks w') /\ present (wblocks w') tr' /\ c ∈ tr' /\
  commit_at (wblocks w') (signing_key self) (did self) c (op_records o rc m) (rev_now st)
    (Some (repo_root repo)) /\
  op_stored (wblocks w') tr' o rc /\ (action, key) = op_label o.
Proof.
  intros E Ha Ht Hdid Hmap. destruct o as [k rec|k rec|k]; cbn [apply_op] in E; se_inv E;
    unfold ret in E; simplify_eq/=.
  - destruct a as [[b c0] tr1], a0 as [c tr']. cbn in *.
    destruct (record_op_Ok _ _ _ _ _ _ _ _ _ _ _ _ _ _ _ _ Hm Hm0 Ha Ht Hdid
                (add_raw_ok _ _ _ _ _ _ Hmap)) as (? & ? & ? & ? & ? & blk & ? & ? & ?).
    repeat (split; [done|]). split; [|done]. by exists c0, blk.
  - destruct a as [[b c0] tr1], a0 as [c tr']. cbn in *.
    destruct (record_op_Ok _ _ _ _ _ _ _ _ _ _ _ _ _ _ _ _ Hm Hm0 Ha Ht Hdid
                (update_raw_ok _ _ _ _ _ _ Hmap)) as (? & ? & ? & ? & ? & blk & ? & ? & ?).
    repeat (split; [done|]). split; [|done]. by exists c0, blk.
  - destruct a as [b tr1], a0 as [c tr']. cbn in *.
    destruct (prog_meets _ _ _ _ _ _ _ _ Hm Ha Ht (delete_raw_ok _ _ _ _ _ Hmap))
      as (Hs1 & Ha1 & Ht1 & tr2 & -> & Ht2 & (root & Hb & Hmap')). rewrite Hdid in Hb.
    destruct (chain_and_sign_Ok _ _ _ _ _ _ _ _ _ _ _ Hm0 Ha1 Ht1 Hb Hmap')
      as (Hs2 & Ha2 & Ht3 & (tr3 & -> & Hc) & Hat).
    split; [by etrans|]. repeat (split; [done|]). split; [set_solver|]. done.
Qed.

(** Reading back never changes the view. *)
Lemma read_block_view c w r w' : read_block c w = (r, w') -> wview w' = wview w /\ snd w' = snd w.
Proof.
  destruct w as [s pub]. unfold read_block, on_store, wview. destruct (read_block_ok c s) as [Hv _].
  destruct (read_block_bytes c s) as [x s']. by intros [= _ <-].
Qed.

Definition stored_blocks bm (l : list (Cid * bytes)) : Prop :=
  Forall (fun cb => bm !! cb.1 = Some cb.2) l.

Lemma read_blocks_Ok cids w l w' :
  read_blocks cids w = (Ok l, w') ->
  wview w' = wview w /\ snd w' = snd w /\ l.*1 = cids /\ stored_blocks (wblocks w) l.
Proof.
  revert w l. induction cids as [|c cids IH]; intros w l; cbn [read_blocks].
  { unfold ret. intros [= <- <-]. split_and!; try done; constructor. }
  intros E. se_inv E. unfold ret in E. simplify_eq.
  pose proof (read_block_view _ _ _ _ Hm) as [Hv Hp]. apply read_block_Ok in Hm.
  apply IH in Hm0 as (Hv' & Hp' & <- & Hl). unfold wblocks in *. rewrite Hv in Hv', Hl.
  split; [done|]. split; [congruence|]. split; [done|]. by constructor.
Qed.

Lemma commit_rev_Ok ctx c w rev w' k acct m rev' prev :
  commit_rev ctx c w = (Ok rev, w') -> commit_at (wblocks w) k acct c m rev' prev ->
  rev = rev' /\ wview w' = wview w /\ snd w' = snd w.
Proof.
  unfold commit_rev. intros E (blk & data & sig & pre & Hl & Hv & _). se_inv E.
  unfold ret in E. pose proof (read_block_view _ _ _ _ Hm) as [Hvw Hp].
  apply read_block_Ok in Hm. rewrite Hl in Hm. injection Hm as <-.
  unfold repo_err, lift in Hm0. rewrite (header_of_signed _ _ Hv) in Hm0. cbn in Hm0. by simplify_eq.
Qed.

Lemma persist_Ok (self : Writer) l body w body' w' :
  persist self l body w = (Ok body', w') -> stored_blocks (wblocks w) l ->
  exists ev, let seq := i64_add (rv_next (wview w)) 1 in
    to_vec body = Ok ev /\ body' = with_seq seq body /\ snd w' = snd w /\
    wview w' = MkRepoView (wblocks w) (<[did self := cb_commit body]> (rv_roots (wview w)))
                 (rv_log (wview w) ++ [(seq, ev)]) seq.
Proof.
  intros E Hl. unfold persist in E. se_inv E. unfold ret in E. simplify_eq. unfold repo_err, lift in Hm.
  injection Hm as Hm <-. apply map_err_Ok in Hm. exists a. split; [done|].
  destruct w as [s pub]. unfold on_store in Hm0.
  destruct (commit_blocks_ok l (did self) (cb_commit body) a s) as [(e & s2 & E & _)|(s2 & E & Hv)];
    rewrite E in Hm0; simplify_eq/=. split; [done|]. split; [done|].
  unfold wview, wblocks, wview in *. cbn in *. rewrite Hv. f_equal. apply insert_blocks_stored.
  eapply Forall_impl; [exact Hl|]. intros cb Hcb. exists cb.2. exact Hcb.
Qed.


Definition sent (publish : Publish) (body : CommitBody Cid) : list FirehoseEvent :=
  match publish with
  | Broadcast => [MkFirehoseEvent (cb_seq body) (encode_message_frame "#commit" body)]
  | Never => []
  end.

(** [committed self st w w' m m' ops publish body]: between [w] and [w'] the
    account's repository went from the records [m] to [m'] by exactly one
    commit, announced by [body]: signed, chained to the previous root (or to the
    empty first commit), under the fresh revision; the root now names it; the
    log has one row more, under the next number, holding the event numbered 0;
    the CAR lists stored blocks, each once, the commit among them; other
    accounts' roots and all earlier rows are as before. *)
Definition committed (self : Writer) (st : Stamps) w w' m m' (ops : list (RepoOp Cid))
    (publish : Publish) (body : CommitBody Cid) (l : list (Cid * bytes)) : Prop :=
  let mr := rv_roots (wview w) !! did self in
  let seq := i64_add (rv_next (wview w)) 1 in
  wblocks w ⊆ wblocks w' /\ addressed (wblocks w') /\
  (exists prev rev0 ev,
    base_commit (wblocks w') (signing_key self) (did self) mr st prev m rev0 /\
    commit_at (wblocks w') (signing_key self) (did self) (cb_commit body) m' (rev_now st)
      (Some prev) /\
    cb_since body = (match mr with Some _ => Some rev0 | None => None end) /\
    to_vec (with_seq 0 body) = Ok ev /\
    wview w' = MkRepoView (wblocks w') (<[did self := cb_commit body]> (rv_roots (wview w)))
                 (rv_log (wview w) ++ [(seq, ev)]) seq) /\
  cb_seq body = seq /\ cb_repo body = did self /\ cb_rev body = rev_now st /\ cb_ops body = ops /\
  car_encode (cb_commit body) l = Ok (cb_blocks body) /\ stored_blocks (wblocks w') l /\
  NoDup l.*1 /\ cb_commit body ∈ l.*1 /\
  snd w' = snd w ++ sent publish body.

(** From the signed commit to the log: the part both writes end with. *)
Lemma seal_Ok (self : Writer) st mr w w1 w2 w3 w4 w5 m m' repo_c rev0 c tr l car since ops body ctx :
  rv_roots (wview w) !! did self = mr -> grows w w1 -> addressed (wblocks w1) ->
  base_commit (wblocks w1) (signing_key self) (did self) mr st repo_c m rev0 ->
  commit_at (wblocks w1) (signing_key self) (did self) c m' (rev_now st) (Some repo_c) -> c ∈ tr ->
  read_blocks (diff_blocks tr) w1 = (Ok l, w2) -> car_encode c l = Ok car ->
  wview w3 = wview w2 -> snd w3 = snd w2 ->
  since_of ctx mr repo_c w3 = (Ok since, w4) ->
  persist self l (commit_body self st c (rev_now st) since car ops) w4 = (Ok body, w5) ->
  committed self st w w5 m m' ops Never body l /\ wblocks w5 = wblocks w1 /\ cb_commit body = c.
Proof.
  intros Hmr (Hp1 & Hv1 & Hs1 & _) Ha Hbase Hc Hin Hl Hcar Hv3 Hp3 Hsince Hper.
  apply read_blocks_Ok in Hl as (Hv2 & Hp2 & Hl1 & Hl).
  assert (since = match mr with Some _ => Some rev0 | None => None end /\
          wview w4 = wview w3 /\ snd w4 = snd w3) as (-> & Hv4 & Hp4).
  { destruct mr as [r|]; cbn [since_of] in Hsince; [|by unfold ret in Hsince; simplify_eq].
    se_inv Hsince. unfold ret in Hsince. simplify_eq. destruct Hbase as (-> & prev & Hb).
    assert (wblocks w3 = wblocks w1) as Hb3 by (unfold wblocks; congruence).
    rewrite <- Hb3 in Hb. destruct (commit_rev_Ok _ _ _ _ _ _ _ _ _ _ Hm Hb) as (-> & ? & ?). done. }
  assert (wblocks w4 = wblocks w1) as Hb4 by (unfold wblocks; congruence).
  rewrite <- Hb4 in Hl.
  destruct (persist_Ok _ _ _ _ _ _ Hper Hl) as (ev & Hev & -> & Hp5 & Hv5).
  assert (wview w4 = rv_with_blocks (wblocks w1) (wview w)) as Hvw by congruence.
  assert (wblocks w5 = wblocks w1) as Hb5 by (unfold wblocks in *; rewrite Hv5; done).
  rewrite Hvw in Hv5. cbn in Hv5. destruct (diff_blocks_ok tr) as [Hnd Hmem].
  split; [|by rewrite Hb5]. unfold committed. rewrite Hb5, Hmr, Hvw. cbn. rewrite <- Hb4 at 3. rewrite Hl1. rewrite Hb4 in Hl.
  split_and!; try done.
  - exists repo_c, rev0, ev. split_and!; try done. by rewrite Hv5, Hb4.
  - by rewrite Hb4.
  - by apply Hmem.
  - rewrite app_nil_r. congruence.
Qed.


(** From reading the root to an open repository. *)
Lemma start_Ok (self : Writer) st w mr w0 repo tr w1 m :
  on_store (load_repo_root (did self)) w = (Ok mr, w0) ->
  open_or_create self st mr w0 = (Ok (repo, tr), w1) -> addressed (wblocks w) ->
  current (wblocks w) (signing_key self) (did self) (rv_roots (wview w) !! did self) m ->
  rv_roots (wview w) !! did self = mr /\ grows w w1 /\ addressed (wblocks w1) /\
  present (wblocks w1) tr /\ repo_did repo = did self /\
  mst_map (wblocks w1) (repo_data repo) = Some m /\
  exists rev, base_commit (wblocks w1) (signing_key self) (did self) mr st (repo_root repo) m rev.
Proof.
  intros E1 E2 Ha Hcur. pose proof (keeps_load _ _ _ _ E1) as G1. apply load_Ok in E1 as ->.
  assert (keeps (open_or_create (St := St) self st (rv_roots (wview w) !! did self))) as Hk
    by (unfold open_or_create, sign; keeps).
  pose proof (Hk _ _ _ E2) as G2. pose proof G1 as (_ & Hv & Hs & Had).
  destruct (open_or_create_Ok _ _ _ _ _ _ _ m E2 (Had Ha)) as (? & ? & ? & ? & ? & ?).
  { unfold current in *. destruct (_ !! _); [|done]. destruct Hcur as (rev & prev & Hc).
    exists rev, prev. by eapply commit_at_mono. }
  split; [done|]. split; [by eapply grows_trans|]. done.
Qed.

Lemma broadcast_Ok publish (body : CommitBody Cid) w u w' :
  broadcast publish body w = (Ok u, w') ->
  wview w' = wview w /\ snd w' = snd w ++ sent publish body.
Proof.
  destruct publish, w as [s pub]; cbn; unfold ret; intros E; simplify_eq/=; [done|].
  by rewrite app_nil_r.
Qed.

Lemma committed_broadcast (self : Writer) st w w1 w2 m m' ops publish body l u :
  committed self st w w1 m m' ops Never body l -> broadcast publish body w1 = (Ok u, w2) ->
  committed self st w w2 m m' ops publish body l.
Proof.
  intros Hc E. apply broadcast_Ok in E as [Hv Hp]. unfold committed, wblocks in *.
  rewrite Hv, Hp. destruct Hc as (? & ? & ? & ? & ? & ? & ? & ? & ? & ? & ? & ->).
  cbn [sent] in *. rewrite app_nil_r. by split_and!.
Qed.

(** ** Batches *)

Lemma diff_write_ok (b : bytes) bm :
  meets (diff_write b) bm (fun c _ tr => c = cid_of DAG_CBOR b /\ c ∈ tr).
Proof.
  intros _ fails r bm' tr Hx. unfold diff_write in Hx. inversion Hx; subst.
  - match goal with X : bexec _ (BRet _) _ _ _ _ |- _ => inversion X; subst end.
    simpl in *. simplify_eq. split; [done|by left].
  - match goal with X : bexec _ (BRet _) _ _ _ _ |- _ => inversion X end.
  - match goal with X : bexec _ (BRet _) _ _ _ _ |- _ => inversion X end.
Qed.

Definition prepared bm tr (o : WriteOp) (p : Prepared (Cid := Cid)) : Prop :=
  op_stored bm tr o (pr_cid p) /\ (pr_action p, pr_key p) = op_label o.

Lemma prepared_mono bm bm' tr tr' o p :
  bm ⊆ bm' -> tr ⊆ tr' -> prepared bm tr o p -> prepared bm' tr' o p.
Proof. intros Hs Ht [Hst Hl]. split; [by eapply op_stored_mono|done]. Qed.

Lemma prepare_one_Ok o tr w p tr' w' :
  prepare_one o tr w = (Ok (p, tr'), w') -> addressed (wblocks w) -> present (wblocks w) tr ->
  wblocks w ⊆ wblocks w' /\ addressed (wblocks w') /\ present (wblocks w') tr' /\ tr ⊆ tr' /\
  prepared (wblocks w') tr' o p.
Proof.
  assert (forall action key (rec : Ipld), prepare_record action key rec tr w = (Ok (p, tr'), w') ->
    addressed (wblocks w) -> present (wblocks w) tr ->
    wblocks w ⊆ wblocks w' /\ addressed (wblocks w') /\ present (wblocks w') tr' /\ tr ⊆ tr' /\
    pr_action p = action /\ pr_key p = key /\
    exists c blk, pr_cid p = Some c /\ c ∈ tr' /\ to_vec rec = Ok blk /\
      wblocks w' !! c = Some blk) as Hrec.
  { intros action key rec E Ha Ht. unfold prepare_record in E. se_inv E.
    unfold repo_err, lift in Hm. injection Hm as Hv <-. apply map_err_Ok in Hv.
    destruct a0 as [c tr1]. unfold ret in E. simplify_eq/=.
    destruct (prog_meets _ _ _ _ _ _ _ _ Hm0 Ha Ht (diff_write_ok _ _))
      as (Hs & Ha' & Ht' & tr2 & -> & Ht2 & Hc & Hin).
    assert (stored_as rec c tr2) as Hst by by exists a.
    destruct (stored_as_lookup _ _ _ _ Ha' Ht2 Hst) as (blk & Hv' & Hl).
    repeat (split; [done|]). split; [set_solver|]. split; [done|]. split; [done|].
    exists c, blk. repeat split; try done. set_solver. }
  destruct o as [k rec|k rec|k]; cbn [prepare_one]; intros E Ha Ht.
  1,2: destruct (Hrec _ _ _ E Ha Ht) as (? & ? & ? & ? & Ea & Ek & c & blk & Hc & ? & ? & ?);
    repeat (split; [done|]); (split; [by exists c, blk|by rewrite Ea, Ek]).
  unfold ret in E. simplify_eq. repeat (split; [done|]). done.
Qed.

Lemma prepare_Ok ops : forall tr w ps tr' w',
  prepare ops tr w = (Ok (ps, tr'), w') -> addressed (wblocks w) -> present (wblocks w) tr ->
  wblocks w ⊆ wblocks w' /\ addressed (wblocks w') /\ present (wblocks w') tr' /\ tr ⊆ tr' /\
  Forall2 (prepared (wblocks w') tr') ops ps.
Proof.
  induction ops as [|o ops IH]; intros tr w ps tr' w' E Ha Ht; cbn [prepare] in E.
  { unfold ret in E. simplify_eq. repeat (split; [done|]). constructor. }
  se_inv E. destruct a as [p tr1], a0 as [l tr2]. unfold ret in E. simplify_eq/=.
  destruct (prepare_one_Ok _ _ _ _ _ _ Hm Ha Ht) as (Hs1 & Ha1 & Ht1 & Hi1 & Hp).
  destruct (IH _ _ _ _ _ Hm0 Ha1 Ht1) as (Hs2 & Ha2 & Ht2 & Hi2 & Hps).
  split; [by etrans|]. repeat (split; [done|]). split; [by etrans|].
  constructor; [by eapply prepared_mono|done].
Qed.

(** The records after a batch, given the identifiers the records got. *)
Fixpoint batch_records (l : list (WriteOp * option Cid)) m : records Cid :=
  match l with
  | [] => m
  | (o, rc) :: l => batch_records l (op_records o rc m)
  end.

Lemma tree_step_Ok bm0 tr0 o p root tr w root' tr' w' m :
  tree_step p root tr w = (Ok (root', tr'), w') -> prepared bm0 tr0 o p ->
  addressed (wblocks w) -> present (wblocks w) tr -> mst_map (wblocks w) root = Some m ->
  wblocks w ⊆ wblocks w' /\ addressed (wblocks w') /\ present (wblocks w') tr' /\ tr ⊆ tr' /\
  mst_map (wblocks w') root' = Some (op_records o (pr_cid p) m).
Proof.
  intros E [Hst Hlab] Ha Ht Hmap. destruct p as [action key rc]. cbn in *. unfold tree_step in E.
  cbn [pr_cid pr_action pr_key] in E.
  destruct o as [k rec|k rec|k]; cbn in Hlab, Hst; simplify_eq/=;
    try destruct Hst as (c & blk & -> & _); cbn in E.
  - destruct (prog_meets _ _ _ _ _ _ _ _ E Ha Ht (tree_add_ok _ _ _ _ _ Hmap))
      as (? & ? & ? & tr2 & -> & _ & ?). split_and!; try done. set_solver.
  - destruct (prog_meets _ _ _ _ _ _ _ _ E Ha Ht (tree_update_ok _ _ _ _ _ Hmap))
      as (? & ? & ? & tr2 & -> & _ & ?). split_and!; try done. set_solver.
  - destruct (prog_meets _ _ _ _ _ _ _ _ E Ha Ht (tree_delete_ok _ _ _ _ Hmap))
      as (? & ? & ? & tr2 & -> & _ & ?). split_and!; try done. set_solver.
Qed.

Lemma tree_steps_Ok bm0 tr0 ops ps : Forall2 (prepared bm0 tr0) ops ps ->
  forall root tr w root' tr' w' m,
  tree_steps ps root tr w = (Ok (root', tr'), w') ->
  addressed (wblocks w) -> present (wblocks w) tr -> mst_map (wblocks w) root = Some m ->
  wblocks w ⊆ wblocks w' /\ addressed (wblocks w') /\ present (wblocks w') tr' /\ tr ⊆ tr' /\
  mst_map (wblocks w') root' = Some (batch_records (zip ops (map pr_cid ps)) m).
Proof.
  induction 1 as [|o p ops ps Hp _ IH]; intros root tr w root' tr' w' m E Ha Ht Hmap;
    cbn [tree_steps] in E.
  { unfold ret in E. by simplify_eq. }
  se_inv E. destruct a as [r1 tr1]. cbn [fst snd] in E.
  destruct (tree_step_Ok _ _ _ _ _ _ _ _ _ _ _ Hm Hp Ha Ht Hmap) as (Hs1 & Ha1 & Ht1 & Hi1 & Hm1).
  destruct (IH _ _ _ _ _ _ _ E Ha1 Ht1 Hm1) as (Hs2 & Ha2 & Ht2 & Hi2 & Hm2).
  split; [by etrans|]. repeat (split; [done|]). split; [by etrans|]. done.
Qed.

Lemma write_commit_Ok (self : Writer) st prev data tr w c tr' w' m :
  write_commit self st prev data tr w = (Ok (c, tr'), w') -> addressed (wblocks w) ->
  present (wblocks w) tr -> mst_map (wblocks w) data = Some m ->
  wblocks w ⊆ wblocks w' /\ addressed (wblocks w') /\ tr ⊆ tr' /\ c ∈ tr' /\
  commit_at (wblocks w') (signing_key self) (did self) c m (rev_now st) (Some prev).
Proof.
  intros E Ha Ht Hmap. unfold write_commit in E. se_inv E.
  unfold repo_err, lift in Hm, Hm1. injection Hm as Hp <-. injection Hm1 as Hv <-.
  apply map_err_Ok in Hp, Hv. apply sign_Ok in Hm0 as [Hsig ->].
  destruct (prog_meets _ _ _ _ _ _ _ _ E Ha Ht (diff_write_ok _ _))
    as (Hs & Ha' & Ht' & tr2 & -> & Ht2 & Hc & Hin).
  assert (stored_as (signed_of (MkUnsigned (did self) 3 data (rev_now st) (Some prev)) a0) c tr2)
    as Hst by by exists a1.
  split_and!; try done; [set_solver|set_solver|].
  apply (stored_commit (wblocks w') _ _ a0 a _ _ _ Ha' Ht2 Hst); try done. by eapply mst_map_mono.
Qed.

(** ** Failures *)

(** [clean m]: a failing [m] only adds blocks. *)
Definition clean {A} (x : SE (World (St := St)) RepoError A) : Prop :=
  forall w e w', x w = (Err e, w') -> grows w w'.

Lemma keeps_clean {A} (x : SE (World (St := St)) RepoError A) : keeps x -> clean x.
Proof. intros Hk w e w'. apply Hk. Qed.

Lemma clean_bind {A B} (x : SE World RepoError A) (k : A -> SE World RepoError B) :
  keeps x -> (forall a, clean (k a)) -> clean (bind x k).
Proof.
  intros Hk Hc w e w' E. apply bind_Err in E as [E|(a & w1 & E1 & E2)]; [by eapply Hk|].
  eapply grows_trans; [by eapply Hk|by eapply Hc].
Qed.

(** Nothing after a last step that can fail. *)
Lemma clean_last {A B} (x : SE World RepoError A) (k : A -> SE World RepoError B) :
  clean x -> (forall a w, is_ok (fst (k a w)) = true) -> clean (bind x k).
Proof.
  intros Hx Hk w e w' E. apply bind_Err in E as [E|(a & w1 & _ & E2)]; [by eapply Hx|].
  specialize (Hk a w1). by rewrite E2 in Hk.
Qed.

Lemma clean_persist (self : Writer) l body : clean (persist (St := St) self l body).
Proof.
  unfold persist. apply clean_bind; [apply keeps_lift|]. intros ev. apply clean_last; [|done].
  intros [s pub] e w' E. unfold on_store in E.
  destruct (commit_blocks_ok l (did self) (cb_commit body) ev s) as [(x & s2 & E2 & Hv)|(s2 & E2 & Hv)];
    rewrite E2 in E; simplify_eq/=.
  unfold grows, wblocks, wview. cbn. rewrite Hv. split; [done|]. split; [apply rv_with_blocks_id|done].
Qed.

Lemma keeps_read_blocks cids : keeps (read_blocks (St := St) cids).
Proof. induction cids as [|c cids IH]; cbn [read_blocks]; keeps. apply IH. Qed.

Lemma keeps_since ctx mr c : keeps (since_of (St := St) ctx mr c).
Proof. unfold since_of, commit_rev, repo_err. keeps. Qed.

Lemma keeps_open (self : Writer) st mr : keeps (open_or_create (St := St) self st mr).
Proof. unfold open_or_create, sign. keeps. Qed.

Lemma keeps_apply_op (self : Writer) st repo o tr : keeps (apply_op (St := St) self st repo o tr).
Proof. unfold apply_op, chain_and_sign, sign. keeps. Qed.

Lemma keeps_prepare ops tr : keeps (prepare (St := St) ops tr).
Proof.
  revert tr. induction ops as [|o ops IH]; intros tr; cbn [prepare];
    unfold prepare_one, prepare_record, repo_err; keeps. apply IH.
Qed.

Lemma keeps_tree_steps ps root tr : keeps (tree_steps (St := St) ps root tr).
Proof.
  revert root tr. induction ps as [|p ps IH]; intros root tr; cbn [tree_steps];
    unfold tree_step; keeps. apply IH.
Qed.

Lemma keeps_write_commit (self : Writer) st prev data tr :
  keeps (write_commit (St := St) self st prev data tr).
Proof. unfold write_commit, repo_err, sign. keeps. Qed.

Lemma broadcast_total publish (body : CommitBody Cid) (w : World (St := St)) :
  exists w', broadcast publish body w = (Ok tt, w').
Proof. destruct publish, w; by eexists. Qed.

Lemma clean_commit_op (self : Writer) st o publish : clean (commit_op (St := St) self st o publish).
Proof.
  unfold commit_op. apply clean_bind; [apply keeps_load|]. intros mr.
  apply clean_bind; [apply keeps_open|]. intros rt. cbn zeta.
  apply clean_bind; [apply keeps_apply_op|]. intros [[[[action key] rc] c] tr].
  apply clean_bind; [apply keeps_read_blocks|]. intros l.
  apply clean_bind; [apply keeps_lift|]. intros car.
  apply clean_bind; [unfold commit_rev, repo_err; keeps|]. intros rev.
  apply clean_bind; [apply keeps_since|]. intros since.
  apply clean_last; [apply clean_persist|]. intros body w. unfold bind.
  by destruct (broadcast_total publish body w) as [w' ->].
Qed.

Lemma clean_apply_many (self : Writer) st ops : clean (apply_many_parts (St := St) self st ops).
Proof.
  unfold apply_many_parts. destruct ops as [|o ops].
  { intros w e w' [= _ <-]. apply grows_refl. }
  apply clean_bind; [apply keeps_load|]. intros mr.
  apply clean_bind; [apply keeps_open|]. intros rt. cbn zeta.
  apply clean_bind; [apply keeps_prepare|]. intros pt.
  apply clean_bind; [apply keeps_tree_steps|]. intros nt.
  apply clean_bind; [apply keeps_write_commit|]. intros ct.
  apply clean_bind; [apply keeps_read_blocks|]. intros l.
  apply clean_bind; [apply keeps_lift|]. intros car.
  apply clean_bind; [apply keeps_since|]. intros since.
  apply clean_last; [apply clean_persist|]. done.
Qed.

(** ** Successes *)

Lemma commit_op_Ok (self : Writer) st o publish (w w' : World (St := St)) out body
    (m : gmap string Cid)
    (Ha : addressed (wblocks w))
    (Hcur : current (wblocks w) (signing_key self) (did self) (rv_roots (wview w) !! did self) m)
    (Hok : commit_op self st o publish w = (Ok (out, body), w')) :
  exists l,
    committed self st w w' m (op_records o (wo_record_cid out) m)
      [MkRepoOp (wo_action out) (wo_key out) (wo_record_cid out)] publish body l /\
    op_stored (wblocks w') l.*1 o (wo_record_cid out) /\
    (wo_action out, wo_key out) = op_label o /\
    wo_commit_cid out = cb_commit body /\ wo_rev out = rev_now st.
Proof.
  unfold commit_op in Hok. se_inv Hok. destruct a0 as [repo tr], a1 as [[[[action key] rc] c] tr'].
  cbn [fst snd] in *. se_inv Hok. unfold ret in Hok. simplify_eq/=.
  destruct (start_Ok _ _ _ _ _ _ _ _ _ Hm Hm0 Ha Hcur)
    as (Hmr & G1 & Ha1 & Ht1 & Hdid & Hmap & rev0 & Hbase).
  pose proof (apply_op_Ok _ _ _ _ _ _ _ _ _ _ _ _ _ Hm1 Ha1 Ht1 Hdid Hmap)
    as (Hs2 & Ha2 & Ht2 & Hin & Hat & Hst & Hlab).
  assert (keeps (apply_op (St := St) self st repo o tr)) as Hk
    by (unfold apply_op, chain_and_sign, sign; keeps).
  pose proof (grows_trans _ _ _ G1 (Hk _ _ _ Hm1)) as G2.
  pose proof (read_blocks_Ok _ _ _ _ Hm2) as (Hv3 & _ & Hl & _).
  unfold repo_err, lift in Hm3. injection Hm3 as Hcar <-. apply map_err_Ok in Hcar.
  assert (wblocks s2 = wblocks s1) as Hb2 by (unfold wblocks; congruence).
  pose proof Hat as Hat'. rewrite <- Hb2 in Hat'.
  destruct (commit_rev_Ok _ _ _ _ _ _ _ _ _ _ Hm4 Hat') as (-> & Hv4 & Hp4).
  destruct (seal_Ok _ _ _ _ _ _ _ _ _ _ _ _ _ _ _ _ _ _ _ _ _ Hmr G2 Ha2
    (base_commit_mono _ _ _ _ _ _ _ _ _ Hs2 Hbase) Hat Hin Hm2 Hcar Hv4 Hp4 Hm5 Hm6)
    as (Hc & Hb6 & Hcid).
  pose proof (committed_broadcast _ _ _ _ _ _ _ _ _ _ _ _ Hc Hm7) as Hc'.
  apply broadcast_Ok in Hm7 as [Hv7 _].
  exists a0. split; [exact Hc'|]. split; [|by rewrite Hcid].
  destruct (diff_blocks_ok tr') as [_ Hmem]. rewrite Hl.
  assert (wblocks w' = wblocks s1) as -> by (unfold wblocks in *; congruence).
  eapply op_stored_mono; [reflexivity| |exact Hst]. intros x Hx. by apply Hmem.
Qed.

Lemma apply_many_Ok (self : Writer) st ops (w w' : World (St := St)) outs body
    (m : gmap string Cid)
    (Ha : addressed (wblocks w))
    (Hcur : current (wblocks w) (signing_key self) (did self) (rv_roots (wview w) !! did self) m)
    (Hok : apply_many_parts self st ops w = (Ok (outs, body), w')) :
  ops <> [] /\ exists l,
    committed self st w w' m (batch_records (zip ops (map wo_record_cid outs)) m)
      (map (fun out => MkRepoOp (wo_action out) (wo_key out) (wo_record_cid out)) outs)
      Never body l /\
    Forall2 (fun o out => op_stored (wblocks w') l.*1 o (wo_record_cid out) /\
      (wo_action out, wo_key out) = op_label o /\
      wo_commit_cid out = cb_commit body /\ wo_rev out = rev_now st) ops outs.
Proof.
  unfold apply_many_parts in Hok. destruct ops as [|o0 ops0]; [done|]. split; [done|].
  set (ops := o0 :: ops0) in *. clearbody ops. se_inv Hok. unfold ret in Hok. simplify_eq.
  destruct a0 as [repo tr], a1 as [ps tr1], a2 as [data tr2], a3 as [c tr3]. cbn [fst snd] in *.
  destruct (start_Ok _ _ _ _ _ _ _ _ _ Hm Hm0 Ha Hcur)
    as (Hmr & G1 & Ha1 & Ht1 & Hdid & Hmap & rev0 & Hbase).
  destruct (prepare_Ok _ _ _ _ _ _ Hm1 Ha1 Ht1) as (Hs2 & Ha2 & Ht2 & Hi2 & Hps).
  assert (mst_map (wblocks s1) (repo_data repo) = Some m) as Hmap1 by by eapply mst_map_mono.
  destruct (tree_steps_Ok _ _ _ _ Hps _ _ _ _ _ _ _ Hm2 Ha2 Ht2 Hmap1)
    as (Hs3 & Ha3 & Ht3 & Hi3 & Hmap2).
  destruct (write_commit_Ok _ _ _ _ _ _ _ _ _ _ Hm3 Ha3 Ht3 Hmap2)
    as (Hs4 & Ha4 & Hi4 & Hin & Hat).
  assert (grows w s3) as G2.
  { eapply grows_trans; [exact G1|].
    eapply grows_trans; [by eapply keeps_prepare|].
    eapply grows_trans; [by eapply keeps_tree_steps|by eapply keeps_write_commit]. }
  unfold repo_err, lift in Hm5. injection Hm5 as Hcar <-. apply map_err_Ok in Hcar.
  pose proof (read_blocks_Ok _ _ _ _ Hm4) as (Hv5 & _ & Hl & _).
  assert (wblocks s0 ⊆ wblocks s3) as Hs by (by etrans; [|etrans]).
  destruct (seal_Ok _ _ _ _ _ _ _ _ _ _ _ _ _ _ _ _ _ _ _ _ _ Hmr G2 Ha4
    (base_commit_mono _ _ _ _ _ _ _ _ _ Hs Hbase) Hat Hin Hm4 Hcar eq_refl eq_refl Hm6 Hm7)
    as (Hc & Hb & Hcid).
  exists a4. split.
  - rewrite !map_map. exact Hc.
  - destruct (diff_blocks_ok tr3) as [_ Hmem]. rewrite Hl, Hb.
    apply Forall2_fmap_r. eapply Forall2_impl; [exact Hps|]. intros o p [Hst Hlab]. cbn.
    split_and!; try done. eapply op_stored_mono; [| |exact Hst]; [by etrans|].
    intros x Hx. apply Hmem, Hi4, Hi3, Hx.
Qed.

(** ** Histories *)

(** The two writes, as one type. *)
Inductive Write := One (o : WriteOp) (publish : Publish) | Many (ops : list WriteOp).

Definition run_write (self : Writer) (st : Stamps) (x : Write)
    : SE (World (St := St)) RepoError (CommitBody Cid) :=
  match x with
  | One o publish => (let! r := commit_op self st o publish in ret (snd r))%se
  | Many ops => (let! r := apply_many_parts self st ops in ret (snd r))%se
  end.

(** [history bm k acct c m]: from [c] the [prev] links lead, through commits of
    [acct] signed by [k], to an empty first commit; [c] stands for [m]. *)
Inductive history bm (k : Keypair) (acct : string) : Cid -> records Cid -> Prop :=
| hist_first c rev : commit_at bm k acct c ∅ rev None -> history bm k acct c ∅
| hist_next c p m m' rev : history bm k acct p m -> commit_at bm k acct c m' rev (Some p) ->
    history bm k acct c m'.

Lemma history_mono bm bm' k acct c m :
  bm ⊆ bm' -> history bm k acct c m -> history bm' k acct c m.
Proof.
  intros Hs. induction 1; [eapply hist_first|eapply hist_next; [eassumption|]];
    by eapply commit_at_mono.
Qed.

(** Every account's root heads a history signed with that account's key. *)
Definition repo_inv (keys : string -> Keypair) w : Prop :=
  addressed (wblocks w) /\
  forall acct root, rv_roots (wview w) !! acct = Some root ->
    exists m, history (wblocks w) (keys acct) acct root m.

Lemma repo_inv_current keys w acct : repo_inv keys w ->
  exists m, current (wblocks w) (keys acct) acct (rv_roots (wview w) !! acct) m /\
    (forall root, rv_roots (wview w) !! acct = Some root ->
      history (wblocks w) (keys acct) acct root m).
Proof.
  intros [_ Hr]. destruct (rv_roots (wview w) !! acct) as [root|] eqn:E.
  - destruct (Hr _ _ E) as [m Hm]. exists m. split; [|by intros ? [= <-]].
    inversion Hm; subst; by eexists _, _.
  - by exists ∅.
Qed.

Lemma committed_inv keys (self : Writer) st w w' m m' ops publish body l :
  repo_inv keys w -> signing_key self = keys (did self) ->
  (forall root, rv_roots (wview w) !! did self = Some root ->
     history (wblocks w) (keys (did self)) (did self) root m) ->
  committed self st w w' m m' ops publish body l -> repo_inv keys w'.
Proof.
  intros [_ Hr] Hk Hhist (Hs & Ha & (prev & rev0 & ev & Hb & Hc & _ & _ & Hv) & _).
  split; [done|]. rewrite Hk in *. rewrite Hv. cbn. intros acct root.
  destruct (decide (acct = did self)) as [->|Hne].
  - rewrite lookup_insert_eq. intros [= <-]. exists m'. eapply hist_next; [|exact Hc].
    destruct (rv_roots (wview w) !! did self) as [r|] eqn:E; cbn in Hb.
    + destruct Hb as [-> _]. eapply history_mono; [done|by apply Hhist].
    + destruct Hb as (-> & -> & Hb). by eapply hist_first.
  - rewrite lookup_insert_ne by done. intros E. destruct (Hr _ _ E) as [m0 Hm0].
    exists m0. by eapply history_mono.
Qed.

Lemma grows_inv keys w w' : grows w w' -> repo_inv keys w -> repo_inv keys w'.
Proof.
  intros (_ & Hv & Hs & Ha) [Had Hr]. split; [by apply Ha|]. rewrite Hv. cbn. intros acct root E.
  destruct (Hr _ _ E) as [m Hm]. exists m. by eapply history_mono.
Qed.

(** A successful write of either kind: one commit, and the inverse of it on the
    log is the row it appended. *)
Lemma run_write_committed (self : Writer) st x w w' body m :
  addressed (wblocks w) ->
  current (wblocks w) (signing_key self) (did self) (rv_roots (wview w) !! did self) m ->
  run_write self st x w = (Ok body, w') ->
  exists m' ops publish l, committed self st w w' m m' ops publish body l.
Proof.
  intros Ha Hcur. destruct x as [o publish|ops]; cbn [run_write]; intros E; se_inv E;
    unfold ret in E; simplify_eq; destruct a as [out body].
  - destruct (commit_op_Ok _ _ _ _ _ _ _ _ _ Ha Hcur Hm) as (l & Hc & _). by eexists _, _, _, _.
  - destruct (apply_many_Ok _ _ _ _ _ _ _ _ Ha Hcur Hm) as (_ & l & Hc & _). by eexists _, _, _, _.
Qed.

Lemma run_write_clean (self : Writer) st x : clean (run_write self st x).
Proof.
  destruct x; cbn [run_write]; (apply clean_last; [|done]);
    [apply clean_commit_op|apply clean_apply_many].
Qed.

(** A run of writes, each under its account's writer; failures are ignored. *)
Fixpoint run_writes (keys : string -> Keypair) (l : list (string * Stamps * Write)) w : World :=
  match l with
  | [] => w
  | (acct, st, x) :: l => run_writes keys l (snd (run_write (MkWriter (keys acct) acct) st x w))
  end.

End Laws.

Section Theorems.
Context `{Digests} {Cid St : Type} `{CidLib Cid} `{Countable Cid} `{StorageBackend Cid St}.
Context `{RepoSerde Cid} `{!Atrium Cid} `{Keypairs} `{CarLib Cid}.
Context `{!RepoStoreOk Cid St} `{!CidLaws Cid} `{!RepoSerdeLaws Cid} `{!KeypairLaws}.
Context `{!AtriumLaws Cid}.

(** ** Properties *)

(** C1: one write is one commit.  If the account's stored root is a signed
    commit over the records [m] (or the account has none and [m] is empty) and
    a write succeeds, then the records become [m] with exactly that key set or
    removed, by exactly one signed commit chained to the previous root, logged
    under the next sequence number, with a CAR of the new blocks; the record is
    stored under the identifier of its own encoding; and the frame is broadcast
    exactly when asked for. *)
Theorem commit_op_effect (self : Writer) st o publish (w w' : World (St := St)) out body
    (m : gmap string Cid)
    (Ha : addressed (wblocks w))
    (Hcur : current (wblocks w) (signing_key self) (did self) (rv_roots (wview w) !! did self) m)
    (Hok : commit_op self st o publish w = (Ok (out, body), w')) :
  exists l,
    committed self st w w' m (op_records o (wo_record_cid out) m)
      [MkRepoOp (wo_action out) (wo_key out) (wo_record_cid out)] publish body l /\
    op_stored (wblocks w') l.*1 o (wo_record_cid out) /\
    (wo_action out, wo_key out) = op_label o /\
    wo_commit_cid out = cb_commit body /\ wo_rev out = rev_now st.
Proof. exact (commit_op_Ok _ _ _ _ _ _ _ _ _ Ha Hcur Hok). Qed.

(** C19: a batch is one commit.  If [apply_many_parts] succeeds, the records are
    those after all its operations in order, reached by exactly one signed
    commit chained to the previous root and one log row; that commit's event
    lists every operation in order, each with its own record, and nothing is
    broadcast by the writer. *)
Theorem apply_many_effect (self : Writer) st ops (w w' : World (St := St)) outs body
    (m : gmap string Cid)
    (Ha : addressed (wblocks w))
    (Hcur : current (wblocks w) (signing_key self) (did self) (rv_roots (wview w) !! did self) m)
    (Hok : apply_many_parts self st ops w = (Ok (outs, body), w')) :
  ops <> [] /\ exists l,
    committed self st w w' m (batch_records (zip ops (map wo_record_cid outs)) m)
      (map (fun out => MkRepoOp (wo_action out) (wo_key out) (wo_record_cid out)) outs)
      Never body l /\
    Forall2 (fun o out => op_stored (wblocks w') l.*1 o (wo_record_cid out) /\
      (wo_action out, wo_key out) = op_label o /\
      wo_commit_cid out = cb_commit body /\ wo_rev out = rev_now st) ops outs.
Proof. exact (apply_many_Ok _ _ _ _ _ _ _ _ Ha Hcur Hok). Qed.

(** C21: a failed write is invisible.  Whatever step a single write or a batch
    fails at (storage, MST, signing, encoding, the final transaction), no root,
    log row, sequence number or broadcast has changed: at most unreferenced
    blocks were added. *)
Theorem failed_write_invisible (self : Writer) st x (w w' : World (St := St)) e
    (Herr : run_write self st x w = (Err e, w')) :
  rv_roots (wview w') = rv_roots (wview w) /\ rv_log (wview w') = rv_log (wview w) /\
  rv_next (wview w') = rv_next (wview w) /\ snd w' = snd w /\
  wblocks w ⊆ wblocks w' /\ (addressed (wblocks w) -> addressed (wblocks w')).
Proof.
  assert (grows w w') as (Hp & Hv & Hs & Ha).
  { by eapply run_write_clean. }
  rewrite Hv. done.
Qed.

(** C2: histories stay whole.  Take any sequence of writes and batches, of any
    accounts in any order, each by the writer holding its account's key, some
    succeeding and some failing at any step.  If every root headed a chain of
    commits of its account, all signed with its key and leading by [prev] to an
    empty first commit, then every root does afterwards; and the log is only
    ever extended, by at most one row per write. *)
Theorem writes_keep_histories (keys : string -> Keypair) (l : list (string * Stamps * Write))
    (w : World (St := St)) (Hinv : repo_inv keys w) :
  repo_inv keys (run_writes keys l w) /\
  exists rows, rv_log (wview (run_writes keys l w)) = rv_log (wview w) ++ rows /\
    (length rows <= length l)%nat.
Proof.
  revert w Hinv. induction l as [|[[acct st] x] l IH]; intros w Hinv; cbn [run_writes].
  { split; [done|]. exists []. by rewrite app_nil_r. }
  destruct (run_write (MkWriter (keys acct) acct) st x w) as [[body|e] w'] eqn:E; cbn [snd].
  - destruct (repo_inv_current _ _ acct Hinv) as (m & Hcur & Hhist).
    destruct (run_write_committed (MkWriter (keys acct) acct) _ _ _ _ _ _ (proj1 Hinv) Hcur E)
      as (m' & ops & publish & bl & Hc).
    pose proof (committed_inv keys (MkWriter (keys acct) acct) _ _ _ _ _ _ _ _ _
                  Hinv eq_refl Hhist Hc) as Hinv'.
    destruct (IH _ Hinv') as (Hi & rows & -> & Hlen). split; [done|].
    destruct Hc as (_ & _ & (? & ? & ev & _ & _ & _ & _ & ->) & _). cbn [rv_log].
    rewrite <- app_assoc. eexists. split; [done|]. simpl. lia.
  - pose proof (run_write_clean _ _ _ _ _ _ E) as Hg.
    destruct (IH _ (grows_inv _ _ _ Hg Hinv)) as (Hi & rows & -> & Hlen). split; [done|].
    destruct Hg as (_ & -> & _). cbn. exists rows. split; [done|]. lia.
Qed.
End Theorems.

(** ** A concrete repository *)

Definition demo_acct : string := "did:a".
Definition demo_keys (acct : string) : Keypair := acct.
Definition demo_writer : Writer := MkWriter (demo_keys demo_acct) demo_acct.
Definition demo_stamps (n : string) : Stamps :=
  {| rev_create := "r0"; rev_now := "r" +:+ n; time_now := "t" +:+ n |}.
Definition demo_world : World (St := Inner string) := (Inner_default, []).

Lemma demo_world_addressed : addressed (wblocks demo_world).
Proof. intros c b E. discriminate E. Qed.

Lemma demo_world_inv : repo_inv demo_keys demo_world.
Proof. split; [apply demo_world_addressed|]. intros acct root E. discriminate E. Qed.

(** A post on a fresh account. *)
Definition demo_post : WriteOp := WCreate "app.x/1" "hello".
Definition demo_commit := commit_op demo_writer (demo_stamps "1") demo_post Broadcast demo_world.

Lemma commit_op_effect_witness :
  match fst demo_commit with
  | Ok (out, body) => exists l,
      committed demo_writer (demo_stamps "1") demo_world (snd demo_commit) ∅
        (op_records demo_post (wo_record_cid out) ∅)
        [MkRepoOp (wo_action out) (wo_key out) (wo_record_cid out)] Broadcast body l /\
      op_stored (wblocks (snd demo_commit)) l.*1 demo_post (wo_record_cid out) /\
      (wo_action out, wo_key out) = ("create", "app.x/1") /\
      wo_commit_cid out = cb_commit body /\ wo_rev out = "r1"
  | Err _ => False
  end.
Proof.
  pose proof (surjective_pairing demo_commit) as E.
  destruct (fst demo_commit) as [[out body]|e] eqn:Ef.
  - exact (commit_op_effect demo_writer (demo_stamps "1") demo_post Broadcast demo_world
             (snd demo_commit) out body ∅ demo_world_addressed eq_refl E).
  - vm_compute in Ef. discriminate Ef.
Defined.

(** A batch that needs an earlier post, and one that brings it. *)
Definition demo_batch_ops : list WriteOp := [WUpdate "app.x/1" "bye"; WCreate "app.y/2" "again"].
Definition demo_batch_fresh : list WriteOp := [WCreate "app.x/1" "hello"; WUpdate "app.x/1" "bye"].
Definition demo_batch1 :=
  apply_many_parts demo_writer (demo_stamps "2") demo_batch_fresh demo_world.

Lemma apply_many_effect_witness :
  match fst demo_batch1 with
  | Ok (outs, body) => demo_batch_fresh <> [] /\ exists l,
      committed demo_writer (demo_stamps "2") demo_world (snd demo_batch1) ∅
        (batch_records (zip demo_batch_fresh (map wo_record_cid outs)) ∅)
        (map (fun out => MkRepoOp (wo_action out) (wo_key out) (wo_record_cid out)) outs)
        Never body l /\
      Forall2 (fun o out => op_stored (wblocks (snd demo_batch1)) l.*1 o (wo_record_cid out) /\
        (wo_action out, wo_key out) = op_label o /\
        wo_commit_cid out = cb_commit body /\ wo_rev out = "r2") demo_batch_fresh outs
  | Err _ => False
  end.
Proof.
  pose proof (surjective_pairing demo_batch1) as E.
  destruct (fst demo_batch1) as [[outs body]|e] eqn:Ef.
  - exact (apply_many_effect demo_writer (demo_stamps "2") demo_batch_fresh demo_world
             (snd demo_batch1) outs body ∅ demo_world_addressed eq_refl E).
  - vm_compute in Ef. discriminate Ef.
Defined.

(** Updating a key that does not exist fails, after the first commit's blocks
    were written. *)
Definition demo_failed := run_write demo_writer (demo_stamps "2") (Many demo_batch_ops) demo_world.

Lemma failed_write_invisible_witness :
  exists e, fst demo_failed = Err e /\
    rv_roots (wview (snd demo_failed)) = ∅ /\ rv_log (wview (snd demo_failed)) = [] /\
    snd (snd demo_failed) = [].
Proof.
  pose proof (surjective_pairing demo_failed) as E.
  destruct (fst demo_failed) as [body|e] eqn:Ef; [vm_compute in Ef; discriminate Ef|].
  exists e. split; [reflexivity|].
  destruct (failed_write_invisible demo_writer (demo_stamps "2") (Many demo_batch_ops) demo_world
              (snd demo_failed) e E) as (Hr & Hl & _ & Hp & _).
  split; [exact Hr|split; [exact Hl|exact Hp]].
Defined.

Definition demo_writes : list (string * Stamps * Write) :=
  [(demo_acct, demo_stamps "1", One demo_post Broadcast);
   ("did:b", demo_stamps "2", Many demo_batch_ops);
   (demo_acct, demo_stamps "3", Many demo_batch_ops)].

Lemma writes_keep_histories_witness :
  repo_inv demo_keys (run_writes demo_keys demo_writes demo_world) /\
  (exists rows, rv_log (wview (run_writes demo_keys demo_writes demo_world)) = [] ++ rows /\
    (length rows <= 3)%nat).
Proof. exact (writes_keep_histories demo_keys demo_writes demo_world demo_world_inv). Defined.

(** The run: two commits of one account, one failed batch of another. *)
Example demo_writes_log :
  map fst (rv_log (wview (run_writes demo_keys demo_writes demo_world))) = [1; 2].
Proof. vm_compute. reflexivity. Qed.
