(* ===== verification/RepoRead.v ===== *)
(** * Reading a repository

    [src/rust-core/src/repo/read.rs]: one record, a page of a collection, the
    collections, the latest commit, the whole repository as a CAR.  A tree
    stream is lazy: it is the list of what successive [try_next] calls would
    yield, of which a loop consumes a prefix. *)

From Stdlib Require Import ZArith Lia Ascii.
From S2P Require Import Prelude RustStr Externals Demo Paging StoreTypes MemoryStore MemoryProps.
From S2P Require Import Repo RepoWriter RepoDemo RepoProps.

(** The read half of [atrium_repo]. *)
Class AtriumRead (Cid : Type) `{RepoSerde Cid} `{!Atrium Cid} := {
  tree_get : Cid -> string -> BProg Cid (option Cid);
  tree_entries : (Cid -> result BlockErr bytes) -> Cid -> list (result string (string * Cid));
  tree_entries_prefixed :
    (Cid -> result BlockErr bytes) -> Cid -> string -> list (result string (string * Cid));
  repo_export : Repo -> BProg Cid (list Cid);
  btree_set : list Cid -> list Cid;
}.

Definition str_leb (a b : string) : bool := negb (str_ltb b a).

Section Read.
Context `{Digests} {Cid St : Type} `{CidLib Cid} `{Countable Cid} `{StorageBackend Cid St}.
Context `{RepoSerde Cid} `{!Atrium Cid} `{!AtriumRead Cid} `{CarLib Cid}.
Context {Value : Type} `{Serde Value}.

Notation M A := (SE St RepoError A).

Record RecordEntry := MkRecordEntry { re_key : string; re_cid : Cid; re_value : Value }.
Record RecordPage := MkRecordPage { rp_records : list RecordEntry; rp_cursor : option string }.
Record RepoExport := MkRepoExport { rx_root : Cid; rx_rev : string; rx_car : bytes }.

Definition rd_store {A} (m : SE St StorageError A) : M A := with_err RStorage m.

(** An atrium call through the adapter; a read-only call leaves no trace. *)
Definition rd_prog {A} (p : BProg Cid A) : M A :=
  fun s => let '(r, (s', _)) := run_prog p (s, []) in (map_err RRepo r, s').

(** The stream of a tree over the store as it is. *)
Definition rd_stream {A} (f : (Cid -> result BlockErr bytes) -> A) : M A :=
  fun s => (Ok (f (fun c => fst (adapter_read c s))), s).

Definition decode_record (cid : Cid) (b : bytes) : result RepoError Value :=
  map_err (fun e => RRepo ("decode record " +:+ cid_to_string cid +:+ ": " +:+ e)) (from_slice b).

Definition read_entry (key : string) (cid : Cid) : M RecordEntry :=
  (let! b := rd_store (read_block_bytes cid) in
   let! v := lift (decode_record cid b) in
   ret (MkRecordEntry key cid v))%se.

Definition get_record (did mst_key : string) : M (option RecordEntry) :=
  (let! root := rd_store (load_repo_root did) in
   match root with
   | None => ret None
   | Some root =>
       let! repo := rd_prog (repo_open root) in
       let! c := rd_prog (tree_get (repo_data repo) mst_key) in
       match c with
       | None => ret None
       | Some cid => let! e := read_entry mst_key cid in ret (Some e)
       end
   end)%se.

(** The [while let] loop of [list_records]; [acc] is [records]. *)
Fixpoint list_loop (limit : nat) (cursor : option string)
    (stream : list (result string (string * Cid))) (acc : list RecordEntry)
    : M (list RecordEntry) :=
  match stream with
  | [] => ret acc
  | Err e :: _ => throw (RRepo e)
  | Ok (key, cid) :: stream =>
      if match cursor with Some c => str_leb key c | None => false end
      then list_loop limit cursor stream acc
      else (let! e := read_entry key cid in
            let acc := acc ++ [e] in
            if (limit <=? length acc)%nat then ret acc
            else list_loop limit cursor stream acc)%se
  end.

Definition clamp_limit (limit : nat) : nat := Nat.max 1 (Nat.min limit 100).

Definition list_records (did collection : string) (limit : nat) (cursor : option string)
    : M RecordPage :=
  (let limit := clamp_limit limit in
   let! root := rd_store (load_repo_root did) in
   match root with
   | None => ret (MkRecordPage [] None)
   | Some root =>
       let! repo := rd_prog (repo_open root) in
       let prefix := collection +:+ "/" in
       let! stream := rd_stream (fun rd => tree_entries_prefixed rd (repo_data repo) prefix) in
       let! records := list_loop limit cursor stream [] in
       ret (MkRecordPage records
              (if Nat.eqb (length records) limit then option_map re_key (last records) else None))
   end)%se.

(** The loop of [list_collections]; [out] is the list built so far. *)
Fixpoint collections_loop (stream : list (result string (string * Cid))) (out : list string)
    : result RepoError (list string) :=
  match stream with
  | [] => Ok out
  | Err e :: _ => Err (RRepo e)
  | Ok (key, _) :: stream =>
      match split_once "/" key with
      | Some (collection, _) =>
          if decide (last out = Some collection) then collections_loop stream out
          else collections_loop stream (out ++ [collection])
      | None => collections_loop stream out
      end
  end.

Definition list_collections (did : string) : M (list string) :=
  (let! root := rd_store (load_repo_root did) in
   match root with
   | None => ret []
   | Some root =>
       let! repo := rd_prog (repo_open root) in
       let! stream := rd_stream (fun rd => tree_entries rd (repo_data repo)) in
       lift (collections_loop stream [])
   end)%se.

Definition read_commit_rev (commit : Cid) : M string :=
  (let! b := rd_store (read_block_bytes commit) in
   let! h := lift (map_err (fun e =>
     RRepo ("decode commit " +:+ cid_to_string commit +:+ ": " +:+ e)) (from_slice b)) in
   ret (ch_rev h))%se.

Definition latest_commit (did : string) : M (option (Cid * string)) :=
  (let! root := rd_store (load_repo_root did) in
   match root with
   | None => ret None
   | Some root => let! rev := read_commit_rev root in ret (Some (root, rev))
   end)%se.

(** The loop of [export_car]: read a block, append it. *)
Fixpoint export_loop (cids : list Cid) (w : CarWriter) : M bytes :=
  match cids with
  | [] => lift (map_err (fun e => RRepo ("car finish: " +:+ e)) (car_finish w))
  | cid :: cids =>
      (let! b := rd_store (read_block_bytes cid) in
       let! w := lift (map_err (fun e =>
         RRepo ("car write " +:+ cid_to_string cid +:+ ": " +:+ e)) (car_write w cid b)) in
       export_loop cids w)%se
  end.

Definition export_car (did : string) : M (option RepoExport) :=
  (let! root := rd_store (load_repo_root did) in
   match root with
   | None => ret None
   | Some root =>
       let! rev := read_commit_rev root in
       let! repo := rd_prog (repo_open root) in
       let! cids := rd_prog (repo_export repo) in
       let! car := export_loop (btree_set cids) (car_new root) in
       ret (Some (MkRepoExport root rev car))
   end)%se.

End Read.

(** ** What a read relies on *)

Definition rd_of `{Countable Cid} (bm : gmap Cid bytes) (c : Cid) : result BlockErr bytes :=
  match bm !! c with Some b => Ok b | None => Err CidNotFound end.

(** The entries of a key-to-record map in MST order. *)
Definition entry_le {Cid} (x y : string * Cid) : Prop := String.le x.1 y.1.
#[export] Instance entry_le_dec {Cid} (x y : string * Cid) : Decision (entry_le x y).
Proof. unfold entry_le. apply _. Defined.
Definition sorted_entries {Cid} (m : gmap string Cid) : list (string * Cid) :=
  merge_sort entry_le (map_to_list m).

Class AtriumReadLaws (Cid : Type) `{Digests} `{CidLib Cid} `{Countable Cid} `{RepoSerde Cid}
    `{!Atrium Cid} `{!AtriumRead Cid} `{!AtriumLaws Cid} := {
  repo_open_total c bm b (cm : SignedCommit Cid) r bm' tr : addressed bm -> bm !! c = Some b ->
    from_slice b = Ok cm -> bexec false (repo_open c) bm r bm' tr -> is_ok r = true;
  tree_get_total bm root m key r bm' tr : addressed bm -> mst_map bm root = Some m ->
    bexec false (tree_get root key) bm r bm' tr -> r = Ok (m !! key) /\ tr = [];
  tree_entries_ok bm root m : addressed bm -> mst_map bm root = Some m ->
    tree_entries (rd_of bm) root = map Ok (sorted_entries m);
  tree_entries_prefixed_ok bm root m prefix : addressed bm -> mst_map bm root = Some m ->
    tree_entries_prefixed (rd_of bm) root prefix =
      map Ok (List.filter (fun kc => starts_with prefix kc.1) (sorted_entries m));
  entries_ext f g root : (forall c, f c = g c) -> tree_entries f root = tree_entries g root;
  entries_prefixed_ext f g root prefix : (forall c, f c = g c) ->
    tree_entries_prefixed f root prefix = tree_entries_prefixed g root prefix;
}.

(** ** Order of keys *)

Lemma sorted_entries_ascending {Cid} (m : gmap string Cid) : ascending fst (sorted_entries m).
Proof.
  assert (NoDup (sorted_entries m).*1) as Hn.
  { unfold sorted_entries. rewrite merge_sort_Permutation. apply NoDup_fst_map_to_list. }
  assert (StronglySorted entry_le (sorted_entries m)) as Hs.
  { assert (Transitive (entry_le (Cid := Cid))) by (intros x y z; unfold entry_le; intros; by etrans).
    assert (Total (entry_le (Cid := Cid))) by (intros x y; apply String.le_total).
    apply (StronglySorted_merge_sort entry_le). }
  revert Hn Hs. unfold ascending. induction (sorted_entries m) as [|x l IH]; [constructor|].
  cbn. intros Hn Hs. inversion_clear Hn as [|?? Hnin Hnd]. inversion_clear Hs as [|?? Hss Hf].
  constructor; [by apply IH|]. rewrite Forall_forall in *. intros y Hy.
  apply str_ltb_le_iff. split; [by apply Hf|]. intros E. apply Hnin. rewrite E.
  by apply list_elem_of_fmap_2.
Qed.

Lemma filter_ascending {A} (key : A -> string) f l : ascending key l -> ascending key (List.filter f l).
Proof.
  unfold ascending. induction 1 as [|x l Hl IH Hx]; cbn; [constructor|].
  destruct (f x); [|done]. constructor; [done|]. rewrite Forall_forall in *.
  intros y Hy. apply Hx. apply list_elem_of_In, List.filter_In in Hy as [Hy _].
  by apply list_elem_of_In.
Qed.

Lemma ascii_compare_refl a : Ascii.compare a a = Eq.
Proof. unfold Ascii.compare. apply N.compare_refl. Qed.

Lemma ltb_after_cons a s b t :
  str_ltb (String a s) (String b t) = true <->
  Ascii.compare a b = Lt \/ (a = b /\ str_ltb s t = true).
Proof.
  rewrite !str_ltb_compare. cbn. destruct (Ascii.compare a b) eqn:E.
  - apply Ascii.compare_eq_iff in E as ->. split; [by right|]. intros [|[_ ?]]; done.
  - split; [by left|done].
  - split; [done|]. intros [|[-> _]]; [done|].
    by rewrite ascii_compare_refl in E.
Qed.

(** Keys that start with a prefix are contiguous. *)
Lemma prefix_between p x y z :
  str_ltb (p +:+ x) y = true -> str_ltb y (p +:+ z) = true -> starts_with p y = true.
Proof.
  revert y. induction p as [|a p IH]; intros y H1 H2; [done|].
  destruct y as [|b y]; [done|]. rewrite !str_app_cons in *.
  apply ltb_after_cons in H1, H2. unfold starts_with in *. cbn [strip_prefix].
  assert (a = b) as <-.
  { destruct H1 as [H1|[-> _]]; [|done]. destruct H2 as [H2|[-> _]]; [|done].
    unfold Ascii.compare in *. rewrite N.compare_lt_iff in *. lia. }
  rewrite Ascii.eqb_refl.
  destruct H1 as [H1|[_ H1]], H2 as [H2|[_ H2]]; try (by apply IH);
    by rewrite ascii_compare_refl in *.
Qed.

(** ** Over the in-memory store *)

Section MemoryReads.
Context `{Digests} {Cid : Type} `{CidLib Cid} `{Countable Cid}.
Context `{RepoSerde Cid} `{!Atrium Cid} `{!AtriumRead Cid}.
Context `{!AtriumLaws Cid} `{!AtriumReadLaws Cid}.
Context {Value : Type} `{Serde Value}.
Implicit Types (g : Inner Cid) (m : gmap string Cid).

(** A run whose trace stays empty left the store alone. *)
Lemma mem_run_no_trace {A} (p : BProg Cid A) : forall g g' r tr0 tr,
  run_prog p (g, tr0) = (r, (g', tr)) ->
  (length tr0 <= length tr)%nat /\ (length tr = length tr0 -> g' = g).
Proof.
  induction p as [r0|c k IH|codec hash b k IH]; intros g g' r tr0 tr E; cbn [run_prog] in E.
  - by injection E as <- <- <-.
  - unfold adapter_read in E. cbn in E. destruct (blocks g !! c); cbn in E; by apply IH in E.
  - unfold adapter_write, bind, assert_or in E. destruct (hash =? SHA2_256); cbn in E.
    + apply IH in E as [E _]. rewrite length_app in E. simpl in E. split; lia.
    + by apply IH in E.
Qed.

(** [holds g did m]: the stored root of the account is a commit over [m]. *)
Definition holds g did m : Prop :=
  exists root b cm, repo_roots g !! did = Some root /\ blocks g !! root = Some b /\
    from_slice b = Ok (cm : SignedCommit Cid) /\ mst_map (blocks g) (sc_data cm) = Some m.

Lemma mem_open g did m : addressed (blocks g) -> holds g did m ->
  exists root repo, repo_roots g !! did = Some root /\
    rd_prog (repo_open root) g = (Ok repo, g) /\ mst_map (blocks g) (repo_data repo) = Some m.
Proof.
  intros Ha (root & b & cm & Hr & Hb & Hc & Hm). exists root. unfold rd_prog.
  destruct (run_prog (repo_open root) (g, [])) as [r [g' tr]] eqn:E.
  pose proof (mem_run_no_trace _ _ _ _ _ _ E) as [_ Hg].
  apply (run_prog_bexec false (fun _ => mem_healthy)) in E as (tr' & Htr & Hx & _). cbn in Htr, Hx.
  pose proof (repo_open_total _ _ _ _ _ _ _ Ha Hb Hc Hx) as Hok.
  destruct r as [repo|]; [|done].
  destruct (repo_open_ok root _ Ha _ _ _ _ Hx) as (-> & _ & b' & cm' & Hb' & Hc' & Hd & _).
  rewrite Hb in Hb'. injection Hb' as <-. rewrite Hc in Hc'. injection Hc' as <-.
  exists repo. rewrite Htr in Hg. rewrite (Hg eq_refl), Hd. done.
Qed.

(** ** Pages *)

(** The records under a collection, with the values they decode to. *)
Definition collection_entries m (collection : string) : list (string * Cid) :=
  List.filter (fun kc => starts_with (collection +:+ "/") kc.1) (sorted_entries m).

Definition entry_of (vals : Cid -> Value) (kc : string * Cid) : RecordEntry :=
  MkRecordEntry kc.1 kc.2 (vals kc.2).

Definition decodes g (vals : Cid -> Value) (l : list (string * Cid)) : Prop :=
  Forall (fun kc => exists b, blocks g !! kc.2 = Some b /\ from_slice b = Ok (vals kc.2)) l.

Lemma list_loop_mem vals limit cursor l g : decodes g vals l -> forall acc,
  (length acc < limit)%nat ->
  list_loop (St := Inner Cid) limit cursor (map Ok l) acc g =
  (Ok (acc ++ map (entry_of vals) (page fst (limit - length acc) cursor l)), g).
Proof.
  induction 1 as [|[k c] l (b & Hb & Hv) _ IH]; intros acc Hl; cbn [map list_loop].
  { unfold page. cbn. by rewrite take_nil, app_nil_r. }
  assert (match cursor with Some cur => str_leb k cur | None => false end =
          negb (after fst cursor (k, c))) as ->.
  { destruct cursor; [|done]. unfold after, str_leb. done. }
  unfold page. cbn [List.filter]. destruct (after fst cursor (k, c)); cbn [negb].
  - unfold bind, read_entry, rd_store, bind, with_err, lift, ret. cbn in Hb. cbn -[length].
    rewrite Hb. cbn -[length]. unfold decode_record. cbn in Hv. rewrite Hv. cbn -[length].
    rewrite length_app. cbn [length].
    destruct (Nat.leb_spec limit (length acc + 1)) as [Hle|Hgt].
    + replace (limit - length acc)%nat with 1%nat by lia. cbn [take map]. done.
    + rewrite IH by (rewrite length_app; cbn; lia). rewrite length_app. cbn [length].
      replace (limit - length acc)%nat with (S (limit - (length acc + 1)))%nat by lia.
      cbn [take map]. by rewrite <- app_assoc.
  - by apply IH.
Qed.

Lemma list_records_mem vals g did m collection limit cursor : addressed (blocks g) ->
  holds g did m -> decodes g vals (collection_entries m collection) ->
  list_records (St := Inner Cid) did collection limit cursor g =
  let p := page fst (clamp_limit limit) cursor (collection_entries m collection) in
  (Ok (MkRecordPage (map (entry_of vals) p)
         (if Nat.eqb (length p) (clamp_limit limit) then cursor_of fst p else None)), g).
Proof.
  intros Ha Hh Hd. destruct (mem_open _ _ _ Ha Hh) as (root & repo & Hr & Ho & Hm).
  unfold list_records, bind, rd_store, with_err. cbn -[clamp_limit].
  rewrite Hr. rewrite Ho. unfold rd_stream.
  rewrite (entries_prefixed_ext _ (rd_of (blocks g))).
  2: { intros c. unfold adapter_read, rd_of. cbn. by destruct (blocks g !! c). }
  rewrite (tree_entries_prefixed_ok _ _ _ _ Ha Hm).
  fold (collection_entries m collection). rewrite (list_loop_mem vals) by (try done; cbn; unfold clamp_limit; lia).
  cbn [length]. rewrite Nat.sub_0_r. cbn. unfold ret, cursor_of. rewrite length_map.
  set (p := page _ _ _ _). do 3 f_equal.
  change (map (entry_of vals) p) with (entry_of vals <$> p). rewrite fmap_last. by destruct (last p).
Qed.

(** A client following the cursors of [list_records] to the end. *)
Fixpoint walk_records (fuel : nat) (did collection : string) (limit : nat) (cursor : option string)
    : SE (Inner Cid) RepoError (list RecordEntry) :=
  match fuel with
  | O => ret []
  | S fuel =>
      (let! p := list_records did collection limit cursor in
       match rp_cursor p with
       | None => ret (rp_records p)
       | Some c =>
           let! l := walk_records fuel did collection limit (Some c) in
           ret (rp_records p ++ l)
       end)%se
  end.

Lemma walk_split vals g did m collection limit : addressed (blocks g) -> holds g did m ->
  decodes g vals (collection_entries m collection) -> forall fuel pre suf,
  collection_entries m collection = pre ++ suf -> (length suf < fuel)%nat ->
  walk_records fuel did collection limit (cursor_of fst pre) g = (Ok (map (entry_of vals) suf), g).
Proof.
  intros Ha Hh Hd. set (lim := clamp_limit limit).
  assert (1 <= lim)%nat by (unfold lim, clamp_limit; lia).
  assert (ascending fst (collection_entries m collection)) as Hs
    by apply filter_ascending, sorted_entries_ascending.
  induction fuel as [|fuel IH]; intros pre suf E Hf; [lia|]. cbn [walk_records].
  unfold bind at 1. rewrite (list_records_mem vals _ _ _ _ _ _ Ha Hh Hd).
  fold lim. rewrite E in *. rewrite page_split by done. cbn zeta.
  destruct (Nat.eqb_spec (length (take lim suf)) lim) as [Hlen|Hlen]; cbn [rp_cursor rp_records].
  - rewrite length_take in Hlen. unfold cursor_of at 1.
    destruct (last (take lim suf)) as [x|] eqn:El.
    2: { apply last_None in El. apply (f_equal length) in El. rewrite length_take in El. cbn in El. lia. }
    cbn [option_map].
    assert (Some x.1 = cursor_of fst (pre ++ take lim suf)) as Hc.
    { unfold cursor_of. by rewrite last_app, El. }
    unfold bind. rewrite Hc, (IH (pre ++ take lim suf) (drop lim suf)).
    + unfold ret. by rewrite <- map_app, take_drop.
    + by rewrite <- app_assoc, take_drop.
    + rewrite length_drop. lia.
  - unfold ret. rewrite take_ge; [done|]. rewrite length_take in Hlen. lia.
Qed.

(** ** Collections *)

Definition collection_of (key : string) : option string := fst <$> split_once "/" key.

Lemma collection_of_Some key c :
  collection_of key = Some c <-> exists r, key = (c +:+ "/") +:+ r /\ contains_char "/" c = false.
Proof.
  unfold collection_of. split.
  - destruct (split_once "/" key) as [[x r]|] eqn:E; [|done]. intros [= <-].
    apply split_once_Some in E as [-> Hx]. exists r. by rewrite str_app_assoc.
  - intros (r & -> & Hc). rewrite str_app_assoc. change ("/" +:+ r) with (String "/" r).
    by rewrite (proj2 (split_once_Some "/" _ c r) (conj eq_refl Hc)).
Qed.

(** In ascending keys a collection's keys are adjacent. *)
Lemma collection_adjacent (l : list string) k c :
  ascending id (l ++ [k]) -> collection_of k = Some c -> c ∈ omap collection_of l ->
  last (omap collection_of l) = Some c.
Proof.
  intros Hs Hk. induction l as [|y l' IH] using rev_ind; [by intros ?%not_elem_of_nil|].
  rewrite omap_app. intros Hin. rewrite <- app_assoc in Hs.
  destruct (decide (collection_of y = Some c)) as [Hy|Hy]; [cbn; rewrite Hy; by rewrite last_snoc|].
  exfalso. apply elem_of_app in Hin as [Hin|Hin].
  2: { cbn in Hin. destruct (collection_of y); [|by apply not_elem_of_nil in Hin].
       apply list_elem_of_singleton in Hin. congruence. }
  apply list_elem_of_omap in Hin as (x & Hx & Hcx).
  pose proof (StronglySorted_app_1_elem_of _ _ _ x y Hs Hx ltac:(left)) as Hxy.
  pose proof (StronglySorted_app_1_r _ _ _ Hs) as Hyk.
  assert (key_lt id y k) as Hyk'.
  { inversion_clear Hyk as [|?? _ Hf]. by inversion_clear Hf. }
  apply collection_of_Some in Hcx as (rx & -> & Hc). apply collection_of_Some in Hk as (rk & -> & _).
  pose proof (prefix_between _ _ _ _ Hxy Hyk') as Hp. apply starts_with_spec in Hp as [r Hp].
  apply Hy, collection_of_Some. by exists r.
Qed.

Lemma collections_loop_Ok (l : list (string * Cid)) : forall pre out,
  ascending id (pre ++ l.*1) -> NoDup out -> (forall c, c ∈ out <-> c ∈ omap collection_of pre) ->
  last out = last (omap collection_of pre) ->
  exists out', collections_loop (map Ok l) out = Ok out' /\ NoDup out' /\
    forall c, c ∈ out' <-> c ∈ omap collection_of (pre ++ l.*1).
Proof.
  induction l as [|[k x] l IH]; intros pre out Hs Hn Hm Hlast; cbn [map collections_loop].
  { exists out. rewrite app_nil_r. by split_and!. }
  change (((k, x) :: l).*1) with ([k] ++ l.*1) in *. rewrite app_assoc in Hs |- *.
  assert (ascending id (pre ++ [k])) as Hpk by by eapply StronglySorted_app_1_l.
  pose proof (fun c => collection_adjacent pre k c Hpk) as Hadj.
  assert (omap collection_of (pre ++ [k]) =
    omap collection_of pre ++ match collection_of k with Some c => [c] | None => [] end) as Hom
    by (rewrite omap_app; cbn; by destruct (collection_of k)).
  assert (collection_of k = fst <$> split_once "/" k) as Hck by done.
  destruct (split_once "/" k) as [[c r]|]; cbn in Hck; rewrite Hck in Hom, Hadj.
  - case_decide as Hd.
    + apply IH; [done|done| |].
      * intros c'. rewrite Hom, elem_of_app, list_elem_of_singleton, Hm. split; [by left|].
        intros [?| ->]; [done|]. apply Hm. by apply last_Some_elem_of.
      * rewrite Hom, last_snoc. done.
    + apply IH; [done| | |].
      * apply NoDup_app. split; [done|]. split; [|apply NoDup_singleton].
        intros c' Hin ->%list_elem_of_singleton. apply Hm in Hin. apply Hd. rewrite Hlast.
        by apply Hadj.
      * intros c'. by rewrite Hom, !elem_of_app, Hm.
      * by rewrite Hom, !last_snoc.
  - apply IH; try done; rewrite Hom, app_nil_r; done.
Qed.

End MemoryReads.

(** ** A concrete repository to read *)

Definition demo_entries (r : result BlockErr bytes) (keep : string * string -> bool)
    : list (result string (string * string)) :=
  match r with
  | Ok b => match mst_decode b with
            | Some m => map Ok (List.filter keep (sorted_entries m))
            | None => [Err "not a node"]
            end
  | Err _ => [Err "missing"]
  end.

#[export] Instance demo_atrium_read : AtriumRead string := {
  tree_get root key := demo_read root (fun b =>
    BRet (match mst_decode b with Some m => Ok (m !! key) | None => Err "not a node" end));
  tree_entries rd root := demo_entries (rd root) (fun _ => true);
  tree_entries_prefixed rd root prefix := demo_entries (rd root) (fun kc => starts_with prefix kc.1);
  repo_export r := demo_read (repo_root r) (fun _ => BRet (Ok [repo_root r; repo_data r]));
  btree_set := remove_dups;
}.

Lemma demo_entries_ok bm root m keep : demo_mst_map bm root = Some m ->
  demo_entries (rd_of bm root) keep = map Ok (List.filter keep (sorted_entries m)).
Proof.
  unfold demo_mst_map, demo_entries, rd_of. destruct (bm !! root) as [b|]; [|done].
  cbn. by intros ->.
Qed.

#[export] Instance demo_atrium_read_laws : AtriumReadLaws string.
Proof.
  split.
  - intros c bm b cm r bm' tr _ Hb Hc Hx. unfold repo_open, demo_atrium, demo_read in Hx.
    inversion Hx; subst; [|done]. match goal with X : bexec _ _ _ _ _ _ |- _ => revert X end.
    rewrite Hb. change (ok_or (fields_decode b ≫= fields_signed) "malformed") with
      (from_slice (T := SignedCommit string) b). rewrite Hc. intros X. by inversion X.
  - intros bm root m key r bm' tr _ Hm Hx. change (demo_mst_map bm root = Some m) in Hm.
    unfold demo_mst_map in Hm. unfold tree_get, demo_atrium_read, demo_read in Hx.
    inversion Hx; subst; [|done]. match goal with X : bexec _ _ _ _ _ _ |- _ => revert X end.
    destruct (bm !! root) as [b|]; [|done]. cbn in Hm. rewrite Hm. intros X. by inversion X.
  - intros bm root m _ Hm. cbn. rewrite (demo_entries_ok _ _ _ _ Hm). f_equal.
    by apply filter_all, Forall_true.
  - intros bm root m prefix _ Hm. cbn. by rewrite (demo_entries_ok _ _ _ _ Hm).
  - intros f g root Hfg. cbn. by rewrite Hfg.
  - intros f g root prefix Hfg. cbn. by rewrite Hfg.
Defined.

Definition demo_batch2 := apply_many_parts demo_writer (demo_stamps "2")
  [WCreate "app.x/2" "again"; WCreate "app.x.y/1" "other"] (snd demo_commit).
Definition demo_repo : Inner string := fst (snd demo_batch2).
Definition demo_records : gmap string string :=
  {[ "app.x/1" := "hello"; "app.x/2" := "again"; "app.x.y/1" := "other" ]}.

Lemma demo_repo_addressed : addressed (blocks demo_repo).
Proof.
  assert (bool_decide (map_Forall (fun c b => c = b) (blocks demo_repo)) = true) as Hb
    by (vm_compute; reflexivity).
  apply bool_decide_eq_true in Hb. intros c b E. exists DAG_CBOR. exact (Hb c b E).
Qed.

Lemma demo_repo_holds : holds demo_repo demo_acct demo_records.
Proof.
  assert (match repo_roots demo_repo !! demo_acct with
          | Some root => match blocks demo_repo !! root with
                         | Some b => match from_slice b with
                                     | Ok cm => bool_decide (demo_mst_map (blocks demo_repo) (sc_data cm)
                                                             = Some demo_records)
                                     | Err _ => false
                                     end
                         | None => false
                         end
          | None => false
          end = true) as E by (vm_compute; reflexivity).
  unfold holds. destruct (repo_roots demo_repo !! demo_acct) as [root|] eqn:Er; [|discriminate E].
  destruct (blocks demo_repo !! root) as [b|] eqn:Eb; [|discriminate E].
  destruct (from_slice b) as [cm|] eqn:Ef; [|discriminate E].
  apply bool_decide_eq_true in E. exists root, b, cm. exact (conj eq_refl (conj Eb (conj Ef E))).
Qed.

Section ReadProperties.
Context `{Digests} {Cid : Type} `{CidLib Cid} `{Countable Cid}.
Context `{RepoSerde Cid} `{!Atrium Cid} `{!AtriumRead Cid}.
Context `{!AtriumLaws Cid} `{!AtriumReadLaws Cid}.
Context {Value : Type} `{Serde Value}.
Implicit Types (g : Inner Cid) (m : gmap string Cid).

(** ** Properties *)

(** C40: paging is complete.  For an account whose stored commit stands for the
    records [m] and whose records decode, following the cursors of
    [list_records] from the start, with any requested limit, returns every
    record of the collection exactly once, in key order, with its identifier
    and decoded value, and ends; nothing is written. *)
Theorem list_records_complete vals g did m collection limit fuel
    (Ha : addressed (blocks g)) (Hh : holds g did m)
    (Hd : decodes g vals (collection_entries m collection))
    (Hf : (length (collection_entries m collection) < fuel)%nat) :
  walk_records fuel did collection limit None g =
    (Ok (map (entry_of vals) (collection_entries m collection)), g) /\
  ascending fst (collection_entries m collection) /\
  (forall k c, (k, c) ∈ collection_entries m collection <->
     m !! k = Some c /\ exists r, k = (collection +:+ "/") +:+ r).
Proof.
  split; [by apply (walk_split vals g did m collection limit Ha Hh Hd fuel [])|].
  split; [apply filter_ascending, sorted_entries_ascending|]. intros k c.
  unfold collection_entries. rewrite !list_elem_of_In, List.filter_In, <- !list_elem_of_In.
  unfold sorted_entries. rewrite merge_sort_Permutation, elem_of_map_to_list, starts_with_spec.
  done.
Qed.

(** [list_collections] is exact.  It answers each collection that has a key
    in the repository, once, and no other, although it only compares a key's
    collection with the last one pushed. *)
Theorem list_collections_exact g did m (Ha : addressed (blocks g)) (Hh : holds g did m) :
  exists out, list_collections (St := Inner Cid) did g = (Ok out, g) /\ NoDup out /\
    forall c, c ∈ out <-> exists k r, is_Some (m !! k) /\ split_once "/" k = Some (c, r).
Proof.
  destruct (mem_open _ _ _ Ha Hh) as (root & repo & Hr & Ho & Hm).
  unfold list_collections, bind, rd_store, with_err. cbn. rewrite Hr, Ho. unfold rd_stream.
  rewrite (entries_ext _ (rd_of (blocks g))).
  2: { intros c. unfold adapter_read, rd_of. cbn. by destruct (blocks g !! c). }
  rewrite (tree_entries_ok _ _ _ Ha Hm).
  destruct (collections_loop_Ok (sorted_entries m) [] []) as (out & -> & Hn & Hc).
  - pose proof (sorted_entries_ascending m) as Hs. revert Hs. unfold ascending. cbn [app].
    induction (sorted_entries m) as [|x l IH]; [constructor|]. intros Hs.
    inversion_clear Hs as [|?? Hss Hx]. cbn. constructor; [by apply IH|].
    by apply Forall_fmap.
  - constructor.
  - done.
  - done.
  - exists out. split; [done|]. split; [done|]. intros c. rewrite Hc. cbn [app].
    rewrite list_elem_of_omap. unfold collection_of. split.
    + intros (k & Hk & Hs). destruct (split_once "/" k) as [[c' r]|] eqn:E; [|done].
      cbn in Hs. injection Hs as ->. exists k, r. split; [|done].
      apply list_elem_of_fmap in Hk as ([k' x] & -> & Hk). unfold sorted_entries in Hk.
      rewrite merge_sort_Permutation, elem_of_map_to_list in Hk. by exists x.
    + intros (k & r & [x Hx] & E). exists k. rewrite E. split; [|done].
      apply list_elem_of_fmap. exists (k, x). split; [done|]. unfold sorted_entries.
      by rewrite merge_sort_Permutation, elem_of_map_to_list.
Qed.

End ReadProperties.

Example demo_collection : collection_entries demo_records "app.x" =
  [("app.x/1", "hello"); ("app.x/2", "again")].
Proof. vm_compute. reflexivity. Qed.

Lemma demo_decodes : decodes demo_repo (id : string -> string) [("app.x/1", "hello"); ("app.x/2", "again")].
Proof.
  repeat constructor; eexists; (split; [vm_compute; reflexivity|reflexivity]).
Qed.

Lemma list_records_complete_witness :
  walk_records (Value := string) 5 demo_acct "app.x" 1 None demo_repo =
    (Ok (map (entry_of id) (collection_entries demo_records "app.x")), demo_repo) /\
  collection_entries demo_records "app.x" = [("app.x/1", "hello"); ("app.x/2", "again")].
Proof.
  split; [|exact demo_collection].
  refine (proj1 (list_records_complete (id : string -> string) demo_repo demo_acct demo_records
                   "app.x" 1 5 demo_repo_addressed demo_repo_holds _ _)); rewrite demo_collection.
  - exact demo_decodes.
  - repeat constructor.
Defined.

Lemma list_collections_exact_witness :
  exists out, list_collections (St := Inner string) demo_acct demo_repo = (Ok out, demo_repo) /\
    NoDup out /\ forall c, c ∈ out <-> exists k r, is_Some (demo_records !! k) /\
                                                 split_once "/" k = Some (c, r).
Proof. exact (list_collections_exact demo_repo demo_acct demo_records demo_repo_addressed demo_repo_holds). Defined.
