(* ===== verification/Firehose.v ===== *)
(** * The firehose subscription

    [src/rust-pds/src/firehose/subscribe.rs]: the [subscribeRepos] handler as a
    state machine, one step per interaction with the store, the broadcast
    channel or the socket, so that commits and broadcasts of the rest of the
    server interleave with it anywhere.  The store is seen through its log. *)

From Stdlib Require Import ZArith Lia Ascii.
From S2P Require Import Prelude RustStr Externals Demo StoreTypes OAuthCore Jose Dpop Client.
From S2P Require Import OAuthServer OAuthProps Session Repo RepoDemo.

Definition BACKFILL_PAGE : nat := 500.

(** ** The cursor parameter *)

(** [str::parse::<i64>]: an optional sign, then decimal digits, in range. *)
Fixpoint parse_digits (acc : Z) (s : string) : option Z :=
  match s with
  | EmptyString => Some acc
  | String c s => if is_ascii_digit c then parse_digits (10 * acc + (byte_val c - 48)) s else None
  end.

Definition parse_i64 (s : string) : option Z :=
  let '(neg, ds) := match s with
                    | String "-" r => (true, r)
                    | String "+" r => (false, r)
                    | _ => (false, s)
                    end in
  match ds with
  | EmptyString => None
  | _ => v ← parse_digits 0 ds;
         let v := if neg : bool then - v else v in
         if (- 2 ^ 63 <=? v) && (v <=? i64_max) then Some v else None
  end.

Definition parse_cursor (param : option string) : result XrpcError (option Z) :=
  match param with
  | None => Ok None
  | Some s =>
      let? v := ok_or (parse_i64 s) (XInvalidRequest "cursor must be an integer") in
      ensure negb (v <? 0) orelse XInvalidRequest "cursor must be non-negative" in
      Ok (Some v)
  end.

(** ** The state machine *)

Section Firehose.
Context `{RepoSerde Cid}.

Abbreviation Row := (Z * bytes)%type (only parsing).

(** Where the handler is: subscribed and about to check the cursor; about to
    query a page; sending the rest of a page; waiting on the channel; done. *)
Inductive Pc := PStart | PCheck | PQuery | PPage (rows : list Row) | PLive | PClosed.

(** The receiver of a broadcast channel: the events not yet received, and
    whether some were overwritten before they could be. *)
Record Receiver := MkReceiver { rx_queue : list FirehoseEvent; rx_lagged : bool }.

Record Sub := MkSub {
  s_pc : Pc;
  s_rx : Receiver;
  s_last : Z;
  s_recovered : bool;
  s_sent : list bytes;
  (** the error frame that closed the stream *)
  s_error : option bytes;
}.

Definition goto (pc : Pc) (s : Sub) : Sub :=
  MkSub pc (s_rx s) (s_last s) (s_recovered s) (s_sent s) (s_error s).
Definition set_rx (rx : Receiver) (s : Sub) : Sub :=
  MkSub (s_pc s) rx (s_last s) (s_recovered s) (s_sent s) (s_error s).
Definition set_last (n : Z) (s : Sub) : Sub :=
  MkSub (s_pc s) (s_rx s) n (s_recovered s) (s_sent s) (s_error s).
Definition set_recovered (b : bool) (s : Sub) : Sub :=
  MkSub (s_pc s) (s_rx s) (s_last s) b (s_sent s) (s_error s).
Definition send_frame (f : bytes) (s : Sub) : Sub :=
  MkSub (s_pc s) (s_rx s) (s_last s) (s_recovered s) (s_sent s ++ [f]) (s_error s).
Definition close_with (f : bytes) (s : Sub) : Sub :=
  MkSub PClosed (s_rx s) (s_last s) (s_recovered s) (s_sent s) (Some f).

(** [subscribe]: only events sent from now on. *)
Definition subscribed : Receiver := MkReceiver [] false.

Definition log_max (log : list Row) : Z :=
  match last log with Some r => fst r | None => 0 end.

Definition log_page (after : Z) (limit : nat) (log : list Row) : list Row :=
  take limit (List.filter (fun r => after <? fst r) log).

(** The frame of a log row: decode the body, inject the number, re-encode. *)
Definition row_frame (r : Row) : option bytes :=
  match from_slice (snd r) with
  | Ok body => Some (encode_message_frame "#commit" (with_seq (fst r) body))
  | Err _ => None
  end.

(** One step of the handler; [ok] is whether its store query or send succeeds.
    A receive on an empty channel waits: no change. *)
Definition handler_step (cursor : option Z) (ok : bool) (log : list Row) (s : Sub) : Sub :=
  match s_pc s with
  | PStart =>
      let s := set_rx subscribed s in
      match cursor with
      | None => goto PLive (set_last 0 s)
      | Some c => goto PCheck (set_last c s)
      end
  | PCheck =>
      if negb ok then goto PClosed s
      else if log_max log <? s_last s
      then close_with (encode_error_frame "FutureCursor" (Some "Cursor in the future.")) s
      else goto PQuery s
  | PQuery =>
      if negb ok then goto PClosed s
      else match log_page (s_last s) BACKFILL_PAGE log with
           | [] => goto PLive s
           | rows => goto (PPage rows) s
           end
  | PPage [] => goto PQuery s
  | PPage (r :: rows) =>
      match row_frame r with
      | None => goto (PPage rows) (set_last (fst r) s)
      | Some f =>
          if negb ok then goto PClosed s
          else goto (PPage rows) (set_last (fst r) (send_frame f s))
      end
  | PLive =>
      let rx := s_rx s in
      if rx_lagged rx then
        if negb (s_recovered s)
        then goto PQuery (set_recovered true (set_rx subscribed s))
        else close_with (encode_error_frame "ConsumerTooSlow" (Some "Stream consumer too slow.")) s
      else match rx_queue rx with
           | [] => s
           | evt :: q =>
               let s := set_rx (MkReceiver q false) s in
               if fe_seq evt <=? s_last s then s
               else if negb ok then goto PClosed s
               else set_recovered false (set_last (fe_seq evt) (send_frame (fe_frame evt) s))
           end
  | PClosed => s
  end.

(** ** The server around it *)

(** The log, and the frames committed whose broadcast is still to come. *)
Record Server := MkServer { v_log : list Row; v_pending : list FirehoseEvent; v_sub : Sub }.

(** A broadcast reaches the receiver once it has subscribed; beyond the
    channel's capacity the oldest event is overwritten. *)
Definition deliver (cap : nat) (evt : FirehoseEvent) (s : Sub) : Sub :=
  match s_pc s with
  | PStart | PClosed => s
  | _ =>
      let q := rx_queue (s_rx s) ++ [evt] in
      if (length q <=? cap)%nat then set_rx (MkReceiver q (rx_lagged (s_rx s))) s
      else set_rx (MkReceiver (tail q) true) s
  end.

Definition event_of (body : CommitBody Cid) : FirehoseEvent :=
  MkFirehoseEvent (cb_seq body) (encode_message_frame "#commit" body).

(** Steps: the handler's, a commit ([RepoWriter]'s transaction: the row holds
    the event numbered 0), and a broadcast of a pending frame: of the oldest one
    if [ordered], of any one otherwise. *)
Inductive step (ordered : bool) (cursor : option Z) (cap : nat) : Server -> Server -> Prop :=
| st_handler ok v :
    step ordered cursor cap v
      (MkServer (v_log v) (v_pending v) (handler_step cursor ok (v_log v) (v_sub v)))
| st_commit body ev v :
    cb_seq body = Z.of_nat (length (v_log v)) + 1 -> to_vec (with_seq 0 body) = Ok ev ->
    step ordered cursor cap v
      (MkServer (v_log v ++ [(cb_seq body, ev)]) (v_pending v ++ [event_of body]) (v_sub v))
| st_broadcast i evt v :
    v_pending v !! i = Some evt -> (ordered = true -> i = 0%nat) ->
    step ordered cursor cap v
      (MkServer (v_log v) (delete i (v_pending v)) (deliver cap evt (v_sub v))).

Definition fresh_sub : Sub := MkSub PStart subscribed 0 false [] None.

Definition numbered_from (k : Z) (log : list Row) : Prop :=
  forall i r, log !! i = Some r -> fst r = k + Z.of_nat i + 1.
Definition numbered (log : list Row) : Prop := numbered_from 0 log.

(** The frames of the rows after [c] up to [l]: what a client that asked for
    [c] should have got when the handler stands at [l]. *)
Definition frames_between (log : list Row) (c l : Z) : list bytes :=
  omap row_frame (drop (Z.to_nat c) (take (Z.to_nat l) log)).

(** ** Lemmas *)

Lemma numbered_cons k r log : numbered_from k (r :: log) ->
  fst r = k + 1 /\ numbered_from (k + 1) log.
Proof.
  intros Hn. split; [specialize (Hn 0%nat r eq_refl); lia|].
  intros i x Hx. specialize (Hn (S i) x Hx). lia.
Qed.

Lemma numbered_snoc log r : numbered log -> fst r = Z.of_nat (length log) + 1 ->
  numbered (log ++ [r]).
Proof.
  intros Hn Hr i x [Hx|[Hi Hx]]%lookup_app_Some; [by apply Hn|].
  apply list_lookup_singleton_Some in Hx as [Hi0 <-]. lia.
Qed.

Lemma log_max_numbered log : numbered log -> log_max log = Z.of_nat (length log).
Proof.
  intros Hn. unfold log_max. destruct (last log) as [r|] eqn:E.
  - rewrite last_lookup in E. rewrite (Hn _ _ E). destruct log; [done|]. cbn. lia.
  - apply last_None in E as ->. done.
Qed.

Lemma filter_numbered after log : forall k, numbered_from k log -> k <= after ->
  List.filter (fun r => after <? fst r) log = drop (Z.to_nat (after - k)) log.
Proof.
  induction log as [|r log IH]; intros k Hn Hk; [by rewrite drop_nil|].
  apply numbered_cons in Hn as [Hr Hn]. cbn. destruct (Z.ltb_spec after (fst r)).
  - assert (Z.to_nat (after - k) = 0%nat) as -> by lia. cbn. f_equal.
    apply filter_all, Forall_forall. intros x [i Hi]%list_elem_of_lookup.
    specialize (Hn i x Hi). apply Z.ltb_lt. lia.
  - rewrite (IH (k + 1)) by (done || lia).
    by replace (Z.to_nat (after - k)) with (S (Z.to_nat (after - (k + 1)))) by lia.
Qed.

Lemma log_page_numbered after limit log : numbered log -> 0 <= after ->
  log_page after limit log = take limit (drop (Z.to_nat after) log).
Proof.
  intros Hn Ha. unfold log_page. rewrite (filter_numbered _ _ 0) by done. by rewrite Z.sub_0_r.
Qed.

Lemma frames_between_none log c l : l <= c -> frames_between log c l = [].
Proof. intros Hl. unfold frames_between. rewrite drop_ge; [done|]. rewrite length_take. lia. Qed.

Lemma frames_between_next log c l r : 0 <= c <= l -> log !! Z.to_nat l = Some r ->
  frames_between log c (l + 1) =
  frames_between log c l ++ match row_frame r with Some f => [f] | None => [] end.
Proof.
  intros Hc Hr. unfold frames_between.
  replace (Z.to_nat (l + 1)) with (S (Z.to_nat l)) by lia.
  pose proof (lookup_lt_Some _ _ _ Hr). rewrite (take_S_r _ _ _ Hr).
  rewrite drop_app_le by (rewrite length_take; lia). rewrite omap_app. cbn.
  by destruct (row_frame r).
Qed.

Lemma frames_between_app log log' c l : l <= Z.of_nat (length log) \/ l <= c ->
  frames_between (log ++ log') c l = frames_between log c l.
Proof.
  intros [Hl|Hl]; unfold frames_between.
  - by rewrite take_app_le by lia.
  - rewrite !drop_ge; [done|rewrite length_take; lia|rewrite length_take; lia].
Qed.

(** ** The invariant *)

Definition is_event (r : Row) (e : FirehoseEvent) : Prop :=
  fe_seq e = fst r /\ row_frame r = Some (fe_frame e).

(** The handler is between [b] and [n] rows ahead of what was broadcast: [b]
    frames went out, and the receiver's queue holds those after the [j]th. *)
Definition sub_inv (c : Z) (log : list Row) (b : nat) (s : Sub) : Prop :=
  s_sent s = frames_between log c (s_last s) /\
  match s_pc s with
  | PStart => s_last s = 0
  | PClosed => s_last s <= Z.of_nat (length log) \/ s_last s <= c
  | pc => exists j, (j <= b)%nat /\ Forall2 is_event (drop j (take b log)) (rx_queue (s_rx s)) /\
      match pc with
      | PCheck => s_last s = c
      | _ => c <= s_last s <= Z.of_nat (length log) /\
             match pc with
             | PPage rows => rows `prefix_of` drop (Z.to_nat (s_last s)) log
             | PLive => rx_lagged (s_rx s) = false -> Z.of_nat j <= s_last s
             | _ => True
             end
      end
  end.

Definition inv (c : Z) (v : Server) : Prop :=
  numbered (v_log v) /\ exists b, (b <= length (v_log v))%nat /\
    Forall2 is_event (drop b (v_log v)) (v_pending v) /\ sub_inv c (v_log v) b (v_sub v).

Lemma queue_head log j b e q : numbered log -> (b <= length log)%nat ->
  Forall2 is_event (drop j (take b log)) (e :: q) ->
  exists r, log !! j = Some r /\ is_event r e /\ fe_seq e = Z.of_nat j + 1 /\ (j < b)%nat /\
    Forall2 is_event (drop (S j) (take b log)) q.
Proof.
  intros Hn Hb Hf. apply Forall2_cons_inv_r in Hf as (r & l & Hr & Hf & E).
  assert (drop j (take b log) !! 0%nat = Some r) as Hl by by rewrite E.
  rewrite lookup_drop, Nat.add_0_r in Hl. apply lookup_take_Some in Hl as [Hl Hj].
  exists r. destruct Hr as [Hs Hf']. pose proof (Hn _ _ Hl). split_and!; [done|done|lia|lia|].
  assert (drop (S j) (take b log) = l) as ->; [|done].
  rewrite <- (Nat.add_1_r j), <- drop_drop, E. done.
Qed.

#[local] Arguments log_page : simpl never.
#[local] Arguments log_max : simpl never.
#[local] Arguments frames_between : simpl never.
#[local] Arguments row_frame : simpl never.

Lemma handler_inv c ok log b s : numbered log -> (b <= length log)%nat -> 0 <= c ->
  sub_inv c log b s -> sub_inv c log b (handler_step (Some c) ok log s).
Proof.
  intros Hn Hb Hc [Hsent Hpc]. unfold handler_step, sub_inv in *.
  destruct (s_pc s) as [| | |[|r rows]| |] eqn:Epc; cbn.
  - rewrite Hpc in Hsent. split.
    { by rewrite Hsent, !frames_between_none by lia. }
    exists b. split; [done|]. split; [|done]. rewrite drop_ge by (rewrite length_take; lia). constructor.
  - destruct Hpc as (j & Hj & Hq & Hl). destruct ok; cbn; [|split; [done|right; lia]].
    rewrite log_max_numbered by done. destruct (Z.ltb_spec (Z.of_nat (length log)) (s_last s)); cbn.
    + split; [done|right; lia].
    + split; [done|]. exists j. split_and!; try done; lia.
  - destruct Hpc as (j & Hj & Hq & Hl & _). destruct ok; cbn; [|split; [done|left; lia]].
    rewrite log_page_numbered by (done || lia).
    destruct (take BACKFILL_PAGE (drop (Z.to_nat (s_last s)) log)) as [|r rows] eqn:E; cbn.
    + split; [done|]. exists j. split_and!; try done; try lia. intros _.
      assert (length log <= Z.to_nat (s_last s))%nat; [|lia].
      apply (f_equal length) in E. rewrite length_take, length_drop in E.
      cbn [length] in E. unfold BACKFILL_PAGE in E. lia.
    + split; [done|]. exists j. split_and!; try done; try lia. rewrite <- E. apply prefix_take.
  - destruct Hpc as (j & Hj & Hq & Hl & _). split; [done|]. exists j. split_and!; done || lia.
  - destruct Hpc as (j & Hj & Hq & Hl & Hp).
    assert (log !! Z.to_nat (s_last s) = Some r) as Hr.
    { destruct Hp as [k Hp]. rewrite <- (Nat.add_0_r (Z.to_nat _)), <- lookup_drop, Hp. done. }
    pose proof (Hn _ _ Hr) as Hseq. pose proof (lookup_lt_Some _ _ _ Hr) as Hlt.
    assert (fst r = s_last s + 1) as Hf by lia.
    assert (rows `prefix_of` drop (Z.to_nat (fst r)) log) as Hp'.
    { destruct Hp as [k Hp]. exists k. rewrite Hf.
      replace (Z.to_nat (s_last s + 1)) with (Z.to_nat (s_last s) + 1)%nat by lia.
      rewrite <- drop_drop, Hp. done. }
    pose proof (frames_between_next log c (s_last s) r ltac:(lia) Hr) as Hnext. rewrite <- Hf in Hnext.
    destruct (row_frame r) as [f|] eqn:Ef; cbn.
    + destruct ok; cbn; [|split; [done|left; lia]].
      split; [by rewrite Hsent, Hnext|]. exists j. split_and!; done || lia.
    + split; [by rewrite Hsent, Hnext, app_nil_r|]. exists j. split_and!; done || lia.
  - destruct Hpc as (j & Hj & Hq & Hl & Hlag). destruct (rx_lagged (s_rx s)) eqn:Elag; cbn.
    + destruct (s_recovered s); cbn; [split; [done|left; lia]|].
      split; [done|]. exists b. split; [done|]. split; [|split; [lia|done]].
      rewrite drop_ge by (rewrite length_take; lia). constructor.
    + destruct (rx_queue (s_rx s)) as [|e q] eqn:Eq; cbn.
      { rewrite Epc. split; [done|]. exists j. rewrite Eq, Elag. split_and!; done || lia. }
      specialize (Hlag eq_refl).
      destruct (queue_head _ _ _ _ _ Hn Hb Hq) as (r & Hr & [Hes Hef] & Hseq & Hjb & Hq').
      destruct (Z.leb_spec (fe_seq e) (s_last s)); cbn.
      * rewrite Epc. split; [done|]. exists (S j). cbn. split_and!; done || lia.
      * assert (fe_seq e = s_last s + 1) as Hs1 by lia.
        assert (log !! Z.to_nat (s_last s) = Some r) as Hr'
          by (by replace (Z.to_nat (s_last s)) with j by lia).
        pose proof (frames_between_next log c (s_last s) r ltac:(lia) Hr') as Hnext.
        rewrite Hef, <- Hs1 in Hnext. destruct ok; cbn; [|split; [done|left; lia]].
        rewrite Epc. split; [by rewrite Hsent, Hnext|]. exists (S j). cbn.
        split_and!; done || lia.
  - rewrite Epc. done.
Qed.

Lemma sub_inv_bound c log b s : 0 <= c -> sub_inv c log b s ->
  s_last s <= Z.of_nat (length log) \/ s_last s <= c.
Proof.
  intros Hc [_ Hpc]. destruct (s_pc s); [right; lia|..|done];
    destruct Hpc as (j & _ & _ & Hl); first [right; lia|left; lia].
Qed.

Lemma commit_inv `{!RepoSerdeLaws Cid} c body ev v : 0 <= c ->
  cb_seq body = Z.of_nat (length (v_log v)) + 1 -> to_vec (with_seq 0 body) = Ok ev -> inv c v ->
  inv c (MkServer (v_log v ++ [(cb_seq body, ev)]) (v_pending v ++ [event_of body]) (v_sub v)).
Proof.
  intros Hc Hseq Hev (Hn & b & Hb & Hp & Hs). pose proof (sub_inv_bound _ _ _ _ Hc Hs) as Hbound.
  destruct v as [log pend s]; cbn [v_log v_pending v_sub] in *.
  split; [by apply numbered_snoc|]. exists b. cbn [v_log v_pending v_sub].
  split; [rewrite length_app; lia|].
  assert (is_event (cb_seq body, ev) (event_of body)) as He.
  { split; [done|]. unfold row_frame. cbn [fst snd].
    rewrite (@from_slice_to_vec _ _ commit_body_laws _ _ Hev). by destruct body. }
  split; [rewrite drop_app_le by done; by apply Forall2_app, Forall2_cons|].
  destruct Hs as [Hsent Hpc]. split; [by rewrite frames_between_app|].
  rewrite length_app, take_app_le by done.
  destruct (s_pc s); [done|..|destruct Hpc; [left; lia|by right]];
    destruct Hpc as (j & Hj & Hq & Hl); exists j; (split; [done|]); (split; [done|]).
  - done.
  - split; [lia|done].
  - destruct Hl as (Hl & Hpre). split; [lia|]. rewrite drop_app_le by lia. by apply prefix_app_r.
  - destruct Hl as (Hl & Hlag). split; [lia|done].
Qed.

Lemma broadcast_inv c cap e p v : v_pending v = e :: p -> inv c v ->
  inv c (MkServer (v_log v) p (deliver cap e (v_sub v))).
Proof.
  intros Hpend (Hn & b & Hb & Hp & Hs). destruct v as [log pend s]; cbn [v_log v_pending v_sub] in *.
  subst pend. split; [done|]. apply Forall2_cons_inv_r in Hp as (r & rest & Hr & Hp & E).
  assert (log !! b = Some r) as Hl
    by by rewrite <- (Nat.add_0_r b), <- lookup_drop, E.
  pose proof (lookup_lt_Some _ _ _ Hl) as Hlt. exists (S b). cbn [v_log v_pending v_sub].
  split; [lia|]. split.
  { replace (drop (S b) log) with rest; [done|]. by rewrite <- (Nat.add_1_r b), <- drop_drop, E. }
  destruct Hs as [Hsent Hpc]. unfold deliver.
  assert (forall j q, (j <= b)%nat -> Forall2 is_event (drop j (take b log)) q ->
    Forall2 is_event (drop j (take (S b) log)) (q ++ [e])) as Hq.
  { intros j q Hj Hq. rewrite (take_S_r _ _ _ Hl), drop_app_le by (rewrite length_take; lia).
    apply Forall2_app; [done|]. by apply Forall2_cons. }
  assert (forall j q, Forall2 is_event (drop j (take (S b) log)) q ->
    Forall2 is_event (drop (S j) (take (S b) log)) (tail q)) as Htail.
  { intros j q Hf. apply (Forall2_drop _ _ _ 1) in Hf. rewrite drop_drop, Nat.add_1_r in Hf.
    by destruct q. }
  destruct (s_pc s) as [| | |rows| |] eqn:Epc; try (split; [done|]; by rewrite Epc);
    destruct Hpc as (j & Hj & Hq0 & Hrest); pose proof (Hq _ _ Hj Hq0) as Hq1;
    (case_match; unfold sub_inv; cbn [s_sent s_last s_pc s_rx rx_queue rx_lagged set_rx]; rewrite Epc;
     (split; [exact Hsent|]);
     [exists j; split; [lia|]; by split|exists (S j); split; [lia|]; split; [by apply Htail|]]);
    try exact Hrest.
  destruct Hrest as [Hl' _]. by split.
Qed.

Lemma step_inv `{!RepoSerdeLaws Cid} c cap v v' : 0 <= c ->
  step true (Some c) cap v v' -> inv c v -> inv c v'.
Proof.
  intros Hc Hst Hinv. destruct Hst as [ok v|body ev v Hseq Hev|i e v Hi Hord].
  - destruct Hinv as (Hn & b & Hb & Hp & Hs). split; [done|]. exists b. split; [done|].
    split; [done|]. by apply handler_inv.
  - by apply commit_inv.
  - pose proof (Hord eq_refl) as ->. destruct (v_pending v) as [|e' p] eqn:E; [done|].
    injection Hi as ->. by apply broadcast_inv.
Qed.

Lemma rtc_inv `{!RepoSerdeLaws Cid} c cap v v' : 0 <= c ->
  rtc (step true (Some c) cap) v v' -> inv c v -> inv c v'.
Proof. intros Hc. induction 1; [done|]. intros Hi. eauto using step_inv. Qed.

Lemma fresh_inv c log : 0 <= c -> numbered log -> inv c (MkServer log [] fresh_sub).
Proof.
  intros Hc Hn. split; [done|]. exists (length log). cbn. split; [lia|].
  split; [rewrite drop_ge by lia; constructor|]. split; [|done]. cbn.
  by rewrite frames_between_none by lia.
Qed.

(** ** Catching up

    The work left to a handler whose queries and sends succeed while the log
    stands still. *)
Definition rx_work (N : Z) (rx : Receiver) : Z :=
  Z.of_nat (length (rx_queue rx)) + (if rx_lagged rx then 5 * N + 10 else 0).
Definition work (N : Z) (s : Sub) : Z :=
  let R := Z.max 0 (N - s_last s) in
  match s_pc s with
  | PStart => 5 * N + 5
  | PCheck => 5 * N + 4 + rx_work N (s_rx s)
  | PQuery => 5 * R + 2 + rx_work N (s_rx s)
  | PPage rows => 5 * R + 3 - 3 * Z.of_nat (length rows) + rx_work N (s_rx s)
  | PLive => rx_work N (s_rx s)
  | PClosed => 0
  end.

Definition caught_up (c : Z) (log : list Row) (s : Sub) : Prop :=
  s_pc s = PLive /\ s_rx s = MkReceiver [] false /\
  s_sent s = frames_between log c (Z.of_nat (length log)).
Definition refused (s : Sub) : Prop := s_pc s = PClosed /\ s_error s <> None.

Lemma rx_work_nonneg N rx : 0 <= N -> 0 <= rx_work N rx.
Proof. intros HN. unfold rx_work. destruct (rx_lagged rx); lia. Qed.

Lemma work_nonneg c log b s : 0 <= c -> sub_inv c log b s -> 0 <= work (Z.of_nat (length log)) s.
Proof.
  intros Hc [_ Hpc]. pose proof (rx_work_nonneg (Z.of_nat (length log)) (s_rx s) ltac:(lia)) as Hrx.
  unfold work. destruct (s_pc s) as [| | |rows| |]; try lia.
  destruct Hpc as (j & _ & _ & Hl & Hp). apply prefix_length in Hp. rewrite length_drop in Hp. lia.
Qed.

Lemma log_page_length after limit log : (length (log_page after limit log) <= limit)%nat.
Proof. unfold log_page. rewrite length_take. lia. Qed.

(** Every step that is not the last one leaves less to do. *)
Lemma handler_progress c log s : numbered log -> 0 <= c ->
  sub_inv c log (length log) s -> s_pc s <> PClosed ->
  let s' := handler_step (Some c) true log s in
  caught_up c log s \/ refused s' \/
  (s_pc s' <> PClosed /\ work (Z.of_nat (length log)) s' < work (Z.of_nat (length log)) s).
Proof.
  intros Hn Hc [Hsent Hpc] Hopen. unfold handler_step, work, refused, caught_up.
  pose proof (rx_work_nonneg (Z.of_nat (length log)) (s_rx s) ltac:(lia)) as Hrx.
  destruct (s_pc s) as [| | |[|r rows]| |] eqn:Epc; cbn [negb]; [..|done].
  - right; right. cbn. split; [done|]. unfold rx_work; cbn. lia.
  - rewrite log_max_numbered by done. destruct (Z.ltb_spec (Z.of_nat (length log)) (s_last s)).
    + right; left. by cbn.
    + destruct Hpc as (j & _ & _ & Hl). right; right. cbn. split; [done|]. lia.
  - destruct Hpc as (j & _ & _ & Hl & _). right; right.
    rewrite log_page_numbered by (done || lia).
    destruct (take BACKFILL_PAGE (drop (Z.to_nat (s_last s)) log)) as [|r rows] eqn:E;
      cbn -[Z.mul Z.of_nat]; (split; [done|]); lia.
  - right; right. cbn. split; [done|]. lia.
  - destruct Hpc as (j & _ & _ & Hl & Hp).
    assert (log !! Z.to_nat (s_last s) = Some r) as Hr.
    { destruct Hp as [k Hp]. rewrite <- (Nat.add_0_r (Z.to_nat _)), <- lookup_drop, Hp. done. }
    pose proof (Hn _ _ Hr) as Hseq. pose proof (lookup_lt_Some _ _ _ Hr) as Hlt.
    right; right. destruct (row_frame r); cbn -[Z.mul Z.of_nat]; (split; [done|]); lia.
  - destruct Hpc as (j & Hj & Hq & Hl & Hlag). destruct (s_rx s) as [q lag]. cbn in *.
    destruct lag; cbn.
    + destruct (s_recovered s); [right; left; by cbn|]. right; right. cbn.
      split; [done|]. unfold rx_work; cbn. lia.
    + destruct q as [|e q]; cbn.
      * left. split; [done|]. split; [done|]. specialize (Hlag eq_refl). rewrite Hsent. f_equal.
        apply Forall2_nil_inv_r in Hq. apply (f_equal length) in Hq.
        rewrite length_drop, length_take in Hq. cbn in Hq. lia.
      * right; right. destruct (Z.leb_spec (fe_seq e) (s_last s)); cbn; rewrite Epc;
          (split; [done|]); unfold rx_work; cbn; lia.
Qed.

Lemma catches_up_within c log : numbered log -> 0 <= c -> forall n s,
  work (Z.of_nat (length log)) s <= Z.of_nat n -> sub_inv c log (length log) s ->
  s_pc s <> PClosed ->
  exists k, let s' := Nat.iter k (handler_step (Some c) true log) s in caught_up c log s' \/ refused s'.
Proof.
  intros Hn Hc. induction n as [|n IH]; intros s Hw Hi Hopen;
    (destruct (handler_progress c log s Hn Hc Hi Hopen) as [Hup|[Hr|[Hopen' Hlt]]];
      [by exists 0%nat; left|by exists 1%nat; right|]);
    pose proof (handler_inv c true log (length log) s Hn ltac:(lia) Hc Hi) as Hi'.
  - pose proof (work_nonneg _ _ _ _ Hc Hi'). lia.
  - destruct (IH (handler_step (Some c) true log s) ltac:(lia) Hi' Hopen') as [k Hk]. exists (S k). by rewrite Nat.iter_succ_r.
Qed.

(** ** Running a schedule *)

Inductive Action := AHandler (ok : bool) | ACommit (body : CommitBody Cid) | ABroadcast (i : nat).

Definition act (ordered : bool) (cursor : option Z) (cap : nat) (a : Action) (v : Server)
    : option Server :=
  match a with
  | AHandler ok =>
      Some (MkServer (v_log v) (v_pending v) (handler_step cursor ok (v_log v) (v_sub v)))
  | ACommit body =>
      match to_vec (with_seq 0 body) with
      | Ok ev =>
          if cb_seq body =? Z.of_nat (length (v_log v)) + 1
          then Some (MkServer (v_log v ++ [(cb_seq body, ev)]) (v_pending v ++ [event_of body])
                       (v_sub v))
          else None
      | Err _ => None
      end
  | ABroadcast i =>
      match v_pending v !! i with
      | Some evt =>
          if ordered && negb (Nat.eqb i 0) then None
          else Some (MkServer (v_log v) (delete i (v_pending v)) (deliver cap evt (v_sub v)))
      | None => None
      end
  end.

Fixpoint acts (ordered : bool) (cursor : option Z) (cap : nat) (l : list Action) (v : Server)
    : option Server :=
  match l with
  | [] => Some v
  | a :: l => v' ← act ordered cursor cap a v; acts ordered cursor cap l v'
  end.

Lemma acts_rtc ordered cursor cap l : forall v v',
  acts ordered cursor cap l v = Some v' -> rtc (step ordered cursor cap) v v'.
Proof.
  induction l as [|a l IH]; intros v v' E; cbn in E; [by simplify_eq|].
  destruct (act ordered cursor cap a v) as [v1|] eqn:Ea; [|done]. cbn in E.
  eapply rtc_l; [|by apply IH]. destruct a as [ok|body|i]; cbn in Ea.
  - simplify_eq. constructor.
  - destruct (to_vec (with_seq 0 body)) as [ev|] eqn:Ev; [|done].
    destruct (Z.eqb_spec (cb_seq body) (Z.of_nat (length (v_log v)) + 1)); simplify_eq.
    by constructor.
  - destruct (v_pending v !! i) as [evt|] eqn:El; [|done].
    destruct (ordered && negb (Nat.eqb i 0)) eqn:Eo; simplify_eq. constructor; [done|].
    intros ->. by destruct (Nat.eqb_spec i 0).
Qed.

(** ** Properties *)

(** C6: no gap, no repeat, no reordering.  A client asks for everything after
    [c].  However its handler's steps interleave with commits and broadcasts,
    however often the channel overflows, wherever a query or a send fails: as
    long as frames are broadcast in the order they were committed, what it has
    been sent is exactly the frames of the rows after [c] up to where the
    handler stands, each once and in order, the same bytes from the backfill as
    from the channel; and when the stream is idle nothing has been missed. *)
Theorem subscription_gap_free `{!RepoSerdeLaws Cid} (c : Z) cap log v (Hc : 0 <= c)
    (Hn : numbered log)
    (Hrun : rtc (step true (Some c) cap) (MkServer log [] fresh_sub) v) :
  s_sent (v_sub v) = frames_between (v_log v) c (s_last (v_sub v)) /\
  (s_pc (v_sub v) = PLive -> s_rx (v_sub v) = MkReceiver [] false -> v_pending v = [] ->
   s_last (v_sub v) = Z.of_nat (length (v_log v))).
Proof.
  pose proof (rtc_inv _ _ _ _ Hc Hrun (fresh_inv _ _ Hc Hn)) as (Hn' & b & Hb & Hp & Hsent & Hpc).
  split; [done|]. intros E Hrx Hpend. rewrite E, Hrx in Hpc.
  destruct Hpc as (j & Hj & Hq & Hl & Hlag). cbn in Hq, Hlag. specialize (Hlag eq_refl).
  rewrite Hpend in Hp. apply Forall2_nil_inv_r in Hp, Hq.
  apply (f_equal length) in Hp, Hq. rewrite length_drop in Hp, Hq. rewrite length_take in Hq.
  cbn in Hp, Hq. lia.
Qed.


(** out of order, a frame is lost.  Commits of two accounts hold different
    locks, so the later of two commits may be broadcast first.  A live client
    that is level with the log then receives only the later frame: the earlier
    one arrives with a smaller number and is taken for a repeat.  The stream
    goes on, idle and level with the log, one event short. *)
Theorem reordered_broadcast_loses cursor cap v body1 ev1 body2 ev2 (Hcap : (2 <= cap)%nat)
    (Hidle : s_pc (v_sub v) = PLive /\ s_rx (v_sub v) = MkReceiver [] false /\ v_pending v = [])
    (Hlevel : s_last (v_sub v) = Z.of_nat (length (v_log v)))
    (H1 : cb_seq body1 = Z.of_nat (length (v_log v)) + 1 /\ to_vec (with_seq 0 body1) = Ok ev1)
    (H2 : cb_seq body2 = Z.of_nat (length (v_log v)) + 2 /\ to_vec (with_seq 0 body2) = Ok ev2) :
  exists v', rtc (step false cursor cap) v v' /\
    v_log v' = v_log v ++ [(cb_seq body1, ev1); (cb_seq body2, ev2)] /\ v_pending v' = [] /\
    s_pc (v_sub v') = PLive /\ s_rx (v_sub v') = MkReceiver [] false /\
    s_last (v_sub v') = Z.of_nat (length (v_log v')) /\
    s_sent (v_sub v') = s_sent (v_sub v) ++ [encode_message_frame "#commit" body2].
Proof.
  destruct v as [log pend [pc rx lst rec snt err]]. cbn in *. destruct Hidle as (-> & -> & ->).
  destruct H1 as [Hs1 He1], H2 as [Hs2 He2]. subst lst.
  eexists. split.
  - apply (acts_rtc _ _ _ [ACommit body1; ACommit body2; ABroadcast 1; AHandler true;
                           ABroadcast 0; AHandler true]).
    cbn [acts act v_log v_pending v_sub]. rewrite He1, Hs1, Z.eqb_refl.
    cbn [mbind option_bind v_log v_pending v_sub]. rewrite He2, Hs2, length_app.
    rewrite (proj2 (Z.eqb_eq _ _)) by (cbn [length]; lia).
    cbn. unfold deliver. cbn. destruct cap as [|[|cap]]; [lia|lia|]. cbn.
    rewrite Hs2. destruct (Z.leb_spec (Z.of_nat (length log) + 2) (Z.of_nat (length log))); [lia|].
    cbn. rewrite Hs1. destruct (Z.leb_spec (Z.of_nat (length log) + 1) (Z.of_nat (length log) + 2)); [|lia].
    reflexivity.
  - cbn. rewrite Hs1, Hs2, <- app_assoc, length_app. cbn. split_and!; done || lia.
Qed.

End Firehose.

(** ** A concrete stream *)

Definition demo_event (seq : Z) (acct : string) : CommitBody string :=
  MkCommitBody seq false false acct "cid" "rev" None "car" [] [] "time" None.

Definition demo_server : Server := MkServer [] [] fresh_sub.

(** Subscribe, two commits around the backfill, one of them also broadcast, a
    third live. *)
Definition demo_schedule : list (Action (Cid := string)) :=
  [AHandler true; ACommit (demo_event 1 "did:a"); AHandler true; AHandler true;
   ACommit (demo_event 2 "did:b"); AHandler true; ABroadcast 0; AHandler true; AHandler true;
   AHandler true; AHandler true; AHandler true; ABroadcast 0; AHandler true;
   ACommit (demo_event 3 "did:a"); ABroadcast 0; AHandler true; AHandler true].
Definition demo_end : Server :=
  default demo_server (acts true (Some 0) 4 demo_schedule demo_server).

Lemma subscription_gap_free_witness :
  s_sent (v_sub demo_end) = frames_between (v_log demo_end) 0 (s_last (v_sub demo_end)) /\
  s_last (v_sub demo_end) = 3.
Proof.
  assert (acts true (Some 0) 4 demo_schedule demo_server = Some demo_end) as E
    by (vm_compute; reflexivity).
  destruct (subscription_gap_free 0 4 [] demo_end ltac:(lia)
              ltac:(intros i r Hr; discriminate Hr) (acts_rtc _ _ _ _ _ _ E)) as [H1 H2].
  split; [exact H1|]. rewrite H2; vm_compute; reflexivity.
Defined.

(** One commit made after the check, its frame broadcast, the backfill still to run. *)
Definition behind_schedule : list (Action (Cid := string)) :=
  [AHandler true; AHandler true; ACommit (demo_event 1 "did:a"); ABroadcast 0].
Definition demo_behind : Server :=
  default demo_server (acts true (Some 0) 4 behind_schedule demo_server).


Lemma reordered_broadcast_loses_witness :
  exists v', rtc (step false (Some 0) 4) demo_end v' /\
    s_last (v_sub v') = 5 /\
    s_sent (v_sub v') =
      s_sent (v_sub demo_end) ++ [encode_message_frame "#commit" (demo_event 5 "did:b")].
Proof.
  destruct (reordered_broadcast_loses (Some 0) 4 demo_end (demo_event 4 "did:a")
              (expect_vec (demo_event 0 "did:a")) (demo_event 5 "did:b")
              (expect_vec (demo_event 0 "did:b")))
    as (v' & Hr & Hl & _ & _ & _ & Hlast & Hs).
  - lia.
  - vm_compute. auto.
  - vm_compute. reflexivity.
  - vm_compute. auto.
  - vm_compute. auto.
  - exists v'. split; [exact Hr|]. split; [|exact Hs]. rewrite Hlast, Hl, length_app.
    vm_compute. reflexivity.
Defined.
