(* ===== verification/KeyCrypto.v ===== *)
(** * Keys at rest

    [src/rust-core/src/storage/crypto.rs]: the encrypted envelope of a key, and
    the portable export format.  Argon2id and AES-256-GCM are parameters.  A
    [usize] is [usize_mod] wide, so that the arithmetic of the importer can be
    followed on a 64-bit and on a 32-bit target; an out-of-range slice is a
    panic. *)

From Stdlib Require Import ZArith Lia Ascii.
From S2P Require Import Prelude RustStr Externals Demo StoreTypes MemoryStore MemoryProps.

(** [argon2] and [aes_gcm]: key derivation and authenticated encryption. *)
Class KeyCiphers := {
  argon2_into : bytes -> bytes -> result string bytes;
  aes_encrypt : bytes -> bytes -> bytes -> option bytes;
  aes_decrypt : bytes -> bytes -> bytes -> option bytes;
}.

Class KeyCipherLaws `{KeyCiphers} := {
  aes_decrypt_encrypt k n p c : aes_encrypt k n p = Some c -> aes_decrypt k n c = Some p;
}.

(** ** Bytes and slices *)

Fixpoint le_bytes (n : nat) (z : Z) : bytes :=
  match n with
  | O => EmptyString
  | S n => String (ascii_of_N (Z.to_N (Z.land z 255))) (le_bytes n (Z.shiftr z 8))
  end.

Fixpoint from_le_bytes (s : bytes) : Z :=
  match s with
  | EmptyString => 0
  | String c s => byte_val c + 256 * from_le_bytes s
  end.

(** [&s\[a..b\]]; [None] is a panic. *)
Definition slice (a b : Z) (s : bytes) : option bytes :=
  if (0 <=? a) && (a <=? b) && (b <=? str_len s)
  then Some (String.substring (Z.to_nat a) (Z.to_nat (b - a)) s)
  else None.

(** [as u32]. *)
Definition u32_wrap (z : Z) : Z := z mod 2 ^ 32.

Section KeyCrypto.
Context `{KeyCiphers} {St : Type} `{KeyStore St}.

Notation M A := (SE St StorageError A).

(** ** The envelope *)

(** [salt] and [nonce] are the fresh random bytes. *)
Definition encrypt_key (salt nonce plaintext passphrase : bytes) : result StorageError bytes :=
  let? key := map_err Crypto (argon2_into passphrase salt) in
  let? ciphertext := ok_or (aes_encrypt key nonce plaintext) (Crypto "AES-GCM encrypt failed") in
  Ok (salt +:+ nonce +:+ ciphertext).

Definition decrypt_key (blob passphrase : bytes) : result StorageError bytes :=
  if str_len blob <? 28 then Err (Crypto "blob too short")
  else
    let salt := String.substring 0 16 blob in
    let nonce := String.substring 16 12 blob in
    let ciphertext := String.substring 28 (String.length blob - 28) blob in
    let? key := map_err Crypto (argon2_into passphrase salt) in
    ok_or (aes_decrypt key nonce ciphertext) (Crypto "wrong passphrase or corrupted key").

(** The blocking task is taken to finish. *)
Definition store_key (salt nonce : bytes) (id plaintext passphrase : bytes) : M unit :=
  (let! blob := lift (encrypt_key salt nonce plaintext passphrase) in
   put_key_blob id blob)%se.

Definition load_key (id passphrase : bytes) : M bytes :=
  (let! o := get_key_blob id in
   match o with
   | None => throw (Crypto "key not found")
   | Some b => lift (decrypt_key b passphrase)
   end)%se.

(** ** The export format *)

Definition export_blob (id ciphertext : bytes) : bytes :=
  le_bytes 4 (u32_wrap (str_len id)) +:+ id +:+
  le_bytes 4 (u32_wrap (str_len ciphertext)) +:+ ciphertext.

Definition export_keys (id passphrase : bytes) : M bytes :=
  (let! o := get_key_blob id in
   let! ciphertext := lift (ok_or o (Crypto "key not found")) in
   let! _p := lift (decrypt_key ciphertext passphrase) in
   ret (export_blob id ciphertext))%se.

Section Import.
Variable usize_mod : Z.

Definition checked_add (a b : Z) : option Z := if a + b <? usize_mod then Some (a + b) else None.
Definition usize_add (a b : Z) : Z := (a + b) mod usize_mod.

(** The parse of [import_keys]; the outer [None] is a panic. *)
Definition parse_export (blob : bytes) : option (result StorageError bytes) :=
  if str_len blob <? 8 then Some (Err (Crypto "export blob too short"))
  else
    h ← slice 0 4 blob;
    let id_len := from_le_bytes h in
    match checked_add 4 id_len with
    | None => Some (Err (Crypto "export blob id length overflows"))
    | Some id_end =>
        if str_len blob <? usize_add id_end 4
        then Some (Err (Crypto "export blob truncated at id"))
        else
          h ← slice id_end (usize_add id_end 4) blob;
          let cipher_len := from_le_bytes h in
          let cipher_start := usize_add id_end 4 in
          match checked_add cipher_start cipher_len with
          | None => Some (Err (Crypto "export blob cipher length overflows"))
          | Some cipher_end =>
              if str_len blob <? cipher_end
              then Some (Err (Crypto "export blob truncated at ciphertext"))
              else c ← slice cipher_start cipher_end blob; Some (Ok c)
          end
    end.

(** [None] is a panic. *)
Definition import_keys (id blob passphrase : bytes) : option (M unit) :=
  p ← parse_export blob;
  Some (let! ciphertext := lift p in
        let! _p := lift (decrypt_key ciphertext passphrase) in
        put_key_blob id ciphertext)%se.

End Import.
End KeyCrypto.

(** The target widths. *)
Definition usize64 : Z := 2 ^ 64.
Definition usize32 : Z := 2 ^ 32.

(** ** Lemmas *)

Lemma length_le_bytes n z : String.length (le_bytes n z) = n.
Proof. revert z. induction n as [|n IH]; intros z; simpl; [done|]. by rewrite IH. Qed.

Lemma from_le_le_bytes n : forall z, 0 <= z < 256 ^ Z.of_nat n -> from_le_bytes (le_bytes n z) = z.
Proof.
  induction n as [|n IH]; intros z Hz; cbn [le_bytes from_le_bytes].
  - change (256 ^ Z.of_nat 0) with 1 in Hz. lia.
  - rewrite Nat2Z.inj_succ, Z.pow_succ_r in Hz by lia.
    assert (Z.land z 255 = z mod 256) as -> by (apply (Z.land_ones z 8); lia).
    assert (Z.shiftr z 8 = z / 256) as -> by (apply (Z.shiftr_div_pow2 z 8); lia).
    rewrite IH.
    + unfold byte_val. rewrite N_ascii_embedding.
      * rewrite Z2N.id by (apply Z.mod_pos_bound; lia). pose proof (Z.div_mod z 256). lia.
      * pose proof (Z.mod_pos_bound z 256). lia.
    + split; [apply Z.div_pos; lia|]. apply Z.div_lt_upper_bound; lia.
Qed.

Lemma from_le_bytes_range s : 0 <= from_le_bytes s < 256 ^ str_len s.
Proof.
  unfold str_len. induction s as [|c s IH]; cbn [from_le_bytes String.length]; [done|].
  rewrite Nat2Z.inj_succ, Z.pow_succ_r by lia.
  assert (0 <= byte_val c < 256) by (unfold byte_val; pose proof (N_ascii_bounded c); lia). lia.
Qed.

Lemma substring_app_mid x y z n m :
  String.length x = n -> String.length y = m -> String.substring n m (x +:+ y +:+ z) = y.
Proof.
  revert n. induction x as [|c x IH]; intros n <- <-.
  - rewrite str_app_nil_l. cbn [String.length]. induction y as [|c y IH]; [by destruct z|].
    rewrite str_app_cons. cbn. f_equal. apply IH.
  - rewrite str_app_cons. cbn [String.length String.substring]. by apply IH.
Qed.

Lemma slice_in a b s :
  0 <= a <= b -> b <= str_len s ->
  slice a b s = Some (String.substring (Z.to_nat a) (Z.to_nat (b - a)) s).
Proof.
  intros [H1 H2] H3. unfold slice.
  by rewrite (proj2 (Z.leb_le 0 a) H1), (proj2 (Z.leb_le a b) H2), (proj2 (Z.leb_le b _) H3).
Qed.

Lemma slice_backwards a b s : b < a -> slice a b s = None.
Proof. intros Hb. unfold slice. by rewrite (proj2 (Z.leb_gt a b) Hb), andb_false_r. Qed.

Lemma slice_app x y z a b : str_len x = a -> str_len y = b - a -> slice a b (x +:+ y +:+ z) = Some y.
Proof.
  intros Hx Hy. pose proof (str_len_nonneg x). pose proof (str_len_nonneg y).
  pose proof (str_len_nonneg z). rewrite slice_in by (rewrite ?str_len_app; lia). f_equal. apply substring_app_mid; unfold str_len in *; lia.
Qed.

(** Any string splits at any length within it. *)
Lemma split_at_len s n : 0 <= n <= str_len s -> exists x y, s = x +:+ y /\ str_len x = n.
Proof.
  unfold str_len. intros Hn. assert (exists k, n = Z.of_nat k) as [k ->]
    by (exists (Z.to_nat n); lia). revert s Hn.
  induction k as [|k IH]; intros s Hn.
  - exists EmptyString, s. done.
  - destruct s as [|c s]; cbn [String.length] in Hn; [lia|].
    destruct (IH s ltac:(lia)) as (x & y & -> & Hx). exists (String c x), y.
    split; [done|]. cbn [String.length]. lia.
Qed.

Lemma from_le_bytes_u32 s : str_len s = 4 -> 0 <= from_le_bytes s < 2 ^ 32.
Proof. intros E. pose proof (from_le_bytes_range s) as R. by rewrite E in R. Qed.

Lemma u32_roundtrip z : 0 <= z < 2 ^ 32 -> from_le_bytes (le_bytes 4 (u32_wrap z)) = z.
Proof.
  intros Hz. unfold u32_wrap. rewrite Z.mod_small by done. apply from_le_le_bytes.
  change (256 ^ Z.of_nat 4) with (2 ^ 32). done.
Qed.

Lemma le_bytes_from_le s : le_bytes (String.length s) (from_le_bytes s) = s.
Proof.
  induction s as [|c s IH]; cbn [String.length le_bytes from_le_bytes]; [done|].
  assert (0 <= byte_val c < 256) as Hc by (unfold byte_val; pose proof (N_ascii_bounded c); lia).
  assert (forall z, Z.land z 255 = z mod 256) as -> by (intros; apply (Z.land_ones z 8); lia).
  assert (forall z, Z.shiftr z 8 = z / 256) as -> by (intros; apply (Z.shiftr_div_pow2 z 8); lia).
  rewrite (Z.mul_comm 256), Z.mod_add, Z.div_add, Z.mod_small, Z.div_small, Z.add_0_l by lia.
  f_equal; [|done]. unfold byte_val. rewrite N2Z.id. apply ascii_N_embedding.
Qed.

(** A four-byte header is the [u32] it spells. *)
Lemma header_of s : str_len s = 4 -> s = le_bytes 4 (u32_wrap (from_le_bytes s)).
Proof.
  intros E. unfold u32_wrap. rewrite Z.mod_small by (by apply from_le_bytes_u32).
  rewrite <- (le_bytes_from_le s) at 1. f_equal. unfold str_len in E. lia.
Qed.

Lemma str_len_le_bytes n z : str_len (le_bytes n z) = Z.of_nat n.
Proof. unfold str_len. by rewrite length_le_bytes. Qed.

Section Parse.
Variable usize_mod : Z.

(** The parse of a blob cut where its headers say, when no sum wraps. *)
Lemma parse_layout hi idb hc rest :
  str_len hi = 4 -> str_len hc = 4 -> str_len idb = from_le_bytes hi ->
  8 + from_le_bytes hi + from_le_bytes hc < usize_mod ->
  parse_export usize_mod (hi +:+ idb +:+ hc +:+ rest) =
    Some (if str_len rest <? from_le_bytes hc
          then Err (Crypto "export blob truncated at ciphertext")
          else Ok (String.substring 0 (Z.to_nat (from_le_bytes hc)) rest)).
Proof.
  intros Hi Hc Hid Hb. pose proof (from_le_bytes_u32 _ Hi). pose proof (from_le_bytes_u32 _ Hc).
  pose proof (str_len_nonneg rest).
  assert (str_len (hi +:+ idb +:+ hc +:+ rest)
          = 8 + from_le_bytes hi + str_len rest) as EL
    by (rewrite !str_len_app; lia).
  unfold parse_export. rewrite EL. destruct (Z.ltb_spec (8 + from_le_bytes hi + str_len rest) 8); [lia|].
  assert (slice 0 4 (hi +:+ idb +:+ hc +:+ rest) = Some hi) as ->.
  { apply (slice_app EmptyString); [done|lia]. }
  cbn [mbind option_bind]. unfold checked_add, usize_add.
  destruct (Z.ltb_spec (4 + from_le_bytes hi) usize_mod); [|lia]. rewrite (Z.mod_small (_ + 4)) by lia.
  destruct (Z.ltb_spec (8 + from_le_bytes hi + str_len rest) (4 + from_le_bytes hi + 4)); [lia|].
  assert (slice (4 + from_le_bytes hi) (4 + from_le_bytes hi + 4) (hi +:+ idb +:+ hc +:+ rest)
          = Some hc) as ->.
  { rewrite <- str_app_assoc. apply slice_app; [rewrite str_len_app; lia|lia]. }
  cbn [mbind option_bind].
  destruct (Z.ltb_spec (4 + from_le_bytes hi + 4 + from_le_bytes hc) usize_mod); [|lia].
  destruct (Z.ltb_spec (8 + from_le_bytes hi + str_len rest)
              (4 + from_le_bytes hi + 4 + from_le_bytes hc)) as [Hlt|Hge].
  - destruct (Z.ltb_spec (str_len rest) (from_le_bytes hc)); [done|lia].
  - destruct (Z.ltb_spec (str_len rest) (from_le_bytes hc)); [lia|].
    destruct (split_at_len rest (from_le_bytes hc)) as (c & tail & -> & Ec); [lia|].
    rewrite <- !str_app_assoc, (str_app_assoc (_ +:+ hc)).
    rewrite slice_app by (rewrite ?str_len_app; lia). cbn [mbind option_bind].
    do 3 f_equal. replace c with (EmptyString +:+ c) at 2 by apply str_app_nil_l.
    rewrite str_app_assoc, substring_app_mid; [done|done|unfold str_len in Ec; lia].
Qed.
End Parse.

Lemma substring_all_of c tail n :
  String.length c = n -> String.substring 0 n (c +:+ tail) = c.
Proof. intros E. by apply (substring_app_mid EmptyString). Qed.

Lemma str_len_export idb c : str_len (export_blob idb c) = 8 + str_len idb + str_len c.
Proof. unfold export_blob. rewrite !str_len_app, !str_len_le_bytes. lia. Qed.

(** What the importer makes of a well-formed blob, with or without bytes after it. *)
Lemma parse_export_blob idb c tail :
  str_len idb < 2 ^ 32 -> str_len c < 2 ^ 32 ->
  parse_export usize64 (export_blob idb c +:+ tail) = Some (Ok c).
Proof.
  intros Hi Hc. pose proof (str_len_nonneg idb). pose proof (str_len_nonneg c).
  pose proof (str_len_nonneg tail). unfold export_blob. rewrite !str_app_assoc.
  rewrite parse_layout;
    rewrite ?str_len_le_bytes, ?u32_roundtrip by lia; try done; [|unfold usize64; lia].
  rewrite str_len_app. destruct (Z.ltb_spec (str_len c + str_len tail) (str_len c)); [lia|].
  rewrite substring_all_of by (unfold str_len; lia). done.
Qed.

(** On a 64-bit target the importer's parse never panics, and it accepts exactly
    the blobs that start with an export. *)
Lemma parse_export_64 blob :
  exists r, parse_export usize64 blob = Some r /\
    forall c, r = Ok c <->
      exists idb tail, str_len idb < 2 ^ 32 /\ str_len c < 2 ^ 32 /\ blob = export_blob idb c +:+ tail.
Proof.
  assert (exists r, parse_export usize64 blob = Some r /\
    forall c, r = Ok c ->
      exists idb tail, str_len idb < 2 ^ 32 /\ str_len c < 2 ^ 32 /\ blob = export_blob idb c +:+ tail)
    as (r & E & Hr).
  2:{ exists r. split; [done|]. intros c. split; [apply Hr|].
      intros (idb & tail & Hi & Hc & ->). rewrite parse_export_blob in E by done. congruence. }
  destruct (Z.ltb_spec (str_len blob) 8) as [Hlt|Hge].
  { exists (Err (Crypto "export blob too short")). split; [|done].
    unfold parse_export. by destruct (Z.ltb_spec (str_len blob) 8); [|lia]. }
  destruct (split_at_len blob 4) as (hi & rest & -> & Hi); [lia|].
  rewrite str_len_app in Hge. pose proof (from_le_bytes_u32 _ Hi) as Hb.
  destruct (Z.ltb_spec (str_len rest) (from_le_bytes hi + 4)) as [Hlt|Hge'].
  { exists (Err (Crypto "export blob truncated at id")). split; [|done].
    unfold parse_export. rewrite str_len_app. destruct (Z.ltb_spec (str_len hi + str_len rest) 8); [lia|].
    assert (slice 0 4 (hi +:+ rest) = Some hi) as -> by (apply (slice_app EmptyString); [done|lia]).
    cbn [mbind option_bind]. unfold checked_add, usize_add, usize64.
    destruct (Z.ltb_spec (4 + from_le_bytes hi) (2 ^ 64)); [|lia]. rewrite Z.mod_small by lia.
    by destruct (Z.ltb_spec (str_len hi + str_len rest) (4 + from_le_bytes hi + 4)); [|lia]. }
  destruct (split_at_len rest (from_le_bytes hi)) as (idb & rest' & -> & Hid); [lia|].
  rewrite str_len_app in Hge'. destruct (split_at_len rest' 4) as (hc & rest & -> & Hc); [lia|].
  pose proof (from_le_bytes_u32 _ Hc) as Hb'.
  eexists. split; [apply parse_layout; [done..|unfold usize64; lia]|]. intros c Ec.
  destruct (Z.ltb_spec (str_len rest) (from_le_bytes hc)) as [|Hl]; [done|].
  destruct (split_at_len rest (from_le_bytes hc)) as (c' & tail & -> & Hc'); [lia|].
  rewrite substring_all_of in Ec by (unfold str_len in Hc'; lia). injection Ec as <-.
  exists idb, tail. split; [lia|]. split; [lia|].
  unfold export_blob. by rewrite Hid, Hc', <- !header_of, !str_app_assoc.
Qed.

(** ** Properties *)

Section Keys.
Context `{KeyCipherLaws} `{Countable Cid}.

Lemma decrypt_encrypt salt nonce plaintext passphrase blob :
  str_len salt = 16 -> str_len nonce = 12 ->
  encrypt_key salt nonce plaintext passphrase = Ok blob -> decrypt_key blob passphrase = Ok plaintext.
Proof.
  unfold encrypt_key, decrypt_key. intros Hs Hn E.
  destruct (argon2_into passphrase salt) as [key|] eqn:Ea; cbn in E; [|done].
  destruct (aes_encrypt key nonce plaintext) as [c|] eqn:Ec; cbn in E; [|done]. injection E as <-.
  rewrite !str_len_app. pose proof (str_len_nonneg c).
  destruct (Z.ltb_spec (str_len salt + (str_len nonce + str_len c)) 28); [lia|].
  assert (String.length salt = 16%nat) by (unfold str_len in *; lia).
  assert (String.length nonce = 12%nat) by (unfold str_len in *; lia).
  rewrite substring_all_of by done. rewrite Ea. cbn.
  rewrite (substring_app_mid salt nonce c) by done.
  assert (String.substring 28 (String.length (salt +:+ nonce +:+ c) - 28) (salt +:+ nonce +:+ c) = c)
    as ->; [|by rewrite (aes_decrypt_encrypt _ _ _ _ Ec)].
  rewrite !length_str_app. rewrite <- (str_app_nil_r c) at 2. rewrite <- (str_app_assoc salt).
  apply substring_app_mid; [rewrite length_str_app; lia|lia].
Qed.

(** a key stored under a passphrase and exported with it can be imported
    into any other store, under any id, and loads there as the same plaintext;
    the export leaves the first store alone and the import changes no other id. *)
Theorem key_export_import (s s1 s2 t : Inner Cid) salt nonce id id' plaintext pass blob :
  str_len salt = 16 -> str_len nonce = 12 -> str_len blob < 2 ^ 32 ->
  store_key salt nonce id plaintext pass s = (Ok tt, s1) ->
  export_keys id pass s1 = (Ok blob, s2) ->
  s2 = s1 /\
  exists imp t1, import_keys usize64 id' blob pass = Some imp /\ imp t = (Ok tt, t1) /\
    load_key id' pass t1 = (Ok plaintext, t1) /\
    t1.(keys) !! id' = s1.(keys) !! id /\
    forall j, j <> id' -> t1.(keys) !! j = t.(keys) !! j.
Proof.
  intros Hs Hn Hl Est Eex. unfold store_key in Est.
  apply bind_Ok in Est as (c & s0 & E1 & E2). unfold lift in E1. injection E1 as Ec <-.
  cbn in E2. unfold mem_put_key_blob, write in E2. injection E2 as <-.
  pose proof (decrypt_encrypt _ _ _ _ _ Hs Hn Ec) as Ed.
  assert (E := Eex). unfold export_keys in E. apply bind_Ok in E as (o & s3 & E1 & E).
  cbn in E1. unfold mem_get_key_blob, read in E1. injection E1 as <- <-.
  cbn [keys set_keys] in E. rewrite lookup_insert_eq in E. cbn in E.
  unfold bind, lift in E. rewrite Ed in E. cbn in E. injection E as <- <-. split; [done|].
  rewrite str_len_export in Hl. pose proof (str_len_nonneg id). pose proof (str_len_nonneg c).
  unfold import_keys. rewrite <- (str_app_nil_r (export_blob id c)).
  rewrite parse_export_blob by lia. cbn [mbind option_bind]. eexists _, _. split; [done|].
  unfold bind, lift. rewrite Ed. cbn. split; [done|].
  unfold load_key, bind, lift, mem_get_key_blob, read. cbn. rewrite !lookup_insert_eq, Ed.
  split; [done|]. split; [done|]. intros j Hj. by rewrite lookup_insert_ne.
Qed.

(** on a 64-bit target an import never panics, whatever the file; it succeeds
    exactly on files that start with an export whose ciphertext the passphrase
    opens, it then stores that ciphertext under the id, and a refused import
    leaves the store as it was. *)
Theorem import_keys_spec id blob pass (t : Inner Cid) :
  exists imp, import_keys usize64 id blob pass = Some imp /\
    (forall t', imp t = (Ok tt, t') <->
      exists idb c tail p, str_len idb < 2 ^ 32 /\ str_len c < 2 ^ 32 /\
        blob = export_blob idb c +:+ tail /\ decrypt_key c pass = Ok p /\
        t' = set_keys (<[id := c]> t.(keys)) t) /\
    (forall e t', imp t = (Err e, t') -> t' = t).
Proof.
  destruct (parse_export_64 blob) as (r & E & Hr). unfold import_keys. rewrite E.
  cbn [mbind option_bind]. eexists. split; [done|]. unfold bind, lift.
  destruct r as [c|e].
  - destruct (decrypt_key c pass) as [p|e] eqn:Ed; cbn; unfold mem_put_key_blob, write.
    + split; [|by intros e t' [=]]. intros t'. split.
      * intros [= <-]. destruct (proj1 (Hr c) eq_refl) as (idb & tail & ? & ? & ?).
        by exists idb, c, tail, p.
      * intros (idb & c' & tail & p' & ? & ? & ? & ? & ->).
        assert (Ok c = Ok c') as [= ->] by (apply Hr; eauto). done.
    + split; [|by intros e' t' [= _ <-]]. intros t'. split; [done|].
      intros (idb & c' & tail & p' & ? & ? & ? & ? & ->).
      assert (Ok c = Ok c') as [= ->] by (apply Hr; eauto). congruence.
  - cbn. split; [|by intros e' t' [= _ <-]]. intros t'. split; [done|].
    intros (idb & c' & tail & p' & ? & ? & ? & ? & ->).
    assert (Err e = Ok c') by (apply Hr; eauto). done.
Qed.

End Keys.

(** on a 32-bit target the sum [id_end + 4] is not checked: the importer
    panics on every file of at least eight bytes, and under 4 GiB, whose first
    word is one of the four values from [2^32 - 8], and on no other. *)
Theorem import_panics_on_32_bit blob :
  str_len blob < 2 ^ 32 ->
  (parse_export usize32 blob = None <->
   8 <= str_len blob /\
   2 ^ 32 - 8 <= from_le_bytes (String.substring 0 4 blob) < 2 ^ 32 - 4).
Proof.
  intros Hl. unfold parse_export. destruct (Z.ltb_spec (str_len blob) 8); [split; [done|lia]|].
  destruct (split_at_len blob 4) as (hi & rest & -> & Hi); [lia|].
  rewrite substring_all_of by (unfold str_len in Hi; lia).
  assert (slice 0 4 (hi +:+ rest) = Some hi) as -> by (apply (slice_app EmptyString); [done|lia]).
  cbn [mbind option_bind]. pose proof (from_le_bytes_u32 _ Hi) as Hb.
  unfold checked_add, usize_add, usize32 in *.
  destruct (Z.ltb_spec (4 + from_le_bytes hi) (2 ^ 32)); [|split; [done|lia]].
  destruct (Z.ltb_spec (from_le_bytes hi) (2 ^ 32 - 8)) as [Hsm|Hbig].
  - split; [|lia]. rewrite Z.mod_small by lia. rewrite str_len_app in *.
    destruct (Z.ltb_spec (str_len hi + str_len rest) (4 + from_le_bytes hi + 4)); [done|].
    rewrite slice_in by (rewrite ?str_len_app; lia). cbn [mbind option_bind].
    set (w := String.substring _ _ _). pose proof (from_le_bytes_range w).
    destruct (Z.ltb_spec (4 + from_le_bytes hi + 4 + from_le_bytes w) (2 ^ 32)); [|done].
    destruct (Z.ltb_spec (str_len hi + str_len rest) (4 + from_le_bytes hi + 4 + from_le_bytes w)); [done|].
    by rewrite slice_in by (rewrite ?str_len_app; lia).
  - split; [intros _; rewrite str_len_app in *; lia|]. intros _.
    replace ((4 + from_le_bytes hi + 4) mod 2 ^ 32) with (from_le_bytes hi + 8 - 2 ^ 32)
      by (rewrite <- (Z.mod_small (from_le_bytes hi + 8 - 2 ^ 32) (2 ^ 32)) by lia;
          rewrite <- (Z.mod_add (from_le_bytes hi + 8 - 2 ^ 32) 1) by lia; f_equal; lia).
    destruct (Z.ltb_spec (str_len (hi +:+ rest)) (from_le_bytes hi + 8 - 2 ^ 32)); [lia|].
    by rewrite slice_backwards by lia.
Qed.

(** ** Witnesses *)

#[export] Instance demo_ciphers : KeyCiphers := {
  argon2_into p s := Ok (p +:+ s);
  aes_encrypt k n p := Some (k +:+ n +:+ p);
  aes_decrypt k n c := strip_prefix (k +:+ n) c;
}.
#[export] Instance demo_cipher_laws : KeyCipherLaws.
Proof. split. intros k n p c [= <-]. apply strip_prefix_Some. by rewrite str_app_assoc. Defined.

Lemma import_panics_on_32_bit_witness :
  parse_export usize32 (le_bytes 4 (2 ^ 32 - 8) +:+ le_bytes 4 0) = None.
Proof.
  refine (proj2 (import_panics_on_32_bit _ _) _).
  - by vm_compute.
  - vm_compute. by split.
Defined.

Lemma key_export_import_witness :
  let salt := "0123456789abcdef" in let nonce := "0123456789ab" in
  exists (s1 t1 : Inner nat) blob imp,
    export_keys "signing" "pass" s1 = (Ok blob, s1) /\
    import_keys usize64 "other" blob "pass" = Some imp /\
    imp Inner_default = (Ok tt, t1) /\ load_key "other" "pass" t1 = (Ok "key bytes", t1).
Proof.
  intros salt nonce.
  destruct (store_key salt nonce "signing" "key bytes" "pass" (Inner_default (Cid := nat)))
    as [[[]|e] s1] eqn:Es; [|exfalso; vm_compute in Es; discriminate Es].
  destruct (export_keys "signing" "pass" s1) as [[blob|e] s2] eqn:Ee;
    [|exfalso; injection Es as <-; vm_compute in Ee; discriminate Ee].
  assert (str_len blob < 2 ^ 32) as Hl
    by (injection Es as <-; vm_compute in Ee; injection Ee as <- _; by vm_compute).
  destruct (key_export_import _ s1 s2 Inner_default salt nonce "signing" "other" "key bytes" "pass"
              blob eq_refl eq_refl Hl Es Ee) as (-> & imp & t1 & Hi & Ht & Hload & _).
  by exists s1, t1, blob, imp.
Defined.
