(* ===== verification/Identity.v ===== *)
(** * DIDs: the did:plc genesis operation and the did:web document

    [src/rust-core/src/identity/plc.rs] and [src/rust-core/src/identity/web.rs].
    A PLC directory is a parameter that answers a posted operation; every post
    is kept, in order. *)

From Stdlib Require Import ZArith Lia Ascii.
From S2P Require Import Prelude RustStr Externals Demo StoreTypes MemoryStore MemoryProps OAuthCore.
From S2P Require Import Jose Dpop Client OAuthServer OAuthProps Session Repo.

(** [Secp256k1Keypair::did], [export] and [import]. *)
Class KeypairIO `{Keypairs} := {
  kp_did : Keypair -> string;
  kp_export : Keypair -> bytes;
  kp_import : bytes -> result string Keypair;
}.

Class KeypairIOLaws `{KeypairIO} := {
  kp_import_export k : kp_import (kp_export k) = Ok k;
}.

(** ** did:plc *)

Record PlcService := MkPlcService { ps_type : string; ps_endpoint : string }.

(** A [BTreeMap] is its ascending list of pairs. *)
Record PlcGenesisOpUnsigned := MkPlcUnsigned {
  pu_op_type : string;
  pu_rotation_keys : list string;
  pu_verification_methods : list (string * string);
  pu_also_known_as : list string;
  pu_services : list (string * PlcService);
  pu_prev : option string;
}.

Record PlcGenesisOpSigned := MkPlcSigned {
  pg_op_type : string;
  pg_rotation_keys : list string;
  pg_verification_methods : list (string * string);
  pg_also_known_as : list string;
  pg_services : list (string * PlcService);
  pg_prev : option string;
  pg_sig : string;
}.

(** [serde_ipld_dagcbor] on the two, and [data_encoding::BASE32_NOPAD]. *)
Class PlcLib := {
  plc_unsigned_serde :: Serde PlcGenesisOpUnsigned;
  plc_signed_serde :: Serde PlcGenesisOpSigned;
  base32_nopad_encode : bytes -> string;
}.

(** The operations posted so far. *)
Definition PlcPosts : Type := list (string * PlcGenesisOpSigned).

Definition plc_unsigned (gop : PlcGenesisOpSigned) : PlcGenesisOpUnsigned :=
  MkPlcUnsigned (pg_op_type gop) (pg_rotation_keys gop) (pg_verification_methods gop)
    (pg_also_known_as gop) (pg_services gop) (pg_prev gop).

Section Plc.
Context `{Digests} `{KeypairIO} `{PlcLib}.
(** [PlcClient::post_operation]: what the directory answers. *)
Variable plc_answer : string -> PlcGenesisOpSigned -> result CoreError unit.

Definition post_operation (did : string) (gop : PlcGenesisOpSigned) : SE PlcPosts CoreError unit :=
  fun posts => (plc_answer did gop, posts ++ [(did, gop)]).

(** The digest's 32 bytes are 52 letters, so [&b32\[..24\]] is in range. *)
Definition plc_did_of (signed_cbor : bytes) : string :=
  "did:plc:" +:+ String.substring 0 24 (to_ascii_lowercase (base32_nopad_encode (sha256 signed_cbor))).

Definition core_internal {A} (context : string) (r : result string A) : result CoreError A :=
  map_err (fun e => CoreInternal (context +:+ e)) r.

Definition register_did_plc (handle pds_endpoint : string) (signing_key rotation_key : Keypair)
    : SE PlcPosts CoreError string :=
  (let verification_methods := [("atproto", kp_did signing_key)] in
   let services := [("atproto_pds", MkPlcService "AtprotoPersonalDataServer" pds_endpoint)] in
   let unsigned := MkPlcUnsigned "plc_operation" [kp_did rotation_key] verification_methods
                     ["at://" +:+ handle] services None in
   let! unsigned_cbor := lift (core_internal "dag-cbor encode unsigned: " (to_vec unsigned)) in
   let! sig_bytes := lift (core_internal "secp256k1 sign error: " (kp_sign rotation_key unsigned_cbor)) in
   let sig_b64url := b64url_encode sig_bytes in
   let signed := MkPlcSigned "plc_operation" [kp_did rotation_key] verification_methods
                   ["at://" +:+ handle] services None sig_b64url in
   let! signed_cbor := lift (core_internal "dag-cbor encode signed: " (to_vec signed)) in
   let did := plc_did_of signed_cbor in
   post_operation did signed ;;!
   ret did)%se.

(** ** did:web *)

Record VerificationMethod := MkVm {
  vm_id : string; vm_type : string; vm_controller : string; vm_public_key_multibase : string }.
Record ServiceEntry := MkServiceEntry { se_id : string; se_type : string; se_endpoint : string }.
Record DidDocument := MkDidDocument {
  dd_context : list string;
  dd_id : string;
  dd_also_known_as : list string;
  dd_verification_method : list VerificationMethod;
  dd_service : list ServiceEntry;
}.

Definition did_web (hostname : string) : string := "did:web:" +:+ hostname.

Definition public_key_multibase (key_did : string) : string :=
  default key_did (strip_prefix "did:key:" key_did).

Definition did_web_document (hostname : string) (signing_key : Keypair) (pds_endpoint : string)
    : DidDocument :=
  let did := did_web hostname in {|
  dd_context := ["https://www.w3.org/ns/did/v1"; "https://w3id.org/security/multikey/v1"];
  dd_id := did;
  dd_also_known_as := [];
  dd_verification_method :=
    [MkVm (did +:+ "#atproto") "Multikey" did (public_key_multibase (kp_did signing_key))];
  dd_service := [MkServiceEntry "#atproto_pds" "AtprotoPersonalDataServer" pds_endpoint] |}.

(** ** Lemmas *)

(** What a successful registration posted, and what the DID is. *)
Lemma register_did_plc_Ok `{!DigestLaws} `{!KeypairLaws} handle endpoint sk rk posts did posts' :
  register_did_plc handle endpoint sk rk posts = (Ok did, posts') ->
  exists gop cbor ucbor sig,
    posts' = posts ++ [(did, gop)] /\ plc_answer did gop = Ok tt /\
    pg_verification_methods gop = [("atproto", kp_did sk)] /\ pg_rotation_keys gop = [kp_did rk] /\
    pg_also_known_as gop = ["at://" +:+ handle] /\
    pg_services gop = [("atproto_pds", MkPlcService "AtprotoPersonalDataServer" endpoint)] /\
    pg_prev gop = None /\
    to_vec gop = Ok cbor /\ did = plc_did_of cbor /\
    to_vec (plc_unsigned gop) = Ok ucbor /\ b64url_decode (pg_sig gop) = Some sig /\
    kp_verify rk ucbor sig = true.
Proof.
  unfold register_did_plc. intros E.
  apply bind_Ok in E as (ucbor & s1 & E1 & E). unfold lift, core_internal in E1.
  injection E1 as Eu <-. apply map_err_Ok in Eu.
  apply bind_Ok in E as (sig & s1 & E1 & E). unfold lift, core_internal in E1.
  injection E1 as Es <-. apply map_err_Ok in Es.
  apply bind_Ok in E as (cbor & s1 & E1 & E). unfold lift, core_internal in E1.
  injection E1 as Ec <-. apply map_err_Ok in Ec.
  apply bind_Ok in E as ([] & s1 & E1 & E). unfold post_operation in E1.
  injection E1 as Ea <-. unfold ret in E. injection E as <- <-.
  eexists _, cbor, ucbor, sig. split_and!; try done.
  - apply b64url_decode_encode.
  - by eapply kp_verify_sign.
Qed.

(** At most one operation is posted, whatever happens. *)
Lemma register_did_plc_posts handle endpoint sk rk posts :
  exists l, snd (register_did_plc handle endpoint sk rk posts) = posts ++ l /\ (length l <= 1)%nat.
Proof.
  unfold register_did_plc, bind, lift, post_operation, ret.
  repeat case_match; simplify_eq/=; try (exists []; rewrite app_nil_r; split; [done|cbn; lia]);
    (eexists [_]; split; [done|cbn; lia]).
Qed.

End Plc.
