(* ===== verification/Accounts.v ===== *)
(** * Accounts and sessions

    [src/rust-pds/src/xrpc/server.rs]: registration with its invite gate,
    app-password sessions, and the expiry of service tokens; with the password
    helpers of [src/rust-core/src/auth/jwt.rs].  The handlers run over any
    storage backend and a PLC directory; the theorems are about the in-memory
    one.  Argon2id is a parameter, fresh randomness and clock readings are
    arguments. *)

From Stdlib Require Import ZArith Lia Ascii.
From S2P Require Import Prelude RustStr Externals Demo StoreTypes MemoryStore MemoryProps OAuthCore.
From S2P Require Import Jose Dpop Client OAuthServer OAuthProps Session Repo KeyCrypto Identity.

(** [argon2]: hashing under a salt, the PHC string format, verification. *)
Class Argon2 := {
  Phc : Type;
  argon2_hash : bytes -> string -> result string string;
  phc_parse : string -> result string Phc;
  argon2_verify : string -> Phc -> bool;
}.

Class Argon2Laws `{Argon2} := {
  argon2_verify_hash salt p h : argon2_hash salt p = Ok h ->
    exists ph, phc_parse h = Ok ph /\ argon2_verify p ph = true;
}.

Section Passwords.
Context `{Argon2}.

Definition hash_password (salt : bytes) (password : string) : result CoreError string :=
  map_err (fun e => CoreInternal ("argon2 hash error: " +:+ e)) (argon2_hash salt password).

Definition verify_password (password phc : string) : result CoreError bool :=
  let? parsed := map_err (fun e => CoreInternal ("malformed PHC string: " +:+ e)) (phc_parse phc) in
  Ok (argon2_verify password parsed).

End Passwords.

(** ** State and messages *)

(** The fields of [AppState] these handlers read. *)
Record AppState := MkAppState {
  st_jwt_secret : bytes;
  st_hostname : string;
  st_pds_endpoint : string;
  st_open_registration : bool;
  st_key_passphrase : bytes;
}.

Record DescribeServerResponse := {
  ds_did : string; ds_available_user_domains : list string; ds_invite_code_required : bool }.

Record CreateSessionInput := { cs_identifier : string; cs_password : string }.

Record SessionResponse := MkSession {
  sr_access_jwt : string; sr_refresh_jwt : string; sr_handle : string; sr_did : string;
  sr_active : bool }.

Record GetSessionResponse := MkGetSession { gs_handle : string; gs_did : string; gs_active : bool }.

Record CreateAccountInput := {
  ca_handle : string;
  ca_email : option string;
  ca_password : option string;
  ca_invite_code : option string;
  ca_did : option string;
  ca_recovery_key : option string;
}.

Record CreateAccountResponse := MkCreated {
  cr_access_jwt : string; cr_refresh_jwt : string; cr_handle : string; cr_did : string }.

(** What issuing a session draws: two clock readings and a fresh UUID. *)
Record SessionDraw := { sd_now_access : Z; sd_now_refresh : Z; sd_uuid : string }.

(** ** Handle syntax *)

Definition is_handle_char (c : ascii) : bool := is_ascii_alphanumeric c || Ascii.eqb c "-".

Definition handle_segment_ok (seg : string) : bool :=
  negb (String.eqb seg "") && negb (starts_with "-" seg || ends_with "-" seg) &&
  all_bytes is_handle_char seg.

Definition validate_handle (handle : string) : result XrpcError unit :=
  if String.eqb handle "" || (253 <? str_len handle) then Err XInvalidHandle
  else
    let segments := split_char "." handle in
    if (length segments <? 2)%nat then Err XInvalidHandle
    else if forallb handle_segment_ok segments then Ok tt else Err XInvalidHandle.

(** ** The expiry of a service token

    [requested] is the caller's [i64]; [as u64] reinterprets it. *)
Definition service_auth_exp (now : Z) (requested : option Z) : Z :=
  let max_exp := u64_add now (30 * 60) in
  match requested with
  | Some e => if now <? u64_wrap e then Z.min (u64_wrap e) max_exp else u64_add now 60
  | None => u64_add now 60
  end.

Section Handlers.
Context `{Digests} `{Json} `{Jwt} `{Argon2} `{KeyCiphers} `{KeypairIO} `{PlcLib}.
Context {Cid St : Type} `{StorageBackend Cid St}.
Variable state : AppState.

(** ** Sessions *)

Definition describe_server : DescribeServerResponse := {|
  ds_did := "did:web:" +:+ st_hostname state;
  ds_available_user_domains := ["." +:+ st_hostname state];
  ds_invite_code_required := negb (st_open_registration state) |}.

Definition issue_session (did : string) (d : SessionDraw) : result XrpcError (string * string) :=
  let? access := map_err xrpc_of_core
    (encode_access_jwt_at did (st_jwt_secret state) (sd_now_access d)) in
  let? refresh := map_err xrpc_of_core
    (encode_refresh_jwt_at (sd_uuid d) did (st_jwt_secret state) (sd_now_refresh d)) in
  Ok (access, refresh).

Definition BAD_LOGIN : XrpcError := XInvalidRequest "invalid identifier or password".

Definition create_session (d : SessionDraw) (input : CreateSessionInput)
    : SE St XrpcError SessionResponse :=
  (let! row := with_err xrpc_of_storage (get_account_by_handle (cs_identifier input)) in
   let! row := lift (ok_or row BAD_LOGIN) in
   let '(did, phc) := row in
   let! verified := lift (map_err xrpc_of_core (verify_password (cs_password input) phc)) in
   assert_or verified BAD_LOGIN ;;!
   let! t := lift (issue_session did d) in
   ret (MkSession (fst t) (snd t) (cs_identifier input) did true))%se.

(** The DID of [refresh_session] and [get_session] is the extractor's. *)
Definition refresh_session (d : SessionDraw) (did : string) : SE St XrpcError SessionResponse :=
  (let! h := with_err xrpc_of_storage (get_handle_by_did did) in
   let! handle := lift (ok_or h XAccountTakedown) in
   let! t := lift (issue_session did d) in
   ret (MkSession (fst t) (snd t) handle did true))%se.

Definition get_session (did : string) : SE St XrpcError GetSessionResponse :=
  (let! h := with_err xrpc_of_storage (get_handle_by_did did) in
   let! handle := lift (ok_or h XAccountTakedown) in
   ret (MkGetSession handle did true))%se.

Definition delete_session : Z := 200.

(** ** Registration *)

Definition AccountWorld : Type := St * PlcPosts.
Notation M A := (SE AccountWorld XrpcError A).

Definition acct_store {A} (m : SE St StorageError A) : M A :=
  fun '(s, posts) => let '(r, s') := m s in (map_err xrpc_of_storage r, (s', posts)).
Definition acct_plc {A} (m : SE PlcPosts CoreError A) : M A :=
  fun '(s, posts) => let '(r, posts') := m posts in (map_err xrpc_of_core r, (s, posts')).

(** What the directory answers a post, what a did:web resolves to. *)
Variable plc_answer : string -> PlcGenesisOpSigned -> result CoreError unit.
Variable did_web_resolve : string -> option Value.

(** The draws of one registration. *)
Record AccountDraw := {
  ad_signing : Keypair;
  ad_rotation : Keypair;
  ad_phc_salt : bytes;
  ad_signing_salt : bytes;
  ad_signing_nonce : bytes;
  ad_rotation_salt : bytes;
  ad_rotation_nonce : bytes;
  ad_created_at : string;
  ad_session : SessionDraw;
}.

(** Steps 1 and 2: the handle, lowercased, well-formed and of this server. *)
Definition account_handle (input : CreateAccountInput) : result XrpcError string :=
  let handle := to_ascii_lowercase (ca_handle input) in
  let? _u := validate_handle handle in
  let expected_suffix := "." +:+ st_hostname state in
  ensure String.eqb handle (st_hostname state) || ends_with expected_suffix handle
    orelse XUnsupportedDomain in
  Ok handle.

(** Step 4: whether an invite was consumed. *)
Definition invite_gate (handle : string) (input : CreateAccountInput) : M bool :=
  (let! preliminary_n := acct_store count_accounts in
   if preliminary_n =? 0 then ret false
   else if st_open_registration state then ret false
   else
     let! code := lift (ok_or (ca_invite_code input) XInvalidInviteCode) in
     let! consumed := acct_store (consume_invite code handle) in
     assert_or consumed XInvalidInviteCode ;;!
     ret true)%se.

(** Steps 1 to 4. *)
Definition create_account_gate (input : CreateAccountInput) : M (string * bool) :=
  (let! handle := lift (account_handle input) in
   let! taken := acct_store (get_account_by_handle handle) in
   assert_or (is_none taken) XHandleNotAvailable ;;!
   let! invite_consumed := invite_gate handle input in
   ret (handle, invite_consumed))%se.

(** Step 6. *)
Definition account_did (d : AccountDraw) (handle : string) (input : CreateAccountInput) : M string :=
  let plc := acct_plc (register_did_plc plc_answer handle (st_pds_endpoint state)
                         (ad_signing d) (ad_rotation d)) in
  match ca_did input with
  | Some did =>
      if starts_with "did:web:" did then
        (let! doc := lift (ok_or (did_web_resolve did) XUnresolvableDid) in
         assert_or (bool_decide (json_str "id" doc = Some did)) XUnresolvableDid ;;!
         ret did)%se
      else plc
  | None => plc
  end.

Definition account_phc (d : AccountDraw) (input : CreateAccountInput) : result XrpcError string :=
  let? password := ok_or (match ca_password input with
                          | Some p => if String.eqb p "" then None else Some p
                          | None => None
                          end) (XInvalidRequest "password is required") in
  ensure negb (str_len password <? 8)
    orelse XInvalidRequest "password must be at least 8 characters" in
  map_err xrpc_of_core (hash_password (ad_phc_salt d) password).

(** Both keys, encrypted under the server's passphrase. *)
Definition store_account_keys (d : AccountDraw) (did : string) : M unit :=
  (acct_store (store_key (ad_signing_salt d) (ad_signing_nonce d) (did +:+ "#signing")
                 (kp_export (ad_signing d)) (st_key_passphrase state)) ;;!
   acct_store (store_key (ad_rotation_salt d) (ad_rotation_nonce d) (did +:+ "#rotation")
                 (kp_export (ad_rotation d)) (st_key_passphrase state)))%se.

(** Steps 5 to 8. *)
Definition create_account_finish (d : AccountDraw) (input : CreateAccountInput)
    (gate : string * bool) : M CreateAccountResponse :=
  let '(handle, invite_consumed) := gate in
  (let! did := account_did d handle input in
   let! phc := lift (account_phc d input) in
   let! count_before := acct_store
     (count_and_insert_account did handle (ca_email input) phc (ad_created_at d)) in
   assert_or (negb ((0 <? count_before) && negb (st_open_registration state) &&
                    negb invite_consumed)) XInvalidInviteCode ;;!
   store_account_keys d did ;;!
   let! t := lift (issue_session did (ad_session d)) in
   ret (MkCreated (fst t) (snd t) handle did))%se.

Definition create_account_inner (d : AccountDraw) (input : CreateAccountInput)
    : M CreateAccountResponse :=
  (let! gate := create_account_gate input in create_account_finish d input gate)%se.

End Handlers.

(** ** Lemmas *)

Section Mem.
Context `{Digests} `{Json} `{Jwt} `{Argon2} `{KeyCiphers} `{KeypairIO} `{PlcLib}.
Context {Cid : Type} `{Countable Cid}.
Implicit Types (g : Inner Cid) (posts : PlcPosts).
Variable state : AppState.
Variable plc_answer : string -> PlcGenesisOpSigned -> result CoreError unit.
Variable did_web_resolve : string -> option Value.

Lemma acct_store_Ok {A} (m : SE (Inner Cid) StorageError A) g posts a w' :
  acct_store m (g, posts) = (Ok a, w') <-> exists g', m g = (Ok a, g') /\ w' = (g', posts).
Proof. unfold acct_store. destruct (m g) as [[x|e] g']; naive_solver. Qed.

(** The row a registration writes, and the store with it. *)
Definition account_row (d : AccountDraw) (input : CreateAccountInput) (did handle phc : string) g
    : Account :=
  MkAccount did (Some handle) (ca_email input) phc (ad_created_at d) None None (next_ordinal g).

Definition with_account (a : Account) g : Inner Cid :=
  set_accounts (<[a_did a := a]> g.(accounts)) (set_next_ordinal (u64_add g.(next_ordinal) 1) g).

Lemma insert_Ok did handle email phc now g n g' :
  mem_count_and_insert_account did handle email phc now g = (Ok n, g') ->
  g.(accounts) !! did = None /\ existsb (has_handle handle) (account_values g) = false /\
  n = Z.of_nat (size g.(accounts)) /\
  g' = with_account (MkAccount did (Some handle) email phc now None None (next_ordinal g)) g.
Proof.
  unfold mem_count_and_insert_account, insert_account_locked, bind, ret. intros E.
  destruct (accounts g !! did) eqn:Ea; [done|].
  destruct (existsb _ _) eqn:Ex; [done|]. by injection E as <- <-.
Qed.

Lemma insert_Err did handle email phc now g e g' :
  mem_count_and_insert_account did handle email phc now g = (Err e, g') -> g' = g.
Proof.
  unfold mem_count_and_insert_account, insert_account_locked, bind, ret. intros E.
  repeat case_match; by simplify_eq/=.
Qed.

(** What the gate did to the invites. *)
Definition invite_spent (input : CreateAccountInput) (handle : string) (consumed : bool) g g' : Prop :=
  if consumed then
    exists code i, ca_invite_code input = Some code /\ g.(invites) !! code = Some i /\
      disabled i = false /\ 0 < available_uses i /\ (code, handle) ∉ g.(invite_uses) /\
      g' = set_invites (<[code := MkInvite (available_uses i - 1) (disabled i)]> g.(invites))
             (set_invite_uses ({[ (code, handle) ]} ∪ g.(invite_uses)) g)
  else g' = g /\ (size g.(accounts) = 0%nat \/ st_open_registration state = true).

Lemma consume_invite_Ok code handle g g' :
  mem_consume_invite code handle g = (Ok true, g') ->
  exists i, g.(invites) !! code = Some i /\ disabled i = false /\ 0 < available_uses i /\
    (code, handle) ∉ g.(invite_uses) /\
    g' = set_invites (<[code := MkInvite (available_uses i - 1) (disabled i)]> g.(invites))
           (set_invite_uses ({[ (code, handle) ]} ∪ g.(invite_uses)) g).
Proof.
  unfold mem_consume_invite. intros E. destruct (invites g !! code) as [i|] eqn:Ei; [|done].
  destruct (disabled i) eqn:Ed; [done|]. destruct (Z.leb_spec (available_uses i) 0); [done|].
  destruct (decide _); [done|]. injection E as <-. exists i. by rewrite Ed.
Qed.

Lemma consume_invite_false code handle g b g' :
  mem_consume_invite code handle g = (Ok b, g') -> b = false -> g' = g.
Proof. unfold mem_consume_invite. intros E ->. repeat case_match; by simplify_eq/=. Qed.

Lemma account_handle_Ok input handle :
  account_handle state input = Ok handle ->
  handle = to_ascii_lowercase (ca_handle input) /\ validate_handle handle = Ok tt /\
  (handle = st_hostname state \/ ends_with ("." +:+ st_hostname state) handle = true).
Proof.
  unfold account_handle. intros E. destruct (validate_handle _) as [[]|] eqn:Ev; [|done].
  cbn in E. destruct (String.eqb_spec (to_ascii_lowercase (ca_handle input)) (st_hostname state));
    cbn in E; [injection E as <-; by auto|].
  destruct (ends_with _ _) eqn:Ee; [|done]. injection E as <-. by auto.
Qed.

(** The gate, taken apart; and it fails without a trace. *)
Lemma gate_Ok input g posts handle consumed w' :
  create_account_gate state input (g, posts) = (Ok (handle, consumed), w') ->
  account_handle state input = Ok handle /\ active_by_handle handle g = None /\
  exists g', w' = (g', posts) /\ invite_spent input handle consumed g g'.
Proof.
  unfold create_account_gate, invite_gate. intros E.
  apply bind_Ok in E as (h & w1 & E1 & E). unfold lift in E1. injection E1 as Eh <-.
  apply bind_Ok in E as (taken & w2 & E1 & E). apply acct_store_Ok in E1 as (g1 & E1 & ->).
  cbn in E1. unfold mem_get_account_by_handle, read in E1. injection E1 as <- <-.
  apply bind_Ok in E as ([] & w3 & E1 & E). apply assert_or_Ok in E1 as [En ->].
  apply bind_Ok in E as (ic & w4 & E1 & E). unfold ret in E. injection E as <- <- <-.
  apply bind_Ok in E1 as (n & w5 & En' & E1). apply acct_store_Ok in En' as (g2 & En' & ->).
  cbn in En'. unfold mem_count_accounts, read in En'. injection En' as <- <-.
  split; [done|]. split; [by destruct (active_by_handle h g)|].
  destruct (Z.eqb_spec (Z.of_nat (size (accounts g))) 0); cbn in E1.
  { unfold ret in E1. injection E1 as <- <-. exists g. split; [done|]. split; [done|]. left; lia. }
  destruct (st_open_registration state) eqn:Eo.
  { unfold ret in E1. injection E1 as <- <-. exists g. split; [done|]. split; [done|]. by right. }
  apply bind_Ok in E1 as (code & w6 & E2 & E1). unfold lift in E2. injection E2 as Ec <-.
  apply ok_or_Ok in Ec. apply bind_Ok in E1 as (b & w7 & E2 & E1).
  apply acct_store_Ok in E2 as (g3 & E2 & ->).
  apply bind_Ok in E1 as ([] & w8 & E3 & E1). apply assert_or_Ok in E3 as [-> ->].
  unfold ret in E1. injection E1 as <- <-. exists g3. split; [done|].
  apply consume_invite_Ok in E2 as (i & ?). by exists code, i.
Qed.

Lemma gate_Err input g posts e w' :
  create_account_gate state input (g, posts) = (Err e, w') -> w' = (g, posts).
Proof.
  unfold create_account_gate, invite_gate, bind, lift, acct_store, assert_or, throw, ret. intros E.
  repeat case_match; simplify_eq/=; try done;
    unfold mem_get_account_by_handle, mem_count_accounts, read in *; simplify_eq/=; try done;
    unfold mem_consume_invite in *; repeat case_match; by simplify_eq/=.
Qed.

Lemma account_did_store d handle input g posts r w' :
  account_did state plc_answer did_web_resolve d handle input (g, posts) = (r, w') ->
  exists posts', w' = (g, posts').
Proof.
  unfold account_did, acct_plc, bind, lift, assert_or, ret, throw. intros E.
  repeat case_match; simplify_eq/=; eauto.
Qed.

Lemma store_key_Ok salt nonce id plaintext pass g g' :
  store_key salt nonce id plaintext pass g = (Ok tt, g') ->
  exists b, encrypt_key salt nonce plaintext pass = Ok b /\ g' = set_keys (<[id := b]> g.(keys)) g.
Proof.
  unfold store_key. intros E. apply bind_Ok in E as (b & g1 & E1 & E).
  unfold lift in E1. injection E1 as E1 <-. cbn in E. unfold mem_put_key_blob, write in E.
  injection E as <-. by exists b.
Qed.

Lemma store_key_Err salt nonce id plaintext pass g e g' :
  store_key salt nonce id plaintext pass g = (Err e, g') -> g' = g.
Proof. unfold store_key, bind, lift. intros E. repeat case_match; by simplify_eq/=. Qed.

(** Key identifiers of one account. *)
Definition signing_id (did : string) : string := did +:+ "#signing".
Definition rotation_id (did : string) : string := did +:+ "#rotation".

Lemma key_ids_ne did : signing_id did <> rotation_id did.
Proof.
  unfold signing_id, rotation_id. induction did as [|c s IH]; [done|].
  rewrite !str_app_cons. by intros [= ?].
Qed.

Definition with_keys (did : string) (b1 b2 : bytes) g : Inner Cid :=
  set_keys (<[rotation_id did := b2]> (<[signing_id did := b1]> g.(keys))) g.

(** A store that holds exactly the new account and its keys besides what it held. *)
Definition registered (d : AccountDraw) (input : CreateAccountInput) (did handle phc : string)
    (b1 b2 : bytes) g : Inner Cid :=
  with_keys did b1 b2 (with_account (account_row d input did handle phc g) g).

Lemma finish_Ok d input handle consumed g posts resp g' posts' :
  create_account_finish state plc_answer did_web_resolve d input (handle, consumed) (g, posts)
  = (Ok resp, (g', posts')) ->
  exists did phc b1 b2 t,
    account_did state plc_answer did_web_resolve d handle input (g, posts) = (Ok did, (g, posts')) /\
    account_phc d input = Ok phc /\
    g.(accounts) !! did = None /\ existsb (has_handle handle) (account_values g) = false /\
    (consumed = true \/ st_open_registration state = true \/ size g.(accounts) = 0%nat) /\
    encrypt_key (ad_signing_salt d) (ad_signing_nonce d) (kp_export (ad_signing d))
      (st_key_passphrase state) = Ok b1 /\
    encrypt_key (ad_rotation_salt d) (ad_rotation_nonce d) (kp_export (ad_rotation d))
      (st_key_passphrase state) = Ok b2 /\
    g' = registered d input did handle phc b1 b2 g /\
    issue_session state did (ad_session d) = Ok t /\
    resp = MkCreated (fst t) (snd t) handle did.
Proof.
  unfold create_account_finish, store_account_keys. intros E.
  apply bind_Ok in E as (did & w1 & Ed & E).
  destruct (account_did_store _ _ _ _ _ _ _ Ed) as [posts1 ->].
  apply bind_Ok in E as (phc & w2 & E1 & E). unfold lift in E1. injection E1 as Ep <-.
  apply bind_Ok in E as (n & w3 & E1 & E). apply acct_store_Ok in E1 as (g1 & E1 & ->).
  cbn in E1. apply insert_Ok in E1 as (Hd & Hh & -> & ->).
  apply bind_Ok in E as ([] & w4 & E1 & E). apply assert_or_Ok in E1 as [Hr ->].
  apply bind_Ok in E as ([] & w5 & E1 & E).
  apply bind_Ok in E1 as ([] & w6 & E1 & E2). apply acct_store_Ok in E1 as (g2 & E1 & ->).
  apply acct_store_Ok in E2 as (g3 & E2 & ->).
  apply store_key_Ok in E1 as (b1 & Hb1 & ->). apply store_key_Ok in E2 as (b2 & Hb2 & ->).
  apply bind_Ok in E as (t & w7 & E1 & E). unfold lift in E1. injection E1 as Ht <-.
  unfold ret in E. injection E as <- <- <-.
  exists did, phc, b1, b2, t. split_and!; try done.
  destruct consumed; [by left|]. destruct (st_open_registration state); [by right; left|].
  right; right. destruct (Z.ltb_spec 0 (Z.of_nat (size (accounts g)))); cbn in Hr; [done|lia].
Qed.

Lemma issue_session_Err did d e : issue_session state did d = Err e -> exists msg, e = XInternal msg.
Proof.
  unfold issue_session, encode_access_jwt_at, encode_refresh_jwt_at, jwt_encode_core.
  intros E. destruct (jwt_encode _ _) as [t1|m1]; cbn in E; [|injection E as <-; by eexists].
  destruct (jwt_encode _ _) as [t2|m2]; cbn in E; [done|injection E as <-; by eexists].
Qed.

(** A failure after the gate: before the row, or with the row written. *)
Lemma finish_Err d input handle consumed g posts e g' posts' :
  create_account_finish state plc_answer did_web_resolve d input (handle, consumed) (g, posts)
  = (Err e, (g', posts')) ->
  g' = g \/
  exists did phc, g'.(accounts) = <[did := account_row d input did handle phc g]> g.(accounts) /\
    g.(accounts) !! did = None /\ account_phc d input = Ok phc /\
    ((exists msg, e = XInternal msg) \/
     (e = XInvalidInviteCode /\ consumed = false /\ st_open_registration state = false /\
      (0 < size g.(accounts))%nat /\
      g' = with_account (account_row d input did handle phc g) g)).
Proof.
  unfold create_account_finish, store_account_keys. intros E.
  apply bind_Err in E as [E|(did & w1 & Ed & E)].
  { destruct (account_did_store _ _ _ _ _ _ _ E) as [posts1 [= -> ->]]. by left. }
  destruct (account_did_store _ _ _ _ _ _ _ Ed) as [posts1 ->].
  apply bind_Err in E as [E|(phc & w2 & E1 & E)].
  { unfold lift in E. simplify_eq. by left. }
  unfold lift in E1. injection E1 as Ep <-.
  apply bind_Err in E as [E|(n & w3 & E1 & E)].
  { unfold acct_store in E. cbn [count_and_insert_account mem_account_store] in E.
    change (count_and_insert_account did handle (ca_email input) phc (ad_created_at d) g)
      with (mem_count_and_insert_account did handle (ca_email input) phc (ad_created_at d) g) in E.
    destruct (mem_count_and_insert_account _ _ _ _ _ _) as [[x|x] g1] eqn:Ei; simplify_eq/=.
    left. by eapply insert_Err. }
  apply acct_store_Ok in E1 as (g1 & E1 & ->). cbn in E1. apply insert_Ok in E1 as (Hd & Hh & -> & ->).
  right. exists did, phc.
  assert (forall g2, g2.(accounts) = (with_account (account_row d input did handle phc g) g).(accounts) ->
    g2.(accounts) = <[did := account_row d input did handle phc g]> g.(accounts)) as Hacc by done.
  apply bind_Err in E as [E|([] & w4 & E1 & E)].
  { unfold assert_or, throw, ret in E. destruct (negb _) eqn:Eb; simplify_eq. split; [done|].
    split; [done|]. split; [done|]. right. destruct consumed; [by rewrite andb_false_r in Eb|].
    destruct (st_open_registration state); [by rewrite andb_false_r in Eb|].
    destruct (Z.ltb_spec 0 (Z.of_nat (size (accounts g)))); [|done]. split_and!; done || lia. }
  apply assert_or_Ok in E1 as [_ ->].
  assert (forall A (m : SE (Inner Cid) StorageError A) g2 p r g3 p3,
    acct_store m (g2, p) = (r, (g3, p3)) -> r = Err e -> exists msg, e = XInternal msg) as Hint.
  { intros A m g2 p r g3 p3 Em ->. unfold acct_store in Em. destruct (m g2) as [[x|x] y]; simplify_eq/=.
    by eexists. }
  assert (forall salt nonce id pt g2 p r g3 p3,
    acct_store (store_key salt nonce id pt (st_key_passphrase state)) (g2, p) = (r, (g3, p3)) ->
    g3.(accounts) = g2.(accounts)) as Hkeep.
  { intros salt nonce id pt g2 p r g3 p3 Em. unfold acct_store in Em.
    destruct (store_key salt nonce id pt (st_key_passphrase state) g2) as [[[]|x] y] eqn:Es; simplify_eq/=.
    - by apply store_key_Ok in Es as (b & _ & ->).
    - by apply store_key_Err in Es as ->. }
  apply bind_Err in E as [E|([] & w5 & E1 & E)].
  { apply bind_Err in E as [E|([] & [g6 p6] & E1 & E)].
    - split; [by eapply Hacc, Hkeep|]. split; [done|]. split; [done|]. left. by eapply Hint.
    - split; [apply Hacc; erewrite Hkeep by exact E; by eapply Hkeep|].
      split; [done|]. split; [done|]. left. by eapply Hint. }
  apply bind_Ok in E1 as ([] & [g6 p6] & E1 & E2). destruct w5 as [g7 p7].
  apply bind_Err in E as [E|(t & w7 & E1' & E)]; [|done].
  unfold lift in E. injection E as Ee <- <-.
  split; [apply Hacc; erewrite Hkeep by exact E2; by eapply Hkeep|]. split; [done|]. split; [done|].
  left. by eapply issue_session_Err.
Qed.

End Mem.
