(* ===== verification/AccountProps.v ===== *)
(** * Registration and sessions are correct

    What a registration leaves in the store and lets its owner do, what a
    failed one leaves, and how sessions follow the account row. *)

From Stdlib Require Import ZArith Lia Ascii.
From S2P Require Import Prelude RustStr Externals Demo StoreTypes MemoryStore MemoryProps OAuthCore.
From S2P Require Import Jose Dpop Client OAuthServer OAuthProps Session Repo RepoDemo KeyCrypto.
From S2P Require Import Identity Accounts.

Section Props.
Context `{Digests} `{Json} `{Jwt} `{Argon2} `{KeyCiphers} `{KeypairIO} `{PlcLib}.
Context {Cid : Type} `{Countable Cid}.
Implicit Types (g : Inner Cid) (posts : PlcPosts).
Variable state : AppState.
Variable plc_answer : string -> PlcGenesisOpSigned -> result CoreError unit.
Variable did_web_resolve : string -> option Value.

Abbreviation create := (create_account_inner state plc_answer did_web_resolve) (only parsing).
Abbreviation finish := (create_account_finish state plc_answer did_web_resolve) (only parsing).

(** ** Lemmas *)

Lemma with_account_inv d input did h phc g :
  account_inv g -> g.(accounts) !! did = None ->
  existsb (has_handle h) (account_values g) = false ->
  account_inv (with_account (account_row d input did h phc g) g).
Proof.
  intros Hi Hd Hf. unfold with_account, account_row.
  eapply account_inv_ext; [|apply (account_inv_insert g did h (ca_email input) phc (ad_created_at d)
                                     (next_ordinal g) Hi Hd Hf)]. done.
Qed.

(** A visible row answers every lookup of the session handlers. *)
Lemma visible_lookups g did h a :
  account_inv g -> g.(accounts) !! did = Some a -> a_did a = did -> a_handle a = Some h ->
  account_visible a = true ->
  mem_get_account_by_handle h g = (Ok (Some (did, a_password_phc a)), g) /\
  mem_get_handle_by_did did g = (Ok (Some h), g).
Proof.
  intros Hi Ha Hd Hh Hv. unfold mem_get_account_by_handle, mem_get_handle_by_did, read.
  assert (active_by_handle h g = Some a) as ->.
  { apply active_by_handle_Some; [done|]. by rewrite Hd. }
  cbn. rewrite Hd. split; [done|]. unfold active. rewrite Ha. cbn. rewrite Hv. cbn. by rewrite Hh.
Qed.

Lemma hash_verifies `{!Argon2Laws} salt p h :
  hash_password salt p = Ok h -> verify_password p h = Ok true.
Proof.
  unfold hash_password, verify_password. intros E%map_err_Ok.
  destruct (argon2_verify_hash _ _ _ E) as (ph & -> & Hv). cbn. by rewrite Hv.
Qed.

(** Logging in on a visible row with its password. *)
Lemma login_ok g did h a p s :
  account_inv g -> g.(accounts) !! did = Some a -> a_did a = did -> a_handle a = Some h ->
  account_visible a = true -> verify_password p (a_password_phc a) = Ok true ->
  fst (create_session state s {| cs_identifier := h; cs_password := p |} g) =
  (let? t := issue_session state did s in Ok (MkSession (fst t) (snd t) h did true)).
Proof.
  intros Hi Ha Hd Hh Hv Hp. destruct (visible_lookups _ _ _ _ Hi Ha Hd Hh Hv) as [El _].
  unfold create_session, with_err, bind, lift. cbn [cs_identifier cs_password].
  change (get_account_by_handle h g) with (mem_get_account_by_handle h g).
  rewrite El. cbn. rewrite Hp. cbn. by destruct (issue_session state did s).
Qed.

Lemma account_phc_Ok d input phc :
  account_phc d input = Ok phc ->
  exists p, ca_password input = Some p /\ 8 <= str_len p /\ hash_password (ad_phc_salt d) p = Ok phc.
Proof.
  unfold account_phc. intros E. destruct (ca_password input) as [p|]; [|done].
  destruct (String.eqb p ""); [done|]. cbn in E. exists p. split; [done|].
  destruct (Z.ltb_spec (str_len p) 8); [done|]. cbn in E. by apply map_err_Ok in E.
Qed.

Lemma invite_spent_accounts input handle consumed g g' :
  invite_spent state input handle consumed g g' ->
  g'.(accounts) = g.(accounts) /\ g'.(keys) = g.(keys) /\ g'.(next_ordinal) = g.(next_ordinal).
Proof. destruct consumed; [by intros (? & ? & _ & _ & _ & _ & _ & ->)|by intros [-> _]]. Qed.

Lemma load_stored `{!KeyCipherLaws} salt nonce id pt g b :
  str_len salt = 16 -> str_len nonce = 12 ->
  encrypt_key salt nonce pt (st_key_passphrase state) = Ok b -> g.(keys) !! id = Some b ->
  load_key id (st_key_passphrase state) g = (Ok pt, g).
Proof.
  intros Hs Hn He Hk. unfold load_key, bind, lift. cbn. unfold mem_get_key_blob, read.
  cbn. rewrite Hk. by rewrite (decrypt_encrypt _ _ _ _ _ Hs Hn He).
Qed.

(** ** Registration *)

(** The draws have the sizes of the arrays they fill. *)
Definition draw_ok (d : AccountDraw) : Prop :=
  str_len (ad_signing_salt d) = 16 /\ str_len (ad_signing_nonce d) = 12 /\
  str_len (ad_rotation_salt d) = 16 /\ str_len (ad_rotation_nonce d) = 12.

(** Tokens that were issued together authenticate, each on its own path. *)
Lemma issued_tokens_authenticate `{!JwtLaws} did s ta tr rest now :
  issue_session state did s = Ok (ta, tr) ->
  0 <= sd_now_access s -> sd_now_access s + 7200 < u64_mod ->
  0 <= sd_now_refresh s -> sd_now_refresh s + 7776000 < u64_mod ->
  (now - 60 <= sd_now_access s + 7200 ->
   authenticate_access (Some ("Bearer" +:+ String " " ta) :: rest) (st_jwt_secret state) now = Ok did) /\
  (now - 60 <= sd_now_refresh s + 7776000 ->
   authenticate_refresh (Some ("Bearer" +:+ String " " tr) :: rest) (st_jwt_secret state) now = Ok did).
Proof.
  intros Hs ????. unfold issue_session in Hs.
  destruct (encode_access_jwt_at _ _ _) as [t1|] eqn:E1; [|done]. cbn in Hs.
  destruct (encode_refresh_jwt_at _ _ _ _) as [t2|] eqn:E2; [|done]. cbn in Hs. injection Hs as <- <-.
  unfold encode_access_jwt_at, encode_refresh_jwt_at in *.
  split; intros Hlate; unfold authenticate_access, authenticate_refresh.
  - destruct (session_token_runs "Bearer" _ _ t1 rest now eq_refl E1) as [-> Edec]. cbn. rewrite Edec. cbn.
    rewrite u64_add_id by lia. by destruct (Z.ltb_spec (sd_now_access s + 7200) (now - 60)); [lia|].
  - destruct (session_token_runs "Bearer" _ _ t2 rest now eq_refl E2) as [-> Edec]. cbn. rewrite Edec. cbn.
    rewrite u64_add_id by lia. by destruct (Z.ltb_spec (sd_now_refresh s + 7776000) (now - 60)); [lia|].
Qed.

(** A registration that succeeded: what it found and what it left. *)
Lemma created_account `{!Argon2Laws} `{!KeyCipherLaws} g posts d input resp g' posts' :
  account_inv g -> draw_ok d -> create d input (g, posts) = (Ok resp, (g', posts')) ->
  let handle := to_ascii_lowercase (ca_handle input) in
  exists did phc p b1 b2 g1 consumed,
    cr_handle resp = handle /\ cr_did resp = did /\ validate_handle handle = Ok tt /\
    (handle = st_hostname state \/ ends_with ("." +:+ st_hostname state) handle = true) /\
    active_by_handle handle g = None /\ g.(accounts) !! did = None /\
    ca_password input = Some p /\ 8 <= str_len p /\ hash_password (ad_phc_salt d) p = Ok phc /\
    invite_spent state input handle consumed g g1 /\
    g' = registered d input did handle phc b1 b2 g1 /\
    load_key (did +:+ "#signing") (st_key_passphrase state) g' = (Ok (kp_export (ad_signing d)), g') /\
    load_key (did +:+ "#rotation") (st_key_passphrase state) g' = (Ok (kp_export (ad_rotation d)), g') /\
    issue_session state did (ad_session d) = Ok (cr_access_jwt resp, cr_refresh_jwt resp) /\
    (forall s, fst (create_session state s {| cs_identifier := handle; cs_password := p |} g') =
       (let? t := issue_session state did s in Ok (MkSession (fst t) (snd t) handle did true))) /\
    get_session did g' = (Ok (MkGetSession handle did true), g').
Proof.
  intros Hi Hd Hrun handle. unfold create_account_inner in Hrun.
  apply bind_Ok in Hrun as ([h ic] & w1 & Egate & Hrun).
  apply gate_Ok in Egate as (Eh & Hfree & g1 & -> & Hinv).
  apply account_handle_Ok in Eh as (-> & Hval & Hdom). fold handle in Hrun, Hinv, Hfree, Hval, Hdom.
  apply finish_Ok in Hrun as (did & phc & b1 & b2 & [ta tr] & _ & Hphc & Hnew & Hh & _ & Hb1 & Hb2 & -> & Ht & ->).
  destruct (invite_spent_accounts _ _ _ _ _ Hinv) as (Ea & Ek & Eo).
  apply account_phc_Ok in Hphc as (p & Hp & Hlen & Hhash).
  set (row := account_row d input did handle phc g1).
  assert (account_inv g1) as Hi1 by by apply account_inv_ext with g.
  assert (account_inv (with_account row g1)) as Hi2 by by apply with_account_inv.
  set (g' := registered d input did handle phc b1 b2 g1).
  assert (account_inv g') as Hi' by (eapply account_inv_ext; [|exact Hi2]; done).
  assert (g'.(accounts) !! did = Some row) as Hrow by apply lookup_insert_eq.
  destruct Hd as (L1 & L2 & L3 & L4).
  exists did, phc, p, b1, b2, g1, ic. split_and!; try done.
  - by rewrite <- Ea.
  - apply load_stored with (ad_signing_salt d) (ad_signing_nonce d) b1; try done.
    unfold g', registered, with_keys. cbn [keys set_keys]. rewrite lookup_insert_ne
      by (intros E; by apply (key_ids_ne did)). apply lookup_insert_eq.
  - apply load_stored with (ad_rotation_salt d) (ad_rotation_nonce d) b2; try done.
    apply lookup_insert_eq.
  - intros s. apply login_ok with row; try done. by eapply hash_verifies.
  - destruct (visible_lookups _ _ _ _ Hi' Hrow eq_refl eq_refl eq_refl) as [_ El].
    unfold get_session, with_err, bind, lift.
    change (get_handle_by_did did g') with (mem_get_handle_by_did did g'). by rewrite El.
Qed.

(** What a registration writes besides its row, its two keys and its invite: the
    counter that orders the rows. *)
Lemma registered_frame d input did handle phc b1 b2 g g1 consumed :
  invite_spent state input handle consumed g g1 ->
  let g' := registered d input did handle phc b1 b2 g1 in
  g' = set_keys (keys g') (set_invites (invites g') (set_invite_uses (invite_uses g')
         (set_accounts (accounts g') (set_next_ordinal (next_ordinal g') g)))).
Proof.
  intros Hinv. cbv zeta. destruct consumed.
  - destruct Hinv as (code & i & _ & _ & _ & _ & _ & ->). by destruct g.
  - destruct Hinv as [-> _]. by destruct g.
Qed.

(** C10: a successful registration.  The handle, lowercased, is well-formed and
    of this server, and was not in use; exactly one row is added, for a DID that
    had none, with the hash of the password; the first account, or an open
    server, needs no invite and spends none, any other registration used up one
    use of a live invite and no other; exactly two keys are written, the DID's,
    and both can be loaded back under the server's passphrase; nothing else of
    the store but the counter of rows differs.  The tokens it answers are a
    session issued for that DID: until they expire, the access token
    authenticates as the DID where an access token is asked for, and the refresh
    token where a refresh token is; and the owner can at once log in with the
    password, as that DID under that handle, and ask for the session. *)
Theorem create_account_sound `{!Argon2Laws} `{!KeyCipherLaws} `{!JwtLaws} g posts d input resp g' posts'
    (Hi : account_inv g) (Hd : draw_ok d)
    (Hrun : create d input (g, posts) = (Ok resp, (g', posts'))) :
  let handle := to_ascii_lowercase (ca_handle input) in
  exists did phc p,
    cr_handle resp = handle /\ cr_did resp = did /\ validate_handle handle = Ok tt /\
    (handle = st_hostname state \/ ends_with ("." +:+ st_hostname state) handle = true) /\
    active_by_handle handle g = None /\ g.(accounts) !! did = None /\
    g'.(accounts) = <[did := account_row d input did handle phc g]> g.(accounts) /\
    ((size g.(accounts) = 0%nat \/ st_open_registration state = true) /\
       g'.(invites) = g.(invites) /\ g'.(invite_uses) = g.(invite_uses) \/
     exists code i, ca_invite_code input = Some code /\ g.(invites) !! code = Some i /\
       0 < available_uses i /\ disabled i = false /\ (code, handle) ∉ g.(invite_uses) /\
       g'.(invites) = <[code := MkInvite (available_uses i - 1) false]> g.(invites) /\
       g'.(invite_uses) = {[ (code, handle) ]} ∪ g.(invite_uses)) /\
    (forall id, id <> did +:+ "#signing" -> id <> did +:+ "#rotation" -> g'.(keys) !! id = g.(keys) !! id) /\
    g' = set_keys (keys g') (set_invites (invites g') (set_invite_uses (invite_uses g')
           (set_accounts (accounts g') (set_next_ordinal (next_ordinal g') g)))) /\
    load_key (did +:+ "#signing") (st_key_passphrase state) g'
      = (Ok (kp_export (ad_signing d)), g') /\
    load_key (did +:+ "#rotation") (st_key_passphrase state) g'
      = (Ok (kp_export (ad_rotation d)), g') /\
    ca_password input = Some p /\ 8 <= str_len p /\ hash_password (ad_phc_salt d) p = Ok phc /\
    (let s := ad_session d in
     issue_session state did s = Ok (cr_access_jwt resp, cr_refresh_jwt resp) /\
     (0 <= sd_now_access s -> sd_now_access s + 7200 < u64_mod ->
      0 <= sd_now_refresh s -> sd_now_refresh s + 7776000 < u64_mod -> forall rest now,
      (now - 60 <= sd_now_access s + 7200 ->
       authenticate_access (Some ("Bearer" +:+ String " " (cr_access_jwt resp)) :: rest)
         (st_jwt_secret state) now = Ok did) /\
      (now - 60 <= sd_now_refresh s + 7776000 ->
       authenticate_refresh (Some ("Bearer" +:+ String " " (cr_refresh_jwt resp)) :: rest)
         (st_jwt_secret state) now = Ok did))) /\
    (forall s, fst (create_session state s {| cs_identifier := handle; cs_password := p |} g') =
       (let? t := issue_session state did s in Ok (MkSession (fst t) (snd t) handle did true))) /\
    get_session did g' = (Ok (MkGetSession handle did true), g').
Proof.
  intros handle. destruct (created_account _ _ _ _ _ _ _ Hi Hd Hrun)
    as (did & phc & p & b1 & b2 & g1 & ic & Hh & Hdid & Hval & Hdom & Hfree & Hnew & Hp & Hlen & Hhash & Hinv & -> &
        Hk1 & Hk2 & Ht & Hlogin & Hget).
  destruct (invite_spent_accounts _ _ _ _ _ Hinv) as (Ea & Ek & Eo).
  exists did, phc, p. split_and!; try done.
  - unfold registered, with_keys, with_account. cbn. rewrite Ea. f_equal. unfold account_row. by rewrite Eo.
  - destruct ic; [|left; by destruct Hinv as [-> ?]].
    destruct Hinv as (code & i & Hc & Hlk & Hdis & Hpos & Hunused & ->). right.
    exists code, i. split_and!; try done. cbn. by rewrite Hdis.
  - intros id Hi1 Hi2. unfold registered, with_keys. cbn [keys set_keys with_account set_accounts].
    rewrite !lookup_insert_ne by (by apply not_eq_sym). cbn. by rewrite Ek.
  - exact (registered_frame d input did handle phc b1 b2 g g1 ic Hinv).
  - cbv zeta. split; [exact Ht|]. intros ? ? ? ? rest now. by apply issued_tokens_authenticate.
Qed.

(** a failed registration, run without interference.  Either no account and
    no key was written, and at most an invite was used up; or the row was
    written and the failure is an internal one of the steps after it. *)
Theorem create_account_failure g posts d input e g' posts'
    (Hrun : create d input (g, posts) = (Err e, (g', posts'))) :
  g' = g \/
  (exists handle consumed, invite_spent state input handle consumed g g') \/
  (exists did handle phc msg, e = XInternal msg /\ g.(accounts) !! did = None /\
     g'.(accounts) = <[did := account_row d input did handle phc g]> g.(accounts)).
Proof.
  unfold create_account_inner in Hrun. apply bind_Err in Hrun as [E|([h ic] & w1 & Egate & Hrun)].
  { apply gate_Err in E as [= -> ->]. by left. }
  apply gate_Ok in Egate as (Eh & Hfree & g1 & -> & Hinv).
  destruct (invite_spent_accounts _ _ _ _ _ Hinv) as (Ea & Ek & Eo).
  apply finish_Err in Hrun as [->|(did & phc & Hacc & Hnew & Hphc & [[msg ->]|(_ & -> & Hop & Hsz & _)])].
  - right; left. by exists h, ic.
  - right; right. exists did, h, phc, msg. rewrite <- Ea. split_and!; try done.
    rewrite Hacc. f_equal. unfold account_row. by rewrite Eo.
  - destruct Hinv as [-> [Hz|Hz]]; [lia|congruence].
Qed.

(** ** The invite gate under failure and under interleaving *)

(** The gate never calls a request invalid. *)
Lemma gate_err_kind input g posts e w' :
  create_account_gate state input (g, posts) = (Err e, w') -> forall msg, e <> XInvalidRequest msg.
Proof.
  unfold create_account_gate, invite_gate. intros E msg ->.
  apply bind_Err in E as [E|(h & w1 & E1 & E)].
  { unfold lift, account_handle, validate_handle in E. injection E as E _.
    destruct (_ || _); [done|]. destruct (_ <? _)%nat; [done|].
    destruct (forallb _ _); [|done]. cbn in E. by destruct (_ || _). }
  unfold lift in E1. injection E1 as _ <-.
  apply bind_Err in E as [E|(taken & w2 & E1 & E)]; [done|].
  apply acct_store_Ok in E1 as (g1 & E1 & ->). cbn in E1. unfold mem_get_account_by_handle, read in E1.
  injection E1 as <- <-.
  apply bind_Err in E as [E|([] & w3 & E1 & E)]; [by destruct (is_none _)|].
  apply assert_or_Ok in E1 as [_ ->].
  apply bind_Err in E as [E|(ic & w4 & E1 & E)]; [|done].
  apply bind_Err in E as [E|(n & w5 & E1 & E)]; [done|].
  apply acct_store_Ok in E1 as (g2 & E1 & ->). injection E1 as <- <-.
  destruct (_ =? 0); [done|]. destruct (st_open_registration state); [done|].
  apply bind_Err in E as [E|(code & w6 & E1 & E)]; [unfold lift, ok_or in E; by destruct (ca_invite_code input)|].
  unfold lift in E1. injection E1 as _ <-.
  apply bind_Err in E as [E|(b & w7 & E1 & E)].
  { unfold acct_store in E. change (consume_invite code h g) with (mem_consume_invite code h g) in E.
    unfold mem_consume_invite in E. repeat case_match; simplify_eq/=. }
  apply bind_Err in E as [E|([] & w8 & E2 & E)]; [by destruct b|done].
Qed.

Lemma gate_used input g posts code :
  let handle := to_ascii_lowercase (ca_handle input) in
  account_handle state input = Ok handle -> active_by_handle handle g = None ->
  st_open_registration state = false -> size g.(accounts) <> 0%nat ->
  ca_invite_code input = Some code -> (code, handle) ∈ g.(invite_uses) ->
  create_account_gate state input (g, posts) = (Err XInvalidInviteCode, (g, posts)).
Proof.
  intros handle Eh Hfree Hop Hn Hc Hin. unfold create_account_gate, invite_gate, bind, lift. rewrite Eh.
  unfold acct_store at 1.
  change (get_account_by_handle handle g) with (mem_get_account_by_handle handle g).
  unfold mem_get_account_by_handle, read. rewrite Hfree. cbn.
  unfold mem_count_accounts, read. destruct (Z.eqb_spec (Z.of_nat (size (accounts g))) 0); [lia|].
  rewrite Hop, Hc. cbn. unfold mem_consume_invite.
  destruct (invites g !! code) as [i|]; cbn; [|done]. destruct (disabled i); cbn; [done|].
  destruct (available_uses i <=? 0); cbn; [done|]. by destruct (decide _).
Qed.

(** the invite gate charges before it checks the password.  On a closed
    server that has an account, a registration refused as an invalid request
    (a missing or a short password) has already used up one use of its invite,
    and has done nothing else; and from then on no registration for that handle
    with that code can succeed, however many uses the code has left. *)
Theorem refused_registration_burns_invite g posts d input msg w'
    (Hop : st_open_registration state = false) (Hn : size g.(accounts) <> 0%nat)
    (Hrun : create d input (g, posts) = (Err (XInvalidRequest msg), w')) :
  let handle := to_ascii_lowercase (ca_handle input) in
  exists code i,
    ca_invite_code input = Some code /\ g.(invites) !! code = Some i /\
    fst w' = set_invites (<[code := MkInvite (available_uses i - 1) (disabled i)]> g.(invites))
               (set_invite_uses ({[ (code, handle) ]} ∪ g.(invite_uses)) g) /\
    forall d2 input2 posts2, to_ascii_lowercase (ca_handle input2) = handle ->
      ca_invite_code input2 = Some code ->
      create d2 input2 (fst w', posts2) = (Err XInvalidInviteCode, (fst w', posts2)).
Proof.
  intros handle. unfold create_account_inner in Hrun.
  apply bind_Err in Hrun as [E|([h ic] & w1 & Egate & Hrun)].
  { by destruct (gate_err_kind _ _ _ _ _ E msg). }
  apply gate_Ok in Egate as (Eh & Hfree & g1 & -> & Hinv).
  destruct (account_handle_Ok _ _ _ Eh) as (Eh' & _). subst h. fold handle in Eh, Hfree, Hinv, Hrun.
  destruct w' as [g' posts'].
  apply finish_Err in Hrun as [->|(did & phc & _ & _ & _ & [[m [=]]|([=] & _)])].
  destruct ic; [|destruct Hinv as [_ [?|?]]; congruence].
  destruct Hinv as (code & i & Hc & Hi & Hdis & Hpos & Hnew & ->). exists code, i.
  split_and!; try done. intros d2 input2 posts2 Hh2 Hc2. cbn [fst].
  assert (account_handle state input2 = Ok handle) as Eh2.
  { unfold account_handle in *. by rewrite Hh2. }
  unfold create_account_inner. unfold bind at 1.
  rewrite (gate_used input2 _ posts2 code); rewrite ?Hh2; try done. cbn. set_solver.
Qed.

(** the first-account race.  Two registrations that both pass the gate of an
    empty closed server skip the invite; when the first has been completed, the
    second is refused as lacking an invite code.  But its row has been written
    by then, and stays: the caller who was refused can log in with the handle
    and password it sent, though the account has no keys. *)
Theorem first_account_race `{!Argon2Laws} g0 w0 g posts d inputB handleB did phc p
    (Hempty : size (fst w0).(accounts) = 0%nat)
    (Hgate : create_account_gate state inputB (g0, []) = (Ok (handleB, false), w0))
    (Hi : account_inv g) (Hop : st_open_registration state = false)
    (Hother : size g.(accounts) <> 0%nat)
    (Hdid : fst (account_did state plc_answer did_web_resolve d handleB inputB (g, posts)) = Ok did)
    (Hp : ca_password inputB = Some p) (Hphc : account_phc d inputB = Ok phc)
    (Hnew : g.(accounts) !! did = None)
    (Hfree : existsb (has_handle handleB) (account_values g) = false) :
  exists g' posts',
    finish d inputB (handleB, false) (g, posts) = (Err XInvalidInviteCode, (g', posts')) /\
    g'.(keys) = g.(keys) /\
    forall s, fst (create_session state s {| cs_identifier := handleB; cs_password := p |} g') =
      (let? t := issue_session state did s in Ok (MkSession (fst t) (snd t) handleB did true)).
Proof.
  set (row := account_row d inputB did handleB phc g).
  destruct (account_did state plc_answer did_web_resolve d handleB inputB (g, posts)) as [r w1] eqn:Ed.
  cbn in Hdid. subst r. apply account_did_store in Ed as Es. destruct Es as [posts1 ->].
  exists (with_account row g), posts1. split; [|split; [done|]].
  - unfold create_account_finish, bind at 1. rewrite Ed. unfold bind, lift. rewrite Hphc.
    unfold acct_store at 1.
    change (count_and_insert_account did handleB (ca_email inputB) phc (ad_created_at d) g)
      with (mem_count_and_insert_account did handleB (ca_email inputB) phc (ad_created_at d) g).
    unfold mem_count_and_insert_account, insert_account_locked, bind, ret. rewrite Hnew, Hfree.
    cbn. rewrite Hop. destruct (Z.ltb_spec 0 (Z.of_nat (size (accounts g)))); [done|lia].
  - intros s. pose proof (with_account_inv d inputB did handleB phc g Hi Hnew Hfree) as Hi'.
    apply account_phc_Ok in Hphc as (p' & Hp' & _ & Hh). rewrite Hp in Hp'. injection Hp' as <-.
    apply (login_ok _ did handleB row p s Hi'); try done; [apply lookup_insert_eq|].
    by eapply hash_verifies.
Qed.

(** ** Sessions *)

Lemma taken_down_lookups g did h a ref now :
  account_inv g -> g.(accounts) !! did = Some a -> a_handle a = Some h ->
  let g' := snd (mem_set_takedown did ref now g) in
  mem_get_account_by_handle h g' = (Ok None, g') /\ mem_get_handle_by_did did g' = (Ok None, g').
Proof.
  intros Hi Ha Hh g'. set (a' := with_takedown (Some (if String.eqb ref "" then now else ref)) a).
  assert (g'.(accounts) = <[did := a']> g.(accounts)) as Eg
    by (unfold g', mem_set_takedown, alter_account; by rewrite Ha).
  assert (account_inv g') as Hi'.
  { unfold g', mem_set_takedown, alter_account. rewrite Ha. cbn.
    by apply (account_inv_alter g did a a' Hi Ha). }
  assert (account_visible a' = false) as Hv by (unfold account_visible; cbn; by rewrite andb_false_r).
  unfold mem_get_account_by_handle, mem_get_handle_by_did, read. split.
  - destruct (active_by_handle h g') as [x|] eqn:E; [|done].
    apply active_by_handle_Some in E as (Hx & Hxh & Hxv); [|done].
    destruct Hi' as [Hk Hu]. assert (g'.(accounts) !! did = Some a') as Ha' by (rewrite Eg; apply lookup_insert_eq).
    assert (a_did x = did) as Ex by by eapply (Hu _ _ _ _ h). rewrite Ex in Hx. congruence.
  - unfold active. rewrite Eg, lookup_insert_eq. cbn. by rewrite Hv.
Qed.

(** sessions follow the account row.  On a visible row the password opens a
    session of its DID whose access token authenticates until it expires, and
    the session can be read and refreshed; an unknown handle and a wrong
    password get the same answer.  After a takedown logging in is refused with
    that very answer, and reading or refreshing the session as a taken-down
    account, for tokens that still authenticate. *)
Theorem session_follows_account `{!JwtLaws} g did h a p s ta tr now rest ref at_
    (Hi : account_inv g) (Ha : g.(accounts) !! did = Some a) (Hda : a_did a = did)
    (Hh : a_handle a = Some h) (Hv : account_visible a = true)
    (Hp : verify_password p (a_password_phc a) = Ok true)
    (Hs : issue_session state did s = Ok (ta, tr))
    (Hb : 0 <= sd_now_access s /\ sd_now_access s + 7200 < u64_mod)
    (Hnow : now - 60 <= sd_now_access s + 7200) :
  let login g x := create_session state s x g in
  let g2 := snd (mem_set_takedown did ref at_ g) in
  let sent := Some ("Bearer" +:+ String " " ta) :: rest in
  login g {| cs_identifier := h; cs_password := p |} = (Ok (MkSession ta tr h did true), g) /\
  authenticate_access sent (st_jwt_secret state) now = Ok did /\
  get_session did g = (Ok (MkGetSession h did true), g) /\
  refresh_session state s did g = (Ok (MkSession ta tr h did true), g) /\
  (forall q, verify_password q (a_password_phc a) = Ok false ->
     login g {| cs_identifier := h; cs_password := q |} = (Err BAD_LOGIN, g)) /\
  (forall u q, active_by_handle u g = None ->
     login g {| cs_identifier := u; cs_password := q |} = (Err BAD_LOGIN, g)) /\
  login g2 {| cs_identifier := h; cs_password := p |} = (Err BAD_LOGIN, g2) /\
  get_session did g2 = (Err XAccountTakedown, g2) /\
  refresh_session state s did g2 = (Err XAccountTakedown, g2).
Proof.
  intros login g2 sent. destruct (visible_lookups _ _ _ _ Hi Ha Hda Hh Hv) as [El Ed].
  destruct (taken_down_lookups g did h a ref at_ Hi Ha Hh) as [El2 Ed2]. fold g2 in El2, Ed2.
  assert (forall g1 u q r, mem_get_account_by_handle u g1 = (Ok r, g1) ->
    login g1 {| cs_identifier := u; cs_password := q |} =
    match r with
    | None => (Err BAD_LOGIN, g1)
    | Some (d, phc) =>
        match verify_password q phc with
        | Ok true => (let? t := issue_session state d s in Ok (MkSession (fst t) (snd t) u d true), g1)
        | Ok false => (Err BAD_LOGIN, g1)
        | Err e => (Err (xrpc_of_core e), g1)
        end
    end) as Hlogin.
  { intros g1 u q r E. unfold login, create_session, with_err, bind, lift. cbn [cs_identifier cs_password].
    change (get_account_by_handle u g1) with (mem_get_account_by_handle u g1). rewrite E. cbn.
    destruct r as [[d phc]|]; cbn; [|done]. destruct (verify_password q phc) as [[]|]; cbn; try done.
    by destruct (issue_session state d s). }
  split_and!.
  - rewrite (Hlogin _ _ _ _ El), Hp. cbn. by rewrite Hs.
  - unfold issue_session in Hs. destruct (encode_access_jwt_at _ _ _) as [t|] eqn:Et; [|done].
    assert (t = ta) as -> by (cbn in Hs; by destruct (encode_refresh_jwt_at _ _ _ _); simplify_eq/=).
    destruct (session_token_runs "Bearer" _ _ ta rest now eq_refl Et) as [Eb Edec].
    unfold authenticate_access, sent. rewrite Eb. cbn. rewrite Edec. cbn.
    rewrite u64_add_id by lia. by destruct (Z.ltb_spec (sd_now_access s + 7200) (now - 60)); [lia|].
  - unfold get_session, with_err, bind, lift.
    change (get_handle_by_did did g) with (mem_get_handle_by_did did g). by rewrite Ed.
  - unfold refresh_session, with_err, bind, lift.
    change (get_handle_by_did did g) with (mem_get_handle_by_did did g). rewrite Ed. cbn. by rewrite Hs.
  - intros q Hq. by rewrite (Hlogin _ _ _ _ El), Hq.
  - intros u q Hu. apply (Hlogin g u q None). unfold mem_get_account_by_handle, read. by rewrite Hu.
  - by rewrite (Hlogin _ _ _ _ El2).
  - unfold get_session, with_err, bind, lift.
    change (get_handle_by_did did g2) with (mem_get_handle_by_did did g2). by rewrite Ed2.
  - unfold refresh_session, with_err, bind, lift.
    change (get_handle_by_did did g2) with (mem_get_handle_by_did did g2). by rewrite Ed2.
Qed.

End Props.

(** ** Witnesses *)

#[export] Instance demo_argon2 : Argon2 := {
  Phc := string;
  argon2_hash salt p := Ok ("phc:" +:+ p);
  phc_parse s := ok_or (strip_prefix "phc:" s) "malformed";
  argon2_verify p ph := String.eqb p ph;
}.
#[export] Instance demo_argon2_laws : Argon2Laws.
Proof.
  split. intros salt p h [= <-]. exists p. split; [done|]. apply String.eqb_refl.
Defined.

#[export] Instance demo_keypair_io : KeypairIO := {
  kp_did k := "did:key:" +:+ k; kp_export k := k; kp_import b := Ok b }.
#[export] Instance demo_keypair_io_laws : KeypairIOLaws.
Proof. by split. Defined.

Definition demo_plc_fields (l : list string) : bytes := fields_encode l.
#[export] Instance demo_plc : PlcLib := {
  plc_unsigned_serde := {| to_vec u := Ok (demo_plc_fields (pu_also_known_as u ++ pu_rotation_keys u));
                           from_slice _ := Err "unused" |};
  plc_signed_serde := {| to_vec u := Ok (demo_plc_fields (pg_sig u :: pg_also_known_as u));
                         from_slice _ := Err "unused" |};
  base32_nopad_encode := demo_encode;
}.

Definition demo_app : AppState := MkAppState "hmac" "pds.test" "https://pds.test" false "pass".
Definition demo_session (n : Z) : SessionDraw :=
  {| sd_now_access := n; sd_now_refresh := n; sd_uuid := "uuid" |}.
Definition demo_draw (k : string) : AccountDraw := {|
  ad_signing := k; ad_rotation := k +:+ "r"; ad_phc_salt := "salt";
  ad_signing_salt := "0123456789abcdef"; ad_signing_nonce := "0123456789ab";
  ad_rotation_salt := "0123456789abcdef"; ad_rotation_nonce := "0123456789ab";
  ad_created_at := "2026"; ad_session := demo_session 1000 |}.
Definition demo_input (h : string) (password code : option string) : CreateAccountInput := {|
  ca_handle := h; ca_email := None; ca_password := password; ca_invite_code := code;
  ca_did := None; ca_recovery_key := None |}.
Definition demo_directory (did : string) (gop : PlcGenesisOpSigned) : result CoreError unit := Ok tt.
Definition demo_resolve (did : string) : option Value := None.

Definition demo_create := create_account_inner demo_app demo_directory demo_resolve (Cid := nat) (St := Inner nat).
Definition demo_alice := demo_input "Alice.pds.test" (Some "correct horse") None.
Definition demo_first := demo_create (demo_draw "ka") demo_alice (Inner_default, []).

(** The first account, then an invite, then a guest. *)
Definition demo_guest : Inner nat :=
  snd (mem_insert_invite "code" 5 "admin" (fst (snd demo_first))).
Definition demo_bob (password : string) := demo_input "bob.pds.test" (Some password) (Some "code").

Lemma demo_first_inv : account_inv (fst (snd demo_first)).
Proof.
  apply (account_inv_ext (run [CInsertAccount (cr_did (match fst demo_first with Ok r => r | Err _ => MkCreated "" "" "" "" end))
           "alice.pds.test" None "phc:correct horse" "2026"] Inner_default)).
  - vm_compute. reflexivity.
  - apply run_account_inv, account_inv_default.
Qed.

Lemma create_account_sound_witness :
  exists did, fst (get_session (Cid := nat) did (fst (snd demo_first)))
              = Ok (MkGetSession "alice.pds.test" did true) /\
    exists resp, fst demo_first = Ok resp /\
      authenticate_access [Some ("Bearer" +:+ String " " (cr_access_jwt resp))] (st_jwt_secret demo_app)
        (sd_now_access (ad_session (demo_draw "ka"))) = Ok did.
Proof.
  destruct demo_first as [[resp|e] [g' posts']] eqn:E; [|exfalso; vm_compute in E; discriminate E].
  destruct (create_account_sound demo_app demo_directory demo_resolve Inner_default []
              (demo_draw "ka") demo_alice resp g' posts' account_inv_default
              (conj eq_refl (conj eq_refl (conj eq_refl eq_refl))) E)
    as (did & phc & p & _ & _ & _ & _ & _ & _ & _ & _ & _ & _ & _ & _ & _ & _ & _ & Ht & _ & Hs).
  destruct Ht as [_ Ht]. exists did. cbn [fst snd]. split; [rewrite Hs; reflexivity|].
  exists resp. split; [reflexivity|].
  apply Ht; by vm_compute.
Defined.

Definition demo_short := demo_create (demo_draw "kb") (demo_bob "short") (demo_guest, []).

Lemma create_account_failure_witness :
  fst (snd demo_short) = demo_guest \/
  (exists h c, invite_spent demo_app (demo_bob "short") h c demo_guest (fst (snd demo_short))) \/
  (exists did h phc msg, XInvalidRequest "password must be at least 8 characters" = XInternal msg /\
     demo_guest.(accounts) !! did = None /\
     (fst (snd demo_short)).(accounts) =
       <[did := account_row (demo_draw "kb") (demo_bob "short") did h phc demo_guest]>
         demo_guest.(accounts)).
Proof.
  destruct demo_short as [[r|e] [g' posts']] eqn:E; [exfalso; vm_compute in E; discriminate E|].
  assert (e = XInvalidRequest "password must be at least 8 characters") as ->
    by (apply (f_equal fst) in E; vm_compute in E; congruence).
  exact (create_account_failure demo_app demo_directory demo_resolve demo_guest
           [] (demo_draw "kb") (demo_bob "short") _ g' posts' E).
Defined.

Lemma refused_registration_burns_invite_witness :
  exists i, demo_guest.(invites) !! "code" = Some i /\
    create_account_inner demo_app demo_directory demo_resolve (demo_draw "kb") (demo_bob "long enough")
      (fst (snd demo_short), []) = (Err XInvalidInviteCode, (fst (snd demo_short), [])).
Proof.
  destruct demo_short as [[r|e] w'] eqn:E; [exfalso; vm_compute in E; discriminate E|].
  assert (e = XInvalidRequest "password must be at least 8 characters") as ->
    by (apply (f_equal fst) in E; vm_compute in E; congruence).
  destruct (refused_registration_burns_invite demo_app demo_directory demo_resolve demo_guest
              [] (demo_draw "kb") (demo_bob "short") _ w' eq_refl
              ltac:(vm_compute; discriminate) E) as (code & i & [= <-] & Hi & _ & Hagain).
  exists i. split; [exact Hi|]. apply Hagain; reflexivity.
Defined.

(** Bob passes the gate while the store is empty; Alice completes hers first. *)
Lemma first_account_race_witness :
  exists g' posts',
    create_account_finish demo_app demo_directory demo_resolve (demo_draw "kb")
      (demo_input "bob.pds.test" (Some "long enough") None) ("bob.pds.test", false) (snd demo_first)
      = (Err XInvalidInviteCode, (g', posts')) /\
    is_ok (fst (create_session demo_app (demo_session 2000)
                  {| cs_identifier := "bob.pds.test"; cs_password := "long enough" |} g')) = true.
Proof.
  destruct demo_first as [r0 [g posts]] eqn:E.
  pose proof demo_first_inv as Hi. rewrite E in Hi.
  assert (size g.(accounts) = 1%nat /\ existsb (has_handle "bob.pds.test") (account_values g) = false)
    as [Hsz Hfree].
  { apply (f_equal (fun x => fst (snd x))) in E. cbn [fst snd] in E. rewrite <- E. by vm_compute. }
  destruct (account_did demo_app demo_directory demo_resolve (demo_draw "kb") "bob.pds.test"
              (demo_input "bob.pds.test" (Some "long enough") None) (g, posts)) as [[did|e] w'] eqn:Ed;
    [|exfalso; vm_compute in Ed; discriminate Ed].
  assert (g.(accounts) !! did = None) as Hnew.
  { apply (f_equal fst) in Ed. vm_compute in Ed. injection Ed as <-.
    apply (f_equal (fun x => fst (snd x))) in E. cbn [fst snd] in E. rewrite <- E. by vm_compute. }
  destruct (first_account_race demo_app demo_directory demo_resolve Inner_default (Inner_default, [])
              g posts (demo_draw "kb")
              (demo_input "bob.pds.test" (Some "long enough") None) "bob.pds.test" did
              "phc:long enough" "long enough" eq_refl eq_refl Hi eq_refl ltac:(lia)
              (f_equal fst Ed) eq_refl eq_refl Hnew Hfree) as (g' & posts' & H1 & _ & H2).
  exists g', posts'. split; [exact H1|]. rewrite H2. reflexivity.
Defined.

Definition demo_row : Account := MkAccount "did:a" (Some "a.test") None "phc:secret pw" "2026" None None 0.
Definition demo_members : Inner nat :=
  run [CInsertAccount "did:a" "a.test" None "phc:secret pw" "2026"] Inner_default.

Lemma session_follows_account_witness :
  exists ta tr, let g2 := snd (mem_set_takedown "did:a" "" "2027" demo_members) in
  create_session demo_app (demo_session 1000)
    {| cs_identifier := "a.test"; cs_password := "secret pw" |} demo_members
    = (Ok (MkSession ta tr "a.test" "did:a" true), demo_members) /\
  authenticate_access [Some ("Bearer" +:+ String " " ta)] "hmac" 2000 = Ok "did:a" /\
  get_session "did:a" g2 = (Err XAccountTakedown, g2).
Proof.
  destruct (issue_session demo_app "did:a" (demo_session 1000)) as [[ta tr]|] eqn:Es;
    [|exfalso; vm_compute in Es; discriminate Es].
  assert (verify_password "secret pw" (a_password_phc demo_row) = Ok true) as Hp
    by (vm_compute; reflexivity).
  destruct (session_follows_account demo_app demo_members "did:a" "a.test" demo_row "secret pw"
              (demo_session 1000) ta tr 2000 [] "" "2027"
              (run_account_inv _ _ account_inv_default) eq_refl eq_refl eq_refl eq_refl Hp Es
              ltac:(vm_compute; split; congruence) ltac:(vm_compute; congruence))
    as (H1 & H2 & _ & _ & _ & _ & _ & H3 & _).
  exists ta, tr. split; [exact H1|]. split; [exact H2|exact H3].
Defined.
