(* ===== verification/RepoXrpc.v ===== *)
(** * The repository endpoints

    [src/rust-pds/src/xrpc/repo.rs] and [src/rust-core/src/blob.rs]: the
    handlers of the record, blob and repository methods, over the writer of
    [RepoWriter] and the reads of [atrium_repo].  A handler that takes the
    per-account lock only around its write is split where others can run: its
    look-up first, its write after. *)

From Stdlib Require Import ZArith Lia Ascii.
From S2P Require Import Prelude RustStr RepoUtil Externals Demo StoreTypes MemoryStore MemoryProps OAuthCore.
From S2P Require Import Jose Dpop Client OAuthServer OAuthProps Session Repo RepoWriter RepoDemo.
From S2P Require Import RepoProps RepoRead KeyCrypto Identity Accounts.

Definition repo_error_to_string (e : RepoError) : string :=
  match e with
  | RStorage e => "storage error: " +:+ StorageError_to_string e
  | RRepo m => "atrium repo error: " +:+ m
  | RCrypto m => "crypto error: " +:+ m
  end.

Definition xrpc_of_repo (e : RepoError) : XrpcError := XInternal (repo_error_to_string e).

(** [.map_err(|e| XrpcError::Internal(anyhow!("...{e}")))]. *)
Definition internal {A} (context : string) (r : result string A) : result XrpcError A :=
  map_err (fun e => XInternal (context +:+ e)) r.

Definition check_rkey (rkey : string) : result XrpcError unit :=
  map_err XInvalidRequest (validate_rkey rkey).
Definition check_collection (collection : string) : result XrpcError unit :=
  map_err XInvalidRequest (validate_collection collection).

(** ** Messages *)

Record CommitMeta := MkCommitMeta { cm_cid : string; cm_rev : string }.

Section Messages.
Context {Value : Type}.

Record CreateRecordInput := {
  cri_repo : string; cri_collection : string; cri_record : Value; cri_rkey : option string }.
Record CreateRecordOutput := MkCreateRecordOutput { cro_uri : string; cro_cid : string }.

Inductive ApplyWritesWrite :=
| AwCreate (collection : string) (rkey : option string) (value : Value)
| AwUpdate (collection rkey : string) (value : Value)
| AwDelete (collection rkey : string).

Inductive ApplyWritesResult :=
| AwCreated (uri : string) (cid : option string)
| AwUpdated (uri : string) (cid : option string)
| AwDeleted.

Record ApplyWritesOutput := MkApplyWritesOutput {
  awo_commit : option CommitMeta; awo_results : list ApplyWritesResult }.

Record PutRecordInput := {
  pri_repo : string; pri_collection : string; pri_rkey : string; pri_record : Value }.
Record PutRecordOutput := MkPutRecordOutput {
  pro_uri : string; pro_cid : string; pro_commit : option CommitMeta }.

Record DeleteRecordInput := { dri_repo : string; dri_collection : string; dri_rkey : string }.

Record GetRecordOutput := MkGetRecordOutput { gro_uri : string; gro_cid : string; gro_value : Value }.
Record ListRecordsOutput := MkListRecordsOutput {
  lro_records : list GetRecordOutput; lro_cursor : option string }.

Record DescribeRepoOutput := MkDescribeRepoOutput {
  dro_handle : string; dro_did : string; dro_did_doc : DidDocument; dro_collections : list string;
  dro_handle_is_correct : bool }.

Record BlobRef := MkBlobRef { br_link : string; br_mime_type : string; br_size : Z }.
End Messages.

(** The two clock readings of a write without an rkey: microseconds, stamps. *)
Record WriteDraw := { wd_now_us : Z; wd_stamps : Stamps }.

Section Handlers.
Context `{Digests} {Cid St : Type} `{CidLib Cid} `{Countable Cid} `{StorageBackend Cid St}.
Context `{RepoSerde Cid} `{!Atrium Cid} `{!AtriumRead Cid} `{Keypairs} `{!KeypairIO} `{CarLib Cid}.
Context `{KeyCiphers} {Value : Type} `{Serde Value}.
Variable state : AppState.
(** [atrium_api::types::string::Did::from_str]. *)
Variable did_parse : string -> result string unit.

(** ** Reads *)

Notation R A := (SE St XrpcError A).

Definition x_store {A} (m : SE St StorageError A) : R A := with_err xrpc_of_storage m.

Definition x_prog {A} (context : string) (p : BProg Cid A) : R A :=
  fun s => let '(r, (s', _)) := run_prog p (s, []) in (internal context r, s').

Definition open_repo (root : Cid) : R Repo := x_prog "failed to open repo: " (repo_open root).

Definition record_uri (did key : string) : string := "at://" +:+ did +:+ "/" +:+ key.

Definition lookup_record_cid (did mst_key : string) : R (option Cid) :=
  (let! root := x_store (load_repo_root did) in
   match root with
   | None => ret None
   | Some root =>
       let! repo := open_repo root in
       x_prog "MST get error: " (tree_get (repo_data repo) mst_key)
   end)%se.

Definition resolve_repo_did (repo : string) : R string :=
  if starts_with "did:" repo then ret repo
  else (let! o := x_store (get_did_by_handle repo) in
        lift (ok_or o (XInvalidRequest ("could not resolve repo: " +:+ repo))))%se.

Definition read_value (cid : Cid) : R Value :=
  (let! b := with_err (fun e => XInternal ("read_block_bytes for " +:+ cid_to_string cid +:+ ": "
                                           +:+ StorageError_to_string e)) (read_block_bytes cid) in
   lift (internal ("dagcbor decode for record " +:+ cid_to_string cid +:+ ": ") (from_slice b)))%se.

Definition get_record (repo collection rkey : string) : R (GetRecordOutput (Value := Value)) :=
  (let! did := resolve_repo_did repo in
   let key := mst_key collection rkey in
   let! o := lookup_record_cid did key in
   let! cid := lift (ok_or o (XInvalidRequest "record not found")) in
   let! value := read_value cid in
   ret (MkGetRecordOutput (record_uri did key) (cid_to_string cid) value))%se.

(** The [while let] loop of [list_records]; [acc] is [records]. *)
Fixpoint list_records_loop (did : string) (limit : nat) (cursor : option string)
    (stream : list (result string (string * Cid))) (acc : list (GetRecordOutput (Value := Value)))
    : R (list (GetRecordOutput (Value := Value))) :=
  match stream with
  | [] => ret acc
  | Err e :: _ => throw (XInternal ("MST stream error: " +:+ e))
  | Ok (key, cid) :: stream =>
      if match cursor with Some c => str_leb key c | None => false end
      then list_records_loop did limit cursor stream acc
      else (let! value := read_value cid in
            let acc := acc ++ [MkGetRecordOutput (record_uri did key) (cid_to_string cid) value] in
            if (limit <=? length acc)%nat then ret acc
            else list_records_loop did limit cursor stream acc)%se
  end.

(** [l.clamp(1, 100) as usize], 50 by default. *)
Definition records_limit (limit : option Z) : nat :=
  match limit with Some l => Z.to_nat (Z.max 1 (Z.min l 100)) | None => 50%nat end.

Definition list_records (did collection : string) (limit : option Z) (cursor : option string)
    : R (ListRecordsOutput (Value := Value)) :=
  (let limit := records_limit limit in
   let! o := x_store (load_repo_root did) in
   let! root := lift (ok_or o (XInvalidRequest ("repo not found for did: " +:+ did))) in
   let! repo := open_repo root in
   let prefix := collection +:+ "/" in
   let! stream := (fun s => (Ok (tree_entries_prefixed (fun c => fst (adapter_read c s))
                                   (repo_data repo) prefix), s)) in
   let! records := list_records_loop did limit cursor stream [] in
   ret (MkListRecordsOutput records
     (if Nat.eqb (length records) limit
      then option_map (fun r => default "" (strip_prefix ("at://" +:+ did +:+ "/") (gro_uri r)))
             (last records)
      else None)))%se.

(** The loop of [list_collections] into a [BTreeSet]. *)
Fixpoint collections_set (stream : list (result string (string * Cid))) (set : list string)
    : result XrpcError (list string) :=
  match stream with
  | [] => Ok set
  | Err e :: _ => Err (XInternal ("MST stream error: " +:+ e))
  | Ok (key, _) :: stream =>
      collections_set stream
        (match split_once "/" key with
         | Some (collection, _) => btree_insert collection set
         | None => set
         end)
  end.

Definition list_collections (did : string) : R (list string) :=
  (let! o := x_store (load_repo_root did) in
   match o with
   | None => ret []
   | Some root =>
       let! repo := open_repo root in
       let! stream := (fun s => (Ok (tree_entries_prefixed (fun c => fst (adapter_read c s))
                                       (repo_data repo) ""), s)) in
       lift (collections_set stream [])
   end)%se.

(** ** Blobs *)

Definition RAW_CODEC : Z := 0x55.
Definition MAX_BLOB_BYTES : Z := 2 * 1024 * 1024.

Definition blob_cid (b : bytes) : Cid := cid_new_v1 RAW_CODEC SHA2_256 (sha256 b).

Inductive BlobError := BlobEmpty | BlobTooLarge (n : Z) | BlobStorage (e : StorageError).

Definition store_blob (did mime_type : string) (b : bytes) : SE St BlobError (Cid * string * Z) :=
  if String.eqb b "" then throw BlobEmpty
  else if MAX_BLOB_BYTES <? str_len b then throw (BlobTooLarge (str_len b))
  else
    (let cid := blob_cid b in
     with_err BlobStorage (put_blob did (cid_to_string cid) mime_type (str_len b) b) ;;!
     ret (cid, mime_type, str_len b))%se.

(** [headers] are the values of [Content-Type]. *)
Definition upload_blob (did : string) (headers : HeaderValues) (body : bytes) : R BlobRef :=
  if String.eqb body "" then throw (XInvalidRequest "empty blob")
  else
    (let mime_type := default "application/octet-stream" (mjoin (head headers)) in
     let cid_str := cid_to_string (blob_cid body) in
     let size := str_len body in
     x_store (put_blob did cid_str mime_type size body) ;;!
     ret (MkBlobRef cid_str mime_type size))%se.

Definition get_blob_handler (did cid : string) : R (string * bytes) :=
  (let! o := x_store (get_blob did cid) in
   lift (ok_or o (XInvalidRequest "blob not found")))%se.

(** ** CAR export *)

Fixpoint get_repo_loop (cids : list Cid) (w : CarWriter) : R bytes :=
  match cids with
  | [] => lift (internal "CarWriter::finish failed: " (car_finish w))
  | cid :: cids =>
      (let! b := with_err (fun e => XInternal ("read_block_bytes failed for " +:+ cid_to_string cid
                             +:+ ": " +:+ StorageError_to_string e)) (read_block_bytes cid) in
       let! w := lift (internal "CarWriter::write failed: " (car_write w cid b)) in
       get_repo_loop cids w)%se
  end.

Definition get_repo (did : option string) : R bytes :=
  (let! did := lift (ok_or did (XInvalidRequest "missing required query param: did")) in
   let! o := x_store (load_repo_root did) in
   let! root := lift (ok_or o (XInvalidRequest ("repo not found for did: " +:+ did))) in
   let! repo := open_repo root in
   let! cids := x_prog "repo export failed: " (repo_export repo) in
   get_repo_loop cids (car_new root))%se.

(** ** Writes

    The world of a writing handler: the store and the broadcast frames, and the
    process-wide cache of decrypted signing keys. *)
Definition WriteWorld : Type := World (St := St) * gmap string bytes.
Notation M A := (SE WriteWorld XrpcError A).

Definition w_read {A} (m : R A) : M A :=
  fun '((s, pub), cache) => let '(r, s') := m s in (r, ((s', pub), cache)).
Definition w_writer {A} (m : SE (World (St := St)) RepoError A) : M A :=
  fun '(w, cache) => let '(r, w') := m w in (map_err xrpc_of_repo r, (w', cache)).
Definition cache_get (id : string) : M (option bytes) := fun w => (Ok (snd w !! id), w).
Definition cache_insert (id : string) (b : bytes) : M unit :=
  fun w => (Ok tt, (fst w, <[id := b]> (snd w))).

Definition import_signing_key (b : bytes) : M Keypair :=
  lift (internal "failed to import signing key: " (kp_import b)).

Definition load_signing_key_cached (did : string) : M Keypair :=
  (let key_id := did +:+ "#signing" in
   let! cached := cache_get key_id in
   match cached with
   | Some b => import_signing_key b
   | None =>
       let! key_bytes := w_read (with_err
         (fun e => XInternal ("failed to load signing key: " +:+ StorageError_to_string e))
         (load_key key_id (st_key_passphrase state))) in
       cache_insert key_id key_bytes ;;!
       import_signing_key key_bytes
   end)%se.

Definition build_writer (did : string) : M Writer :=
  (let! signing := load_signing_key_cached did in
   lift (internal "invalid DID: " (did_parse did)) ;;!
   ret (MkWriter signing did))%se.

Definition own_repo (repo did : string) : M unit :=
  assert_or (String.eqb repo did) (XInvalidRequest "repo must match the authenticated DID").

Definition to_ipld (value : Value) : M Ipld :=
  lift (map_err XInternal (json_value_to_ipld to_vec from_slice value)).

Definition check_keys (collection : string) (rkey : option string) : M unit :=
  (lift (check_collection collection) ;;!
   match rkey with Some rkey => lift (check_rkey rkey) | None => ret tt end)%se.

(** The [did] of the handlers below is the extractor's. *)
Definition create_record (d : WriteDraw) (did : string) (input : CreateRecordInput (Value := Value))
    : M CreateRecordOutput :=
  (own_repo (cri_repo input) did ;;!
   check_keys (cri_collection input) (cri_rkey input) ;;!
   let! writer := build_writer did in
   let rkey := default (tid_from_micros (wd_now_us d)) (cri_rkey input) in
   let key := mst_key (cri_collection input) rkey in
   let! ipld := to_ipld (cri_record input) in
   let! out := w_writer (apply_one writer (wd_stamps d) (WCreate key ipld)) in
   (* [expect]: a create always yields a record identifier *)
   let! cid := lift (ok_or (wo_record_cid out) (XInternal "create op always yields a record cid")) in
   ret (MkCreateRecordOutput (record_uri did key) (cid_to_string cid)))%se.

(** One turn of the loop of [apply_writes]. *)
Definition apply_write (d : WriteDraw) (writer : Writer) (did : string)
    (write : ApplyWritesWrite (Value := Value)) : M (ApplyWritesResult * CommitMeta) :=
  match write with
  | AwCreate collection rkey value =>
      (check_keys collection rkey ;;!
       let rkey := default (tid_from_micros (wd_now_us d)) rkey in
       let key := mst_key collection rkey in
       let! ipld := to_ipld value in
       let! out := w_writer (apply_one writer (wd_stamps d) (WCreate key ipld)) in
       ret (AwCreated (record_uri did key) (cid_to_string <$> wo_record_cid out),
            MkCommitMeta (cid_to_string (wo_commit_cid out)) (wo_rev out)))%se
  | AwUpdate collection rkey value =>
      (check_keys collection (Some rkey) ;;!
       let key := mst_key collection rkey in
       let! ipld := to_ipld value in
       let! out := w_writer (apply_one writer (wd_stamps d) (WUpdate key ipld)) in
       ret (AwUpdated (record_uri did key) (cid_to_string <$> wo_record_cid out),
            MkCommitMeta (cid_to_string (wo_commit_cid out)) (wo_rev out)))%se
  | AwDelete collection rkey =>
      (check_keys collection (Some rkey) ;;!
       let key := mst_key collection rkey in
       let! out := w_writer (apply_one writer (wd_stamps d) (WDelete key)) in
       ret (AwDeleted, MkCommitMeta (cid_to_string (wo_commit_cid out)) (wo_rev out)))%se
  end.

Fixpoint apply_writes_loop (writer : Writer) (did : string)
    (writes : list (WriteDraw * ApplyWritesWrite (Value := Value)))
    (last_commit : option CommitMeta) (results : list ApplyWritesResult) : M ApplyWritesOutput :=
  match writes with
  | [] => ret (MkApplyWritesOutput last_commit results)
  | (d, write) :: writes =>
      (let! x := apply_write d writer did write in
       apply_writes_loop writer did writes (Some (snd x)) (results ++ [fst x]))%se
  end.

(** Each write comes with what it reads from the clock. *)
Definition apply_writes (did repo : string)
    (writes : list (WriteDraw * ApplyWritesWrite (Value := Value))) : M ApplyWritesOutput :=
  (own_repo repo did ;;!
   match writes with
   | [] => ret (MkApplyWritesOutput None [])
   | _ =>
       let! writer := build_writer did in
       apply_writes_loop writer did writes None []
   end)%se.

(** [put_record] up to its look-up, and from there. *)
Definition put_record_check (did : string) (input : PutRecordInput (Value := Value)) : M bool :=
  (own_repo (pri_repo input) did ;;!
   check_keys (pri_collection input) (Some (pri_rkey input)) ;;!
   let! o := w_read (lookup_record_cid did (mst_key (pri_collection input) (pri_rkey input))) in
   ret (bool_decide (is_Some o)))%se.

Definition put_record_write (d : WriteDraw) (did : string) (input : PutRecordInput (Value := Value))
    (exists_ : bool) : M PutRecordOutput :=
  (let key := mst_key (pri_collection input) (pri_rkey input) in
   let! ipld := to_ipld (pri_record input) in
   let! writer := build_writer did in
   let! out := w_writer (apply_one writer (wd_stamps d)
     (if exists_ then WUpdate key ipld else WCreate key ipld)) in
   ret (MkPutRecordOutput (record_uri did key) (default "" (cid_to_string <$> wo_record_cid out))
          (Some (MkCommitMeta (cid_to_string (wo_commit_cid out)) (wo_rev out)))))%se.

Definition put_record (d : WriteDraw) (did : string) (input : PutRecordInput (Value := Value))
    : M PutRecordOutput :=
  (let! e := put_record_check did input in put_record_write d did input e)%se.

(** [delete_record] up to its look-up, and from there. *)
Definition delete_record_check (did : string) (input : DeleteRecordInput) : M bool :=
  (own_repo (dri_repo input) did ;;!
   check_keys (dri_collection input) (Some (dri_rkey input)) ;;!
   let! o := w_read (lookup_record_cid did (mst_key (dri_collection input) (dri_rkey input))) in
   ret (bool_decide (is_Some o)))%se.

Definition delete_record_write (d : WriteDraw) (did : string) (input : DeleteRecordInput)
    (exists_ : bool) : M (option CommitMeta) :=
  if exists_ then
    (let! writer := build_writer did in
     let! out := w_writer (apply_one writer (wd_stamps d)
       (WDelete (mst_key (dri_collection input) (dri_rkey input)))) in
     ret (Some (MkCommitMeta (cid_to_string (wo_commit_cid out)) (wo_rev out))))%se
  else ret None.

Definition delete_record (d : WriteDraw) (did : string) (input : DeleteRecordInput)
    : M (option CommitMeta) :=
  (let! e := delete_record_check did input in delete_record_write d did input e)%se.

(** ** DID documents *)

Definition build_did_doc (did handle : string) : M DidDocument :=
  (let! signing := load_signing_key_cached did in
   ret {| dd_context := ["https://www.w3.org/ns/did/v1"; "https://w3id.org/security/multikey/v1"];
          dd_id := did;
          dd_also_known_as := ["at://" +:+ handle];
          dd_verification_method :=
            [MkVm (did +:+ "#atproto") "Multikey" did (public_key_multibase (kp_did signing))];
          dd_service :=
            [MkServiceEntry "#atproto_pds" "AtprotoPersonalDataServer" (st_pds_endpoint state)] |})%se.

Definition describe_repo (repo : string) : M DescribeRepoOutput :=
  (let! did := w_read (resolve_repo_did repo) in
   let! h := w_read (x_store (get_handle_by_did did)) in
   let! handle := lift (ok_or h (XInvalidRequest ("repo not found: " +:+ repo))) in
   let! collections := w_read (list_collections did) in
   let! did_doc := build_did_doc did handle in
   ret (MkDescribeRepoOutput handle did did_doc collections true))%se.

End Handlers.
