(* ===== verification/RepoXrpcProps.v ===== *)
(** * The repository endpoints are correct

    Over the in-memory store: what the writing handlers do to an account's
    records, what a failing batch leaves, that a record written is the record
    read, and that the two implementations of paging and of blob storage
    agree. *)

From Stdlib Require Import ZArith Lia Ascii.
From S2P Require Import Prelude RustStr RepoUtil Externals Demo StoreTypes MemoryStore MemoryProps OAuthCore.
From S2P Require Import Jose Dpop Client OAuthServer OAuthProps Session Repo RepoWriter RepoDemo.
From S2P Require Import RepoProps RepoRead KeyCrypto Identity Accounts AccountProps RepoXrpc.

Section Writes.
Context `{Digests} {Cid : Type} `{CidLib Cid} `{Countable Cid}.
Context `{RepoSerde Cid} `{!Atrium Cid} `{!AtriumRead Cid} `{Keypairs} `{!KeypairIO} `{CarLib Cid}.
Context `{!CidLaws Cid} `{!RepoSerdeLaws Cid} `{!KeypairLaws} `{!AtriumLaws Cid} `{!AtriumReadLaws Cid}.
Context `{KeyCiphers} {Value : Type} `{Serde Value}.
Variable state : AppState.
Variable did_parse : string -> result string unit.
Implicit Types (g : Inner Cid) (m : gmap string Cid) (cache : gmap string bytes).

Abbreviation W := (WriteWorld (St := Inner Cid)) (only parsing).

Definition inner (w : W) : Inner Cid := fst (fst w).
Definition frames (w : W) : list FirehoseEvent := snd (fst w).

(** The account's repository, signed by [k], holds the records [m]. *)
Definition repo_is (k : Keypair) (did : string) m (w : W) : Prop :=
  addressed (blocks (inner w)) /\
  current (blocks (inner w)) k did (repo_roots (inner w) !! did) m.

(** The rest of the repository layer, as seen from outside: the log and the
    frames have grown by [n], other accounts' roots stand. *)
Definition advanced (did : string) (n : nat) (w w' : W) : Prop :=
  (exists rows, rv_log (rview (inner w')) = rv_log (rview (inner w)) ++ rows /\ length rows = n) /\
  (exists evs, frames w' = frames w ++ evs /\ length evs = n) /\
  (forall d, d <> did -> repo_roots (inner w') !! d = repo_roots (inner w) !! d) /\
  blocks (inner w) ⊆ blocks (inner w').

Lemma advanced_refl did w : advanced did 0 w w.
Proof. split_and!; [exists []; by rewrite app_nil_r|exists []; by rewrite app_nil_r|done|done]. Qed.

Lemma advanced_trans did n1 n2 w1 w2 w3 :
  advanced did n1 w1 w2 -> advanced did n2 w2 w3 -> advanced did (n1 + n2) w1 w3.
Proof.
  intros ((r1 & E1 & L1) & (e1 & F1 & M1) & R1 & B1) ((r2 & E2 & L2) & (e2 & F2 & M2) & R2 & B2).
  split_and!.
  - exists (r1 ++ r2). rewrite E2, E1, <- app_assoc. split; [done|]. rewrite length_app. lia.
  - exists (e1 ++ e2). rewrite F2, F1, <- app_assoc. split; [done|]. rewrite length_app. lia.
  - intros d Hd. by rewrite R2, R1.
  - by etrans.
Qed.

Lemma grows_advanced did (w w' : World (St := Inner Cid)) cache : grows w w' ->
  advanced did 0 (w, cache) (w', cache).
Proof.
  intros (Hs & Hv & Hp & Ha). destruct w as [g pub], w' as [g' pub']. unfold advanced, inner, frames.
  cbn [fst snd] in *. unfold wview, wblocks in *. cbn [fst] in *. rewrite Hv. cbn.
  apply (f_equal rv_roots) in Hv. cbn in Hv. subst pub'.
  split_and!; [exists []; by rewrite app_nil_r|exists []; by rewrite app_nil_r|by rewrite Hv|done].
Qed.

(** A handler's [apply_one]: a whole commit, or nothing. *)
Lemma writer_apply_one k did st o w r w' m :
  repo_is k did m w ->
  w_writer (apply_one (MkWriter k did) st o) w = (r, w') ->
  match r with
  | Ok out => repo_is k did (op_records o (wo_record_cid out) m) w' /\ advanced did 1 w w' /\
      (exists tr, op_stored (blocks (inner w')) tr o (wo_record_cid out)) /\ snd w' = snd w
  | Err e => repo_is k did m w' /\ advanced did 0 w w' /\ (exists msg, e = XInternal msg) /\ snd w' = snd w
  end.
Proof.
  destruct w as [[g pub] cache]. intros [Ha Hcur]. unfold inner in *. cbn [fst snd] in *.
  unfold w_writer, apply_one. destruct (bind _ _ _) as [r0 w1] eqn:E. intros [= <- <-].
  destruct r0 as [out|e]; cbn [map_err].
  - apply bind_Ok in E as ([out' body] & w2 & E & E'). unfold ret in E'. cbn in E'. injection E' as -> ->.
    assert (addressed (wblocks (g, pub))) as Ha' by exact Ha.
    assert (current (wblocks (g, pub)) k did (rv_roots (wview (g, pub)) !! did) m) as Hcur' by exact Hcur.
    destruct (commit_op_Ok (MkWriter k did) st o Broadcast (g, pub) w1 out body m Ha' Hcur' E)
      as (l & Hc & Hst & _ & _ & _). destruct w1 as [g1 pub1].
    destruct Hc as (Hs & Ha1 & (prev & rev0 & ev & _ & Hat & _ & _ & Hv) & _ & _ & _ & _ & _ & _ & _ & _ & Hp).
    unfold wblocks, wview in *. cbn [fst snd] in *.
    assert (repo_roots g1 = <[did := cb_commit body]> (repo_roots g)) as Hr
      by (apply (f_equal rv_roots) in Hv; done).
    unfold repo_is, advanced, inner, frames. cbn [fst snd]. split_and!; try done.
    + rewrite Hr, lookup_insert_eq. by exists (rev_now st), (Some prev).
    + rewrite Hv. cbn. eexists. split; [done|]. done.
    + rewrite Hp. eexists. split; [done|]. done.
    + intros d Hd. by rewrite Hr, lookup_insert_ne.
    + by exists l.*1.
  - assert (grows (g, pub) w1) as Hg.
    { apply bind_Err in E as [E|([] & w2 & _ & E)]; [|done].
      exact (clean_commit_op (MkWriter k did) st o Broadcast _ _ _ E). }
    split; [|split; [by apply grows_advanced|split; [by eexists|done]]].
    destruct w1 as [g1 pub1], Hg as (_ & Hv & Hs & Ha1). unfold wblocks, wview in *. cbn [fst snd] in *.
    unfold repo_is, inner. cbn [fst]. split; [by apply Ha1|].
    assert (repo_roots g1 = repo_roots g) as -> by (apply (f_equal rv_roots) in Hv; done).
    destruct (repo_roots g !! did) as [root|]; [|done].
    destruct Hcur as (rev & prev & Hc). exists rev, prev. eapply commit_at_mono; [exact Hs|exact Hc].
Qed.

(** The steps of a handler that touch neither the store nor the frames. *)
Definition quiet {A} (x : SE W XrpcError A) : Prop := forall w r w', x w = (r, w') -> fst w' = fst w.

Lemma quiet_bind {A B} (x : SE W XrpcError A) (k : A -> SE W XrpcError B) :
  quiet x -> (forall a, quiet (k a)) -> quiet (bind x k).
Proof.
  intros Hx Hk w r w' E. unfold bind in E. destruct (x w) as [[a|e] w1] eqn:E1.
  - rewrite (Hk _ _ _ _ E). by eapply Hx.
  - injection E as _ <-. by eapply Hx.
Qed.

Lemma quiet_lift {A} (r : result XrpcError A) : quiet (lift r).
Proof. by intros w r' w' [= _ <-]. Qed.
Lemma quiet_ret {A} (a : A) : quiet (ret a).
Proof. by intros w r' w' [= _ <-]. Qed.

Lemma quiet_check_keys c rk : quiet (check_keys (St := Inner Cid) c rk).
Proof. apply quiet_bind; [apply quiet_lift|]. intros _. destruct rk; [apply quiet_lift|apply quiet_ret]. Qed.

Lemma quiet_own repo did : quiet (own_repo (St := Inner Cid) repo did).
Proof. unfold own_repo, assert_or. intros w r w' E. by destruct (String.eqb repo did); injection E as _ <-. Qed.

Lemma quiet_ipld (v : Value) : quiet (to_ipld (St := Inner Cid) v).
Proof. apply quiet_lift. Qed.

Lemma quiet_writer did : quiet (build_writer (St := Inner Cid) state did_parse did).
Proof.
  unfold build_writer, load_signing_key_cached, import_signing_key.
  apply quiet_bind; [|intros k; apply quiet_bind; [apply quiet_lift|intros _; apply quiet_ret]].
  apply quiet_bind; [by intros w r w' [= _ <-]|]. intros [b|]; [apply quiet_lift|].
  apply quiet_bind; [|intros b; apply quiet_bind; [by intros w r w' [= _ <-]|intros _; apply quiet_lift]].
  intros [[g pub] cache] r w'. unfold w_read, with_err, load_key, bind, lift. cbn.
  unfold mem_get_key_blob, read. destruct (keys g !! _); cbn; by intros [= _ <-].
Qed.

Lemma repo_is_fst k did m w w' : fst w' = fst w -> repo_is k did m w -> repo_is k did m w'.
Proof. unfold repo_is, inner. by intros ->. Qed.

Lemma advanced_fst did n w1 w2 w3 : fst w2 = fst w1 -> advanced did n w2 w3 -> advanced did n w1 w3.
Proof. unfold advanced, inner, frames. by intros ->. Qed.

Lemma advanced_fst_r did n w1 w2 w3 : fst w3 = fst w2 -> advanced did n w1 w2 -> advanced did n w1 w3.
Proof. unfold advanced, inner, frames. by intros ->. Qed.

(** The writer a handler builds signs with [k]. *)
Definition writer_key (did : string) (k : Keypair) (w : W) : Prop :=
  forall wr w', build_writer state did_parse did w = (Ok wr, w') -> wr = MkWriter k did.

(** ** Batches *)

(** The MST key and the operation of an entry of [applyWrites]. *)
Definition write_key (d : WriteDraw) (x : ApplyWritesWrite (Value := Value)) : string :=
  match x with
  | AwCreate c rk _ => mst_key c (default (tid_from_micros (wd_now_us d)) rk)
  | AwUpdate c rk _ | AwDelete c rk => mst_key c rk
  end.

(** What an entry does to the records, its record stored as [rc]. *)
Definition write_records (d : WriteDraw) (x : ApplyWritesWrite (Value := Value)) (rc : option Cid) m
    : gmap string Cid :=
  match rc with
  | Some c => <[write_key d x := c]> m
  | None => delete (write_key d x) m
  end.

Fixpoint writes_records (l : list (WriteDraw * ApplyWritesWrite (Value := Value) * option Cid)) m
    : gmap string Cid :=
  match l with
  | [] => m
  | (d, x, rc) :: l => writes_records l (write_records d x rc m)
  end.

(** One entry: a whole commit of its key, or nothing. *)
Lemma apply_write_step d k did x w r w' m :
  repo_is k did m w -> apply_write d (MkWriter k did) did x w = (r, w') ->
  snd w' = snd w /\
  match r with
  | Ok _ => exists rc, repo_is k did (write_records d x rc m) w' /\ advanced did 1 w w'
  | Err _ => repo_is k did m w' /\ advanced did 0 w w'
  end.
Proof.
  intros Hr E.
  assert (forall c rk (f : unit -> SE W XrpcError (ApplyWritesResult * CommitMeta)),
    bind (check_keys (St := Inner Cid) c rk) f w = (r, w') ->
    (is_err r = true /\ w' = w) \/ f tt w = (r, w'))
    as Hck.
  { intros c rk f Ef. unfold bind at 1 in Ef. unfold check_keys, bind, lift, ret in Ef.
    destruct (check_collection c) as [[]|]; [|injection Ef as <- <-; by left].
    destruct rk as [rk|]; [destruct (check_rkey rk) as [[]|]; [|injection Ef as <- <-; by left]|]; by right. }
  assert (is_err r = true -> w' = w ->
    snd w' = snd w /\ match r with Ok _ => exists rc, repo_is k did (write_records d x rc m) w' /\ advanced did 1 w w'
                      | Err _ => repo_is k did m w' /\ advanced did 0 w w' end) as Hfail.
  { intros He ->. split; [done|]. destruct r; [done|]. split; [done|apply advanced_refl]. }
  assert (forall o (f : WriteOutcome Cid -> ApplyWritesResult * CommitMeta),
    bind (w_writer (apply_one (MkWriter k did) (wd_stamps d) o)) (fun out => ret (f out)) w = (r, w') ->
    (forall rc tr, op_stored (blocks (inner w')) tr o rc -> op_records o rc m = write_records d x rc m) ->
    snd w' = snd w /\ match r with Ok _ => exists rc, repo_is k did (write_records d x rc m) w' /\ advanced did 1 w w'
                      | Err _ => repo_is k did m w' /\ advanced did 0 w w' end) as Hop.
  { intros o f Eo Hrec. unfold bind in Eo. destruct (w_writer _ w) as [[out|e] w1] eqn:Ew;
      pose proof (writer_apply_one _ _ _ _ _ _ _ _ Hr Ew) as Hw; cbn in Hw.
    - unfold ret in Eo. injection Eo as <- <-. destruct Hw as (Hr1 & Hadv & (tr & Hst) & Hc).
      split; [done|]. exists (wo_record_cid out). by rewrite <- (Hrec _ _ Hst).
    - injection Eo as <- <-. destruct Hw as (? & ? & _ & ?). done. }
  destruct x as [c rk v|c rk v|c rk]; cbn [apply_write] in E;
    (apply Hck in E as [[He Hw]|E]; [by apply Hfail|]).
  - unfold bind at 1, to_ipld, lift in E. destruct (map_err _ _) as [i|e]; [|injection E as <- <-; by apply Hfail].
    eapply Hop; [exact E|]. intros rc tr (c0 & blk & -> & _). done.
  - unfold bind at 1, to_ipld, lift in E. destruct (map_err _ _) as [i|e]; [|injection E as <- <-; by apply Hfail].
    eapply Hop; [exact E|]. intros rc tr (c0 & blk & -> & _). done.
  - eapply Hop; [exact E|]. intros rc tr ->. done.
Qed.

Lemma apply_writes_loop_step k did : forall writes lc rs w r w' m,
  repo_is k did m w -> apply_writes_loop (MkWriter k did) did writes lc rs w = (r, w') ->
  exists n rcs, (n <= length writes)%nat /\ length rcs = n /\
    repo_is k did (writes_records (zip (take n writes) rcs) m) w' /\ advanced did n w w' /\
    match r with
    | Ok out => n = length writes /\ length (awo_results out) = (length rs + n)%nat /\
        (awo_commit out = None -> writes = [] /\ lc = None)
    | Err _ => (n < length writes)%nat
    end.
Proof.
  induction writes as [|[d x] writes IH]; intros lc rs w r w' m Hr E; cbn [apply_writes_loop] in E.
  - unfold ret in E. injection E as <- <-. exists 0%nat, []. cbn. split_and!; try done; try lia.
    apply advanced_refl.
  - unfold bind in E. destruct (apply_write d (MkWriter k did) did x w) as [r1 w1] eqn:E1.
    destruct (apply_write_step _ _ _ _ _ _ _ _ Hr E1) as [_ Hs]. destruct r1 as [y|e].
    + destruct Hs as (rc & Hr1 & Hadv1).
      destruct (IH _ _ _ _ _ _ Hr1 E) as (n & rcs & Hn & Hlen & Hr2 & Hadv2 & Hres).
      exists (S n), (rc :: rcs). cbn [take zip zip_with writes_records length].
      split_and!; [lia|lia|done|by apply (advanced_trans did 1 n w w1 w')|].
      destruct r as [out|e]; [|lia]. destruct Hres as (-> & Hl & Hc). rewrite Hl, length_app. cbn.
      split_and!; [done|lia|]. intros Hnone. by destruct (Hc Hnone).
    + injection E as <- <-. destruct Hs as [Hr1 Hadv1]. exists 0%nat, []. cbn. split_and!; try done; lia.
Qed.

(** ** Look-ups *)

Lemma current_holds k did m root g : current (blocks g) k did (Some root) m ->
  repo_roots g !! did = Some root -> holds g did m.
Proof.
  intros (rev & prev & blk & data & sig & pre & Hb & Hv & _ & _ & Hm) Hr.
  exists root, blk, (signed_of (MkUnsigned did 3 data rev prev) sig). split_and!; try done.
  by apply from_slice_to_vec.
Qed.

Lemma x_prog_rd {A} ctx (p : BProg Cid A) g a g' :
  rd_prog p g = (Ok a, g') -> x_prog ctx p g = (Ok a, g').
Proof.
  unfold rd_prog, x_prog. destruct (run_prog p (g, [])) as [[x|e] [g1 tr]]; cbn; [|done].
  by intros [= <- <-].
Qed.

Lemma mem_tree_get ctx root key m g : addressed (blocks g) -> mst_map (blocks g) root = Some m ->
  x_prog ctx (tree_get root key) g = (Ok (m !! key), g).
Proof.
  intros Ha Hm. unfold x_prog. destruct (run_prog (tree_get root key) (g, [])) as [r [g' tr]] eqn:E.
  pose proof (mem_run_no_trace _ _ _ _ _ _ E) as [_ Hg].
  apply (run_prog_bexec false (fun _ => mem_healthy)) in E as (tr' & Htr & Hx & _). cbn in Htr, Hx.
  destruct (tree_get_total _ _ _ _ _ _ _ Ha Hm Hx) as [-> ->]. rewrite Htr in Hg.
  by rewrite (Hg eq_refl).
Qed.

Lemma lookup_mem k did m w key : repo_is k did m w ->
  lookup_record_cid did key (inner w) = (Ok (m !! key), inner w).
Proof.
  intros [Ha Hcur]. set (g := inner w) in *. unfold lookup_record_cid, bind, x_store, with_err. cbn.
  destruct (repo_roots g !! did) as [root|] eqn:Er; cbn.
  - destruct (mem_open _ _ _ Ha (current_holds _ _ _ _ _ Hcur Er)) as (root' & repo & Hr' & Ho & Hm).
    rewrite Er in Hr'. injection Hr' as <-. unfold open_repo. rewrite (x_prog_rd _ _ _ _ _ Ho).
    by apply mem_tree_get.
  - cbn in Hcur. by rewrite Hcur, lookup_empty.
Qed.

(** ** Handlers, up to the write *)

Lemma own_repo_run repo did w : own_repo (St := Inner Cid) repo did w =
  (if String.eqb repo did then Ok tt else Err (XInvalidRequest "repo must match the authenticated DID"), w).
Proof. unfold own_repo, assert_or, ret, throw. by destruct (String.eqb repo did). Qed.

Definition keys_check (collection : string) (rkey : option string) : result XrpcError unit :=
  let? _u := check_collection collection in
  match rkey with Some rkey => check_rkey rkey | None => Ok tt end.

Lemma check_keys_run c rk w : check_keys (St := Inner Cid) c rk w = (keys_check c rk, w).
Proof.
  unfold check_keys, keys_check, bind, lift, ret. destruct (check_collection c) as [[]|]; [|done].
  by destruct rk.
Qed.

Lemma keys_check_Ok c rk : keys_check c rk = Ok tt <->
  validate_collection c = Ok tt /\ forall r, rk = Some r -> validate_rkey r = Ok tt.
Proof.
  unfold keys_check, check_collection, check_rkey.
  destruct (validate_collection c) as [[]|]; cbn; [|by split; [|intros [? _]]].
  destruct rk as [r|]; [|by split; [|done]]. destruct (validate_rkey r) as [[]|] eqn:E; cbn.
  - split; [|done]. intros _. split; [done|]. by intros ? [= <-].
  - split; [done|]. intros [_ Hr]. by rewrite (Hr r eq_refl) in E.
Qed.

End Writes.

(** ** Properties *)

Section Properties.
Context `{Digests} {Cid : Type} `{CidLib Cid} `{Countable Cid}.
Context `{RepoSerde Cid} `{!Atrium Cid} `{!AtriumRead Cid} `{Keypairs} `{!KeypairIO} `{CarLib Cid}.
Context `{!CidLaws Cid} `{!RepoSerdeLaws Cid} `{!KeypairLaws} `{!AtriumLaws Cid} `{!AtriumReadLaws Cid}.
Context `{KeyCiphers} {Value : Type} `{Serde Value}.
Variable state : AppState.
Variable did_parse : string -> result string unit.

(** C14: a record created is the record read.  If createRecord succeeds, the
    repository was the caller's own, the collection and the given rkey were
    valid, the account's records are the old ones with that key set, by one
    logged and broadcast commit, and getRecord under the same collection and
    key now answers with the same URI and identifier and with what the stored
    block of the converted record decodes to. *)
Theorem create_record_readable k did d (input : CreateRecordInput (Value := Value)) w out w' m
    (Hr : repo_is k did m w) (Hkey : writer_key state did_parse did k w)
    (Hdid : starts_with "did:" did = true)
    (Hok : create_record state did_parse d did input w = (Ok out, w')) :
  let rkey := default (tid_from_micros (wd_now_us d)) (cri_rkey input) in
  let key := mst_key (cri_collection input) rkey in
  cri_repo input = did /\ validate_collection (cri_collection input) = Ok tt /\
  (forall r, cri_rkey input = Some r -> validate_rkey r = Ok tt) /\
  cro_uri out = record_uri did key /\
  exists cid (ipld : Ipld) blk,
    json_value_to_ipld to_vec from_slice (cri_record input) = Ok ipld /\ to_vec ipld = Ok blk /\
    cro_cid out = cid_to_string cid /\ repo_is k did (<[key := cid]> m) w' /\ advanced did 1 w w' /\
    RepoXrpc.get_record did (cri_collection input) rkey (inner w') =
      (let? v := internal ("dagcbor decode for record " +:+ cid_to_string cid +:+ ": ") (from_slice blk) in
       Ok (MkGetRecordOutput (cro_uri out) (cro_cid out) v), inner w').
Proof.
  intros rkey key. unfold create_record in Hok.
  unfold bind at 1 in Hok. rewrite own_repo_run in Hok.
  destruct (String.eqb_spec (cri_repo input) did) as [Hown|]; [|done].
  unfold bind at 1 in Hok. rewrite check_keys_run in Hok.
  destruct (keys_check _ _) as [[]|] eqn:Ek; [|done]. apply keys_check_Ok in Ek as [Hcol Hrk].
  apply bind_Ok in Hok as (wr & w1 & Ew & Hok). pose proof (quiet_writer _ _ _ _ _ _ Ew) as Hf.
  apply Hkey in Ew as ->. fold rkey key in Hok.
  apply bind_Ok in Hok as (i & w2 & Ei & Hok). unfold to_ipld, lift in Ei. injection Ei as Ei <-.
  apply map_err_Ok in Ei. apply bind_Ok in Hok as (o & w3 & Eo & Hok).
  pose proof (writer_apply_one k did _ _ _ _ _ _ (repo_is_fst _ _ _ _ _ Hf Hr) Eo)
    as (Hr3 & Hadv & (tr & Hst) & _). cbn [op_stored op_records] in *.
  destruct Hst as (cid & blk & Hc & _ & Hv & Hb). rewrite Hc in *.
  apply bind_Ok in Hok as (cid' & w4 & E4 & Hok). unfold lift in E4. injection E4 as <- <-.
  unfold ret in Hok. injection Hok as <- <-. split_and!; try done.
  exists cid, i, blk. split_and!; try done; [by eapply advanced_fst|].
  unfold RepoXrpc.get_record, resolve_repo_did, bind. rewrite Hdid. unfold ret.
  fold rkey key. rewrite (lookup_mem _ _ _ _ key Hr3), lookup_insert_eq. cbn [ok_or lift].
  unfold read_value, bind, with_err, lift. cbn. rewrite Hb. cbn.
  by destruct (from_slice blk).
Qed.

(** a batch is a prefix.  applyWrites makes one commit per entry.  Whatever
    entry fails, and however, the entries before it are committed, logged and
    broadcast, and stay so; the account's records are those after exactly these
    entries, in order, and nothing else happened.  Only if it succeeds were all
    of them applied, with one result each. *)
Theorem apply_writes_prefix k did repo (writes : list (WriteDraw * ApplyWritesWrite (Value := Value)))
    w r w' m
    (Hr : repo_is k did m w) (Hkey : writer_key state did_parse did k w)
    (Hrun : apply_writes state did_parse did repo writes w = (r, w')) :
  exists n rcs, (n <= length writes)%nat /\ length rcs = n /\
    repo_is k did (writes_records (zip (take n writes) rcs) m) w' /\ advanced did n w w' /\
    match r with
    | Ok out => repo = did /\ n = length writes /\ length (awo_results out) = n
    | Err _ => repo <> did \/ (n < length writes)%nat
    end.
Proof.
  unfold apply_writes, bind at 1 in Hrun. rewrite own_repo_run in Hrun.
  destruct (String.eqb_spec repo did) as [->|Hne].
  2: { injection Hrun as <- <-. exists 0%nat, []. cbn. split_and!; try done; [lia|apply advanced_refl|by left]. }
  destruct writes as [|x writes].
  { unfold ret in Hrun. injection Hrun as <- <-. exists 0%nat, []. cbn. split_and!; try done.
    apply advanced_refl. }
  unfold bind in Hrun. destruct (build_writer state did_parse did w) as [[wr|e] w1] eqn:Ew;
    pose proof (quiet_writer _ _ _ _ _ _ Ew) as Hf.
  - apply Hkey in Ew as ->.
    destruct (apply_writes_loop_step _ _ _ _ _ _ _ _ _ (repo_is_fst _ _ _ _ _ Hf Hr) Hrun)
      as (n & rcs & Hn & Hl & Hr' & Hadv & Hres).
    exists n, rcs. split_and!; try done; [by eapply advanced_fst|].
    destruct r as [out|e]; [|by right]. destruct Hres as (-> & Hres & _). done.
  - injection Hrun as <- <-. exists 0%nat, []. cbn. split_and!; try done; try lia.
    + by eapply repo_is_fst.
    + eapply advanced_fst_r; [done|apply advanced_refl].
Qed.

(** putRecord is an upsert.  If it succeeds the account's records are the old
    ones with that key set to the record's identifier, by one commit, an update
    if the key was present and a creation if it was not; if it fails, at any
    step, the records and the log are as they were. *)
Theorem put_record_upserts k did d (input : PutRecordInput (Value := Value)) w r w' m
    (Hr : repo_is k did m w) (Hkey : writer_key state did_parse did k w)
    (Hrun : put_record state did_parse d did input w = (r, w')) :
  let key := mst_key (pri_collection input) (pri_rkey input) in
  match r with
  | Ok out => exists cid, repo_is k did (<[key := cid]> m) w' /\ advanced did 1 w w' /\
      pro_uri out = record_uri did key /\ pro_cid out = cid_to_string cid
  | Err _ => repo_is k did m w' /\ advanced did 0 w w'
  end.
Proof.
  intros key.
  assert (forall w1, fst w1 = fst w -> repo_is k did m w1 /\ advanced did 0 w w1) as Hquiet.
  { intros w1 Hf. split; [by eapply repo_is_fst|]. eapply advanced_fst_r; [done|apply advanced_refl]. }
  unfold put_record, put_record_check, put_record_write, bind at 1 2 in Hrun. rewrite own_repo_run in Hrun.
  destruct (String.eqb_spec (pri_repo input) did) as [Hown|Hne]; [|injection Hrun as <- <-; by apply Hquiet].
  unfold bind at 1 in Hrun. rewrite check_keys_run in Hrun.
  destruct (keys_check _ _) as [[]|]; [|injection Hrun as <- <-; by apply Hquiet].
  unfold bind at 1, w_read in Hrun. destruct w as [[g pub] cache].
  change g with (inner ((g, pub), cache)) in Hrun at 1. rewrite (lookup_mem _ _ _ _ _ Hr) in Hrun.
  unfold ret at 1 in Hrun. cbn [inner fst snd] in Hrun.
  unfold bind at 1, to_ipld, lift at 1 in Hrun.
  destruct (map_err _ _) as [i|e]; [|injection Hrun as <- <-; by apply Hquiet].
  unfold bind at 1 in Hrun. destruct (build_writer _ _ _ _) as [[wr|e] w1] eqn:Ew;
    pose proof (quiet_writer _ _ _ _ _ _ Ew) as Hf; [|injection Hrun as <- <-; by apply Hquiet].
  apply Hkey in Ew as ->. unfold bind at 1 in Hrun.
  destruct (w_writer _ w1) as [[out|e] w2] eqn:Eo;
    pose proof (writer_apply_one k did _ _ _ _ _ _ (repo_is_fst _ _ _ _ _ Hf Hr) Eo) as Hw; cbn in Hw.
  - unfold ret in Hrun. injection Hrun as <- <-. destruct Hw as (Hr' & Hadv & (tr & Hst) & _).
    exists (default (wo_commit_cid out) (wo_record_cid out)).
    assert (exists c, wo_record_cid out = Some c /\ repo_is k did (<[key := c]> m) w2) as (c & Hc & Hr2).
    { destruct (bool_decide _); destruct Hst as (c & blk & Hc & _); rewrite Hc in Hr'; by exists c. }
    rewrite Hc. cbn. split_and!; try done. by eapply advanced_fst.
  - injection Hrun as <- <-. destruct Hw as (Hr' & Hadv & _). split; [done|]. by eapply advanced_fst.
Qed.

(** deleteRecord.  Run without interference, on a valid key of the caller's
    own repository that is not present it succeeds with no commit and changes
    nothing; if it reports a commit, the key was present and is now gone, by
    that one commit; if it fails, the records and the log are as they were. *)
Theorem delete_record_spec k did d (input : DeleteRecordInput) w r w' m
    (Hr : repo_is k did m w) (Hkey : writer_key state did_parse did k w)
    (Hrun : delete_record state did_parse d did input w = (r, w')) :
  let key := mst_key (dri_collection input) (dri_rkey input) in
  (dri_repo input = did -> validate_collection (dri_collection input) = Ok tt ->
   validate_rkey (dri_rkey input) = Ok tt -> m !! key = None -> r = Ok None) /\
  match r with
  | Ok None => m !! key = None /\ w' = w
  | Ok (Some _) => is_Some (m !! key) /\ repo_is k did (delete key m) w' /\ advanced did 1 w w'
  | Err _ => repo_is k did m w' /\ advanced did 0 w w'
  end.
Proof.
  intros key.
  assert (forall w1, fst w1 = fst w -> repo_is k did m w1 /\ advanced did 0 w w1) as Hquiet.
  { intros w1 Hf. split; [by eapply repo_is_fst|]. eapply advanced_fst_r; [done|apply advanced_refl]. }
  unfold delete_record, delete_record_check, delete_record_write, bind at 1 2 in Hrun.
  rewrite own_repo_run in Hrun.
  destruct (String.eqb_spec (dri_repo input) did) as [Hown|Hne]; [|injection Hrun as <- <-; split; [done|by apply Hquiet]].
  unfold bind at 1 in Hrun. rewrite check_keys_run in Hrun.
  destruct (keys_check _ _) as [[]|] eqn:Ek.
  2: { injection Hrun as <- <-. split; [|by apply Hquiet]. intros _ Hc Hk.
       assert (keys_check (dri_collection input) (Some (dri_rkey input)) = Ok tt) as E2; [|congruence].
       apply keys_check_Ok. split; [done|]. by intros ? [= <-]. }
  unfold bind at 1, w_read in Hrun. destruct w as [[g pub] cache].
  change g with (inner ((g, pub), cache)) in Hrun at 1. rewrite (lookup_mem _ _ _ _ _ Hr) in Hrun.
  unfold ret at 1 in Hrun. cbn [inner fst snd] in Hrun. fold key in Hrun.
  destruct (bool_decide_reflect (is_Some (m !! key))) as [Hsome|Hnone].
  - split; [intros _ _ _ Hn; rewrite Hn in Hsome; by destruct Hsome|].
    unfold bind at 1 in Hrun. destruct (build_writer _ _ _ _) as [[wr|e] w1] eqn:Ew;
      pose proof (quiet_writer _ _ _ _ _ _ Ew) as Hf; [|injection Hrun as <- <-; by apply Hquiet].
    apply Hkey in Ew as ->. unfold bind at 1 in Hrun.
    destruct (w_writer _ w1) as [[out|e] w2] eqn:Eo;
      pose proof (writer_apply_one k did _ _ _ _ _ _ (repo_is_fst _ _ _ _ _ Hf Hr) Eo) as Hw; cbn in Hw.
    + unfold ret in Hrun. injection Hrun as <- <-. destruct Hw as (Hr' & Hadv & (tr & Hst) & _).
      split_and!; [done|done|by eapply advanced_fst].
    + injection Hrun as <- <-. destruct Hw as (Hr' & Hadv & _). split; [done|]. by eapply advanced_fst.
  - unfold ret in Hrun. injection Hrun as <- <-. apply eq_None_not_Some in Hnone. done.
Qed.

End Properties.

(** ** The two servers agree *)

Section Agreement.
Context `{Digests} {Cid St : Type} `{CidLib Cid} `{Countable Cid} `{StorageBackend Cid St}.
Context `{RepoSerde Cid} `{!Atrium Cid} `{!AtriumRead Cid}.
Context {Value : Type} `{Serde Value}.

(** An entry of the shared reader, as the server's response shows it. *)
Definition output_of (did : string) (e : RecordEntry (Cid := Cid) (Value := Value)) : GetRecordOutput :=
  MkGetRecordOutput (record_uri did (re_key e)) (cid_to_string (re_cid e)) (re_value e).

Lemma read_value_agrees key cid (s : St) :
  match read_entry (Value := Value) key cid s with
  | (Ok e, s') => read_value cid s = (Ok (re_value e), s') /\ re_key e = key /\ re_cid e = cid
  | (Err _, s') => exists msg, read_value (Value := Value) cid s = (Err (XInternal msg), s')
  end.
Proof.
  unfold read_entry, read_value, bind, rd_store, with_err, lift, decode_record, ret.
  destruct (read_block_bytes cid s) as [[b|e] s']; cbn; [|by eexists].
  destruct (from_slice b) as [v|e]; cbn; [done|by eexists].
Qed.

Lemma list_loops_agree did limit cursor stream : forall acc (s : St),
  match list_loop (Value := Value) limit cursor stream acc s with
  | (Ok l, s') => list_records_loop did limit cursor stream (map (output_of did) acc) s
                  = (Ok (map (output_of did) l), s')
  | (Err _, s') => exists msg,
      list_records_loop (Value := Value) did limit cursor stream (map (output_of did) acc) s
      = (Err (XInternal msg), s')
  end.
Proof.
  induction stream as [|[[key cid]|e] stream IH]; intros acc s; cbn [list_loop list_records_loop].
  - done.
  - destruct (match cursor with Some c => str_leb key c | None => false end); [apply IH|].
    unfold bind. pose proof (read_value_agrees key cid s) as Hv.
    destruct (read_entry key cid s) as [[x|e] s'].
    + destruct Hv as (-> & Hk & Hc). rewrite !length_app, length_map. cbn [length].
      assert (map (output_of did) acc ++ [MkGetRecordOutput (record_uri did key) (cid_to_string cid) (re_value x)]
              = map (output_of did) (acc ++ [x])) as ->.
      { rewrite map_app. f_equal. cbn. unfold output_of. by rewrite Hk, Hc. }
      destruct (_ <=? _)%nat; [done|apply IH].
    + by destruct Hv as [msg ->]; eexists.
  - by eexists.
Qed.

Lemma strip_record_uri did key : strip_prefix ("at://" +:+ did +:+ "/") (record_uri did key) = Some key.
Proof. unfold record_uri. rewrite strip_prefix_Some. by rewrite !str_app_assoc. Qed.

Lemma records_limit_clamped limit : clamp_limit (records_limit limit) = records_limit limit.
Proof. unfold clamp_limit, records_limit. destruct limit as [l|]; [|done]. lia. Qed.

(** one paging, two implementations.  For an account that has a repository,
    over any store, the server's own listRecords and the shared reader of the
    on-device server run through the same states and give the same page: the
    same records in the same order, each under its URI, and the same cursor;
    when one fails, so does the other, with an internal error. *)
Theorem list_records_agree did collection (limit : option Z) cursor (s : St) root
    (Hroot : fst (load_repo_root did s) = Ok (Some root)) :
  let core := RepoRead.list_records (Value := Value) did collection (records_limit limit) cursor s in
  let pds := RepoXrpc.list_records (Value := Value) did collection limit cursor s in
  snd pds = snd core /\
  match fst core with
  | Ok p => fst pds = Ok (MkListRecordsOutput (map (output_of did) (rp_records p)) (rp_cursor p))
  | Err _ => exists msg, fst pds = Err (XInternal msg)
  end.
Proof.
  unfold RepoRead.list_records, RepoXrpc.list_records. rewrite records_limit_clamped.
  set (lim := records_limit limit). unfold bind, rd_store, x_store, with_err.
  destruct (load_repo_root did s) as [r s1] eqn:El. cbn in Hroot. subst r. cbn [map_err ok_or lift].
  unfold rd_prog, open_repo, x_prog, internal.
  destruct (run_prog (repo_open root) (s1, [])) as [[repo|e] [s2 tr]]; cbn [map_err]; [|by split; [|eexists]].
  unfold rd_stream.
  set (stream := tree_entries_prefixed _ (repo_data repo) (collection +:+ "/")).
  pose proof (list_loops_agree did lim cursor stream [] s2) as Hl. cbn [map] in Hl.
  destruct (list_loop lim cursor stream [] s2) as [[l|e] s3].
  - rewrite Hl. unfold ret. cbn [fst snd rp_records rp_cursor]. split; [done|]. do 2 f_equal.
    rewrite length_map. destruct (Nat.eqb (length l) lim); [|done].
    change (map (output_of did) l) with (output_of did <$> l). rewrite fmap_last.
    destruct (last l) as [x|]; [|done]. cbn. by rewrite strip_record_uri.
  - destruct Hl as [msg ->]. cbn. split; [done|]. by eexists.
Qed.

(** blobs are stored one way.  For a body within the size limit the server's
    uploadBlob and the shared [store_blob] leave the same store and report the
    same identifier, type and size, or fail alike; an empty body is refused by
    both before storage, an oversized one by [store_blob]. *)
Theorem blob_uploads_agree did headers (body : bytes) (s : St) :
  let mime := default "application/octet-stream" (mjoin (head headers)) in
  let server := upload_blob (Cid := Cid) did headers body s in
  let shared := store_blob (Cid := Cid) did mime body s in
  (body = "" -> snd server = s /\ snd shared = s /\ is_err (fst server) = true /\ fst shared = Err BlobEmpty) /\
  (MAX_BLOB_BYTES < str_len body -> shared = (Err (BlobTooLarge (str_len body)), s)) /\
  (body <> "" -> str_len body <= MAX_BLOB_BYTES ->
     snd server = snd shared /\
     match fst shared with
     | Ok (cid, m, n) => fst server = Ok (MkBlobRef (cid_to_string cid) m n) /\ cid = blob_cid body /\
         m = mime /\ n = str_len body
     | Err (BlobStorage e) => fst server = Err (xrpc_of_storage e)
     | Err _ => False
     end).
Proof.
  intros mime server shared. unfold server, shared, upload_blob, store_blob. fold mime.
  destruct (String.eqb_spec body "") as [->|Hne].
  - split; [done|]. split; [intros Hl; by vm_compute in Hl|done].
  - split; [done|]. destruct (Z.ltb_spec MAX_BLOB_BYTES (str_len body)); [split; [done|lia]|].
    split; [lia|]. intros _ _. unfold bind, x_store, with_err, ret.
    by destruct (put_blob did (cid_to_string (blob_cid body)) mime (str_len body) body s) as [[[]|e] s'].
Qed.

End Agreement.

(** ** A concrete account *)

Definition demo_str_parse (did : string) : result string unit := Ok tt.
Definition demo_ww : WriteWorld (St := Inner string) :=
  (demo_world, {[ "did:a#signing" := "did:a" ]}).
Definition demo_wdraw (n : string) : WriteDraw := {| wd_now_us := 1; wd_stamps := demo_stamps n |}.

Lemma demo_repo_is : repo_is (demo_keys demo_acct) demo_acct ∅ demo_ww.
Proof. split; [apply demo_world_addressed|]. reflexivity. Qed.

(** The cache answers for the key. *)
Lemma demo_writer_key w : snd w !! "did:a#signing" = Some "did:a" ->
  writer_key (Cid := string) demo_app demo_str_parse "did:a" (demo_keys demo_acct) w.
Proof.
  intros Hc wr w' E. unfold build_writer, load_signing_key_cached, cache_get, bind in E.
  change (String.append "did:a" "#signing") with "did:a#signing" in E. rewrite Hc in E.
  unfold import_signing_key, lift, ret in E. cbn in E. by injection E as <- _.
Qed.

Definition demo_cri (c : string) (rk : option string) (v : string) : CreateRecordInput :=
  {| cri_repo := "did:a"; cri_collection := c; cri_record := v; cri_rkey := rk |}.

Definition demo_created := create_record (Cid := string) (St := Inner string) (Value := string) demo_app demo_str_parse (demo_wdraw "1") "did:a"
  (demo_cri "app.x" (Some "1") "hello") demo_ww.

Lemma create_record_readable_witness :
  exists cid, is_ok (fst demo_created) = true /\
    RepoXrpc.get_record (Value := string) "did:a" "app.x" "1" (inner (snd demo_created)) =
    (Ok (MkGetRecordOutput "at://did:a/app.x/1" cid "hello"), inner (snd demo_created)).
Proof.
  destruct demo_created as [[out|e] w'] eqn:E;
    [|exfalso; apply (f_equal (fun x => is_ok (fst x))) in E; vm_compute in E; discriminate E].
  destruct (create_record_readable demo_app demo_str_parse (demo_keys demo_acct) demo_acct
              (demo_wdraw "1") (demo_cri "app.x" (Some "1") "hello") demo_ww out w' ∅
              demo_repo_is (demo_writer_key demo_ww eq_refl) eq_refl E)
    as (_ & _ & _ & Hu & cid & ipld & blk & Hi & Hv & Hc & _ & _ & Hget).
  exists (cro_cid out). split; [reflexivity|]. cbn [snd].
  assert (ipld = "hello") as -> by (cbn in Hi; congruence).
  assert (blk = "hello") as -> by (cbn in Hv; congruence).
  change ("did:a") with demo_acct. cbn [cri_collection demo_cri] in Hget.
  refine (eq_trans Hget _). cbn. rewrite Hu. reflexivity.
Defined.

(** The second entry names no valid collection: the first stays committed. *)
Definition demo_batch : list (WriteDraw * ApplyWritesWrite (Value := string)) :=
  [(demo_wdraw "1", AwCreate "app.x" (Some "1") "hello");
   (demo_wdraw "2", AwCreate "app" (Some "2") "lost")].

Definition demo_batched := apply_writes (Cid := string) (St := Inner string) demo_app demo_str_parse
  "did:a" "did:a" demo_batch demo_ww.

Lemma apply_writes_prefix_witness :
  is_err (fst demo_batched) = true /\
  exists n rcs, (n < 2)%nat /\ length rcs = n /\
    repo_is (demo_keys demo_acct) demo_acct
      (writes_records (zip (take n demo_batch) rcs) ∅) (snd demo_batched) /\
    advanced demo_acct n demo_ww (snd demo_batched) /\ length (frames (snd demo_batched)) = 1%nat.
Proof.
  assert (is_err (fst demo_batched) = true) as He by (vm_compute; reflexivity).
  assert (length (frames (snd demo_batched)) = 1%nat) as Hf by (vm_compute; reflexivity).
  split; [exact He|]. destruct demo_batched as [r w'] eqn:E.
  destruct (apply_writes_prefix demo_app demo_str_parse (demo_keys demo_acct) demo_acct "did:a"
              demo_batch demo_ww r w' ∅ demo_repo_is (demo_writer_key demo_ww eq_refl) E)
    as (n & rcs & Hn & Hl & Hr & Ha & Hres).
  destruct r as [out|e]; [discriminate He|]. destruct Hres as [Hne|Hlt]; [by destruct Hne|].
  exists n, rcs. split_and!; [exact Hlt|exact Hl|exact Hr|exact Ha|exact Hf].
Defined.

Definition demo_pri (v : string) : PutRecordInput :=
  {| pri_repo := "did:a"; pri_collection := "app.x"; pri_rkey := "1"; pri_record := v |}.

(** A second [putRecord] of the key, over the first one's world. *)
Definition demo_put := put_record (Cid := string) (St := Inner string) (Value := string) demo_app demo_str_parse
  (demo_wdraw "1") "did:a" (demo_pri "hello") demo_ww.

Lemma put_record_upserts_witness :
  is_ok (fst demo_put) = true /\
  exists cid, repo_is (demo_keys demo_acct) demo_acct (<["app.x/1" := cid]> ∅) (snd demo_put) /\
    advanced demo_acct 1 demo_ww (snd demo_put).
Proof.
  assert (is_ok (fst demo_put) = true) as He by (vm_compute; reflexivity).
  split; [exact He|]. destruct demo_put as [r w'] eqn:E.
  pose proof (put_record_upserts demo_app demo_str_parse (demo_keys demo_acct) demo_acct (demo_wdraw "1")
              (demo_pri "hello") demo_ww r w' ∅ demo_repo_is (demo_writer_key demo_ww eq_refl) E) as Hp.
  destruct r as [out|e]; [|discriminate He]. destruct Hp as (cid & Hr & Ha & _).
  exists cid. split; [exact Hr|exact Ha].
Defined.

Definition demo_dri : DeleteRecordInput :=
  {| dri_repo := "did:a"; dri_collection := "app.x"; dri_rkey := "1" |}.

Definition demo_deleted := delete_record (Cid := string) (St := Inner string) demo_app demo_str_parse
  (demo_wdraw "2") "did:a" demo_dri (snd demo_put).

Lemma delete_record_spec_witness :
  match fst demo_deleted with Ok (Some _) => True | _ => False end /\
  exists m, repo_is (demo_keys demo_acct) demo_acct (delete "app.x/1" m) (snd demo_deleted) /\
    advanced demo_acct 1 (snd demo_put) (snd demo_deleted).
Proof.
  assert (match fst demo_deleted with Ok (Some _) => True | _ => False end) as He by (vm_compute; exact I).
  split; [exact He|].
  assert (is_ok (fst demo_put) = true) as Hok by (vm_compute; reflexivity).
  assert (snd (snd demo_put) !! "did:a#signing" = Some "did:a") as Hc by (vm_compute; reflexivity).
  unfold demo_deleted in *. destruct demo_put as [r w'] eqn:E.
  pose proof (put_record_upserts demo_app demo_str_parse (demo_keys demo_acct) demo_acct (demo_wdraw "1")
              (demo_pri "hello") demo_ww r w' ∅ demo_repo_is (demo_writer_key demo_ww eq_refl) E) as Hp.
  destruct r as [out|e]; [|discriminate Hok]. destruct Hp as (cid & Hr & _). cbn [snd] in *.
  destruct (delete_record _ _ _ _ _ w') as [r2 w2] eqn:E2.
  pose proof (delete_record_spec demo_app demo_str_parse (demo_keys demo_acct) demo_acct (demo_wdraw "2")
              demo_dri w' r2 w2 _ Hr (demo_writer_key w' Hc) E2) as [_ Hd].
  cbn [fst snd] in *. destruct r2 as [[c|]|e]; [|destruct He..]. destruct Hd as (_ & Hr2 & Ha).
  exists (<["app.x/1" := cid]> ∅). split; [exact Hr2|exact Ha].
Defined.

Lemma list_records_agree_witness :
  let s := inner (snd demo_put) in
  exists p, fst (RepoRead.list_records (Value := string) "did:a" "app.x" 50 None s) = Ok p /\
    length (rp_records p) = 1%nat /\
    fst (RepoXrpc.list_records (Value := string) "did:a" "app.x" None None s) =
      Ok (MkListRecordsOutput (map (output_of "did:a") (rp_records p)) (rp_cursor p)).
Proof.
  intros s.
  assert (exists root, fst (load_repo_root "did:a" s) = Ok (Some root)) as [root Hroot]
    by (vm_compute; eexists; reflexivity).
  assert (exists p, fst (RepoRead.list_records (Value := string) "did:a" "app.x" 50 None s) = Ok p /\
            length (rp_records p) = 1%nat) as (p & Hp & Hl) by (vm_compute; eexists; split; reflexivity).
  exists p. split; [exact Hp|split; [exact Hl|]].
  pose proof (fun Hr => list_records_agree (Cid := string) (St := Inner string) (Value := string)
                "did:a" "app.x" None None s root Hr) as Ha.
  specialize (Ha Hroot). destruct Ha as [_ Ha].
  change (records_limit None) with 50%nat in Ha. rewrite Hp in Ha. exact Ha.
Defined.
