(* ===== verification/Tail.v ===== *)
(** * Following the firehose: decoding and verifying a commit

    [src/rust-core/src/firehose/tail.rs]: what a consumer of the stream does
    with a frame — decode it, find the commit's block in the CAR it carries, and
    check the commit's signature. *)

From Stdlib Require Import ZArith Lia Ascii.
From S2P Require Import Prelude RustStr Externals Demo StoreTypes MemoryStore MemoryProps Repo RepoWriter RepoDemo RepoProps.
From S2P Require Import Identity AccountProps.

(** ** What is read with: [serde_ipld_dagcbor], [iroh_car], [atrium_crypto] *)

(** [from_reader_once] reads one object and leaves the rest of the stream; a
    [BTreeMap] is its ascending list of pairs; a CAR reader is its roots and
    what successive [next_block] calls yield. *)
Class TailLib (Cid : Type) `{RepoSerde Cid} := {
  read_ipld : bytes -> result string (Ipld * bytes);
  read_body : bytes -> result string (CommitBody Cid * bytes);
  ipld_as_map : Ipld -> option (list (string * Ipld));
  ipld_as_integer : Ipld -> option Z;
  ipld_as_string : Ipld -> option string;
  car_open : bytes -> result string (list Cid * list (result string (Cid * bytes)));
  verify_signature : string -> bytes -> bytes -> result string unit;
}.

Definition map_get {A} (k : string) (l : list (string * A)) : option A :=
  snd <$> List.find (fun p => String.eqb (fst p) k) l.

(** Their documented behaviour on what the program writes. *)
Class TailLaws (Cid : Type) `{CidLib Cid} `{RepoSerde Cid} `{!TailLib Cid} `{KeypairIO} `{CarLib Cid} := {
  read_message_header t rest : exists m opv tv,
    read_ipld (expect_vec (MkMessageHeader 1 t) +:+ rest) = Ok (m, rest) /\
    ipld_as_map m = Some [("op", opv); ("t", tv)] /\ ipld_as_integer opv = Some 1 /\ ipld_as_string tv = Some t;
  read_error_header rest : exists m opv,
    read_ipld (expect_vec (MkErrorHeader (-1)) +:+ rest) = Ok (m, rest) /\
    ipld_as_map m = Some [("op", opv)] /\ ipld_as_integer opv = Some (-1);
  read_commit_body (b : CommitBody Cid) rest : read_body (expect_vec b +:+ rest) = Ok (b, rest);
  car_open_encode (root : Cid) l car : car_encode root l = Ok car -> car_open car = Ok ([root], map Ok l);
  verify_signature_key k m s : verify_signature (kp_did k) m s = Ok tt <-> kp_verify k m s = true;
}.

(** ** The module *)

Inductive TailError :=
| NotCommit
| TailDecode (message : string)
| TailCar (message : string)
| TailCommitDecode (message : string)
| TailSig (message : string).

Section Tail.
Context {Cid : Type} `{CidLib Cid} `{EqDecision Cid} `{RepoSerde Cid} `{!TailLib Cid}.

Definition decode_commit_frame (frame_bytes : bytes) : result TailError (CommitBody Cid) :=
  let? x := map_err (fun e => TailDecode ("header: " +:+ e)) (read_ipld frame_bytes) in
  let? m := ok_or (ipld_as_map (fst x)) (TailDecode "header not a map") in
  let? n := ok_or (map_get "op" m ≫= ipld_as_integer) NotCommit in
  let t := map_get "t" m ≫= ipld_as_string in
  ensure (n =? 1) && bool_decide (t = Some "#commit") orelse NotCommit in
  let? b := map_err (fun e => TailDecode ("body: " +:+ e)) (read_body (snd x)) in
  Ok (fst b).

(** The [while let] loop over the blocks. *)
Fixpoint find_block (expected : Cid) (blocks : list (result string (Cid * bytes))) : result TailError bytes :=
  match blocks with
  | [] => Err (TailCar "commit block not found in CAR")
  | Err e :: _ => Err (TailCar ("next_block: " +:+ e))
  | Ok (cid, b) :: blocks => if bool_decide (cid = expected) then Ok b else find_block expected blocks
  end.

Definition extract_commit_block (car_bytes : bytes) (expected : Cid) : result TailError bytes :=
  let? x := map_err (fun e => TailCar ("CarReader::new: " +:+ e)) (car_open car_bytes) in
  ensure bool_decide (head (fst x) = Some expected) orelse TailCar ("CAR root != commit CID " +:+ cid_to_string expected) in
  find_block expected (snd x).

Definition reconstruct_unsigned_commit_bytes (signed : SignedCommit Cid) : bytes := expect_vec (unsigned_of signed).

Definition verify_commit_sig (body : CommitBody Cid) (signer_did_key : string) : result TailError unit :=
  let? block := extract_commit_block (cb_blocks body) (cb_commit body) in
  let? signed := map_err TailCommitDecode (from_slice block) in
  map_err TailSig (verify_signature signer_did_key (reconstruct_unsigned_commit_bytes signed) (sc_sig signed)).

(** ** Lemmas *)

Lemma find_block_Ok expected blocks b :
  find_block expected blocks = Ok b <->
  exists pre post, blocks = map Ok pre ++ Ok (expected, b) :: post /\ Forall (fun cb => fst cb <> expected) pre.
Proof.
  split.
  - induction blocks as [|[[c b']|e] blocks IH]; cbn [find_block]; [done| |done].
    case_bool_decide as Hc; [intros [= ->]; subst c; by exists [], blocks|].
    intros E. destruct (IH E) as (pre & post & -> & Hpre). exists ((c, b') :: pre), post. split; [done|by constructor].
  - intros (pre & post & -> & Hpre). induction Hpre as [|[c b'] pre Hc _ IH]; cbn.
    + by rewrite bool_decide_true.
    + by rewrite bool_decide_false.
Qed.

End Tail.

(** ** Properties *)

Section TailProps.
Context `{Digests} {Cid St : Type} `{CidLib Cid} `{Countable Cid} `{StorageBackend Cid St}.
Context `{RepoSerde Cid} `{!Atrium Cid} `{!TailLib Cid} `{KeypairIO} `{CarLib Cid}.
Context `{!RepoStoreOk Cid St} `{!CidLaws Cid} `{!RepoSerdeLaws Cid} `{!KeypairLaws}.
Context `{!AtriumLaws Cid} `{!TailLaws Cid}.

Lemma decode_message_frame t (b : CommitBody Cid) :
  decode_commit_frame (encode_message_frame t b) = if String.eqb t "#commit" then Ok b else Err NotCommit.
Proof.
  unfold decode_commit_frame, encode_message_frame.
  destruct (read_message_header t (expect_vec b)) as (mv & opv & tv & -> & Hm & Ho & Ht). cbn [map_err fst snd].
  rewrite Hm. cbn [ok_or map_get List.find fst snd String.eqb fmap option_fmap option_map mbind option_bind].
  cbn. rewrite Ho, Ht. cbn. destruct (String.eqb_spec t "#commit") as [->|Hne].
  - rewrite bool_decide_true by done. rewrite <- (str_app_nil_r (expect_vec b)), read_commit_body. done.
  - by rewrite bool_decide_false by congruence.
Qed.

(** Error frames are skipped, not failed on. *)
Lemma decode_error_frame error message :
  decode_commit_frame (Cid := Cid) (encode_error_frame error message) = Err NotCommit.
Proof.
  unfold decode_commit_frame, encode_error_frame.
  destruct (read_error_header (expect_vec (MkErrorBody error message))) as (mv & opv & -> & Hm & Ho).
  cbn [map_err fst snd]. rewrite Hm. cbn. by rewrite Ho.
Qed.

Lemma extract_encoded (root : Cid) l car blk :
  car_encode root l = Ok car -> NoDup l.*1 -> (root, blk) ∈ l -> extract_commit_block car root = Ok blk.
Proof.
  intros Hcar Hnd Hin. unfold extract_commit_block. rewrite (car_open_encode _ _ _ Hcar). cbn [map_err fst snd head].
  rewrite bool_decide_true by done. apply find_block_Ok. apply list_elem_of_split in Hin as (pre & post & ->).
  exists pre, (map Ok post). split; [by rewrite map_app|].
  rewrite fmap_app in Hnd. cbn in Hnd. apply NoDup_app in Hnd as (_ & Hnd & _).
  apply Forall_forall. intros [c b] Hin Hc. cbn in Hc. subst c.
  apply (Hnd root); [by apply list_elem_of_fmap_2' with (x := (root, b))|left].
Qed.

Lemma committed_verifies (self : Writer) st w w' m m' ops publish body l :
  committed (St := St) self st w w' m m' ops publish body l ->
  verify_commit_sig body (kp_did (signing_key self)) = Ok tt.
Proof.
  intros (_ & _ & (prev & rev0 & ev & _ & (blk & data & sig & pre & Hb & Hv & Hpre & Hsig & _) & _) & _ & _ & _ & _ & Hcar & Hst & Hnd & Hin & _).
  unfold verify_commit_sig. apply list_elem_of_fmap in Hin as ([c b] & Hc & Hin). cbn in Hc. subst c.
  assert (b = blk) as -> by (pose proof (proj1 (Forall_forall _ _) Hst _ Hin) as Hb'; cbn in Hb'; congruence).
  rewrite (extract_encoded _ _ _ _ Hcar Hnd Hin). apply from_slice_to_vec in Hv. rewrite Hv. cbn [map_err].
  unfold reconstruct_unsigned_commit_bytes, expect_vec. change (unsigned_of (signed_of (MkUnsigned (did self) 3 data (rev_now st) (Some prev)) sig))
    with (MkUnsigned (did self) 3 data (rev_now st) (Some prev)). rewrite Hpre. apply verify_signature_key in Hsig. cbn. by rewrite Hsig.
Qed.

(** C12: what the server broadcasts, a follower accepts.  The frame of a commit the
    writer made decodes to the very body it made, and its signature verifies
    under the did:key of the key the writer signs with: the block of the commit
    is in the CAR of the frame, and is that signed commit. *)
Theorem broadcast_commit_verifies (self : Writer) st o (w w' : World (St := St)) out body
    (m : gmap string Cid)
    (Ha : addressed (wblocks w))
    (Hcur : current (wblocks w) (signing_key self) (did self) (rv_roots (wview w) !! did self) m)
    (Hok : commit_op self st o Broadcast w = (Ok (out, body), w')) :
  exists frame, snd w' = snd w ++ [MkFirehoseEvent (cb_seq body) frame] /\
    decode_commit_frame frame = Ok body /\ verify_commit_sig body (kp_did (signing_key self)) = Ok tt.
Proof.
  destruct (commit_op_Ok _ _ _ _ _ _ _ _ _ Ha Hcur Hok) as (l & Hc & _).
  exists (encode_message_frame "#commit" body). rewrite decode_message_frame. split_and!; [|done|by eapply committed_verifies].
  by destruct Hc as (_ & _ & _ & _ & _ & _ & _ & _ & _ & _ & _ & Hp).
Qed.

(** a commit a follower accepts carries, in a CAR rooted at the commit's
    identifier, a first block under that identifier that is a signed commit, its
    signature valid under the key over its own fields; and nothing else is
    required. *)
Theorem verify_commit_sig_exact (body : CommitBody Cid) key :
  verify_commit_sig body key = Ok tt <->
  exists roots pre post blk (c : SignedCommit Cid),
    car_open (cb_blocks body) = Ok (cb_commit body :: roots, map Ok pre ++ Ok (cb_commit body, blk) :: post) /\
    Forall (fun cb => fst cb <> cb_commit body) pre /\ from_slice blk = Ok c /\
    verify_signature key (reconstruct_unsigned_commit_bytes c) (sc_sig c) = Ok tt.
Proof.
  unfold verify_commit_sig, extract_commit_block. split.
  - destruct (car_open (cb_blocks body)) as [[roots blocks]|] eqn:E; [|done]. cbn [map_err fst snd].
    case_bool_decide as Hroot; [|done]. destruct (find_block _ blocks) as [blk|] eqn:Ef; [|done].
    apply find_block_Ok in Ef as (pre & post & -> & Hpre). destruct (from_slice blk) as [c|] eqn:Es; [|done]. cbn [map_err].
    intros Hv. apply map_err_Ok in Hv. destruct roots as [|r roots]; [done|]. cbn in Hroot. injection Hroot as ->.
    by exists roots, pre, post, blk, c.
  - intros (roots & pre & post & blk & c & -> & Hpre & Hs & Hv). cbn [map_err fst snd head]. rewrite bool_decide_true by done.
    rewrite (proj2 (find_block_Ok _ _ blk)) by (by exists pre, post). rewrite Hs. cbn [map_err]. by rewrite Hv.
Qed.

(** the identifier of a verified commit is a label.  The signed block of a
    frame that verifies makes any other frame verify: one that claims another
    commit identifier, another repository, revision, operations and number.  The
    block is not hashed and its fields are not compared with the frame's, where
    the comment has any forged body fail. *)
Theorem verified_frame_relabelled (b b' : CommitBody Cid) key blk
    (Hv : verify_commit_sig b key = Ok tt) (Hx : extract_commit_block (cb_blocks b) (cb_commit b) = Ok blk)
    (Hcar : car_encode (cb_commit b') [(cb_commit b', blk)] = Ok (cb_blocks b')) :
  verify_commit_sig b' key = Ok tt.
Proof.
  unfold verify_commit_sig in *. rewrite Hx in Hv.
  rewrite (extract_encoded _ _ _ blk Hcar); [done|apply NoDup_singleton|left].
Qed.

End TailProps.

(** ** A concrete reader *)

Fixpoint take_fields (n : nat) (s : string) : option (list string * string) :=
  match n with
  | O => Some ([], s)
  | S n => '(x, r) ← split_once "," s; v ← demo_decode x; '(l, r') ← take_fields n r; Some (v :: l, r')
  end.

Lemma take_fields_encode l rest : take_fields (length l) (fields_encode l +:+ rest) = Some (l, rest).
Proof.
  induction l as [|v l IH]; [done|]. cbn [length take_fields fields_encode].
  assert (split_once "," ((demo_encode v +:+ String "," (fields_encode l)) +:+ rest) = Some (demo_encode v, fields_encode l +:+ rest)) as ->.
  { apply split_once_Some. split; [by rewrite str_app_assoc|by apply demo_encode_no_char]. }
  cbn [mbind option_bind]. pose proof (b64url_decode_encode v) as Hd. simpl in Hd. rewrite Hd. cbn [mbind option_bind]. by rewrite IH.
Qed.

Fixpoint demo_blocks (l : list string) : list (result string (string * bytes)) :=
  match l with
  | c :: b :: l => Ok (c, b) :: demo_blocks l
  | _ => []
  end.

#[export] Instance demo_tail : TailLib string := {
  read_ipld s := ok_or ('(l1, r1) ← take_fields 1 s;
    if String.eqb (default "" (head l1)) (Z_text (-1)) then Some (fields_encode l1, r1)
    else '(l2, r2) ← take_fields 2 s; Some (fields_encode l2, r2)) "eof" : result string (Ipld * bytes);
  read_body s := ok_or ('(l, r) ← take_fields 12 s; b ← fields_body l; Some (b, r)) "eof";
  ipld_as_map (v : Ipld) := match fields_decode v with
    | Some [o] => Some [("op", o : Ipld)] | Some [o; t] => Some [("op", o : Ipld); ("t", t : Ipld)] | _ => None end;
  ipld_as_integer (v : Ipld) := Some (text_Z v);
  ipld_as_string (v : Ipld) := Some (v : string);
  car_open s := match fields_decode s with Some (root :: l) => Ok ([root], demo_blocks l) | _ => Err "bad header" end;
  verify_signature key m s := match strip_prefix "did:key:" key with
    | Some k => if kp_verify (k : Keypair) m s then Ok tt else Err "bad signature" | None => Err "bad key" end;
}.

Lemma demo_car_write_all w l : car_write_all (w : CarWriter (CarLib := demo_car)) l = Ok (w ++ flat_map (fun cb => [fst cb; snd cb]) l).
Proof.
  revert w. induction l as [|[c b] l IH]; intros w; cbn [car_write_all flat_map]; [by rewrite app_nil_r|].
  cbn. rewrite IH, <- app_assoc. done.
Qed.

Lemma fields_encode_cons a l : fields_encode (a :: l) = fields_encode [a] +:+ fields_encode l.
Proof. cbn. by rewrite str_app_assoc. Qed.

Lemma demo_read_message a t rest : a <> Z_text (-1) ->
  read_ipld (Cid := string) (fields_encode [a; t] +:+ rest) = Ok ((fields_encode [a; t] : Ipld), rest).
Proof.
  intros Ha. unfold read_ipld, demo_tail.
  assert (take_fields 2 (fields_encode [a; t] +:+ rest) = Some ([a; t], rest)) as -> by exact (take_fields_encode [a; t] rest).
  assert (take_fields 1 (fields_encode [a; t] +:+ rest) = Some ([a], fields_encode [t] +:+ rest)) as ->.
  { rewrite fields_encode_cons, str_app_assoc. exact (take_fields_encode [a] _). }
  cbn [mbind option_bind]. change (default "" (head [a])) with a. apply String.eqb_neq in Ha. by rewrite Ha.
Qed.

Lemma demo_blocks_flat l : demo_blocks (flat_map (fun cb => [fst cb; snd cb]) l) = map Ok l.
Proof. induction l as [|[c b] l IH]; [done|]. cbn. by rewrite IH. Qed.

#[export] Instance demo_tail_laws : TailLaws string.
Proof.
  split.
  - intros t rest. exists (fields_encode [Z_text 1; t]), (Z_text 1), t.
    split; [by apply demo_read_message|]. split; [|by split].
    unfold ipld_as_map, demo_tail. by rewrite fields_decode_encode.
  - intros rest. exists (fields_encode [Z_text (-1)]), (Z_text (-1)). split; [|split; [|done]].
    + unfold read_ipld, demo_tail. change (expect_vec (MkErrorHeader (-1))) with (fields_encode [Z_text (-1)]).
      assert (take_fields 1 (fields_encode [Z_text (-1)] +:+ rest) = Some ([Z_text (-1)], rest)) as -> by exact (take_fields_encode [Z_text (-1)] rest).
      reflexivity.
    + unfold ipld_as_map, demo_tail. by rewrite fields_decode_encode.
  - intros b rest. unfold read_body, demo_tail. change (expect_vec b) with (fields_encode (body_fields b)).
    assert (take_fields 12 (fields_encode (body_fields b) +:+ rest) = Some (body_fields b, rest)) as -> by exact (take_fields_encode (body_fields b) rest).
    cbn [mbind option_bind]. by rewrite fields_body_fields.
  - intros root l car E. unfold car_encode in E. rewrite demo_car_write_all in E.
    assert (car = fields_encode (root :: flat_map (fun cb => [fst cb; snd cb]) l)) as -> by (injection E as E; exact (eq_sym E)).
    unfold car_open, demo_tail.
    rewrite fields_decode_encode. by rewrite demo_blocks_flat.
  - intros k mb s. unfold verify_signature, demo_tail. change (kp_did k) with ("did:key:" +:+ k).
    rewrite (proj2 (strip_prefix_Some "did:key:" ("did:key:" +:+ k) k) eq_refl). by destruct (kp_verify _ _ _).
Defined.

(** ** Witnesses *)

Lemma broadcast_commit_verifies_witness :
  exists frame body, snd (snd demo_commit) = [MkFirehoseEvent 1 frame] /\
    decode_commit_frame frame = Ok body /\ verify_commit_sig body "did:key:did:a" = Ok tt.
Proof.
  destruct demo_commit as [[[out body]|e] w'] eqn:E;
    [|exfalso; apply (f_equal (fun x => is_ok (fst x))) in E; vm_compute in E; discriminate E].
  destruct (broadcast_commit_verifies demo_writer (demo_stamps "1") demo_post demo_world w' out body ∅
              demo_world_addressed eq_refl E) as (frame & Hp & Hd & Hs).
  exists frame, body. split; [|by split]. cbn [snd]. rewrite Hp.
  assert (cb_seq body = 1) as ->; [|reflexivity].
  apply (f_equal (fun x => match fst x with Ok (_, b) => cb_seq b | Err _ => 0 end)) in E.
  cbn [fst] in E. rewrite <- E. vm_compute. reflexivity.
Defined.

Definition demo_frame : CommitBody string :=
  match fst demo_commit with Ok (_, b) => b | Err _ => MkCommitBody 0 false false "" "" "" None "" [] [] "" None end.
Definition demo_forged (blk : bytes) : CommitBody string :=
  MkCommitBody 99 false false "did:other" "forged" "r9" None (fields_encode ["forged"; "forged"; blk])
    [MkRepoOp "delete" "app.x/9" None] [] "t" None.

Lemma verified_frame_relabelled_witness :
  exists blk, verify_commit_sig (demo_forged blk) "did:key:did:a" = Ok tt.
Proof.
  destruct (extract_commit_block (cb_blocks demo_frame) (cb_commit demo_frame)) as [blk|e] eqn:E;
    [|exfalso; vm_compute in E; discriminate E].
  exists blk. refine (verified_frame_relabelled demo_frame (demo_forged blk) "did:key:did:a" blk _ E _);
    [vm_compute; reflexivity|reflexivity].
Defined.
