(* ===== verification/Utf8.v ===== *)
(** * UTF-8 and percent-decoding

    [String::from_utf8_lossy] of the standard library, and the query-string
    helpers of [src/rust-core/src/server/mod.rs] built on it.  A string of the
    program is valid UTF-8; bytes from a request need not be. *)

From Stdlib Require Import ZArith Lia Ascii.
From S2P Require Import Prelude RustStr OAuthCore OAuthServer OAuthProps.

(** ** Decoding bytes that may not be UTF-8 *)

Definition byte_at (i : nat) (s : string) : Z :=
  match String.get i s with Some c => byte_val c | None => 0 end.

Definition is_cont (b : Z) : bool := Z.land b 192 =? 128.
Definition within (lo hi b : Z) : bool := (lo <=? b) && (b <=? hi).

(** The second byte of a three- and of a four-byte sequence. *)
Definition second_of_3 (b0 b1 : Z) : bool :=
  ((b0 =? 224) && within 160 191 b1) || (within 225 236 b0 && within 128 191 b1) ||
  ((b0 =? 237) && within 128 159 b1) || (within 238 239 b0 && within 128 191 b1).
Definition second_of_4 (b0 b1 : Z) : bool :=
  ((b0 =? 240) && within 144 191 b1) || (within 241 243 b0 && within 128 191 b1) ||
  ((b0 =? 244) && within 128 143 b1).

(** The next step of [Utf8Chunks]: how many bytes, and whether they are a
    character or the longest prefix of one that goes wrong. *)
Definition utf8_next (s : string) : nat * bool :=
  let b0 := byte_at 0 s in
  let b1 := byte_at 1 s in
  if b0 <? 128 then (1%nat, true)
  else if within 194 223 b0 then if is_cont b1 then (2%nat, true) else (1%nat, false)
  else if within 224 239 b0 then
    if second_of_3 b0 b1 then
      if is_cont (byte_at 2 s) then (3%nat, true) else (2%nat, false)
    else (1%nat, false)
  else if within 240 244 b0 then
    if second_of_4 b0 b1 then
      if is_cont (byte_at 2 s) then
        if is_cont (byte_at 3 s) then (4%nat, true) else (3%nat, false)
      else (2%nat, false)
    else (1%nat, false)
  else (1%nat, false).

Fixpoint str_take (n : nat) (s : string) : string :=
  match n, s with
  | S n, String c s => String c (str_take n s)
  | _, _ => EmptyString
  end.
Fixpoint str_drop (n : nat) (s : string) : string :=
  match n, s with
  | S n, String _ s => str_drop n s
  | _, _ => s
  end.

(** U+FFFD. *)
Definition replacement : string := utf8 [239; 191; 189]%N.

(** Each step takes a byte at least: [fuel] is the length. *)
Fixpoint lossy_go (fuel : nat) (s : string) : string :=
  match fuel, s with
  | S fuel, String _ _ =>
      let '(n, valid) := utf8_next s in
      (if valid then str_take n s else replacement) +:+ lossy_go fuel (str_drop n s)
  | _, _ => EmptyString
  end.
Definition from_utf8_lossy (s : bytes) : string := lossy_go (String.length s) s.

Fixpoint valid_go (fuel : nat) (s : string) : bool :=
  match fuel, s with
  | S fuel, String _ _ => let '(n, valid) := utf8_next s in valid && valid_go fuel (str_drop n s)
  | _, _ => true
  end.
Definition valid_utf8 (s : bytes) : bool := valid_go (String.length s) s.

Example lossy_truncated :
  from_utf8_lossy (utf8 [97; 226; 130; 98; 255; 195; 169]%N) =
  "a" +:+ replacement +:+ "b" +:+ replacement +:+ utf8 [195; 169]%N.
Proof. reflexivity. Qed.

(** ** Query strings *)

(** [char::to_digit(16)]. *)
Definition to_digit16 (c : ascii) : option Z :=
  if is_ascii_digit c then Some (byte_val c - 48)
  else if in_range 97 102 c then Some (byte_val c - 87)
  else if in_range 65 70 c then Some (byte_val c - 55)
  else None.

(** The loop of [percent_decode], into bytes. *)
Fixpoint percent_bytes (s : string) : bytes :=
  match s with
  | EmptyString => EmptyString
  | String c r =>
      if Ascii.eqb c "+" then String " " (percent_bytes r)
      else if Ascii.eqb c "%" then
        match r with
        | String a (String b r2) =>
            match to_digit16 a, to_digit16 b with
            | Some h, Some l => String (ascii_of_N (Z.to_N (h * 16 + l))) (percent_bytes r2)
            | _, _ => String c (percent_bytes r)
            end
        | _ => String c (percent_bytes r)
        end
      else String c (percent_bytes r)
  end.

Definition percent_decode (s : string) : string := from_utf8_lossy (percent_bytes s).

(** The [find_map] of [query_param] over the pairs. *)
Fixpoint find_param (key : string) (pairs : list string) : option string :=
  match pairs with
  | [] => None
  | kv :: pairs =>
      match split_once "=" kv with
      | Some (k, v) => if String.eqb k key then Some (percent_decode v) else find_param key pairs
      | None => find_param key pairs
      end
  end.

Definition query_param (query key : string) : option string :=
  find_param key (split_char "&" query).

(** ** Lemmas *)

Lemma str_take_drop n s : str_take n s +:+ str_drop n s = s.
Proof.
  revert s. induction n as [|n IH]; intros [|c s]; try done. simpl. rewrite str_app_cons.
  by rewrite IH.
Qed.

Lemma length_str_drop n s : (String.length (str_drop n s) <= String.length s)%nat.
Proof.
  revert s. induction n as [|n IH]; intros [|c s]; simpl; try lia. pose proof (IH s). lia.
Qed.

Lemma utf8_next_pos s : (1 <= fst (utf8_next s))%nat.
Proof. unfold utf8_next. repeat case_match; simpl; lia. Qed.

Lemma lossy_go_valid m : forall s,
  (String.length s <= m)%nat -> valid_go m s = true -> lossy_go m s = s.
Proof.
  induction m as [|m IH]; intros [|c s] Hl; try done; [simpl in Hl; lia|].
  cbn [valid_go lossy_go]. pose proof (utf8_next_pos (String c s)) as Hk.
  destruct (utf8_next (String c s)) as [k b]. destruct b; [|done]. cbn [andb fst] in *. intros Hv.
  rewrite IH; [apply str_take_drop| |done].
  destruct k as [|k]; [lia|]. simpl in *. pose proof (length_str_drop k s). lia.
Qed.

Lemma lossy_valid s : valid_utf8 s = true -> from_utf8_lossy s = s.
Proof. intros Hv. by apply lossy_go_valid. Qed.

Lemma percent_bytes_encode s : percent_bytes (urlencode s) = s.
Proof.
  induction s as [|c s IH]; [done|]. cbn [urlencode].
  assert (forall t, percent_bytes (urlencode_byte c +:+ t) = String c (percent_bytes t)) as ->.
  { intros t. by destruct c as [[] [] [] [] [] [] [] []]. }
  by rewrite IH.
Qed.

Lemma percent_decode_encode s : valid_utf8 s = true -> percent_decode (urlencode s) = s.
Proof. intros Hv. unfold percent_decode. rewrite percent_bytes_encode. by apply lossy_valid. Qed.

(** A key that needs no encoding. *)
Definition plain_key (k : string) : bool := all_bytes is_unreserved k.

Lemma urlencode_plain k : plain_key k = true -> urlencode k = k.
Proof.
  induction k as [|c k IH]; [done|]. unfold plain_key in *. simpl. rewrite andb_true_iff.
  intros [Hc Hk]. unfold urlencode_byte. by rewrite Hc, str_app_cons, str_app_nil_l, IH.
Qed.

(** A query string built from parameters, each value percent-encoded. *)
Definition encode_query (params : list (string * string)) : string :=
  join "&" (map (fun p => urlencode (fst p) +:+ String "=" (urlencode (snd p))) params).

Lemma urlencode_pair_char x k v :
  is_query_char x = false -> x <> "="%char ->
  contains_char x (urlencode k +:+ String "=" (urlencode v)) = false.
Proof.
  intros Hx Hn. rewrite contains_char_app. simpl. rewrite !urlencode_no_char by done. simpl.
  destruct (Ascii.eqb_spec x "="); [congruence|done].
Qed.

Lemma split_encode_query params : params <> [] ->
  split_char "&" (encode_query params) =
  map (fun p => urlencode (fst p) +:+ String "=" (urlencode (snd p))) params.
Proof.
  unfold encode_query. induction params as [|[k v] params IH]; [done|]. intros _.
  destruct params as [|p params]; cbn [map join fst snd].
  - by rewrite split_char_word by by apply urlencode_pair_char.
  - rewrite (str_app_cons "&"), str_app_nil_l, split_char_app by by apply urlencode_pair_char.
    f_equal. by apply IH.
Qed.

(** The first value of a key of a parameter list. *)
Definition first_param (key : string) (params : list (string * string)) : option string :=
  snd <$> List.find (fun p => String.eqb (fst p) key) params.

(** Query parameters survive the trip.  Of a query string built from
    parameters with plain names and percent-encoded values, the server's
    [query_param] returns exactly the first value of the name asked for,
    whatever characters the values hold. *)
Theorem query_param_encoded params key
    (Hk : forallb (fun p => plain_key (fst p) && valid_utf8 (snd p)) params = true) :
  query_param (encode_query params) key = first_param key params.
Proof.
  unfold query_param. destruct params as [|p params]; [done|].
  rewrite split_encode_query by done. revert Hk. generalize (p :: params) as l.
  induction l as [|[k v] l IH]; [done|]. cbn [map forallb fst snd]. rewrite !andb_true_iff.
  intros [[Hp Hv] Hl]. cbn [find_param].
  rewrite (proj2 (split_once_Some "=" _ (urlencode k) (urlencode v)))
    by (split; [done|by apply urlencode_no_char]).
  rewrite (urlencode_plain k) by done. unfold first_param. cbn [List.find fst].
  destruct (String.eqb k key); [cbn; by rewrite percent_decode_encode|by apply IH].
Qed.

Lemma query_param_encoded_witness :
  let params := [("repo", "did:plc:a&b=c"); ("cursor", "app.x/é +%"); ("repo", "other")] in
  query_param (encode_query params) "cursor" = Some "app.x/é +%" /\
  query_param (encode_query params) "repo" = Some "did:plc:a&b=c" /\
  query_param (encode_query params) "limit" = None.
Proof.
  intros params. split_and!; exact (query_param_encoded params _ eq_refl).
Defined.
