(* ===== verification/EmbServer.v ===== *)
(** * The embedded server: requests, sessions, preferences

    [src/rust-core/src/server/mod.rs]: the on-device server's responses, body
    and query reading, token checks, and the session, preference and identity
    handlers.  Routing is in [EmbRoute]; the repository surface in [EmbRepo]. *)

From Stdlib Require Import ZArith Lia Ascii.
From S2P Require Import Prelude RustStr Externals Demo StoreTypes MemoryStore MemoryProps OAuthCore Jose Dpop Client.
From S2P Require Import OAuthServer OAuthProps Session Repo KeyCrypto Identity Accounts Utf8.

(** ** More of [serde_json::Value]

    [json_exact] says of a value that no fractional number occurs in it: the
    text of such a value parses back to it. *)
Class JsonMore `{Json} := {
  json_null : Value;
  json_is_null : Value -> bool;
  json_as_array : Value -> option (list Value);
  json_array : list Value -> Value;
  json_num : Z -> Value;
  json_object : list (string * Value) -> Value;
  json_of_str : string -> Value;
  json_to_string : Value -> string;
  json_exact : Value -> bool;
}.

Class JsonMoreLaws `{JsonMore} := {
  json_parse_print v : json_exact v = true -> json_from_slice (json_to_string v) = Some v;
  json_as_array_array l : json_as_array (json_array l) = Some l;
  json_as_str_str s : json_as_str (json_of_str s) = Some s;
  json_object_get l k v : NoDup l.*1 -> (k, v) ∈ l -> json_get k (json_object l) = Some v;
  json_object_get_None l k : k ∉ l.*1 -> json_get k (json_object l) = None;
  json_exact_str s : json_exact (json_of_str s) = true;
  json_exact_num n : json_exact (json_num n) = true;
  json_exact_object l :
    forallb (fun p => json_exact (snd p)) l = true -> json_exact (json_object l) = true;
}.

(** [v["k"]]: null when [v] has no such member. *)
Definition json_index `{JsonMore} (key : string) (v : Value) : Value :=
  default json_null (json_get key v).

(** ** Requests and responses *)

(** The values of a header by name; [header] is
    [get(name).and_then(|v| v.to_str().ok())]. *)
Definition Headers : Type := string -> HeaderValues.
Definition header (hs : Headers) (name : string) : option string := mjoin (head (hs name)).

(** A body that cannot be read to its end is [None]. *)
Record Request := {
  rq_method : string;
  rq_path : string;
  rq_query : string;
  rq_headers : Headers;
  rq_body : option bytes;
}.

(** A response other than the handler's own: an XRPC error envelope, or text. *)
Inductive Fail :=
| FXrpc (status : Z) (error message : string)
| FText (status : Z) (text : string).

Definition xrpc_error : Z -> string -> string -> Fail := FXrpc.
Definition STORE_ERROR : Fail := xrpc_error 500 "InternalError" "store error".

Definition MAX_BODY_BYTES : Z := 64 * 1024.

(** ** Configuration *)

Record ServerConfig := {
  cf_hostname : string;
  cf_open_registration : bool;
  cf_jwt_secret : bytes;
  cf_key_passphrase : bytes;
  cf_appview_did : string;
  cf_appview_url : string;
  cf_plc_url : string;
}.

(** [serve] normalises the hostname once. *)
Definition serve_config (c : ServerConfig) : ServerConfig := {|
  cf_hostname := to_ascii_lowercase (trim (cf_hostname c));
  cf_open_registration := cf_open_registration c;
  cf_jwt_secret := cf_jwt_secret c;
  cf_key_passphrase := cf_key_passphrase c;
  cf_appview_did := cf_appview_did c;
  cf_appview_url := cf_appview_url c;
  cf_plc_url := cf_plc_url c |}.

Section Handlers.
Context `{Json} `{!JsonMore} `{Jwt} `{Argon2}.
Context {Cid St : Type} `{StorageBackend Cid St}.
Variable config : ServerConfig.

Notation E A := (SE St Fail A).

(** A store call whose error is answered with a 500. *)
Definition e_store {A} (m : SE St StorageError A) : E A := with_err (fun _ => STORE_ERROR) m.

Definition read_json_body (body : option bytes) : result Fail Value :=
  let? collected := ok_or body (xrpc_error 400 "InvalidRequest" "could not read body") in
  ensure negb (MAX_BODY_BYTES <? str_len collected)
    orelse xrpc_error 413 "InvalidRequest" "request body too large" in
  ok_or (json_from_slice collected) (xrpc_error 400 "InvalidRequest" "invalid JSON body").

Definition NOT_ENABLED : Fail :=
  xrpc_error 401 "AuthenticationRequired" "sessions are not enabled on this server".

(** [now] is the clock [decode_jwt] reads. *)
Definition authed_did (auth_header : option string) (now : Z) (want_scope : string)
    : result Fail string :=
  if String.eqb (cf_jwt_secret config) "" then Err NOT_ENABLED
  else
    let? token := ok_or (h ← auth_header; strip_prefix "Bearer " h)
      (xrpc_error 401 "AuthenticationRequired" "missing bearer token") in
    let? claims := map_err (fun e => match e with
                             | CoreExpiredToken => xrpc_error 400 "ExpiredToken" "token has expired"
                             | _ => xrpc_error 400 "InvalidToken" "invalid token"
                             end) (decode_jwt now token (cf_jwt_secret config)) in
    ensure String.eqb (au_scope claims) want_scope
      orelse xrpc_error 400 "InvalidToken" "token has the wrong scope" in
    Ok (au_sub claims).

Definition access_did (auth_header : option string) (now : Z) : result Fail string :=
  authed_did auth_header now "com.atproto.access".

(** ** Sessions *)

Definition session_response (d : SessionDraw) (did handle : string)
    : result Fail SessionResponse :=
  let secret := cf_jwt_secret config in
  match encode_access_jwt_at did secret (sd_now_access d),
        encode_refresh_jwt_at (sd_uuid d) did secret (sd_now_refresh d) with
  | Ok access, Ok refresh => Ok (MkSession access refresh handle did true)
  | _, _ => Err (xrpc_error 500 "InternalError" "could not issue tokens")
  end.

Definition BAD_CREDS : Fail :=
  xrpc_error 400 "InvalidRequest" "invalid identifier or password".

Definition create_session (d : SessionDraw) (body : Value) : E SessionResponse :=
  if String.eqb (cf_jwt_secret config) "" then throw NOT_ENABLED
  else
    match json_as_str (json_index "identifier" body), json_as_str (json_index "password" body) with
    | Some identifier, Some password =>
        (let! row := e_store (get_account_by_handle identifier) in
         let! row := lift (ok_or row BAD_CREDS) in
         match verify_password password (snd row) with
         | Ok true => lift (session_response d (fst row) identifier)
         | Ok false => throw BAD_CREDS
         | Err _ => throw (xrpc_error 500 "InternalError" "password verification failed")
         end)%se
    | _, _ => throw (xrpc_error 400 "InvalidRequest" "identifier and password are required")
    end.

Definition TAKEN_DOWN : Fail :=
  xrpc_error 400 "AccountTakedown" "account is deactivated or taken down".

Definition get_session (auth_header : option string) (now : Z) : E GetSessionResponse :=
  (let! did := lift (access_did auth_header now) in
   let! h := e_store (get_handle_by_did did) in
   let! handle := lift (ok_or h TAKEN_DOWN) in
   ret (MkGetSession handle did true))%se.

Definition refresh_session (d : SessionDraw) (auth_header : option string) (now : Z)
    : E SessionResponse :=
  (let! did := lift (authed_did auth_header now "com.atproto.refresh") in
   let! h := e_store (get_handle_by_did did) in
   let! handle := lift (ok_or h TAKEN_DOWN) in
   lift (session_response d did handle))%se.

(** ** Preferences *)

Definition get_preferences_handler (auth_header : option string) (now : Z) : E Value :=
  (let! did := lift (access_did auth_header now) in
   let! stored := e_store (get_preferences did) in
   match stored with
   | None => ret (json_array [])
   | Some json_str =>
       lift (ok_or (json_from_slice json_str)
               (xrpc_error 500 "InternalError" "stored preferences are corrupt"))
   end)%se.

Definition put_preferences_handler (auth_header : option string) (now : Z) (body : option bytes)
    : E unit :=
  (let! did := lift (access_did auth_header now) in
   let! body := lift (read_json_body body) in
   let! prefs := lift (ok_or (p ← json_get "preferences" body;
                              _ ← json_as_array p; Some p)
                         (xrpc_error 400 "InvalidRequest" "preferences must be an array")) in
   e_store (upsert_preferences did (json_to_string prefs)))%se.

(** ** Identity *)

Definition describe : DescribeServerResponse := {|
  ds_did := "did:web:" +:+ cf_hostname config;
  ds_available_user_domains := ["." +:+ cf_hostname config];
  ds_invite_code_required := negb (cf_open_registration config) |}.

Definition is_active (a : AccountSummary) : bool :=
  is_none (as_deactivated_at a) && is_none (as_takedown_ref a).

Definition sole_active_account_did : SE St StorageError (option string) :=
  (let! l := list_accounts in
   ret (match List.filter is_active l with
        | [only] => Some (as_did only)
        | _ => None
        end))%se.

Definition TEXT_STORE_ERROR : Fail := FText 500 "store error".

Definition well_known_did : E string :=
  (let! o := with_err (fun _ => TEXT_STORE_ERROR) (get_did_by_handle (cf_hostname config)) in
   match o with
   | Some did => ret did
   | None =>
       let! o := with_err (fun _ => TEXT_STORE_ERROR) sole_active_account_did in
       lift (ok_or o (FText 404 "no account for this host"))
   end)%se.

Definition resolve_handle (query : string) : E string :=
  match query_param query "handle" with
  | None => throw (xrpc_error 400 "InvalidRequest" "missing handle")
  | Some handle =>
      (let! o := e_store (get_did_by_handle handle) in
       lift (ok_or o (xrpc_error 404 "HandleNotFound" "handle not found")))%se
  end.

End Handlers.
