(* ===== verification/EmbRepo.v ===== *)
(** * The embedded server: repository endpoints

    [src/rust-core/src/server/repo.rs]: the on-device server's own handlers of
    the record, blob and export methods, over the same writer and reads as the
    production server's in [RepoXrpc].  A request's body is a parsed JSON
    value, its parameters a query string. *)

From Stdlib Require Import ZArith Lia Ascii.
From S2P Require Import Prelude RustStr Externals Demo StoreTypes MemoryStore MemoryProps OAuthCore.
From S2P Require Import Jose Dpop Client OAuthServer OAuthProps Session RepoUtil Repo RepoWriter.
From S2P Require Import RepoDemo RepoProps RepoRead KeyCrypto Identity Accounts RepoXrpc Firehose.
From S2P Require Import Utf8 EmbServer.

(** The [http] crate: which bytes a header value may hold, which numbers are a
    status. *)
Class HttpLib := {
  header_value_ok : string -> bool;
  status_from_u16 : Z -> option Z;
}.

Definition internal_error (msg : string) : Fail := xrpc_error 500 "InternalError" msg.
Definition invalid (msg : string) : Fail := xrpc_error 400 "InvalidRequest" msg.

(** [str::parse::<usize>] on a target whose [usize] has [bits] bits. *)
Definition parse_usize (bits : Z) (s : string) : option Z :=
  let ds := match s with String "+" r => r | _ => s end in
  match ds with
  | EmptyString => None
  | _ => v ← parse_digits 0 ds; if v <? 2 ^ bits then Some v else None
  end.

Section Handlers.
Context `{Digests} `{Json} `{!JsonMore} `{Jwt} `{HttpLib}.
Context {Cid St : Type} `{CidLib Cid} `{Countable Cid} `{StorageBackend Cid St}.
Context `{RepoSerde Cid} `{!Atrium Cid} `{!AtriumRead Cid} `{Keypairs} `{!KeypairIO} `{CarLib Cid}.
Context `{KeyCiphers} `{!Serde Value}.
Variable config : ServerConfig.
Variable did_parse : string -> result string unit.
Variable usize_bits : Z.

Notation R A := (SE St Fail A).
Notation M A := (SE (WriteWorld (St := St)) Fail A).

(** ** Shared steps *)

Definition e_prog {A} (msg : string) (p : BProg Cid A) : R A :=
  fun s => let '(r, (s', _)) := run_prog p (s, []) in (map_err (fun _ => internal_error msg) r, s').

Definition e_read {A} (m : R A) : M A :=
  fun '((s, pub), cache) => let '(r, s') := m s in (r, ((s', pub), cache)).
Definition e_writer {A} (m : SE (World (St := St)) RepoError A) : M A :=
  fun '(w, cache) => let '(r, w') := m w in
                     (map_err (fun _ => internal_error "write failed") r, (w', cache)).

Definition load_signing_key (did : string) : M Keypair :=
  (let key_id := did +:+ "#signing" in
   let! cached := (fun w => (Ok (snd w !! key_id), w)) in
   match cached with
   | Some b => lift (map_err (fun _ => internal_error "failed to import signing key") (kp_import b))
   | None =>
       let! key_bytes := e_read (with_err (fun _ => internal_error "failed to load signing key")
         (load_key key_id (cf_key_passphrase config))) in
       let! signing := lift (map_err (fun _ => internal_error "failed to import signing key")
                               (kp_import key_bytes)) in
       (fun w => (Ok tt, (fst w, <[key_id := key_bytes]> (snd w)))) ;;!
       ret signing
   end)%se.

Definition build_writer (did : string) : M Writer :=
  (let! signing := load_signing_key did in
   lift (map_err (fun _ => internal_error "invalid DID") (did_parse did)) ;;!
   ret (MkWriter signing did))%se.

Definition lookup_record_cid (did mst_key : string) : R (option Cid) :=
  (let! root := e_store (load_repo_root did) in
   match root with
   | None => ret None
   | Some root =>
       let! repo := e_prog "failed to open repo" (repo_open root) in
       e_prog "MST get error" (tree_get (repo_data repo) mst_key)
   end)%se.

Definition resolve_repo_did (repo : string) : R string :=
  if starts_with "did:" repo then ret repo
  else (let! o := e_store (get_did_by_handle repo) in
        lift (ok_or o (invalid ("could not resolve repo: " +:+ repo))))%se.

Definition body_repo_is (body : Value) (did : string) : result Fail unit :=
  ensure bool_decide (json_as_str (json_index "repo" body) = Some did)
    orelse invalid "repo must match the authenticated DID" in
  Ok tt.

Definition body_str (key : string) (v : Value) : option string := json_as_str (json_index key v).

Definition check_coll (collection : string) : result Fail unit :=
  map_err invalid (validate_collection collection).
Definition check_rk (rkey : string) : result Fail unit := map_err invalid (validate_rkey rkey).

Definition encode_record (v : Value) : result Fail Ipld :=
  map_err (fun _ => internal_error "record encode failed") (json_value_to_ipld to_vec from_slice v).

(** The given record, which must not be null. *)
Definition body_record (body : Value) : result Fail Value :=
  let record := json_index "record" body in
  ensure negb (json_is_null record) orelse invalid "record is required" in
  Ok record.

(** [rkey], checked, or a fresh TID. *)
Definition body_rkey (d : WriteDraw) (v : Value) : result Fail string :=
  match body_str "rkey" v with
  | Some rk => let? _u := check_rk rk in Ok rk
  | None => Ok (tid_from_micros (wd_now_us d))
  end.

(** Both of a put or a delete. *)
Definition body_key (body : Value) : result Fail (string * string) :=
  match body_str "collection" body, body_str "rkey" body with
  | Some collection, Some rkey =>
      let? _u := check_coll collection in
      let? _u := check_rk rkey in
      Ok (collection, rkey)
  | _, _ => Err (invalid "collection and rkey are required")
  end.

(** Authentication, then the body: the start of every write. *)
Definition write_request (auth_header : option string) (now : Z) (raw : option bytes)
    : M (string * Value) :=
  (let! did := lift (access_did config auth_header now) in
   let! body := lift (read_json_body raw) in
   lift (body_repo_is body did) ;;!
   ret (did, body))%se.

(** ** Writes *)

Definition create_record (d : WriteDraw) (auth_header : option string) (now : Z)
    (raw : option bytes) : M CreateRecordOutput :=
  (let! db := write_request auth_header now raw in
   let '(did, body) := db in
   let! collection := lift (ok_or (body_str "collection" body) (invalid "collection is required")) in
   lift (check_coll collection) ;;!
   let! rkey := lift (body_rkey d body) in
   let! record := lift (body_record body) in
   let! ipld := lift (encode_record record) in
   let! writer := build_writer did in
   let key := mst_key collection rkey in
   let! out := e_writer (apply_one writer (wd_stamps d) (WCreate key ipld)) in
   (* [RepoWriter::create_record]: a create always yields a record identifier *)
   let! cid := lift (ok_or (wo_record_cid out) (internal_error "write failed")) in
   ret (MkCreateRecordOutput (record_uri did key) (cid_to_string cid)))%se.

(** [put_record] up to its look-up, and from there. *)
Definition put_record_check (auth_header : option string) (now : Z) (raw : option bytes)
    : M (string * string * Ipld * bool) :=
  (let! db := write_request auth_header now raw in
   let '(did, body) := db in
   let! ck := lift (body_key body) in
   let! record := lift (body_record body) in
   let! ipld := lift (encode_record record) in
   let key := mst_key (fst ck) (snd ck) in
   let! o := e_read (lookup_record_cid did key) in
   ret (did, key, ipld, bool_decide (is_Some o)))%se.

Definition put_record_write (d : WriteDraw) (x : string * string * Ipld * bool)
    : M PutRecordOutput :=
  (let '(did, key, ipld, exists_) := x in
   let! writer := build_writer did in
   let! out := e_writer (apply_one writer (wd_stamps d)
     (if exists_ : bool then WUpdate key ipld else WCreate key ipld)) in
   ret (MkPutRecordOutput (record_uri did key) (default "" (cid_to_string <$> wo_record_cid out))
          (Some (MkCommitMeta (cid_to_string (wo_commit_cid out)) (wo_rev out)))))%se.

Definition put_record (d : WriteDraw) (auth_header : option string) (now : Z) (raw : option bytes)
    : M PutRecordOutput :=
  (let! x := put_record_check auth_header now raw in put_record_write d x)%se.

Definition delete_record_check (auth_header : option string) (now : Z) (raw : option bytes)
    : M (string * string * bool) :=
  (let! db := write_request auth_header now raw in
   let '(did, body) := db in
   let! ck := lift (body_key body) in
   let key := mst_key (fst ck) (snd ck) in
   let! o := e_read (lookup_record_cid did key) in
   ret (did, key, bool_decide (is_Some o)))%se.

Definition delete_record_write (d : WriteDraw) (x : string * string * bool)
    : M (option CommitMeta) :=
  let '(did, key, exists_) := x in
  if exists_ : bool then
    (let! writer := build_writer did in
     let! out := e_writer (apply_one writer (wd_stamps d) (WDelete key)) in
     ret (Some (MkCommitMeta (cid_to_string (wo_commit_cid out)) (wo_rev out))))%se
  else ret None.

Definition delete_record (d : WriteDraw) (auth_header : option string) (now : Z) (raw : option bytes)
    : M (option CommitMeta) :=
  (let! x := delete_record_check auth_header now raw in delete_record_write d x)%se.

(** One turn of the loop of [apply_writes]. *)
Definition apply_write (d : WriteDraw) (writer : Writer) (did : string) (write : Value)
    : M (ApplyWritesResult * CommitMeta) :=
  (let type_ := default "" (body_str "$type" write) in
   let! collection := lift (ok_or (body_str "collection" write)
                              (invalid "write is missing collection")) in
   lift (check_coll collection) ;;!
   if String.eqb type_ "com.atproto.repo.applyWrites#create" then
     let! rkey := lift (body_rkey d write) in
     let! ipld := lift (encode_record (json_index "value" write)) in
     let key := mst_key collection rkey in
     let! out := e_writer (apply_one writer (wd_stamps d) (WCreate key ipld)) in
     ret (AwCreated (record_uri did key) (cid_to_string <$> wo_record_cid out),
          MkCommitMeta (cid_to_string (wo_commit_cid out)) (wo_rev out))
   else if String.eqb type_ "com.atproto.repo.applyWrites#update" then
     let! rkey := lift (ok_or (body_str "rkey" write) (invalid "update write is missing rkey")) in
     lift (check_rk rkey) ;;!
     let! ipld := lift (encode_record (json_index "value" write)) in
     let key := mst_key collection rkey in
     let! out := e_writer (apply_one writer (wd_stamps d) (WUpdate key ipld)) in
     ret (AwUpdated (record_uri did key) (cid_to_string <$> wo_record_cid out),
          MkCommitMeta (cid_to_string (wo_commit_cid out)) (wo_rev out))
   else if String.eqb type_ "com.atproto.repo.applyWrites#delete" then
     let! rkey := lift (ok_or (body_str "rkey" write) (invalid "delete write is missing rkey")) in
     lift (check_rk rkey) ;;!
     let! out := e_writer (apply_one writer (wd_stamps d) (WDelete (mst_key collection rkey))) in
     ret (AwDeleted, MkCommitMeta (cid_to_string (wo_commit_cid out)) (wo_rev out))
   else throw (invalid ("unknown write $type: " +:+ type_)))%se.

(** The [n]-th write reads the clock as [ds n]. *)
Fixpoint apply_writes_loop (ds : nat -> WriteDraw) (n : nat) (writer : Writer) (did : string)
    (writes : list Value) (last_commit : option CommitMeta) (results : list ApplyWritesResult)
    : M ApplyWritesOutput :=
  match writes with
  | [] => ret (MkApplyWritesOutput last_commit results)
  | write :: writes =>
      (let! x := apply_write (ds n) writer did write in
       apply_writes_loop ds (S n) writer did writes (Some (snd x)) (results ++ [fst x]))%se
  end.

Definition apply_writes (ds : nat -> WriteDraw) (auth_header : option string) (now : Z)
    (raw : option bytes) : M ApplyWritesOutput :=
  (let! db := write_request auth_header now raw in
   let '(did, body) := db in
   let! writes := lift (ok_or (json_as_array (json_index "writes" body))
                          (invalid "writes must be an array")) in
   match writes with
   | [] => ret (MkApplyWritesOutput None [])
   | _ =>
       let! writer := build_writer did in
       apply_writes_loop ds 0 writer did writes None []
   end)%se.

(** ** Reads *)

Definition read_value (cid : Cid) : R Value :=
  (let! b := with_err (fun _ => internal_error "read_block_bytes failed") (read_block_bytes cid) in
   lift (map_err (fun _ => internal_error "dagcbor decode failed") (from_slice b)))%se.

Definition get_record (query : string) : R (GetRecordOutput (Value := Value)) :=
  match query_param query "repo", query_param query "collection", query_param query "rkey" with
  | Some repo, Some collection, Some rkey =>
      (let! did := resolve_repo_did repo in
       let key := mst_key collection rkey in
       let! o := lookup_record_cid did key in
       let! cid := lift (ok_or o (invalid "record not found")) in
       let! value := read_value cid in
       ret (MkGetRecordOutput (record_uri did key) (cid_to_string cid) value))%se
  | _, _, _ => throw (invalid "repo, collection and rkey are required")
  end.

(** The loop of [list_records]; [acc] is [records], [last] is [last_key]. *)
Fixpoint list_records_loop (did : string) (limit : nat) (cursor : option string)
    (stream : list (result string (string * Cid))) (acc : list (GetRecordOutput (Value := Value)))
    (last : option string) : R (list (GetRecordOutput (Value := Value)) * option string) :=
  match stream with
  | [] => ret (acc, last)
  | Err _ :: _ => throw (internal_error "MST stream error")
  | Ok (key, cid) :: stream =>
      if match cursor with Some c => str_leb key c | None => false end
      then list_records_loop did limit cursor stream acc last
      else (let! value := read_value cid in
            let acc := acc ++ [MkGetRecordOutput (record_uri did key) (cid_to_string cid) value] in
            if (limit <=? length acc)%nat then ret (acc, Some key)
            else list_records_loop did limit cursor stream acc (Some key))%se
  end.

Definition query_limit (query : string) : nat :=
  match l ← query_param query "limit"; parse_usize usize_bits l with
  | Some l => Z.to_nat (Z.max 1 (Z.min l 100))
  | None => 50%nat
  end.

Definition list_records (query : string) : R (ListRecordsOutput (Value := Value)) :=
  match query_param query "repo", query_param query "collection" with
  | Some did, Some collection =>
      let limit := query_limit query in
      let cursor := query_param query "cursor" in
      (let! o := e_store (load_repo_root did) in
       let! root := lift (ok_or o (invalid ("repo not found for did: " +:+ did))) in
       let! repo := e_prog "failed to open repo" (repo_open root) in
       let! stream := (fun s => (Ok (tree_entries_prefixed (fun c => fst (adapter_read c s))
                                       (repo_data repo) (collection +:+ "/")), s)) in
       let! rl := list_records_loop did limit cursor stream [] None in
       ret (MkListRecordsOutput (fst rl)
              (if Nat.eqb (length (fst rl)) limit then snd rl else None)))%se
  | _, _ => throw (invalid "repo and collection are required")
  end.

(** The collections of [describe_repo]: a failing root look-up counts as none. *)
Definition repo_collections (did : string) : R (list string) :=
  (let! o := catch (load_repo_root did) in
   match o with
   | Ok (Some root) =>
       let! repo := e_prog "failed to open repo" (repo_open root) in
       let! stream := (fun s => (Ok (tree_entries_prefixed (fun c => fst (adapter_read c s))
                                       (repo_data repo) ""), s)) in
       lift (map_err (fun _ => internal_error "MST stream error") (collections_set stream []))
   | _ => ret []
   end)%se.

Definition describe_repo (query : string) : M DescribeRepoOutput :=
  match query_param query "repo" with
  | None => throw (invalid "repo is required")
  | Some repo =>
      (let! did := e_read (resolve_repo_did repo) in
       let! h := e_read (e_store (get_handle_by_did did)) in
       let! handle := lift (ok_or h (invalid ("repo not found: " +:+ repo))) in
       let! collections := e_read (repo_collections did) in
       let! signing := load_signing_key did in
       let doc := {|
         dd_context := ["https://www.w3.org/ns/did/v1"; "https://w3id.org/security/multikey/v1"];
         dd_id := did;
         dd_also_known_as := ["at://" +:+ handle];
         dd_verification_method :=
           [MkVm (did +:+ "#atproto") "Multikey" did (public_key_multibase (kp_did signing))];
         dd_service := [MkServiceEntry "#atproto_pds" "AtprotoPersonalDataServer"
                          ("https://" +:+ cf_hostname config)] |} in
       ret (MkDescribeRepoOutput handle did doc collections true))%se
  end.

(** ** Blobs and export *)

Definition upload_blob (auth_header : option string) (now : Z) (hs : Headers) (raw : option bytes)
    : R BlobRef :=
  (let! did := lift (access_did config auth_header now) in
   let mime_type := default "application/octet-stream" (header hs "content-type") in
   let! body := lift (ok_or raw (invalid "could not read body")) in
   let! stored := with_err (fun e => match e with
                                     | BlobEmpty => invalid "empty blob"
                                     | BlobTooLarge _ => xrpc_error 413 "InvalidRequest" "blob too large"
                                     | BlobStorage _ => STORE_ERROR
                                     end) (store_blob did mime_type body) in
   let '(cid, mime_type, size) := stored in
   ret (MkBlobRef (cid_to_string cid) mime_type size))%se.

(** A body under its content type, which may not be a header value. *)
Definition bytes_response (mime_type : string) (b : bytes) : result Fail (string * bytes) :=
  ensure header_value_ok mime_type orelse internal_error "response build failed" in
  Ok (mime_type, b).

Definition get_blob_handler (query : string) : R (string * bytes) :=
  match query_param query "did", query_param query "cid" with
  | Some did, Some cid =>
      (let! o := e_store (get_blob did cid) in
       let! x := lift (ok_or o (invalid "blob not found")) in
       lift (bytes_response (fst x) (snd x)))%se
  | _, _ => throw (invalid "did and cid are required")
  end.

Fixpoint get_repo_loop (cids : list Cid) (w : CarWriter) : R bytes :=
  match cids with
  | [] => lift (map_err (fun _ => internal_error "CAR finish failed") (car_finish w))
  | cid :: cids =>
      (let! b := with_err (fun _ => internal_error "read_block_bytes failed") (read_block_bytes cid) in
       let! w := lift (map_err (fun _ => internal_error "CAR write failed") (car_write w cid b)) in
       get_repo_loop cids w)%se
  end.

Definition get_repo (query : string) : R (string * bytes) :=
  match query_param query "did" with
  | None => throw (invalid "missing required query param: did")
  | Some did =>
      (let! o := e_store (load_repo_root did) in
       let! root := lift (ok_or o (invalid ("repo not found for did: " +:+ did))) in
       let! repo := e_prog "failed to open repo" (repo_open root) in
       let! cids := e_prog "repo export failed" (repo_export repo) in
       let! buf := get_repo_loop cids (car_new root) in
       lift (bytes_response "application/vnd.ipld.car" buf))%se
  end.

End Handlers.
