(* ===== verification/EmbDemo.v ===== *)
(** * A concrete instance for the embedded server

    A JSON value is its own text: a tag and the fields of its members.  It
    satisfies the laws of [Json] and [JsonMore]; with it the handlers of
    [EmbServer] and [EmbRepo] run on concrete requests. *)

From Stdlib Require Import ZArith Lia Ascii.
From S2P Require Import Prelude RustStr Externals Demo StoreTypes MemoryStore MemoryProps OAuthCore.
From S2P Require Import Jose Dpop Client OAuthServer OAuthProps Session Repo RepoDemo KeyCrypto.
From S2P Require Import Identity Accounts AccountProps RepoXrpc Firehose Utf8 EmbServer EmbRepo.

Definition text_object (l : list (string * string)) : string := String "o" (fields_encode (flatten l)).

Definition text_members (v : string) : option (list (string * string)) :=
  match v with String "o" s => unflatten <$> fields_decode s | _ => None end.

Definition text_get (k v : string) : option string :=
  l ← text_members v; snd <$> List.find (fun p => String.eqb (fst p) k) l.

Definition text_str (v : string) : option string :=
  match v with String "s" s => Some s | _ => None end.

#[export] Instance text_json : Json := {
  Value := string;
  json_get := text_get;
  json_as_str := text_str;
  json_has_member v k := match text_get k v with Some _ => true | None => false end;
  json_strings l := text_object (map (fun p => (fst p, String "s" (snd p))) l);
  json_to_vec v := Ok v;
  json_from_slice b := Some b;
}.

#[export] Instance text_json_more : JsonMore := {
  json_null := "n" : Value (Json := text_json);
  json_is_null v := String.eqb v "n";
  json_as_array v := match v with String "a" s => fields_decode s | _ => None end;
  json_array l := String "a" (fields_encode l);
  json_num z := String "z" (Z_text z);
  json_object := text_object;
  json_of_str s := String "s" s;
  json_to_string v := v;
  json_exact _ := true;
}.

Lemma text_members_object l : text_members (text_object l) = Some l.
Proof. unfold text_members, text_object. by rewrite fields_decode_encode; cbn; rewrite unflatten_flatten. Qed.

Lemma text_get_object k l :
  text_get k (text_object l) = snd <$> List.find (fun p => String.eqb (fst p) k) l.
Proof. unfold text_get. by rewrite text_members_object. Qed.

Lemma find_member {A} (l : list (string * A)) k v : NoDup l.*1 -> (k, v) ∈ l ->
  List.find (fun p => String.eqb (fst p) k) l = Some (k, v).
Proof.
  induction l as [|[k' v'] l IH]; [by intros _ ?%not_elem_of_nil|].
  cbn. intros [Hk Hn]%NoDup_cons Hin. destruct (String.eqb_spec k' k) as [->|Hne].
  - apply elem_of_cons in Hin as [[= ->]|Hin]; [done|]. destruct Hk.
    by apply list_elem_of_fmap_2' with (x := (k, v)).
  - apply elem_of_cons in Hin as [[= -> ->]|Hin]; [done|]. by apply IH.
Qed.

Lemma find_no_member {A} (l : list (string * A)) k : k ∉ l.*1 ->
  List.find (fun p => String.eqb (fst p) k) l = None.
Proof.
  induction l as [|[k' v'] l IH]; [done|]. cbn. rewrite not_elem_of_cons. intros [Hne Hl].
  destruct (String.eqb_spec k' k); [congruence|]. by apply IH.
Qed.

#[export] Instance text_json_laws : JsonLaws (H := text_json).
Proof.
  split.
  - by intros v b [= <-].
  - intros l k s Hn Hin. unfold json_str. cbn [json_get json_strings text_json]. rewrite text_get_object.
    rewrite (find_member _ k (String "s" s)); [done| |].
    + clear Hin. induction l as [|[k' v] l IH]; [constructor|]. cbn in *.
      apply NoDup_cons in Hn as [Hk Hn]. apply NoDup_cons. split; [|by apply IH].
      intros Hin. destruct Hk. clear -Hin. induction l as [|[a b] l IH]; [done|]. cbn in *.
      apply elem_of_cons in Hin as [->|Hin]; apply elem_of_cons; auto.
    + clear Hn. induction l as [|[a b] l IH]; [by apply not_elem_of_nil in Hin|]. cbn.
      apply elem_of_cons in Hin as [[= -> ->]|Hin]; apply elem_of_cons; auto.
Defined.

#[export] Instance text_json_more_laws : JsonMoreLaws (H := text_json).
Proof.
  split; try done.
  - intros l. cbn. apply fields_decode_encode.
  - intros l k v Hn Hin. cbn [json_get json_object text_json text_json_more]. rewrite text_get_object.
    by rewrite (find_member _ k v).
  - intros l k Hk. cbn [json_get json_object text_json text_json_more]. rewrite text_get_object. by rewrite find_no_member.
Defined.

#[export] Instance text_serde : Serde (Value (Json := text_json)) := demo_serde_string.

#[export] Instance demo_http : HttpLib := {
  header_value_ok := all_bytes is_graphic;
  status_from_u16 s := if (100 <=? s) && (s <? 1000) then Some s else None;
}.

(** A server for [a.test], and an access token of [did:a] valid at time 1000. *)
Definition demo_config : ServerConfig := {|
  cf_hostname := "a.test"; cf_open_registration := false; cf_jwt_secret := "hmac";
  cf_key_passphrase := "pass"; cf_appview_did := "did:web:api.test";
  cf_appview_url := "https://api.test"; cf_plc_url := "https://plc.test" |}.

Definition demo_bearer : option string :=
  Some ("Bearer " +:+ default "" (res_opt (encode_access_jwt_at "did:a" "hmac" 1000))).

Lemma demo_bearer_ok : access_did demo_config demo_bearer 1000 = Ok "did:a".
Proof. vm_compute. reflexivity. Qed.

Definition text_body (l : list (string * string)) : bytes :=
  json_strings (Json := text_json) l.
