(* ===== verification/WsFrame.v ===== *)
(** * The embedded server's firehose: WebSocket frames

    [src/rust-core/src/server/firehose_ws.rs]: the frame codec the on-device
    server carries itself, the handshake, and the subscription loop, which is
    the production server's of [Firehose] with the client's frames answered in
    between.  Bytes on the wire are a string, on which a write that fails leaves
    any number of its bytes; what is written is decoded by a reference decoder of
    RFC 6455, section 5.2. *)

From Stdlib Require Import ZArith Lia Ascii.
From S2P Require Import Prelude RustStr Externals Demo StoreTypes MemoryStore MemoryProps OAuthCore.
From S2P Require Import Jose Dpop Client OAuthServer OAuthProps Session Repo RepoDemo Firehose.
From S2P Require Import Utf8 KeyCrypto Identity Accounts EmbServer.

Definition OP_BINARY : Z := 2.
Definition OP_CLOSE : Z := 8.
Definition OP_PING : Z := 9.
Definition OP_PONG : Z := 10.

Definition byte_of (z : Z) : ascii := ascii_of_N (Z.to_N z).

(** ** Writing *)

Definition frame_header (opcode len : Z) : bytes :=
  String (byte_of (Z.lor 128 (Z.land opcode 15)))
    (if len <? 126 then String (byte_of len) ""
     else if len <=? 65535 then String (byte_of 126) (be_bytes 2 len "")
     else String (byte_of 127) (be_bytes 8 len "")).

(** What [write_frame] puts on the wire. *)
Definition write_frame (opcode : Z) (payload : bytes) : bytes :=
  frame_header opcode (str_len payload) +:+ payload.

(** ** Reading *)

Inductive IoError := UnexpectedEof | FrameTooLarge.

Definition MAX_CLIENT_FRAME : Z := 64 * 1024.

Fixpoint be_val (acc : Z) (s : string) : Z :=
  match s with
  | EmptyString => acc
  | String c s => be_val (acc * 256 + byte_val c) s
  end.

(** [read_exact] of [n] bytes: those, and the rest of the stream. *)
Definition read_exact (n : Z) (s : bytes) : result IoError (bytes * bytes) :=
  ensure n <=? str_len s orelse UnexpectedEof in
  Ok (str_take (Z.to_nat n) s, str_drop (Z.to_nat n) s).

Definition xor_byte (a b : ascii) : ascii :=
  match a, b with
  | Ascii a0 a1 a2 a3 a4 a5 a6 a7, Ascii b0 b1 b2 b3 b4 b5 b6 b7 =>
      Ascii (xorb a0 b0) (xorb a1 b1) (xorb a2 b2) (xorb a3 b3)
            (xorb a4 b4) (xorb a5 b5) (xorb a6 b6) (xorb a7 b7)
  end.

(** [*b ^= mask\[i % 4\]] over the payload. *)
Fixpoint xor_mask (mask : bytes) (i : nat) (payload : bytes) : bytes :=
  match payload with
  | EmptyString => EmptyString
  | String b r =>
      String (xor_byte b (default zero (String.get (i mod 4) mask))) (xor_mask mask (S i) r)
  end.

Record ClientFrame := MkClientFrame { cl_opcode : Z; cl_payload : bytes }.

(** The payload length announced by the second byte, and the stream after it. *)
Definition frame_length (len : Z) (s : bytes) : result IoError (Z * bytes) :=
  if len =? 126 then (let? x := read_exact 2 s in Ok (be_val 0 (fst x), snd x))
  else if len =? 127 then (let? x := read_exact 8 s in Ok (be_val 0 (fst x), snd x))
  else Ok (len, s).

Definition read_frame (s : bytes) : result IoError (ClientFrame * bytes) :=
  let? x := read_exact 2 s in
  let '(head, s) := x in
  let opcode := Z.land (byte_at 0 head) 15 in
  let masked := negb (Z.land (byte_at 1 head) 128 =? 0) in
  let? y := frame_length (Z.land (byte_at 1 head) 127) s in
  let '(len, s) := y in
  ensure negb (MAX_CLIENT_FRAME <? len) orelse FrameTooLarge in
  let? m := if masked then read_exact 4 s else Ok (utf8 [0; 0; 0; 0]%N, s) in
  let '(mask, s) := m in
  let? p := read_exact len s in
  let '(payload, s) := p in
  Ok (MkClientFrame opcode (if masked then xor_mask mask 0 payload else payload), s).

(** ** The reference decoder: no bound on the length *)

Definition ws_decode (s : bytes) : option (ClientFrame * bytes) :=
  match s with
  | String b0 (String b1 s) =>
      let masked := 128 <=? byte_val b1 in
      let len7 := byte_val b1 mod 128 in
      ls ← res_opt (frame_length len7 s);
      ms ← (if masked then res_opt (read_exact 4 (snd ls)) else Some (utf8 [0; 0; 0; 0]%N, snd ls));
      ps ← res_opt (read_exact (fst ls) (snd ms));
      Some (MkClientFrame (byte_val b0 mod 16)
              (if masked then xor_mask (fst ms) 0 (fst ps) else fst ps), snd ps)
  | _ => None
  end.

(** A client's frame: masked, its length in the shortest form. *)
Definition client_frame (opcode : Z) (mask payload : bytes) : bytes :=
  let len := str_len payload in
  String (byte_of (128 + opcode))
    ((if len <? 126 then String (byte_of (128 + len)) ""
      else if len <=? 65535 then String (byte_of (128 + 126)) (be_bytes 2 len "")
      else String (byte_of (128 + 127)) (be_bytes 8 len "")) +:+ mask +:+ xor_mask mask 0 payload).

(** ** The handshake *)

(** [sha1] and base64 with padding. *)
Class WsDigests := { sha1 : bytes -> bytes; base64_encode : bytes -> string }.

Definition WS_GUID : string := "258EAFA5-E914-47DA-95CA-C5AB0DC85B11".

Definition NOT_AN_UPGRADE : Fail :=
  xrpc_error 400 "InvalidRequest" "subscribeRepos requires a WebSocket upgrade".

(** The cursor and the accept key of the 101 response. *)
Definition subscribe `{WsDigests} (hs : Headers) (query : string)
    : result Fail (option Z * string) :=
  let? cursor := match query_param query "cursor" with
                 | None => Ok None
                 | Some s =>
                     match parse_i64 s with
                     | Some v => if 0 <=? v then Ok (Some v)
                                 else Err (xrpc_error 400 "InvalidRequest"
                                             "cursor must be a non-negative integer")
                     | None => Err (xrpc_error 400 "InvalidRequest"
                                      "cursor must be a non-negative integer")
                     end
                 end in
  let is_ws_upgrade := match header hs "upgrade" with
                       | Some v => eq_ignore_ascii_case v "websocket"
                       | None => false
                       end in
  let? key := ok_or (header hs "sec-websocket-key") NOT_AN_UPGRADE in
  ensure is_ws_upgrade orelse NOT_AN_UPGRADE in
  Ok (cursor, base64_encode (sha1 (key +:+ WS_GUID))).

(** ** The subscription loop *)

Section Loop.
Context `{RepoSerde Cid}.

Record WsSub := MkWs {
  ws_pc : Pc;
  ws_rx : Receiver;
  ws_last : Z;
  ws_recovered : bool;
  ws_wire : bytes;
}.

Definition ws_goto (pc : Pc) (w : WsSub) : WsSub :=
  MkWs pc (ws_rx w) (ws_last w) (ws_recovered w) (ws_wire w).
Definition ws_set_rx (rx : Receiver) (w : WsSub) : WsSub :=
  MkWs (ws_pc w) rx (ws_last w) (ws_recovered w) (ws_wire w).
Definition ws_set_last (n : Z) (w : WsSub) : WsSub :=
  MkWs (ws_pc w) (ws_rx w) n (ws_recovered w) (ws_wire w).
Definition ws_set_recovered (b : bool) (w : WsSub) : WsSub :=
  MkWs (ws_pc w) (ws_rx w) (ws_last w) b (ws_wire w).
(** How a write ends; one that fails has put some of its bytes on the wire, or
    all of them when it is the flush that fails. *)
Inductive Outcome := Done | Failed (written : nat).
Definition done_ok (o : Outcome) : bool := match o with Done => true | Failed _ => false end.

Definition ws_write (o : Outcome) (opcode : Z) (p : bytes) (w : WsSub) : WsSub :=
  MkWs (ws_pc w) (ws_rx w) (ws_last w) (ws_recovered w)
    (ws_wire w +:+ match o with
                   | Done => write_frame opcode p
                   | Failed n => str_take n (write_frame opcode p)
                   end).
(** The error frame, a close frame, the end, whether they could be written or not. *)
Definition ws_close_with (o o' : Outcome) (f : bytes) (w : WsSub) : WsSub :=
  ws_goto PClosed (ws_write o' OP_CLOSE "" (ws_write o OP_BINARY f w)).

(** What a turn of the handler waits for: its own query, send or event, or in
    the live loop a client frame.  [ok] is whether the query succeeds, [o] how
    the write ends and [o'] the write of a close frame after it; a write that
    fails ends the stream. *)
Inductive WsInput := WStep (ok : bool) (o o' : Outcome) | WClient (o : Outcome) (frame : result IoError ClientFrame).

Definition ws_step (cursor : option Z) (i : WsInput) (log : list (Z * bytes)) (w : WsSub) : WsSub :=
  match i with
  | WStep ok o o' =>
      match ws_pc w with
      | PStart =>
          let w := ws_set_rx subscribed w in
          match cursor with
          | None => ws_goto PLive (ws_set_last 0 w)
          | Some c => ws_goto PCheck (ws_set_last c w)
          end
      | PCheck =>
          if negb ok then ws_goto PClosed w
          else if log_max log <? ws_last w
          then ws_close_with o o' (encode_error_frame "FutureCursor" (Some "Cursor in the future.")) w
          else ws_goto PQuery w
      | PQuery =>
          if negb ok then ws_goto PClosed w
          else match log_page (ws_last w) BACKFILL_PAGE log with
               | [] => ws_goto PLive w
               | rows => ws_goto (PPage rows) w
               end
      | PPage [] => ws_goto PQuery w
      | PPage (r :: rows) =>
          match row_frame r with
          | None => ws_goto (PPage rows) (ws_set_last (fst r) w)
          | Some f =>
              let w := ws_write o OP_BINARY f w in
              if negb (done_ok o) then ws_goto PClosed w
              else ws_goto (PPage rows) (ws_set_last (fst r) w)
          end
      | PLive =>
          let rx := ws_rx w in
          if rx_lagged rx then
            if negb (ws_recovered w)
            then ws_goto PQuery (ws_set_recovered true (ws_set_rx subscribed w))
            else ws_close_with o o'
                   (encode_error_frame "ConsumerTooSlow" (Some "Stream consumer too slow.")) w
          else match rx_queue rx with
               | [] => w
               | evt :: q =>
                   let w := ws_set_rx (MkReceiver q false) w in
                   if fe_seq evt <=? ws_last w then w
                   else
                     let w := ws_write o OP_BINARY (fe_frame evt) w in
                     if negb (done_ok o) then ws_goto PClosed w
                     else ws_set_recovered false (ws_set_last (fe_seq evt) w)
               end
      | PClosed => w
      end
  | WClient o frame =>
      match ws_pc w, frame with
      | PLive, Ok f =>
          if cl_opcode f =? OP_PING then
            let w := ws_write o OP_PONG (cl_payload f) w in
            if negb (done_ok o) then ws_goto PClosed w else w
          else if cl_opcode f =? OP_CLOSE then
            ws_goto PClosed (ws_write o OP_CLOSE (cl_payload f) w)
          else w
      | PLive, Err _ => ws_goto PClosed w
      | _, _ => w
      end
  end.

Definition ws_fresh : WsSub := MkWs PStart subscribed 0 false "".

(** The writes of an input put all of their bytes on the wire, or none. *)
Definition uncut_write (o : Outcome) : Prop := match o with Done => True | Failed n => n = 0%nat end.
Definition uncut (i : WsInput) : Prop :=
  match i with
  | WStep _ o o' => uncut_write o /\ uncut_write o'
  | WClient o _ => uncut_write o
  end.

(** The on-device server around it: as in [Firehose]; under [whole], no write is
    cut short. *)
Record WsServer := MkWsServer { wv_log : list (Z * bytes); wv_pending : list FirehoseEvent; wv_sub : WsSub }.

Definition ws_deliver (cap : nat) (evt : FirehoseEvent) (w : WsSub) : WsSub :=
  match ws_pc w with
  | PStart | PClosed => w
  | _ =>
      let q := rx_queue (ws_rx w) ++ [evt] in
      if (length q <=? cap)%nat then ws_set_rx (MkReceiver q (rx_lagged (ws_rx w))) w
      else ws_set_rx (MkReceiver (tail q) true) w
  end.

Inductive ws_server_step (whole : bool) (cursor : option Z) (cap : nat) : WsServer -> WsServer -> Prop :=
| wst_handler i v :
    (whole = true -> uncut i) ->
    ws_server_step whole cursor cap v
      (MkWsServer (wv_log v) (wv_pending v) (ws_step cursor i (wv_log v) (wv_sub v)))
| wst_commit body ev v :
    cb_seq body = Z.of_nat (length (wv_log v)) + 1 -> to_vec (with_seq 0 body) = Ok ev ->
    ws_server_step whole cursor cap v
      (MkWsServer (wv_log v ++ [(cb_seq body, ev)]) (wv_pending v ++ [event_of body]) (wv_sub v))
| wst_broadcast evt p v :
    wv_pending v = evt :: p ->
    ws_server_step whole cursor cap v
      (MkWsServer (wv_log v) p (ws_deliver cap evt (wv_sub v))).

End Loop.

(** ** Lemmas *)

Lemma byte_val_of z : 0 <= z < 256 -> byte_val (byte_of z) = z.
Proof. intros Hz. unfold byte_val, byte_of. rewrite N_ascii_embedding; lia. Qed.

Lemma be_val_bytes n : forall z a s, 0 <= z < 256 ^ Z.of_nat n ->
  be_val a (be_bytes n z s) = be_val (a * 256 ^ Z.of_nat n + z) s.
Proof.
  induction n as [|n IH]; intros z a s Hz; [simpl in *; f_equal; lia|].
  rewrite Nat2Z.inj_succ, Z.pow_succ_r in * by lia. cbn [be_bytes].
  rewrite Z.shiftr_div_pow2 by lia. change (2 ^ 8) with 256.
  rewrite IH by (split; [apply Z.div_pos; lia|apply Z.div_lt_upper_bound; lia]).
  cbn [be_val]. f_equal. change (ascii_of_N (Z.to_N (Z.land z 255))) with (byte_of (Z.land z 255)).
  change 255 with (Z.ones 8). rewrite Z.land_ones by lia. change (2 ^ 8) with 256.
  rewrite byte_val_of by (apply Z.mod_pos_bound; lia). pose proof (Z.div_mod z 256 ltac:(lia)). lia.
Qed.

Lemma be_bytes_app n : forall z s t, be_bytes n z s +:+ t = be_bytes n z (s +:+ t).
Proof. induction n as [|n IH]; intros z s t; [done|]. cbn [be_bytes]. by rewrite IH, str_app_cons. Qed.

Lemma length_be_bytes n : forall z s, String.length (be_bytes n z s) = (n + String.length s)%nat.
Proof. induction n as [|n IH]; intros z s; [done|]. cbn [be_bytes]. rewrite IH. simpl. lia. Qed.

Lemma str_take_app s t : str_take (String.length s) (s +:+ t) = s.
Proof.
  induction s as [|c s IH]; [by destruct t|]. rewrite str_app_cons. simpl. by rewrite IH.
Qed.
Lemma str_drop_app s t : str_drop (String.length s) (s +:+ t) = t.
Proof. induction s as [|c s IH]; [by destruct t|]. rewrite str_app_cons. simpl. done. Qed.

Lemma read_exact_app n s t : n = str_len s -> read_exact n (s +:+ t) = Ok (s, t).
Proof.
  intros ->. unfold read_exact. rewrite str_len_app. pose proof (str_len_nonneg t).
  destruct (Z.leb_spec (str_len s) (str_len s + str_len t)); [|lia].
  unfold str_len. by rewrite Nat2Z.id, str_take_app, str_drop_app.
Qed.

Lemma xor_byte_invol a b : xor_byte (xor_byte a b) b = a.
Proof.
  destruct a as [a0 a1 a2 a3 a4 a5 a6 a7], b as [b0 b1 b2 b3 b4 b5 b6 b7]. simpl.
  by rewrite !xorb_assoc, !xorb_nilpotent, !xorb_false_r.
Qed.

Lemma xor_mask_invol mask p : forall i, xor_mask mask i (xor_mask mask i p) = p.
Proof. induction p as [|b p IH]; intros i; [done|]. cbn [xor_mask]. by rewrite xor_byte_invol, IH. Qed.

Lemma str_len_xor_mask mask p : forall i, str_len (xor_mask mask i p) = str_len p.
Proof.
  unfold str_len. induction p as [|b p IH]; intros i; [done|]. simpl. specialize (IH (S i)). lia.
Qed.

(** The length field of a frame, in the shortest form, is read back. *)
Definition length_ext (len : Z) : bytes :=
  if len <? 126 then "" else if len <=? 65535 then be_bytes 2 len "" else be_bytes 8 len "".
Definition length7 (len : Z) : Z := if len <? 126 then len else if len <=? 65535 then 126 else 127.

Lemma frame_length_ext len rest : 0 <= len < u64_mod ->
  frame_length (length7 len) (length_ext len +:+ rest) = Ok (len, rest).
Proof.
  intros Hl. unfold frame_length, length7, length_ext, u64_mod in *.
  destruct (Z.ltb_spec len 126); [|destruct (Z.leb_spec len 65535)].
  - destruct (Z.eqb_spec len 126); [lia|]. destruct (Z.eqb_spec len 127); [lia|done].
  - cbn [Z.eqb Pos.eqb]. rewrite (read_exact_app 2) by (unfold str_len; by rewrite length_be_bytes).
    cbn [fst snd]. rewrite be_val_bytes by lia. f_equal.
  - cbn [Z.eqb Pos.eqb]. rewrite (read_exact_app 8) by (unfold str_len; by rewrite length_be_bytes).
    cbn [fst snd]. rewrite be_val_bytes by lia. f_equal.
Qed.

Lemma length7_range len : 0 <= len -> 0 <= length7 len < 128.
Proof. intros Hl. unfold length7. repeat case_match; lia. Qed.

Lemma write_frame_eq opcode p :
  write_frame opcode p =
  String (byte_of (Z.lor 128 (Z.land opcode 15)))
    (String (byte_of (length7 (str_len p))) (length_ext (str_len p) +:+ p)).
Proof.
  unfold write_frame, frame_header, length7, length_ext.
  destruct (_ <? 126); [|destruct (_ <=? 65535)]; by rewrite !str_app_cons, ?str_app_nil_l.
Qed.

Lemma client_frame_eq opcode mask p :
  client_frame opcode mask p =
  String (byte_of (128 + opcode)) (String (byte_of (128 + length7 (str_len p)))
    (length_ext (str_len p) +:+ mask +:+ xor_mask mask 0 p)).
Proof.
  unfold client_frame, length7, length_ext.
  destruct (_ <? 126); [|destruct (_ <=? 65535)]; by rewrite !str_app_cons, ?str_app_nil_l.
Qed.

Lemma opcode_byte opcode : 0 <= opcode < 16 ->
  Z.lor 128 (Z.land opcode 15) = 128 + opcode.
Proof.
  intros Ho. change 15 with (Z.ones 4). rewrite Z.land_ones, Z.mod_small by lia.
  rewrite <- Z.add_lor_land.
  assert (Z.land 128 opcode = 0) as ->; [|lia].
  apply Z.bits_inj'. intros n Hn. rewrite Z.land_spec, Z.bits_0.
  destruct (decide (n < 4)).
  - change 128 with (2 ^ 7). rewrite Z.pow2_bits_false by lia. done.
  - rewrite (Z.bits_above_log2 opcode n), andb_false_r; [done|lia|].
    destruct (decide (opcode = 0)) as [->|]; [simpl; lia|].
    apply Z.log2_lt_pow2; [lia|]. apply Z.lt_le_trans with (2 ^ 4); [lia|].
    apply Z.pow_le_mono_r; lia.
Qed.

Lemma ws_decode_unmasked opcode p rest : 0 <= opcode < 16 -> str_len p < u64_mod ->
  ws_decode (write_frame opcode p +:+ rest) = Some (MkClientFrame opcode p, rest).
Proof.
  intros Ho Hp. pose proof (str_len_nonneg p) as H0. pose proof (length7_range (str_len p) H0) as H7.
  rewrite write_frame_eq, opcode_byte, !str_app_cons, str_app_assoc by done. unfold ws_decode.
  rewrite !byte_val_of by lia.
  destruct (Z.leb_spec 128 (length7 (str_len p))); [lia|]. rewrite (Z.mod_small (length7 _)) by lia.
  rewrite frame_length_ext by lia. cbn [res_opt mbind option_bind fst snd].
  rewrite read_exact_app by done. cbn [res_opt mbind option_bind fst snd].
  by replace ((128 + opcode) mod 16) with opcode by (apply (Z.mod_unique _ _ 8); lia).
Qed.

Lemma ws_decode_masked opcode mask p rest :
  0 <= opcode < 16 -> str_len mask = 4 -> str_len p < u64_mod ->
  ws_decode (client_frame opcode mask p +:+ rest) = Some (MkClientFrame opcode p, rest).
Proof.
  intros Ho Hm Hp. pose proof (str_len_nonneg p) as H0. pose proof (length7_range (str_len p) H0) as H7.
  rewrite client_frame_eq, !str_app_cons, !str_app_assoc by done. unfold ws_decode.
  rewrite !byte_val_of by lia.
  destruct (Z.leb_spec 128 (128 + length7 (str_len p))); [|lia].
  replace ((128 + length7 (str_len p)) mod 128) with (length7 (str_len p))
    by (apply (Z.mod_unique _ _ 1); lia).
  rewrite frame_length_ext by lia. cbn [res_opt mbind option_bind fst snd].
  rewrite (read_exact_app 4 mask) by done. cbn [res_opt mbind option_bind fst snd].
  rewrite read_exact_app by by rewrite str_len_xor_mask. cbn [res_opt mbind option_bind fst snd].
  rewrite xor_mask_invol.
  by replace ((128 + opcode) mod 16) with opcode by (apply (Z.mod_unique _ _ 8); lia).
Qed.

Lemma byte_low c : Z.land (byte_val c) 15 = byte_val c mod 16.
Proof. by destruct c as [[] [] [] [] [] [] [] []]. Qed.
Lemma byte_len c : Z.land (byte_val c) 127 = byte_val c mod 128.
Proof. by destruct c as [[] [] [] [] [] [] [] []]. Qed.
Lemma byte_masked c : negb (Z.land (byte_val c) 128 =? 0) = (128 <=? byte_val c).
Proof. by destruct c as [[] [] [] [] [] [] [] []]. Qed.

Lemma read_exact_Err n t e : read_exact n t = Err e -> e = UnexpectedEof.
Proof. unfold read_exact. destruct (_ <=? _); [done|]. by intros [= <-]. Qed.

Lemma length_str_take k : forall u, (k <= String.length u)%nat -> String.length (str_take k u) = k.
Proof. induction k as [|k IH]; intros [|c u] Hk; simpl in *; try lia. rewrite IH; lia. Qed.

Lemma read_exact_len n t x : 0 <= n -> read_exact n t = Ok x -> str_len (fst x) = n.
Proof.
  unfold read_exact. intros Hn. destruct (Z.leb_spec n (str_len t)); [|done]. intros [= <-].
  cbn [fst]. unfold str_len in *. rewrite length_str_take; lia.
Qed.

Lemma be_val_nonneg s : forall a, 0 <= a -> 0 <= be_val a s.
Proof.
  induction s as [|c s IH]; intros a Ha; [done|]. cbn [be_val]. apply IH. unfold byte_val. lia.
Qed.

Lemma byte_len7 c : 0 <= byte_val c mod 128.
Proof. apply Z.mod_pos_bound. lia. Qed.

Lemma frame_length_nonneg l r len r' : 0 <= l -> frame_length l r = Ok (len, r') -> 0 <= len.
Proof.
  intros Hl. unfold frame_length.
  repeat case_match; intros; simplify_eq; try done; by apply be_val_nonneg.
Qed.

(** the codec is RFC 6455's, up to the length bound.  On any input, a frame
    [read_frame] accepts is the frame the reference decoder reads, with the same
    rest and a payload of at most 64 KiB; where it reports the end of the
    stream the reference decoder finds no frame; and where it refuses a frame as
    too large the announced length is beyond the bound, before any byte of the
    mask or payload has been read. *)
Theorem read_frame_reference (s : bytes) :
  match read_frame s with
  | Ok (f, rest) => ws_decode s = Some (f, rest) /\ str_len (cl_payload f) <= MAX_CLIENT_FRAME
  | Err UnexpectedEof => ws_decode s = None
  | Err FrameTooLarge => exists b0 b1 r len r', s = String b0 (String b1 r) /\
      frame_length (byte_val b1 mod 128) r = Ok (len, r') /\ MAX_CLIENT_FRAME < len
  end.
Proof.
  destruct s as [|b0 [|b1 r]]; [done|done|]. unfold read_frame.
  change (String b0 (String b1 r)) with (String b0 (String b1 "") +:+ r) at 1.
  rewrite (read_exact_app 2) by done. cbn [fst snd]. unfold byte_at. cbn [String.get].
  rewrite byte_len, byte_masked, byte_low. unfold ws_decode.
  destruct (frame_length (byte_val b1 mod 128) r) as [[len r1]|e] eqn:El; cbn [res_opt mbind option_bind fst snd].
  2: { unfold frame_length, read_exact in El. repeat case_match; simplify_eq; done. }
  destruct (Z.ltb_spec MAX_CLIENT_FRAME len) as [Hlt|Hle]; cbn [negb].
  { by exists b0, b1, r, len, r1. }
  assert (forall t, match read_exact len t with
            | Ok x => str_len (fst x) <= MAX_CLIENT_FRAME | Err e => e = UnexpectedEof end) as Hp.
  { intros t. destruct (read_exact len t) as [x|e] eqn:E; [|by apply read_exact_Err in E].
    by rewrite (read_exact_len len t x (frame_length_nonneg _ _ _ _ (byte_len7 b1) El) E). }
  destruct (128 <=? byte_val b1).
  - destruct (read_exact 4 r1) as [[mask r2]|e] eqn:Em; cbn [res_opt mbind option_bind fst snd];
      [|by apply read_exact_Err in Em as ->].
    specialize (Hp r2). destruct (read_exact len r2) as [[p r3]|e]; cbn [res_opt mbind option_bind fst snd];
      [|by subst]. split; [done|]. cbn [cl_payload]. by rewrite str_len_xor_mask.
  - cbn [res_opt mbind option_bind fst snd]. specialize (Hp r1).
    by destruct (read_exact len r1) as [[p r3]|e]; cbn [res_opt mbind option_bind fst snd]; [|subst].
Qed.

(** ** The wire *)

Fixpoint wire_of (l : list ClientFrame) : bytes :=
  match l with
  | [] => ""
  | f :: l => write_frame (cl_opcode f) (cl_payload f) +:+ wire_of l
  end.

(** Frames up to the end of the stream; a frame takes two bytes at least. *)
Fixpoint decode_all (fuel : nat) (s : bytes) : option (list ClientFrame) :=
  match s, fuel with
  | EmptyString, _ => Some []
  | _, O => None
  | _, S fuel => x ← ws_decode s; l ← decode_all fuel (snd x); Some (fst x :: l)
  end.

Definition sendable (f : ClientFrame) : Prop := 0 <= cl_opcode f < 16.

Lemma length_write_frame opcode p : (2 <= String.length (write_frame opcode p))%nat.
Proof. rewrite write_frame_eq. simpl. lia. Qed.

Lemma wire_of_app l l' : wire_of (l ++ l') = wire_of l +:+ wire_of l'.
Proof. induction l as [|f l IH]; [done|]. cbn [app wire_of]. by rewrite IH, str_app_assoc. Qed.

Lemma payload_le_wire f l : f ∈ l -> str_len (cl_payload f) <= str_len (wire_of l).
Proof.
  induction 1 as [f l|f g l _ IH]; cbn [wire_of]; rewrite str_len_app, write_frame_eq; unfold str_len in *;
    simpl; rewrite ?length_str_app; lia.
Qed.

Lemma decode_all_wire l : forall fuel, Forall sendable l -> str_len (wire_of l) < u64_mod ->
  (String.length (wire_of l) <= fuel)%nat -> decode_all fuel (wire_of l) = Some l.
Proof.
  induction l as [|[o p] l IH]; intros fuel Ho Hlen Hf; [by destruct fuel|].
  apply Forall_cons in Ho as [Ho Hos]. pose proof (payload_le_wire _ _ (list_elem_of_here (MkClientFrame o p) l)) as Hp.
  cbn [wire_of cl_opcode cl_payload] in *. pose proof (length_write_frame o p) as Hw.
  rewrite length_str_app in Hf. rewrite str_len_app in Hlen, Hp.
  destruct fuel as [|fuel]; [lia|].
  assert (decode_all (S fuel) (write_frame o p +:+ wire_of l) =
    (x ← ws_decode (write_frame o p +:+ wire_of l); l ← decode_all fuel (snd x); Some (fst x :: l))) as ->.
  { rewrite write_frame_eq, str_app_cons. done. }
  rewrite ws_decode_unmasked by (exact Ho || lia). cbn [mbind option_bind snd fst].
  rewrite IH; [done|done| |lia]. pose proof (str_len_nonneg (write_frame o p)). lia.
Qed.

(** ** The loop is the production server's *)

Section Simulation.
Context `{RepoSerde Cid}.
Implicit Types (w : WsSub) (s : Sub) (l : list ClientFrame).

(** The payloads of the binary frames. *)
Definition binaries l : list bytes :=
  map cl_payload (List.filter (fun f => cl_opcode f =? OP_BINARY) l).

(** What failed writes leave at the end of the wire: the beginning of a frame,
    and of the close frame the server may still send. *)
Definition cut_off (rest : bytes) : Prop :=
  exists n opcode p m, rest = str_take n (write_frame opcode p) +:+ str_take m (write_frame OP_CLOSE "").

(** [w] is the production handler's state [s] with the frames [l] written, and
    [rest] of frames that were cut short. *)
Definition ws_abs (whole : bool) w s l rest : Prop :=
  (ws_pc w = s_pc s /\ ws_rx w = s_rx s /\ ws_last w = s_last s /\ ws_recovered w = s_recovered s) /\
  ws_wire w = wire_of l +:+ rest /\ Forall sendable l /\
  binaries l = s_sent s ++ option_list (s_error s) /\
  (s_pc s <> PClosed -> s_error s = None /\ rest = "") /\ (whole = true -> rest = "") /\ cut_off rest.

Lemma cut_off_nil : cut_off "".
Proof. by exists 0%nat, 0, "", 0%nat. Qed.

Lemma binaries_app l l' : binaries (l ++ l') = binaries l ++ binaries l'.
Proof. unfold binaries. by rewrite List.filter_app, map_app. Qed.

Lemma wire_snoc l opcode p : wire_of (l ++ [MkClientFrame opcode p]) = wire_of l +:+ write_frame opcode p.
Proof. rewrite wire_of_app. cbn. by rewrite str_app_nil_r. Qed.

(** Writing a frame: to the wire, and to the list. *)
Lemma ws_abs_send whole w s l f : ws_abs whole w s l "" -> s_error s = None ->
  ws_abs whole (ws_write Done OP_BINARY f w) (send_frame f s) (l ++ [MkClientFrame OP_BINARY f]) "".
Proof.
  intros (Hf & Hw & Hs & Hb & Hc & Hr & Hcut) He. rewrite He, app_nil_r in Hb. unfold ws_abs. cbn.
  rewrite wire_snoc, Hw, binaries_app, Hb, He, !str_app_nil_r, app_nil_r. split_and!; try done; [by destruct Hf|..].
  all: try (by destruct Hf as (? & ? & ? & ?)). apply Forall_app; split; [done|]. by repeat constructor.
Qed.

(** A state with the same frames written. *)
Lemma ws_abs_same whole w s l w' s' :
  ws_abs whole w s l "" -> s_error s = None ->
  ws_pc w' = s_pc s' -> ws_rx w' = s_rx s' -> ws_last w' = s_last s' -> ws_recovered w' = s_recovered s' ->
  ws_wire w' = ws_wire w -> s_sent s' = s_sent s -> s_error s' = s_error s -> ws_abs whole w' s' l "".
Proof.
  intros (_ & Hw & Hs & Hb & Hc & Hr & Hcut) He ? ? ? ? Ewi Ese Eer. unfold ws_abs. rewrite Ewi, Ese, Eer. by split_and!.
Qed.

(** A control frame is written between the others. *)
Lemma ws_abs_control whole w s l opcode p : ws_abs whole w s l "" ->
  opcode <> OP_BINARY -> 0 <= opcode < 16 ->
  ws_abs whole (ws_write Done opcode p w) s (l ++ [MkClientFrame opcode p]) "".
Proof.
  intros (Hf & Hw & Hs & Hb & Hc & Hr & Hcut) Ho Hrange. unfold ws_abs. cbn.
  rewrite wire_snoc, Hw, !str_app_nil_r, binaries_app. split_and!; try done; try (by destruct Hf as (? & ? & ? & ?)).
  - apply Forall_app; split; [done|]. by apply Forall_singleton.
  - unfold binaries at 2. cbn. destruct (Z.eqb_spec opcode OP_BINARY); [done|]. by rewrite app_nil_r.
Qed.

Lemma ws_abs_goto_closed whole w s l rest : ws_abs whole w s l rest ->
  ws_abs whole (ws_goto PClosed w) (goto PClosed s) l rest.
Proof. unfold ws_abs. cbn. naive_solver. Qed.

(** A write that fails ends the stream. *)
Lemma ws_abs_cut whole w s l n opcode p : ws_abs whole w s l "" -> (whole = true -> n = 0%nat) ->
  ws_abs whole (ws_goto PClosed (ws_write (Failed n) opcode p w)) (goto PClosed s) l (str_take n (write_frame opcode p)).
Proof.
  intros (Hf & Hw & Hs & Hb & Hc & Hr & Hcut) Hn. unfold ws_abs. cbn.
  rewrite Hw, str_app_nil_r. split_and!; try done; try (by destruct Hf as (? & ? & ? & ?)).
  - intros Hwh. by rewrite (Hn Hwh).
  - exists n, opcode, p, 0%nat. cbn. by rewrite str_app_nil_r.
Qed.

(** The close frame of a stream that has ended, written or not. *)
Lemma ws_abs_last whole o w s l : ws_abs whole w s l "" -> s_pc s = PClosed -> (whole = true -> uncut_write o) ->
  exists l' rest, ws_abs whole (ws_goto PClosed (ws_write o OP_CLOSE "" w)) (goto PClosed s) l' rest.
Proof.
  intros Ha Hs Hu. destruct o as [|n].
  - eexists _, _. by apply ws_abs_goto_closed, ws_abs_control.
  - eexists _, _. by apply ws_abs_cut.
Qed.

(** After the error frame and the close frame, written or not. *)
Lemma ws_abs_close whole o o' f w s l : ws_abs whole w s l "" -> s_error s = None ->
  (whole = true -> uncut_write o /\ uncut_write o') ->
  exists s' l' rest, ws_abs whole (ws_close_with o o' f w) s' l' rest /\ (s' = close_with f s \/ s' = goto PClosed s).
Proof.
  intros Ha He Hu. destruct o as [|[|n]].
  - assert (ws_abs whole (ws_goto PClosed (ws_write Done OP_BINARY f w)) (close_with f s)
              (l ++ [MkClientFrame OP_BINARY f]) "") as Ha1.
    { apply (ws_abs_send _ _ _ _ f) in Ha; [|done]. destruct Ha as (Hf & Hw & Hs & Hb & _ & Hr & Hcut).
      unfold ws_abs. cbn in *. rewrite He, app_nil_r in Hb. rewrite Hb. split_and!; try done; by destruct Hf as (? & ? & ? & ?). }
    apply (ws_abs_last _ o') in Ha1 as (l' & rest & Ha1); [|done|by intros Hwh; destruct (Hu Hwh)].
    exists (close_with f s), l', rest. split; [exact Ha1|by left].
  - apply (ws_abs_cut _ _ _ _ 0 OP_BINARY f) in Ha as Ha1; [|done].
    apply (ws_abs_last _ o') in Ha1 as (l' & rest & Ha1); [|done|by intros Hwh; destruct (Hu Hwh)].
    exists (goto PClosed s), l', rest. split; [exact Ha1|by right].
  - destruct whole; [by destruct (Hu eq_refl)|]. destruct Ha as (Hf & Hw & Hs & Hb & Hc & Hr & Hcut).
    set (m := match o' with Done => String.length (write_frame OP_CLOSE "") | Failed m => m end).
    exists (goto PClosed s), l, (str_take (S n) (write_frame OP_BINARY f) +:+ str_take m (write_frame OP_CLOSE "")).
    split; [|by right]. unfold ws_abs. cbn [ws_close_with ws_goto ws_write ws_wire ws_pc ws_rx ws_last ws_recovered].
    rewrite Hw, str_app_nil_r, <- str_app_assoc. split_and!; try done; try (by destruct Hf as (? & ? & ? & ?)).
    + by destruct o'.
    + by exists (S n), OP_BINARY, f, m.
Qed.

(** A turn of the handler is one of the production handler's, or ends the stream. *)
Lemma ws_handler_abs whole cursor ok o o' log w s l : ws_abs whole w s l "" -> s_error s = None ->
  (whole = true -> uncut_write o /\ uncut_write o') ->
  exists s' l' rest', ws_abs whole (ws_step cursor (WStep ok o o') log w) s' l' rest' /\
    (s' = goto PClosed s \/ exists ok, s' = handler_step cursor ok log s).
Proof.
  intros Ha He Hu. pose proof Ha as ((Epc & Erx & El & Er) & _).
  assert (forall n, o = Failed n -> whole = true -> n = 0%nat) as Hn by (intros n -> Hwh; apply (Hu Hwh)).
  assert (forall w' ok', ws_pc w' = s_pc (handler_step cursor ok' log s) -> ws_rx w' = s_rx (handler_step cursor ok' log s) ->
    ws_last w' = s_last (handler_step cursor ok' log s) -> ws_recovered w' = s_recovered (handler_step cursor ok' log s) ->
    ws_wire w' = ws_wire w -> s_sent (handler_step cursor ok' log s) = s_sent s ->
    s_error (handler_step cursor ok' log s) = s_error s ->
    exists s' l' rest', ws_abs whole w' s' l' rest' /\ (s' = goto PClosed s \/ exists ok, s' = handler_step cursor ok log s)) as Hsame.
  { intros w' ok' ? ? ? ? ? ? ?. exists (handler_step cursor ok' log s), l, "".
    split; [by eapply ws_abs_same|]. right. by exists ok'. }
  assert (forall f w' s', ws_pc w' = s_pc s' -> ws_rx w' = s_rx s' -> ws_last w' = s_last s' ->
    ws_recovered w' = s_recovered s' -> ws_wire w' = ws_wire (ws_write Done OP_BINARY f w) ->
    s_sent s' = s_sent s ++ [f] -> s_error s' = s_error s ->
    ws_abs whole w' s' (l ++ [MkClientFrame OP_BINARY f]) "") as Hsend.
  { intros f w' s' ? ? ? ? ? ? ?. by eapply ws_abs_same; [apply (ws_abs_send _ _ _ _ f Ha He)|..]. }
  unfold ws_step. rewrite Epc. unfold handler_step in Hsame |- *. destruct (s_pc s) as [| | |[|r rows]| |] eqn:Ep.
  - destruct cursor; by apply (Hsame _ true).
  - destruct ok; [|by apply (Hsame _ false)]. cbn [negb]. rewrite El. destruct (_ <? _) eqn:Elt.
    + destruct (ws_abs_close whole o o' (encode_error_frame "FutureCursor" (Some "Cursor in the future.")) w s l Ha He Hu)
        as (s' & l' & rest & Ha' & [->| ->]); (eexists _, _, _; split; [exact Ha'|]); [right; by exists true|by left].
    + apply (Hsame _ true); cbn; by rewrite ?Elt.
  - destruct ok; [|by apply (Hsame _ false)]. cbn [negb]. rewrite El.
    destruct (log_page _ _ _) eqn:Epage; apply (Hsame _ true); cbn; by rewrite ?Epage.
  - by apply (Hsame _ true).
  - destruct (row_frame r) as [f|]; [|by apply (Hsame _ true)]. destruct o as [|n]; cbn [done_ok negb].
    + eexists _, _, _. split; [|right; exists true; reflexivity]. by apply Hsend.
    + eexists _, _, _. split; [apply ws_abs_cut; [exact Ha|by apply Hn]|by left].
  - rewrite Erx, Er. destruct (rx_lagged (s_rx s)) eqn:Elag.
    + destruct (s_recovered s) eqn:Erec; cbn [negb].
      * destruct (ws_abs_close whole o o' (encode_error_frame "ConsumerTooSlow" (Some "Stream consumer too slow.")) w s l Ha He Hu)
          as (s' & l' & rest & Ha' & [->| ->]); (eexists _, _, _; split; [exact Ha'|]); [right; by exists true|by left].
      * apply (Hsame _ true); cbn; by rewrite ?Elag.
    + destruct (rx_queue (s_rx s)) as [|evt q] eqn:Eq; [by apply (Hsame _ true); cbn; rewrite ?Elag, ?Eq, ?Ep|].
      cbn [ws_last s_last ws_set_rx set_rx] in *. rewrite El.
      destruct (_ <=? _) eqn:Ele; [by apply (Hsame _ true); cbn; rewrite ?Elag, ?Eq, ?Ele, ?Ep|].
      destruct o as [|n]; cbn [done_ok negb].
      * eexists _, _, _. split; [|right; exists true; reflexivity]. by apply Hsend; cbn; rewrite ?Ep.
      * eexists _, _, _. split; [|right; exists false; reflexivity].
        apply (ws_abs_cut whole (ws_set_rx (MkReceiver q false) w) (set_rx (MkReceiver q false) s)); [|by apply Hn].
        by eapply ws_abs_same; [exact Ha|exact He|..]; cbn; rewrite ?Ep.
  - exists s, l, "". split; [done|]. right. by exists true.
Qed.

Lemma ws_step_abs whole cursor i log w s l rest : ws_abs whole w s l rest -> (whole = true -> uncut i) ->
  exists s' l' rest', ws_abs whole (ws_step cursor i log w) s' l' rest' /\
    (s' = s \/ s' = goto PClosed s \/ exists ok, s' = handler_step cursor ok log s).
Proof.
  intros Ha Hu. assert (s_pc s = PClosed \/ s_pc s <> PClosed) as [Hpc|Hpc] by (destruct (s_pc s); auto).
  { exists s, l, rest. split; [|by left]. pose proof Ha as ((Epc & _) & _). rewrite Hpc in Epc.
    unfold ws_step. rewrite Epc. by destruct i. }
  pose proof Ha as ((Epc & Erx & El & Er) & _ & _ & _ & He & _). destruct (He Hpc) as [Herr ->].
  destruct i as [ok o o'|o fr].
  { destruct (ws_handler_abs whole cursor ok o o' log w s l Ha Herr Hu) as (s' & l' & rest' & Ha' & Hs').
    exists s', l', rest'. split; [done|by right]. }
  assert (forall n, o = Failed n -> whole = true -> n = 0%nat) as Hn by (intros n -> Hwh; exact (Hu Hwh)).
  unfold ws_step. rewrite Epc. destruct (s_pc s); try by (exists s, l, ""; split; [done|by left]).
  destruct fr as [[opcode p]|e]; cbn [cl_opcode cl_payload].
  2: { exists (goto PClosed s), l, "". split; [by apply ws_abs_goto_closed|auto]. }
  destruct (opcode =? OP_PING).
  - destruct o as [|n]; cbn [done_ok negb].
    + eexists s, _, "". split; [by apply ws_abs_control|by left].
    + eexists _, _, _. split; [apply ws_abs_cut; [exact Ha|by apply Hn]|auto].
  - destruct (opcode =? OP_CLOSE); [|by exists s, l, ""; split; [|left]]. destruct o as [|n].
    + eexists _, _, "". split; [by apply ws_abs_goto_closed, ws_abs_control|auto].
    + eexists _, _, _. split; [apply ws_abs_cut; [exact Ha|by apply Hn]|auto].
Qed.

(** The production server's invariant carries over. *)
Definition ws_inv (whole : bool) (c : Z) (v : WsServer) : Prop :=
  exists s l rest, ws_abs whole (wv_sub v) s l rest /\ inv c (MkServer (wv_log v) (wv_pending v) s).

Lemma ws_step_inv `{!RepoSerdeLaws Cid} whole c cap v v' : 0 <= c ->
  ws_server_step whole (Some c) cap v v' -> ws_inv whole c v -> ws_inv whole c v'.
Proof.
  intros Hc Hst (s & l & rest & Ha & Hi). destruct Hst as [i v Hu|body ev v Hseq Hev|evt p v Hp].
  - destruct (ws_step_abs whole (Some c) i (wv_log v) _ _ _ _ Ha Hu) as (s' & l' & rest' & Ha' & Hs').
    exists s', l', rest'. split; [done|]. destruct Hs' as [->|[->|[ok ->]]]; [done| |].
    + destruct Hi as (Hn & b & Hb & Hp & Hsi). split; [done|]. exists b. split_and!; [done..|].
      pose proof (sub_inv_bound _ _ _ _ Hc Hsi). destruct Hsi as [Hsent _]. by split.
    + exact (step_inv c cap _ _ Hc (st_handler true (Some c) cap ok _) Hi).
  - exists s, l, rest. split; [done|]. by apply (commit_inv c body ev (MkServer _ _ s)).
  - exists (deliver cap evt s), l, rest. split.
    + pose proof Ha as ((Epc & Erx & El & Er) & Hw & Hs & Hb & He).
      unfold ws_deliver, deliver. cbn [wv_sub]. rewrite Epc, Erx.
      destruct (s_pc s) eqn:Ep; [exact Ha|..|exact Ha];
        case_match; unfold ws_abs; cbn; rewrite ?Ep; naive_solver.
    + exact (broadcast_inv c cap evt p (MkServer _ _ s) Hp Hi).
Qed.


End Simulation.

(** ** Dropping a half-read frame *)

(** A client's frame read whole is the frame sent. *)
Lemma read_client_frame opcode mask p rest :
  0 <= opcode < 16 -> str_len mask = 4 -> str_len p <= MAX_CLIENT_FRAME ->
  read_frame (client_frame opcode mask p +:+ rest) = Ok (MkClientFrame opcode p, rest).
Proof.
  intros Ho Hm Hp.
  unfold MAX_CLIENT_FRAME in *. pose proof (str_len_nonneg p) as H0.
  pose proof (length7_range (str_len p) H0) as H7.
  rewrite client_frame_eq, !str_app_cons, !str_app_assoc. unfold read_frame.
  change (String ?a (String ?b ?r)) with (String a (String b "") +:+ r) at 1.
  rewrite (read_exact_app 2) by done. unfold byte_at. cbn [fst snd String.get].
  rewrite byte_len, byte_masked, byte_low, !byte_val_of by lia.
  replace ((128 + length7 (str_len p)) mod 128) with (length7 (str_len p))
    by (apply (Z.mod_unique _ _ 1); lia).
  rewrite frame_length_ext by (unfold u64_mod; lia). unfold MAX_CLIENT_FRAME.
  destruct (Z.ltb_spec (64 * 1024) (str_len p)); [lia|]. cbn [negb].
  destruct (Z.leb_spec 128 (128 + length7 (str_len p))); [|lia].
  rewrite (read_exact_app 4 mask) by done.
  rewrite read_exact_app by by rewrite str_len_xor_mask. rewrite xor_mask_invol.
  by replace ((128 + opcode) mod 16) with opcode by (apply (Z.mod_unique _ _ 8); lia).
Qed.

Lemma read_exact_0 s : read_exact 0 s = Ok ("", s).
Proof. by rewrite <- (str_app_nil_l s) at 1; rewrite (read_exact_app 0). Qed.

(** a ping can be read as a close.  The live loop races the reading of a
    client frame against the channel, and drops the half-finished reading when
    an event wins; the bytes it had consumed are gone.  For every payload of a
    ping under 126 bytes there is a mask with which the frame, read whole, is
    that ping, but read on from after its first two bytes is a close frame: the
    server then ends the stream of a client that only asked it to answer. *)
Theorem dropped_read_closes (p : bytes) (Hp : str_len p < 126) :
  exists mask, str_len mask = 4 /\
    (forall rest, read_frame (client_frame OP_PING mask p +:+ rest)
                  = Ok (MkClientFrame OP_PING p, rest)) /\
    exists rest', read_frame (str_drop 2 (client_frame OP_PING mask p))
                  = Ok (MkClientFrame OP_CLOSE "", rest') /\
      forall `{RepoSerde Cid} cursor log (w : WsSub), ws_pc w = PLive ->
        ws_pc (ws_step cursor (WClient Done (Ok (MkClientFrame OP_CLOSE ""))) log w) = PClosed.
Proof.
  exists (utf8 [136; 0; 0; 0]%N). split; [done|]. split.
  { intros rest. apply read_client_frame; [by unfold OP_PING|done|unfold MAX_CLIENT_FRAME; lia]. }
  rewrite client_frame_eq. unfold length_ext. destruct (Z.ltb_spec (str_len p) 126); [|lia].
  cbn [str_drop]. rewrite str_app_nil_l. eexists. split.
  - unfold utf8. cbn [map String.string_of_list_ascii]. rewrite !str_app_cons. unfold read_frame.
    change (String ?a (String ?b ?r)) with (String a (String b "") +:+ r) at 1.
    rewrite (read_exact_app 2) by done. cbn -[read_exact xor_mask].
    set (r := String zero (String zero _)).
    change (frame_length (Z.land (byte_val zero) 127) r) with (Ok (E := IoError) (0, r)).
    change (Z.land (byte_val zero) 128) with 0. cbn -[read_exact]. by rewrite read_exact_0.
  - intros Cid HS cursor log w Hw. unfold ws_step. by rewrite Hw.
Qed.

Lemma dropped_read_closes_witness :
  exists mask, str_len mask = 4 /\
    read_frame (client_frame OP_PING mask "hi") = Ok (MkClientFrame OP_PING "hi", "") /\
    exists rest', read_frame (str_drop 2 (client_frame OP_PING mask "hi"))
                  = Ok (MkClientFrame OP_CLOSE "", rest').
Proof.
  destruct (dropped_read_closes "hi" ltac:(reflexivity)) as (mask & Hm & Hr & rest' & Hc & _).
  exists mask. split; [exact Hm|]. split; [|by exists rest'].
  specialize (Hr ""). rewrite str_app_nil_r in Hr. exact Hr.
Defined.

(** ** A concrete stream *)

Section Schedule.
Context `{RepoSerde Cid}.

Inductive WsAction := WaHandler (i : WsInput) | WaCommit (body : CommitBody Cid) | WaBroadcast.

Definition ws_act (cursor : option Z) (cap : nat) (a : WsAction) (v : WsServer) : option WsServer :=
  match a with
  | WaHandler i => Some (MkWsServer (wv_log v) (wv_pending v) (ws_step cursor i (wv_log v) (wv_sub v)))
  | WaCommit body =>
      match to_vec (with_seq 0 body) with
      | Ok ev =>
          if cb_seq body =? Z.of_nat (length (wv_log v)) + 1
          then Some (MkWsServer (wv_log v ++ [(cb_seq body, ev)]) (wv_pending v ++ [event_of body])
                       (wv_sub v))
          else None
      | Err _ => None
      end
  | WaBroadcast =>
      match wv_pending v with
      | evt :: p => Some (MkWsServer (wv_log v) p (ws_deliver cap evt (wv_sub v)))
      | [] => None
      end
  end.

Fixpoint ws_acts (cursor : option Z) (cap : nat) (l : list WsAction) (v : WsServer) : option WsServer :=
  match l with
  | [] => Some v
  | a :: l => v' ← ws_act cursor cap a v; ws_acts cursor cap l v'
  end.

Lemma ws_acts_rtc cursor cap l : forall v v',
  ws_acts cursor cap l v = Some v' -> rtc (ws_server_step false cursor cap) v v'.
Proof.
  induction l as [|a l IH]; intros v v' E; cbn in E; [by simplify_eq|].
  destruct (ws_act cursor cap a v) as [v1|] eqn:Ea; [|done]. cbn in E.
  eapply rtc_l; [|by apply IH]. destruct a as [i|body|]; cbn in Ea.
  - simplify_eq. by constructor.
  - destruct (to_vec (with_seq 0 body)) as [ev|] eqn:Ev; [|done].
    destruct (Z.eqb_spec (cb_seq body) (Z.of_nat (length (wv_log v)) + 1)); simplify_eq.
    by constructor.
  - destruct (wv_pending v) as [|evt p] eqn:El; simplify_eq. by constructor.
Qed.

End Schedule.

(** A backfilled row, a ping answered, a live event. *)
Definition demo_ws_schedule : list (WsAction (Cid := string)) :=
  let turn := WaHandler (WStep true Done Done) in
  [WaCommit (demo_event 1 "did:a"); WaBroadcast; turn; turn; turn; turn; turn; turn;
   WaHandler (WClient Done (Ok (MkClientFrame OP_PING "hi"))); WaCommit (demo_event 2 "did:b");
   WaBroadcast; turn].
Definition demo_ws_start : WsServer := MkWsServer [] [] ws_fresh.
Definition demo_ws_end : WsServer :=
  default demo_ws_start (ws_acts (Some 0) 4 demo_ws_schedule demo_ws_start).

