(* ===== verification/Outbound.v ===== *)
(** * Outbound targets

    Where the servers send requests on a caller's behalf, and what guards them:
    [src/rust-core/src/identity/service.rs] (service DIDs and documents),
    [validate_appview_url] of [src/rust-pds/src/xrpc/appview/client.rs], and the
    URL a did:web document is fetched from in
    [src/rust-pds/src/identity/web_resolver.rs].  The parser of IP addresses is
    the standard library's; the URL parser is the [url] crate's. *)

From Stdlib Require Import ZArith Lia Ascii DecimalString.
From S2P Require Import Prelude RustStr Externals Demo StoreTypes MemoryStore MemoryProps OAuthCore.
From S2P Require Import Jose Dpop Client OAuthServer OAuthProps Session Repo KeyCrypto Identity.
From S2P Require Import Accounts Firehose Utf8 EmbServer.

(** ** [std::net::IpAddr] *)

Inductive IpAddr := V4 (octets : list Z) | V6 (segments : list Z).

(** The digits at the head of [s]: their value, their number, the rest. *)
Fixpoint read_digits (radix : Z) (s : string) (acc : Z) (count : nat) : Z * nat * string :=
  match s with
  | EmptyString => (acc, count, s)
  | String c r =>
      match (if radix =? 10 then if is_ascii_digit c then Some (byte_val c - 48) else None
             else to_digit16 c) with
      | Some d => read_digits radix r (acc * radix + d) (S count)
      | None => (acc, count, s)
      end
  end.

Definition read_number (radix : Z) (max_digits : nat) (max_val : Z) (allow_zero_prefix : bool)
    (s : string) : option (Z * string) :=
  let has_leading_zero := starts_with "0" s in
  let '(v, count, rest) := read_digits radix s 0 0 in
  if (max_digits <? count)%nat || Nat.eqb count 0 then None
  else if negb allow_zero_prefix && has_leading_zero && (1 <? count)%nat then None
  else if v <=? max_val then Some (v, rest) else None.

Definition read_char (c : ascii) (s : string) : option string :=
  match s with String a r => if Ascii.eqb a c then Some r else None | EmptyString => None end.

(** [read_separator]: the separator before every item but the first. *)
Definition read_separator {A} (sep : ascii) (i : nat) (inner : string -> option (A * string))
    (s : string) : option (A * string) :=
  match i with O => inner s | S _ => r ← read_char sep s; inner r end.

Fixpoint read_octets (n i : nat) (s : string) : option (list Z * string) :=
  match n with
  | O => Some ([], s)
  | S n =>
      '(o, r) ← read_separator "." i (read_number 10 3 255 false) s;
      '(os, r) ← read_octets n (S i) r;
      Some (o :: os, r)
  end.
Definition read_ipv4 : string -> option (list Z * string) := read_octets 4 0.

Definition v4_segments (os : list Z) : list Z :=
  match os with [a; b; c; d] => [a * 256 + b; c * 256 + d] | _ => [] end.

(** [read_groups]: [n] groups are left of [limit], [i] are read into [acc]. *)
Fixpoint read_groups (n limit i : nat) (s : string) (acc : list Z) : list Z * bool * string :=
  match n with
  | O => (acc, false, s)
  | S n =>
      match (if (S i <? limit)%nat then read_separator ":" i read_ipv4 s else None) with
      | Some (v4, r) => (acc ++ v4_segments v4, true, r)
      | None =>
          match read_separator ":" i (read_number 16 4 65535 true) s with
          | Some (g, r) => read_groups n limit (S i) r (acc ++ [g])
          | None => (acc, false, s)
          end
      end
  end.

Definition read_ipv6 (s : string) : option (list Z * string) :=
  let '(head, head_ipv4, r) := read_groups 8 8 0 s [] in
  if Nat.eqb (length head) 8 then Some (head, r)
  else if head_ipv4 : bool then None
  else
    r ← read_char ":" r;
    r ← read_char ":" r;
    let limit := (8 - (length head + 1))%nat in
    let '(tail, _, r) := read_groups limit limit 0 r [] in
    Some (head ++ replicate (8 - length head - length tail) 0 ++ tail, r).

(** [str::parse::<IpAddr>]. *)
Definition parse_ip (s : string) : option IpAddr :=
  match read_ipv4 s with
  | Some (os, r) => if String.eqb r "" then Some (V4 os) else None
  | None =>
      match read_ipv6 s with
      | Some (gs, r) => if String.eqb r "" then Some (V6 gs) else None
      | None => None
      end
  end.

Example parse_ip_examples :
  parse_ip "169.254.169.254" = Some (V4 [169; 254; 169; 254]) /\ parse_ip "127.0.0.01" = None /\
  parse_ip "::1" = Some (V6 [0; 0; 0; 0; 0; 0; 0; 1]) /\
  parse_ip "::ffff:10.0.0.1" = Some (V6 [0; 0; 0; 0; 0; 65535; 2560; 1]) /\
  parse_ip "fe80::1:2" = Some (V6 [65152; 0; 0; 0; 0; 0; 1; 2]) /\ parse_ip "1::2::3" = None.
Proof. by vm_compute. Qed.

(** [is_loopback], [is_private], [is_link_local] of an [Ipv4Addr]. *)
Definition v4_is_loopback (o : list Z) : bool := nth 0 o 0 =? 127.
Definition v4_is_private (o : list Z) : bool :=
  (nth 0 o 0 =? 10) || ((nth 0 o 0 =? 172) && within 16 31 (nth 1 o 0)) ||
  ((nth 0 o 0 =? 192) && (nth 1 o 0 =? 168)).
Definition v4_is_link_local (o : list Z) : bool := (nth 0 o 0 =? 169) && (nth 1 o 0 =? 254).

(** [to_ipv4_mapped]: [::ffff:a.b.c.d]. *)
Definition to_ipv4_mapped (g : list Z) : option (list Z) :=
  if bool_decide (take 6 g = [0; 0; 0; 0; 0; 65535])
  then Some [nth 6 g 0 / 256; nth 6 g 0 mod 256; nth 7 g 0 / 256; nth 7 g 0 mod 256]
  else None.

(** ** The guard of the proxy client *)

(** [Url::host_str]: an IPv6 host keeps its brackets. *)
Class UrlHost `{UrlLib} := { url_host_str : Url -> option string }.
Class UrlHostLaws `{UrlHost} := {
  url_host_str_domain u d : url_host u = Some (Domain d) -> url_host_str u = Some d;
  url_host_str_v4 u a : url_host u = Some (Ipv4 a) -> url_host_str u = Some a;
  url_host_str_v6 u a : url_host u = Some (Ipv6 a) -> url_host_str u = Some ("[" +:+ a +:+ "]");
}.

Definition v4_blocked (o : list Z) : bool :=
  v4_is_loopback o || v4_is_private o || v4_is_link_local o ||
  ((nth 0 o 0 =? 169) && (nth 1 o 0 =? 254)).

Definition ip_blocked (ip : IpAddr) : bool :=
  match ip with
  | V4 o => v4_blocked o
  | V6 g =>
      match to_ipv4_mapped g with
      | Some o => v4_blocked o
      | None =>
          bool_decide (g = [0; 0; 0; 0; 0; 0; 0; 1]) || bool_decide (g = [0; 0; 0; 0; 0; 0; 0; 0]) ||
          (Z.land (nth 0 g 0) 65024 =? 64512) || (Z.land (nth 0 g 0) 65472 =? 65152)
      end
  end.

Definition NOT_ALLOWED : XrpcError := XUpstreamFailure "upstream host not allowed".

Definition validate_appview_url `{UrlHost} (url : string) : result XrpcError unit :=
  let? parsed := map_err (fun e => XUpstreamFailure ("invalid upstream url: " +:+ e)) (Url_parse url) in
  ensure String.eqb (url_scheme parsed) "https"
    orelse XUpstreamFailure ("upstream url must be an https:// URL, got: " +:+ url) in
  let? host := ok_or (url_host_str parsed) (XUpstreamFailure "upstream url missing host") in
  match parse_ip host with
  | Some ip => if ip_blocked ip then Err NOT_ALLOWED else Ok tt
  | None =>
      if String.eqb host "localhost" || ends_with ".local" host || ends_with ".internal" host
      then Err NOT_ALLOWED else Ok tt
  end.

(** ** Service DIDs *)

Definition is_host_char (c : ascii) : bool :=
  is_ascii_alphanumeric c || Ascii.eqb c "." || Ascii.eqb c "-".

Definition did_web_endpoint (did : string) : result string string :=
  let? host := ok_or (strip_prefix "did:web:" did) "not a did:web" in
  ensure negb (String.eqb host "" || negb (all_bytes is_host_char host))
    orelse ("unsupported did:web host: " +:+ host) in
  Ok ("https://" +:+ host).

(** The [find_map] over the document's services. *)
Fixpoint find_service `{JsonMore} (wanted_short wanted_full : string) (l : list Value) : option string :=
  match l with
  | [] => None
  | svc :: l =>
      match json_as_str (json_index "id" svc) with
      | Some id =>
          if String.eqb id wanted_short || String.eqb id wanted_full then
            match json_as_str (json_index "serviceEndpoint" svc) with
            | Some e => Some e
            | None => find_service wanted_short wanted_full l
            end
          else find_service wanted_short wanted_full l
      | None => find_service wanted_short wanted_full l
      end
  end.

Definition service_endpoint_from_doc `{JsonMore} (doc : Value) (did fragment : string)
    : option string :=
  l ← json_as_array (json_index "service" doc);
  find_service ("#" +:+ fragment) (did +:+ "#" +:+ fragment) l.

(** ** Fetching a did:web document *)

(** [u8::from_str_radix(hex, 16)] of two bytes: a leading [+] is a sign. *)
Definition radix16_pair (a b : ascii) : option Z :=
  if Ascii.eqb a "+" then to_digit16 b
  else h ← to_digit16 a; l ← to_digit16 b; Some (h * 16 + l).

Fixpoint did_percent_bytes (s : string) : bytes :=
  match s with
  | EmptyString => EmptyString
  | String c r =>
      if Ascii.eqb c "%" then
        match r with
        | String a (String b r2) =>
            match radix16_pair a b with
            | Some v => String (ascii_of_N (Z.to_N v)) (did_percent_bytes r2)
            | None => String c (did_percent_bytes r)
            end
        | _ => String c (did_percent_bytes r)
        end
      else String c (did_percent_bytes r)
  end.
Definition did_percent_decode (s : string) : string := from_utf8_lossy (did_percent_bytes s).

Definition did_web_to_url (did : string) (http_dev : bool) : result CoreError string :=
  let? rest := ok_or (strip_prefix "did:web:" did)
                 (CoreInternal ("did_web_to_url: not a did:web DID: " +:+ did)) in
  ensure negb (String.eqb rest "") orelse CoreInternal "did_web_to_url: empty did:web identifier" in
  let scheme := if http_dev then "http" else "https" in
  match map did_percent_decode (split_char ":" rest) with
  | [] => Err (CoreInternal "did_web_to_url: no host in did:web DID")
  | host :: path =>
      ensure negb (String.eqb host "") orelse CoreInternal "did_web_to_url: empty host in did:web DID" in
      match path with
      | [] => Ok (scheme +:+ "://" +:+ host +:+ "/.well-known/did.json")
      | _ => Ok (scheme +:+ "://" +:+ host +:+ "/" +:+ join "/" path +:+ "/did.json")
      end
  end.

(** ** Properties of the guard *)

(** Reading digits stops at the first byte that is not one. *)
Lemma read_digits_app s c r acc n :
  all_bytes is_ascii_digit s = true -> is_ascii_digit c = false ->
  read_digits 10 (s +:+ String c r) acc n =
  let '(v, k, _) := read_digits 10 s acc n in (v, k, String c r).
Proof.
  revert acc n. induction s as [|a s IH]; simpl; intros acc n Hs Hc; [by rewrite Hc|].
  apply andb_prop in Hs as [-> Hs]. by apply IH.
Qed.

(** The decimal text of an octet. *)
Definition octet_text (o : Z) : string := NilEmpty.string_of_uint (N.to_uint (Z.to_N o)).
Arguments octet_text : simpl never.

Definition octet_reads (o : Z) : bool :=
  let s := octet_text o in
  all_bytes is_ascii_digit s && negb (starts_with "0" s && (1 <? String.length s)%nat) &&
  bool_decide (read_digits 10 s 0 0 = (o, String.length s, "")) &&
  (0 <? String.length s)%nat && (String.length s <=? 3)%nat.

Definition octet (o : Z) : Prop := 0 <= o < 256.

Lemma octets_read o : octet o -> octet_reads o = true.
Proof.
  intros Ho. assert (H : forallb (fun n => octet_reads (Z.of_nat n)) (seq 0 256) = true) by by vm_compute.
  rewrite forallb_forall in H. rewrite <- (Z2Nat.id o) by apply Ho. apply H, in_seq.
  unfold octet in Ho. lia.
Qed.

Lemma read_octet o r :
  octet o -> (r = "" \/ exists c r', r = String c r' /\ is_ascii_digit c = false) ->
  read_number 10 3 255 false (octet_text o +:+ r) = Some (o, r).
Proof.
  intros Ho Hr. pose proof (octets_read o Ho) as Hk. unfold octet_reads in Hk.
  apply andb_prop in Hk as [[[[Hd Hz]%andb_prop Hv]%andb_prop Hn]%andb_prop H3].
  apply bool_decide_eq_true in Hv. apply Nat.ltb_lt in Hn. apply Nat.leb_le in H3.
  assert (Hrd : read_digits 10 (octet_text o +:+ r) 0 0 = (o, String.length (octet_text o), r)).
  { destruct Hr as [->|(c & r' & -> & Hc)]; [by rewrite str_app_nil_r|].
    by rewrite read_digits_app, Hv. }
  assert (Hs : starts_with "0" (octet_text o +:+ r) = starts_with "0" (octet_text o)).
  { destruct (octet_text o) as [|a s]; [simpl in Hn; lia|]. rewrite str_app_cons.
    unfold starts_with. cbn [strip_prefix]. by destruct (Ascii.eqb "0" a), s, r. }
  unfold read_number. rewrite Hrd, Hs.
  replace (3 <? _)%nat with false by (symmetry; apply Nat.ltb_ge; lia).
  replace (Nat.eqb _ _) with false by (symmetry; apply Nat.eqb_neq; lia).
  apply negb_true_iff in Hz. simpl orb. simpl negb. rewrite andb_true_l, Hz.
  unfold octet in Ho. by replace (o <=? 255) with true by (symmetry; apply Z.leb_le; lia).
Qed.

(** The text of an IPv4 address. *)
Definition dotted (a b c d : Z) : string :=
  octet_text a +:+ "." +:+ octet_text b +:+ "." +:+ octet_text c +:+ "." +:+ octet_text d.

Lemma read_octets_step n i p o r :
  octet o -> (r = "" \/ exists c r', r = String c r' /\ is_ascii_digit c = false) ->
  p = (match i with O => "" | S _ => "." end) ->
  read_octets (S n) i (p +:+ octet_text o +:+ r) =
  '(os, r) ← read_octets n (S i) r; Some (o :: os, r).
Proof.
  intros Ho Hr ->. destruct i as [|i]; cbn [read_octets]; unfold read_separator;
    [rewrite str_app_nil_l|rewrite str_app_cons, str_app_nil_l; simpl read_char; cbn [mbind option_bind]];
    by rewrite read_octet.
Qed.

Lemma parse_dotted a b c d :
  octet a -> octet b -> octet c -> octet d -> parse_ip (dotted a b c d) = Some (V4 [a; b; c; d]).
Proof.
  intros Ha Hb Hc Hd. unfold parse_ip, read_ipv4, dotted.
  rewrite <- (str_app_nil_l (octet_text a +:+ _)), <- (str_app_nil_r (octet_text d)).
  rewrite !read_octets_step by (done || (right; do 2 eexists; by split) || by left).
  done.
Qed.

(** An IPv4 address no proxied request may reach. *)
Definition internal_v4 (a b c d : Z) : Prop :=
  a = 127 \/ a = 10 \/ (a = 172 /\ 16 <= b <= 31) \/ (a = 192 /\ b = 168) \/ (a = 169 /\ b = 254).

Lemma v4_blocked_spec a b c d : v4_blocked [a; b; c; d] = true <-> internal_v4 a b c d.
Proof.
  unfold v4_blocked, v4_is_loopback, v4_is_private, v4_is_link_local, internal_v4, within.
  simpl. rewrite !orb_true_iff, !andb_true_iff, !Z.eqb_eq, !Z.leb_le. lia.
Qed.

(** the guard on the upstream of a proxied request.  A URL whose host is an
    IPv4 address passes exactly when its scheme is [https] and the address is
    not loopback, private or link-local (which holds the cloud metadata
    address); a URL whose host is a name, not an address, passes exactly when
    its scheme is [https] and the name is not [localhost] and ends neither in
    [.local] nor in [.internal]. *)
Theorem ssrf_guard `{UrlHostLaws} url u :
  Url_parse url = Ok u ->
  (forall a b c d, octet a -> octet b -> octet c -> octet d -> url_host u = Some (Ipv4 (dotted a b c d)) ->
     validate_appview_url url = Ok tt <-> url_scheme u = "https" /\ ~ internal_v4 a b c d) /\
  (forall h, url_host u = Some (Domain h) -> parse_ip h = None ->
     validate_appview_url url = Ok tt <->
     url_scheme u = "https" /\ h <> "localhost" /\ ends_with ".local" h = false /\
     ends_with ".internal" h = false).
Proof.
  intros Hu. unfold validate_appview_url. rewrite Hu. simpl. split.
  - intros a b c d Ha Hb Hc Hd Hh. rewrite (url_host_str_v4 _ _ Hh), <- v4_blocked_spec. simpl.
    rewrite parse_dotted by done. unfold ip_blocked.
    destruct (String.eqb_spec (url_scheme u) "https"), (v4_blocked _); naive_solver.
  - intros h Hh Hip. rewrite (url_host_str_domain _ _ Hh). simpl. rewrite Hip.
    destruct (String.eqb_spec (url_scheme u) "https"), (String.eqb_spec h "localhost"),
      (ends_with ".local" h), (ends_with ".internal" h); naive_solver.
Qed.

(** A URL library that tells the kinds of host apart. *)
Definition classify_host (h : string) : Host :=
  match strip_prefix "[" h with
  | Some r => Ipv6 (before_char "]" r)
  | None => match parse_ip h with Some (V4 _) => Ipv4 h | _ => Domain h end
  end.
#[local] Instance net_urls : UrlLib := {
  Url := demo_url;
  Url_parse := @Url_parse demo_urls;
  url_scheme := du_scheme;
  url_username _ := "";
  url_password _ := None;
  url_fragment _ := None;
  url_host u := Some (classify_host (du_host u));
  url_port _ := None;
  url_path := du_path;
  url_query _ := None;
  url_query_pairs _ := [];
  url_as_str := du_raw;
}.
#[local] Instance net_hosts : @UrlHost net_urls := {
  url_host_str u := match classify_host (du_host u) with
                    | Domain d => Some d | Ipv4 a => Some a | Ipv6 a => Some ("[" +:+ a +:+ "]")
                    end
}.
#[local] Instance net_host_laws : UrlHostLaws.
Proof. split; simpl; intros u x [= E]; by rewrite E. Defined.

Lemma ssrf_guard_witness :
  validate_appview_url "https://169.254.169.254/" <> Ok tt /\
  validate_appview_url "https://api.bsky.app/" = Ok tt.
Proof.
  split.
  - intros HE.
    destruct (@ssrf_guard net_urls net_hosts net_host_laws "https://169.254.169.254/"
      {| du_raw := "https://169.254.169.254/"; du_scheme := "https"; du_host := "169.254.169.254";
         du_path := "/" |} eq_refl) as [Hv4 _].
    destruct (proj1 (Hv4 169 254 169 254 ltac:(by split) ltac:(by split) ltac:(by split) ltac:(by split)
      eq_refl) HE) as [_ Hn].
    apply Hn. unfold internal_v4. lia.
  - destruct (@ssrf_guard net_urls net_hosts net_host_laws "https://api.bsky.app/"
      {| du_raw := "https://api.bsky.app/"; du_scheme := "https"; du_host := "api.bsky.app";
         du_path := "/" |} eq_refl) as [_ Hd].
    apply (proj2 (Hd "api.bsky.app" eq_refl eq_refl)). split_and!; [reflexivity|discriminate|reflexivity|reflexivity].
Defined.

(** No bracketed host is an address to the standard parser, nor a blocked name. *)
Lemma bracketed_not_ip s : parse_ip ("[" +:+ s) = None.
Proof. reflexivity. Qed.

Lemma ends_with_app p a b s :
  Ascii.eqb a b = false -> ends_with (p +:+ String a "") (s +:+ String b "") = false.
Proof.
  intros Hab. unfold ends_with, strip_suffix.
  assert (Hr : forall x c, String.rev (x +:+ String c "") = String c (String.rev x)).
  { intros x c. unfold String.rev.
    assert (Hg : forall acc, String.rev_app (x +:+ String c "") acc = String c (String.rev_app x acc))
      by (induction x as [|y x IH]; intros acc; [done|apply IH]).
    apply Hg. }
  rewrite !Hr. cbn [strip_prefix]. by rewrite Hab.
Qed.

(** the guard does not see IPv6 hosts.  [Url::host_str] writes an IPv6 host in
    brackets, which the address parser refuses, so the branch that blocks
    loopback, unspecified, unique-local, link-local and IPv4-mapped addresses is
    never reached: every [https] URL of an IPv6 host passes, [[::1]] and
    [[::ffff:169.254.169.254]] included, although [ip_blocked] refuses those
    addresses. *)
Theorem ssrf_guard_ipv6_hole `{UrlHostLaws} url u a :
  Url_parse url = Ok u -> url_scheme u = "https" -> url_host u = Some (Ipv6 a) ->
  validate_appview_url url = Ok tt /\
  (exists g, parse_ip "::1" = Some (V6 g) /\ ip_blocked (V6 g) = true) /\
  (exists g, parse_ip "::ffff:169.254.169.254" = Some (V6 g) /\ ip_blocked (V6 g) = true).
Proof.
  intros Hu Hs Hh. unfold validate_appview_url. rewrite Hu. simpl.
  rewrite Hs, (url_host_str_v6 _ _ Hh). simpl "=?"%string. cbn iota. split_and!.
  - cbn [ok_or]. rewrite bracketed_not_ip.
    pose proof (ends_with_app ".loca" "l" "]" ("[" +:+ a) eq_refl) as Hl.
    pose proof (ends_with_app ".interna" "l" "]" ("[" +:+ a) eq_refl) as Hi.
    change (ends_with ".local" ("[" +:+ a +:+ "]") = false) in Hl.
    change (ends_with ".internal" ("[" +:+ a +:+ "]") = false) in Hi. by rewrite Hl, Hi.
  - exists [0; 0; 0; 0; 0; 0; 0; 1]. split; vm_compute; reflexivity.
  - exists [0; 0; 0; 0; 0; 65535; 43518; 43518]. split; vm_compute; reflexivity.
Qed.

Lemma ssrf_guard_ipv6_hole_witness : validate_appview_url "https://[::1]/" = Ok tt.
Proof.
  apply (@ssrf_guard_ipv6_hole net_urls net_hosts net_host_laws "https://[::1]/"
    {| du_raw := "https://[::1]/"; du_scheme := "https"; du_host := "[::1]"; du_path := "/" |} "::1" eq_refl);
    reflexivity.
Defined.
