(* ===== verification/IdentityXrpc.v ===== *)
(** * Identity and preference endpoints, and what the server asks of others

    [src/rust-pds/src/xrpc/identity.rs] and [preferences.rs], the resolver of
    did:web DIDs in [src/rust-pds/src/identity/web_resolver.rs], and the client
    that asks a relay to crawl in [src/rust-pds/src/firehose/crawl.rs].  A
    request to another host is appended to what was sent, and answered by a
    parameter. *)

From Stdlib Require Import ZArith Lia Ascii.
From S2P Require Import Prelude RustStr Externals Demo StoreTypes MemoryStore MemoryProps OAuthCore.
From S2P Require Import Jose Dpop Client OAuthServer OAuthProps Session Repo RepoDemo KeyCrypto RepoWriter RepoProps Identity.
From S2P Require Import Accounts AccountProps Firehose Utf8 EmbServer Outbound.

(** ** Handlers *)

Section Handlers.
Context {St Cid : Type} `{StorageBackend Cid St} `{KeypairIO} `{KeyCiphers}.
Context {Value : Type} `{Serde (list Value)}.
Variable state : AppState.

Notation M A := (SE St XrpcError A).

Definition i_store {A} (m : SE St StorageError A) : M A := with_err xrpc_of_storage m.

Definition resolve_handle (handle : option string) : M string :=
  (let! handle := lift (ok_or handle (XInvalidRequest "missing required query param: handle")) in
   let! did := i_store (get_did_by_handle handle) in
   lift (ok_or did XHandleNotFound))%se.

Definition well_known_atproto_did : M string :=
  (let! did := i_store (get_did_by_handle (st_hostname state)) in
   lift (ok_or did XHandleNotFound))%se.

(** Any failure of [load_key], a wrong passphrase included, is a 404. *)
Definition well_known_did_json : M DidDocument :=
  (let did := did_web (st_hostname state) in
   let! key_bytes := with_err (fun _ => XHandleNotFound) (load_key (did +:+ "#signing") (st_key_passphrase state)) in
   let! signing := lift (map_err (fun e => XInternal ("bad signing key: " +:+ e)) (kp_import key_bytes)) in
   ret (did_web_document (st_hostname state) signing (st_pds_endpoint state)))%se.

(** [did] is the authenticated caller's. *)
Definition get_preferences_of (did : string) : M (list Value) :=
  (let! stored := i_store (get_preferences did) in
   match stored with
   | None => ret []
   | Some json_str => lift (map_err (fun e => XInternal ("prefs decode: " +:+ e)) (from_slice json_str))
   end)%se.

Definition put_preferences_of (did : string) (preferences : list Value) : M unit :=
  (let! json_str := lift (map_err (fun e => XInternal ("prefs encode: " +:+ e)) (to_vec preferences)) in
   i_store (upsert_preferences did json_str))%se.

End Handlers.

(** ** Resolving a did:web *)

Definition is_success (status : Z) : bool := (200 <=? status) && (status <? 300).

Section Resolver.
Context {Value : Type}.
(** [StatusCode]'s [Display]. *)
Variable status_text : Z -> string.
Variable http_dev : bool.
(** The answer to a GET: an error of the transport, or a status and a body,
    which parses or not. *)
Variable answer : string -> result string (Z * result string Value).

Definition did_web_resolve (did : string) : SE (list string) CoreError Value :=
  (let! url := lift (did_web_to_url did http_dev) in
   let! resp := (fun sent => (map_err (fun e => CoreInternal ("did:web resolve GET failed: " +:+ e)) (answer url), sent ++ [url])) in
   let '(status, body) := resp in
   assert_or (is_success status) (CoreInternal ("did:web resolve got " +:+ status_text status)) ;;!
   lift (map_err (fun e => CoreInternal ("did:web resolve parse failed: " +:+ e)) body))%se.

End Resolver.

(** ** Asking a relay to crawl *)

Definition crawl_url (relay_url : string) : string := relay_url +:+ "/xrpc/com.atproto.sync.requestCrawl".

Definition relay_ip_blocked (ip : IpAddr) : bool :=
  match ip with
  | V4 o => v4_blocked o
  | V6 g => bool_decide (g = [0; 0; 0; 0; 0; 0; 0; 1]) || bool_decide (g = [0; 0; 0; 0; 0; 0; 0; 0])
  end.

Definition RELAY_NOT_ALLOWED : XrpcError := XInternal "relay_url host not allowed".

Definition validate_relay_url `{UrlHost} (relay_url : string) : result XrpcError unit :=
  let? url := map_err (fun e => XInternal ("invalid relay_url: " +:+ e)) (Url_parse relay_url) in
  ensure String.eqb (url_scheme url) "https"
    orelse XInternal ("relay_url must be an https:// URL, got: " +:+ relay_url) in
  let? host := ok_or (url_host_str url) (XInternal "relay_url missing host") in
  match parse_ip host with
  | Some ip => if relay_ip_blocked ip then Err RELAY_NOT_ALLOWED else Ok tt
  | None =>
      if String.eqb host "localhost" || ends_with ".local" host || ends_with ".internal" host
      then Err RELAY_NOT_ALLOWED else Ok tt
  end.

(** A POST to a relay: the URL, and the hostname in its body. *)
Record CrawlPost := MkCrawlPost { cw_url : string; cw_hostname : string }.

Definition request_crawl `{UrlHost} (status_text : Z -> string) (answer : CrawlPost -> result string Z) (relay_url pds_hostname : string) :
    SE (list CrawlPost) XrpcError unit :=
  (lift (validate_relay_url relay_url) ;;!
   let post := MkCrawlPost (crawl_url relay_url) pds_hostname in
   let! status := (fun sent => (map_err (fun e => XInternal ("requestCrawl POST failed: " +:+ e)) (answer post), sent ++ [post])) in
   assert_or (is_success status) (XInternal ("relay returned status " +:+ status_text status)))%se.

(** ** Properties *)

Section Properties.
Context {Cid : Type} `{Countable Cid} `{KeypairIOLaws} `{KeyCipherLaws}.
Context {Value : Type} `{SerdeLaws (list Value)}.
Variable state : AppState.
Implicit Types g : Inner Cid.

(** a handle resolves to the account that holds it: exactly for the handle of a
    visible account resolveHandle answers its DID, and
    [/.well-known/atproto-did] answers what resolveHandle answers for the
    server's own name; nothing is changed. *)
Theorem resolve_handle_exact g handle did (Hg : account_inv g) :
  (resolve_handle (Some handle) g = (Ok did, g) <->
   exists a, accounts g !! did = Some a /\ a_handle a = Some handle /\ account_visible a = true) /\
  well_known_atproto_did state g = resolve_handle (Some (st_hostname state)) g /\
  snd (resolve_handle (Some handle) g) = g.
Proof.
  unfold resolve_handle, well_known_atproto_did, i_store, bind, with_err, lift. cbn. split_and!; [|done..].
  split.
  - destruct (active_by_handle handle g) as [a|] eqn:E; cbn; intros [= <-].
    exists a. by apply active_by_handle_Some.
  - intros (a & Ha & Hh & Hv). pose proof (proj1 Hg _ _ Ha) as <-.
    by rewrite (proj2 (active_by_handle_Some g handle a Hg)) by done.
Qed.

(** the did:web document the server publishes is that of its stored key: once
    the signing key of [did:web:<hostname>] is stored under the server's
    passphrase, [/.well-known/did.json] answers the document of that key. *)
Theorem did_json_published salt nonce k g g'
    (Hs : str_len salt = 16) (Hn : str_len nonce = 12)
    (Hstore : store_key salt nonce (did_web (st_hostname state) +:+ "#signing") (kp_export k) (st_key_passphrase state) g = (Ok tt, g')) :
  well_known_did_json state g' = (Ok (did_web_document (st_hostname state) k (st_pds_endpoint state)), g').
Proof.
  apply store_key_Ok in Hstore as (b & Hb & ->). apply (decrypt_encrypt _ _ _ _ _ Hs Hn) in Hb.
  unfold well_known_did_json, with_err, load_key, bind, lift. cbn. rewrite lookup_insert_eq. cbn. rewrite Hb. cbn.
  by rewrite kp_import_export.
Qed.

(** preferences read back as they were put, and no other account's change. *)
Theorem preferences_read_back did l g g' (Hput : put_preferences_of did l g = (Ok tt, g')) :
  get_preferences_of did g' = (Ok l, g') /\
  forall did', did' <> did -> fst (get_preferences_of (Value := Value) did' g') = fst (get_preferences_of did' g).
Proof.
  unfold put_preferences_of in Hput. apply bind_Ok in Hput as (b & g1 & E & Hput). injection E as E <-.
  apply map_err_Ok in E. cbn in Hput. injection Hput as <-.
  unfold get_preferences_of, bind, i_store, with_err, lift. cbn. split.
  - rewrite lookup_insert_eq. by rewrite (from_slice_to_vec _ _ E).
  - intros did' Hne. rewrite lookup_insert_ne by done. cbn. by destruct (prefs g !! did').
Qed.
End Properties.

Section Outgoing.
Context `{UrlHost}.

(** the guard on the relay is the guard on the upstream.  [host_str] writes an
    IPv6 host in brackets, so neither guard ever sees an IPv6 address; for every
    other URL they decide alike, though the relay's knows fewer IPv6 ranges. *)
Theorem relay_guard_agrees url
    (Hbrackets : forall u h g, Url_parse url = Ok u -> url_host_str u = Some h -> parse_ip h <> Some (V6 g)) :
  is_ok (validate_relay_url url) = is_ok (validate_appview_url url).
Proof.
  unfold validate_relay_url, validate_appview_url. destruct (Url_parse url) as [u|]; [cbn [map_err]|done].
  destruct (String.eqb _ "https"); [|done]. destruct (url_host_str u) as [h|] eqn:Eh; [cbn [ok_or]|done].
  destruct (parse_ip h) as [[o|g]|] eqn:Ei.
  - cbn. by destruct (v4_blocked o).
  - by destruct (Hbrackets u h g eq_refl Eh).
  - by destruct (_ || _).
Qed.

(** a crawl request goes nowhere but to the relay it was asked for, once, and
    only past the guard; it succeeds exactly when the relay answered with a
    success. *)
Theorem crawl_posts_guarded status_text (answer : CrawlPost -> result string Z) relay host sent r sent'
    (Hrun : request_crawl status_text answer relay host sent = (r, sent')) :
  let post := MkCrawlPost (crawl_url relay) host in
  (sent' = sent /\ is_err r = true /\ is_err (validate_relay_url relay) = true \/
   sent' = sent ++ [post] /\ validate_relay_url relay = Ok tt) /\
  (is_ok r = true <-> validate_relay_url relay = Ok tt /\ exists status, answer post = Ok status /\ is_success status = true).
Proof.
  intros post. revert Hrun. unfold request_crawl, bind, lift. destruct (validate_relay_url relay) as [[]|e] eqn:Ev.
  - fold post. destruct (answer post) as [status|e] eqn:Ea; cbn [map_err].
    + unfold assert_or. destruct (is_success status) eqn:Es; intros [= <- <-]; split; (try by right); cbn.
      * split; [by eauto|done].
      * split; [done|]. intros (_ & st & [= <-] & ?). congruence.
    + intros [= <- <-]. split; [by right|]. cbn. split; [done|]. by intros (_ & st & ? & _).
  - intros [= <- <-]. split; [by left|]. cbn. split; [done|]. by intros (? & _).
Qed.
End Outgoing.

(** ** Witnesses *)

Definition demo_host : AppState := MkAppState "hmac" "al.test" "https://al.test" false "pass".

Lemma resolve_handle_exact_witness :
  resolve_handle (St := Inner string) (Some "nobody.test") Inner_default = (Err XHandleNotFound, Inner_default) /\
  ~ exists a, accounts (Inner_default : Inner string) !! "did:a" = Some a /\ a_handle a = Some "nobody.test" /\ account_visible a = true.
Proof.
  split; [reflexivity|]. intros Ha.
  apply (proj1 (resolve_handle_exact (Cid := string) demo_host Inner_default "nobody.test" "did:a" account_inv_default)) in Ha.
  discriminate Ha.
Defined.

Lemma did_json_published_witness :
  exists g', store_key (St := Inner string) "0123456789abcdef" "0123456789ab" "did:web:al.test#signing" (kp_export (demo_keys "k")) "pass" Inner_default = (Ok tt, g') /\
    fst (well_known_did_json demo_host g') = Ok (did_web_document "al.test" (demo_keys "k") "https://al.test").
Proof.
  destruct (store_key (St := Inner string) "0123456789abcdef" "0123456789ab" "did:web:al.test#signing" (kp_export (demo_keys "k")) "pass" Inner_default)
    as [[[]|e] g'] eqn:E; [|exfalso; apply (f_equal (fun x => is_ok (fst x))) in E; vm_compute in E; discriminate E].
  exists g'. split; [reflexivity|].
  rewrite (did_json_published (Cid := string) demo_host "0123456789abcdef" "0123456789ab" (demo_keys "k") Inner_default g' eq_refl eq_refl E). reflexivity.
Defined.

#[local] Existing Instance net_urls.
#[local] Existing Instance net_hosts.

Lemma crawl_posts_guarded_witness :
  fst (request_crawl (fun _ => "") (fun _ => Ok 200) "https://relay.test/" "al.test" []) = Ok tt /\
  snd (request_crawl (fun _ => "") (fun _ => Ok 200) "http://relay.test/" "al.test" []) = [].
Proof.
  split.
  - destruct (request_crawl (fun _ => "") (fun _ => Ok 200) "https://relay.test/" "al.test" []) as [r sent] eqn:E.
    destruct (crawl_posts_guarded _ _ _ _ _ _ _ E) as [_ Hok]. cbn [fst].
    destruct r as [[]|e]; [reflexivity|]. exfalso.
    assert (is_ok (Err e : result XrpcError unit) = true) as Hf by (apply Hok; split; [reflexivity|by exists 200]). discriminate Hf.
  - destruct (request_crawl (fun _ => "") (fun _ => Ok 200) "http://relay.test/" "al.test" []) as [r sent] eqn:E.
    destruct (crawl_posts_guarded _ _ _ _ _ _ _ E) as [[(-> & _)|[_ Hv]] _]; [reflexivity|discriminate Hv].
Defined.
