(* ===== verification/Clients.v ===== *)
(** * The clients that make requests

    [src/rust-pds/src/xrpc/oauth/client_resolver.rs], which fetches an OAuth
    client's metadata, and the two clients of the PLC directory:
    [src/rust-pds/src/identity/plc/reqwest_client.rs] and
    [src/rust-worker/src/plc.rs].  What is sent is appended to a log; what comes
    back, redirects followed or refused, is a parameter.  The body of a refused
    PLC operation is read and not used. *)

From Stdlib Require Import ZArith Lia Ascii.
From stdpp Require Import pretty.
From S2P Require Import Prelude RustStr Externals Demo StoreTypes OAuthCore Jose Client Session Identity.
From S2P Require Import Accounts AccountProps Outbound IdentityXrpc.

(** An answer: its status, the length it announces, and its body or why reading
    it failed. *)
Record HttpAnswer := MkAnswer {
  an_status : Z;
  an_content_length : option Z;
  an_body : result string bytes;
}.

Section MetadataClient.
Context `{Digests} `{Json} `{Ecdsa} `{UrlLib} `{!UrlHost} `{Serde ClientMetadata}.
(** [reqwest] without redirects, and [StatusCode]'s [Display]; [usize_mod] is the
    number of values of a [usize]. *)
Variable http_get : string -> result string HttpAnswer.
Variable status_text : Z -> string.
Variable usize_mod : Z.

Definition MAX_METADATA_BYTES : Z := 64 * 1024.

Notation C A := (SE (list string) OAuthError A).

Definition send_get (url : string) : C HttpAnswer :=
  fun sent => (map_err (fun e => InvalidClient ("could not fetch client metadata: " +:+ e)) (http_get url),
               sent ++ [url]).

Definition TOO_LARGE : OAuthError := InvalidClient "client metadata document is too large".

(** [HttpClientResolver::resolve]. *)
Definition http_resolve (client_id : ClientId) : C ClientMetadata :=
  match loopback_metadata client_id with
  | Some metadata => (lift (metadata_validate metadata client_id) ;;! ret metadata)%se
  | None =>
      (let url := ClientId_as_str client_id in
       let! resp := send_get url in
       assert_or (is_success (an_status resp))
         (InvalidClient ("client metadata request returned HTTP " +:+ status_text (an_status resp))) ;;!
       match an_content_length resp with
       | Some len => assert_or (negb (MAX_METADATA_BYTES <? len mod usize_mod)) TOO_LARGE
       | None => ret tt
       end ;;!
       let! body := lift (map_err (fun e => InvalidClient ("could not read client metadata: " +:+ e)) (an_body resp)) in
       assert_or (negb (MAX_METADATA_BYTES <? str_len body)) TOO_LARGE ;;!
       let! metadata := lift (map_err (fun e => InvalidClient ("client metadata is not valid JSON: " +:+ e))
                                (from_slice body)) in
       lift (metadata_validate metadata client_id) ;;!
       ret metadata)%se
  end.

(** [StaticClientResolver::resolve]. *)
Definition static_resolve (clients : list (string * ClientMetadata)) (client_id : ClientId)
    : result OAuthError ClientMetadata :=
  match loopback_metadata client_id with
  | Some metadata => let? _v := metadata_validate metadata client_id in Ok metadata
  | None =>
      let? found := ok_or (option_map snd (find (fun c => String.eqb (fst c) (ClientId_as_str client_id)) clients))
                      (InvalidClient "unknown client") in
      let? _v := metadata_validate found client_id in Ok found
  end.

(** metadata is vouched for by its own URL.  Resolving a client sends at most
    one request, to the URL that is the client's identifier, and none for a
    loopback client; metadata that is answered passed validation under that very
    identifier, and if fetched came as a success of at most 64 KiB, whatever
    length was announced. *)
Theorem client_metadata_vouched c sent r sent'
    (Hrun : http_resolve c sent = (r, sent')) :
  match c with
  | Loopback _ _ _ => sent' = sent
  | Web url => sent' = sent ++ [url_as_str url]
  end /\
  forall m, r = Ok m -> metadata_validate m c = Ok tt /\
    (loopback_metadata c = Some m \/
     exists resp body, http_get (ClientId_as_str c) = Ok resp /\ is_success (an_status resp) = true /\
       an_body resp = Ok body /\ str_len body <= MAX_METADATA_BYTES /\ from_slice body = Ok m).
Proof.
  unfold http_resolve in Hrun. destruct c as [url|uris scope raw]; cbn [loopback_metadata] in *.
  - split.
    + unfold bind at 1, send_get in Hrun. cbn [ClientId_as_str] in Hrun.
      destruct (map_err _ (http_get (url_as_str url))) as [resp|e]; [|by injection Hrun as _ <-].
      unfold bind, assert_or, throw, lift, ret in Hrun.
      repeat (case_match; simplify_eq/=; try done).
    + intros m ->. apply bind_Ok in Hrun as (resp & s1 & E1 & E). unfold send_get in E1. injection E1 as E1 _.
      apply map_err_Ok in E1. apply bind_Ok in E as ([] & s2 & E2 & E). apply assert_or_Ok in E2 as [Hs _].
      apply bind_Ok in E as ([] & s3 & _ & E). apply bind_Ok in E as (body & s4 & E4 & E).
      unfold lift in E4. injection E4 as E4 _. apply map_err_Ok in E4.
      apply bind_Ok in E as ([] & s5 & E5 & E). apply assert_or_Ok in E5 as [Hl _].
      apply bind_Ok in E as (m' & s6 & E6 & E). unfold lift in E6. injection E6 as E6 _. apply map_err_Ok in E6.
      apply bind_Ok in E as ([] & s7 & E7 & E). unfold lift in E7. injection E7 as E7 _.
      unfold ret in E. injection E as -> _. split; [done|]. right. exists resp, body. split_and!; try done.
      apply negb_true_iff, Z.ltb_ge in Hl. exact Hl.
  - unfold bind, lift, ret in Hrun. destruct (metadata_validate _ _) as [[]|e] eqn:E; injection Hrun as <- <-.
    + split; [done|]. intros m [= <-]. split; [exact E|by left].
    + by split.
Qed.

End MetadataClient.

(** ** The PLC directory *)

Section PlcClients.
Context `{PlcLib}.
(** The directory's answer to a post: its status. *)
Variable http_post : string -> PlcGenesisOpSigned -> result string Z.
Variable status_text : Z -> string.

Definition plc_url (directory did : string) : string := directory +:+ "/" +:+ did.

Definition DEFAULT_PLC_DIRECTORY : string := "https://plc.directory".

(** [ReqwestPlcClient::post_operation]: [reqwest] serialises the operation as it
    sends it. *)
Definition reqwest_post_operation (directory did : string) (gop : PlcGenesisOpSigned) : result CoreError unit :=
  let? status := map_err (fun e => CoreInternal ("plc.directory POST failed: " +:+ e))
                   (let? _b := to_vec gop in http_post (plc_url directory did) gop) in
  ensure is_success status orelse CoreInternal ("plc.directory returned " +:+ status_text status) in
  Ok tt.

(** [FetchPlcClient::post_operation]. *)
Definition fetch_post_operation (directory did : string) (gop : PlcGenesisOpSigned) : result CoreError unit :=
  let? _body := map_err (fun e => CoreInternal ("serialize plc op: " +:+ e)) (to_vec gop) in
  let? status := map_err (fun e => CoreInternal ("plc.directory POST failed: " +:+ e))
                   (http_post (plc_url directory did) gop) in
  if (200 <=? status) && (status <? 300) then Ok tt
  else Err (CoreInternal ("plc.directory returned " +:+ pretty status)).

(** the two PLC clients agree.  On the same network the server's client and the
    worker's accept the same operations. *)
Theorem plc_clients_agree directory did gop :
  is_ok (reqwest_post_operation directory did gop) = is_ok (fetch_post_operation directory did gop).
Proof.
  unfold reqwest_post_operation, fetch_post_operation, is_success.
  destruct (to_vec gop) as [b|e]; [|done]. cbn.
  destruct (http_post _ _) as [status|e]; [|done]. cbn. by destruct (_ && _).
Qed.

End PlcClients.
