(* ===== verification/Follower.v ===== *)
(** * The demo follower of the firehose

    [src/rust-pds/src/bin/firehose-tail.rs]: a program that follows a stream,
    verifies the signature of every commit in it and prints a line for each.
    What it prints is its result; the socket's messages and what other hosts
    answer are parameters, and what it fetches is logged. *)

From Stdlib Require Import ZArith Lia Ascii.
From stdpp Require Import pretty.
From S2P Require Import Prelude RustStr Externals Demo StoreTypes MemoryStore MemoryProps Repo RepoWriter RepoDemo RepoProps.
From S2P Require Import Identity Accounts AccountProps Session Firehose Tail EmbServer Outbound IdentityXrpc.

(** ** Arguments *)

Record TailArgs := MkTailArgs {
  ta_url : string;
  ta_cursor : option Z;
  ta_did_key : option string;
  ta_demo_did : option string;
  ta_json : bool;
}.

Definition TailArgs_default : TailArgs :=
  MkTailArgs "ws://localhost:3000/xrpc/com.atproto.sync.subscribeRepos" None None None false.

(** The [while] loop over the arguments after the program's name; leaving with
    [exit(1)] is the error.  An unknown argument is skipped. *)
Fixpoint parse_args (args : list string) (a : TailArgs) : result string TailArgs :=
  match args with
  | [] => Ok a
  | flag :: args =>
      if String.eqb flag "--url" then
        match args with
        | v :: args => parse_args args (MkTailArgs v (ta_cursor a) (ta_did_key a) (ta_demo_did a) (ta_json a))
        | [] => Err "error: --url requires a value"
        end
      else if String.eqb flag "--cursor" then
        match args with
        | v :: args =>
            match parse_i64 v with
            | Some n => parse_args args (MkTailArgs (ta_url a) (Some n) (ta_did_key a) (ta_demo_did a) (ta_json a))
            | None => Err "error: --cursor must be an integer"
            end
        | [] => Err "error: --cursor requires a value"
        end
      else if String.eqb flag "--did-key" then
        match args with
        | v :: args => parse_args args (MkTailArgs (ta_url a) (ta_cursor a) (Some v) (ta_demo_did a) (ta_json a))
        | [] => Err "error: --did-key requires a value"
        end
      else if String.eqb flag "--demo-did" then
        match args with
        | v :: args => parse_args args (MkTailArgs (ta_url a) (ta_cursor a) (ta_did_key a) (Some v) (ta_json a))
        | [] => Err "error: --demo-did requires a value"
        end
      else if String.eqb flag "--json" then
        parse_args args (MkTailArgs (ta_url a) (ta_cursor a) (ta_did_key a) (ta_demo_did a) true)
      else parse_args args a
  end.

Definition connect_url (a : TailArgs) : string :=
  match ta_cursor a with Some c => ta_url a +:+ "?cursor=" +:+ pretty c | None => ta_url a end.

(** ** The key of a repository *)

(** The check on a host before anything is asked of it. *)
Definition is_safe_web_host (host : string) : bool :=
  if String.eqb host "" || (253 <? str_len host) then false
  else if negb (all_bytes is_host_char host) then false
  else
    match parse_ip host with
    | Some ip => negb (relay_ip_blocked ip)
    | None => negb (String.eqb host "localhost" || ends_with ".local" host || ends_with ".internal" host)
    end.

Section Resolution.
Context `{JsonMore}.
(** A GET: an error of the transport, or a body, which parses or not. *)
Variable answer : string -> result string (result string Value).

Notation R A := (SE (list string) string A).

Definition fetch_json (what url : string) : R Value :=
  (let! body := (fun sent => (map_err (fun e => what +:+ " fetch: " +:+ e) (answer url), sent ++ [url])) in
   lift (map_err (fun e => what +:+ " json: " +:+ e) body))%se.

Definition resolve_plc (did : string) : R string :=
  (assert_or (all_bytes (fun c => is_ascii_alphanumeric c || Ascii.eqb c ":") did)
     ("invalid did:plc characters: " +:+ did) ;;!
   let! json := fetch_json "plc" ("https://plc.directory/" +:+ did) in
   lift (ok_or (m ← json_get "verificationMethods" json; v ← json_get "atproto" m; json_as_str v)
           "plc: verificationMethods.atproto not found in response"))%se.

(** The [for] loop over the verification methods. *)
Fixpoint find_method (id : string) (entries : list Value) : result string string :=
  match entries with
  | [] => Err ("did:web: no verificationMethod with id=" +:+ id)
  | entry :: entries =>
      if bool_decide ((json_get "id" entry ≫= json_as_str) = Some id) then
        let? multibase := ok_or (json_get "publicKeyMultibase" entry ≫= json_as_str)
                            "did:web: publicKeyMultibase missing" in
        Ok ("did:key:" +:+ multibase)
      else find_method id entries
  end.

Definition resolve_web (did : string) : R string :=
  (let suffix := default did (strip_prefix "did:web:" did) in
   assert_or (negb (contains_char ":" suffix)) ("did:web path DIDs not supported in demo resolver: " +:+ did) ;;!
   assert_or (is_safe_web_host suffix) ("did:web host not allowed: " +:+ did) ;;!
   let! json := fetch_json "web" ("https://" +:+ suffix +:+ "/.well-known/did.json") in
   let! vm_array := lift (ok_or (json_get "verificationMethod" json ≫= json_as_array)
                            "did:web: verificationMethod array not found") in
   lift (find_method (did +:+ "#atproto") vm_array))%se.

Definition resolve_did_key (repo : string) : R string :=
  if starts_with "did:plc:" repo then resolve_plc repo
  else if starts_with "did:web:" repo then resolve_web repo
  else throw ("unsupported DID method: " +:+ repo).

End Resolution.

(** ** The loop *)

(** What the socket yields; pings, pongs, texts and raw frames are [MOther]. *)
Inductive WsMessage := MBinary (b : bytes) | MClose | MTransport (e : string) | MOther.

Record CommitLine := MkLine {
  ln_seq : Z;
  ln_repo : string;
  ln_rev : string;
  ln_ops : nat;
  ln_sig : result string unit;
  ln_mine : bool;
}.

Inductive Printed := PDecodeError (e : TailError) | PCommit (l : CommitLine).

Section Loop.
Context `{JsonMore} {Cid : Type} `{CidLib Cid} `{EqDecision Cid} `{RepoSerde Cid} `{!TailLib Cid}.
Variable answer : string -> result string (result string Value).
(** [TailError]'s [Debug]. *)
Variable tail_debug : TailError -> string.

Notation R A := (SE (list string) string A).

Definition commit_line (a : TailArgs) (body : CommitBody Cid) : R CommitLine :=
  (let! key_res := match ta_did_key a with
                   | Some k => ret (Ok k)
                   | None => catch (resolve_did_key answer (cb_repo body))
                   end in
   let sig_res := match key_res with
                  | Ok k => map_err tail_debug (verify_commit_sig body k)
                  | Err e => Err ("resolve: " +:+ e)
                  end in
   ret (MkLine (cb_seq body) (cb_repo body) (cb_rev body) (length (cb_ops body)) sig_res
          (bool_decide (Some (cb_repo body) = ta_demo_did a))))%se.

Definition on_frame (a : TailArgs) (frame : bytes) : R (list Printed) :=
  match decode_commit_frame frame with
  | Err NotCommit => ret []
  | Err e => ret [PDecodeError e]
  | Ok body => (let! l := commit_line a body in ret [PCommit l])%se
  end.

(** The receive loop: it ends when the socket does. *)
Fixpoint follow (a : TailArgs) (messages : list WsMessage) : R (list Printed) :=
  match messages with
  | [] | MClose :: _ | MTransport _ :: _ => ret []
  | MOther :: messages => follow a messages
  | MBinary b :: messages =>
      (let! p := on_frame a b in
       let! ps := follow a messages in
       ret (p ++ ps))%se
  end.

Definition line_text (l : CommitLine) : string :=
  "[seq=" +:+ pretty (ln_seq l) +:+ "] " +:+ ln_repo l +:+ " rev=" +:+ ln_rev l +:+ " ops=" +:+
  pretty (Z.of_nat (ln_ops l)) +:+ " " +:+
  match ln_sig l with Ok _ => "✓" | Err e => "✗ (" +:+ e +:+ ")" end +:+
  (if ln_mine l then " <-- MY COMMIT" else "").

Definition line_json (json_bool : bool -> Value) (l : CommitLine) : Value :=
  json_object [("seq", json_num (ln_seq l)); ("repo", json_of_str (ln_repo l)); ("rev", json_of_str (ln_rev l));
               ("ops", json_num (Z.of_nat (ln_ops l))); ("sig_ok", json_bool (is_ok (ln_sig l)))].

End Loop.

(** ** Properties *)

(** A request the program may make. *)
Definition fetch_allowed (url : string) : Prop :=
  (exists did, starts_with "did:plc:" did = true /\
     all_bytes (fun c => is_ascii_alphanumeric c || Ascii.eqb c ":") did = true /\
     url = "https://plc.directory/" +:+ did) \/
  (exists host, is_safe_web_host host = true /\ url = "https://" +:+ host +:+ "/.well-known/did.json").

Section FollowerProps.
Context `{JsonMore} {Cid : Type} `{CidLib Cid} `{EqDecision Cid} `{RepoSerde Cid} `{!TailLib Cid}.
Variable answer : string -> result string (result string Value).
Variable tail_debug : TailError -> string.

(** A run that only makes requests it may make. *)
Definition Guarded {E A} (c : SE (list string) E A) : Prop :=
  forall sent, exists new, snd (c sent) = sent ++ new /\ Forall fetch_allowed new.

Lemma guarded_pure {E A} (r : result E A) : Guarded (fun sent => (r, sent)).
Proof. intros sent. exists []. by rewrite app_nil_r. Qed.

Lemma guarded_bind {E A B} (c : SE (list string) E A) (k : A -> SE (list string) E B) :
  Guarded c -> (forall a, Guarded (k a)) -> Guarded (bind c k).
Proof.
  intros Hc Hk sent. destruct (Hc sent) as (n1 & E1 & F1). unfold bind. destruct (c sent) as [[a|e] s1]; cbn in E1; subst s1.
  - destruct (Hk a (sent ++ n1)) as (n2 & E2 & F2). exists (n1 ++ n2). rewrite E2, <- app_assoc. split; [done|].
    by apply Forall_app.
  - by exists n1.
Qed.

Lemma guarded_catch {E F A} (c : SE (list string) E A) : Guarded c -> Guarded (catch (F := F) c).
Proof.
  intros Hc sent. destruct (Hc sent) as (n & E1 & F1). exists n. unfold catch.
  destruct (c sent) as [r s1]. by split.
Qed.

Lemma guarded_fetch what url : fetch_allowed url -> Guarded (fetch_json answer what url).
Proof.
  intros Hu. unfold fetch_json. apply guarded_bind; [|intros; apply guarded_pure].
  intros sent. exists [url]. split; [done|by constructor].
Qed.

Lemma guarded_if {E A} (b : bool) (e : E) (k : SE (list string) E A) :
  (b = true -> Guarded k) -> Guarded (assert_or b e ;;! k)%se.
Proof.
  intros Hk. unfold assert_or. destruct b; [|intros sent; exists []; by rewrite app_nil_r].
  intros sent. exact (Hk eq_refl sent).
Qed.

Lemma guarded_resolve repo : Guarded (resolve_did_key answer repo).
Proof.
  unfold resolve_did_key. destruct (starts_with "did:plc:" repo) eqn:Ep; [|destruct (starts_with "did:web:" repo)].
  - apply guarded_if. intros Hc. apply guarded_bind; [|intros; apply guarded_pure].
    apply guarded_fetch. left. by exists repo.
  - apply guarded_if. intros _. apply guarded_if. intros Hs. apply guarded_bind.
    + apply guarded_fetch. right. by eexists.
    + intros v. apply guarded_bind; intros; apply guarded_pure.
  - apply guarded_pure.
Qed.

(** the follower asks only what it may.  Whatever the stream carries, the only
    requests are of the PLC directory, for a DID without a path, and of hosts
    that passed the check, for their DID document, both over HTTPS. *)
Theorem follower_fetches_guarded (a : TailArgs) messages sent :
  exists new, snd (follow answer tail_debug a messages sent) = sent ++ new /\ Forall fetch_allowed new.
Proof.
  revert sent. change (Guarded (follow answer tail_debug a messages)).
  induction messages as [|[b| |e|] messages IH]; cbn [follow]; try apply guarded_pure; [|exact IH].
  apply guarded_bind; [|intros p; apply guarded_bind; [exact IH|intros; apply guarded_pure]].
  unfold on_frame. destruct (decode_commit_frame b) as [body|[]]; try apply guarded_pure.
  apply guarded_bind; [|intros; apply guarded_pure]. unfold commit_line.
  apply guarded_bind; [|intros; apply guarded_pure].
  destruct (ta_did_key a); [apply guarded_pure|]. apply guarded_catch, guarded_resolve.
Qed.

(** The frames before the socket ends. *)
Fixpoint frames_before_end (messages : list WsMessage) : list bytes :=
  match messages with
  | MBinary b :: messages => b :: frames_before_end messages
  | MOther :: messages => frames_before_end messages
  | _ => []
  end.

(** What a frame prints under a key given on the command line. *)
Definition printed_under (k : string) (demo : option string) (frame : bytes) : list Printed :=
  match decode_commit_frame frame with
  | Ok body => [PCommit (MkLine (cb_seq body) (cb_repo body) (cb_rev body) (length (cb_ops body))
                           (map_err tail_debug (verify_commit_sig body k))
                           (bool_decide (Some (cb_repo body) = demo)))]
  | Err NotCommit => []
  | Err e => [PDecodeError e]
  end.

(** under a given key, every commit before the end of the stream is printed once,
    in order, marked by its signature, and nothing is asked of anyone. *)
Theorem follower_prints_every_commit (a : TailArgs) k messages sent (Hkey : ta_did_key a = Some k) :
  follow answer tail_debug a messages sent =
  (Ok (flat_map (printed_under k (ta_demo_did a)) (frames_before_end messages)), sent).
Proof.
  induction messages as [|[b| |e|] messages IH]; cbn [follow frames_before_end flat_map]; try done.
  unfold bind at 1. unfold on_frame at 1. fold (printed_under k (ta_demo_did a) b).
  assert (on_frame answer tail_debug a b sent = (Ok (printed_under k (ta_demo_did a) b), sent)) as E.
  { unfold on_frame, printed_under. destruct (decode_commit_frame b) as [body|[]]; try done.
    unfold commit_line. by rewrite Hkey. }
  unfold on_frame in E. rewrite E. unfold bind. by rewrite IH.
Qed.

(** the check on hosts is of the text, not of what the URL parser makes of it:
    short and numeric spellings of an IPv4 address, an upper-case or a dotted
    [localhost] pass it, and are asked for their document. *)
Theorem follower_guard_bypassed host sent :
  host ∈ ["127.1"; "0x7f000001"; "2130706433"; "LOCALHOST"; "localhost."] ->
  is_safe_web_host host = true /\
  snd (resolve_web answer ("did:web:" +:+ host) sent) = sent ++ ["https://" +:+ host +:+ "/.well-known/did.json"].
Proof.
  intros Hh. assert (is_safe_web_host host = true /\ contains_char ":" host = false) as [Hs Hc].
  { assert (forallb (fun h => is_safe_web_host h && negb (contains_char ":" h))
              ["127.1"; "0x7f000001"; "2130706433"; "LOCALHOST"; "localhost."] = true) as Hall by by vm_compute.
    rewrite forallb_forall in Hall. apply list_elem_of_In in Hh. apply Hall, andb_true_iff in Hh as [? Hn].
    by apply negb_true_iff in Hn. }
  split; [done|]. unfold resolve_web.
  assert (default ("did:web:" +:+ host) (strip_prefix "did:web:" ("did:web:" +:+ host)) = host) as -> by done.
  unfold bind at 1, assert_or at 1. rewrite Hc. cbn [negb ret].
  unfold bind at 1, assert_or at 1. rewrite Hs. cbn [ret]. unfold fetch_json, bind, lift.
  destruct (answer _) as [[v|e]|e]; cbn; try done.
  destruct (ok_or _ _); done.
Qed.

End FollowerProps.

(** a server's commits are marked valid.  The frame that the writer broadcasts for
    a commit, followed with the writer's key, prints that commit's line with a
    valid signature. *)
Theorem own_commit_marked `{JsonMore} `{Digests} {Cid St : Type} `{CidLib Cid} `{Countable Cid} `{StorageBackend Cid St}
    `{RepoSerde Cid} `{!Atrium Cid} `{!TailLib Cid} `{KeypairIO} `{CarLib Cid}
    `{!RepoStoreOk Cid St} `{!CidLaws Cid} `{!RepoSerdeLaws Cid} `{!KeypairLaws} `{!AtriumLaws Cid} `{!TailLaws Cid}
    answer tail_debug (self : Writer) st o (w w' : World (St := St)) out body (m : gmap string Cid) a sent
    (Ha : addressed (wblocks w))
    (Hcur : current (wblocks w) (signing_key self) (did self) (rv_roots (wview w) !! did self) m)
    (Hok : commit_op self st o Broadcast w = (Ok (out, body), w'))
    (Hkey : ta_did_key a = Some (kp_did (signing_key self))) :
  exists frame mine, snd w' = snd w ++ [MkFirehoseEvent (cb_seq body) frame] /\
    follow (Cid := Cid) answer tail_debug a [MBinary frame] sent =
    (Ok [PCommit (MkLine (cb_seq body) (cb_repo body) (cb_rev body) (length (cb_ops body)) (Ok tt) mine)], sent).
Proof.
  destruct (commit_op_Ok _ _ _ _ _ _ _ _ _ Ha Hcur Hok) as (l & Hc & _).
  exists (encode_message_frame "#commit" body), (bool_decide (Some (cb_repo body) = ta_demo_did a)). split.
  { by destruct Hc as (_ & _ & _ & _ & _ & _ & _ & _ & _ & _ & _ & Hp). }
  pose proof (committed_verifies self st w w' m _ _ _ body l Hc) as Hv.
  cbn [follow]. unfold on_frame. rewrite decode_message_frame. cbn.
  unfold bind, commit_line, ret. rewrite Hkey. unfold bind, ret. by rewrite Hv.
Qed.
