(* ===== verification/Flaky.v ===== *)
(** * A storage whose calls may fail

    What a command that opens a database has in hand: the database, and a
    schedule that says of each call to come whether the engine fails it.  A call
    that fails leaves the database as it was: a method of the store is one
    statement or one transaction.  [mirrors] relates what runs over such a
    storage to what the same code does over the storage itself. *)

From Stdlib Require Import ZArith.
From S2P Require Import Prelude StoreTypes.

Definition Flaky (St : Type) : Type := St * list (option string).

(** One call: the head of the schedule decides. *)
Definition flaky_call {St A} (m : op St A) : op (Flaky St) A :=
  fun '(s, fs) =>
    match fs with
    | Some e :: fs => (Err (AsyncSqlite e), (s, fs))
    | None :: fs => let '(r, s) := m s in (r, (s, fs))
    | [] => let '(r, s) := m s in (r, (s, []))
    end.

Section Backend.
Context {Cid St : Type} `{StorageBackend Cid St}.

#[export] Instance flaky_blocks : BlockStore Cid (Flaky St) := {
  read_block_bytes cid := flaky_call (read_block_bytes cid);
  put_block cid b := flaky_call (put_block cid b);
}.
#[export] Instance flaky_sequencer : Sequencer (Flaky St) := {
  max_seq := flaky_call (max_seq (Sequencer := repo_sequencer (Cid := Cid)));
  backfill_page a b := flaky_call (backfill_page (Sequencer := repo_sequencer (Cid := Cid)) a b);
}.
#[export] Instance flaky_repo : RepoStore Cid (Flaky St) := {
  load_repo_root did := flaky_call (load_repo_root did);
  update_repo_root did cid := flaky_call (update_repo_root did cid);
  commit_blocks bs did cid ev := flaky_call (commit_blocks bs did cid ev);
}.
End Backend.

Section Stores.
Context {St : Type} `{!AccountStore St} `{!KeyStore St} `{!BlobStore St} `{!OAuthStore St}.

#[export] Instance flaky_accounts : AccountStore (Flaky St) := {
  count_accounts := flaky_call count_accounts;
  insert_account a b c d e := flaky_call (insert_account a b c d e);
  count_and_insert_account a b c d e := flaky_call (count_and_insert_account a b c d e);
  get_account_by_handle h := flaky_call (get_account_by_handle h);
  get_did_by_handle h := flaky_call (get_did_by_handle h);
  get_handle_by_did did := flaky_call (get_handle_by_did did);
  list_accounts := flaky_call list_accounts;
  update_password did phc := flaky_call (update_password did phc);
  set_takedown did r now := flaky_call (set_takedown did r now);
  clear_takedown did := flaky_call (clear_takedown did);
  insert_invite code n a := flaky_call (insert_invite code n a);
  consume_invite code h := flaky_call (consume_invite code h);
  upsert_preferences did p := flaky_call (upsert_preferences did p);
  get_preferences did := flaky_call (get_preferences did);
}.
#[export] Instance flaky_keys : KeyStore (Flaky St) := {
  put_key_blob id b := flaky_call (put_key_blob id b);
  get_key_blob id := flaky_call (get_key_blob id);
}.
#[export] Instance flaky_blobs : BlobStore (Flaky St) := {
  put_blob a b c n d := flaky_call (put_blob a b c n d);
  get_blob a b := flaky_call (get_blob a b);
  list_blobs a n c := flaky_call (list_blobs a n c);
}.
#[export] Instance flaky_oauth : OAuthStore (Flaky St) := {
  put_pushed_request r := flaky_call (put_pushed_request r);
  get_pushed_request u now := flaky_call (get_pushed_request u now);
  delete_pushed_request u := flaky_call (delete_pushed_request u);
  put_auth_code c := flaky_call (put_auth_code c);
  consume_auth_code h now := flaky_call (consume_auth_code h now);
  put_refresh_token r := flaky_call (put_refresh_token r);
  consume_refresh_token h now := flaky_call (consume_refresh_token h now);
  revoke_session sid := flaky_call (revoke_session sid);
  revoke_refresh_token h := flaky_call (revoke_refresh_token h);
  list_sessions_for_did did now := flaky_call (list_sessions_for_did did now);
  record_dpop_jti j e := flaky_call (record_dpop_jti j e);
  purge_expired now := flaky_call (purge_expired now);
}.
End Stores.

#[export] Instance flaky_backend {Cid St} `{StorageBackend Cid St} : StorageBackend Cid (Flaky St) := {}.

(** ** What a run that succeeded did *)

(** [mirrors strip c' c]: what [c'] does when it succeeds, [c] does on the state
    without the schedule. *)
Definition mirrors {S' S E A} (strip : S' -> S) (c' : SE S' E A) (c : SE S E A) : Prop :=
  forall s a s', c' s = (Ok a, s') -> c (strip s) = (Ok a, strip s').

Section Mirrors.
Context {S' S : Type} (strip : S' -> S).

Lemma mirrors_ret {E A} (a : A) : mirrors (E := E) strip (ret a) (ret a).
Proof. by intros s b s' [= <- <-]. Qed.
Lemma mirrors_throw {E A} (e : E) : mirrors (A := A) strip (throw e) (throw e).
Proof. by intros s b s'. Qed.
Lemma mirrors_lift {E A} (r : result E A) : mirrors strip (lift r) (lift r).
Proof. intros s b s'. by intros [= -> <-]. Qed.
Lemma mirrors_assert {E} b (e : E) : mirrors strip (assert_or b e) (assert_or b e).
Proof. destruct b; [apply mirrors_ret|apply mirrors_throw]. Qed.

Lemma mirrors_bind {E A B} (c' : SE S' E A) c (k' : A -> SE S' E B) k :
  mirrors strip c' c -> (forall a, mirrors strip (k' a) (k a)) -> mirrors strip (bind c' k') (bind c k).
Proof.
  intros Hc Hk s b s' E1. apply bind_Ok in E1 as (a & s1 & E1 & E2).
  unfold bind. rewrite (Hc _ _ _ E1). by apply Hk.
Qed.

Lemma mirrors_with_err {E F A} (f : E -> F) (c' : SE S' E A) c :
  mirrors strip c' c -> mirrors strip (with_err f c') (with_err f c).
Proof.
  intros Hc s b s'. unfold with_err. destruct (c' s) as [[a|e] s1] eqn:E1; [|done]. intros [= <- <-].
  by rewrite (Hc _ _ _ E1).
Qed.
End Mirrors.

Lemma mirrors_call {St A} (m : op St A) : mirrors fst (flaky_call m) m.
Proof.
  intros [s fs] a [s' fs']. unfold flaky_call. cbn. destruct fs as [|[e|] fs]; [|done|];
    destruct (m s) as [[b|e] s1]; by intros [= <- <- <-].
Qed.

(** A call did what it does, or nothing. *)
Lemma flaky_call_cases {St A} (m : op St A) s fs r s' fs' :
  flaky_call m (s, fs) = (r, (s', fs')) -> s' = s /\ is_err r = true \/ m s = (r, s').
Proof.
  unfold flaky_call. destruct fs as [|[e|] fs]; [|by intros [= <- <- _]; left|];
    destruct (m s) as [r1 s1]; intros [= <- <- _]; by right.
Qed.

Create HintDb mirrors.
#[export] Hint Resolve mirrors_ret mirrors_throw mirrors_lift mirrors_assert mirrors_call : mirrors.

(** One operation of a program after the other. *)
Ltac mirrored :=
  repeat first
    [ progress intros
    | solve [auto with mirrors nocore]
    | apply mirrors_bind
    | apply mirrors_with_err
    | apply mirrors_call
    | match goal with
      | |- mirrors _ (match ?x with _ => _ end) _ => destruct x
      end ].
