(* ===== verification/Machine.v ===== *)
(** * The machine the commands run on

    What the commands of [src/rust-pds/src/cmd] touch: the databases, the files,
    the terminal, what was posted to the network, the macOS Keychain
    ([src/rust-pds/src/keychain.rs]) and the configuration file
    ([src/rust-pds/src/config.rs]).

    A path is its text (two spellings of one path are two paths), and holds a
    database, another file, or nothing: writing a file replaces the database that
    was there, and SQLite opens no file that is not a database, but for an empty
    one.  The operating system may fail any call on a file or the Keychain and
    the opening of a database, and the engine any call on an open one: each call
    consumes the head of a schedule, which says whether it fails; a call that
    fails is taken to have done nothing.  The journal SQLite keeps beside an open
    database is not modelled: on a database that was overwritten while it was
    open, calls fail.  Of a message that runs over several lines, the first
    clause is kept. *)

From Stdlib Require Import ZArith Lia Ascii.
From S2P Require Import Prelude RustStr Externals StoreTypes Utf8 Identity IdentityXrpc Flaky.

Definition PathBuf : Type := string.

(** [a.or(b)]. *)
Definition or_else {A} (a b : option A) : option A :=
  match a with Some x => Some x | None => b end.

(** ** Paths

    [Path::file_name], [file_stem] and [PathBuf::set_extension]: empty and [.]
    segments at the end are skipped, and a name that begins with its only dot
    has no extension. *)

Fixpoint drop_trivial (rsegs : list string) : list string :=
  match rsegs with
  | s :: rest => if String.eqb s "" || String.eqb s "." then drop_trivial rest else rsegs
  | [] => []
  end.

(** The reversed parents and the last normal component. *)
Definition split_file_name (p : PathBuf) : option (list string * string) :=
  match drop_trivial (rev (split_char "/" p)) with
  | [] => None
  | name :: parents => if String.eqb name ".." then None else Some (parents, name)
  end.

(** A name around its last dot. *)
Fixpoint rsplit_dot (s : string) : option (string * string) :=
  match s with
  | EmptyString => None
  | String c s =>
      match rsplit_dot s with
      | Some (before, ext) => Some (String c before, ext)
      | None => if Ascii.eqb c "." then Some (EmptyString, s) else None
      end
  end.

(** A name before its last dot, unless that dot comes first. *)
Definition file_stem (name : string) : string :=
  match rsplit_dot name with
  | Some (before, _) => if String.eqb before "" then name else before
  | None => name
  end.

Definition set_extension (p : PathBuf) (ext : string) : PathBuf :=
  match split_file_name p with
  | None => p
  | Some (parents, name) => join "/" (rev (file_stem name :: parents)) +:+ "." +:+ ext
  end.

(** ** The configuration file *)

Record PdsConfig := MkConfig {
  cfg_hostname : option string;
  cfg_mode : option string;
  cfg_did_method : option string;
  cfg_db_path : option string;
  cfg_port : option Z;
  cfg_acme_env : option string;
  cfg_acme_cache_dir : option string;
  cfg_plc_url : option string;
  cfg_relay_url : option string;
  cfg_appview_url : option string;
  cfg_appview_did : option string;
  cfg_did_web_http_dev : option bool;
}.

Definition PdsConfig_default : PdsConfig :=
  MkConfig None None None None None None None None None None None None.

(** The [toml] crate. *)
Class TomlLib := {
  toml_to_string : PdsConfig -> result string string;
  toml_from_str : string -> result string PdsConfig;
}.

(** What is written reads back; a port is 16 bits wide. *)
Class TomlLaws `{TomlLib} := {
  toml_round_trip c s : toml_to_string c = Ok s -> valid_utf8 s = true /\ toml_from_str s = Ok c;
}.

(** SQLite's file format: the bytes of a database. *)
Class DatabaseFile (St : Type) := { db_image : St -> bytes }.

(** ** The machine *)

Section Machine.
Context {St : Type} `{PlcLib}.

Record Machine := MkMachine {
  m_dbs : gmap string St;
  m_files : gmap string bytes;
  m_modes : gmap string Z;
  m_faults : list (option string);
  m_lines : list (result string string);
  m_secrets : list (result string string);
  m_keychain : gmap string string;
  m_posts : PlcPosts;
  m_crawls : list CrawlPost;
}.

(** Errors are [anyhow]'s: a text. *)
Notation M A := (SE Machine string A).

Definition set_dbs x (m : Machine) :=
  MkMachine x (m_files m) (m_modes m) (m_faults m) (m_lines m) (m_secrets m) (m_keychain m) (m_posts m) (m_crawls m).
Definition set_files x (m : Machine) :=
  MkMachine (m_dbs m) x (m_modes m) (m_faults m) (m_lines m) (m_secrets m) (m_keychain m) (m_posts m) (m_crawls m).
Definition set_modes x (m : Machine) :=
  MkMachine (m_dbs m) (m_files m) x (m_faults m) (m_lines m) (m_secrets m) (m_keychain m) (m_posts m) (m_crawls m).
Definition set_faults x (m : Machine) :=
  MkMachine (m_dbs m) (m_files m) (m_modes m) x (m_lines m) (m_secrets m) (m_keychain m) (m_posts m) (m_crawls m).
Definition set_lines x (m : Machine) :=
  MkMachine (m_dbs m) (m_files m) (m_modes m) (m_faults m) x (m_secrets m) (m_keychain m) (m_posts m) (m_crawls m).
Definition set_secrets x (m : Machine) :=
  MkMachine (m_dbs m) (m_files m) (m_modes m) (m_faults m) (m_lines m) x (m_keychain m) (m_posts m) (m_crawls m).
Definition set_keychain x (m : Machine) :=
  MkMachine (m_dbs m) (m_files m) (m_modes m) (m_faults m) (m_lines m) (m_secrets m) x (m_posts m) (m_crawls m).
Definition set_posts x (m : Machine) :=
  MkMachine (m_dbs m) (m_files m) (m_modes m) (m_faults m) (m_lines m) (m_secrets m) (m_keychain m) x (m_crawls m).
Definition set_crawls x (m : Machine) :=
  MkMachine (m_dbs m) (m_files m) (m_modes m) (m_faults m) (m_lines m) (m_secrets m) (m_keychain m) (m_posts m) x.

(** Whether the next call of the operating system fails. *)
Definition os_call : M unit :=
  fun m => match m_faults m with
           | [] => (Ok tt, m)
           | None :: fs => (Ok tt, set_faults fs m)
           | Some e :: fs => (Err e, set_faults fs m)
           end.

(** [std::fs::write], [read] and [set_permissions]: what was at the path is
    replaced, a database included. *)
Definition fs_write (p : PathBuf) (content : bytes) : M unit :=
  (os_call ;;!
   (fun m => (Ok tt, set_files (<[p := content]> (m_files m)) (set_dbs (delete p (m_dbs m)) m))))%se.

Definition fs_read `{!DatabaseFile St} (p : PathBuf) : M bytes :=
  (os_call ;;!
   (fun m => (ok_or (or_else (m_files m !! p) (db_image <$> m_dbs m !! p))
                "No such file or directory (os error 2)", m)))%se.

Definition fs_read_to_string `{!DatabaseFile St} (p : PathBuf) : M string :=
  (let! b := fs_read p in
   assert_or (valid_utf8 b) "stream did not contain valid UTF-8" ;;! ret b)%se.

Definition fs_set_permissions (p : PathBuf) (mode : Z) : M unit :=
  (os_call ;;! (fun m => (Ok tt, set_modes (<[p := mode]> (m_modes m)) m)))%se.

(** [Path::exists]: a file or a database is there. *)
Definition path_exists (p : PathBuf) (m : Machine) : bool :=
  bool_decide (is_Some (m_files m !! p)) || bool_decide (is_Some (m_dbs m !! p)).

(** [read_line]: the next line; nothing at the end of the input. *)
Definition read_line : M string :=
  fun m => match m_lines m with
           | [] => (Ok "", m)
           | l :: ls => (l, set_lines ls m)
           end.

(** [rpassword::prompt_password]: without a terminal there is none to read. *)
Definition prompt_password : M string :=
  fun m => match m_secrets m with
           | [] => (Err "Device not configured (os error 6)", m)
           | l :: ls => (l, set_secrets ls m)
           end.

(** ** Databases *)

(** A new database, as the schema creates it. *)
Variable fresh_db : St.

Definition NOT_A_DATABASE : string := "file is not a database".

(** [SqliteStore::open] creates the database that is not there, over an empty
    file too. *)
Definition open_db (path : PathBuf) : M unit :=
  with_err (fun e => "Failed to open database " +:+ path +:+ ": " +:+ e)
    (os_call ;;!
     (fun m => match m_files m !! path with
               | Some (String _ _) => (Err NOT_A_DATABASE, m)
               | _ => (Ok tt, set_files (delete path (m_files m))
                                (set_dbs (<[path := default fresh_db (m_dbs m !! path)]> (m_dbs m)) m))
               end))%se.

(** Calls on the open database, any of which the engine may fail. *)
Definition on_db {E A} (path : PathBuf) (f : E -> string) (c : SE (Flaky St) E A) : M A :=
  fun m => match m_dbs m !! path with
           | None => (Err NOT_A_DATABASE, m)
           | Some db => let '(r, (db, fs)) := c (db, m_faults m) in
                        (map_err f r, set_faults fs (set_dbs (<[path := db]> (m_dbs m)) m))
           end.

(** Registration runs over a database and what was posted to the directory. *)
Definition on_account_world {E A} (path : PathBuf) (f : E -> string) (c : SE (Flaky St * PlcPosts) E A) : M A :=
  fun m => match m_dbs m !! path with
           | None => (Err NOT_A_DATABASE, m)
           | Some db => let '(r, ((db, fs), posts)) := c ((db, m_faults m), m_posts m) in
                        (map_err f r, set_posts posts (set_faults fs (set_dbs (<[path := db]> (m_dbs m)) m)))
           end.

(** Building a client: nothing is sent, but it may fail. *)
Definition new_client (what : string) : M unit := with_err (fun e => what +:+ ": " +:+ e) os_call.

(** ** The Keychain *)

(** [cfg!(target_os = "macos")]. *)
Variable SUPPORTED : bool.

Definition JWT_SECRET : string := "jwt-secret".
Definition KEY_PASSPHRASE : string := "key-passphrase".

Definition keychain_account (hostname key : string) : string := hostname +:+ "/" +:+ key.

(** An entry that cannot be read counts as absent. *)
Definition keychain_get (hostname key : string) (m : Machine) : option string :=
  if SUPPORTED then m_keychain m !! keychain_account hostname key else None.

Definition keychain_set (hostname key value : string) : M unit :=
  if SUPPORTED then
    (with_err (fun e => "keychain open failed: " +:+ e) os_call ;;!
     with_err (fun e => "keychain write failed: " +:+ e) os_call ;;!
     (fun m => (Ok tt, set_keychain (<[keychain_account hostname key := value]> (m_keychain m)) m)))%se
  else throw "keychain storage is only available on macOS; set the secret via env instead".

Definition keychain_delete (hostname key : string) : M unit :=
  if SUPPORTED then
    (with_err (fun e => "keychain open failed: " +:+ e) os_call ;;!
     with_err (fun e => "keychain delete failed: " +:+ e) os_call ;;!
     (fun m => (Ok tt, set_keychain (delete (keychain_account hostname key) (m_keychain m)) m)))%se
  else ret tt.

(** ** Loading and saving the configuration *)

Context `{TomlLib} `{!DatabaseFile St}.

Definition config_load (p : PathBuf) : M PdsConfig :=
  (let! s := fs_read_to_string p in lift (toml_from_str s))%se.

Definition config_load_or_default (p : option PathBuf) : M PdsConfig :=
  fun m => match p with
           | Some p => if path_exists p m then config_load p m else (Ok PdsConfig_default, m)
           | None => (Ok PdsConfig_default, m)
           end.

Definition config_save (c : PdsConfig) (p : PathBuf) : M unit :=
  (let! s := lift (toml_to_string c) in fs_write p s)%se.

Definition resolve_config_path (explicit : option PathBuf) : PathBuf :=
  default "stelyph.toml" explicit.

End Machine.
Arguments Machine : clear implicits.
