(* ===== verification/Setup.v ===== *)
(** * Starting the server, and what set-up asks

    [src/rust-pds/src/cmd/serve.rs]: the settings a server starts with, from the
    command line, the environment, the configuration file, the Keychain and the
    terminal.  [detect.rs], [dns.rs]: the advice of the set-up wizard.
    [xrpc/oauth/mod.rs]: the start-up of the authorization server.  The prompts
    of [cmd/init.rs]. *)

From Stdlib Require Import ZArith Lia Ascii.
From stdpp Require Import pretty.
From S2P Require Import Prelude RustStr Externals StoreTypes OAuthCore Jose MemoryStore Client.
From S2P Require Import OAuthServer KeyCrypto Outbound Firehose Machine.

(** ** Modes *)

Inductive Mode := Standalone | Proxy.
Inductive AcmeEnv := Production | Staging.
Inductive DidMethod := Plc | Web.
Inductive Recommendation := RStandalone | RProxy | RTunnel.

#[export] Instance Mode_eq_dec : EqDecision Mode.
Proof. solve_decision. Defined.
#[export] Instance Recommendation_eq_dec : EqDecision Recommendation.
Proof. solve_decision. Defined.

(** [detect_mode]: [bindable] is whether port 443 could be bound, [ip] what the
    echo service answered, as the text of the address or of the error. *)
Definition detect_mode (bindable : bool) (ip : result string string) : Recommendation * string :=
  if negb bindable then
    (RProxy, "cannot bind :443 (non-root or in use) — recommend proxy mode")
  else
    match ip with
    | Ok ip => (RStandalone, "public IP " +:+ ip +:+ " reachable, :443 bindable — recommend standalone")
    | Err e => (RTunnel, "no inbound reachability (" +:+ e +:+
                         ") — recommend a tunnel (Cloudflare Tunnel / Tailscale Funnel)")
    end.

Inductive DnsCheck :=
| DnsMatch
| Mismatch (resolved : list IpAddr) (expected : IpAddr)
| LookupFailed (message : string).

#[export] Instance IpAddr_eq_dec : EqDecision IpAddr.
Proof. solve_decision. Defined.

(** [answer] is what the resolver answered. *)
Definition check_a_record (answer : result string (list IpAddr)) (expected : IpAddr) : DnsCheck :=
  match answer with
  | Ok ips => if bool_decide (expected ∈ ips) then DnsMatch else Mismatch ips expected
  | Err e => LookupFailed e
  end.

Definition acme_directory_is_production (env : AcmeEnv) : bool :=
  match env with Production => true | Staging => false end.

(** The preflight of standalone mode. *)
Definition looks_like_public_hostname (host : string) : bool :=
  match parse_ip host with
  | Some _ => false
  | None =>
      if negb (contains_char "." host) then false
      else
        let lower := to_ascii_lowercase host in
        negb (String.eqb lower "localhost" || ends_with ".local" lower ||
              ends_with ".internal" lower || ends_with ".test" lower)
  end.

(** ** Secrets and settings *)

Record ServeArgs := {
  sa_hostname : option string;
  sa_mode : option Mode;
  sa_acme : option AcmeEnv;
  sa_db_path : option string;
  sa_port : option Z;
  sa_jwt_secret : option string;
  sa_key_passphrase : option string;
  sa_plc_url : option string;
  sa_relay_url : option string;
  sa_appview_url : option string;
  sa_appview_did : option string;
  sa_open_registration : bool;
  sa_non_interactive : bool;
}.

(** Everything [run] has decided when it opens the database. *)
Record Settings := MkSettings {
  se_hostname : string;
  se_jwt_secret : bytes;
  se_key_passphrase : bytes;
  se_db_path : string;
  se_port : Z;
  se_plc_url : string;
  se_relay_url : string;
  se_appview_url : string;
  se_appview_did : string;
  se_did_web_http_dev : bool;
  se_pds_endpoint : string;
  se_mode : Mode;
  se_acme_env : AcmeEnv;
  se_acme_cache_dir : string;
  se_open_registration : bool;
}.

(** The directory of the database: [Path::parent], [.] where there is none. *)
Definition db_dir (p : PathBuf) : string :=
  match drop_trivial (rev (split_char "/" p)) with
  | [] => "."
  | _ :: parents =>
      match drop_trivial parents with
      | [] => if starts_with "/" p then "/" else "."
      | parents => join "/" (rev parents)
      end
  end.

Definition mode_of (m : string) : option Mode :=
  if String.eqb m "standalone" then Some Standalone
  else if String.eqb m "proxy" then Some Proxy else None.

Definition acme_env_of (e : string) : option AcmeEnv :=
  if String.eqb e "staging" then Some Staging
  else if String.eqb e "production" then Some Production else None.

Section Serve.
Context {St : Type} `{TomlLib} `{Digests} `{!DatabaseFile St}.
(** Whether this is macOS. *)
Variable SUPPORTED : bool.

Notation M A := (SE (Machine St) string A).

(** [drawn] are the 32 bytes of a secret that is generated. *)
Definition resolve_jwt_secret (drawn : bytes) (explicit : option string) (hostname : string)
    (allow_prompt : bool) : M bytes :=
  fun m =>
    let check raw : result string bytes :=
      if str_len raw <? 32
      then Err ("PDS_JWT_SECRET must be at least 32 bytes (got " +:+ pretty (str_len raw) +:+ "). Generate a strong one")
      else Ok raw in
    match or_else explicit (keychain_get SUPPORTED hostname JWT_SECRET m) with
    | Some raw => (check raw, m)
    | None =>
        if negb allow_prompt then (Err "PDS_JWT_SECRET is required (it signs session tokens). Set it and restart", m)
        else
          (let! entered := prompt_password in
           if String.eqb (trim entered) "" then ret (b64url_encode drawn)
           else lift (check entered))%se m
    end.

Definition resolve_key_passphrase (explicit : option string) (hostname : string)
    (allow_prompt : bool) : M bytes :=
  (let! raw := fun m =>
     match or_else explicit (keychain_get SUPPORTED hostname KEY_PASSPHRASE m) with
     | Some p => (Ok p, m)
     | None =>
         if negb allow_prompt then (Err "PDS_KEY_PASSPHRASE is required (it decrypts your signing keys). Set it and restart", m)
         else prompt_password m
     end in
   assert_or (negb (String.eqb raw "")) "PDS_KEY_PASSPHRASE must not be empty." ;;!
   ret raw)%se.

(** [run] up to the opening of the database.  [is_tty] is whether standard
    input is a terminal. *)
Definition serve_settings (drawn : bytes) (is_tty : bool) (args : ServeArgs)
    (config : option PathBuf) : M Settings :=
  (let! cfg := match config with
               | Some explicit => config_load explicit
               | None => config_load_or_default (Some (resolve_config_path None))
               end in
   let! hostname := lift (ok_or (or_else (sa_hostname args) (cfg_hostname cfg)) "PDS_HOSTNAME is required.") in
   let allow_prompt := is_tty && negb (sa_non_interactive args) in
   let! jwt_secret := resolve_jwt_secret drawn (sa_jwt_secret args) hostname allow_prompt in
   let! key_passphrase := resolve_key_passphrase (sa_key_passphrase args) hostname allow_prompt in
   let db_path := default "pds.db" (or_else (sa_db_path args) (cfg_db_path cfg)) in
   ret {|
     se_hostname := hostname;
     se_jwt_secret := jwt_secret;
     se_key_passphrase := key_passphrase;
     se_db_path := db_path;
     se_port := default 3000 (or_else (sa_port args) (cfg_port cfg));
     se_plc_url := default "https://plc.directory" (or_else (sa_plc_url args) (cfg_plc_url cfg));
     se_relay_url := default "https://bsky.network" (or_else (sa_relay_url args) (cfg_relay_url cfg));
     se_appview_url := default "https://api.bsky.app" (or_else (sa_appview_url args) (cfg_appview_url cfg));
     se_appview_did := default "did:web:api.bsky.app" (or_else (sa_appview_did args) (cfg_appview_did cfg));
     se_did_web_http_dev := default false (cfg_did_web_http_dev cfg);
     se_pds_endpoint := "https://" +:+ hostname;
     se_mode := default Proxy (or_else (sa_mode args) (cfg_mode cfg ≫= mode_of));
     se_acme_env := default Production (or_else (sa_acme args) (cfg_acme_env cfg ≫= acme_env_of));
     se_acme_cache_dir := default (db_dir db_path +:+ "/acme") (cfg_acme_cache_dir cfg);
     se_open_registration := sa_open_registration args |})%se.

End Serve.

(** ** The authorization server's start-up *)

Definition AS_SIGNING_KEY : string := "oauth#as-signing".

Section Bootstrap.
Context `{Digests} `{Json} `{Ecdsa} `{UrlLib} `{KeyCiphers}.
Context {Cid St : Type} `{StorageBackend Cid St}.

(** The key that loads, or a fresh one, stored: a key that is absent, one under
    another passphrase and a read that failed are not told apart. *)
Definition as_signing_key (fresh : P256Key) (salt nonce passphrase : bytes) : SE St OAuthError SigningKey :=
  (let! loaded := catch (load_key AS_SIGNING_KEY passphrase) in
   match loaded with
   | Ok scalar => lift (import scalar)
   | Err _ =>
       let key := generate fresh in
       with_err (fun e => Internal ("could not persist the OAuth signing key: " +:+ StorageError_to_string e))
         (store_key salt nonce AS_SIGNING_KEY (export key) passphrase) ;;!
       ret key
   end)%se.

Definition bootstrap (fresh : P256Key) (salt nonce passphrase jwt_secret : bytes)
    (issuer_url service_did : string) (resolve : ClientId -> result OAuthError ClientMetadata)
    : SE St OAuthError OAuthState :=
  (let! key := as_signing_key fresh salt nonce passphrase in
   let issuer_url := trim_end_matches "/" issuer_url in
   ret {| os_issuer := {| ti_key := key; ti_issuer := issuer_url; ti_audience := service_did |};
          os_nonce_secret := derive_nonce_secret jwt_secret;
          os_resolve := resolve;
          os_issuer_url := issuer_url |})%se.

End Bootstrap.
