(* ===== verification/Commands.v ===== *)
(** * The commands

    [src/rust-pds/src/cmd]: [admin.rs], [export_keys.rs], [import_keys.rs] and
    [keychain.rs], on the machine of [Machine].  What a command prints is its
    result. *)

From Stdlib Require Import ZArith Lia Ascii.
From stdpp Require Import pretty.
From S2P Require Import Prelude RustStr Externals StoreTypes Utf8 OAuthCore Jose MemoryStore Client.
From S2P Require Import OAuthServer Session KeyCrypto Identity Accounts Outbound IdentityXrpc Firehose Flaky Machine Setup.

Section Commands.
Context `{Digests} `{Json} `{Jwt} `{Ecdsa} `{UrlLib} `{!UrlHost} `{Argon2} `{KeyCiphers} `{KeypairIO} `{PlcLib} `{TomlLib}.
Context {Cid St : Type} `{StorageBackend Cid St} `{!DatabaseFile St}.
Variable fresh_db : St.
Variable SUPPORTED : bool.

Notation Mach := (Machine St).
Notation M A := (SE Mach string A).

Definition admin_store {A} (path : PathBuf) (what : string) (c : SE (Flaky St) StorageError A) : M A :=
  on_db path (fun e => what +:+ ": " +:+ StorageError_to_string e) c.

(** ** stelyph admin *)

Inductive AdminCommand :=
| CreateInvite (uses : Z) (for_account : option string)
| ListAccounts
| Takedown (did reference : string)
| Untakedown (did : string)
| ResetPassword (identifier : string).

Inductive AdminReport :=
| InviteCode (code : string) (uses : Z) (for_account : string)
| AccountList (accounts : list (AccountSummary * string))
| TookDown (did : string)
| Restored (did : string)
| PasswordReset (did : string).

(** [drawn] are 8 bytes, 13 letters of base32: [&enc\[..10\]] is in range. *)
Definition generate_invite_code (drawn : bytes) : string :=
  "stelyph-" +:+ String.substring 0 10 (to_ascii_lowercase (base32_nopad_encode drawn)).

Definition account_status (a : AccountSummary) : string :=
  match as_takedown_ref a, as_deactivated_at a with
  | Some _, _ => "takedown"
  | None, Some _ => "inactive"
  | None, None => "active"
  end.

(** Clock reading and draws of one command. *)
Record AdminDraw := { dr_now : string; dr_invite : bytes; dr_phc_salt : bytes }.

(** Resolve handle to DID; a value that starts with [did:] is used as it is. *)
Definition named_did (path : PathBuf) (identifier : string) : M string :=
  if starts_with "did:" identifier then ret identifier
  else
    (let! o := admin_store path "lookup failed" (get_did_by_handle identifier) in
     lift (ok_or o ("no account with handle '" +:+ identifier +:+ "'")))%se.

Definition reset_password (path : PathBuf) (d : AdminDraw) (identifier : string) : M AdminReport :=
  (let! did := named_did path identifier in
   let! pw := prompt_password in
   assert_or (negb (str_len pw <? 8)) "password must be at least 8 characters" ;;!
   let! confirm := prompt_password in
   assert_or (String.eqb pw confirm) "passwords do not match" ;;!
   let! phc := lift (map_err (fun e => "hash failed: " +:+ CoreError_to_string e) (hash_password (dr_phc_salt d) pw)) in
   let! n := admin_store path "Failed to update password" (update_password did phc) in
   assert_or (negb (n =? 0)) ("no account found for " +:+ did) ;;!
   ret (PasswordReset did))%se.

Definition admin_command (path : PathBuf) (d : AdminDraw) (command : AdminCommand) : M AdminReport :=
  match command with
  | CreateInvite uses for_account =>
      (assert_or (negb (uses <? 1)) "--uses must be >= 1" ;;!
       let code := generate_invite_code (dr_invite d) in
       let for_account := default "admin" for_account in
       admin_store path "Failed to create invite" (insert_invite code uses for_account) ;;!
       ret (InviteCode code uses for_account))%se
  | ListAccounts =>
      (let! accounts := admin_store path "Failed to list accounts" list_accounts in
       ret (AccountList (map (fun a => (a, account_status a)) accounts)))%se
  | Takedown did reference =>
      (let! n := admin_store path "Failed to take down account" (set_takedown did reference (dr_now d)) in
       assert_or (negb (n =? 0)) ("no account found with DID " +:+ did) ;;!
       ret (TookDown did))%se
  | Untakedown did =>
      (let! n := admin_store path "Failed to restore account" (clear_takedown did) in
       assert_or (negb (n =? 0)) ("no account found with DID " +:+ did +:+ " (or it was not taken down)") ;;!
       ret (Restored did))%se
  | ResetPassword identifier => reset_password path d identifier
  end.

Definition admin_run (path : PathBuf) (d : AdminDraw) (command : AdminCommand) : M AdminReport :=
  fun m =>
    if negb (path_exists path m) then (Err ("no database at " +:+ path), m)
    else (open_db fresh_db path ;;! admin_command path d command)%se m.

(** ** stelyph export-keys, import-keys *)

(** [-rw-------]. *)
Definition OWNER_ONLY : Z := 384.

(** One slot: its blob, written readable to the owner alone. *)
Definition export_slot (db : PathBuf) (slot id : string) (passphrase : bytes) (to_file : PathBuf) : M unit :=
  (let! blob := admin_store db ("Failed to export " +:+ slot +:+ " key") (export_keys id passphrase) in
   with_err (fun e => "Failed to write " +:+ slot +:+ " key to " +:+ to_file +:+ ": " +:+ e) (fs_write to_file blob) ;;!
   with_err (fun e => "Failed to set permissions on " +:+ to_file +:+ ": " +:+ e)
     (fs_set_permissions to_file OWNER_ONLY))%se.

Definition export_run (did : string) (output db : PathBuf) : M PathBuf :=
  (let! passphrase := prompt_password in
   open_db fresh_db db ;;!
   export_slot db "signing" (did +:+ "#signing") passphrase output ;;!
   let rot_path := set_extension output "rotation" in
   export_slot db "rotation" (did +:+ "#rotation") passphrase rot_path ;;!
   ret rot_path)%se.

(** A panic of [import_keys] is the error [panic]. *)
Definition import_slot (usize_mod : Z) (db : PathBuf) (slot id : string) (passphrase : bytes) (from_file : PathBuf) : M unit :=
  (let! blob := with_err (fun e => "Failed to read " +:+ slot +:+ " key from " +:+ from_file +:+ ": " +:+ e)
                  (fs_read from_file) in
   match import_keys usize_mod id blob passphrase with
   | Some c => admin_store db ("Failed to import " +:+ slot +:+ " key") c
   | None => throw "panic"
   end)%se.

(** Whether a rotation key was there to import. *)
Definition import_run (usize_mod : Z) (did : string) (input db : PathBuf) : M bool :=
  (let! passphrase := prompt_password in
   open_db fresh_db db ;;!
   import_slot usize_mod db "signing" (did +:+ "#signing") passphrase input ;;!
   let rot_path := set_extension input "rotation" in
   let! there := fun m => (Ok (path_exists rot_path m), m) in
   if there : bool then
     import_slot usize_mod db "rotation" (did +:+ "#rotation") passphrase rot_path ;;! ret true
   else ret false)%se.

(** ** stelyph keychain *)

Inductive KeychainCommand := KcSet | KcStatus | KcClear.
Inductive KeychainReport := KcStored | KcPresent (jwt passphrase : bool) | KcCleared.

Definition resolve_hostname (explicit : option string) (config : option PathBuf) : M string :=
  match explicit with
  | Some h => ret h
  | None =>
      (let! cfg := config_load_or_default (Some (resolve_config_path config)) in
       lift (ok_or (cfg_hostname cfg) "no hostname — pass --hostname or run from a directory with stelyph.toml"))%se
  end.

Definition keychain_run (drawn : bytes) (command : KeychainCommand) (hostname : option string)
    (config : option PathBuf) : M KeychainReport :=
  (assert_or SUPPORTED "Keychain storage is only available on macOS." ;;!
   let! hostname := resolve_hostname hostname config in
   match command with
   | KcSet =>
       let! jwt := prompt_password in
       let! jwt :=
         if String.eqb (trim jwt) "" then ret (b64url_encode drawn)
         else if str_len jwt <? 32
         then throw ("PDS_JWT_SECRET must be at least 32 bytes (got " +:+ pretty (str_len jwt) +:+ ")")
         else ret jwt in
       let! passphrase := prompt_password in
       assert_or (negb (String.eqb passphrase "")) "PDS_KEY_PASSPHRASE must not be empty" ;;!
       keychain_set SUPPORTED hostname JWT_SECRET jwt ;;!
       keychain_set SUPPORTED hostname KEY_PASSPHRASE passphrase ;;!
       ret KcStored
   | KcStatus => fun m =>
       let has k := bool_decide (is_Some (keychain_get SUPPORTED hostname k m)) in
       (Ok (KcPresent (has JWT_SECRET) (has KEY_PASSPHRASE)), m)
   | KcClear =>
       keychain_delete SUPPORTED hostname JWT_SECRET ;;!
       keychain_delete SUPPORTED hostname KEY_PASSPHRASE ;;!
       ret KcCleared
   end)%se.

End Commands.
