(* ===== verification/CommandProps.v ===== *)
(** * Properties of the commands

    Key export and import, the secrets a server starts with, and the operator's
    commands, over databases of the in-memory backend. *)

From Stdlib Require Import ZArith Lia Ascii.
From S2P Require Import Prelude RustStr Externals Demo StoreTypes Utf8 OAuthCore Jose MemoryStore MemoryProps Client.
From S2P Require Import OAuthServer Session KeyCrypto Identity Accounts AccountProps Outbound IdentityXrpc Firehose.
From S2P Require Import Flaky Machine Setup Commands.

Section Machines.
Context `{PlcLib} {Cid : Type} `{Countable Cid}.
Notation Mach := (Machine (Inner Cid)).
Notation fresh := (Inner_default : Inner Cid).
Implicit Types (m : Mach) (g : Inner Cid).

(** The database at a path: a new one where there is none. *)
Definition db_at (p : PathBuf) m : Inner Cid := default fresh (m_dbs m !! p).

(** [m'] is [m] but for the database at [p], which is [g], and the schedule. *)
Definition only_db (p : PathBuf) g m m' : Prop :=
  m_dbs m' = <[p := g]> (m_dbs m) /\ m_files m' = m_files m /\ m_modes m' = m_modes m /\
  m_lines m' = m_lines m /\ m_secrets m' = m_secrets m /\ m_keychain m' = m_keychain m /\
  m_posts m' = m_posts m /\ m_crawls m' = m_crawls m.

(** [m'] is [m] with a database at [p], the one that was there or a new one. *)
Definition opened_db (p : PathBuf) m m' : Prop :=
  m_dbs m' = <[p := db_at p m]> (m_dbs m) /\ m_files m' = delete p (m_files m) /\
  (m_files m !! p = None \/ m_files m !! p = Some EmptyString) /\ m_modes m' = m_modes m /\
  m_lines m' = m_lines m /\ m_secrets m' = m_secrets m /\ m_keychain m' = m_keychain m /\
  m_posts m' = m_posts m /\ m_crawls m' = m_crawls m.

Lemma os_call_quiet m :
  m_faults m = [] -> os_call m = (Ok tt, m).
Proof. intros Hf. unfold os_call. by rewrite Hf. Qed.

Lemma os_call_Ok m m' : os_call m = (Ok tt, m') -> exists fs, m' = set_faults fs m.
Proof.
  unfold os_call. destruct (m_faults m) as [|[e|] fs] eqn:E; [|done|]; intros [= <-]; [|by exists fs].
  exists []. destruct m; cbn in *. by rewrite E.
Qed.

Lemma open_db_Ok p m m' : open_db fresh p m = (Ok tt, m') -> opened_db p m m'.
Proof.
  unfold open_db, bind, with_err. destruct (os_call m) as [[[]|e] m1] eqn:E; [|done]. cbn.
  apply os_call_Ok in E as [fs ->]. cbn.
  destruct (m_files m !! p) as [[|c b]|] eqn:Ef; intros [= <-]; split_and!; try done; auto.
Qed.

Lemma open_db_quiet p m :
  m_faults m = [] -> m_files m !! p = None ->
  exists m', open_db fresh p m = (Ok tt, m') /\ opened_db p m m' /\ m_files m' = m_files m /\ m_faults m' = [].
Proof.
  intros Hf Hp. unfold open_db, bind, with_err. rewrite (os_call_quiet m Hf). cbn. rewrite Hp.
  eexists. split; [reflexivity|]. split; [split_and!; try done; by left|]. split; [|done]. cbn. by apply delete_id.
Qed.

Lemma opened_db_at p m m' : opened_db p m m' -> m_dbs m' !! p = Some (db_at p m) /\ db_at p m' = db_at p m.
Proof. intros (E & _). unfold db_at at 2. by rewrite E, lookup_insert_eq. Qed.

Lemma opened_db_others p q m m' : opened_db p m m' -> q <> p -> db_at q m' = db_at q m.
Proof. intros (E & _) Hq. unfold db_at. by rewrite E, lookup_insert_ne by done. Qed.

(** Calls on a database are made on the one at its path. *)
Lemma db_there p m g : m_dbs m !! p = Some g -> db_at p m = g.
Proof. intros E. unfold db_at. by rewrite E. Qed.

Lemma on_db_Ok {E A} p (f : E -> string) (c : SE (Flaky (Inner Cid)) E A) m a m' :
  on_db p f c m = (Ok a, m') ->
  exists g, c (db_at p m, m_faults m) = (Ok a, (g, m_faults m')) /\ only_db p g m m' /\
    m_dbs m !! p = Some (db_at p m).
Proof.
  unfold on_db. destruct (m_dbs m !! p) as [db|] eqn:Ed; [|done]. rewrite (db_there _ _ _ Ed).
  destruct (c (db, m_faults m)) as [[x|e] [g fs]]; cbn; intros [= <- <-]. exists g. by split_and!.
Qed.

(** ... and, when they succeed, are made on it without failures. *)
Lemma on_db_mirror {E A} p (f : E -> string) (c : SE (Flaky (Inner Cid)) E A) c0 m a m' :
  mirrors fst c c0 -> on_db p f c m = (Ok a, m') ->
  exists g, c0 (db_at p m) = (Ok a, g) /\ only_db p g m m' /\ m_dbs m !! p = Some (db_at p m).
Proof. intros Hc E1. apply on_db_Ok in E1 as (g & E1 & Ho & Hs). exists g. split; [|done]. exact (Hc _ _ _ E1). Qed.

(** The world of a registration without the schedule. *)
Definition calm_world (w : Flaky (Inner Cid) * PlcPosts) : Inner Cid * PlcPosts := (fst (fst w), snd w).

Lemma on_account_world_mirror {E A} p (f : E -> string) (c : SE (Flaky (Inner Cid) * PlcPosts) E A) c0 m a m' :
  mirrors calm_world c c0 -> on_account_world p f c m = (Ok a, m') ->
  exists g posts fs, c0 (db_at p m, m_posts m) = (Ok a, (g, posts)) /\
    m' = set_posts posts (set_faults fs (set_dbs (<[p := g]> (m_dbs m)) m)).
Proof.
  intros Hc. unfold on_account_world. destruct (m_dbs m !! p) as [db|] eqn:Ed; [|done]. rewrite (db_there _ _ _ Ed).
  destruct (c (db, m_faults m, m_posts m)) as [[x|e] [[g fs] posts]] eqn:E1; [|done]. intros [= <- <-].
  exists g, posts, fs. split; [|done]. exact (Hc _ _ _ E1).
Qed.

Lemma on_db_run {E A} p (f : E -> string) (c : SE (Flaky (Inner Cid)) E A) m a g :
  m_dbs m !! p = Some (db_at p m) -> m_faults m = [] -> c (db_at p m, []) = (Ok a, (g, [])) ->
  exists m', on_db p f c m = (Ok a, m') /\ only_db p g m m' /\ m_faults m' = [].
Proof.
  intros Hs Hf Hc. unfold on_db. rewrite Hs, Hf, Hc. cbn. eexists. split; [reflexivity|]. by split_and!.
Qed.

(** Calls that leave the database leave the machine, but for the schedule. *)
Lemma on_db_unchanged {E A} p (f : E -> string) (c : SE (Flaky (Inner Cid)) E A) m r fs :
  is_Some (m_dbs m !! p) -> c (db_at p m, m_faults m) = (r, (db_at p m, fs)) ->
  on_db p f c m = (map_err f r, set_faults fs m).
Proof.
  intros [g Hg] Hc. rewrite (db_there _ _ _ Hg) in Hc. unfold on_db. rewrite Hg, Hc.
  rewrite (insert_id _ _ _ Hg). by destruct m.
Qed.

Lemma only_db_at p g m m' : only_db p g m m' -> db_at p m' = g /\ m_dbs m' !! p = Some g.
Proof. intros (E & _). unfold db_at. by rewrite E, lookup_insert_eq. Qed.

Lemma only_db_others p q g m m' : only_db p g m m' -> q <> p -> db_at q m' = db_at q m.
Proof. intros (E & _) Hq. unfold db_at. by rewrite E, lookup_insert_ne by done. Qed.

End Machines.

Section Keys.
Context `{KeyCipherLaws} `{PlcLib} {Cid : Type} `{Countable Cid} `{!DatabaseFile (Inner Cid)}.
Notation Mach := (Machine (Inner Cid)).
Notation fresh := (Inner_default : Inner Cid).
Implicit Types (m : Mach) (g : Inner Cid).

Lemma export_keys_Ok id pass g blob g' :
  export_keys id pass g = (Ok blob, g') ->
  g' = g /\ exists c p, keys g !! id = Some c /\ decrypt_key c pass = Ok p /\ blob = export_blob id c.
Proof.
  unfold export_keys. intros E. apply bind_Ok in E as (o & g1 & E1 & E).
  cbn in E1. unfold mem_get_key_blob, read in E1. injection E1 as <- <-.
  apply bind_Ok in E as (c & g2 & E1 & E). unfold lift in E1. injection E1 as Ec <-. apply ok_or_Ok in Ec.
  apply bind_Ok in E as (p & g3 & E1 & E). unfold lift in E1. injection E1 as Ep <-.
  unfold ret in E. injection E as <- <-. eauto 6.
Qed.

Lemma mirrors_export id pass :
  mirrors fst (export_keys (St := Flaky (Inner Cid)) id pass) (export_keys (St := Inner Cid) id pass).
Proof. unfold export_keys. mirrored. Qed.

(** Exporting a slot: the file holds its blob, in place of what was there. *)
Lemma export_slot_Ok db slot id pass path m m' :
  export_slot db slot id pass path m = (Ok tt, m') ->
  exists c p, m_dbs m !! db = Some (db_at db m) /\
    keys (db_at db m) !! id = Some c /\ decrypt_key c pass = Ok p /\
    m_files m' = <[path := export_blob id c]> (m_files m) /\
    m_dbs m' = delete path (m_dbs m) /\
    m_modes m' = <[path := OWNER_ONLY]> (m_modes m) /\ m_secrets m' = m_secrets m.
Proof.
  unfold export_slot. intros E. apply bind_Ok in E as (blob & m1 & E1 & E).
  apply (on_db_mirror _ _ _ _ _ _ _ (mirrors_export id pass)) in E1 as (g & Ek & (Hdbs & Hf & Hm & _ & Hs & _) & Hdb).
  apply export_keys_Ok in Ek as (-> & c & p & Hc & Hp & ->).
  exists c, p. split; [done|]. split; [done|]. split; [done|].
  rewrite (insert_id _ _ _ Hdb) in Hdbs.
  unfold fs_write, fs_set_permissions, bind, with_err in E.
  destruct (os_call m1) as [[[]|?] m2] eqn:Eo; [|done]. apply os_call_Ok in Eo as [fs ->]. cbn in E.
  destruct (os_call _) as [[[]|?] m3] eqn:Eo in E; [|done]. apply os_call_Ok in Eo as [fs' ->]. cbn in E.
  injection E as <-. cbn. by rewrite Hf, Hm, Hdbs, Hs.
Qed.

(** Importing a blob under any identifier. *)
Lemma import_slot_run db slot id id' pass path m c p :
  m_faults m = [] -> m_dbs m !! db = Some (db_at db m) -> m_files m !! path = Some (export_blob id c) ->
  str_len id < 2 ^ 32 -> str_len c < 2 ^ 32 -> decrypt_key c pass = Ok p ->
  exists m', import_slot usize64 db slot id' pass path m = (Ok tt, m') /\
    only_db db (set_keys (<[id' := c]> (keys (db_at db m))) (db_at db m)) m m' /\ m_faults m' = [].
Proof.
  intros Hf Hdb Hfile Hi Hc Hp. unfold import_slot, fs_read, with_err, bind at 1 2.
  rewrite (os_call_quiet m Hf). cbn. rewrite Hfile. cbn.
  unfold import_keys. rewrite <- (str_app_nil_r (export_blob id c)), parse_export_blob by done. cbn [mbind option_bind].
  apply (on_db_run (Cid := Cid) db (fun e => ("Failed to import " +:+ slot +:+ " key") +:+ ": " +:+ StorageError_to_string e));
    [done..|].
  unfold bind, lift. rewrite Hp. reflexivity.
Qed.

(** The keys after an import. *)
Definition with_slots (did : string) (c1 c2 : bytes) g : Inner Cid :=
  set_keys (<[did +:+ "#rotation" := c2]> (<[did +:+ "#signing" := c1]> (keys g))) g.

End Keys.

Section KeyFiles.
Context `{KeyCipherLaws} `{PlcLib} {Cid : Type} `{Countable Cid} `{!DatabaseFile (Inner Cid)}.
Notation Mach := (Machine (Inner Cid)).
Notation fresh := (Inner_default : Inner Cid).
Implicit Types (m : Mach) (g : Inner Cid).

(** What a successful export leaves: it wrote over no database it still needed. *)
Lemma export_run_Ok did output db m rot m' :
  export_run fresh did output db m = (Ok rot, m') ->
  exists pw rest c1 p1 c2 p2, m_secrets m = Ok pw :: rest /\
    keys (db_at db m) !! (did +:+ "#signing") = Some c1 /\ decrypt_key c1 pw = Ok p1 /\
    keys (db_at db m) !! (did +:+ "#rotation") = Some c2 /\ decrypt_key c2 pw = Ok p2 /\
    rot = set_extension output "rotation" /\ output <> db /\
    m_dbs m' = delete rot (delete output (<[db := db_at db m]> (m_dbs m))) /\
    m_files m' = <[rot := export_blob (did +:+ "#rotation") c2]>
                   (<[output := export_blob (did +:+ "#signing") c1]> (delete db (m_files m))) /\
    m_modes m' = <[rot := OWNER_ONLY]> (<[output := OWNER_ONLY]> (m_modes m)).
Proof.
  unfold export_run. intros E. apply bind_Ok in E as (pw & m1 & E1 & E). unfold prompt_password in E1.
  destruct (m_secrets m) as [|s rest] eqn:Es; [done|]. injection E1 as -> <-.
  apply bind_Ok in E as ([] & m2 & E1 & E). apply open_db_Ok in E1. rename E1 into Ho.
  destruct (opened_db_at _ _ _ Ho) as [_ Hd]. destruct Ho as (Hdbs & Hf & _ & Hm & _).
  change (db_at db (set_secrets rest m)) with (db_at db m) in *.
  apply bind_Ok in E as ([] & m3 & E1 & E). apply export_slot_Ok in E1 as (c1 & p1 & Hdb1 & Hc1 & Hp1 & Hf1 & Hd1 & Hm1 & _).
  apply bind_Ok in E as ([] & m4 & E1 & E). apply export_slot_Ok in E1 as (c2 & p2 & Hdb2 & Hc2 & Hp2 & Hf2 & Hd2 & Hm2 & _).
  unfold ret in E. injection E as <- <-.
  assert (output <> db) as Hne by (intros ->; by rewrite Hd1, lookup_delete_eq in Hdb2).
  assert (db_at db m3 = db_at db m) as Hd3.
  { rewrite <- Hd. apply db_there. rewrite Hd1, lookup_delete_ne by done. done. }
  rewrite Hd in Hc1. rewrite Hd3 in Hc2.
  exists pw, rest, c1, p1, c2, p2. split_and!; try done.
  - by rewrite Hd2, Hd1, Hdbs.
  - by rewrite Hf2, Hf1, Hf.
  - by rewrite Hm2, Hm1, Hm.
Qed.

(** An import without faults, from files that hold two blobs, into a database. *)
Lemma import_run_files did id1 id2 input db m pw rest c1 p1 c2 p2 :
  m_secrets m = Ok pw :: rest -> m_faults m = [] -> m_files m !! db = None ->
  m_files m !! input = Some (export_blob id1 c1) ->
  m_files m !! set_extension input "rotation" = Some (export_blob id2 c2) ->
  str_len id1 < 2 ^ 32 -> str_len c1 < 2 ^ 32 -> str_len id2 < 2 ^ 32 -> str_len c2 < 2 ^ 32 ->
  decrypt_key c1 pw = Ok p1 -> decrypt_key c2 pw = Ok p2 ->
  exists m', import_run fresh usize64 did input db m = (Ok true, m') /\
    db_at db m' = with_slots did c1 c2 (db_at db m).
Proof.
  intros Hs Hf Hn Hf1 Hf2 Hi1 Hc1 Hi2 Hc2 Hp1 Hp2. unfold import_run, bind at 1, prompt_password. rewrite Hs.
  set (m1 := set_secrets rest m).
  destruct (open_db_quiet (Cid := Cid) db m1 Hf Hn) as (m2 & E2 & Ho2 & Hfs2 & Hq2).
  unfold bind at 1. rewrite E2. cbn [fst snd].
  destruct (opened_db_at _ _ _ Ho2) as [Hdb2 Hd2].
  destruct (import_slot_run (Cid := Cid) db "signing" id1 (did +:+ "#signing") pw input m2 c1 p1)
    as (m3 & E3 & Ho3 & Hq3); [done|by rewrite Hd2|by rewrite Hfs2|done..|].
  unfold bind at 1. rewrite E3. cbn [fst snd].
  destruct (only_db_at _ _ _ _ Ho3) as [Hd3 Hdb3]. destruct Ho3 as (_ & Hfs3 & _).
  destruct (import_slot_run (Cid := Cid) db "rotation" id2 (did +:+ "#rotation") pw
              (set_extension input "rotation") m3 c2 p2)
    as (m4 & E4 & Ho4 & _); [done|by rewrite Hd3|by rewrite Hfs3, Hfs2|done..|].
  unfold bind at 1. unfold path_exists. rewrite Hfs3, Hfs2. cbn [m1 set_secrets m_files]. rewrite Hf2.
  cbn. unfold bind at 1. rewrite E4. cbn. exists m4. split; [done|].
  rewrite (proj1 (only_db_at _ _ _ _ Ho4)), Hd3, Hd2. done.
Qed.

End KeyFiles.

(** ** Properties: key files *)

(** C33: exported keys import.  What [export-keys] writes, read on another machine
    by [import-keys] under the same passphrase, puts both keys under the DID
    given there, as they were, and leaves every other key of that database —
    provided the name of the output is not one whose extension is already
    [rotation], and the database imported into is not one of the files. *)
Theorem export_import_keys `{KeyCipherLaws} `{PlcLib} {Cid : Type} `{Countable Cid} `{!DatabaseFile (Inner Cid)}
    did did' output db db' (m m1 m2 : Machine (Inner Cid)) rot pw rest rest'
    (Hsecret : m_secrets m = Ok pw :: rest)
    (Hexport : export_run Inner_default did output db m = (Ok rot, m1))
    (Hname : set_extension output "rotation" <> output)
    (Hcopied : m_files m2 = m_files m1) (Hnew : m_files m2 !! db' = None)
    (Hsame : m_secrets m2 = Ok pw :: rest') (Hquiet : m_faults m2 = [])
    (Hdid : str_len did < 2 ^ 31)
    (Hsize : forall id c, keys (db_at db m) !! id = Some c -> str_len c < 2 ^ 32) :
  exists m3, import_run Inner_default usize64 did' output db' m2 = (Ok true, m3) /\
    (forall slot, slot ∈ ["#signing"; "#rotation"] ->
       keys (db_at db' m3) !! (did' +:+ slot) = keys (db_at db m) !! (did +:+ slot) /\
       is_Some (keys (db_at db m) !! (did +:+ slot))) /\
    (forall id, id <> did' +:+ "#signing" -> id <> did' +:+ "#rotation" ->
       keys (db_at db' m3) !! id = keys (db_at db' m2) !! id).
Proof.
  apply export_run_Ok in Hexport as (pw' & rest0 & c1 & p1 & c2 & p2 & Hs & Hc1 & Hp1 & Hc2 & Hp2 & -> & _ & _ & Hf & _).
  rewrite Hsecret in Hs. injection Hs as <- <-.
  destruct (import_run_files did' (did +:+ "#signing") (did +:+ "#rotation") output db' m2 pw rest' c1 p1 c2 p2)
    as (m3 & E & Hd); try done.
  { rewrite Hcopied, Hf, lookup_insert_ne, lookup_insert_eq by done. done. }
  { by rewrite Hcopied, Hf, lookup_insert_eq. }
  { rewrite str_len_app. change (str_len "#signing") with 8. lia. }
  { by eapply Hsize. }
  { rewrite str_len_app. change (str_len "#rotation") with 9. lia. }
  { by eapply Hsize. }
  exists m3. split; [done|]. rewrite Hd. unfold with_slots. cbn [keys set_keys].
  assert (did' +:+ "#rotation" <> did' +:+ "#signing") as Hne by exact (not_eq_sym (key_ids_ne did')).
  split.
  - intros slot Hslot. apply elem_of_cons in Hslot as [->|Hslot].
    + rewrite lookup_insert_ne, lookup_insert_eq by done. rewrite Hc1. by split.
    + apply list_elem_of_singleton in Hslot as ->. rewrite lookup_insert_eq, Hc2. by split.
  - intros id Hn1 Hn2. by rewrite !lookup_insert_ne by congruence.
Qed.

(** an output named [*.rotation] loses the signing key.  The rotation key goes
    to the output with its extension replaced, not appended: if the output
    already has that extension, both keys are written to the one file, the
    signing key is overwritten although the export succeeds, and an import of
    the file installs the rotation key as the signing key. *)
Theorem export_overwrites_signing_key `{KeyCipherLaws} `{PlcLib} {Cid : Type} `{Countable Cid} `{!DatabaseFile (Inner Cid)}
    did did' output db db' (m m1 m2 : Machine (Inner Cid)) rot pw rest rest'
    (Hsecret : m_secrets m = Ok pw :: rest)
    (Hexport : export_run Inner_default did output db m = (Ok rot, m1))
    (Hname : set_extension output "rotation" = output)
    (Hcopied : m_files m2 = m_files m1) (Hnew : m_files m2 !! db' = None)
    (Hsame : m_secrets m2 = Ok pw :: rest') (Hquiet : m_faults m2 = [])
    (Hdid : str_len did < 2 ^ 31)
    (Hsize : forall id c, keys (db_at db m) !! id = Some c -> str_len c < 2 ^ 32) :
  exists c, keys (db_at db m) !! (did +:+ "#rotation") = Some c /\
    m_files m1 = <[output := export_blob (did +:+ "#rotation") c]> (delete db (m_files m)) /\
    exists m3, import_run Inner_default usize64 did' output db' m2 = (Ok true, m3) /\
      keys (db_at db' m3) !! (did' +:+ "#signing") = Some c.
Proof.
  apply export_run_Ok in Hexport as (pw' & rest0 & c1 & p1 & c2 & p2 & Hs & Hc1 & Hp1 & Hc2 & Hp2 & -> & _ & _ & Hf & _).
  rewrite Hsecret in Hs. injection Hs as <- <-. rewrite Hname, insert_insert_eq in Hf.
  exists c2. split; [done|]. split; [done|].
  assert (m_files m2 !! output = Some (export_blob (did +:+ "#rotation") c2)) as Hfile
    by by rewrite Hcopied, Hf, lookup_insert_eq.
  assert (str_len (did +:+ "#rotation") < 2 ^ 32)
    by (rewrite str_len_app; change (str_len "#rotation") with 9; lia).
  destruct (import_run_files did' (did +:+ "#rotation") (did +:+ "#rotation") output db' m2 pw rest' c2 p2 c2 p2)
    as (m3 & E & Hd); try done; [by rewrite Hname|by eapply Hsize|by eapply Hsize|].
  exists m3. split; [done|]. rewrite Hd. unfold with_slots. cbn [keys set_keys].
  rewrite lookup_insert_ne, lookup_insert_eq; [done|]. exact (not_eq_sym (key_ids_ne did')).
Qed.

Example set_extension_examples :
  set_extension "keys.bin" "rotation" = "keys.rotation" /\ set_extension "keys" "rotation" = "keys.rotation" /\
  set_extension "out/.hidden" "rotation" = "out/.hidden.rotation" /\
  set_extension "a.b/keys.tar.gz" "rotation" = "a.b/keys.tar.rotation" /\
  set_extension "keys.rotation" "rotation" = "keys.rotation" /\ set_extension "../.." "rotation" = "../..".
Proof. by vm_compute. Qed.

(** ** Properties: the operator's commands *)

(** Naming an account reads one database. *)
Lemma named_did_Ok `{PlcLib} {Cid : Type} `{Countable Cid} path identifier did (m m' : Machine (Inner Cid)) :
  named_did path identifier m = (Ok did, m') ->
  (did = identifier \/ fst (mem_get_did_by_handle identifier (db_at path m)) = Ok (Some did)) /\
  db_at path m' = db_at path m /\ m_secrets m' = m_secrets m /\
  forall q, q <> path -> db_at q m' = db_at q m.
Proof.
  unfold named_did. destruct (starts_with _ _); [intros [= -> ->]; split; [by left|done]|].
  intros E. apply bind_Ok in E as (o & m1 & E1 & E). unfold lift in E. injection E as E <-.
  apply ok_or_Ok in E as ->. apply (on_db_mirror _ _ _ _ _ _ _ (mirrors_call _)) in E1 as (g & E1 & Ho & _).
  cbn in E1. unfold mem_get_did_by_handle, read in *. injection E1 as E1 <-.
  destruct (only_db_at _ _ _ _ Ho) as [Hd _]. pose proof Ho as (_ & _ & _ & _ & Hs & _).
  split; [right; cbn; by rewrite E1|]. split; [done|]. split; [done|].
  intros q Hq. by apply (only_db_others path q _ m m1 Ho).
Qed.

(** a reset password is the password.  A reset that reports success found the
    account — by its handle, or as the DID given — and changed nothing of any
    database but that account's password hash; the new password, typed twice and
    of at least eight bytes, verifies against it.  Without a database at the
    path, no command does anything, and none is created. *)
Theorem admin_reset_password `{Argon2Laws} `{PlcLib} {Cid : Type} `{Countable Cid} path d identifier did
    (m m' : Machine (Inner Cid))
    (Hrun : admin_run Inner_default path d (ResetPassword identifier) m = (Ok (PasswordReset did), m')) :
  path_exists path m = true /\
  exists a pw rest phc,
    m_secrets m = Ok pw :: Ok pw :: rest /\ 8 <= str_len pw /\ verify_password pw phc = Ok true /\
    accounts (db_at path m) !! did = Some a /\
    (did = identifier \/ fst (mem_get_did_by_handle identifier (db_at path m)) = Ok (Some did)) /\
    db_at path m' = set_accounts (<[did := with_password phc a]> (accounts (db_at path m))) (db_at path m) /\
    forall q, q <> path -> db_at q m' = db_at q m.
Proof.
  unfold admin_run in Hrun. destruct (path_exists path m); [|done]. split; [done|]. cbn [negb] in Hrun.
  apply bind_Ok in Hrun as ([] & m1 & E1 & E). apply open_db_Ok in E1 as Ho1.
  destruct (opened_db_at _ _ _ Ho1) as [_ Hd1]. pose proof Ho1 as (_ & _ & _ & _ & _ & Hs1 & _).
  cbn [admin_command] in E. unfold reset_password in E. apply bind_Ok in E as (did' & m2 & E2 & E).
  apply named_did_Ok in E2 as (Hdid & Hd2 & Hs2 & Hq2). rewrite Hd1 in Hdid, Hd2. rewrite Hs1 in Hs2.
  apply bind_Ok in E as (pw & m3 & E3 & E). unfold prompt_password in E3. rewrite Hs2 in E3.
  destruct (m_secrets m) as [|s1 rest1]; [done|]. injection E3 as -> <-.
  apply bind_Ok in E as ([] & m4 & E4 & E). apply assert_or_Ok in E4 as [Hlen ->].
  apply bind_Ok in E as (confirm & m5 & E5 & E). unfold prompt_password in E5. cbn in E5.
  destruct rest1 as [|s2 rest]; [done|]. injection E5 as -> <-.
  apply bind_Ok in E as ([] & m6 & E6 & E). apply assert_or_Ok in E6 as [Heq ->]. apply String.eqb_eq in Heq as <-.
  apply bind_Ok in E as (phc & m7 & E7 & E). unfold lift in E7. injection E7 as E7 <-. apply map_err_Ok in E7.
  apply bind_Ok in E as (n & m8 & E8 & E).
  apply (on_db_mirror _ _ _ _ _ _ _ (mirrors_call _)) in E8 as (g & E8 & Ho8 & _).
  apply bind_Ok in E as ([] & m9 & E9 & E). apply assert_or_Ok in E9 as [Hn ->].
  unfold ret in E. injection E as <- <-.
  change (db_at path _) with (db_at path m2) in E8. rewrite Hd2 in E8.
  cbn in E8. unfold mem_update_password, alter_account in E8.
  destruct (accounts (db_at path m) !! did') as [a|] eqn:Ea; [|by injection E8 as <- <-].
  injection E8 as <- <-. exists a, pw, rest, phc. split_and!; try done.
  - destruct (Z.ltb_spec (str_len pw) 8); [done|lia].
  - by apply hash_verifies in E7.
  - by apply only_db_at in Ho8 as [? _].
  - intros q Hq. rewrite (only_db_others _ _ _ _ _ Ho8 Hq). change (db_at q m2 = db_at q m).
    by rewrite Hq2, (opened_db_others _ _ _ _ Ho1 Hq).
Qed.

(** ** The authorization server's key *)

(** [g] has the key of the authorization server. *)
Definition holds_signing_key `{Digests} `{Ecdsa} `{KeyCiphers} {Cid : Type} `{Countable Cid}
    (passphrase : bytes) (key : SigningKey) (g : Inner Cid) : Prop :=
  exists b scalar, keys g !! AS_SIGNING_KEY = Some b /\ decrypt_key b passphrase = Ok scalar /\
    import scalar = Ok key.

(** Loading leaves the database, whatever fails. *)
Lemma flaky_load_key `{KeyCiphers} {Cid : Type} `{Countable Cid} id passphrase (g : Inner Cid) fs r x :
  load_key (St := Flaky (Inner Cid)) id passphrase (g, fs) = (r, x) ->
  fst x = g /\ (forall k, r = Ok k -> exists b, keys g !! id = Some b /\ decrypt_key b passphrase = Ok k).
Proof.
  destruct x as [g1 fs1]. unfold load_key, bind.
  destruct (get_key_blob (KeyStore := flaky_keys) id (g, fs)) as [r1 [g2 fs2]] eqn:E.
  change (flaky_call (mem_get_key_blob id) (g, fs) = (r1, (g2, fs2))) in E.
  apply flaky_call_cases in E as [[-> Hr]|E].
  - destruct r1; [done|]. intros [= <- <- <-]. by split.
  - cbn in E. unfold mem_get_key_blob, read in E. injection E as <- <-.
    destruct (keys g !! id) as [b|] eqn:Eb; intros [= <- <- <-]; cbn; (split; [done|]); [|done].
    intros k [= Hk]. by exists b.
Qed.

(** Storing a key stores it, or does nothing. *)
Lemma flaky_store_key `{KeyCiphers} {Cid : Type} `{Countable Cid} salt nonce id pt passphrase (g : Inner Cid) fs r x :
  store_key (St := Flaky (Inner Cid)) salt nonce id pt passphrase (g, fs) = (r, x) ->
  fst x = g /\ is_err r = true \/
  exists b, r = Ok tt /\ encrypt_key salt nonce pt passphrase = Ok b /\ fst x = set_keys (<[id := b]> (keys g)) g.
Proof.
  destruct x as [g1 fs1]. unfold store_key, bind, lift. destruct (encrypt_key _ _ _ _) as [b|e]; [|intros [= <- <- <-]; by left].
  change (flaky_call (mem_put_key_blob id b) (g, fs) = (r, (g1, fs1)) ->
    g1 = g /\ is_err r = true \/
    exists b', r = Ok tt /\ (Ok b : result StorageError bytes) = Ok b' /\ g1 = set_keys (<[id := b']> (keys g)) g).
  intros E. apply flaky_call_cases in E as [[-> Hr]|E]; [by left|].
  cbn in E. unfold mem_put_key_blob, write in E. injection E as <- <-. right. by exists b.
Qed.

(** The key that was loaded or made is held. *)
Lemma signing_key_held `{Digests} `{Json} `{EcdsaLaws} `{KeyCipherLaws} {Cid : Type} `{Countable Cid}
    fresh1 salt1 nonce1 passphrase (g g1 : Inner Cid) fs fs1 key :
  str_len salt1 = 16 -> str_len nonce1 = 12 ->
  as_signing_key (St := Flaky (Inner Cid)) fresh1 salt1 nonce1 passphrase (g, fs) = (Ok key, (g1, fs1)) ->
  accounts g1 = accounts g /\ holds_signing_key passphrase key g1.
Proof.
  intros Hs Hn E. unfold as_signing_key in E. apply bind_Ok in E as (loaded & [g2 fs2] & El & E).
  unfold catch in El. destruct (load_key _ _ _) as [r [g3 fs3]] eqn:Eg. injection El as <- <- <-.
  apply flaky_load_key in Eg as [Eg Hk]. cbn in Eg. subst g3. destruct r as [scalar|e].
  - destruct (Hk scalar eq_refl) as (b & Hb & Hd). unfold lift in E. injection E as Ei <- <-. split; [done|]. by exists b, scalar.
  - apply bind_Ok in E as ([] & [g4 fs4] & E1 & E). unfold ret in E. injection E as <- <- <-.
    unfold with_err in E1. destruct (store_key _ _ _ _ _ _) as [[[]|x] [g5 fs5]] eqn:E2; [|done].
    injection E1 as <- <-. apply flaky_store_key in E2 as [[_ Hr]|(b & _ & Hb & Eg)]; [done|]. cbn in Eg. subst g5.
    apply (decrypt_encrypt _ _ _ _ _ Hs Hn) in Hb. split; [done|]. exists b, (export (generate fresh1)).
    split; [by cbn; rewrite lookup_insert_eq|]. split; [done|].
    unfold import, export. cbn [with_derived_kid generate inner]. by rewrite (p256_from_to_bytes fresh1).
Qed.

(** Without failures the storage itself is run. *)
Lemma as_signing_key_calm `{Digests} `{Json} `{Ecdsa} `{KeyCiphers} {Cid : Type} `{Countable Cid}
    fresh1 salt1 nonce1 passphrase (g : Inner Cid) :
  as_signing_key (St := Flaky (Inner Cid)) fresh1 salt1 nonce1 passphrase (g, []) =
  (let '(r, g') := as_signing_key (St := Inner Cid) fresh1 salt1 nonce1 passphrase g in (r, (g', []))).
Proof.
  unfold as_signing_key, bind, catch, load_key. cbn. destruct (keys g !! AS_SIGNING_KEY) as [b|]; cbn.
  - unfold lift. destruct (decrypt_key b passphrase) as [scalar|e]; [done|].
    unfold with_err, store_key, bind, lift, ret. by destruct (encrypt_key _ _ _ _).
  - unfold with_err, store_key, bind, lift, ret. by destruct (encrypt_key _ _ _ _).
Qed.

(** A key that is held is the one used. *)
Lemma held_key_used `{Digests} `{Json} `{Ecdsa} `{KeyCiphers} {Cid : Type} `{Countable Cid}
    fresh2 salt2 nonce2 passphrase (g : Inner Cid) key :
  holds_signing_key passphrase key g ->
  as_signing_key fresh2 salt2 nonce2 passphrase g = (Ok key, g).
Proof.
  intros (b & scalar & Hb & Hd & Hi). unfold as_signing_key, bind, catch, load_key. cbn. rewrite Hb. cbn.
  unfold bind, lift. by rewrite Hd, Hi.
Qed.

(** access tokens survive a restart.  Once the authorization server has started
    on a database, starting it again under the same passphrase, whatever it
    draws, changes nothing and signs with the same key; under the same secret it
    issues the same nonces. *)
Theorem signing_key_survives_restart `{Digests} `{Json} `{EcdsaLaws} `{UrlLib} `{KeyCipherLaws} {Cid : Type} `{Countable Cid}
    fresh1 fresh2 salt1 nonce1 salt2 nonce2 passphrase jwt issuer did resolve (g g1 : Inner Cid) o1
    (Hsalt : str_len salt1 = 16) (Hnonce : str_len nonce1 = 12)
    (Hstart : bootstrap fresh1 salt1 nonce1 passphrase jwt issuer did resolve g = (Ok o1, g1)) :
  exists o2, bootstrap fresh2 salt2 nonce2 passphrase jwt issuer did resolve g1 = (Ok o2, g1) /\
    ti_key (os_issuer o2) = ti_key (os_issuer o1) /\ os_nonce_secret o2 = os_nonce_secret o1 /\
    os_issuer_url o2 = os_issuer_url o1.
Proof.
  unfold bootstrap in *. apply bind_Ok in Hstart as (key & g2 & Ek & E). unfold ret in E. injection E as <- <-.
  exists {| os_issuer := {| ti_key := key; ti_issuer := trim_end_matches "/" issuer; ti_audience := did |};
            os_nonce_secret := derive_nonce_secret jwt; os_resolve := resolve;
            os_issuer_url := trim_end_matches "/" issuer |}.
  split; [|done]. unfold bind.
  pose proof (as_signing_key_calm fresh1 salt1 nonce1 passphrase g) as Ec. rewrite Ek in Ec.
  apply signing_key_held in Ec as [_ Hk]; [|done..]. by rewrite held_key_used with (key := key).
Qed.

(** ** Witnesses *)

(** A database begins with SQLite's magic string. *)
#[export] Instance demo_image : DatabaseFile (Inner nat) := {
  db_image _ := "SQLite format 3" +:+ String "000" EmptyString
}.
Definition demo_pass : string := "passphrase".
Definition demo_account_keys : Inner nat :=
  let put id key g := snd (store_key "0123456789abcdef" "0123456789ab" id key demo_pass g) in
  put "did:a#rotation" "rotation key" (put "did:a#signing" "signing key" Inner_default).
(** A machine with one database and what is typed at the prompt. *)
Definition demo_machine (g : Inner nat) (secrets : list string) (files : gmap string bytes) : Machine (Inner nat) :=
  MkMachine {[ "pds.db" := g ]} files ∅ [] [] (map Ok secrets) ∅ [] [].

Abbreviation demo_source := (demo_machine demo_account_keys [demo_pass] ∅) (only parsing).
Definition demo_export (output : string) : result string PathBuf * Machine (Inner nat) :=
  export_run Inner_default "did:a" output "pds.db" demo_source.

Lemma demo_keys_small id c :
  keys (db_at "pds.db" demo_source) !! id = Some c -> str_len c < 2 ^ 32.
Proof.
  intros E. change (keys demo_account_keys !! id = Some c) in E.
  assert (map_Forall (fun _ c => str_len c < 2 ^ 32) (keys demo_account_keys)) as Hall
    by (apply (bool_decide_unpack _); vm_compute; exact I).
  by apply (Hall id).
Qed.

Lemma export_import_keys_witness :
  exists m3, import_run Inner_default usize64 "did:b" "keys.bin" "new.db"
               (demo_machine Inner_default [demo_pass] (m_files (snd (demo_export "keys.bin")))) = (Ok true, m3) /\
    is_Some (keys (db_at "new.db" m3) !! "did:b#rotation").
Proof.
  destruct (demo_export "keys.bin") as [r m1] eqn:E.
  assert (r = Ok "keys.rotation") as -> by (apply (f_equal fst) in E; vm_compute in E; by rewrite E).
  assert (m_files m1 !! "new.db" = None) as Hnew.
  { assert (m_files m1 !! "new.db" = m_files (snd (demo_export "keys.bin")) !! "new.db") as -> by (by rewrite E).
    vm_compute. reflexivity. }
  destruct (export_import_keys "did:a" "did:b" "keys.bin" "pds.db" "new.db" demo_source m1
              (demo_machine Inner_default [demo_pass] (m_files m1)) "keys.rotation" demo_pass [] []
              eq_refl E ltac:(by vm_compute) eq_refl Hnew eq_refl eq_refl ltac:(by vm_compute) demo_keys_small)
    as (m3 & E3 & Hk & _).
  exists m3. split; [exact E3|].
  destruct (Hk "#rotation") as [Eq Hs]; [by right; left|].
  change "did:b#rotation" with ("did:b" +:+ "#rotation"). rewrite Eq. exact Hs.
Defined.

Lemma export_overwrites_signing_key_witness :
  exists c, keys demo_account_keys !! "did:a#rotation" = Some c /\
    m_files (snd (demo_export "keys.rotation")) = {[ "keys.rotation" := export_blob "did:a#rotation" c ]}.
Proof.
  destruct (demo_export "keys.rotation") as [r m1] eqn:E.
  assert (r = Ok "keys.rotation") as -> by (apply (f_equal fst) in E; vm_compute in E; by rewrite E).
  assert (m_files m1 !! "new.db" = None) as Hnew.
  { assert (m_files m1 !! "new.db" = m_files (snd (demo_export "keys.rotation")) !! "new.db") as -> by (by rewrite E).
    vm_compute. reflexivity. }
  destruct (export_overwrites_signing_key "did:a" "did:b" "keys.rotation" "pds.db" "new.db" demo_source m1
              (demo_machine Inner_default [demo_pass] (m_files m1)) "keys.rotation" demo_pass [] []
              eq_refl E ltac:(by vm_compute) eq_refl Hnew eq_refl eq_refl ltac:(by vm_compute) demo_keys_small)
    as (c & Hc & Hf & _).
  exists c. by split.
Defined.

Definition demo_admin_draw : AdminDraw := {| dr_now := "2027"; dr_invite := "invite-8"; dr_phc_salt := "salt" |}.

Lemma admin_reset_password_witness :
  exists phc, accounts (db_at "pds.db" (snd (admin_run Inner_default "pds.db" demo_admin_draw (ResetPassword "a.test")
                          (demo_machine demo_members ["a new password"; "a new password"] ∅)))) !! "did:a"
              = Some (with_password phc demo_row) /\ verify_password "a new password" phc = Ok true.
Proof.
  set (m := demo_machine _ _ _). destruct (admin_run Inner_default _ _ _ m) as [r m'] eqn:E.
  assert (r = Ok (PasswordReset "did:a")) as -> by (apply (f_equal fst) in E; vm_compute in E; by rewrite E).
  destruct (admin_reset_password _ _ _ _ _ _ E) as (_ & a & pw & rest & phc & Hs & _ & Hv & Ha & _ & Hd & _).
  injection Hs as <- _. assert (a = demo_row) as -> by (vm_compute in Ha; by injection Ha).
  exists phc. split; [|exact Hv]. cbn [snd]. rewrite Hd. cbn. by rewrite lookup_insert_eq.
Defined.

Definition demo_start (salt : string) (g : Inner nat) : result OAuthError OAuthState * Inner nat :=
  bootstrap demo_key salt "0123456789ab" demo_pass "hmac" "https://pds.test/" "did:web:pds.test"
    (fun _ => Err (InvalidClient "unused")) g.

Lemma signing_key_survives_restart_witness :
  exists o1 o2, fst (demo_start "0123456789abcdef" Inner_default) = Ok o1 /\
    fst (demo_start "fedcba9876543210" (snd (demo_start "0123456789abcdef" Inner_default))) = Ok o2 /\
    ti_key (os_issuer o2) = ti_key (os_issuer o1).
Proof.
  destruct (demo_start "0123456789abcdef" Inner_default) as [[o1|e] g1] eqn:E;
    [|exfalso; apply (f_equal (fun x => is_ok (fst x))) in E; vm_compute in E; discriminate E].
  destruct (signing_key_survives_restart demo_key demo_key "0123456789abcdef" "0123456789ab" "fedcba9876543210"
              "0123456789ab" demo_pass "hmac" "https://pds.test/" "did:web:pds.test"
              (fun _ => Err (InvalidClient "unused")) Inner_default g1 o1 eq_refl eq_refl E)
    as (o2 & E2 & Hk & _).
  exists o1, o2. split; [reflexivity|]. split; [|exact Hk]. cbn [snd]. unfold demo_start. by rewrite E2.
Defined.
