(* ===== verification/Init.v ===== *)
(** * The set-up wizard

    [src/rust-pds/src/cmd/init.rs]: the prompts, adding an account to a database
    that has some, the wizard itself and the command that runs them.  Messages
    and timings are not modelled; what the network answers is a parameter. *)

From Stdlib Require Import ZArith Lia Ascii.
From S2P Require Import Prelude RustStr Externals StoreTypes Utf8 OAuthCore Jose MemoryStore Client.
From S2P Require Import OAuthServer Session KeyCrypto Identity Accounts Outbound IdentityXrpc Firehose Flaky Machine Setup Commands.

(** ** Prompts that ask again *)

(** The first line that is understood; [eof] once the input has ended. *)
Fixpoint ask_lines {A} (eof : A) (understand : string -> option A) (lines : list (result string string))
    : result string A * list (result string string) :=
  match lines with
  | [] => (Ok eof, [])
  | Err e :: ls => (Err e, ls)
  | Ok line :: ls =>
      match understand (trim line) with
      | Some a => (Ok a, ls)
      | None => ask_lines eof understand ls
      end
  end.

Definition recommended_mode (r : Recommendation) : Mode :=
  match r with RStandalone => Standalone | RProxy | RTunnel => Proxy end.

Definition understand_mode (recommended : Recommendation) (line : string) : option Mode :=
  if String.eqb line "" then Some (recommended_mode recommended)
  else if String.eqb line "1" then Some Standalone
  else if String.eqb line "2" then Some Proxy
  else None.

Definition understand_add (line : string) : option bool :=
  let l := to_ascii_lowercase line in
  if mem_str l [""; "s"; "skip"; "n"; "no"] then Some false
  else if mem_str l ["a"; "add"; "y"; "yes"] then Some true
  else None.

(** [str::parse::<u16>]. *)
Definition parse_u16 (s : string) : option Z :=
  let ds := match s with String "+" r => r | _ => s end in
  match ds with
  | EmptyString => None
  | _ => v ← parse_digits 0 ds; if v <? 65536 then Some v else None
  end.

Record InitArgs := MkInitArgs {
  ia_hostname : option string;
  ia_did_method : DidMethod;
  ia_mode : option Mode;
  ia_db_path : string;
  ia_port : option Z;
  ia_relay_url : string;
  ia_plc_url : string;
  ia_acme : option AcmeEnv;
  ia_handle : option string;
  ia_jwt_secret : option string;
  ia_key_passphrase : option string;
  ia_password : option string;
}.

Record WizardOpts := MkWizardOpts {
  wo_hostname : string;
  wo_did_method : DidMethod;
  wo_handle : string;
  wo_password : string;
  wo_mode_override : option Mode;
  wo_relay_url : string;
  wo_db_path : string;
  wo_port : Z;
  wo_acme_env : option string;
  wo_config_path : PathBuf;
}.

Record WizardOutcome := MkOutcome {
  wz_did : string;
  wz_dns_check : DnsCheck;
  wz_mode_recommendation : Recommendation;
  wz_did_method : string;
}.

(** What a run draws at random. *)
Record InitDraw `{Ecdsa} := {
  id_jwt : bytes;
  id_as_key : P256Key;
  id_as_salt : bytes;
  id_as_nonce : bytes;
  id_invite : bytes;
}.

Section Init.
Context `{Digests} `{Json} `{Jwt} `{Ecdsa} `{UrlLib} `{!UrlHost} `{Argon2} `{KeyCiphers} `{KeypairIO} `{PlcLib} `{TomlLib}.
Context {Cid St : Type} `{StorageBackend Cid St} `{!DatabaseFile St}.
Variable fresh_db : St.
Variable SUPPORTED : bool.

(** The world outside: whether standard input is a terminal, the environment's
    administrator password, port 443, the echo service ([ip_text] writes an
    address), the resolver, the directory, did:web documents, a client's
    metadata, and relays. *)
Variable is_tty : bool.
Variable env_password : option string.
Variable bindable : bool.
Variable fetch_ip : result string IpAddr.
Variable ip_text : IpAddr -> string.
Variable resolve_a : string -> result string (list IpAddr).
Variable plc_answer : string -> PlcGenesisOpSigned -> result CoreError unit.
Variable did_web_resolve : string -> option Value.
Variable client_metadata : ClientId -> result OAuthError ClientMetadata.
Variable status_text : Z -> string.
Variable relay_answer : CrawlPost -> result string Z.
(** [XrpcError]'s [Debug], [OAuthError]'s [Display]. *)
Variable xrpc_debug : XrpcError -> string.
Variable oauth_text : OAuthError -> string.

Notation Mach := (Machine St).
Notation M A := (SE Mach string A).

Definition ask_again {A} (eof : A) (understand : string -> option A) : M A :=
  fun m => let '(r, ls) := ask_lines eof understand (m_lines m) in (r, set_lines ls m).

Definition prompt_mode (recommended : Recommendation) : M Mode :=
  ask_again (recommended_mode recommended) (understand_mode recommended).

Definition prompt_add_or_skip : M bool := ask_again false understand_add.

Definition resolve_password (explicit : option string) : M string :=
  match or_else explicit env_password with
  | Some p => ret p
  | None =>
      if negb is_tty then throw "init requires a terminal to prompt for a password; pass --password or set PDS_ADMIN_PASSWORD to run non-interactively"
      else prompt_password
  end.

(** The clients of an [AppState]. *)
Definition new_clients : M unit :=
  (new_client "Failed to create PLC client" ;;!
   new_client "Failed to create did:web resolver" ;;!
   new_client "Failed to create relay client" ;;!
   new_client "Failed to create AppView client")%se.

(** The [AppState] that registers accounts, once the authorization server has
    its key. *)
Definition init_state (d : InitDraw) (db : PathBuf) (hostname : string) (jwt passphrase : bytes) : M AppState :=
  (let! _o := on_db db (fun e => "Failed to initialize the OAuth server: " +:+ oauth_text e)
                (bootstrap (id_as_key d) (id_as_salt d) (id_as_nonce d) passphrase jwt
                   ("https://" +:+ hostname) ("did:web:" +:+ hostname) client_metadata) in
   new_client "resolver" ;;!
   ret (MkAppState jwt hostname ("https://" +:+ hostname) false passphrase))%se.

Definition register_account (a : AccountDraw) (db : PathBuf) (what : string) (state : AppState)
    (input : CreateAccountInput) : M CreateAccountResponse :=
  on_account_world db (fun e => what +:+ ": " +:+ xrpc_debug e)
    (create_account_inner state plc_answer did_web_resolve a input).

Definition WRONG_PASSPHRASE : string :=
  "that key passphrase does not match this PDS — it must be the SAME passphrase used when the PDS was first created (the one `stelyph serve` decrypts keys with)".

Definition add_user (d : InitDraw) (a : AccountDraw) (args : InitArgs) (hostname handle probe_did : string) : M string :=
  (let db := ia_db_path args in
   let! password := resolve_password (ia_password args) in
   assert_or (negb (str_len password <? 8)) "password must be at least 8 characters" ;;!
   let! passphrase := match ia_key_passphrase args with
                      | Some p => ret p
                      | None => prompt_password
                      end in
   let! _k := on_db db (fun _ : StorageError => WRONG_PASSPHRASE)
                (load_key (probe_did +:+ "#signing") passphrase) in
   new_clients ;;!
   let! state := init_state d db hostname (id_jwt d) passphrase in
   let code := generate_invite_code (id_invite d) in
   on_db db StorageError_to_string (insert_invite code 1 "admin") ;;!
   let! resp := register_account a db "account creation failed" state
     {| ca_handle := handle; ca_email := None; ca_password := Some password;
        ca_invite_code := Some code; ca_did := None; ca_recovery_key := None |} in
   ret (cr_did resp))%se.

(** ** The wizard *)

Definition UNSPECIFIED : IpAddr := V4 [0; 0; 0; 0].

Definition wizard_mode (mode_override : option Mode) : Recommendation :=
  match mode_override with
  | Some Standalone => RStandalone
  | Some Proxy => RProxy
  | None => fst (detect_mode bindable (match fetch_ip with Ok ip => Ok (ip_text ip) | Err e => Err e end))
  end.

Definition mode_str (r : Recommendation) : string :=
  match r with RStandalone => "standalone" | RProxy => "proxy" | RTunnel => "tunnel" end.

Definition did_method_str (m : DidMethod) : string :=
  match m with Plc => "plc" | Web => "web" end.

Definition wizard_config (opts : WizardOpts) (r : Recommendation) : PdsConfig := {|
  cfg_hostname := Some (wo_hostname opts);
  cfg_mode := Some (mode_str r);
  cfg_did_method := Some (did_method_str (wo_did_method opts));
  cfg_db_path := Some (wo_db_path opts);
  cfg_port := Some (wo_port opts);
  cfg_acme_env := wo_acme_env opts;
  cfg_acme_cache_dir := None; cfg_plc_url := None; cfg_relay_url := None;
  cfg_appview_url := None; cfg_appview_did := None; cfg_did_web_http_dev := None |}.

(** A relay that does not answer does not stop the wizard. *)
Definition crawl (relay_url hostname : string) : M unit :=
  fun m => let '(_, posts) := request_crawl status_text relay_answer relay_url hostname (m_crawls m) in
           (Ok tt, set_crawls posts m).

Definition run_wizard (a : AccountDraw) (state : AppState) (opts : WizardOpts) : M WizardOutcome :=
  (let recommendation := wizard_mode (wo_mode_override opts) in
   let external_ip := match fetch_ip with Ok ip => ip | Err _ => UNSPECIFIED end in
   let dns_check := check_a_record (resolve_a (wo_hostname opts)) external_ip in
   let! resp := register_account a (wo_db_path opts) "create_account_inner failed" state
     {| ca_handle := wo_handle opts; ca_email := None; ca_password := Some (wo_password opts);
        ca_invite_code := None; ca_did := None; ca_recovery_key := None |} in
   crawl (wo_relay_url opts) (wo_hostname opts) ;;!
   config_save (wizard_config opts recommendation) (wo_config_path opts) ;;!
   ret (MkOutcome (cr_did resp) dns_check recommendation (did_method_str (wo_did_method opts))))%se.

(** ** The command *)

(** A line, or the default when it is blank. *)
Definition read_or (d : string) : M string :=
  (let! line := read_line in
   ret (if String.eqb (trim line) "" then d else trim line))%se.

Definition init_hostname (args : InitArgs) (read_config_path : PathBuf) : M string :=
  match ia_hostname args with
  | Some h => ret h
  | None =>
      (let! cfg := config_load_or_default (Some read_config_path) in
       match cfg_hostname cfg with
       | Some def => read_or def
       | None =>
           let! entered := read_or "" in
           assert_or (negb (String.eqb entered "")) "hostname is required: enter one at the prompt, pass --hostname <host>, or set PDS_HOSTNAME" ;;!
           ret entered
       end)%se
  end.

Definition init_port (args : InitArgs) : M Z :=
  match ia_port args with
  | Some p => ret p
  | None =>
      (let! entered := read_or "3000" in
       lift (ok_or (parse_u16 entered) ("port must be an integer 1–65535, got '" +:+ entered +:+ "'")))%se
  end.

Definition init_mode (args : InitArgs) : M (option Mode) :=
  match ia_mode args with
  | Some m => ret (Some m)
  | None =>
      if is_tty then (let! m := prompt_mode (wizard_mode None) in ret (Some m))%se
      else ret None
  end.

Inductive InitReport :=
| Skipped
| AddedUser (did : string)
| Initialized (outcome : WizardOutcome).

(** The part that bootstraps the first account. *)
Definition init_first (d : InitDraw) (a : AccountDraw) (args : InitArgs) (hostname handle : string)
    (config_path : PathBuf) : M InitReport :=
  (let db := ia_db_path args in
   let! port := init_port args in
   new_client "Failed to create IP client" ;;!
   let! mode_override := init_mode args in
   let! password := resolve_password (ia_password args) in
   let jwt := default (b64url_encode (id_jwt d)) (ia_jwt_secret args) in
   let! key_passphrase := match ia_key_passphrase args with
                          | Some p => ret p
                          | None => prompt_password
                          end in
   open_db fresh_db db ;;!
   new_clients ;;!
   let! state := init_state d db hostname jwt key_passphrase in
   new_client "Failed to create DNS resolver" ;;!
   new_client "Failed to create relay client (wizard)" ;;!
   let! outcome := run_wizard a state
     (MkWizardOpts hostname (ia_did_method args) handle password mode_override (ia_relay_url args) db port
        (option_map (fun e => match e with Production => "production" | Staging => "staging" end) (ia_acme args))
        config_path) in
   (if SUPPORTED then
      let! _saved := catch (E := string) (F := string)
        (keychain_set SUPPORTED hostname JWT_SECRET (from_utf8_lossy jwt) ;;!
         keychain_set SUPPORTED hostname KEY_PASSPHRASE (from_utf8_lossy key_passphrase)) in ret tt
    else ret tt) ;;!
   ret (Initialized outcome))%se.

(** A database that has accounts is added to, or left alone. *)
Definition init_existing (d : InitDraw) (a : AccountDraw) (args : InitArgs) (hostname handle : string)
    (first : AccountSummary) (accounts : list AccountSummary) : M InitReport :=
  (assert_or is_tty (ia_db_path args +:+ " already has accounts; refusing to re-bootstrap non-interactively") ;;!
   let! add := prompt_add_or_skip in
   if negb add then ret Skipped
   else
     assert_or (negb (existsb (fun x => bool_decide (as_handle x = Some handle)) accounts))
       ("handle '" +:+ handle +:+ "' is already registered in " +:+ ia_db_path args) ;;!
     let! did := add_user d a args hostname handle (as_did first) in
     ret (AddedUser did))%se.

Definition init_run (d : InitDraw) (a : AccountDraw) (args : InitArgs) (config : option PathBuf) : M InitReport :=
  (let config_path := default "stelyph.toml" config in
   let! hostname := init_hostname args (resolve_config_path config) in
   let! handle := match ia_handle args with
                  | Some h => ret h
                  | None => read_or hostname
                  end in
   assert_or (String.eqb handle hostname || ends_with ("." +:+ hostname) handle)
     ("admin handle '" +:+ handle +:+ "' does not belong to hostname '" +:+ hostname +:+ "'") ;;!
   open_db fresh_db (ia_db_path args) ;;!
   let! accounts := on_db (ia_db_path args) StorageError_to_string list_accounts in
   match accounts with
   | first :: _ => init_existing d a args hostname handle first accounts
   | [] => init_first d a args hostname handle config_path
   end)%se.

(** ** stelyph serve *)

(** Start-up: the state the router serves, once the port is bound or the name
    has passed the checks of standalone mode; the relay is then asked to crawl.
    Leaving with [exit(1)] is the error. *)
Definition serve_run (d : InitDraw) (args : ServeArgs) (config : option PathBuf) : M (Settings * AppState) :=
  (let! s := serve_settings SUPPORTED (id_jwt d) is_tty args config in
   open_db fresh_db (se_db_path s) ;;!
   new_client "FATAL: Failed to create PLC client" ;;!
   new_client "FATAL: Failed to create relay client" ;;!
   new_client "FATAL: Failed to create AppView client" ;;!
   new_client "FATAL: Failed to create did:web resolver" ;;!
   let! _o := on_db (se_db_path s) (fun e => "FATAL: Failed to initialize the OAuth server: " +:+ oauth_text e)
                (bootstrap (id_as_key d) (id_as_salt d) (id_as_nonce d) (se_key_passphrase s) (se_jwt_secret s)
                   (se_pds_endpoint s) ("did:web:" +:+ se_hostname s) client_metadata) in
   new_client "resolver" ;;!
   match se_mode s with
   | Proxy => with_err (fun e => "FATAL: Failed to bind: " +:+ e) os_call
   | Standalone =>
       assert_or (looks_like_public_hostname (se_hostname s))
         ("FATAL: '" +:+ se_hostname s +:+ "' does not look like a public hostname") ;;!
       os_call ;;!
       assert_or (is_ok (resolve_a (se_hostname s)))
         ("FATAL: DNS lookup for '" +:+ se_hostname s +:+ "' failed")
   end ;;!
   crawl (se_relay_url s) (se_hostname s) ;;!
   ret (s, MkAppState (se_jwt_secret s) (se_hostname s) (se_pds_endpoint s) (se_open_registration s)
             (se_key_passphrase s)))%se.

End Init.
