(* ===== verification/InitProps.v ===== *)
(** * Properties of set-up and start-up

    What a server starts with, what the wizard leaves for it, and that set-up
    never harms a database that has accounts. *)

From Stdlib Require Import ZArith Lia Ascii.
From S2P Require Import Prelude RustStr Externals Demo StoreTypes Utf8 OAuthCore Jose MemoryStore MemoryProps Client.
From S2P Require Import OAuthServer Session KeyCrypto Identity Accounts AccountProps Outbound IdentityXrpc Firehose.
From S2P Require Import Flaky Machine Setup Commands CommandProps Init.

(** ** Starting *)

Section Starting.
Context {St : Type} `{PlcLib} `{TomlLib} `{Digests} `{!DatabaseFile St}.
Variable SUPPORTED : bool.
Implicit Types (m : Machine St).

(** [m'] is [m] but for the schedule of failures. *)
Definition untouched m m' : Prop := exists fs, m' = set_faults fs m.

Lemma untouched_refl m : untouched m m.
Proof. exists (m_faults m). by destruct m. Qed.

Lemma untouched_trans m1 m2 m3 : untouched m1 m2 -> untouched m2 m3 -> untouched m1 m3.
Proof. intros [fs ->] [fs' ->]. by exists fs'. Qed.

Lemma os_call_untouched m : untouched m (snd (os_call m)).
Proof.
  unfold os_call. destruct (m_faults m) as [|[e|] fs]; cbn; [apply untouched_refl|by exists fs|by exists fs].
Qed.

Lemma config_load_untouched p m : untouched m (snd (config_load p m)).
Proof.
  unfold config_load, fs_read_to_string, fs_read, bind, lift, assert_or, ret.
  pose proof (os_call_untouched m) as Hu. destruct (os_call m) as [[[]|e] m1]; [|exact Hu]. cbn in *.
  destruct (or_else _ _) as [b|]; [|exact Hu]. cbn. by destruct (valid_utf8 b).
Qed.

Lemma config_default_untouched p m : untouched m (snd (config_load_or_default p m)).
Proof.
  unfold config_load_or_default. destruct p as [p|]; [|apply untouched_refl].
  destruct (path_exists p m); [apply config_load_untouched|apply untouched_refl].
Qed.

Lemma jwt_secret_cases drawn explicit hostname allow m r m' :
  resolve_jwt_secret SUPPORTED drawn explicit hostname allow m = (r, m') ->
  match r with
  | Ok s => 32 <= str_len s \/ s = b64url_encode drawn
  | Err _ => True
  end /\
  match or_else explicit (keychain_get SUPPORTED hostname JWT_SECRET m) with
  | Some s => m' = m /\ (forall x, r = Ok x -> x = s)
  | None => allow = false -> m' = m /\ is_err r = true
  end.
Proof.
  unfold resolve_jwt_secret. destruct (or_else _ _) as [s|].
  - destruct (Z.ltb_spec (str_len s) 32); intros [= <- <-]; (split; [by auto|]); split; try done. by intros x [= ->].
  - destruct allow; cbn.
    + unfold bind, prompt_password. destruct (m_secrets m) as [|[s|e] ss]; try by intros [= <- <-].
      destruct (String.eqb (trim s) ""); [intros [= <- <-]; split; [by right|done]|].
      unfold lift. destruct (Z.ltb_spec (str_len s) 32); intros [= <- <-]; split; auto; done.
    + by intros [= <- <-].
Qed.

Lemma passphrase_cases explicit hostname allow m r m' :
  resolve_key_passphrase SUPPORTED explicit hostname allow m = (r, m') ->
  match r with Ok s => s <> "" | Err _ => True end /\
  match or_else explicit (keychain_get SUPPORTED hostname KEY_PASSPHRASE m) with
  | Some s => m' = m /\ r = (if String.eqb s "" then Err "PDS_KEY_PASSPHRASE must not be empty." else Ok s)
  | None => allow = false -> m' = m /\ is_err r = true
  end.
Proof.
  unfold resolve_key_passphrase, bind, assert_or, ret. destruct (or_else _ _) as [s|].
  - cbn. destruct (String.eqb_spec s ""); intros [= <- <-]; cbn; (split; [done|by intros]).
  - destruct allow; cbn; [|intros [= <- <-]; cbn; split; [done|by intros]].
    unfold prompt_password. destruct (m_secrets m) as [|[s|e] ss]; try (intros [= <- <-]; cbn; split; [done|by intros]).
    destruct (String.eqb_spec s ""); intros [= <- <-]; cbn; (split; [done|by intros]).
Qed.

(** The settings, when they are decided: where each came from. *)
Lemma settings_Ok drawn is_tty args config m s m' :
  serve_settings SUPPORTED drawn is_tty args config m = (Ok s, m') ->
  exists cfg m1 m2,
    match config with
    | Some explicit => config_load explicit
    | None => config_load_or_default (Some (resolve_config_path None))
    end m = (Ok cfg, m1) /\
    resolve_jwt_secret SUPPORTED drawn (sa_jwt_secret args) (se_hostname s)
      (is_tty && negb (sa_non_interactive args)) m1 = (Ok (se_jwt_secret s), m2) /\
    resolve_key_passphrase SUPPORTED (sa_key_passphrase args) (se_hostname s)
      (is_tty && negb (sa_non_interactive args)) m2 = (Ok (se_key_passphrase s), m') /\
    or_else (sa_hostname args) (cfg_hostname cfg) = Some (se_hostname s).
Proof.
  unfold serve_settings. intros E. apply bind_Ok in E as (cfg & m1 & E1 & E).
  apply bind_Ok in E as (h & m2 & E2 & E). unfold lift in E2. injection E2 as Eh <-. apply ok_or_Ok in Eh.
  apply bind_Ok in E as (j & m3 & E3 & E). apply bind_Ok in E as (p & m4 & E4 & E).
  unfold ret in E. injection E as <- <-. exists cfg, m1, m3. by split_and!.
Qed.

End Starting.

(** a server starts with real secrets.  Whatever the sources, the secret that
    signs sessions has 32 bytes or was just generated, and the passphrase of the
    keys is not empty; and when the server may not prompt — no terminal, or told
    not to — it reads nothing from the terminal and changes nothing, and the
    secrets are those of the command line, or else of the Keychain. *)
Theorem server_starts_with_secrets {St : Type} `{PlcLib} `{TomlLib} `{Digests} `{!DatabaseFile St} SUPPORTED drawn is_tty args config
    (m m' : Machine St) r
    (Hrun : serve_settings SUPPORTED drawn is_tty args config m = (r, m')) :
  match r with
  | Ok s => (32 <= str_len (se_jwt_secret s) \/ se_jwt_secret s = b64url_encode drawn) /\
            se_key_passphrase s <> ""
  | Err _ => True
  end /\
  (is_tty && negb (sa_non_interactive args) = false ->
   untouched m m' /\
   forall s, r = Ok s ->
     or_else (sa_jwt_secret args) (keychain_get SUPPORTED (se_hostname s) JWT_SECRET m) = Some (se_jwt_secret s) /\
     or_else (sa_key_passphrase args) (keychain_get SUPPORTED (se_hostname s) KEY_PASSPHRASE m) =
       Some (se_key_passphrase s)).
Proof.
  set (load := match config with
               | Some explicit => config_load explicit
               | None => config_load_or_default (Some (resolve_config_path None))
               end : SE (Machine St) string PdsConfig).
  assert (untouched m (snd (load m))) as Hload.
  { subst load. destruct config; [apply config_load_untouched|apply config_default_untouched]. }
  assert (forall k h m1, untouched m m1 -> keychain_get SUPPORTED h k m1 = keychain_get SUPPORTED h k m) as Hkc
    by by intros k h m1 [fs ->].
  split.
  - destruct r as [s|]; [|done]. apply settings_Ok in Hrun as (cfg & m1 & m2 & _ & Ej & Ep & _).
    apply jwt_secret_cases in Ej as [Ej _]. apply passphrase_cases in Ep as [Ep _]. done.
  - intros Hno. unfold serve_settings in Hrun. fold load in Hrun. rewrite Hno in Hrun. unfold bind at 1 in Hrun.
    destruct (load m) as [[cfg|e] m1]; [|injection Hrun as <- <-; by split]. cbn [snd] in Hload.
    unfold bind at 1, lift in Hrun.
    destruct (or_else (sa_hostname args) (cfg_hostname cfg)) as [h|]; [|injection Hrun as <- <-; by split].
    cbn [ok_or] in Hrun. unfold bind at 1 in Hrun.
    destruct (resolve_jwt_secret _ _ _ _ _ m1) as [[j|e] m2] eqn:Ej; apply jwt_secret_cases in Ej as [_ Ej];
      rewrite (Hkc _ _ _ Hload) in Ej;
      (assert (m2 = m1) as -> by (destruct (or_else _ _); [by destruct Ej|by destruct (Ej eq_refl)]));
      [|injection Hrun as <- <-; by split].
    unfold bind at 1 in Hrun.
    destruct (resolve_key_passphrase _ _ _ _ m1) as [[p|e] m3] eqn:Ep; apply passphrase_cases in Ep as [_ Ep];
      rewrite (Hkc _ _ _ Hload) in Ep;
      (assert (m3 = m1) as -> by (destruct (or_else _ _); [by destruct Ep|by destruct (Ep eq_refl)]));
      injection Hrun as <- <-; (split; [done|]); [|done].
    intros s [= <-]. cbn. split.
    + destruct (or_else (sa_jwt_secret args) _) as [x|]; [|by destruct (Ej eq_refl)].
      f_equal. symmetry. by apply Ej.
    + destruct (or_else (sa_key_passphrase args) _) as [x|]; [|by destruct (Ep eq_refl)]. destruct Ep as [_ Ep].
      destruct (String.eqb x ""); [done|]. by injection Ep as ->.
Qed.

(** ** The wizard, then the server *)

(** [serve] with nothing but the two secrets. *)
Definition secrets_only (jwt passphrase : string) : ServeArgs := {|
  sa_hostname := None; sa_mode := None; sa_acme := None; sa_db_path := None; sa_port := None;
  sa_jwt_secret := Some jwt; sa_key_passphrase := Some passphrase; sa_plc_url := None; sa_relay_url := None;
  sa_appview_url := None; sa_appview_did := None; sa_open_registration := false; sa_non_interactive := true |}.

Section Wizard.
Context `{Digests} `{Json} `{Jwt} `{Ecdsa} `{UrlLib} `{!UrlHost} `{Argon2} `{KeyCiphers} `{KeypairIO} `{PlcLib} `{TomlLib}.
Context {Cid : Type} `{Countable Cid}.
Variable is_tty : bool.
Variable env_password : option string.
Variable bindable : bool.
Variable fetch_ip : result string IpAddr.
Variable ip_text : IpAddr -> string.
Variable resolve_a : string -> result string (list IpAddr).
Variable plc_answer : string -> PlcGenesisOpSigned -> result CoreError unit.
Variable did_web_resolve : string -> option Value.
Variable client_metadata : ClientId -> result OAuthError ClientMetadata.
Variable status_text : Z -> string.
Variable relay_answer : CrawlPost -> result string Z.
Variable xrpc_debug : XrpcError -> string.
Variable oauth_text : OAuthError -> string.
Notation Mach := (Machine (Inner Cid)).
Notation fresh := (Inner_default : Inner Cid).
Implicit Types (m : Mach) (g : Inner Cid).

Abbreviation wizard := (run_wizard bindable fetch_ip ip_text resolve_a plc_answer did_web_resolve
  status_text relay_answer xrpc_debug) (only parsing).

(** Registration over a world whose storage may fail, and over one that does not. *)
Lemma mirrors_acct_store {A} (m' : op (Flaky (Inner Cid)) A) (m : op (Inner Cid) A) :
  mirrors fst m' m -> mirrors calm_world (acct_store m') (acct_store m).
Proof.
  intros Hm [s posts] a [s' posts']. unfold acct_store. cbn. destruct (m' s) as [[b|e] s1] eqn:E1; [|done].
  intros [= <- <- <-]. by rewrite (Hm _ _ _ E1).
Qed.

Lemma mirrors_acct_plc {A} (m : SE PlcPosts CoreError A) :
  mirrors calm_world (acct_plc (St := Flaky (Inner Cid)) m) (acct_plc (St := Inner Cid) m).
Proof.
  intros [s posts] a [s' posts']. unfold acct_plc. cbn. destruct (m posts) as [r p1]. by intros [= -> <- <-].
Qed.

Lemma mirrors_create_account state a input :
  mirrors calm_world
    (create_account_inner (St := Flaky (Inner Cid)) state plc_answer did_web_resolve a input)
    (create_account_inner (St := Inner Cid) state plc_answer did_web_resolve a input).
Proof.
  unfold create_account_inner, create_account_gate, invite_gate, create_account_finish, account_did, store_account_keys.
  mirrored; first [apply mirrors_acct_plc|apply mirrors_acct_store; unfold store_key; mirrored].
Qed.

(** A wizard that ends well registered the account and wrote the configuration. *)
Lemma wizard_Ok a state opts m outcome m' :
  wizard a state opts m = (Ok outcome, m') ->
  exists g' posts' resp text,
    create_account_inner state plc_answer did_web_resolve a
      {| ca_handle := wo_handle opts; ca_email := None; ca_password := Some (wo_password opts);
         ca_invite_code := None; ca_did := None; ca_recovery_key := None |}
      (db_at (wo_db_path opts) m, m_posts m) = (Ok resp, (g', posts')) /\
    wz_did outcome = cr_did resp /\ wz_mode_recommendation outcome = wizard_mode bindable fetch_ip ip_text (wo_mode_override opts) /\
    m_dbs m' = delete (wo_config_path opts) (<[wo_db_path opts := g']> (m_dbs m)) /\ m_keychain m' = m_keychain m /\
    toml_to_string (wizard_config opts (wz_mode_recommendation outcome)) = Ok text /\
    m_files m' = <[wo_config_path opts := text]> (m_files m).
Proof.
  unfold run_wizard. intros E. apply bind_Ok in E as (resp & m1 & E1 & E).
  apply (on_account_world_mirror _ _ _ _ _ _ _ (mirrors_create_account _ _ _)) in E1 as (g' & posts' & fs & Ec & ->).
  apply bind_Ok in E as ([] & m2 & E2 & E). unfold crawl in E2.
  destruct (request_crawl _ _ _ _ _) as [c crawls]. injection E2 as <-.
  apply bind_Ok in E as ([] & m3 & E3 & E). unfold ret in E. injection E as <- <-.
  unfold config_save in E3. apply bind_Ok in E3 as (text & m4 & E4 & E3). unfold lift in E4. injection E4 as Et <-.
  unfold fs_write, bind in E3. destruct (os_call _) as [[[]|e] m5] eqn:Eo; [|done].
  apply os_call_Ok in Eo as [fs' ->]. injection E3 as <-.
  exists g', posts', resp, text. by split_and!.
Qed.

End Wizard.

Definition served_mode (r : Recommendation) : Mode :=
  match r with RStandalone => Standalone | RProxy | RTunnel => Proxy end.

(** What the wizard's configuration decides, on a machine where it reads back. *)
Lemma configured_settings `{PlcLib} `{TomlLib} `{Digests} {Cid : Type} `{Countable Cid} `{!DatabaseFile (Inner Cid)}
    SUPPORTED drawn is_tty jwt passphrase opts r config text (m : Machine (Inner Cid)) :
  m_faults m = [] -> m_files m !! default "stelyph.toml" config = Some text -> valid_utf8 text = true ->
  toml_from_str text = Ok (wizard_config opts r) -> 32 <= str_len jwt -> passphrase <> "" ->
  serve_settings SUPPORTED drawn is_tty (secrets_only jwt passphrase) config m =
  (Ok (MkSettings (wo_hostname opts) jwt passphrase (wo_db_path opts) (wo_port opts)
         "https://plc.directory" "https://bsky.network" "https://api.bsky.app" "did:web:api.bsky.app" false
         ("https://" +:+ wo_hostname opts) (served_mode r)
         (default Production (wo_acme_env opts ≫= acme_env_of)) (db_dir (wo_db_path opts) +:+ "/acme") false), m).
Proof.
  intros Hq Hf Hu Hparse Hjwt Hpass.
  assert (forall p, m_files m !! p = Some text -> config_load p m = (Ok (wizard_config opts r), m)) as Hload.
  { intros p Hp. unfold config_load, fs_read_to_string, fs_read, bind.
    rewrite (os_call_quiet (Cid := Cid) m Hq), Hp. cbn. unfold assert_or, ret, lift. by rewrite Hu, Hparse. }
  assert (match config with
          | Some explicit => config_load explicit
          | None => config_load_or_default (Some (resolve_config_path None))
          end m = (Ok (wizard_config opts r), m)) as E.
  { destruct config as [p|]; [by apply Hload|]. unfold config_load_or_default.
    assert (path_exists (resolve_config_path None) m = true) as ->
      by (unfold path_exists; apply orb_true_iff; left; apply bool_decide_eq_true; by exists text).
    by apply Hload. }
  unfold serve_settings, bind at 1. destruct config as [p|]; cbn [default] in E; rewrite E; clear E.
  all: unfold resolve_jwt_secret, resolve_key_passphrase, bind, lift, assert_or, ret; cbn;
    destruct (Z.ltb_spec (str_len jwt) 32); [lia|]; destruct (String.eqb_spec passphrase ""); [done|];
    cbn; by destruct r.
Qed.

(** ** Witnesses *)

Definition demo_toml_fields (c : PdsConfig) : list (option string) :=
  [cfg_hostname c; cfg_mode c; cfg_did_method c; cfg_db_path c; option_map Z_text (cfg_port c); cfg_acme_env c;
   cfg_acme_cache_dir c; cfg_plc_url c; cfg_relay_url c; cfg_appview_url c; cfg_appview_did c;
   option_map (fun b : bool => if b then "t" else "f") (cfg_did_web_http_dev c)].

Definition demo_toml_of (l : list (option string)) : result string PdsConfig :=
  match l with
  | [a; b; c; d; e; f; g; h; i; j; k; l] =>
      Ok (MkConfig a b c d (option_map text_Z e) f g h i j k (option_map (String.eqb "t") l))
  | _ => Err "toml"
  end.

#[export] Instance demo_toml : TomlLib := {
  toml_to_string c :=
    let s := fields_encode (map opt_text (demo_toml_fields c)) in
    if valid_utf8 s then Ok s else Err "toml";
  toml_from_str s :=
    match fields_decode s with Some l => demo_toml_of (map text_opt l) | None => Err "toml" end;
}.
#[export] Instance demo_toml_laws : TomlLaws.
Proof.
  split. intros c s. unfold toml_to_string, toml_from_str, demo_toml.
  destruct (valid_utf8 _) eqn:E; [|done]. intros Es. assert (s = fields_encode (map opt_text (demo_toml_fields c))) as -> by congruence.
  split; [done|]. clear E Es.
  rewrite fields_decode_encode, map_map. rewrite (map_ext _ id) by apply text_opt_text. rewrite map_id.
  destruct c as [a b x d e f g h i j k l]. unfold demo_toml_of, demo_toml_fields. cbn [map id]. do 2 f_equal.
  - destruct e; cbn; [by rewrite text_Z_text|done].
  - by destruct l as [[]|].
Defined.

Definition demo_jwt_secret : string := "0123456789abcdef0123456789abcdef".
Definition demo_no_files : Machine (Inner nat) := demo_machine Inner_default [] ∅.
Definition demo_serve_args (jwt : string) : ServeArgs := {|
  sa_hostname := Some "pds.test"; sa_mode := None; sa_acme := None; sa_db_path := None; sa_port := None;
  sa_jwt_secret := Some jwt; sa_key_passphrase := Some demo_pass; sa_plc_url := None; sa_relay_url := None;
  sa_appview_url := None; sa_appview_did := None; sa_open_registration := false; sa_non_interactive := true |}.

Lemma server_starts_with_secrets_witness :
  let run jwt := serve_settings false "drawn" true (demo_serve_args jwt) None demo_no_files in
  is_ok (fst (run "too short")) = false /\
  exists s, fst (run demo_jwt_secret) = Ok s /\ 32 <= str_len (se_jwt_secret s) /\ untouched demo_no_files (snd (run demo_jwt_secret)).
Proof.
  intros run. split; [by vm_compute|].
  destruct (run demo_jwt_secret) as [[s|e] m'] eqn:E;
    [|exfalso; apply (f_equal (fun x => is_ok (fst x))) in E; vm_compute in E; discriminate E].
  exists s. destruct (server_starts_with_secrets false "drawn" true (demo_serve_args demo_jwt_secret) None
                        demo_no_files m' (Ok s) E) as [_ Hno].
  destruct (Hno eq_refl) as [Hu Hs]. destruct (Hs s eq_refl) as [Hj _]. injection Hj as <-.
  split; [reflexivity|]. split; [by vm_compute|exact Hu].
Defined.
