(* ===== verification/InitSafety.v ===== *)
(** * Set-up never orphans an account

    Whatever the answers, the failures and the network, running [init] leaves
    every account there was in any database, with both of its keys, but in a
    database at the path where it writes its configuration: the property its
    author guards with prompts and checks, and where the guard has a gap. *)

From Stdlib Require Import ZArith Lia Ascii.
From S2P Require Import Prelude RustStr Externals Demo StoreTypes Utf8 OAuthCore Jose MemoryStore MemoryProps Client.
From S2P Require Import OAuthServer Session KeyCrypto Identity Accounts AccountProps Outbound IdentityXrpc Firehose.
From S2P Require Import Flaky Machine Setup Commands CommandProps Init InitProps.

(** ** Databases that keep their accounts *)

Section Kept.
Context {Cid : Type} `{Countable Cid}.
Implicit Types (g : Inner Cid).

(** Every account of the first is in the second, with its two keys. *)
Definition kept g g' : Prop :=
  forall did a, accounts g !! did = Some a ->
    accounts g' !! did = Some a /\
    keys g' !! signing_id did = keys g !! signing_id did /\
    keys g' !! rotation_id did = keys g !! rotation_id did.

#[export] Instance kept_refl : Reflexive kept.
Proof. intros g did a Ha. done. Qed.

#[export] Instance kept_trans : Transitive kept.
Proof.
  intros g1 g2 g3 Ha Hb did a Hd. destruct (Ha did a Hd) as (Hd2 & K1 & K2).
  destruct (Hb did a Hd2) as (Hd3 & K3 & K4). split; [done|]. split; congruence.
Qed.

Lemma kept_ext g g' : accounts g' = accounts g -> keys g' = keys g -> kept g g'.
Proof. intros Ea Ek did a Hd. by rewrite Ea, Ek. Qed.

Lemma suffix_inj s s' t t' :
  String.length t = String.length t' -> s +:+ t = s' +:+ t' -> s = s' /\ t = t'.
Proof.
  intros Hl E. apply str_app_inj_len; [|done].
  apply (f_equal String.length) in E. rewrite !length_str_app in E. lia.
Qed.

Lemma signing_id_inj d d' : signing_id d = signing_id d' -> d = d'.
Proof. intros E. by destruct (suffix_inj d d' "#signing" "#signing" eq_refl E). Qed.

Lemma rotation_id_inj d d' : rotation_id d = rotation_id d' -> d = d'.
Proof. intros E. by destruct (suffix_inj d d' "#rotation" "#rotation" eq_refl E). Qed.

(** Two texts that end differently differ. *)
Lemma last_char_ne s t x y : x <> y -> s +:+ String x EmptyString <> t +:+ String y EmptyString.
Proof. intros Hne E. destruct (suffix_inj s t (String x EmptyString) (String y EmptyString) eq_refl E) as [_ E']. congruence. Qed.

Lemma signing_rotation_ne d d' : signing_id d <> rotation_id d'.
Proof.
  unfold signing_id, rotation_id.
  change "#signing" with ("#signin" +:+ "g"). change "#rotation" with ("#rotatio" +:+ "n").
  rewrite <- !str_app_assoc. by apply last_char_ne.
Qed.

Lemma as_key_signing d : AS_SIGNING_KEY <> signing_id d.
Proof.
  unfold signing_id, AS_SIGNING_KEY. change "oauth#as-signing" with ("oauth#as" +:+ "-signing").
  intros E. by destruct (suffix_inj "oauth#as" d "-signing" "#signing" eq_refl E).
Qed.

Lemma as_key_rotation d : AS_SIGNING_KEY <> rotation_id d.
Proof.
  unfold rotation_id, AS_SIGNING_KEY. change "oauth#as-signing" with ("oauth#as-signin" +:+ "g").
  change "#rotation" with ("#rotatio" +:+ "n"). rewrite <- str_app_assoc. by apply last_char_ne.
Qed.

(** The keys of a new account, and any key that is not an account's. *)
Lemma kept_new_keys g g' did :
  accounts g' = accounts g \/ (exists a, accounts g' = <[did := a]> (accounts g)) ->
  accounts g !! did = None ->
  (forall id, id <> signing_id did -> id <> rotation_id did -> keys g' !! id = keys g !! id) ->
  kept g g'.
Proof.
  intros Ha Hnew Hk d a Hd. assert (d <> did) as Hne by congruence. split.
  - destruct Ha as [->|[x ->]]; [done|]. by rewrite lookup_insert_ne.
  - split; apply Hk.
    + intros E. by apply signing_id_inj in E.
    + apply signing_rotation_ne.
    + intros E. by apply (signing_rotation_ne did d).
    + intros E. by apply rotation_id_inj in E.
Qed.

End Kept.

(** A step that keeps the accounts there were when a run began, [g0]; [pr] is the
    storage in the state of the step. *)
Section Steps.
Context {Cid : Type} `{Countable Cid} {W Er : Type} (pr : W -> Inner Cid) (g0 : Inner Cid).

Definition stays {A} (c : SE W Er A) : Prop := forall w, kept g0 (pr w) -> kept g0 (pr (snd (c w))).

Lemma stays_same {A} (c : SE W Er A) : (forall w, pr (snd (c w)) = pr w) -> stays c.
Proof. intros Hc w Hw. by rewrite Hc. Qed.

Lemma stays_bind_if {A B} (c : SE W Er A) (k : A -> SE W Er B) :
  stays c -> (forall a w w', kept g0 (pr w) -> c w = (Ok a, w') -> stays (k a)) -> stays (bind c k).
Proof.
  intros Hc Hk w Hw. unfold bind. pose proof (Hc w Hw) as Hc'. destruct (c w) as [[a|e] w'] eqn:E; [|done].
  by apply (Hk a w w').
Qed.

Lemma stays_bind {A B} (c : SE W Er A) (k : A -> SE W Er B) : stays c -> (forall a, stays (k a)) -> stays (bind c k).
Proof. intros Hc Hk. apply stays_bind_if; [done|]. intros a _ _ _ _. apply Hk. Qed.

Lemma stays_lift {A} (r : result Er A) : stays (lift r).
Proof. by apply stays_same. Qed.
Lemma stays_ret {A} (a : A) : stays (ret a).
Proof. by apply stays_same. Qed.
Lemma stays_assert b (e : Er) : stays (assert_or b e).
Proof. apply stays_same. by destruct b. Qed.
End Steps.

Section Registration.
Context `{Digests} `{Json} `{Jwt} `{Argon2} `{KeyCiphers} `{KeypairIO} `{PlcLib}.
Context {Cid : Type} `{Countable Cid}.
Implicit Types (g : Inner Cid) (posts : PlcPosts).
Variable state : AppState.
Variable plc_answer : string -> PlcGenesisOpSigned -> result CoreError unit.
Variable did_web_resolve : string -> option Value.
Variable g0 : Inner Cid.

Abbreviation world := (Flaky (Inner Cid) * PlcPosts)%type (only parsing).
Abbreviation keeps m := (stays (W := world) (fun w => fst (fst w)) g0 m) (only parsing).

(** A call of the storage, failing or not. *)
Lemma keeps_call {A} (m : op (Inner Cid) A) :
  (forall g, kept g0 g -> kept g0 (snd (m g))) -> keeps (acct_store (St := Flaky (Inner Cid)) (flaky_call m)).
Proof.
  intros Hm [[g fs] posts] Hg. unfold acct_store. destruct (flaky_call m (g, fs)) as [r [g' fs']] eqn:E.
  cbn in *. apply flaky_call_cases in E as [[-> _]|E]; [done|]. specialize (Hm g Hg). by rewrite E in Hm.
Qed.

(** Storing a key that is not of an account there was. *)
Lemma keeps_store_key salt nonce id pt pass :
  (forall d a, accounts g0 !! d = Some a -> id <> signing_id d /\ id <> rotation_id d) ->
  keeps (acct_store (St := Flaky (Inner Cid)) (store_key salt nonce id pt pass)).
Proof.
  intros Hid [[g fs] posts] Hg. unfold acct_store.
  destruct (store_key (St := Flaky (Inner Cid)) _ _ _ _ _ _) as [r x] eqn:E.
  apply flaky_store_key in E as [[E _]|(b & _ & _ & E)]; destruct x as [g' fs']; cbn in *; subst g'; [done|].
  intros d a Hd. destruct (Hg d a Hd) as (Ha & K1 & K2), (Hid d a Hd) as [N1 N2].
  split; [done|]. cbn. by rewrite !lookup_insert_ne.
Qed.

Lemma keeps_keys d did : accounts g0 !! did = None -> keeps (store_account_keys (St := Flaky (Inner Cid)) state d did).
Proof.
  intros Hnew. apply stays_bind; [|intros _]; apply keeps_store_key; intros d' a Hd; assert (d' <> did) as Hne by congruence;
    change (did +:+ "#signing") with (signing_id did); change (did +:+ "#rotation") with (rotation_id did).
  - split; [|apply signing_rotation_ne]. intros E. by apply signing_id_inj in E.
  - split; [apply not_eq_sym, signing_rotation_ne|]. intros E. by apply rotation_id_inj in E.
Qed.

(** The row is for a DID that had none, so for none of the accounts there were. *)
Lemma keeps_insert did handle email phc now :
  keeps (acct_store (St := Flaky (Inner Cid)) (count_and_insert_account did handle email phc now)).
Proof.
  apply keeps_call. intros g Hg.
  change (count_and_insert_account did handle email phc now g) with (mem_count_and_insert_account did handle email phc now g).
  destruct (mem_count_and_insert_account _ _ _ _ _ g) as [[n|e] g1] eqn:Ei.
  - apply insert_Ok in Ei as (Hd & _ & _ & ->). etransitivity; [exact Hg|].
    apply (kept_new_keys _ _ did); [|done|done]. right. by eexists.
  - by apply insert_Err in Ei as ->.
Qed.

Lemma inserted_new did handle email phc now (w w' : world) n :
  kept g0 (fst (fst w)) ->
  acct_store (St := Flaky (Inner Cid)) (count_and_insert_account did handle email phc now) w = (Ok n, w') ->
  accounts g0 !! did = None.
Proof.
  intros Hg E. destruct w as [[g fs] posts]. apply (mirrors_acct_store _ _ (mirrors_call _)) in E.
  apply acct_store_Ok in E as (g1 & E & _). cbn in E. apply insert_Ok in E as (Hd & _).
  destruct (accounts g0 !! did) as [a|] eqn:Ea; [|done]. destruct (Hg did a Ea) as [Ha _]. cbn in Hd, Ha. congruence.
Qed.

(** Any outcome of a registration keeps the accounts there were. *)
Lemma keeps_create d input :
  keeps (create_account_inner (St := Flaky (Inner Cid)) state plc_answer did_web_resolve d input).
Proof.
  assert (forall A (m : SE PlcPosts CoreError A), keeps (acct_plc (St := Flaky (Inner Cid)) m)) as Hplc.
  { intros A m. apply stays_same. intros [[g fs] posts]. unfold acct_plc. by destruct (m posts). }
  unfold create_account_inner. apply stays_bind; [|intros [handle consumed]].
  - unfold create_account_gate, invite_gate. apply stays_bind; [apply stays_lift|intros handle].
    apply stays_bind; [by apply keeps_call|intros taken]. apply stays_bind; [apply stays_assert|intros _].
    apply stays_bind; [|intros c; apply stays_ret]. apply stays_bind; [by apply keeps_call|intros n].
    destruct (n =? 0); [apply stays_ret|]. destruct (st_open_registration state); [apply stays_ret|].
    apply stays_bind; [apply stays_lift|intros code]. apply stays_bind; [|intros b; apply stays_bind; [apply stays_assert|intros _; apply stays_ret]].
    apply keeps_call. intros g Hg. etransitivity; [exact Hg|].
    change (consume_invite code handle g) with (mem_consume_invite code handle g).
    unfold mem_consume_invite. repeat case_match; cbn; try done; by apply kept_ext.
  - unfold create_account_finish. apply stays_bind; [|intros did].
    { unfold account_did. destruct (ca_did input) as [did|]; [|apply Hplc].
      destruct (starts_with _ _); [|apply Hplc]. apply stays_bind; [apply stays_lift|intros doc].
      apply stays_bind; [apply stays_assert|intros _; apply stays_ret]. }
    apply stays_bind; [apply stays_lift|intros phc].
    apply stays_bind_if; [apply keeps_insert|]. intros n w w' Hw Hn. apply inserted_new in Hn; [|done].
    apply stays_bind; [apply stays_assert|intros _]. apply stays_bind; [by apply keeps_keys|intros _].
    apply stays_bind; [apply stays_lift|intros t; apply stays_ret].
Qed.

End Registration.

(** ** Machines that keep their databases' accounts *)

Section Machines.
Context `{PlcLib} {Cid : Type} `{Countable Cid}.
Notation Mach := (Machine (Inner Cid)).
Notation fresh := (Inner_default : Inner Cid).
Implicit Types (m : Mach) (g : Inner Cid).

(** A run that, whatever happens, keeps the accounts of the databases at the
    paths in [spared]. *)
Definition Keeping (spared : PathBuf -> Prop) {E A} (c : SE Mach E A) : Prop :=
  forall m p, spared p -> kept (db_at p m) (db_at p (snd (c m))).

Section Runs.
Variable spared : PathBuf -> Prop.

(** A run that leaves the databases as they are. *)
Lemma keeping_same {E A} (c : SE Mach E A) :
  (forall m, m_dbs (snd (c m)) = m_dbs m) -> Keeping spared c.
Proof. intros Hc m p _. unfold db_at. rewrite Hc. reflexivity. Qed.

Lemma keeping_bind {E A B} (c : SE Mach E A) (k : A -> SE Mach E B) :
  Keeping spared c -> (forall a, Keeping spared (k a)) -> Keeping spared (bind c k).
Proof.
  intros Hc Hk m p Hp. unfold bind. specialize (Hc m p Hp). destruct (c m) as [[a|e] m1]; [|done].
  etransitivity; [exact Hc|]. by apply Hk.
Qed.

Lemma keeping_pure {E A} (r : result E A) : Keeping spared (fun m => (r, m)).
Proof. by apply keeping_same. Qed.

Lemma keeping_ret {E A} (a : A) : Keeping spared (ret (E := E) a).
Proof. apply keeping_pure. Qed.

Lemma keeping_throw {E A} (e : E) : Keeping spared (throw (A := A) e).
Proof. apply keeping_pure. Qed.

Lemma keeping_lift {E A} (r : result E A) : Keeping spared (lift r).
Proof. apply keeping_pure. Qed.

Lemma keeping_with_err {E F A} (f : E -> F) (c : SE Mach E A) : Keeping spared c -> Keeping spared (with_err f c).
Proof. intros Hc m p Hp. unfold with_err. specialize (Hc m p Hp). by destruct (c m). Qed.

Lemma keeping_catch {E F A} (c : SE Mach E A) : Keeping spared c -> Keeping spared (catch (F := F) c).
Proof. intros Hc m p Hp. unfold catch. specialize (Hc m p Hp). by destruct (c m). Qed.

Lemma keeping_assert {E} b (e : E) : Keeping spared (assert_or b e).
Proof. unfold assert_or. destruct b; apply keeping_pure. Qed.

Lemma keeping_os_call : Keeping spared os_call.
Proof. apply keeping_same. intros m. unfold os_call. by destruct (m_faults m) as [|[e|] fs]. Qed.

Lemma keeping_open p : Keeping spared (open_db fresh p).
Proof.
  apply keeping_with_err, keeping_bind; [apply keeping_os_call|]. intros _ m q _.
  assert (kept (db_at q m) (db_at q (set_files (delete p (m_files m))
            (set_dbs (<[p := default fresh (m_dbs m !! p)]> (m_dbs m)) m)))) as Hk.
  { unfold db_at. cbn. destruct (decide (p = q)) as [->|Hne]; [by rewrite lookup_insert_eq|by rewrite lookup_insert_ne]. }
  destruct (m_files m !! p) as [[|c b]|]; [exact Hk|reflexivity|exact Hk].
Qed.

(** The database at a path after its calls. *)
Lemma kept_at p q g g' fs m : m_dbs m !! p = Some g -> kept g g' ->
  kept (db_at q m) (db_at q (set_faults fs (set_dbs (<[p := g']> (m_dbs m)) m))).
Proof.
  intros Hg Hk. destruct (decide (p = q)) as [<-|Hne]; [rewrite (db_there _ _ _ Hg)|]; unfold db_at; cbn.
  - by rewrite lookup_insert_eq.
  - by rewrite lookup_insert_ne.
Qed.

Lemma keeping_on_db {E A} p (f : E -> string) (c : SE (Flaky (Inner Cid)) E A) :
  (forall g fs, kept g (fst (snd (c (g, fs))))) -> Keeping spared (on_db p f c).
Proof.
  intros Hc m q _. unfold on_db. destruct (m_dbs m !! p) as [g|] eqn:Eg; [|reflexivity].
  specialize (Hc g (m_faults m)). destruct (c (g, m_faults m)) as [r [g' fs]]. by apply (kept_at p q g).
Qed.

Lemma keeping_on_account_world {E A} p (f : E -> string) (c : SE (Flaky (Inner Cid) * PlcPosts) E A) :
  (forall g w, fst (fst w) = g -> kept g (fst (fst (snd (c w))))) -> Keeping spared (on_account_world p f c).
Proof.
  intros Hc m q _. unfold on_account_world. destruct (m_dbs m !! p) as [g|] eqn:Eg; [|reflexivity].
  specialize (Hc g ((g, m_faults m), m_posts m) eq_refl).
  destruct (c (g, m_faults m, m_posts m)) as [r [[g' fs] posts]].
  change (db_at q (snd (map_err f r, set_posts posts ?x))) with (db_at q x). by apply (kept_at p q g).
Qed.

Lemma keeping_prompt : Keeping spared prompt_password.
Proof. apply keeping_same. intros m. unfold prompt_password. by destruct (m_secrets m). Qed.

Lemma keeping_read_line : Keeping spared read_line.
Proof. apply keeping_same. intros m. unfold read_line. by destruct (m_lines m). Qed.

Lemma keeping_new_client what : Keeping spared (new_client what).
Proof. apply keeping_with_err, keeping_os_call. Qed.

(** A file takes the place of a database that is not spared. *)
Lemma keeping_fs_write p b : ~ spared p -> Keeping spared (fs_write p b).
Proof.
  intros Hp. apply keeping_bind; [apply keeping_os_call|]. intros _ m q Hq. unfold db_at. cbn.
  rewrite lookup_delete_ne by congruence. reflexivity.
Qed.

Lemma keeping_fs_read `{!DatabaseFile (Inner Cid)} p : Keeping spared (fs_read p).
Proof. apply keeping_bind; [apply keeping_os_call|]. intros _. by apply keeping_same. Qed.

Lemma keeping_keychain_set sup h k v : Keeping spared (keychain_set sup h k v).
Proof.
  unfold keychain_set. destruct sup; [|apply keeping_pure].
  apply keeping_bind; [apply keeping_with_err, keeping_os_call|]. intros _.
  apply keeping_bind; [apply keeping_with_err, keeping_os_call|]. intros _. by apply keeping_same.
Qed.

Lemma keeping_ask {A} (eof : A) understand : Keeping spared (ask_again eof understand).
Proof. apply keeping_same. intros m. unfold ask_again. by destruct (ask_lines _ _ _). Qed.

Lemma keeping_config_load `{TomlLib} `{!DatabaseFile (Inner Cid)} p : Keeping spared (config_load_or_default p).
Proof.
  intros m. unfold config_load_or_default. destruct p as [p|]; [|reflexivity].
  destruct (path_exists p m); [|reflexivity]. revert m.
  change (Keeping spared (config_load p)). unfold config_load, fs_read_to_string.
  apply keeping_bind; [|intros s; apply keeping_pure].
  apply keeping_bind; [apply keeping_fs_read|]. intros b.
  apply keeping_bind; [apply keeping_assert|]. intros _. apply keeping_pure.
Qed.

End Runs.

(** *** ... unless they end in a certain way *)

Definition everywhere (p : PathBuf) : Prop := True.

(** A run keeps every account of every database unless its outcome is [bad]. *)
Definition KeepingUnless {E A} (bad : result E A -> Prop) (c : SE Mach E A) : Prop :=
  forall m r m', c m = (r, m') -> ~ bad r -> forall p, kept (db_at p m) (db_at p m').

Lemma unless_keeping {E A} (bad : result E A -> Prop) (c : SE Mach E A) :
  Keeping everywhere c -> KeepingUnless bad c.
Proof. intros Hc m r m' E1 _ p. specialize (Hc m p I). by rewrite E1 in Hc. Qed.

Lemma unless_bind {E A B} (bad : result E B -> Prop) (c : SE Mach E A) (k : A -> SE Mach E B) :
  Keeping everywhere c -> (forall a, KeepingUnless bad (k a)) -> KeepingUnless bad (bind c k).
Proof.
  intros Hc Hk m r m' E1 Hbad p. unfold bind in E1. specialize (Hc m p I).
  destruct (c m) as [[a|e] m1]; [|by injection E1 as _ <-]. etransitivity; [exact Hc|]. by apply (Hk a m1 r m').
Qed.

(** A step after which nothing fails and the end is bad. *)
Lemma unless_last {E A B} (bad : result E B -> Prop) (c : SE Mach E A) (k : A -> SE Mach E B) :
  KeepingUnless (fun r => is_ok r = true) c -> (forall a m, exists b m', k a m = (Ok b, m') /\ bad (Ok b)) ->
  KeepingUnless bad (bind c k).
Proof.
  intros Hc Hk m r m' E1 Hbad p. unfold bind in E1. destruct (c m) as [[a|e] m1] eqn:Ec.
  - destruct (Hk a m1) as (b & m2 & E2 & Hb). rewrite E2 in E1. by injection E1 as <- _.
  - injection E1 as _ <-. by apply (Hc m (Err e) m1 Ec).
Qed.

Lemma unless_fs_write p b : KeepingUnless (fun r => is_ok r = true) (fs_write (St := Inner Cid) p b).
Proof.
  intros m r m' E1 Hbad q. unfold fs_write, bind in E1. pose proof (keeping_os_call everywhere m q I) as Ho.
  destruct (os_call m) as [[[]|e] m1]; injection E1 as <- <-; [by destruct Hbad|exact Ho].
Qed.

End Machines.

Create HintDb keeping.
#[export] Hint Resolve keeping_ret keeping_throw keeping_lift keeping_pure keeping_with_err keeping_catch keeping_assert keeping_open
  keeping_prompt keeping_read_line keeping_new_client keeping_fs_read keeping_keychain_set
  keeping_ask keeping_config_load : keeping.

(** One command of a run after the other. *)
Ltac keeping :=
  repeat first
    [ progress intros
    | solve [auto with keeping nocore]
    | apply keeping_bind
    | match goal with
      | |- Keeping _ (match ?x with _ => _ end) => destruct x
      | |- Keeping _ (if ?x then _ else _) => destruct x
      end ].

(** ** The command *)

Section Command.
Context `{Digests} `{Json} `{Jwt} `{Ecdsa} `{UrlLib} `{!UrlHost} `{Argon2} `{KeyCiphers} `{KeypairIO} `{PlcLib} `{TomlLib}.
Context {Cid : Type} `{Countable Cid} `{!DatabaseFile (Inner Cid)}.
Implicit Types (g : Inner Cid).
Notation fresh := (Inner_default : Inner Cid).
Abbreviation St := (Flaky (Inner Cid)) (only parsing).

(** The key of the authorization server is no account's. *)
Lemma as_signing_key_kept key salt nonce pass g fs : kept g (fst (snd (as_signing_key (St := St) key salt nonce pass (g, fs)))).
Proof.
  unfold as_signing_key, bind, catch. destruct (load_key _ _ _) as [r [g1 fs1]] eqn:El.
  apply flaky_load_key in El as [El _]. cbn in El. subst g1. destruct r as [scalar|e]; [done|].
  unfold with_err, ret. destruct (store_key _ _ _ _ _ _) as [r2 [g2 fs2]] eqn:E2.
  apply flaky_store_key in E2 as [[E2 _]|(b & _ & _ & E2)]; cbn in E2; subst g2; [by destruct r2|].
  assert (kept g (set_keys (<[AS_SIGNING_KEY := b]> (keys g)) g)) as Hk.
  { intros did a Hd. split; [done|]. cbn.
    split; apply lookup_insert_ne; [apply as_key_signing|apply as_key_rotation]. }
  by destruct r2.
Qed.

Lemma bootstrap_kept key salt nonce pass jwt issuer did resolve g fs :
  kept g (fst (snd (bootstrap (St := St) key salt nonce pass jwt issuer did resolve (g, fs)))).
Proof.
  unfold bootstrap, bind, ret. pose proof (as_signing_key_kept key salt nonce pass g fs) as Hk.
  destruct (as_signing_key _ _ _ _ _) as [[k|e] g1]; exact Hk.
Qed.

Lemma load_key_kept id pass g fs : kept g (fst (snd (load_key (St := St) id pass (g, fs)))).
Proof. destruct (load_key _ _ _) as [r x] eqn:E. apply flaky_load_key in E as [E _]. cbn. by rewrite E. Qed.

(** One call. *)
Lemma call_kept {A} (m : op (Inner Cid) A) g fs : kept g (snd (m g)) -> kept g (fst (snd (flaky_call m (g, fs)))).
Proof.
  intros Hm. destruct (flaky_call m (g, fs)) as [r [g' fs']] eqn:E. apply flaky_call_cases in E as [[-> _]|E]; [done|].
  by rewrite E in Hm.
Qed.

Variable SUPPORTED is_tty bindable : bool.
Variable env_password : option string.
Variable fetch_ip : result string IpAddr.
Variable ip_text : IpAddr -> string.
Variable resolve_a : string -> result string (list IpAddr).
Variable plc_answer : string -> PlcGenesisOpSigned -> result CoreError unit.
Variable did_web_resolve : string -> option Value.
Variable client_metadata : ClientId -> result OAuthError ClientMetadata.
Variable status_text : Z -> string.
Variable relay_answer : CrawlPost -> result string Z.
Variable xrpc_debug : XrpcError -> string.
Variable oauth_text : OAuthError -> string.

Section Spared.
Variable spared : PathBuf -> Prop.

Lemma keeping_init_state d db hostname jwt pass :
  Keeping (Cid := Cid) spared (init_state client_metadata oauth_text d db hostname jwt pass).
Proof. unfold init_state. keeping. apply keeping_on_db. intros g fs. apply bootstrap_kept. Qed.

Lemma keeping_register a db what state input :
  Keeping (Cid := Cid) spared (register_account plc_answer did_web_resolve xrpc_debug a db what state input).
Proof.
  apply keeping_on_account_world. intros g w <-. by apply (keeps_create state plc_answer did_web_resolve (fst (fst w)) a input w).
Qed.

Lemma keeping_resolve_password p :
  Keeping (Cid := Cid) spared (resolve_password is_tty env_password p).
Proof. unfold resolve_password. keeping. Qed.

Lemma keeping_init_hostname args p : Keeping (Cid := Cid) spared (init_hostname args p).
Proof. unfold init_hostname, read_or. keeping. Qed.

Lemma keeping_init_port args : Keeping (Cid := Cid) spared (init_port args).
Proof. unfold init_port, read_or. keeping. Qed.

Lemma keeping_init_mode args :
  Keeping (Cid := Cid) spared (init_mode is_tty bindable fetch_ip ip_text args).
Proof. unfold init_mode, prompt_mode. keeping. Qed.

Lemma keeping_new_clients : Keeping (Cid := Cid) spared new_clients.
Proof. unfold new_clients. keeping. Qed.

Lemma keeping_add_user d a args hostname handle probe :
  Keeping (Cid := Cid) spared (add_user is_tty env_password plc_answer did_web_resolve client_metadata
             xrpc_debug oauth_text d a args hostname handle probe).
Proof.
  pose proof keeping_resolve_password. pose proof keeping_new_clients.
  pose proof keeping_init_state. pose proof keeping_register.
  unfold add_user. keeping; apply keeping_on_db; intros g fs; [apply load_key_kept|].
  apply call_kept, kept_ext; cbn; unfold mem_insert_invite; by case_match.
Qed.

(** Before the configuration is written. *)
Lemma keeping_crawl relay hostname : Keeping (Cid := Cid) spared (crawl status_text relay_answer relay hostname).
Proof. apply keeping_same. intros m. unfold crawl. by destruct (request_crawl _ _ _ _ _). Qed.

Lemma keeping_wizard a state opts : ~ spared (wo_config_path opts) ->
  Keeping (Cid := Cid) spared (run_wizard bindable fetch_ip ip_text resolve_a plc_answer did_web_resolve
             status_text relay_answer xrpc_debug a state opts).
Proof.
  intros Hs. pose proof keeping_register. pose proof keeping_crawl.
  pose proof (fun b => keeping_fs_write (Cid := Cid) spared (wo_config_path opts) b Hs).
  unfold run_wizard, config_save. keeping.
Qed.

Lemma keeping_existing d a args hostname handle first accts :
  Keeping (Cid := Cid) spared (init_existing is_tty env_password plc_answer did_web_resolve client_metadata
             xrpc_debug oauth_text d a args hostname handle first accts).
Proof. pose proof keeping_add_user. unfold init_existing, prompt_add_or_skip. keeping. Qed.

Lemma keeping_accounts p :
  Keeping (Cid := Cid) spared (on_db p StorageError_to_string list_accounts).
Proof. apply keeping_on_db. intros g fs. by apply call_kept. Qed.

Lemma keeping_init_run d a args config : ~ spared (default "stelyph.toml" config) ->
  Keeping (Cid := Cid) spared (init_run fresh SUPPORTED is_tty env_password bindable fetch_ip ip_text resolve_a plc_answer
             did_web_resolve client_metadata status_text relay_answer xrpc_debug oauth_text d a args config).
Proof.
  intros Hs. pose proof keeping_resolve_password. pose proof keeping_new_clients. pose proof keeping_init_hostname.
  pose proof keeping_init_port. pose proof keeping_init_mode. pose proof keeping_existing. pose proof keeping_accounts.
  pose proof keeping_init_state.
  pose proof (fun st h dm hd pw mode relay db port acme => keeping_wizard a st
    (MkWizardOpts h dm hd pw mode relay db port acme (default "stelyph.toml" config)) Hs).
  unfold init_run, init_first, read_or. keeping. apply keeping_catch. keeping.
Qed.

End Spared.

(** *** The configuration is written last *)

Lemma unless_wizard a state opts :
  KeepingUnless (Cid := Cid) (fun r => is_ok r = true)
    (run_wizard bindable fetch_ip ip_text resolve_a plc_answer did_web_resolve status_text relay_answer xrpc_debug a state opts).
Proof.
  unfold run_wizard. apply unless_bind; [apply keeping_register|intros resp].
  apply unless_bind; [apply keeping_crawl|intros _].
  apply unless_last; [|intros [] m; by eexists _, m]. unfold config_save.
  apply unless_bind; [apply keeping_lift|intros text]. apply unless_fs_write.
Qed.

(** A command that set a server up. *)
Definition set_up {E} (r : result E InitReport) : Prop := exists outcome, r = Ok (Initialized outcome).

(** What follows the wizard does not fail. *)
Lemma save_secrets_ok (c : SE (Machine (Inner Cid)) string unit) outcome m :
  exists b m', ((if SUPPORTED then let! _saved := catch (F := string) c in ret tt else ret tt) ;;! ret (Initialized outcome))%se m
    = (Ok b, m') /\ set_up (Ok (E := string) b).
Proof.
  unfold bind, catch, ret. destruct SUPPORTED; [destruct (c m)|]; (eexists _, _; split; [reflexivity|]; by exists outcome).
Qed.

Lemma unless_init_run d a args config :
  KeepingUnless (Cid := Cid) set_up
    (init_run fresh SUPPORTED is_tty env_password bindable fetch_ip ip_text resolve_a plc_answer
       did_web_resolve client_metadata status_text relay_answer xrpc_debug oauth_text d a args config).
Proof.
  pose proof (keeping_resolve_password everywhere). pose proof (keeping_new_clients everywhere).
  pose proof (keeping_init_hostname everywhere). pose proof (keeping_init_port everywhere).
  pose proof (keeping_init_mode everywhere). pose proof (keeping_init_state everywhere).
  pose proof (keeping_accounts everywhere).
  unfold init_run, init_first. do 5 (apply unless_bind; [unfold read_or; keeping|intros ?]).
  match goal with |- KeepingUnless _ (match ?x with _ => _ end) => destruct x as [|first accts] end;
    [|apply unless_keeping, keeping_existing].
  do 10 (apply unless_bind; [keeping|intros ?]).
  apply unless_last; [apply unless_wizard|]. intros outcome m. apply save_secrets_ok.
Qed.

End Command.

(** ** Properties *)


(** a wrong passphrase stops before anything is written.  Adding an account
    under a passphrase that does not decrypt the key of an account already there
    fails with that message, and every database, the directory and the relays
    are as they were. *)
Theorem wrong_passphrase_writes_nothing `{Digests} `{Json} `{Jwt} `{Ecdsa} `{UrlLib} `{Argon2} `{KeyCiphers}
    `{KeypairIO} `{PlcLib} {Cid : Type} `{Countable Cid}
    is_tty env_password plc_answer did_web_resolve client_metadata xrpc_debug oauth_text d a args
    hostname handle probe password passphrase (m m' : Machine (Inner Cid)) r
    (Hrun : add_user is_tty env_password plc_answer did_web_resolve client_metadata
              xrpc_debug oauth_text d a args hostname handle probe m = (r, m'))
    (Hpass : ia_password args = Some password) (Hlen : 8 <= str_len password)
    (Hphrase : ia_key_passphrase args = Some passphrase) (Hopen : is_Some (m_dbs m !! ia_db_path args))
    (Hwrong : is_err (fst (load_key (probe +:+ "#signing") passphrase (db_at (ia_db_path args) m))) = true) :
  r = Err WRONG_PASSPHRASE /\ (forall p, db_at p m' = db_at p m) /\
  m_posts m' = m_posts m /\ m_crawls m' = m_crawls m /\ m_files m' = m_files m.
Proof.
  unfold add_user in Hrun. unfold resolve_password in Hrun. rewrite Hpass, Hphrase in Hrun. cbn in Hrun.
  unfold bind at 1, ret at 1 in Hrun. unfold bind at 1, assert_or at 1 in Hrun.
  destruct (Z.ltb_spec (str_len password) 8); [lia|]. cbn in Hrun.
  unfold bind at 1, ret at 1 in Hrun. unfold bind at 1 in Hrun.
  destruct (load_key (St := Flaky (Inner Cid)) (probe +:+ "#signing") passphrase
              (db_at (ia_db_path args) m, m_faults m)) as [rk [g1 fs1]] eqn:El.
  apply flaky_load_key in El as Es. destruct Es as [Es Hk]. cbn in Es. subst g1.
  rewrite (on_db_unchanged _ _ _ _ _ _ Hopen El) in Hrun. destruct rk as [k|e].
  { exfalso. destruct (Hk k eq_refl) as (b & Hb & Hd). revert Hwrong. unfold load_key, bind. cbn. rewrite Hb. cbn.
    unfold lift. by rewrite Hd. }
  injection Hrun as <- <-. by split.
Qed.

(** ** Witnesses *)

#[local] Existing Instance net_urls.
#[local] Existing Instance net_hosts.

Definition demo_args_at (db handle password passphrase : string) : InitArgs := {|
  ia_hostname := Some "pds.test"; ia_did_method := Plc; ia_mode := Some Proxy; ia_db_path := db;
  ia_port := Some 3000; ia_relay_url := "https://relay.test"; ia_plc_url := "https://plc.test";
  ia_acme := Some Production; ia_handle := Some handle; ia_jwt_secret := Some demo_jwt_secret;
  ia_key_passphrase := Some passphrase; ia_password := Some password |}.
Abbreviation demo_args := (demo_args_at "pds.db") (only parsing).
Definition demo_init_draw : InitDraw := {|
  id_jwt := "random"; id_as_key := demo_key; id_as_salt := "0123456789abcdef"; id_as_nonce := "0123456789ab";
  id_invite := "invite-8" |}.
Definition demo_unresolved (h : string) : result string (list IpAddr) := Err "no such host".

(** [init] at a terminal, on a machine where [lines] are typed. *)
Definition demo_init (config : option PathBuf) (draw : string) (args : InitArgs) (m : Machine (Inner nat)) :=
  init_run Inner_default false true None true (Err "offline") (fun _ => "") demo_unresolved demo_directory
    demo_resolve (fun _ => Err (InvalidClient "unused")) (fun _ => "") (fun _ => Ok 200) (fun _ => "xrpc")
    OAuthError_to_string demo_init_draw (demo_draw draw) args config m.

Definition demo_set_up : Machine (Inner nat) :=
  snd (demo_init None "ka" (demo_args "alice.pds.test" "correct horse" demo_pass) demo_no_files).
Definition demo_again : Machine (Inner nat) := set_lines [Ok "what?"; Ok "a"] demo_set_up.


Definition demo_founder : string :=
  match map_to_list (accounts (db_at "pds.db" demo_set_up)) with (did, _) :: _ => did | [] => "" end.

Lemma wrong_passphrase_writes_nothing_witness :
  exists m', add_user true None demo_directory demo_resolve (fun _ => Err (InvalidClient "unused"))
    (fun _ => "xrpc") OAuthError_to_string demo_init_draw (demo_draw "kb")
    (demo_args "bob.pds.test" "long enough" "another passphrase") "pds.test" "bob.pds.test" demo_founder demo_set_up
    = (Err WRONG_PASSPHRASE, m') /\ m_files m' = m_files demo_set_up.
Proof.
  destruct (add_user _ _ _ _ _ _ _ _ _ _ _ _ _ _) as [r m'] eqn:E.
  destruct (wrong_passphrase_writes_nothing _ _ _ _ _ _ _ _ _ _ _ _ _ "long enough" "another passphrase" _ _ _ E
              eq_refl ltac:(by vm_compute) eq_refl ltac:(apply (bool_decide_unpack _); vm_compute; exact I) ltac:(vm_compute; reflexivity)) as (-> & _ & _ & _ & Hf).
  exists m'. by split.
Defined.
