(* ===== verification/InitServe.v ===== *)
(** * Set-up, then the server

    The two commands of an operator composed: [init] on a new database, then
    [serve] on the same machine with the same secrets.  And what [init] writes
    over. *)

From Stdlib Require Import ZArith Lia Ascii.
From S2P Require Import Prelude RustStr Externals Demo StoreTypes Utf8 OAuthCore Jose MemoryStore MemoryProps Client.
From S2P Require Import OAuthServer Session KeyCrypto Identity Accounts AccountProps Outbound IdentityXrpc Firehose.
From S2P Require Import Flaky Machine Setup Commands CommandProps Init InitProps InitSafety.

Section Composed.
Context `{Digests} `{Json} `{Jwt} `{Ecdsa} `{UrlLib} `{!UrlHost} `{Argon2} `{KeyCiphers} `{KeypairIO} `{PlcLib} `{TomlLib}.
Context {Cid : Type} `{Countable Cid} `{!DatabaseFile (Inner Cid)}.
Variable SUPPORTED is_tty bindable : bool.
Variable env_password : option string.
Variable fetch_ip : result string IpAddr.
Variable ip_text : IpAddr -> string.
Variable resolve_a : string -> result string (list IpAddr).
Variable plc_answer : string -> PlcGenesisOpSigned -> result CoreError unit.
Variable did_web_resolve : string -> option Value.
Variable client_metadata : ClientId -> result OAuthError ClientMetadata.
Variable status_text : Z -> string.
Variable relay_answer : CrawlPost -> result string Z.
Variable xrpc_debug : XrpcError -> string.
Variable oauth_text : OAuthError -> string.
Notation Mach := (Machine (Inner Cid)).
Notation fresh := (Inner_default : Inner Cid).
Implicit Types (m : Mach) (g : Inner Cid).

Abbreviation init := (init_run fresh SUPPORTED is_tty env_password bindable fetch_ip ip_text resolve_a plc_answer
  did_web_resolve client_metadata status_text relay_answer xrpc_debug oauth_text) (only parsing).
Abbreviation serve := (serve_run fresh SUPPORTED is_tty resolve_a client_metadata status_text relay_answer
  oauth_text) (only parsing).
Abbreviation wizard := (run_wizard bindable fetch_ip ip_text resolve_a plc_answer did_web_resolve
  status_text relay_answer xrpc_debug) (only parsing).

Lemma new_client_Ok what m m' : new_client what m = (Ok tt, m') -> untouched m m'.
Proof.
  unfold new_client, with_err. destruct (os_call m) as [[[]|e] m1] eqn:E; [|done].
  intros [= <-]. by apply os_call_Ok in E.
Qed.

Lemma new_client_quiet what m : m_faults m = [] -> new_client what m = (Ok tt, m).
Proof. intros Hq. unfold new_client, with_err. by rewrite (os_call_quiet (Cid := Cid) m Hq). Qed.

(** Past a client that is built. *)
Ltac skip_client := unfold bind at 1; rewrite new_client_quiet by done; cbn beta iota.

Lemma new_clients_Ok m m' : new_clients m = (Ok tt, m') -> untouched m m'.
Proof.
  unfold new_clients. intros E. apply bind_Ok in E as ([] & m1 & E1 & E). apply bind_Ok in E as ([] & m2 & E2 & E).
  apply bind_Ok in E as ([] & m3 & E3 & E4). apply new_client_Ok in E1, E2, E3, E4.
  eauto using untouched_trans.
Qed.

(** A state that was made: the key of the authorization server is held. *)
Lemma init_state_Ok `{!EcdsaLaws} `{!KeyCipherLaws} d db hostname jwt passphrase m st m' :
  str_len (id_as_salt d) = 16 -> str_len (id_as_nonce d) = 12 ->
  init_state client_metadata oauth_text d db hostname jwt passphrase m = (Ok st, m') ->
  st = MkAppState jwt hostname ("https://" +:+ hostname) false passphrase /\ m_files m' = m_files m /\
  exists key, holds_signing_key passphrase key (db_at db m').
Proof.
  intros Hs Hn E. unfold init_state in E. apply bind_Ok in E as (o & m1 & E1 & E).
  apply on_db_Ok in E1 as (g & E1 & Ho & _). unfold bootstrap in E1.
  apply bind_Ok in E1 as (key & [g1 fs1] & E1 & E2). unfold ret in E2. injection E2 as _ <- _.
  apply (signing_key_held (id_as_key d)) in E1 as [_ Hk]; [|done..].
  apply bind_Ok in E as ([] & m2 & E2 & E). apply new_client_Ok in E2 as [fs ->].
  unfold ret in E. injection E as <- <-. pose proof Ho as (_ & Hf & _). apply only_db_at in Ho as [Ho _].
  split; [done|]. split; [exact Hf|]. exists key. change (db_at db (set_faults fs m1)) with (db_at db m1). by rewrite Ho.
Qed.

(** A registration of the first account leaves every other key. *)
Lemma first_registration state a handle password g posts resp g' posts' :
  st_open_registration state = false ->
  create_account_inner state plc_answer did_web_resolve a
    {| ca_handle := handle; ca_email := None; ca_password := Some password;
       ca_invite_code := None; ca_did := None; ca_recovery_key := None |} (g, posts) = (Ok resp, (g', posts')) ->
  accounts g = ∅ /\ keys g' !! AS_SIGNING_KEY = keys g !! AS_SIGNING_KEY.
Proof.
  intros Hopen E. unfold create_account_inner in E. apply bind_Ok in E as ([h ic] & w1 & Eg & E).
  apply gate_Ok in Eg as (_ & _ & g1 & -> & Hs). pose proof Hs as Hs'.
  apply invite_spent_accounts in Hs' as (Ea & Ek & _).
  apply finish_Ok in E as (did & phc & b1 & b2 & t & _ & _ & _ & _ & Hc & _ & _ & -> & _ & _).
  split.
  - rewrite <- Ea. destruct Hc as [->|[Hc|Hc]]; [|congruence|by apply map_size_empty_inv].
    by destruct Hs as (code & i & Hcode & _).
  - unfold registered, with_keys. cbn [keys set_keys with_account].
    rewrite !lookup_insert_ne; [by rewrite <- Ek|..]; apply not_eq_sym;
      [apply as_key_signing|apply as_key_rotation].
Qed.

(** Saving the secrets, or not, leaves databases and files. *)
Lemma keychain_saved h jwt passphrase m m' :
  (if SUPPORTED then
     let! _saved := catch (E := string) (F := string)
       (keychain_set SUPPORTED h JWT_SECRET jwt ;;! keychain_set SUPPORTED h KEY_PASSPHRASE passphrase) in ret tt
   else ret tt)%se m = (Ok tt, m') ->
  m_dbs m' = m_dbs m /\ m_files m' = m_files m.
Proof.
  assert (forall k v m1, m_dbs (snd (keychain_set SUPPORTED h k v m1)) = m_dbs m1 /\
                         m_files (snd (keychain_set SUPPORTED h k v m1)) = m_files m1) as Hset.
  { intros k v m1. unfold keychain_set. destruct SUPPORTED; [|done]. unfold bind, with_err, os_call.
    destruct (m_faults m1) as [|[e|] fs] eqn:E1; cbn; try done.
    - by rewrite E1.
    - by destruct fs as [|[e'|] fs]. }
  destruct SUPPORTED; [|by intros [= <-]]. unfold bind, catch, ret.
  pose proof (Hset JWT_SECRET jwt m) as Ha.
  destruct (keychain_set true h JWT_SECRET jwt m) as [[[]|e] m1]; [|intros [= <-]; exact Ha].
  pose proof (Hset KEY_PASSPHRASE passphrase m1) as Hb. cbn in Ha.
  destruct (keychain_set true h KEY_PASSPHRASE passphrase m1) as [r m2]. intros [= <-].
  cbn in Hb |- *. destruct Ha, Hb. split; congruence.
Qed.

(** A first set-up that ended well: a wizard ran on a state that was made, and
    what followed left the databases and the files. *)
Lemma init_Ok `{!EcdsaLaws} `{!KeyCipherLaws} d a args config h jwt passphrase m outcome m' :
  str_len (id_as_salt d) = 16 -> str_len (id_as_nonce d) = 12 ->
  ia_hostname args = Some h -> ia_jwt_secret args = Some jwt -> ia_key_passphrase args = Some passphrase ->
  init d a args config m = (Ok (Initialized outcome), m') ->
  exists opts m1 m2 key,
    wo_hostname opts = h /\ wo_db_path opts = ia_db_path args /\
    wo_config_path opts = default "stelyph.toml" config /\
    (forall p, ia_port args = Some p -> wo_port opts = p) /\
    (forall p, ia_password args = Some p -> wo_password opts = p) /\
    (forall x, ia_handle args = Some x -> wo_handle opts = x) /\
    m_files m1 !! ia_db_path args = None /\
    holds_signing_key passphrase key (db_at (ia_db_path args) m1) /\
    wizard a (MkAppState jwt h ("https://" +:+ h) false passphrase) opts m1 = (Ok outcome, m2) /\
    m_dbs m' = m_dbs m2 /\ m_files m' = m_files m2.
Proof.
  intros Hs Hn Hh Hj Hp E. unfold init_run, init_hostname in E. rewrite Hh in E.
  apply bind_Ok in E as (h' & m1 & [= <- <-] & E). apply bind_Ok in E as (handle & m2 & Eh & E).
  apply bind_Ok in E as ([] & m3 & _ & E). apply bind_Ok in E as ([] & m4 & _ & E).
  apply bind_Ok in E as (accts & m5 & _ & E). destruct accts as [|first accts].
  2:{ exfalso. unfold init_existing in E. apply bind_Ok in E as ([] & m6 & _ & E).
      apply bind_Ok in E as ([] & m7 & _ & E); cbn [negb] in E; [|done].
      apply bind_Ok in E as ([] & m8 & _ & E). by apply bind_Ok in E as (did & m9 & _ & E). }
  unfold init_first in E. rewrite Hj, Hp in E. apply bind_Ok in E as (port & m6 & Eport & E).
  apply bind_Ok in E as ([] & m7 & _ & E). apply bind_Ok in E as (mode & m8 & _ & E).
  apply bind_Ok in E as (password & m9 & Epw & E). apply bind_Ok in E as (pass & m10 & [= <- <-] & E).
  apply bind_Ok in E as ([] & m11 & Eo & E). apply open_db_Ok in Eo as (_ & Hopen & _).
  apply bind_Ok in E as ([] & m12 & Ecs & E). apply new_clients_Ok in Ecs as [fs0 ->].
  apply bind_Ok in E as (st & m13 & Est & E).
  apply (init_state_Ok d _ _ _ _ _ _ _ Hs Hn) in Est as (-> & Hst & key & Hkey).
  apply bind_Ok in E as ([] & m14 & Ec & E). apply new_client_Ok in Ec as [fs ->].
  apply bind_Ok in E as ([] & m15 & Ec & E). apply new_client_Ok in Ec as [fs' ->].
  apply bind_Ok in E as (outcome' & m16 & Ew & E). apply bind_Ok in E as ([] & m17 & Ek & E).
  unfold ret in E. injection E as -> <-. apply keychain_saved in Ek as [Hd Hf].
  eexists _, (set_faults fs' (set_faults fs m13)), m16, key.
  split_and!; [..|exact Hkey|exact Ew|exact Hd|exact Hf]; try done.
  4: { cbn. rewrite Hst. cbn. rewrite Hopen. by apply lookup_delete_eq. }
  - intros p Ep. unfold init_port in Eport. rewrite Ep in Eport. by injection Eport.
  - intros p Ep. unfold resolve_password in Epw. rewrite Ep in Epw. by injection Epw.
  - intros x Ex. rewrite Ex in Eh. by injection Eh.
Qed.

(** A server that holds its key starts on it. *)
Lemma bootstrap_held d passphrase jwt issuer did g key :
  holds_signing_key passphrase key g ->
  exists o, bootstrap (St := Flaky (Inner Cid)) (id_as_key d) (id_as_salt d) (id_as_nonce d) passphrase jwt issuer did
    client_metadata (g, []) = (Ok o, (g, [])).
Proof.
  intros Hk. unfold bootstrap, bind. rewrite as_signing_key_calm, (held_key_used _ _ _ _ _ _ Hk).
  by eexists.
Qed.

(** A server on a quiet machine whose settings are decided: it starts, on the
    key it holds, and leaves every database as it is. *)
Lemma serve_starts d args config m s key :
  m_faults m = [] -> m_files m !! se_db_path s = None ->
  serve_settings SUPPORTED (id_jwt d) is_tty args config m = (Ok s, m) ->
  holds_signing_key (se_key_passphrase s) key (db_at (se_db_path s) m) ->
  (se_mode s = Standalone -> looks_like_public_hostname (se_hostname s) = true /\
                             is_ok (resolve_a (se_hostname s)) = true) ->
  exists m', serve d args config m =
    (Ok (s, MkAppState (se_jwt_secret s) (se_hostname s) (se_pds_endpoint s) (se_open_registration s)
              (se_key_passphrase s)), m') /\
    forall p, db_at p m' = db_at p m.
Proof.
  intros Hq Hno Es Hk Hmode. unfold serve_run. unfold bind at 1. rewrite Es. cbn beta iota.
  destruct (open_db_quiet (Cid := Cid) (se_db_path s) m Hq Hno) as (m1 & E1 & Ho1 & _ & Hq1).
  unfold bind at 1. rewrite E1. cbn beta iota.
  do 4 skip_client.
  pose proof (opened_db_at _ _ _ Ho1) as [Hthere Hat]. rewrite <- Hat in Hk.
  destruct (bootstrap_held d _ (se_jwt_secret s) (se_pds_endpoint s) ("did:web:" +:+ se_hostname s) _ _ Hk) as [o Eb].
  unfold bind at 1. rewrite (on_db_unchanged _ _ _ m1 (Ok o) []); [|by eexists|by rewrite Hq1].
  cbn [map_err]. set (m2 := set_faults [] m1).
  assert (m_faults m2 = []) as Hq2 by done.
  skip_client.
  assert (forall c : SE Mach string unit, c m2 = (Ok tt, m2) ->
    exists m', (c ;;! crawl status_text relay_answer (se_relay_url s) (se_hostname s) ;;!
      ret (s, MkAppState (se_jwt_secret s) (se_hostname s) (se_pds_endpoint s) (se_open_registration s)
                (se_key_passphrase s)))%se m2 =
      (Ok (s, MkAppState (se_jwt_secret s) (se_hostname s) (se_pds_endpoint s) (se_open_registration s)
                (se_key_passphrase s)), m') /\ forall p, db_at p m' = db_at p m) as Hend.
  { intros c Hc. unfold bind at 1. rewrite Hc. unfold bind, crawl, ret.
    destruct (request_crawl _ _ _ _ _) as [x crawls]. eexists. split; [reflexivity|].
    intros p. change (db_at p m1 = db_at p m). destruct (decide (p = se_db_path s)) as [->|Hne]; [done|].
    exact (opened_db_others _ _ _ _ Ho1 Hne). }
  apply Hend. destruct (se_mode s).
  - destruct (Hmode eq_refl) as [Hpub Hres]. unfold bind, assert_or. rewrite Hpub. cbn.
    by rewrite Hres.
  - unfold with_err. by rewrite (os_call_quiet (Cid := Cid) m2 Hq2).
Qed.

End Composed.

(** ** Property *)

(** The account has a session, under the handle with which its owner logs in. *)
Definition owner_logs_in `{Digests} `{Json} `{Jwt} `{Argon2} {Cid : Type} `{Countable Cid}
    (st : AppState) (did password : string) (g : Inner Cid) : Prop :=
  exists handle, get_session did g = (Ok (MkGetSession handle did true), g) /\
    forall draw, fst (create_session st draw {| cs_identifier := handle; cs_password := password |} g) =
      (let? t := issue_session st did draw in Ok (MkSession (fst t) (snd t) handle did true)).

(** C31: the server starts where set-up stopped.  Take an [init] that set up a
    first account and reported success, given its hostname, its password, a JWT
    secret of at least 32 bytes and a passphrase that is not empty, its
    configuration not in the place of its database.  On the machine it leaves,
    when no call of the system fails any more, [serve] with the same two secrets
    and the same [--config], whatever it draws, starts — in standalone mode if
    the name is public and resolves — on the hostname, the database and the port
    set up; it changes nothing in any database, both keys of the first account
    load under its passphrase, and the owner logs in with the password given. *)
Theorem init_then_serve `{Digests} `{Json} `{Jwt} `{EcdsaLaws} `{UrlLib} `{!UrlHost} `{Argon2Laws} `{KeyCipherLaws}
    `{KeypairIO} `{PlcLib} `{TomlLaws} {Cid : Type} `{Countable Cid} `{!DatabaseFile (Inner Cid)}
    SUPPORTED is_tty tty' env_password bindable fetch_ip ip_text resolve_a plc_answer did_web_resolve
    client_metadata status_text relay_answer xrpc_debug oauth_text d d' a args config
    h jwt passphrase password (m m1 : Machine (Inner Cid)) outcome
    (Hsalt : str_len (id_as_salt d) = 16) (Hnonce : str_len (id_as_nonce d) = 12) (Hdraw : draw_ok a)
    (Hhost : ia_hostname args = Some h) (Hpassword : ia_password args = Some password)
    (Hjwt : ia_jwt_secret args = Some jwt) (Hlong : 32 <= str_len jwt)
    (Hphrase : ia_key_passphrase args = Some passphrase) (Hblank : passphrase <> "")
    (Hdistinct : default "stelyph.toml" config <> ia_db_path args)
    (Hrun : init_run Inner_default SUPPORTED is_tty env_password bindable fetch_ip ip_text resolve_a plc_answer
              did_web_resolve client_metadata status_text relay_answer xrpc_debug oauth_text d a args config m
            = (Ok (Initialized outcome), m1))
    (Hquiet : m_faults m1 = [])
    (Hname : wz_mode_recommendation outcome = RStandalone ->
             looks_like_public_hostname h = true /\ is_ok (resolve_a h) = true) :
  exists s st m2, serve_run Inner_default SUPPORTED tty' resolve_a client_metadata status_text relay_answer
                    oauth_text d' (secrets_only jwt passphrase) config m1 = (Ok (s, st), m2) /\
    se_hostname s = h /\ se_db_path s = ia_db_path args /\ (forall p, ia_port args = Some p -> se_port s = p) /\
    (forall p, db_at p m2 = db_at p m1) /\
    let g := db_at (se_db_path s) m2 in
    load_key (wz_did outcome +:+ "#signing") passphrase g = (Ok (kp_export (ad_signing a)), g) /\
    load_key (wz_did outcome +:+ "#rotation") passphrase g = (Ok (kp_export (ad_rotation a)), g) /\
    owner_logs_in st (wz_did outcome) password g.
Proof.
  eapply init_Ok with (h := h) (jwt := jwt) (passphrase := passphrase) in Hrun
    as (opts & mw & mw' & key & <- & Hdb & Hcfg & Hport & Hpw & _ & Hno & Hkey & Hrun & Hdbs & Hfiles); [|done..].
  apply wizard_Ok in Hrun as (g' & posts' & resp & text & Hc & Hdid & Hrec & Hg & _ & Htext & Hf).
  assert (db_at (ia_db_path args) mw' = g') as Hg'
    by (unfold db_at; rewrite Hg, Hcfg, Hdb, lookup_delete_ne by done; by rewrite lookup_insert_eq).
  assert (m_files m1 !! ia_db_path args = None) as Hno1
    by (rewrite Hfiles, Hf, Hcfg; by rewrite lookup_insert_ne).
  destruct (toml_round_trip _ _ Htext) as [Hu Hparse]. rewrite (Hpw _ Hpassword), Hdb in *.
  pose proof Hc as Hfirst. eapply first_registration in Hfirst as [Hnone Has]; [|done].
  assert (forall p, db_at p m1 = db_at p mw') as Hat by (intros p; unfold db_at; by rewrite Hdbs).
  assert (account_inv (db_at (ia_db_path args) mw)) as Hi.
  { apply (account_inv_ext Inner_default); [by rewrite Hnone|]. apply account_inv_default. }
  destruct (created_account _ _ _ _ _ _ _ _ _ _ Hi Hdraw Hc)
    as (did & phc & p & b1 & b2 & g1 & consumed & _ & Hd & _ & _ & _ & _ & [= <-] & _ & _ & _ & _ & Hk1 & Hk2 & _ &
        Hlogin & Hsession).
  rewrite Hd in Hdid. subst did.
  assert (m_files m1 !! default "stelyph.toml" config = Some text) as Htoml
    by (rewrite Hfiles, Hf, Hcfg; by rewrite lookup_insert_eq).
  pose proof (configured_settings SUPPORTED (id_jwt d') tty' jwt passphrase opts _ config text m1
                Hquiet Htoml Hu Hparse Hlong Hblank) as Es.
  eapply (serve_starts (Cid := Cid)) in Es as (m2 & E & Hsame); cbn in *.
  - eexists _, _, m2. split; [exact E|]. cbn. rewrite Hsame, Hat, Hdb, Hg'.
    split_and!; try done.
    eexists. split; [exact Hsession|]. exact Hlogin.
  - done.
  - cbn. by rewrite Hdb.
  - cbn. rewrite Hat, Hdb, Hg'. unfold holds_signing_key in *. rewrite Has. exact Hkey.
  - cbn. intros Hm. apply Hname. rewrite Hrec in *. by destruct (wizard_mode _ _ _ _).
Qed.

(** a first set-up replaces whatever is at the path of [--config].  After an
    [init] that set up a first account there is no database at that path, be it
    that one was there or not: the configuration is. *)
Theorem init_replaces_config `{Digests} `{Json} `{Jwt} `{EcdsaLaws} `{UrlLib} `{!UrlHost} `{Argon2} `{KeyCipherLaws}
    `{KeypairIO} `{PlcLib} `{TomlLaws} {Cid : Type} `{Countable Cid} `{!DatabaseFile (Inner Cid)}
    SUPPORTED is_tty env_password bindable fetch_ip ip_text resolve_a plc_answer did_web_resolve
    client_metadata status_text relay_answer xrpc_debug oauth_text d a args config
    h jwt passphrase (m m1 : Machine (Inner Cid)) outcome
    (Hsalt : str_len (id_as_salt d) = 16) (Hnonce : str_len (id_as_nonce d) = 12)
    (Hhost : ia_hostname args = Some h) (Hjwt : ia_jwt_secret args = Some jwt)
    (Hphrase : ia_key_passphrase args = Some passphrase)
    (Hrun : init_run Inner_default SUPPORTED is_tty env_password bindable fetch_ip ip_text resolve_a plc_answer
              did_web_resolve client_metadata status_text relay_answer xrpc_debug oauth_text d a args config m
            = (Ok (Initialized outcome), m1)) :
  m_dbs m1 !! default "stelyph.toml" config = None /\
  exists text c, m_files m1 !! default "stelyph.toml" config = Some text /\ toml_from_str text = Ok c /\
    cfg_hostname c = Some h /\ cfg_db_path c = Some (ia_db_path args).
Proof.
  eapply init_Ok with (h := h) (jwt := jwt) (passphrase := passphrase) in Hrun
    as (opts & mw & mw' & key & Hh & Hdb & Hcfg & _ & _ & _ & _ & _ & Hrun & Hdbs & Hfiles); [|done..].
  apply wizard_Ok in Hrun as (g' & posts' & resp & text & _ & _ & _ & Hg & _ & Htext & Hf).
  rewrite Hdbs, Hg, Hfiles, Hf, Hcfg, lookup_delete_eq, lookup_insert_eq. split; [done|].
  apply toml_round_trip in Htext as [_ Hparse]. eexists text, _. split; [done|]. split; [exact Hparse|].
  cbn. by rewrite Hh, Hdb.
Qed.

(** ** Witness *)

#[local] Existing Instance net_urls.
#[local] Existing Instance net_hosts.

Lemma init_then_serve_witness :
  exists outcome m1, demo_init None "ka" (demo_args "alice.pds.test" "correct horse" demo_pass) demo_no_files
                     = (Ok (Initialized outcome), m1) /\
    exists s st m2, serve_run Inner_default false false demo_unresolved (fun _ => Err (InvalidClient "unused"))
        (fun _ => "") (fun _ => Ok 200) OAuthError_to_string demo_init_draw (secrets_only demo_jwt_secret demo_pass) None m1
      = (Ok (s, st), m2) /\ se_hostname s = "pds.test" /\ se_port s = 3000.
Proof.
  destruct (demo_init None "ka" _ demo_no_files) as [r m1] eqn:E.
  assert (m_faults m1 = []) as Hq
    by (apply (f_equal (fun x => m_faults (snd x))) in E; vm_compute in E; by rewrite E).
  assert (match r with Ok (Initialized o) => wz_mode_recommendation o = RProxy | _ => False end) as Hr.
  { apply (f_equal (fun x => match fst x with Ok (Initialized o) => Some (wz_mode_recommendation o) | _ => None end)) in E.
    vm_compute in E. destruct r as [[| |o]|e]; [discriminate E..| |discriminate E]. destruct o. cbn in *. congruence. }
  destruct r as [[|did|outcome]|e]; [destruct Hr..| |destruct Hr].
  exists outcome, m1. split; [reflexivity|].
  destruct (init_then_serve false true false None true (Err "offline") (fun _ => "") demo_unresolved
              demo_directory demo_resolve (fun _ => Err (InvalidClient "unused")) (fun _ => "") (fun _ => Ok 200)
              (fun _ => "xrpc") OAuthError_to_string demo_init_draw demo_init_draw (demo_draw "ka")
              (demo_args "alice.pds.test" "correct horse" demo_pass) None "pds.test" demo_jwt_secret demo_pass
              "correct horse" demo_no_files m1 outcome eq_refl eq_refl
              (conj eq_refl (conj eq_refl (conj eq_refl eq_refl))) eq_refl eq_refl eq_refl ltac:(by vm_compute)
              eq_refl ltac:(discriminate) ltac:(discriminate) E Hq ltac:(by rewrite Hr))
    as (s & st & m2 & Es & Hh & _ & Hp & _).
  exists s, st, m2. split; [exact Es|]. split; [exact Hh|]. exact (Hp 3000 eq_refl).
Defined.

(** Set up again on [new.db], the configuration going over the database of the
    first server: its account is gone. *)
Lemma init_replaces_config_witness :
  exists outcome m1, demo_init (Some "pds.db") "kb" (demo_args_at "new.db" "alice.pds.test" "long enough" demo_pass)
                       demo_set_up = (Ok (Initialized outcome), m1) /\
    size (accounts (db_at "pds.db" demo_set_up)) = 1%nat /\ m_dbs m1 !! "pds.db" = None.
Proof.
  destruct (demo_init (Some "pds.db") "kb" _ demo_set_up) as [r m1] eqn:E.
  assert (match r with Ok (Initialized _) => true | _ => false end = true) as Hr
    by (apply (f_equal (fun x => match fst x with Ok (Initialized _) => true | _ => false end)) in E;
        vm_compute in E; exact (eq_sym E)).
  destruct r as [[|did|outcome]|e]; [discriminate Hr..| |discriminate Hr].
  exists outcome, m1. split; [reflexivity|]. split; [by vm_compute|].
  refine (proj1 (init_replaces_config _ _ _ _ _ _ _ _ _ _ _ _ _ _ _ _ _ _ "pds.test" demo_jwt_secret demo_pass _ m1
    outcome _ _ _ _ _ E)); reflexivity.
Defined.
