(* ===== verification/ServiceProxy.v ===== *)
(** * Service tokens and service proxying

    [src/rust-core/src/auth/service_auth.rs] (the ES256K tokens one service
    shows another), [src/rust-core/src/server/appview.rs] (the embedded server's
    forwarder) and [src/rust-pds/src/xrpc/appview/] (the production server's
    forwarder, with its HTTP client and its DID resolver).  The network is a
    function of everything sent so far: it may answer as it likes, and where it
    answers with a redirect the client follows. *)

From Stdlib Require Import ZArith Lia Ascii.
From S2P Require Import Prelude RustStr Externals Demo StoreTypes MemoryStore MemoryProps OAuthCore.
From S2P Require Import Jose Dpop Client OAuthServer OAuthProps Session Repo KeyCrypto Identity.
From S2P Require Import Accounts Firehose RepoWriter RepoRead RepoXrpc Utf8 EmbServer EmbRepo Outbound.

(** ** Minting *)

Definition lower_hex_digit (v : Z) : ascii :=
  ascii_of_N (Z.to_N (if v <? 10 then 48 + v else 87 + v)).

(** [format!("{:0width$x}")] of a value below [16^width]. *)
Fixpoint lower_hex (width : nat) (v : Z) : string :=
  match width with
  | O => ""
  | S w => lower_hex w (v / 16) +:+ String (lower_hex_digit (v mod 16)) ""
  end.

Definition quoted (s : string) : string := String "034" (s +:+ String "034" "").
Definition SERVICE_HEADER : string :=
  "{" +:+ quoted "typ" +:+ ":" +:+ quoted "JWT" +:+ "," +:+ quoted "alg" +:+ ":" +:+
  quoted "ES256K" +:+ "}".

(** What a mint draws: the clock read for the expiry, the clock read for [iat],
    and 128 random bits. *)
Record MintDraw := { md_now : Z; md_iat : Z; md_rand : Z }.

Section Minting.
Context `{Digests} `{Json} `{!JsonMore} `{Keypairs}.

Definition service_claims (iss aud : string) (lxm : option string) (exp now : Z) (jti : string) : Value :=
  json_object
    ([("iss", json_of_str iss); ("aud", json_of_str aud)] ++
     match lxm with Some l => [("lxm", json_of_str l)] | None => [] end ++
     [("exp", json_num exp); ("iat", json_num now); ("jti", json_of_str jti)]).

Definition mint_service_auth_jwt_at (signing_key : Keypair) (iss aud : string) (lxm : option string)
    (exp_unix now rand : Z) : result string string :=
  let jti := lower_hex 32 rand in
  let claims_json := json_to_string (service_claims iss aud lxm exp_unix now jti) in
  let h := b64url_encode SERVICE_HEADER in
  let p := b64url_encode claims_json in
  let signing_input := h +:+ "." +:+ p in
  let? sig_bytes := map_err (fun e => "ES256K sign: " +:+ e) (kp_sign signing_key signing_input) in
  Ok (signing_input +:+ "." +:+ b64url_encode sig_bytes).

Definition mint_service_auth_jwt_with (signing_key : Keypair) (iss aud : string)
    (lxm : option string) (exp_unix : Z) (d : MintDraw) : result string string :=
  mint_service_auth_jwt_at signing_key iss aud lxm exp_unix (md_iat d) (md_rand d).

Definition mint_service_auth_jwt (signing_key : Keypair) (iss aud lxm : string) (d : MintDraw)
    : result string string :=
  mint_service_auth_jwt_with signing_key iss aud (Some lxm) (u64_add (md_now d) 60) d.

(** The production wrappers map the error. *)
Definition x_mint_with (signing_key : Keypair) (iss aud : string) (lxm : option string)
    (exp_unix : Z) (d : MintDraw) : result XrpcError string :=
  map_err XInternal (mint_service_auth_jwt_with signing_key iss aud lxm exp_unix d).
Definition x_mint (signing_key : Keypair) (iss aud lxm : string) (d : MintDraw)
    : result XrpcError string :=
  map_err XInternal (mint_service_auth_jwt signing_key iss aud lxm d).

End Minting.

(** ** The embedded forwarder *)

Definition MAX_PROXY_BODY : Z := 1024 * 1024.

Record ProxyRequest := {
  pr_method : string;
  pr_base_url : string;
  pr_nsid : string;
  pr_query : string;
  pr_body : bytes;
  pr_content_type : option string;
  pr_service_jwt : string;
  pr_accept_labelers : option string;
}.

Record ProxyResponse := {
  ps_status : Z;
  ps_content_type : option string;
  ps_body : bytes;
  ps_content_labelers : option string;
}.

(** What has been handed to the embedder, in order. *)
Inductive Sent := SentFetch (url : string) | SentForward (rq : ProxyRequest).

Record OutboundProxy := {
  op_forward : list Sent -> ProxyRequest -> result string ProxyResponse;
  op_fetch : list Sent -> string -> result string bytes;
}.

Record Relayed := {
  rl_status : Z;
  rl_content_type : option string;
  rl_content_labelers : option string;
  rl_body : bytes;
}.

(** [trim_start_matches] of a string pattern: every leading occurrence goes. *)
Fixpoint trim_start_str_fuel (n : nat) (p s : string) : string :=
  match n with
  | O => s
  | S n => match strip_prefix p s with Some r => trim_start_str_fuel n p r | None => s end
  end.
Definition trim_start_str (p s : string) : string := trim_start_str_fuel (String.length s) p s.

Definition proxyable_method (m : string) : bool := String.eqb m "GET" || String.eqb m "POST".

Definition METHOD_NOT_IMPLEMENTED : Fail :=
  xrpc_error 404 "MethodNotImplemented" "method not implemented by the embedded server".

Section Embedded.
Context `{Digests} `{Json} `{!JsonMore} `{Jwt} `{HttpLib}.
Context {Cid St : Type} `{CidLib Cid} `{Countable Cid} `{StorageBackend Cid St}.
Context `{RepoSerde Cid} `{!Atrium Cid} `{!AtriumRead Cid} `{Keypairs} `{!KeypairIO} `{CarLib Cid}.
Context `{KeyCiphers} `{!Serde Value}.
Variable config : ServerConfig.
Variable proxy : option OutboundProxy.

(** The world: the write handlers' world, the cache of resolved targets, and
    what was sent. *)
Record ProxyWorld := MkPw {
  pw_inner : WriteWorld (St := St);
  pw_targets : gmap string string;
  pw_sent : list Sent;
}.
Notation P A := (SE ProxyWorld Fail A).

Definition p_write {A} (m : SE WriteWorld Fail A) : P A :=
  fun w => let '(r, i) := m (pw_inner w) in (r, MkPw i (pw_targets w) (pw_sent w)).

Definition target_get (k : string) : P (option string) := fun w => (Ok (pw_targets w !! k), w).
Definition target_insert (k v : string) : P unit :=
  fun w => (Ok tt, MkPw (pw_inner w) (<[k := v]> (pw_targets w)) (pw_sent w)).

Definition send_fetch (px : OutboundProxy) (url : string) : P (result string bytes) :=
  fun w => (Ok (op_fetch px (pw_sent w) url),
            MkPw (pw_inner w) (pw_targets w) (pw_sent w ++ [SentFetch url])).
Definition send_forward (px : OutboundProxy) (rq : ProxyRequest) : P (result string ProxyResponse) :=
  fun w => (Ok (op_forward px (pw_sent w) rq),
            MkPw (pw_inner w) (pw_targets w) (pw_sent w ++ [SentForward rq])).

Definition resolve_target (px : OutboundProxy) (did fragment : string) : P string :=
  (if starts_with "did:web:" did then lift (map_err invalid (did_web_endpoint did))
   else if negb (starts_with "did:plc:" did) then
     throw (invalid ("unsupported proxy DID method: " +:+ did))
   else
     let cache_key := did +:+ "#" +:+ fragment in
     let! hit := target_get cache_key in
     match hit with
     | Some hit => ret hit
     | None =>
         let! fetched := send_fetch px (cf_plc_url config +:+ "/" +:+ did) in
         let! body := lift (map_err (fun _ => xrpc_error 502 "UpstreamFailure" "PLC directory fetch failed")
                              fetched) in
         let! doc := lift (ok_or (json_from_slice body)
                             (xrpc_error 502 "UpstreamFailure" "PLC document decode failed")) in
         let! endpoint := lift (ok_or (service_endpoint_from_doc doc did fragment)
                             (invalid ("no #" +:+ fragment +:+ " service on " +:+ did))) in
         target_insert cache_key endpoint ;;!
         ret endpoint
     end)%se.

(** Where a request goes: the service DID and its base URL. *)
Definition route_target (px : OutboundProxy) (proxy_header : option string) (nsid : string)
    : P (string * string) :=
  (match proxy_header with
   | Some target =>
       match split_once "#" target with
       | None => throw (invalid "atproto-proxy must be <did>#<service-fragment>")
       | Some (tdid, fragment) =>
           let! base := resolve_target px tdid fragment in
           ret (tdid, base)
       end
   | None =>
       if starts_with "app.bsky." nsid then ret (cf_appview_did config, cf_appview_url config)
       else throw METHOD_NOT_IMPLEMENTED
   end)%se.

Definition header_ok (v : option string) : option string :=
  s ← v; if header_value_ok s then Some s else None.

Definition relay (u : ProxyResponse) : Relayed := {|
  rl_status := default 500 (status_from_u16 (ps_status u));
  rl_content_type := header_ok (ps_content_type u);
  rl_content_labelers := header_ok (ps_content_labelers u);
  rl_body := ps_body u |}.

Definition proxy_nsid (path : string) : result Fail string :=
  let nsid := trim_start_str "/xrpc/" path in
  if String.eqb nsid "" || contains_char "/" nsid then Err METHOD_NOT_IMPLEMENTED else Ok nsid.

Definition proxy_body (body : option bytes) : result Fail bytes :=
  let? b := ok_or body (xrpc_error 400 "InvalidRequest" "could not read body") in
  ensure negb (MAX_PROXY_BODY <? str_len b)
    orelse xrpc_error 413 "InvalidRequest" "request body too large" in
  Ok b.

Definition forward (auth_header : option string) (now : Z) (req : Request) (d : MintDraw) : P Relayed :=
  (match proxy with
   | None => throw (xrpc_error 404 "MethodNotImplemented"
                      "no upstream forwarder is configured on this embedded server")
   | Some px =>
       let! did := lift (access_did config auth_header now) in
       let! nsid := lift (proxy_nsid (rq_path req)) in
       let header := header (rq_headers req) in
       let! target := route_target px (header "atproto-proxy") nsid in
       let! body := lift (proxy_body (rq_body req)) in
       let! signing := p_write (EmbRepo.load_signing_key config did) in
       let! jwt := lift (map_err (fun _ => internal_error "service-auth mint failed")
                           (mint_service_auth_jwt signing did (fst target) nsid d)) in
       let! upstream := send_forward px {|
         pr_method := rq_method req; pr_base_url := snd target; pr_nsid := nsid;
         pr_query := rq_query req; pr_body := body;
         pr_content_type := header "content-type"; pr_service_jwt := jwt;
         pr_accept_labelers := header "atproto-accept-labelers" |} in
       match upstream with
       | Ok u => ret (relay u)
       | Err _ => throw (xrpc_error 502 "UpstreamFailure" "upstream request failed")
       end
   end)%se.

Definition get_service_auth (auth_header : option string) (now : Z) (query : string) (d : MintDraw)
    : P string :=
  (let! did := lift (access_did config auth_header now) in
   let! aud := lift (ok_or (query_param query "aud") (invalid "aud is required")) in
   let lxm := query_param query "lxm" in
   let exp := service_auth_exp (md_now d) (e ← query_param query "exp"; parse_i64 e) in
   let! signing := p_write (EmbRepo.load_signing_key config did) in
   lift (map_err (fun _ => internal_error "service-auth mint failed")
           (mint_service_auth_jwt_with signing did aud lxm exp d)))%se.

End Embedded.

(** ** The production forwarder *)

Inductive ProxyMethod := Get | Post.

Record UpstreamRequest := {
  ur_method : ProxyMethod;
  ur_base_url : string;
  ur_nsid : string;
  ur_query : string;
  ur_body : bytes;
  ur_content_type : option string;
  ur_jwt : string;
  ur_accept_labelers : option string;
}.

Record UpstreamResponse := {
  us_status : Z;
  us_body : bytes;
  us_content_type : option string;
  us_content_labelers : option string;
}.

(** One request on the wire, and its response: the body as bytes and as JSON,
    either of which can fail while it is read. *)
Record HttpRequest := {
  hr_method : ProxyMethod;
  hr_url : string;
  hr_headers : list (string * string);
  hr_body : bytes;
}.
Record HttpResponse `{Json} := {
  hs_status : Z;
  hs_headers : Headers;
  hs_bytes : result string bytes;
  hs_json : result string Value;
}.
Definition HttpClient `{Json} : Type := list HttpRequest -> HttpRequest -> result string HttpResponse.

(** The redirect policy of [reqwest], which the two clients of this section leave
    at its default: the request it sends next when a response redirects, and how
    many times it does. *)
Class RedirectPolicy `{Json} := {
  redirect_of : HttpRequest -> HttpResponse -> option HttpRequest;
  max_redirects : nat;
}.

Definition carries (name : string) (rq : HttpRequest) : bool :=
  existsb (fun h => eq_ignore_ascii_case (fst h) name) (hr_headers rq).

(** The host a URL names, if it is one. *)
Definition host_of `{UrlHost} (url : string) : option (option string) :=
  match Url_parse url with Ok u => Some (url_host_str u) | Err _ => None end.

Definition REDIRECT_STATUSES : list Z := [301; 302; 303; 307; 308].

(** Only these responses redirect, and credentials do not follow to another
    host. *)
Class RedirectLaws `{RedirectPolicy} `{UrlHost} := {
  redirect_status rq resp rq' : redirect_of rq resp = Some rq' -> hs_status resp ∈ REDIRECT_STATUSES;
  redirect_strips rq resp rq' : redirect_of rq resp = Some rq' -> carries "Authorization" rq' = true ->
    carries "Authorization" rq = true /\ host_of (hr_url rq') = host_of (hr_url rq);
}.

Section Production.
Context `{Digests} `{Json} `{!JsonMore} `{UrlHost} `{HttpLib} `{KeyCiphers} `{KeypairIO} `{!RedirectPolicy}.
Context {Cid St : Type} `{StorageBackend Cid St}.
Variable state : AppState.
Variables (appview_did appview_url plc_url : string).
Variable client : HttpClient.

Record XProxyWorld := MkXpw {
  xw_inner : WriteWorld (St := St);
  xw_targets : gmap string string;
  xw_sent : list HttpRequest;
}.
Notation X A := (SE XProxyWorld XrpcError A).

Definition x_write {A} (m : SE WriteWorld XrpcError A) : X A :=
  fun w => let '(r, i) := m (xw_inner w) in (r, MkXpw i (xw_targets w) (xw_sent w)).
Definition cached_target (k : string) : X (option string) := fun w => (Ok (xw_targets w !! k), w).
Definition cache_target (k v : string) : X unit :=
  fun w => (Ok tt, MkXpw (xw_inner w) (<[k := v]> (xw_targets w)) (xw_sent w)).

(** [RequestBuilder::send]: the request, and those its redirects lead to. *)
Fixpoint http_follow (hops : nat) (rq : HttpRequest) : X (result string HttpResponse) :=
  fun w =>
    let answer := client (xw_sent w) rq in
    let w' := MkXpw (xw_inner w) (xw_targets w) (xw_sent w ++ [rq]) in
    match answer with
    | Ok resp =>
        match redirect_of rq resp, hops with
        | None, _ => (Ok answer, w')
        | Some rq', S hops => http_follow hops rq' w'
        | Some _, O => (Ok (Err "too many redirects"), w')
        end
    | Err _ => (Ok answer, w')
    end.
Definition http_send (rq : HttpRequest) : X (result string HttpResponse) := http_follow max_redirects rq.

(** [ReqwestServiceDidResolver::resolve]. *)
Definition resolve (did fragment : string) : X string :=
  (if starts_with "did:web:" did then lift (map_err XInvalidRequest (did_web_endpoint did))
   else if negb (starts_with "did:plc:" did) then
     throw (XInvalidRequest ("unsupported proxy DID method: " +:+ did))
   else
     let cache_key := did +:+ "#" +:+ fragment in
     let! hit := cached_target cache_key in
     match hit with
     | Some hit => ret hit
     | None =>
         let! sent := http_send {| hr_method := Get; hr_url := plc_url +:+ "/" +:+ did;
                                   hr_headers := []; hr_body := "" |} in
         let! resp := lift (map_err (fun e => XUpstreamFailure ("plc fetch failed: " +:+ e)) sent) in
         let! doc := lift (map_err (fun e => XUpstreamFailure ("plc doc decode failed: " +:+ e))
                             (hs_json resp)) in
         let! endpoint := lift (ok_or (service_endpoint_from_doc doc did fragment)
                             (XInvalidRequest ("no #" +:+ fragment +:+ " service on " +:+ did))) in
         cache_target cache_key endpoint ;;!
         ret endpoint
     end)%se.

Definition option_header (name : string) (v : option string) : list (string * string) :=
  match v with Some v => [(name, v)] | None => [] end.

(** The HTTP request of [ReqwestAppViewClient::proxy_request]. *)
Definition upstream_http (req : UpstreamRequest) : HttpRequest := {|
  hr_method := ur_method req;
  hr_url := (ur_base_url req +:+ "/xrpc/" +:+ ur_nsid req) +:+
            (if String.eqb (ur_query req) "" then "" else "?" +:+ ur_query req);
  hr_headers := [("Authorization", "Bearer " +:+ ur_jwt req)] ++
                option_header "Content-Type" (ur_content_type req) ++
                option_header "atproto-accept-labelers" (ur_accept_labelers req);
  hr_body := match ur_method req with Get => "" | Post => ur_body req end |}.

Definition proxy_request (req : UpstreamRequest) : X UpstreamResponse :=
  (lift (validate_appview_url (ur_base_url req)) ;;!
   let! sent := http_send (upstream_http req) in
   let! resp := lift (map_err (fun e => XUpstreamFailure ("upstream request failed: " +:+ e)) sent) in
   let! body := lift (map_err (fun e => XUpstreamFailure ("upstream body read: " +:+ e))
                        (hs_bytes resp)) in
   ret {| us_status := hs_status resp; us_body := body;
          us_content_type := header (hs_headers resp) "content-type";
          us_content_labelers := header (hs_headers resp) "atproto-content-labelers" |})%se.

Definition x_nsid (path : string) : result XrpcError string :=
  let? nsid := ok_or (strip_prefix "/xrpc/" path) XMethodNotImplemented in
  if String.eqb nsid "" || contains_char "/" nsid then Err XMethodNotImplemented else Ok nsid.

Definition x_method (m : string) : result XrpcError ProxyMethod :=
  if String.eqb m "GET" then Ok Get else if String.eqb m "POST" then Ok Post
  else Err XMethodNotImplemented.

(** Where a request goes: the service DID and its base URL. *)
Definition x_route_target (proxy_header : option string) (nsid : string) : X (string * string) :=
  (match proxy_header with
   | Some target =>
       match split_once "#" target with
       | None => throw (XInvalidRequest "atproto-proxy must be <did>#<service-fragment>")
       | Some (tdid, fragment) =>
           let! base := resolve tdid fragment in
           ret (tdid, base)
       end
   | None =>
       if starts_with "app.bsky." nsid then ret (appview_did, appview_url)
       else throw XMethodNotImplemented
   end)%se.

(** [did] is the subject [AccessAuth] extracted; [body] was read in full. *)
Definition proxy_fallback (did : string) (method path query : string) (headers : Headers)
    (body : bytes) (d : MintDraw) : X Relayed :=
  (let! nsid := lift (x_nsid path) in
   let! proxy_method := lift (x_method method) in
   assert_or (negb (MAX_PROXY_BODY <? str_len body)) (XInvalidRequest "request body too large") ;;!
   let header := header headers in
   let! target := x_route_target (header "atproto-proxy") nsid in
   let! signing := x_write (load_signing_key_cached state did) in
   let! jwt := lift (x_mint signing did (fst target) nsid d) in
   let! upstream := proxy_request {|
     ur_method := proxy_method; ur_base_url := snd target; ur_nsid := nsid; ur_query := query;
     ur_body := body; ur_content_type := header "content-type"; ur_jwt := jwt;
     ur_accept_labelers := header "atproto-accept-labelers" |} in
   ret {| rl_status := default 500 (status_from_u16 (us_status upstream));
          rl_content_type := header_ok (us_content_type upstream);
          rl_content_labelers := header_ok (us_content_labelers upstream);
          rl_body := us_body upstream |})%se.

(** [get_service_auth] of [src/rust-pds/src/xrpc/server.rs]. *)
Definition x_get_service_auth (did aud : string) (lxm : option string) (exp : option Z) (d : MintDraw)
    : SE WriteWorld XrpcError string :=
  (let! signing := load_signing_key_cached state did in
   lift (x_mint_with signing did aud lxm (service_auth_exp (md_now d) exp) d))%se.

End Production.
