(* ===== verification/ServiceProps.v ===== *)
(** * Properties of service tokens and service proxying

    What a minted token says and how long it lives, and what the two forwarders
    ever send: only for an authenticated caller, only to the target the caller
    named (or the configured AppView), and only with a token minted for that
    caller, that target and that method; and, of the production server's, what
    its HTTP client asks when it follows a redirect. *)

From Stdlib Require Import ZArith Lia Ascii.
From S2P Require Import Prelude RustStr Externals Demo StoreTypes MemoryStore MemoryProps OAuthCore.
From S2P Require Import Jose Dpop Client OAuthServer OAuthProps Session Repo RepoDemo KeyCrypto.
From S2P Require Import Identity Accounts AccountProps RepoXrpc RepoXrpcProps Firehose Utf8.
From S2P Require Import EmbServer EmbRepo EmbDemo Outbound ServiceProxy.

(** ** Hexadecimal *)

Lemma to_digit16_lower v : 0 <= v < 16 -> to_digit16 (lower_hex_digit v) = Some v.
Proof.
  intros Hv. rewrite <- (Z2Nat.id v) by apply Hv.
  assert (H : forallb (fun n => bool_decide (to_digit16 (lower_hex_digit (Z.of_nat n)) = Some (Z.of_nat n)))
                (seq 0 16) = true) by by vm_compute.
  rewrite forallb_forall in H. eapply bool_decide_eq_true_1, H, in_seq. lia.
Qed.

Lemma read_digits_hex_snoc s c v acc n a k :
  read_digits 16 s acc n = (a, k, "") -> to_digit16 c = Some v ->
  read_digits 16 (s +:+ String c "") acc n = (a * 16 + v, S k, "").
Proof.
  revert acc n. induction s as [|x s IH]; cbn [read_digits]; intros acc n E Hc.
  - injection E as -> ->. rewrite str_app_nil_l. cbn. by rewrite Hc.
  - rewrite str_app_cons. cbn [read_digits]. simpl Z.eqb in *. cbn iota in *.
    destruct (to_digit16 x) eqn:Ex; [by apply IH|discriminate].
Qed.

(** The text of a value below [16^w] reads back. *)
Lemma lower_hex_reads w v :
  0 <= v < 16 ^ Z.of_nat w -> read_digits 16 (lower_hex w v) 0 0 = (v, w, "").
Proof.
  revert v. induction w as [|w IH]; intros v Hv.
  - change (16 ^ Z.of_nat 0) with 1 in Hv. assert (v = 0) as -> by lia. done.
  - rewrite Nat2Z.inj_succ, Z.pow_succ_r in Hv by lia. cbn [lower_hex].
    pose proof (Z.div_mod v 16 ltac:(lia)). pose proof (Z.mod_pos_bound v 16 ltac:(lia)).
    erewrite (read_digits_hex_snoc _ _ (v mod 16)).
    + f_equal. f_equal. rewrite Z.mul_comm. symmetry. by apply Z.div_mod.
    + apply IH. split; [apply Z.div_pos; lia|apply Z.div_lt_upper_bound; lia].
    + by apply to_digit16_lower.
Qed.

(** ** Minted tokens *)

(** [member] finds an element of a literal list. *)
Ltac member := cbn; repeat first [apply elem_of_cons; left; reflexivity | apply elem_of_cons; right].

(** What a service checks of a token: three segments, this header, claims, and a
    signature of the account's key over the first two. *)
Definition service_token `{Digests} `{Json} `{Keypairs} (k : Keypair) (token : string) (c : Value) : Prop :=
  exists h p s pb sig, split_char "." token = [h; p; s] /\ b64url_decode h = Some SERVICE_HEADER /\
    b64url_decode p = Some pb /\ json_from_slice pb = Some c /\ b64url_decode s = Some sig /\
    kp_verify k (h +:+ "." +:+ p) sig = true.

Definition service_grants `{JsonMore} (c : Value) (iss aud : string) (lxm : option string)
    (exp iat rand : Z) : Prop :=
  json_str "iss" c = Some iss /\ json_str "aud" c = Some aud /\
  match lxm with Some l => json_str "lxm" c = Some l | None => json_get "lxm" c = None end /\
  json_get "exp" c = Some (json_num exp) /\ json_get "iat" c = Some (json_num iat) /\
  exists jti, json_str "jti" c = Some jti /\ read_digits 16 jti 0 0 = (rand, 32%nat, "").

Lemma service_claims_grants `{JsonMoreLaws} iss aud lxm exp iat rand :
  0 <= rand < 2 ^ 128 ->
  service_grants (service_claims iss aud lxm exp iat (lower_hex 32 rand)) iss aud lxm exp iat rand.
Proof.
  intros Hr. unfold service_grants, service_claims, json_str.
  assert (Hget : forall k v, (k, v) ∈ ([("iss", json_of_str iss); ("aud", json_of_str aud)] ++
     match lxm with Some l => [("lxm", json_of_str l)] | None => [] end ++
     [("exp", json_num exp); ("iat", json_num iat); ("jti", json_of_str (lower_hex 32 rand))]) ->
     json_get k (service_claims iss aud lxm exp iat (lower_hex 32 rand)) = Some v).
  { intros k v Hin. apply json_object_get; [|done].
    destruct lxm; apply (bool_decide_unpack _); by vm_compute. }
  unfold service_claims in Hget.
  rewrite (Hget "iss" (json_of_str iss)) by (destruct lxm; member).
  rewrite (Hget "aud" (json_of_str aud)) by (destruct lxm; member).
  rewrite (Hget "exp" (json_num exp)) by (destruct lxm; member).
  rewrite (Hget "iat" (json_num iat)) by (destruct lxm; member).
  rewrite (Hget "jti" (json_of_str (lower_hex 32 rand))) by (destruct lxm; member).
  cbn [mbind option_bind]. rewrite !json_as_str_str. split_and!; try done.
  - destruct lxm as [l|].
    + rewrite (Hget "lxm" (json_of_str l)) by member. apply json_as_str_str.
    + apply json_object_get_None. apply (bool_decide_unpack _); by vm_compute.
  - eexists. split; [done|]. apply lower_hex_reads. simpl. lia.
Qed.

Lemma mint_at_token `{DigestLaws} `{JsonMoreLaws} `{KeypairLaws} k iss aud lxm exp now rand token :
  mint_service_auth_jwt_at k iss aud lxm exp now rand = Ok token ->
  service_token k token (service_claims iss aud lxm exp now (lower_hex 32 rand)).
Proof.
  unfold mint_service_auth_jwt_at. set (h := b64url_encode SERVICE_HEADER).
  set (p := b64url_encode _). intros E.
  destruct (kp_sign k (h +:+ "." +:+ p)) as [sig|] eqn:Es; [|done]. injection E as <-.
  assert (Hdot : forall b, contains_char "." (b64url_encode b) = false).
  { intros b. eapply all_bytes_no_char; [apply b64url_encode_chars|done]. }
  exists h, p, (b64url_encode sig), (json_to_string (service_claims iss aud lxm exp now (lower_hex 32 rand))), sig.
  split_and!; try apply b64url_decode_encode.
  - rewrite !str_app_assoc, !str_app_cons, !str_app_nil_l. rewrite !split_char_app, split_char_word by apply Hdot. done.
  - apply json_parse_print. apply json_exact_object. destruct lxm; cbn; rewrite !json_exact_str, !json_exact_num; done.
  - by eapply kp_verify_sign.
Qed.

(** what a service token says.  A minted token is three base64url segments: the
    ES256K header, the claims, and a signature that verifies under the account's
    key; the claims name exactly the issuer, the audience, the expiry and the
    issue time given, the method when one is given (and no method otherwise),
    and 32 hexadecimal digits that read back as the 128 random bits drawn.
    Minting fails only when signing does. *)
Theorem service_token_claims `{DigestLaws} `{JsonMoreLaws} `{KeypairLaws} k iss aud lxm exp now rand :
  0 <= rand < 2 ^ 128 ->
  (forall token, mint_service_auth_jwt_at k iss aud lxm exp now rand = Ok token ->
     exists c, service_token k token c /\ service_grants c iss aud lxm exp now rand) /\
  (forall e, mint_service_auth_jwt_at k iss aud lxm exp now rand = Err e ->
     exists m e', kp_sign k m = Err e').
Proof.
  intros Hr. split.
  - intros token E. eexists. split; [by eapply mint_at_token|by apply service_claims_grants].
  - intros e. unfold mint_service_auth_jwt_at. intros E.
    destruct (kp_sign k _) as [|e'] eqn:Es; [done|by eauto].
Qed.

Lemma service_token_claims_witness :
  exists token c, mint_service_auth_jwt_at ("key" : Keypair (Keypairs := demo_keypairs)) "did:a" "did:web:b" (Some "app.x.y") 1060 1000 48879 = Ok token /\
    service_token ("key" : Keypair (Keypairs := demo_keypairs)) token c /\ service_grants c "did:a" "did:web:b" (Some "app.x.y") 1060 1000 48879.
Proof.
  destruct (service_token_claims ("key" : Keypair (Keypairs := demo_keypairs)) "did:a" "did:web:b" (Some "app.x.y") 1060 1000 48879) as [Hok _].
  - lia.
  - destruct (mint_service_auth_jwt_at ("key" : Keypair (Keypairs := demo_keypairs)) "did:a" "did:web:b" (Some "app.x.y") 1060 1000 48879)
      as [token|e] eqn:E.
    + destruct (Hok token eq_refl) as (c & Hc). by exists token, c.
    + vm_compute in E. discriminate.
Defined.

(** The expiry of a requested token: later than now, at most half an hour ahead. *)
Lemma service_auth_exp_bounds now requested :
  0 <= now < 2 ^ 63 -> now < service_auth_exp now requested <= now + 1800.
Proof.
  intros Hn. unfold service_auth_exp, u64_add.
  assert (Hw : forall k, 0 <= k <= 1800 -> u64_wrap (now + k) = now + k).
  { intros k Hk. unfold u64_wrap, u64_mod. apply Z.mod_small. lia. }
  rewrite !Hw by lia. destruct requested as [e|]; [|lia].
  destruct (Z.ltb_spec now (u64_wrap e)); lia.
Qed.

Section Requested.
Context `{DigestLaws} `{Json} `{!JsonMore} `{!JsonMoreLaws} `{Jwt} `{HttpLib}.
Context {Cid St : Type} `{CidLib Cid} `{Countable Cid} `{StorageBackend Cid St}.
Context `{RepoSerde Cid} `{!Atrium Cid} `{!AtriumRead Cid} `{KeypairLaws} `{!KeypairIO} `{CarLib Cid}.
Context `{KeyCiphers} `{!Serde Value}.
Variable config : ServerConfig.

(** A token minted for [aud] with the expiry of a request. *)
Lemma mint_with_grants k iss aud lxm e d token :
  0 <= md_now d < 2 ^ 63 -> 0 <= md_rand d < 2 ^ 128 ->
  mint_service_auth_jwt_with k iss aud lxm (service_auth_exp (md_now d) e) d = Ok token ->
  exists c exp, service_token k token c /\
    service_grants c iss aud lxm exp (md_iat d) (md_rand d) /\
    md_now d < exp <= md_now d + 1800.
Proof.
  intros Hn Hr E. eexists _, _. split_and!; [by eapply mint_at_token|by apply service_claims_grants|..];
    by apply service_auth_exp_bounds.
Qed.

(** C39: [getServiceAuth] mints for the caller only, and briefly.  Whatever expiry the
    caller asks for (none, one in the past, a negative one, or one far ahead), the
    token of either server is signed with a key loaded for the authenticated
    account, names that account as issuer and the audience and method asked for,
    and expires after the time of the request and at most thirty minutes later. *)
Theorem get_service_auth_bounded (proxy : option OutboundProxy) (state : AppState) d :
  0 <= md_now d < 2 ^ 63 -> 0 <= md_rand d < 2 ^ 128 ->
  (forall auth now query w w' token,
     get_service_auth (St := St) (Cid := Cid) config auth now query d w = (Ok token, w') ->
     exists did aud k c exp i i', access_did config auth now = Ok did /\
       query_param query "aud" = Some aud /\
       EmbRepo.load_signing_key config did i = (Ok k, i') /\ service_token k token c /\
       service_grants c did aud (query_param query "lxm") exp (md_iat d) (md_rand d) /\
       md_now d < exp <= md_now d + 1800) /\
  (forall did aud lxm exp w w' token,
     x_get_service_auth (St := St) (Cid := Cid) state did aud lxm exp d w = (Ok token, w') ->
     exists k c exp' i i', load_signing_key_cached state did i = (Ok k, i') /\
       service_token k token c /\
       service_grants c did aud lxm exp' (md_iat d) (md_rand d) /\
       md_now d < exp' <= md_now d + 1800).
Proof.
  intros Hn Hr. split.
  - intros auth now query w w' token E. unfold get_service_auth in E. se_inv E.
    unfold lift in Hm, Hm0, E. injection Hm as Ha <-. injection Hm0 as Hq <-. apply ok_or_Ok in Hq.
    unfold p_write in Hm1. destruct (EmbRepo.load_signing_key _ _ _) as [r i'] eqn:El.
    injection Hm1 as -> <-. injection E as E _. apply map_err_Ok in E.
    destruct (mint_with_grants _ _ _ _ _ _ _ Hn Hr E) as (c & exp & Ht & Hg & Hb).
    by eauto 15.
  - intros did aud lxm exp w w' token E. unfold x_get_service_auth in E. se_inv E.
    injection E as E _. apply map_err_Ok in E.
    destruct (mint_with_grants _ _ _ _ _ _ _ Hn Hr E) as (c & exp' & Ht & Hg & Hb).
    by eauto 15.
Qed.
End Requested.

Definition demo_mint : MintDraw := {| md_now := 1000; md_iat := 1000; md_rand := 7 |}.
Definition demo_auth_query : string := encode_query [("aud", "did:web:b"); ("exp", "99999999")].
Definition demo_service_auth := get_service_auth (Cid := string) demo_config demo_bearer 1000 demo_auth_query demo_mint
  (MkPw (St := Inner string) demo_ww ∅ []).

Lemma get_service_auth_bounded_witness :
  exists token k c exp, fst demo_service_auth = Ok token /\ service_token k token c /\
    service_grants c "did:a" "did:web:b" None exp 1000 7 /\ 1000 < exp <= 1000 + 1800.
Proof.
  destruct (get_service_auth_bounded (Cid := string) (St := Inner string) demo_config None demo_app demo_mint)
    as [He _]; [unfold demo_mint; cbn; lia..|].
  assert (is_ok (fst demo_service_auth) = true) as Hok by (vm_compute; reflexivity).
  specialize (He demo_bearer 1000 demo_auth_query (MkPw (St := Inner string) demo_ww ∅ [])
                (snd demo_service_auth)).
  fold demo_service_auth in He. destruct demo_service_auth as [[token|] w']; [|discriminate].
  destruct (He token eq_refl) as (did & aud & k & c & exp & i & i' & Hd & Hq & Hk & Ht & Hg & Hb).
  rewrite demo_bearer_ok in Hd. injection Hd as <-.
  replace (query_param demo_auth_query "aud") with (Some "did:web:b") in Hq by (vm_compute; reflexivity).
  injection Hq as <-.
  replace (query_param demo_auth_query "lxm") with (@None string) in Hg by (vm_compute; reflexivity).
  by exists token, k, c, exp.
Defined.

(** ** What is sent

    [sends tr Q m]: running [m] appends to the trace [tr] only requests that
    satisfy [Q]. *)
Section Traces.
Context {W X Er : Type} (tr : W -> list X) (Q : X -> Prop).

Definition sends {A} (m : SE W Er A) : Prop :=
  forall w, exists new, tr (snd (m w)) = tr w ++ new /\ Forall Q new.

Lemma sends_pure {A} (m : SE W Er A) : (forall w, tr (snd (m w)) = tr w) -> sends m.
Proof. intros Hm w. exists []. by rewrite Hm, app_nil_r. Qed.

Lemma sends_one {A} (m : SE W Er A) x : Q x -> (forall w, tr (snd (m w)) = tr w ++ [x]) -> sends m.
Proof. intros Hx Hm w. exists [x]. rewrite Hm. by repeat constructor. Qed.

Lemma sends_bind {A B} (m : SE W Er A) (k : A -> SE W Er B) :
  sends m -> (forall a w w', m w = (Ok a, w') -> sends (k a)) -> sends (bind m k).
Proof.
  intros Hm Hk w. destruct (Hm w) as (new & E & Hn). unfold bind.
  destruct (m w) as [[a|e] w'] eqn:Em; cbn in *; [|by exists new].
  destruct (Hk a w w' Em w') as (new' & E' & Hn'). exists (new ++ new').
  rewrite E', E, app_assoc. by split; [|apply Forall_app].
Qed.

Lemma sends_lift {A} (r : result Er A) : sends (lift r).
Proof. by apply sends_pure. Qed.
Lemma sends_ret {A} (a : A) : sends (ret a).
Proof. by apply sends_pure. Qed.
Lemma sends_throw {A} (e : Er) : sends (A := A) (throw e).
Proof. by apply sends_pure. Qed.
End Traces.

#[export] Hint Resolve sends_lift sends_ret sends_throw : sends.

(** [lift_inv H] reads a successful [lift]. *)
Ltac lift_inv H := unfold lift, ret in H; injection H as H _.

Section EmbeddedForward.
Context `{Digests} `{Json} `{!JsonMore} `{Jwt} `{HttpLib}.
Context {Cid St : Type} `{CidLib Cid} `{Countable Cid} `{StorageBackend Cid St}.
Context `{RepoSerde Cid} `{!Atrium Cid} `{!AtriumRead Cid} `{Keypairs} `{!KeypairIO} `{CarLib Cid}.
Context `{KeyCiphers} `{!Serde Value}.
Variable config : ServerConfig.

(** The target a request names, or the default one. *)
Definition routed (proxy_header : option string) (nsid target base : string) : Prop :=
  (proxy_header = None /\ starts_with "app.bsky." nsid = true /\ target = cf_appview_did config /\
   base = cf_appview_url config) \/
  (exists fragment, proxy_header = Some (target +:+ String "#" fragment) /\ contains_char "#" target = false /\
     (starts_with "did:web:" target = true -> did_web_endpoint target = Ok base)).

(** What the forwarder may hand to the embedder for a request. *)
Definition may_send (auth_header : option string) (now : Z) (req : Request) (d : MintDraw) (s : Sent) : Prop :=
  exists did nsid, access_did config auth_header now = Ok did /\ proxy_nsid (rq_path req) = Ok nsid /\
  match s with
  | SentFetch url =>
      exists target fragment, header (rq_headers req) "atproto-proxy" = Some (target +:+ String "#" fragment) /\
        starts_with "did:plc:" target = true /\ url = cf_plc_url config +:+ "/" +:+ target
  | SentForward rq =>
      exists target k i i', routed (header (rq_headers req) "atproto-proxy") nsid target (pr_base_url rq) /\
        EmbRepo.load_signing_key (St := St) config did i = (Ok k, i') /\
        mint_service_auth_jwt k did target nsid d = Ok (pr_service_jwt rq) /\
        rq_body req = Some (pr_body rq) /\ str_len (pr_body rq) <= MAX_PROXY_BODY /\
        pr_method rq = rq_method req /\ pr_nsid rq = nsid /\ pr_query rq = rq_query req /\
        pr_content_type rq = header (rq_headers req) "content-type" /\
        pr_accept_labelers rq = header (rq_headers req) "atproto-accept-labelers"
  end.

Lemma resolve_target_sends (Q : Sent -> Prop) px did fragment :
  (starts_with "did:plc:" did = true -> Q (SentFetch (cf_plc_url config +:+ "/" +:+ did))) ->
  sends (pw_sent (St := St)) Q (resolve_target config px did fragment).
Proof.
  intros HQ. unfold resolve_target. destruct (starts_with "did:web:" did); [auto with sends|].
  destruct (starts_with "did:plc:" did); cbn; [|auto with sends].
  apply sends_bind; [by apply sends_pure|]. intros hit _ _ _. destruct hit; [auto with sends|].
  apply sends_bind; [by eapply sends_one; [apply HQ|]|]. intros fetched _ _ _.
  do 3 (apply sends_bind; [auto with sends|intros ? _ _ _]).
  apply sends_bind; [by apply sends_pure|auto with sends].
Qed.

Lemma resolve_target_web px did fragment base w w' :
  resolve_target (St := St) config px did fragment w = (Ok base, w') ->
  starts_with "did:web:" did = true -> did_web_endpoint did = Ok base.
Proof. intros E Hd. unfold resolve_target in E. rewrite Hd in E. lift_inv E. by apply map_err_Ok in E. Qed.

Lemma route_target_routed px h nsid target base w w' :
  route_target (St := St) config px h nsid w = (Ok (target, base), w') -> routed h nsid target base.
Proof.
  unfold route_target, routed. intros E. destruct h as [t|].
  - destruct (split_once "#" t) as [[tdid fragment]|] eqn:Es; [|done]. se_inv E.
    unfold ret in E. simplify_eq. apply split_once_Some in Es as [-> Hc]. right. exists fragment.
    split_and!; try done. by eapply resolve_target_web.
  - destruct (starts_with "app.bsky." nsid) eqn:En; [|done]. unfold ret in E. simplify_eq. by left.
Qed.

(** what the embedded server ever sends for a caller.  Whatever the network
    answers, everything [forward] hands to the embedder belongs to a caller with
    a valid access token and to one well-formed method name: a fetch is the PLC
    document of the did:plc target the caller named; a forwarded request repeats
    the caller's method, query, body (within the cap) and the two relayed
    headers, goes to the service the caller named (a did:web target's own host)
    or to the configured AppView for [app.bsky.*], and carries instead of the
    session token one minted with a key loaded for the caller, for that service
    and that method. *)
Theorem forward_sends (px : OutboundProxy) auth_header now req d w :
  exists new, pw_sent (snd (forward (St := St) config (Some px) auth_header now req d w)) =
                pw_sent w ++ new /\
    Forall (may_send auth_header now req d) new.
Proof.
  revert w. change (sends pw_sent (may_send auth_header now req d)
                      (forward (St := St) config (Some px) auth_header now req d)).
  unfold forward. apply sends_bind; [auto with sends|]. intros did w1 w1' Hd. lift_inv Hd.
  apply sends_bind; [auto with sends|]. intros nsid w2 w2' Hn. lift_inv Hn.
  apply sends_bind.
  { unfold route_target. destruct (header _ _) as [t|] eqn:Eh; [|by destruct (starts_with _ _); auto with sends].
    destruct (split_once "#" t) as [[tdid fragment]|] eqn:Es; [|auto with sends].
    apply sends_bind; [|auto with sends]. apply resolve_target_sends. intros Hp.
    apply split_once_Some in Es as [-> _]. exists did, nsid. by eauto 10. }
  intros [target base] w3 w3' Hr%route_target_routed.
  apply sends_bind; [auto with sends|]. intros body w4 w4' Hb. lift_inv Hb. unfold proxy_body in Hb.
  destruct (rq_body req) as [b|] eqn:Eb; [|done]. cbn in Hb.
  destruct (Z.ltb_spec MAX_PROXY_BODY (str_len b)); [done|]. injection Hb as ->.
  apply sends_bind; [apply sends_pure; intros w; unfold p_write; by destruct (EmbRepo.load_signing_key _ _ _)|].
  intros k w5 w5' Hk. unfold p_write in Hk.
  destruct (EmbRepo.load_signing_key _ _ _) as [r i'] eqn:El. injection Hk as -> _.
  apply sends_bind; [auto with sends|]. intros jwt w6 w6' Hj. lift_inv Hj. apply map_err_Ok in Hj.
  apply sends_bind; [|intros [] ? ? ?; auto with sends].
  eapply sends_one; [|done]. exists did, nsid. split_and!; try done.
  exists target, k, (pw_inner w5), i'. by split_and!.
Qed.
End EmbeddedForward.

Section ProductionForward.
Context `{Digests} `{Json} `{!JsonMore} `{UrlHost} `{HttpLib} `{KeyCiphers} `{KeypairIO} `{!RedirectPolicy}.
Context {Cid St : Type} `{StorageBackend Cid St}.
Variable state : AppState.
Variables (appview_did appview_url plc_url : string).
Variable client : HttpClient.

(** A request of [P], or one that the redirect of an answer led to. *)
Inductive sent_for (P : HttpRequest -> Prop) : HttpRequest -> Prop :=
| sent_first rq : P rq -> sent_for P rq
| sent_hop rq seen resp rq' :
    sent_for P rq -> client seen rq = Ok resp -> redirect_of rq resp = Some rq' -> sent_for P rq'.

(** Where nothing redirects, they are the requests of [P]. *)
Lemma sent_for_direct `{!RedirectLaws} P rq :
  (forall seen rq resp, client seen rq = Ok resp -> hs_status resp ∉ REDIRECT_STATUSES) ->
  sent_for P rq -> P rq.
Proof.
  intros Hno. induction 1 as [|rq seen resp rq' _ _ Hc Hr]; [done|].
  exfalso. exact (Hno _ _ _ Hc (redirect_status _ _ _ Hr)).
Qed.

(** A request with credentials is on the host of the one they were put on. *)
Lemma sent_for_credentials `{!RedirectLaws} P rq :
  sent_for P rq -> carries "Authorization" rq = true ->
  exists first, P first /\ carries "Authorization" first = true /\ host_of (hr_url rq) = host_of (hr_url first).
Proof.
  induction 1 as [rq Hp|rq seen resp rq' _ IH _ Hr]; intros Hc; [by exists rq|].
  destruct (redirect_strips _ _ _ Hr Hc) as [Hc' Hh]. destruct (IH Hc') as (first & Hp & Hf & Hh').
  exists first. split_and!; [done..|congruence].
Qed.

Lemma sends_follow (P : HttpRequest -> Prop) hops rq :
  sent_for P rq -> sends (xw_sent (St := St)) (sent_for P) (http_follow client hops rq).
Proof.
  revert rq. induction hops as [|hops IH]; intros rq Hp w; cbn.
  all: destruct (client (xw_sent w) rq) as [resp|e] eqn:Ec; [|by exists [rq]; rewrite Forall_singleton].
  all: destruct (redirect_of rq resp) as [rq'|] eqn:Er; [|by exists [rq]; rewrite Forall_singleton].
  - by exists [rq]; rewrite Forall_singleton.
  - assert (sent_for P rq') as Hp' by by eapply sent_hop.
    destruct (IH rq' Hp' (MkXpw (xw_inner w) (xw_targets w) (xw_sent w ++ [rq]))) as (new & E & Hn).
    exists (rq :: new). cbn in E. rewrite E, <- app_assoc. split; [done|]. by constructor.
Qed.

(** What the production forwarder may send for the account [did]. *)
Definition x_may_send (did method path query : string) (headers : Headers) (body : bytes)
    (d : MintDraw) (rq : HttpRequest) : Prop :=
  exists nsid m, x_nsid path = Ok nsid /\ x_method method = Ok m /\ str_len body <= MAX_PROXY_BODY /\
  ((exists target fragment, header headers "atproto-proxy" = Some (target +:+ String "#" fragment) /\
      starts_with "did:plc:" target = true /\
      rq = {| hr_method := Get; hr_url := plc_url +:+ "/" +:+ target; hr_headers := []; hr_body := "" |}) \/
   (exists target base k i i' jwt,
      validate_appview_url base = Ok tt /\
      ((header headers "atproto-proxy" = None /\ starts_with "app.bsky." nsid = true /\
        target = appview_did /\ base = appview_url) \/
       (exists fragment, header headers "atproto-proxy" = Some (target +:+ String "#" fragment) /\
          contains_char "#" target = false /\
          (starts_with "did:web:" target = true -> did_web_endpoint target = Ok base))) /\
      load_signing_key_cached (St := St) (Cid := Cid) state did i = (Ok k, i') /\
      mint_service_auth_jwt k did target nsid d = Ok jwt /\
      rq = upstream_http {| ur_method := m; ur_base_url := base; ur_nsid := nsid; ur_query := query;
             ur_body := body; ur_content_type := header headers "content-type"; ur_jwt := jwt;
             ur_accept_labelers := header headers "atproto-accept-labelers" |})).

Lemma resolve_sends (P : HttpRequest -> Prop) did fragment :
  (starts_with "did:plc:" did = true ->
     P {| hr_method := Get; hr_url := plc_url +:+ "/" +:+ did; hr_headers := []; hr_body := "" |}) ->
  sends (xw_sent (St := St)) (sent_for P) (resolve plc_url client did fragment).
Proof.
  intros HQ. unfold resolve. destruct (starts_with "did:web:" did); [auto with sends|].
  destruct (starts_with "did:plc:" did); cbn; [|auto with sends].
  apply sends_bind; [by apply sends_pure|]. intros hit _ _ _. destruct hit; [auto with sends|].
  apply sends_bind; [apply sends_follow; by constructor; apply HQ|]. intros sent _ _ _.
  do 3 (apply sends_bind; [auto with sends|intros ? _ _ _]).
  apply sends_bind; [by apply sends_pure|auto with sends].
Qed.

Lemma proxy_request_sends (P : HttpRequest -> Prop) u :
  (validate_appview_url (ur_base_url u) = Ok tt -> P (upstream_http u)) ->
  sends (xw_sent (St := St)) (sent_for P) (proxy_request client u).
Proof.
  intros HQ. unfold proxy_request. apply sends_bind; [auto with sends|]. intros [] w w' Hv. lift_inv Hv.
  apply sends_bind; [apply sends_follow; by constructor; apply HQ|]. intros sent _ _ _.
  do 2 (apply sends_bind; [auto with sends|intros ? _ _ _]). auto with sends.
Qed.

Lemma x_route_target_routed h nsid target base w w' :
  x_route_target (St := St) appview_did appview_url plc_url client h nsid w = (Ok (target, base), w') ->
  (h = None /\ starts_with "app.bsky." nsid = true /\ target = appview_did /\ base = appview_url) \/
  (exists fragment, h = Some (target +:+ String "#" fragment) /\ contains_char "#" target = false /\
     (starts_with "did:web:" target = true -> did_web_endpoint target = Ok base)).
Proof.
  unfold x_route_target. intros E. destruct h as [t|].
  - destruct (split_once "#" t) as [[tdid fragment]|] eqn:Es; [|done]. se_inv E.
    unfold ret in E. simplify_eq. apply split_once_Some in Es as [-> Hc]. right. exists fragment.
    split_and!; try done. intros Hd. unfold resolve in Hm. rewrite Hd in Hm. lift_inv Hm.
    by apply map_err_Ok in Hm.
  - destruct (starts_with "app.bsky." nsid) eqn:En; [|done]. unfold ret in E. simplify_eq. by left.
Qed.

(** Everything the fallback sends. *)
Lemma proxy_fallback_sends did method path query headers body d :
  sends xw_sent (sent_for (x_may_send did method path query headers body d))
    (proxy_fallback (St := St) state appview_did appview_url plc_url client did method path query headers body d).
Proof.
  unfold proxy_fallback. apply sends_bind; [auto with sends|]. intros nsid w1 w1' Hn. lift_inv Hn.
  apply sends_bind; [auto with sends|]. intros m w2 w2' Hm. lift_inv Hm.
  apply sends_bind; [apply sends_pure; intros w; by destruct (MAX_PROXY_BODY <? str_len body)|].
  intros [] w3 w3' [Hb%negb_true_iff%Z.ltb_ge _]%assert_or_Ok.
  apply sends_bind.
  { unfold x_route_target. destruct (header _ _) as [t|] eqn:Eh;
      [|by destruct (starts_with _ _); auto with sends].
    destruct (split_once "#" t) as [[tdid fragment]|] eqn:Es; [|auto with sends].
    apply sends_bind; [|auto with sends]. apply resolve_sends. intros Hp.
    apply split_once_Some in Es as [-> _]. exists nsid, m. split_and!; try done. left. by eauto 10. }
  intros [target base] w4 w4' Hr%x_route_target_routed.
  apply sends_bind; [apply sends_pure; intros w; unfold x_write; by destruct (load_signing_key_cached _ _ _)|].
  intros k w5 w5' Hk. unfold x_write in Hk.
  destruct (load_signing_key_cached _ _ _) as [r i'] eqn:El. injection Hk as -> _.
  apply sends_bind; [auto with sends|]. intros jwt w6 w6' Hj. lift_inv Hj. apply map_err_Ok in Hj.
  apply sends_bind; [|intros; auto with sends]. apply proxy_request_sends. intros Hv.
  exists nsid, m. split_and!; try done. right. exists target, base, k, (xw_inner w5), i', jwt. by split_and!.
Qed.
(** C13: what the production server ever sends for a caller.  Whatever the network
    answers, every HTTP request of the proxy fallback is either the fetch of the
    PLC document of the did:plc target the caller named, or a GET or POST to a
    base URL that passed the upstream guard, for the service the caller named or
    the configured AppView, whose [Authorization] header is a token minted with a
    key loaded for the authenticated account, for that service and that one
    well-formed method name; or a request that the client made because the answer
    to an earlier one redirected it.  Where no answer redirects, there are none of
    these; and where answers do, a request that carries the minted token is on
    the host of an upstream request that passed the guard.  The requests that
    redirects lead to are not guarded themselves ([redirect_escapes_guard]). *)
Theorem proxy_fallback_guarded `{!RedirectLaws} did method path query headers body d w :
  let may_send := x_may_send did method path query headers body d in
  exists new, xw_sent (snd (proxy_fallback (St := St) state appview_did appview_url plc_url client
                              did method path query headers body d w)) = xw_sent w ++ new /\
    Forall (sent_for may_send) new /\
    ((forall seen rq resp, client seen rq = Ok resp -> hs_status resp ∉ REDIRECT_STATUSES) ->
     Forall may_send new) /\
    Forall (fun rq => carries "Authorization" rq = true ->
      exists u, may_send (upstream_http u) /\ validate_appview_url (ur_base_url u) = Ok tt /\
        host_of (hr_url rq) = host_of (hr_url (upstream_http u))) new.
Proof.
  intros may_send. destruct (proxy_fallback_sends did method path query headers body d w) as (new & E & Hnew).
  exists new. split; [done|]. split; [done|]. split.
  - intros Hno. eapply Forall_impl; [exact Hnew|]. intros rq. by apply sent_for_direct.
  - eapply Forall_impl; [exact Hnew|]. intros rq Hrq Hc.
    destruct (sent_for_credentials _ _ Hrq Hc) as (first & Hm & Hf & Hh).
    pose proof Hm as (nsid & m & _ & _ & _ & [(t & f & _ & _ & ->)|(t & base & k & i & i' & jwt & Hv & _ & _ & _ & ->)]); [done|].
    eexists. split; [exact Hm|]. by split.
Qed.

(** The request itself is the first that is sent. *)
Lemma follow_sends_first hops rq w :
  exists rest, xw_sent (snd (http_follow (St := St) client hops rq w)) = xw_sent w ++ rq :: rest.
Proof.
  destruct hops as [|hops]; cbn; (destruct (client (xw_sent w) rq) as [resp|e]; [|by exists []]);
    (destruct (redirect_of rq resp) as [rq'|]; [|by exists []]); [by exists []|].
  destruct (sends_follow (fun _ => True) hops rq' ltac:(by constructor) (MkXpw (xw_inner w) (xw_targets w) (xw_sent w ++ [rq])))
    as (new & E & _).
  exists new. rewrite E. cbn. by rewrite <- app_assoc.
Qed.

(** the guard ends at a redirect.  When the service a guarded request goes to
    answers with a redirect, the client's next request goes where that points,
    and no guard has seen it. *)
Theorem redirect_escapes_guard u w resp rq' :
  validate_appview_url (ur_base_url u) = Ok tt -> (0 < max_redirects)%nat ->
  client (xw_sent w) (upstream_http u) = Ok resp -> redirect_of (upstream_http u) resp = Some rq' ->
  exists rest, xw_sent (snd (proxy_request (St := St) client u w)) = xw_sent w ++ upstream_http u :: rq' :: rest.
Proof.
  intros Hv Hmax Hc Hr. unfold proxy_request, bind, lift. rewrite Hv. unfold http_send.
  destruct max_redirects as [|hops]; [lia|]. cbn. rewrite Hc, Hr.
  set (w' := MkXpw _ _ _). destruct (follow_sends_first hops rq' w') as [rest E].
  exists rest. destruct (http_follow client hops rq' w') as [[r|e] w2]; cbn in E |- *.
  - destruct r as [x|e]; cbn; [destruct (map_err _ (hs_bytes x)); cbn|]; rewrite E; subst w'; cbn; by rewrite <- app_assoc.
  - rewrite E; subst w'; cbn; by rewrite <- app_assoc.
Qed.
End ProductionForward.

(** ** A service that redirects *)

#[local] Existing Instance net_urls.
#[local] Existing Instance net_hosts.

(** The same request at the location, without the credentials on another host. *)
#[local] Instance demo_redirects : RedirectPolicy (H := text_json) := {
  redirect_of rq resp :=
    if bool_decide (hs_status resp ∈ REDIRECT_STATUSES) then
      (url ← header (hs_headers resp) "location";
       Some {| hr_method := hr_method rq; hr_url := url; hr_body := hr_body rq;
               hr_headers := if decide (host_of url = host_of (hr_url rq)) then hr_headers rq
                             else List.filter (fun h => negb (eq_ignore_ascii_case (fst h) "Authorization")) (hr_headers rq) |})
    else None;
  max_redirects := 10;
}.
#[local] Instance demo_redirects_laws : RedirectLaws.
Proof.
  split; intros rq resp rq'; cbn; case_bool_decide as Hs; try done.
  destruct (header (hs_headers resp) "location") as [url|]; cbn; [|done]. intros [= <-]. unfold carries. cbn.
  destruct (decide _) as [Hh|_]; [by split|]. intros Hex.
  apply existsb_exists in Hex as (x & Hin & Hx). apply filter_In in Hin as [_ Hf]. by rewrite Hx in Hf.
Defined.

Definition demo_location (url : string) : HttpResponse (H := text_json) := {|
  hs_status := 307; hs_headers n := if String.eqb n "location" then [Some url] else [];
  hs_bytes := Ok ""; hs_json := Err "no document" |}.
Definition demo_timeline : HttpResponse (H := text_json) := {|
  hs_status := 200; hs_headers _ := []; hs_bytes := Ok "a page"; hs_json := Err "no document" |}.

(** The AppView answers with a redirect to the metadata service. *)
Definition METADATA : string := "https://169.254.169.254/latest".
Definition demo_redirecting : HttpClient (H := text_json) := fun _ rq =>
  if String.eqb (hr_url rq) METADATA then Ok demo_timeline else Ok (demo_location METADATA).

Definition demo_fallback (client : HttpClient (H := text_json)) :=
  proxy_fallback (Cid := string) (St := Inner string) demo_app "did:web:api.bsky.app" "https://api.bsky.app" "https://plc.test"
    client "did:a" "GET" "/xrpc/app.bsky.feed.getTimeline" "" (fun _ => []) ""
    {| md_now := 1000; md_iat := 1000; md_rand := 7 |} (MkXpw demo_ww ∅ []).

Lemma proxy_fallback_guarded_witness :
  map hr_url (xw_sent (snd (demo_fallback demo_redirecting))) =
    ["https://api.bsky.app/xrpc/app.bsky.feed.getTimeline"; METADATA] /\
  is_err (validate_appview_url METADATA) = true /\
  Forall (fun rq => hr_url rq = METADATA -> carries "Authorization" rq = false)
    (xw_sent (snd (demo_fallback demo_redirecting))).
Proof.
  split; [vm_compute; reflexivity|]. split; [vm_compute; reflexivity|].
  destruct (proxy_fallback_guarded (Cid := string) (St := Inner string) demo_app "did:web:api.bsky.app" "https://api.bsky.app"
    "https://plc.test" demo_redirecting "did:a" "GET" "/xrpc/app.bsky.feed.getTimeline" "" (fun _ => []) ""
    {| md_now := 1000; md_iat := 1000; md_rand := 7 |} (MkXpw demo_ww ∅ [])) as (new & E & _ & _ & Hc).
  unfold demo_fallback. rewrite E. eapply Forall_impl; [exact Hc|]. intros rq Hrq Hu.
  destruct (carries "Authorization" rq) eqn:Ec; [|reflexivity].
  destruct (Hrq Ec) as (u & (nsid & m & Hn & _ & _ & Hm) & Hv & Hh). exfalso.
  destruct Hm as [(t & f & Hx & _)|(t & base & k & i & i' & jwt & _ & [(_ & _ & _ & ->)|(f & Hx & _)] & _ & _ & Eu)];
    [discriminate Hx| |discriminate Hx].
  rewrite Hu, Eu in Hh. vm_compute in Hn. injection Hn as <-. vm_compute in Hh. discriminate Hh.
Defined.

Lemma redirect_escapes_guard_witness :
  let u := {| ur_method := Get; ur_base_url := "https://api.bsky.app"; ur_nsid := "app.bsky.feed.getTimeline"; ur_query := "";
              ur_body := ""; ur_content_type := None; ur_jwt := "jwt"; ur_accept_labelers := None |} in
  exists rq' rest, hr_url rq' = METADATA /\ is_err (validate_appview_url METADATA) = true /\
    xw_sent (snd (proxy_request (St := Inner string) demo_redirecting u (MkXpw demo_ww ∅ []))) = upstream_http u :: rq' :: rest.
Proof.
  intros u. destruct (redirect_escapes_guard (St := Inner string) demo_redirecting u (MkXpw demo_ww ∅ []) (demo_location METADATA)
    {| hr_method := Get; hr_url := METADATA; hr_headers := []; hr_body := "" |}) as [rest E].
  - vm_compute. reflexivity.
  - cbn. lia.
  - reflexivity.
  - vm_compute. reflexivity.
  - eexists _, rest. split; [|split; [vm_compute; reflexivity|exact E]]. reflexivity.
Defined.
