(* ===== verification/EmbRoute.v ===== *)
(** * The embedded server: routing

    [route] and [serve] of [src/rust-core/src/server/mod.rs]: every request of
    the on-device server, from its method and path to the handler that answers
    it, over the state the handlers share. *)

From Stdlib Require Import ZArith Lia Ascii.
From S2P Require Import Prelude RustStr Externals Demo StoreTypes MemoryStore MemoryProps OAuthCore.
From S2P Require Import Jose Dpop Client OAuthServer OAuthProps Session Repo RepoDemo KeyCrypto.
From S2P Require Import Identity Accounts AccountProps RepoWriter RepoRead RepoXrpc Firehose Utf8.
From S2P Require Import EmbServer EmbRepo EmbDemo WsFrame Outbound ServiceProxy RepoProps RepoXrpcProps.

Definition CARGO_PKG_VERSION : string := "0.1.0-alpha.3".

(** What each arm of [route] answers, before it is written as a response. *)
Inductive Reply {Value : Type} :=
| RpFail (f : Fail)
| RpPreflight
| RpHealth (version : string)
| RpDescribe (d : DescribeServerResponse)
| RpText (text : string)
| RpDid (did : string)
| RpSession (s : SessionResponse)
| RpIdentity (s : GetSessionResponse)
| RpEmpty
| RpPreferences (v : Value)
| RpCreated (o : CreateRecordOutput)
| RpPut (o : PutRecordOutput)
| RpDeleted (o : option CommitMeta)
| RpApplied (o : ApplyWritesOutput)
| RpRecord (o : GetRecordOutput (Value := Value))
| RpRecords (o : ListRecordsOutput (Value := Value))
| RpRepo (o : DescribeRepoOutput)
| RpBlobRef (b : BlobRef)
| RpBytes (content_type : string) (body : bytes)
| RpUpgrade (cursor : option Z) (accept : string)
| RpToken (token : string)
| RpRelayed (r : Relayed).
Arguments Reply Value : clear implicits.

(** [apply_cors]: added to every response. *)
Definition CORS_HEADERS : list (string * string) :=
  [("access-control-allow-origin", "*"); ("access-control-allow-methods", "GET, POST, OPTIONS");
   ("access-control-allow-headers", "*"); ("access-control-max-age", "86400")].

(** What a request draws: clocks, randomness, one stamp per write of a batch. *)
Record RouteDraw := {
  rd_now : Z;
  rd_session : SessionDraw;
  rd_write : nat -> WriteDraw;
  rd_mint : MintDraw;
}.

Section Route.
Context `{Digests} `{Json} `{!JsonMore} `{Jwt} `{Argon2} `{HttpLib} `{WsDigests}.
Context {Cid St : Type} `{CidLib Cid} `{Countable Cid} `{StorageBackend Cid St}.
Context `{RepoSerde Cid} `{!Atrium Cid} `{!AtriumRead Cid} `{Keypairs} `{!KeypairIO} `{CarLib Cid}.
Context `{KeyCiphers} `{!Serde Value}.
Variable config : ServerConfig.
Variable did_parse : string -> result string unit.
Variable usize_bits : Z.
Variable proxy : option OutboundProxy.

(** A handler and the arm that answers with its outcome. *)
Definition answer {A W} (reply : A -> Reply Value) (m : SE W Fail A) : W -> Reply Value * W :=
  fun w => let '(r, w') := m w in (match r with Ok a => reply a | Err f => RpFail f end, w').
Definition answer_write {A} (reply : A -> Reply Value) (m : SE (WriteWorld (St := St)) Fail A) :
    ProxyWorld (St := St) -> Reply Value * ProxyWorld := answer reply (p_write m).
Definition answer_read {A} (reply : A -> Reply Value) (m : SE St Fail A) :
    ProxyWorld (St := St) -> Reply Value * ProxyWorld := answer_write reply (e_read m).
Definition reply_now (r : Reply Value) : ProxyWorld (St := St) -> Reply Value * ProxyWorld :=
  fun w => (r, w).

Definition route (d : RouteDraw) (req : Request) : ProxyWorld (St := St) -> Reply Value * ProxyWorld :=
  let method := rq_method req in
  let path := rq_path req in
  let query := rq_query req in
  let body := rq_body req in
  let auth := header (rq_headers req) "authorization" in
  let now := rd_now d in
  let at_ (m p : string) := String.eqb method m && String.eqb path p in
  if String.eqb method "OPTIONS" then reply_now RpPreflight
  else if at_ "GET" "/xrpc/_health" then reply_now (RpHealth CARGO_PKG_VERSION)
  else if at_ "GET" "/xrpc/com.atproto.server.describeServer" then reply_now (RpDescribe (describe config))
  else if at_ "GET" "/.well-known/atproto-did" then answer_read RpText (well_known_did config)
  else if at_ "GET" "/xrpc/com.atproto.identity.resolveHandle" then answer_read RpDid (resolve_handle query)
  else if at_ "POST" "/xrpc/com.atproto.server.createSession" then
    match read_json_body body with
    | Ok b => answer_read RpSession (EmbServer.create_session config (rd_session d) b)
    | Err f => reply_now (RpFail f)
    end
  else if at_ "GET" "/xrpc/com.atproto.server.getSession" then
    answer_read RpIdentity (EmbServer.get_session config auth now)
  else if at_ "POST" "/xrpc/com.atproto.server.refreshSession" then
    answer_read RpSession (EmbServer.refresh_session config (rd_session d) auth now)
  else if at_ "POST" "/xrpc/com.atproto.server.deleteSession" then reply_now RpEmpty
  else if at_ "GET" "/xrpc/app.bsky.actor.getPreferences" then
    answer_read RpPreferences (get_preferences_handler config auth now)
  else if at_ "POST" "/xrpc/app.bsky.actor.putPreferences" then
    answer_read (fun _ => RpEmpty) (put_preferences_handler config auth now body)
  else if at_ "POST" "/xrpc/com.atproto.repo.createRecord" then
    answer_write RpCreated (EmbRepo.create_record config did_parse (rd_write d 0%nat) auth now body)
  else if at_ "POST" "/xrpc/com.atproto.repo.putRecord" then
    answer_write RpPut (EmbRepo.put_record config did_parse (rd_write d 0%nat) auth now body)
  else if at_ "POST" "/xrpc/com.atproto.repo.deleteRecord" then
    answer_write RpDeleted (EmbRepo.delete_record config did_parse (rd_write d 0%nat) auth now body)
  else if at_ "POST" "/xrpc/com.atproto.repo.applyWrites" then
    answer_write RpApplied (EmbRepo.apply_writes config did_parse (rd_write d) auth now body)
  else if at_ "GET" "/xrpc/com.atproto.repo.getRecord" then
    answer_read RpRecord (EmbRepo.get_record query)
  else if at_ "GET" "/xrpc/com.atproto.repo.listRecords" then
    answer_read RpRecords (EmbRepo.list_records usize_bits query)
  else if at_ "GET" "/xrpc/com.atproto.repo.describeRepo" then
    answer_write RpRepo (EmbRepo.describe_repo config query)
  else if at_ "POST" "/xrpc/com.atproto.repo.uploadBlob" then
    answer_read RpBlobRef (EmbRepo.upload_blob config auth now (rq_headers req) body)
  else if at_ "GET" "/xrpc/com.atproto.sync.getBlob" then
    answer_read (fun p => RpBytes (fst p) (snd p)) (EmbRepo.get_blob_handler query)
  else if at_ "GET" "/xrpc/com.atproto.sync.getRepo" then
    answer_read (fun p => RpBytes (fst p) (snd p)) (EmbRepo.get_repo query)
  else if at_ "GET" "/xrpc/com.atproto.sync.subscribeRepos" then
    reply_now (match WsFrame.subscribe (rq_headers req) query with
               | Ok (cursor, accept) => RpUpgrade cursor accept
               | Err f => RpFail f
               end)
  else if at_ "GET" "/xrpc/com.atproto.server.getServiceAuth" then
    answer RpToken (get_service_auth config auth now query (rd_mint d))
  else if starts_with "/xrpc/" path && proxyable_method method then
    answer RpRelayed (forward config proxy auth now req (rd_mint d))
  else reply_now (RpFail METHOD_NOT_IMPLEMENTED).

End Route.

(** [serve]: one request on a connection; the host name was normalised when the
    server started, and the CORS headers go on every response. *)
Definition serve_request `{Digests} `{Json} `{!JsonMore} `{Jwt} `{Argon2} `{HttpLib} `{WsDigests}
    {Cid St : Type} `{CidLib Cid} `{Countable Cid} `{StorageBackend Cid St}
    `{RepoSerde Cid} `{!Atrium Cid} `{!AtriumRead Cid} `{Keypairs} `{!KeypairIO} `{CarLib Cid}
    `{KeyCiphers} `{!Serde Value} (config : ServerConfig) (did_parse : string -> result string unit)
    (usize_bits : Z) (proxy : option OutboundProxy) (d : RouteDraw) (req : Request)
    (w : ProxyWorld (St := St)) : (Reply Value * list (string * string)) * ProxyWorld (St := St) :=
  let '(r, w') := route (serve_config config) did_parse usize_bits proxy d req w in
  ((r, CORS_HEADERS), w').

(** ** Properties *)

(** The local routes that need an access token. *)
Definition GUARDED : list (string * string) :=
  [("GET", "/xrpc/com.atproto.server.getSession");
   ("GET", "/xrpc/app.bsky.actor.getPreferences"); ("POST", "/xrpc/app.bsky.actor.putPreferences");
   ("POST", "/xrpc/com.atproto.repo.createRecord"); ("POST", "/xrpc/com.atproto.repo.putRecord");
   ("POST", "/xrpc/com.atproto.repo.deleteRecord"); ("POST", "/xrpc/com.atproto.repo.applyWrites");
   ("POST", "/xrpc/com.atproto.repo.uploadBlob"); ("GET", "/xrpc/com.atproto.server.getServiceAuth")].

(** The local routes that do not. *)
Definition OPEN : list (string * string) :=
  [("GET", "/xrpc/_health"); ("GET", "/xrpc/com.atproto.server.describeServer");
   ("GET", "/.well-known/atproto-did"); ("GET", "/xrpc/com.atproto.identity.resolveHandle");
   ("POST", "/xrpc/com.atproto.server.createSession"); ("POST", "/xrpc/com.atproto.server.refreshSession");
   ("POST", "/xrpc/com.atproto.server.deleteSession"); ("GET", "/xrpc/com.atproto.repo.getRecord");
   ("GET", "/xrpc/com.atproto.repo.listRecords"); ("GET", "/xrpc/com.atproto.repo.describeRepo");
   ("GET", "/xrpc/com.atproto.sync.getBlob"); ("GET", "/xrpc/com.atproto.sync.getRepo");
   ("GET", "/xrpc/com.atproto.sync.subscribeRepos")].

Section RouteProps.
Context `{Digests} `{Json} `{!JsonMore} `{Jwt} `{Argon2} `{HttpLib} `{WsDigests}.
Context {Cid St : Type} `{CidLib Cid} `{Countable Cid} `{StorageBackend Cid St}.
Context `{RepoSerde Cid} `{!Atrium Cid} `{!AtriumRead Cid} `{Keypairs} `{!KeypairIO} `{CarLib Cid}.
Context `{KeyCiphers} `{!Serde Value}.
Variable config : ServerConfig.
Variable did_parse : string -> result string unit.
Variable usize_bits : Z.

Lemma not_routed m p (l : list (string * string)) m' p' :
  (m, p) ∉ l -> (m', p') ∈ l -> String.eqb m m' && String.eqb p p' = false.
Proof.
  intros Hn Hin. destruct (String.eqb_spec m m') as [->|], (String.eqb_spec p p') as [->|]; done.
Qed.

(** A request to no local route goes to the proxy or nowhere. *)
Lemma route_unrouted proxy d req :
  (rq_method req, rq_path req) ∉ GUARDED -> (rq_method req, rq_path req) ∉ OPEN ->
  rq_method req <> "OPTIONS" ->
  route (St := St) (Cid := Cid) config did_parse usize_bits proxy d req =
  if starts_with "/xrpc/" (rq_path req) && proxyable_method (rq_method req)
  then answer RpRelayed (forward config proxy (header (rq_headers req) "authorization") (rd_now d) req (rd_mint d))
  else reply_now (RpFail METHOD_NOT_IMPLEMENTED).
Proof.
  intros Hg Ho Hm. unfold route. replace (String.eqb (rq_method req) "OPTIONS") with false
    by (symmetry; by apply String.eqb_neq).
  repeat match goal with
         | |- context [String.eqb (rq_method req) ?m && String.eqb (rq_path req) ?p] =>
             first [rewrite (not_routed _ _ _ m p Hg) by (apply (bool_decide_unpack _); by vm_compute)
                   |rewrite (not_routed _ _ _ m p Ho) by (apply (bool_decide_unpack _); by vm_compute)]
         end.
  done.
Qed.

(** A guarded route refuses a request without a valid access token before it
    does anything. *)
Lemma guarded_refuses proxy d req f w :
  access_did config (header (rq_headers req) "authorization") (rd_now d) = Err f ->
  (rq_method req, rq_path req) ∈ GUARDED ->
  route (St := St) (Cid := Cid) config did_parse usize_bits proxy d req w = (RpFail f, w).
Proof.
  intros Ha Hin. unfold route. set (auth := header _ _) in *. set (now := rd_now d) in *.
  destruct w as [[[s pub] cache] targets sent].
  repeat (apply elem_of_cons in Hin as [[= -> ->]|Hin];
    [cbn -[access_did]; unfold answer_read, answer_write, answer, p_write, e_read,
       EmbServer.get_session, get_preferences_handler, put_preferences_handler, EmbRepo.create_record,
       EmbRepo.put_record, put_record_check, EmbRepo.delete_record, delete_record_check,
       EmbRepo.apply_writes, EmbRepo.upload_blob, get_service_auth, write_request, bind, lift;
     rewrite Ha; done|]).
  by apply not_elem_of_nil in Hin.
Qed.

(** no token, no effect.  A request without a valid access token to any of the
    routes that act for an account (session, preferences, record writes, blob
    upload, service tokens) is refused with the token check's own error, and so
    is any request the proxy would forward; nothing is stored, cached, published
    or sent. *)
Theorem unauthenticated_refused px d req f w :
  access_did config (header (rq_headers req) "authorization") (rd_now d) = Err f ->
  (rq_method req, rq_path req) ∉ OPEN -> rq_method req <> "OPTIONS" ->
  (rq_method req, rq_path req) ∈ GUARDED \/
    starts_with "/xrpc/" (rq_path req) = true /\ proxyable_method (rq_method req) = true ->
  route (St := St) (Cid := Cid) config did_parse usize_bits (Some px) d req w = (RpFail f, w).
Proof.
  intros Ha Ho Hm Hr. destruct (decide ((rq_method req, rq_path req) ∈ GUARDED)) as [Hg|Hg];
    [by apply guarded_refuses|]. destruct Hr as [Hr|[Hx Hp]]; [done|].
  rewrite route_unrouted by done. rewrite Hx, Hp. unfold answer, forward, bind, lift. by rewrite Ha.
Qed.
End RouteProps.

Section Preferences.
Context `{Digests} `{Json} `{!JsonMore} `{!JsonMoreLaws} `{Jwt} `{Argon2} `{HttpLib} `{WsDigests}.
Context {Cid : Type} `{CidLib Cid} `{Countable Cid}.
Context `{RepoSerde Cid} `{!Atrium Cid} `{!AtriumRead Cid} `{Keypairs} `{!KeypairIO} `{CarLib Cid}.
Context `{KeyCiphers} `{!Serde Value}.
Variable config : ServerConfig.
Variable did_parse : string -> result string unit.
Variable usize_bits : Z.

(** preferences are kept as they were sent.  After a signed-in account puts an
    array of preferences (without fractional numbers), reading them back gives
    that very array, at any later time and with any access token of the account;
    every other account still reads what it read before. *)
Theorem preferences_round_trip proxy d d' req req' did did' body prefs l w :
  rq_method req = "POST" -> rq_path req = "/xrpc/app.bsky.actor.putPreferences" ->
  access_did config (header (rq_headers req) "authorization") (rd_now d) = Ok did ->
  read_json_body (rq_body req) = Ok body -> json_get "preferences" body = Some prefs ->
  json_as_array prefs = Some l -> json_exact prefs = true ->
  rq_method req' = "GET" -> rq_path req' = "/xrpc/app.bsky.actor.getPreferences" ->
  access_did config (header (rq_headers req') "authorization") (rd_now d') = Ok did' ->
  exists w1,
    route (St := Inner Cid) (Cid := Cid) config did_parse usize_bits proxy d req w = (RpEmpty, w1) /\
    route (St := Inner Cid) (Cid := Cid) config did_parse usize_bits proxy d' req' w1 =
      (if String.eqb did' did then RpPreferences prefs
       else fst (route (St := Inner Cid) (Cid := Cid) config did_parse usize_bits proxy d' req' w), w1).
Proof.
  intros Hm Hp Ha Hb Hg Hl He Hm' Hp' Ha'. unfold route. rewrite Hm, Hp, Hm', Hp'. cbn -[access_did].
  destruct w as [[[s pub] cache] targets sent].
  unfold answer_read, answer_write, answer, p_write, e_read, put_preferences_handler, get_preferences_handler.
  rewrite Ha, Ha'. unfold bind, lift. rewrite Hb. cbn -[access_did]. rewrite Hg. cbn. rewrite Hl. cbn.
  eexists. split; [reflexivity|]. cbn. destruct (String.eqb_spec did' did) as [->|Hne].
  - rewrite lookup_insert_eq. cbn. by rewrite json_parse_print.
  - rewrite lookup_insert_ne by congruence. cbn. destruct (MemoryStore.prefs s !! did') as [t|]; cbn; [|done].
    by destruct (json_from_slice t).
Qed.
End Preferences.

(** ** Concrete requests *)

#[local] Instance demo_ws_digests : WsDigests := { sha1 b := b; base64_encode b := b }.

Definition demo_headers (auth : option string) : Headers :=
  fun name => if String.eqb name "authorization" then match auth with Some a => [Some a] | None => [] end else [].

Definition demo_request (method path : string) (auth : option string) (body : bytes) : Request := {|
  rq_method := method; rq_path := path; rq_query := ""; rq_headers := demo_headers auth;
  rq_body := Some body |}.

Definition demo_rdraw : RouteDraw := {|
  rd_now := 1000; rd_session := demo_session 1000; rd_write n := demo_wdraw "1";
  rd_mint := {| md_now := 1000; md_iat := 1000; md_rand := 7 |} |}.

Definition demo_network : OutboundProxy := {|
  op_forward _ _ := Err "down"; op_fetch _ _ := Err "down" |}.

Definition demo_pw : ProxyWorld (St := Inner string) := MkPw demo_ww ∅ [].

Definition demo_route (req : Request) : ProxyWorld (St := Inner string) ->
    Reply (Value (Json := text_json)) * ProxyWorld (St := Inner string) :=
  route (Cid := string) demo_config demo_str_parse 64 (Some demo_network) demo_rdraw req.

Lemma unauthenticated_refused_witness :
  demo_route (demo_request "POST" "/xrpc/com.atproto.repo.createRecord" None "o") demo_pw =
    (RpFail (xrpc_error 401 "AuthenticationRequired" "missing bearer token"), demo_pw).
Proof.
  apply (unauthenticated_refused (Cid := string) (St := Inner string) demo_config demo_str_parse 64 demo_network
           demo_rdraw).
  - reflexivity.
  - apply (bool_decide_unpack _). by vm_compute.
  - discriminate.
  - left. apply (bool_decide_unpack _). by vm_compute.
Defined.

Definition demo_prefs : Value (Json := text_json) := json_array (H := text_json) [json_of_str (H := text_json) "dark"].
Definition demo_prefs_body : bytes := text_object [("preferences", demo_prefs)].

Lemma preferences_round_trip_witness :
  exists w1,
    demo_route (demo_request "POST" "/xrpc/app.bsky.actor.putPreferences" demo_bearer demo_prefs_body) demo_pw =
      (RpEmpty, w1) /\
    demo_route (demo_request "GET" "/xrpc/app.bsky.actor.getPreferences" demo_bearer "") w1 =
      (RpPreferences demo_prefs, w1).
Proof.
  unfold demo_route.
  destruct (preferences_round_trip (Cid := string) demo_config demo_str_parse 64 (Some demo_network) demo_rdraw demo_rdraw
           (demo_request "POST" "/xrpc/app.bsky.actor.putPreferences" demo_bearer demo_prefs_body)
           (demo_request "GET" "/xrpc/app.bsky.actor.getPreferences" demo_bearer "")
           "did:a" "did:a" (demo_prefs_body : Value (Json := text_json)) demo_prefs
           [json_of_str (H := text_json) "dark"] demo_pw eq_refl eq_refl demo_bearer_ok) as (w1 & E1 & E2).
  - vm_compute. reflexivity.
  - vm_compute. reflexivity.
  - vm_compute. reflexivity.
  - reflexivity.
  - reflexivity.
  - reflexivity.
  - exact demo_bearer_ok.
  - rewrite String.eqb_refl in E2. exists w1. split; [exact E1|exact E2].
Defined.
