(* ===== verification/EmbProps.v ===== *)
(** * The two servers are one

    The on-device server of [EmbRepo] carries its own handlers; these theorems
    relate each to the production handler of [RepoXrpc].  Two runs [agree] when
    they leave the same store and broadcasts, and give the same answer or both
    an error. *)

From Stdlib Require Import ZArith Lia Ascii.
From S2P Require Import Prelude RustStr Externals Demo StoreTypes MemoryStore MemoryProps OAuthCore.
From S2P Require Import Jose Dpop Client OAuthServer OAuthProps Session RepoUtil Repo RepoWriter.
From S2P Require Import RepoDemo RepoProps RepoRead KeyCrypto Identity Accounts AccountProps.
From S2P Require Import RepoXrpc RepoXrpcProps Firehose Utf8 EmbServer EmbRepo EmbDemo.

(** ** Agreement of runs *)

Section Agree.
Context {W C E F : Type}.

(** [W] is what must agree always, [C] (the key cache) after a success. *)
Definition agree {A} (r1 : result E A * (W * C)) (r2 : result F A * (W * C)) : Prop :=
  fst (snd r1) = fst (snd r2) /\
  match fst r1, fst r2 with
  | Ok a, Ok b => a = b /\ snd (snd r1) = snd (snd r2)
  | Err _, Err _ => True
  | _, _ => False
  end.

Definition sim {A} (x : SE (W * C) E A) (y : SE (W * C) F A) : Prop := forall w, agree (x w) (y w).

Lemma sim_bind {A B} (x : SE (W * C) E A) (y : SE (W * C) F A) (k : A -> SE (W * C) E B) k' :
  sim x y -> (forall a, sim (k a) (k' a)) -> sim (bind x k) (bind y k').
Proof.
  intros Hx Hk w. specialize (Hx w). unfold agree, bind in *.
  destruct (x w) as [[a|e] [w1 c1]], (y w) as [[b|f] [w2 c2]]; cbn in *; naive_solver.
Qed.

Lemma sim_ret {A} (a : A) : sim (ret a) (ret a).
Proof. done. Qed.

Lemma sim_lift {A} (r1 : result E A) (r2 : result F A) :
  res_opt r1 = res_opt r2 -> sim (lift r1) (lift r2).
Proof. destruct r1, r2; intros; simplify_eq/=; done. Qed.

End Agree.

Lemma bind_lift_Ok {S E A B} (a : A) (k : A -> SE S E B) : bind (lift (Ok a)) k = k a.
Proof. done. Qed.
Lemma bind_lift_Err {S E A B} (e : E) (k : A -> SE S E B) : bind (lift (Err e)) k = lift (Err e).
Proof. done. Qed.
Lemma bind_run {S E A B} (m : SE S E A) (k : A -> SE S E B) s a s' :
  m s = (Ok a, s') -> bind m k s = k a s'.
Proof. unfold bind. by intros ->. Qed.
Lemma bind_ret {S E A B} (a : A) (k : A -> SE S E B) : bind (ret a) k = k a.
Proof. done. Qed.

(** The same for the reads, whose state is the store alone. *)
Definition agree_read {St E F A} (r1 : result E A * St) (r2 : result F A * St) : Prop :=
  snd r1 = snd r2 /\ res_opt (fst r1) = res_opt (fst r2).
Definition sim_read {St E F A} (x : SE St E A) (y : SE St F A) : Prop := forall s, agree_read (x s) (y s).

Lemma sim_read_bind {St E F A B} (x : SE St E A) (y : SE St F A) (k : A -> SE St E B) k' :
  sim_read x y -> (forall a, sim_read (k a) (k' a)) -> sim_read (bind x k) (bind y k').
Proof.
  intros Hx Hk s. specialize (Hx s). unfold agree_read, bind in *.
  destruct (x s) as [[a|e] s1], (y s) as [[b|f] s2]; cbn in *; destruct Hx as [-> Hx]; simplify_eq; [apply Hk|done].
Qed.

Lemma sim_read_lift {St E F A} (r1 : result E A) (r2 : result F A) :
  res_opt r1 = res_opt r2 -> sim_read (St := St) (lift r1) (lift r2).
Proof. by intros Hr s. Qed.

Lemma sim_read_err {St X E F A} (m : SE St X A) (f : X -> E) (g : X -> F) :
  sim_read (with_err f m) (with_err g m).
Proof. intros s. unfold agree_read, with_err. by destruct (m s) as [[a|e] s']. Qed.

Lemma sim_read_refl {St E F A} (f : St -> A) :
  sim_read (E := E) (F := F) (fun s => (Ok (f s), s)) (fun s => (Ok (f s), s)).
Proof. done. Qed.

Lemma res_opt_map_err {E F A} (f : E -> F) (r : result E A) : res_opt (map_err f r) = res_opt r.
Proof. by destruct r. Qed.

Lemma res_opt_ok_or {E A} (o : option A) (e : E) : res_opt (ok_or o e) = o.
Proof. by destruct o. Qed.

(** ** Reads *)

Section Reads.
Context `{Digests} `{Json} `{!JsonMore} `{Jwt} `{HttpLib}.
Context {Cid St : Type} `{CidLib Cid} `{Countable Cid} `{StorageBackend Cid St}.
Context `{RepoSerde Cid} `{!Atrium Cid} `{!AtriumRead Cid} `{Keypairs} `{!KeypairIO} `{CarLib Cid}.
Context `{KeyCiphers} `{!Serde Value}.
Variable usize_bits : Z.

Lemma sim_prog {A} ctx msg (p : BProg Cid A) : sim_read (St := St) (x_prog ctx p) (e_prog msg p).
Proof.
  intros s. unfold agree_read, x_prog, e_prog, internal.
  destruct (run_prog p (s, [])) as [[a|e] [s' tr]]; done.
Qed.

Lemma sim_store {A} (m : SE St StorageError A) : sim_read (x_store m) (e_store m).
Proof. apply sim_read_err. Qed.

Lemma sim_lookup did key :
  sim_read (St := St) (RepoXrpc.lookup_record_cid did key) (EmbRepo.lookup_record_cid did key).
Proof.
  apply sim_read_bind; [apply sim_store|]. intros [root|]; [|done].
  apply sim_read_bind; [apply sim_prog|]. intros repo. apply sim_prog.
Qed.

Lemma sim_resolve repo :
  sim_read (St := St) (RepoXrpc.resolve_repo_did repo) (EmbRepo.resolve_repo_did repo).
Proof.
  unfold RepoXrpc.resolve_repo_did, EmbRepo.resolve_repo_did. destruct (starts_with _ _); [done|].
  apply sim_read_bind; [apply sim_store|]. intros o. apply sim_read_lift. by rewrite !res_opt_ok_or.
Qed.

Lemma sim_value (cid : Cid) :
  sim_read (St := St) (RepoXrpc.read_value (Value := Value) cid) (EmbRepo.read_value cid).
Proof.
  apply sim_read_bind; [apply sim_read_err|]. intros b. apply sim_read_lift.
  unfold internal. by rewrite !res_opt_map_err.
Qed.

Lemma sim_get_record query repo collection rkey :
  query_param query "repo" = Some repo -> query_param query "collection" = Some collection ->
  query_param query "rkey" = Some rkey ->
  sim_read (St := St) (RepoXrpc.get_record (Value := Value) repo collection rkey) (EmbRepo.get_record query).
Proof.
  intros E1 E2 E3. unfold EmbRepo.get_record. rewrite E1, E2, E3.
  apply sim_read_bind; [apply sim_resolve|]. intros did.
  apply sim_read_bind; [apply sim_lookup|]. intros o.
  apply sim_read_bind; [apply sim_read_lift; by rewrite !res_opt_ok_or|]. intros cid.
  apply sim_read_bind; [apply sim_value|]. done.
Qed.

(** The embedded loop also keeps the last key, which the production handler
    recovers from the last URI. *)
Lemma sim_list_loop did limit cursor stream : forall acc lk,
  option_map (fun r : GetRecordOutput => strip_prefix ("at://" +:+ did +:+ "/") (gro_uri r)) (last acc)
    = option_map Some lk ->
  sim_read (St := St)
    (let! records := RepoXrpc.list_records_loop (Value := Value) did limit cursor stream acc in
     ret (records, option_map (fun r => default "" (strip_prefix ("at://" +:+ did +:+ "/") (gro_uri r)))
                     (last records)))%se
    (EmbRepo.list_records_loop did limit cursor stream acc lk).
Proof.
  induction stream as [|[[key cid]|e] stream IH]; intros acc lk Hl; cbn [RepoXrpc.list_records_loop EmbRepo.list_records_loop].
  - intros s. split; [done|]. cbn. do 2 f_equal. destruct (last acc), lk; simplify_eq/=; [by rewrite Hl|done].
  - destruct (match cursor with Some c => str_leb key c | None => false end); [by apply IH|].
    intros s. unfold bind at 1 2. pose proof (sim_value cid s) as Hv. unfold agree_read, bind in *.
    destruct (RepoXrpc.read_value cid s) as [[v|e] s1], (EmbRepo.read_value cid s) as [[v'|e'] s1'];
      cbn in Hv; destruct Hv as [-> Hv]; simplify_eq; [|done].
    set (acc' := acc ++ [MkGetRecordOutput (record_uri did key) (cid_to_string cid) v']).
    assert (option_map (fun r : GetRecordOutput => strip_prefix ("at://" +:+ did +:+ "/") (gro_uri r)) (last acc')
            = option_map Some (Some key)) as Hl'.
    { unfold acc'. rewrite last_snoc. cbn. by rewrite strip_record_uri. }
    destruct (limit <=? length acc')%nat; [|exact (IH acc' (Some key) Hl' s1')].
    split; [done|]. cbn. do 2 f_equal. unfold acc'. rewrite last_snoc. cbn. by rewrite strip_record_uri.
  - done.
Qed.

Lemma sim_list_records query did collection limit :
  query_param query "repo" = Some did -> query_param query "collection" = Some collection ->
  query_limit usize_bits query = records_limit limit ->
  sim_read (St := St) (RepoXrpc.list_records (Value := Value) did collection limit (query_param query "cursor"))
    (EmbRepo.list_records usize_bits query).
Proof.
  intros E1 E2 E3. unfold EmbRepo.list_records, RepoXrpc.list_records. rewrite E1, E2, E3.
  apply sim_read_bind; [apply sim_store|]. intros o.
  apply sim_read_bind; [apply sim_read_lift; by rewrite !res_opt_ok_or|]. intros root.
  apply sim_read_bind; [apply sim_prog|]. intros repo.
  apply sim_read_bind; [apply sim_read_refl|]. intros stream. intros s.
  pose proof (sim_list_loop did (records_limit limit) (query_param query "cursor") stream [] None eq_refl s) as Hs.
  unfold agree_read, bind in *.
  destruct (RepoXrpc.list_records_loop _ _ _ _ _ s) as [[l|e] s1],
           (EmbRepo.list_records_loop _ _ _ _ _ _ s) as [[[l' k]|e'] s1']; cbn in *; destruct Hs as [-> Hs];
    simplify_eq; [|done]. split; [done|]. cbn. done.
Qed.

End Reads.

(** ** Writes *)

Section Writes.
Context `{Digests} `{Json} `{!JsonMore} `{Jwt} `{HttpLib}.
Context {Cid : Type} `{CidLib Cid} `{Countable Cid}.
Context `{RepoSerde Cid} `{!Atrium Cid} `{!AtriumRead Cid} `{Keypairs} `{!KeypairIO} `{CarLib Cid}.
Context `{KeyCiphers} `{!Serde Value}.
Variable state : AppState.
Variable config : ServerConfig.
Variable did_parse : string -> result string unit.
Hypothesis Hpass : cf_key_passphrase config = st_key_passphrase state.

Abbreviation W := (WriteWorld (St := Inner Cid)) (only parsing).

Lemma sim_w_read {A} (x : SE (Inner Cid) XrpcError A) (y : SE (Inner Cid) Fail A) :
  sim_read x y -> sim (w_read x) (e_read y).
Proof.
  intros Hx [[s pub] cache]. specialize (Hx s). unfold agree, w_read, e_read.
  destruct (x s) as [[a|e] s1], (y s) as [[b|f] s2]; destruct Hx as [Hs Ho]; cbn in *; by simplify_eq.
Qed.

Lemma sim_writer {A} (m : SE (World (St := Inner Cid)) RepoError A) : sim (w_writer m) (e_writer m).
Proof. intros [w cache]. unfold agree, w_writer, e_writer. by destruct (m w) as [[a|e] w']. Qed.

Lemma sim_load_key did :
  sim (RepoXrpc.load_signing_key_cached (St := Inner Cid) state did)
      (EmbRepo.load_signing_key (St := Inner Cid) config did).
Proof.
  apply sim_bind; [done|]. intros [b|].
  - apply sim_lift. unfold internal. by rewrite !res_opt_map_err.
  - rewrite Hpass. apply sim_bind; [apply sim_w_read, sim_read_err|]. intros b [w cache].
    unfold agree, bind, cache_insert, import_signing_key, lift, ret, internal.
    by destruct (kp_import b) as [k|e].
Qed.

Lemma sim_build_writer did :
  sim (RepoXrpc.build_writer (St := Inner Cid) state did_parse did)
      (EmbRepo.build_writer (St := Inner Cid) config did_parse did).
Proof.
  apply sim_bind; [apply sim_load_key|]. intros k.
  apply sim_bind; [apply sim_lift; unfold internal; by rewrite !res_opt_map_err|]. done.
Qed.

(** A step that can fail commutes with one that touches neither the store nor
    the frames. *)
Lemma sim_swap {A B X} (x : SE W XrpcError A) (y : SE W Fail A) (r1 : result XrpcError B)
    (r2 : result Fail B) (k : A -> B -> SE W XrpcError X) (k' : A -> B -> SE W Fail X) :
  quiet x -> sim x y -> res_opt r1 = res_opt r2 -> (forall a b, sim (k a b) (k' a b)) ->
  sim (bind x (fun a => bind (lift r1) (fun b => k a b)))
      (bind (lift r2) (fun b => bind y (fun a => k' a b))).
Proof.
  intros Hq Hx Hr Hk w. specialize (Hx w). unfold agree, bind, lift in *.
  destruct (x w) as [[a|e] w1] eqn:Ex; apply Hq in Ex;
    destruct r1 as [b|], r2 as [b'|]; simplify_eq/=;
    destruct (y w) as [[a'|e'] w2]; cbn in *; try naive_solver.
  destruct Hx as (Hf & -> & Hc). destruct w1, w2. cbn in *. subst. apply Hk.
Qed.

Lemma sim_encode (v : Value) :
  res_opt (map_err XInternal (json_value_to_ipld (Ipld := Ipld) to_vec from_slice v)) = res_opt (encode_record v).
Proof. unfold encode_record. by rewrite !res_opt_map_err. Qed.

(** What the start of a write does when the token and the body are in order. *)
Lemma write_request_run auth now raw did body w :
  access_did config auth now = Ok did -> read_json_body raw = Ok body ->
  write_request (St := Inner Cid) config auth now raw w = ((let? _u := body_repo_is body did in Ok (did, body)), w).
Proof.
  intros Ha Hb. unfold write_request, bind, lift, ret. rewrite Ha, Hb.
  by destruct (body_repo_is body did).
Qed.

Lemma sim_own body repo did : body_str "repo" body = Some repo ->
  own_repo (St := Inner Cid) repo did = (fun w => (if String.eqb repo did then Ok tt
     else Err (XInvalidRequest "repo must match the authenticated DID"), w)) /\
  res_opt (body_repo_is body did) = if String.eqb repo did then Some tt else None.
Proof.
  intros Hr. unfold own_repo, assert_or, body_repo_is. unfold body_str in Hr. rewrite Hr.
  destruct (String.eqb_spec repo did) as [->|Hne]; [by rewrite bool_decide_true|].
  rewrite bool_decide_false by congruence. done.
Qed.

(** The requests: a token for [did], a body read as [body]. *)
Context (auth : option string) (now : Z) (raw : option bytes) (did : string) (body : Value).
Hypothesis Hauth : access_did config auth now = Ok did.
Hypothesis Hbody : read_json_body raw = Ok body.

(** Both start with the owner check; [x] and [y] are what follows it. *)
Lemma agree_start {X} repo (x : SE W XrpcError X) (y : string * Value -> SE W Fail X) w :
  body_str "repo" body = Some repo -> agree (x w) (y (did, body) w) ->
  agree (bind (own_repo repo did) (fun _ => x) w) (bind (write_request config auth now raw) y w).
Proof.
  intros Hr Hx. destruct (sim_own body repo did Hr) as [E1 E2]. unfold bind.
  rewrite E1, (write_request_run _ _ _ did body) by done.
  destruct (body_repo_is body did) as [[]|e], (String.eqb repo did); simplify_eq/=; done.
Qed.

Lemma agree_keys {X} c rk (x : SE W XrpcError X) (y : string * string -> SE W Fail X) w :
  body_str "collection" body = Some c -> body_str "rkey" body = Some rk ->
  agree (x w) (y (c, rk) w) ->
  agree (bind (check_keys c (Some rk)) (fun _ => x) w) (bind (lift (body_key body)) y w).
Proof.
  intros Hc Hk Hx. unfold bind at 1 2. rewrite check_keys_run. unfold lift, body_key, keys_check.
  rewrite Hc, Hk. unfold check_collection, check_rkey, check_coll, check_rk.
  destruct (validate_collection c) as [[]|]; [|done]. by destruct (validate_rkey rk) as [[]|].
Qed.

Lemma create_agrees d (input : CreateRecordInput (Value := Value)) :
  body_str "repo" body = Some (cri_repo input) -> body_str "collection" body = Some (cri_collection input) ->
  body_str "rkey" body = cri_rkey input -> json_index "record" body = cri_record input ->
  json_is_null (cri_record input) = false ->
  sim (RepoXrpc.create_record (St := Inner Cid) state did_parse d did input)
      (EmbRepo.create_record config did_parse d auth now raw).
Proof.
  intros Hr Hc Hk Hrec Hnull w. apply agree_start; [done|]. cbn beta iota. revert w.
  match goal with |- forall w, agree (?x w) (?y w) => change (sim x y) end.
  unfold check_keys, check_collection, check_coll, body_rkey, body_record. rewrite Hc, Hk, Hrec, Hnull.
  cbn [ok_or negb]. rewrite bind_lift_Ok.
  destruct (validate_collection _) as [[]|]; cbn [map_err]; rewrite ?bind_lift_Ok, ?bind_lift_Err; [|done].
  destruct (cri_rkey input) as [rk|]; [unfold check_rkey, check_rk; destruct (validate_rkey rk) as [[]|]|];
    cbn [map_err default]; rewrite ?bind_ret, ?bind_lift_Ok, ?bind_lift_Err; try done.
  all: apply sim_swap; [apply quiet_writer|apply sim_build_writer|apply sim_encode|]; intros wr i.
  all: apply sim_bind; [apply sim_writer|]; intros out.
  all: apply sim_bind; [apply sim_lift; by rewrite !res_opt_ok_or|done].
Qed.

(** The JSON of a typed write of a batch. *)
Definition write_read_as (v : Value) (write : ApplyWritesWrite (Value := Value)) : Prop :=
  match write with
  | AwCreate c rk value =>
      body_str "$type" v = Some "com.atproto.repo.applyWrites#create" /\ body_str "collection" v = Some c /\
      body_str "rkey" v = rk /\ json_index "value" v = value
  | AwUpdate c rk value =>
      body_str "$type" v = Some "com.atproto.repo.applyWrites#update" /\ body_str "collection" v = Some c /\
      body_str "rkey" v = Some rk /\ json_index "value" v = value
  | AwDelete c rk =>
      body_str "$type" v = Some "com.atproto.repo.applyWrites#delete" /\ body_str "collection" v = Some c /\
      body_str "rkey" v = Some rk
  end.

(** The write of one operation, and what is answered for it. *)
Lemma sim_step {X} (wr : Writer) st o (f : WriteOutcome Cid -> X) :
  sim (bind (w_writer (apply_one (St := Inner Cid) wr st o)) (fun out => ret (f out)))
      (bind (e_writer (apply_one (St := Inner Cid) wr st o)) (fun out => ret (f out))).
Proof. apply sim_bind; [apply sim_writer|]. done. Qed.

Lemma sim_apply_write d wr v write : write_read_as v write ->
  sim (RepoXrpc.apply_write (St := Inner Cid) d wr did write) (EmbRepo.apply_write d wr did v).
Proof.
  destruct write as [c rk value|c rk value|c rk]; cbn; [intros (Ht & Hc & Hk & <-)|intros (Ht & Hc & Hk & <-)|intros (Ht & Hc & Hk)];
    unfold EmbRepo.apply_write, check_keys, check_collection, check_coll, check_rkey, check_rk, body_rkey, to_ipld;
    rewrite Ht, Hc, Hk; cbn [ok_or default String.eqb Ascii.eqb Bool.eqb]; rewrite bind_lift_Ok;
    destruct (validate_collection c) as [[]|]; cbn [map_err]; rewrite ?bind_lift_Ok, ?bind_lift_Err; try done.
  - destruct rk as [rk|]; [unfold check_rk; destruct (validate_rkey rk) as [[]|]|];
      cbn [map_err default]; rewrite ?bind_ret, ?bind_lift_Ok, ?bind_lift_Err; try done;
      (apply sim_bind; [apply sim_lift, sim_encode|]); intros i; apply sim_step.
  - destruct (validate_rkey rk) as [[]|]; cbn [map_err]; rewrite ?bind_lift_Ok, ?bind_lift_Err; try done.
    apply sim_bind; [apply sim_lift, sim_encode|]. intros i. apply sim_step.
  - destruct (validate_rkey rk) as [[]|]; cbn [map_err]; rewrite ?bind_lift_Ok, ?bind_lift_Err; try done.
    apply sim_step.
Qed.

(** Each write with its reading of the clock, the first being the [n]-th. *)
Definition drawn_from (ds : nat -> WriteDraw) (n : nat) (writes : list (ApplyWritesWrite (Value := Value))) :=
  zip (map ds (seq n (length writes))) writes.

Lemma sim_apply_loop ds wr vs : forall n writes last results, Forall2 write_read_as vs writes ->
  sim (RepoXrpc.apply_writes_loop (St := Inner Cid) wr did (drawn_from ds n writes) last results)
      (EmbRepo.apply_writes_loop ds n wr did vs last results).
Proof.
  induction vs as [|v vs IH]; intros n writes last results Hall; inversion Hall as [|? write ? writes' Hw Hall']; subst; [done|].
  unfold drawn_from. cbn. apply sim_bind; [by apply sim_apply_write|]. intros x. by apply IH.
Qed.

Lemma apply_writes_agrees ds vs writes :
  body_str "repo" body = Some did -> json_as_array (json_index "writes" body) = Some vs ->
  Forall2 write_read_as vs writes ->
  sim (RepoXrpc.apply_writes (St := Inner Cid) state did_parse did did (drawn_from ds 0 writes))
      (EmbRepo.apply_writes config did_parse ds auth now raw).
Proof.
  intros Hr Hv Hall w. apply agree_start; [done|]. cbn beta iota. revert w.
  match goal with |- forall w, agree (?x w) (?y w) => change (sim x y) end.
  rewrite Hv. cbn [ok_or]. rewrite bind_lift_Ok. destruct Hall as [|v write vs' writes' Hw Hall']; [done|].
  unfold drawn_from at 1. cbn [length seq map zip zip_with].
  apply sim_bind; [apply sim_build_writer|]. intros wr.
  exact (sim_apply_loop ds wr (v :: vs') 0 (write :: writes') None [] (List.Forall2_cons _ _ Hw Hall')).
Qed.

(** The look-up of a put or delete. *)
Lemma sim_exists key :
  sim (w_read (RepoXrpc.lookup_record_cid did key)) (e_read (EmbRepo.lookup_record_cid (St := Inner Cid) did key)).
Proof. apply sim_w_read, sim_lookup. Qed.

(** The handlers in one piece. *)
Lemma put_pds_eq d (input : PutRecordInput (Value := Value)) (w : W) :
  RepoXrpc.put_record state did_parse d did input w =
  bind (own_repo (pri_repo input) did) (fun _ =>
  bind (check_keys (pri_collection input) (Some (pri_rkey input))) (fun _ =>
  bind (w_read (RepoXrpc.lookup_record_cid did (mst_key (pri_collection input) (pri_rkey input)))) (fun o =>
  RepoXrpc.put_record_write state did_parse d did input (bool_decide (is_Some o))))) w.
Proof.
  unfold RepoXrpc.put_record, RepoXrpc.put_record_check, bind.
  destruct (own_repo _ _ w) as [[u|e] w1]; [|done]. destruct (check_keys _ _ w1) as [[u'|e] w2]; [|done].
  by destruct (w_read _ w2) as [[o|e] w3].
Qed.

Lemma put_emb_eq d (w : W) :
  EmbRepo.put_record config did_parse d auth now raw w =
  bind (write_request config auth now raw) (fun db =>
  bind (lift (body_key (snd db))) (fun ck =>
  bind (lift (body_record (snd db))) (fun record =>
  bind (lift (encode_record record)) (fun ipld =>
  bind (e_read (EmbRepo.lookup_record_cid (fst db) (mst_key (fst ck) (snd ck)))) (fun o =>
  EmbRepo.put_record_write config did_parse d
    (fst db, mst_key (fst ck) (snd ck), ipld, bool_decide (is_Some o))))))) w.
Proof.
  unfold EmbRepo.put_record, EmbRepo.put_record_check, bind, lift.
  destruct (write_request _ _ _ _ w) as [[[u v]|e] w1]; [|done]. cbn [fst snd].
  destruct (body_key v) as [ck|]; [|done]. destruct (body_record v) as [r|]; [|done].
  destruct (encode_record r) as [i|]; [|done]. by destruct (e_read _ w1) as [[o|e] w3].
Qed.

Lemma delete_pds_eq d (input : DeleteRecordInput) (w : W) :
  RepoXrpc.delete_record state did_parse d did input w =
  bind (own_repo (dri_repo input) did) (fun _ =>
  bind (check_keys (dri_collection input) (Some (dri_rkey input))) (fun _ =>
  bind (w_read (RepoXrpc.lookup_record_cid did (mst_key (dri_collection input) (dri_rkey input)))) (fun o =>
  RepoXrpc.delete_record_write state did_parse d did input (bool_decide (is_Some o))))) w.
Proof.
  unfold RepoXrpc.delete_record, RepoXrpc.delete_record_check, bind.
  destruct (own_repo _ _ w) as [[u|e] w1]; [|done]. destruct (check_keys _ _ w1) as [[u'|e] w2]; [|done].
  by destruct (w_read _ w2) as [[o|e] w3].
Qed.

Lemma delete_emb_eq d (w : W) :
  EmbRepo.delete_record config did_parse d auth now raw w =
  bind (write_request config auth now raw) (fun db =>
  bind (lift (body_key (snd db))) (fun ck =>
  bind (e_read (EmbRepo.lookup_record_cid (fst db) (mst_key (fst ck) (snd ck)))) (fun o =>
  EmbRepo.delete_record_write config did_parse d
    (fst db, mst_key (fst ck) (snd ck), bool_decide (is_Some o))))) w.
Proof.
  unfold EmbRepo.delete_record, EmbRepo.delete_record_check, bind, lift.
  destruct (write_request _ _ _ _ w) as [[[u v]|e] w1]; [|done]. cbn [fst snd].
  destruct (body_key v) as [ck|]; [|done]. by destruct (e_read _ w1) as [[o|e] w3].
Qed.

Context `{!CidLaws Cid} `{!RepoSerdeLaws Cid} `{!KeypairLaws} `{!AtriumLaws Cid} `{!AtriumReadLaws Cid}.

(** On a sound repository a look-up answers, and leaves the world alone. *)
Lemma lookups_run k m w key : repo_is k did m w ->
  w_read (RepoXrpc.lookup_record_cid did key) w = (Ok (m !! key), w) /\
  e_read (EmbRepo.lookup_record_cid did key) w = (Ok (m !! key), w).
Proof.
  intros Hr. pose proof (lookup_mem k did m w key Hr) as E. destruct w as [[g pub] cache].
  unfold inner in E. cbn [fst snd] in E. unfold w_read, e_read. rewrite E. split; [done|].
  pose proof (sim_lookup did key g) as Hs. unfold agree_read in Hs. rewrite E in Hs.
  destruct (EmbRepo.lookup_record_cid did key g) as [[o|e] g']; cbn in Hs; destruct Hs; by simplify_eq.
Qed.

Lemma put_agrees k m w d (input : PutRecordInput (Value := Value)) : repo_is k did m w ->
  body_str "repo" body = Some (pri_repo input) -> body_str "collection" body = Some (pri_collection input) ->
  body_str "rkey" body = Some (pri_rkey input) -> json_index "record" body = pri_record input ->
  json_is_null (pri_record input) = false ->
  agree (RepoXrpc.put_record state did_parse d did input w)
        (EmbRepo.put_record config did_parse d auth now raw w).
Proof.
  intros Hrep Hr Hc Hk Hrec Hnull. rewrite put_pds_eq, put_emb_eq.
  apply agree_start; [done|]. apply agree_keys; [done..|]. cbn [fst snd].
  unfold body_record. rewrite Hrec, Hnull. cbn [negb]. rewrite bind_lift_Ok.
  set (key := mst_key (pri_collection input) (pri_rkey input)).
  destruct (lookups_run k m w key Hrep) as [E1 E2]. rewrite (bind_run _ _ _ _ _ E1).
  unfold RepoXrpc.put_record_write, to_ipld. fold key.
  pose proof (sim_encode (pri_record input)) as He.
  destruct (map_err _ _) as [i|e], (encode_record _) as [i'|e']; simplify_eq/=; [|done].
  rewrite !bind_lift_Ok, (bind_run _ _ _ _ _ E2). revert w Hrep E1 E2. intros w _ _ _. revert w.
  match goal with |- forall w, agree (?x w) (?y w) => change (sim x y) end.
  apply sim_bind; [apply sim_build_writer|]. intros wr. apply sim_bind; [apply sim_writer|]. done.
Qed.

Lemma delete_agrees k m w d (input : DeleteRecordInput) : repo_is k did m w ->
  body_str "repo" body = Some (dri_repo input) -> body_str "collection" body = Some (dri_collection input) ->
  body_str "rkey" body = Some (dri_rkey input) ->
  agree (RepoXrpc.delete_record state did_parse d did input w)
        (EmbRepo.delete_record config did_parse d auth now raw w).
Proof.
  intros Hrep Hr Hc Hk. rewrite delete_pds_eq, delete_emb_eq.
  apply agree_start; [done|]. apply agree_keys; [done..|]. cbn [fst snd].
  set (key := mst_key (dri_collection input) (dri_rkey input)).
  destruct (lookups_run k m w key Hrep) as [E1 E2].
  rewrite (bind_run _ _ _ _ _ E1), (bind_run _ _ _ _ _ E2).
  unfold RepoXrpc.delete_record_write, EmbRepo.delete_record_write.
  destruct (bool_decide _); [|done]. revert w Hrep E1 E2. intros w _ _ _. revert w.
  match goal with |- forall w, agree (?x w) (?y w) => change (sim x y) end.
  apply sim_bind; [apply sim_build_writer|]. intros wr. apply sim_bind; [apply sim_writer|]. done.
Qed.

End Writes.

(** ** Properties *)

Section Properties.
Context `{Digests} `{Json} `{!JsonMore} `{Jwt} `{HttpLib}.
Context {Cid : Type} `{CidLib Cid} `{Countable Cid}.
Context `{RepoSerde Cid} `{!Atrium Cid} `{!AtriumRead Cid} `{Keypairs} `{!KeypairIO} `{CarLib Cid}.
Context `{KeyCiphers} `{!Serde Value}.
Context `{!CidLaws Cid} `{!RepoSerdeLaws Cid} `{!KeypairLaws} `{!AtriumLaws Cid} `{!AtriumReadLaws Cid}.


(** one read path.  Over any store, for a query string with the same
    parameters, the on-device server's getRecord and listRecords run through the
    states of the production server's and answer the same record and the same
    page, cursor included, or both fail. *)
Theorem embedded_reads_agree {St : Type} `{StorageBackend Cid St} usize_bits query (repo collection rkey : string)
    limit (s : St)
    (Hq : query_param query "repo" = Some repo /\ query_param query "collection" = Some collection /\
          query_param query "rkey" = Some rkey)
    (Hlimit : query_limit usize_bits query = records_limit limit) :
  agree_read (RepoXrpc.get_record (Value := Value) repo collection rkey s) (EmbRepo.get_record query s) /\
  agree_read (RepoXrpc.list_records (Value := Value) repo collection limit (query_param query "cursor") s)
             (EmbRepo.list_records usize_bits query s).
Proof.
  destruct Hq as (E1 & E2 & E3). split; [by apply sim_get_record|by apply sim_list_records].
Qed.

(** A body over 64 KiB is refused by every write, whatever it holds. *)
Lemma embedded_refuses_large (config : ServerConfig) did_parse auth now b did d
    (w : WriteWorld (St := Inner Cid)) :
  access_did config auth now = Ok did -> MAX_BODY_BYTES < str_len b ->
  EmbRepo.create_record config did_parse d auth now (Some b) w =
  (Err (xrpc_error 413 "InvalidRequest" "request body too large"), w).
Proof.
  intros Ha Hb. unfold EmbRepo.create_record, write_request, bind, lift. rewrite Ha.
  unfold read_json_body. cbn [ok_or]. by rewrite (proj2 (Z.ltb_lt _ _) Hb).
Qed.

End Properties.

(** ** Concrete requests *)

Definition demo_emb_body : bytes :=
  text_body [("repo", "did:a"); ("collection", "app.x"); ("rkey", "1"); ("record", "hello")].

Definition demo_emb_put := EmbRepo.put_record (Cid := string) (St := Inner string) demo_config demo_str_parse
  (demo_wdraw "1") demo_bearer 1000 (Some demo_emb_body) demo_ww.

(** A batch of a create and a delete. *)
Definition demo_emb_batch : bytes :=
  text_object [("repo", "sdid:a"); ("writes", String "a" (fields_encode
    [ text_object [("$type", "scom.atproto.repo.applyWrites#create"); ("collection", "sapp.x"); ("rkey", "s2"); ("value", "shello")];
      text_object [("$type", "scom.atproto.repo.applyWrites#delete"); ("collection", "sapp.x"); ("rkey", "s2")] ]))].

Definition demo_typed_batch : list (ApplyWritesWrite (Value := Value (Json := text_json))) :=
  [AwCreate "app.x" (Some "2") ("shello" : Value (Json := text_json)); AwDelete "app.x" "2"].

Definition demo_emb_apply := EmbRepo.apply_writes (Cid := string) (St := Inner string) demo_config demo_str_parse
  (fun n => demo_wdraw (Z_text (Z.of_nat n + 1))) demo_bearer 1000 (Some demo_emb_batch) demo_ww.


Definition demo_emb_query : string :=
  encode_query [("repo", "did:a"); ("collection", "app.x"); ("rkey", "1"); ("limit", "7")].

Lemma embedded_reads_agree_witness :
  let s := inner (snd demo_put) in
  is_ok (fst (EmbRepo.get_record (Cid := string) demo_emb_query s)) = true /\
  agree_read (RepoXrpc.get_record (Cid := string) (Value := string) "did:a" "app.x" "1" s)
             (EmbRepo.get_record demo_emb_query s) /\
  agree_read (RepoXrpc.list_records (Cid := string) (Value := string) "did:a" "app.x" (Some 7) None s)
             (EmbRepo.list_records 64 demo_emb_query s).
Proof.
  intros s. split; [vm_compute; reflexivity|].
  assert (query_param demo_emb_query "repo" = Some "did:a" /\ query_param demo_emb_query "collection" = Some "app.x" /\
          query_param demo_emb_query "rkey" = Some "1") as Hq by (vm_compute; auto).
  pose proof (embedded_reads_agree (Cid := string) (St := Inner string) 64 demo_emb_query "did:a" "app.x" "1"
                (Some 7) s Hq ltac:(vm_compute; reflexivity)) as Ha.
  assert (query_param demo_emb_query "cursor" = None) as Hc by (vm_compute; reflexivity). rewrite Hc in Ha.
  exact Ha.
Defined.
