(* ===== verification/Sql.v ===== *)
(** * SQL storage: statements, transactions, tables

    What the two SQL backends share: [src/rust-core/src/storage/sqlite/] and
    [src/rust-worker/src/store.rs] run nearly the same statements over nearly
    the same schema ([sqlite/schema.rs], [schema.rs]).  A table with a primary
    key is a finite map from its key; the event log is the list of its rows in
    the order they were inserted.  Each statement is one step that either fails,
    for a reason of the engine's (the schedule of failures is part of the
    connection), or does all of its effect.  A transaction that is not committed
    is rolled back. *)

From Stdlib Require Import ZArith Lia Ascii.
From S2P Require Import Prelude RustStr Externals StoreTypes MemoryStore.

(** ** Connections *)

(** [faults] says which of the next statements the engine fails, and with what
    message; after it is used up none fails. *)
Record Conn (Db : Type) := MkConn { db : Db; faults : list (option string) }.
Arguments MkConn {Db} _ _.
Arguments db {Db} _.
Arguments faults {Db} _.

Notation Q Db A := (SE (Conn Db) string A).

(** One statement: all of its effect, or an error and none. *)
Definition stmt {Db A} (f : Db -> result string (A * Db)) : Q Db A :=
  fun c =>
    match faults c with
    | Some e :: fs => (Err e, MkConn (db c) fs)
    | fs =>
        match f (db c) with
        | Ok (a, d) => (Ok a, MkConn d (tail fs))
        | Err e => (Err e, MkConn (db c) (tail fs))
        end
    end.

(** A statement that only reads. *)
Definition query {Db A} (f : Db -> A) : Q Db A := stmt (fun d => Ok (f d, d)).
(** A statement without a result, that breaks no constraint. *)
Definition execute {Db} (f : Db -> Db) : Q Db unit := stmt (fun d => Ok (tt, f d)).

Definition rollback {Db} (d : Db) (c : Conn Db) : Conn Db := MkConn d (faults c).

(** [BEGIN IMMEDIATE], the body, and [COMMIT] when the body asks for it ([true]);
    the guard rolls back when it is dropped uncommitted. *)
Definition transaction {Db A} (m : Q Db (bool * A)) : Q Db A :=
  fun c =>
    match execute id c with
    | (Err e, c1) => (Err e, c1)
    | (Ok _, c1) =>
        match m c1 with
        | (Ok (true, a), c2) =>
            match execute id c2 with
            | (Ok _, c3) => (Ok a, c3)
            | (Err e, c3) => (Err e, rollback (db c1) c3)
            end
        | (Ok (false, a), c2) => (Ok a, rollback (db c1) c2)
        | (Err e, c2) => (Err e, rollback (db c1) c2)
        end
    end.

(** ** Rows and tables *)

(** An [INTEGER] column holds an [i64]: [as i64] on the way in, [as u64] on the
    way out. *)
Definition as_i64 (z : Z) : Z := i64_wrap z.
Definition as_u64 (z : Z) : Z := u64_wrap z.

Record EventRow := MkEventRow { ev_seq : Z; ev_did : string; ev_event : bytes; ev_invalidated : Z }.

Record AccountRow := MkAccountRow {
  ar_handle : option string;
  ar_email : option string;
  ar_password_argon2 : string;
  ar_created_at : string;
  ar_deactivated_at : option string;
  ar_takedown_ref : option string;
}.

Record InviteRow := MkInviteRow { ir_available_uses : Z; ir_disabled : Z; ir_for_account : string }.

Record Tables := MkTables {
  t_blocks : gmap string bytes;
  t_repo_seq : list EventRow;
  t_repo_roots : gmap string string;
  t_accounts : gmap string AccountRow;
  t_keys : gmap string bytes;
  t_invites : gmap string InviteRow;
  t_invite_uses : gset (string * string);
  t_preferences : gmap string string;
  t_par : gmap string StoredPushedRequest;
  t_codes : gmap string AuthCode;
  t_refresh : gmap string (RefreshTokenRecord * Z);
  t_jti : gmap string Z;
}.

Definition Tables_empty : Tables := MkTables ∅ [] ∅ ∅ ∅ ∅ ∅ ∅ ∅ ∅ ∅ ∅.

Definition put_blocks v t := MkTables v (t_repo_seq t) (t_repo_roots t) (t_accounts t) (t_keys t)
  (t_invites t) (t_invite_uses t) (t_preferences t) (t_par t) (t_codes t) (t_refresh t) (t_jti t).
Definition put_repo_seq v t := MkTables (t_blocks t) v (t_repo_roots t) (t_accounts t) (t_keys t)
  (t_invites t) (t_invite_uses t) (t_preferences t) (t_par t) (t_codes t) (t_refresh t) (t_jti t).
Definition put_repo_roots v t := MkTables (t_blocks t) (t_repo_seq t) v (t_accounts t) (t_keys t)
  (t_invites t) (t_invite_uses t) (t_preferences t) (t_par t) (t_codes t) (t_refresh t) (t_jti t).
Definition put_accounts v t := MkTables (t_blocks t) (t_repo_seq t) (t_repo_roots t) v (t_keys t)
  (t_invites t) (t_invite_uses t) (t_preferences t) (t_par t) (t_codes t) (t_refresh t) (t_jti t).
Definition put_keys v t := MkTables (t_blocks t) (t_repo_seq t) (t_repo_roots t) (t_accounts t) v
  (t_invites t) (t_invite_uses t) (t_preferences t) (t_par t) (t_codes t) (t_refresh t) (t_jti t).
Definition put_invites v t := MkTables (t_blocks t) (t_repo_seq t) (t_repo_roots t) (t_accounts t)
  (t_keys t) v (t_invite_uses t) (t_preferences t) (t_par t) (t_codes t) (t_refresh t) (t_jti t).
Definition put_invite_uses v t := MkTables (t_blocks t) (t_repo_seq t) (t_repo_roots t) (t_accounts t)
  (t_keys t) (t_invites t) v (t_preferences t) (t_par t) (t_codes t) (t_refresh t) (t_jti t).
Definition put_preferences v t := MkTables (t_blocks t) (t_repo_seq t) (t_repo_roots t) (t_accounts t)
  (t_keys t) (t_invites t) (t_invite_uses t) v (t_par t) (t_codes t) (t_refresh t) (t_jti t).
Definition put_par v t := MkTables (t_blocks t) (t_repo_seq t) (t_repo_roots t) (t_accounts t)
  (t_keys t) (t_invites t) (t_invite_uses t) (t_preferences t) v (t_codes t) (t_refresh t) (t_jti t).
Definition put_codes v t := MkTables (t_blocks t) (t_repo_seq t) (t_repo_roots t) (t_accounts t)
  (t_keys t) (t_invites t) (t_invite_uses t) (t_preferences t) (t_par t) v (t_refresh t) (t_jti t).
Definition put_refresh v t := MkTables (t_blocks t) (t_repo_seq t) (t_repo_roots t) (t_accounts t)
  (t_keys t) (t_invites t) (t_invite_uses t) (t_preferences t) (t_par t) (t_codes t) v (t_jti t).
Definition put_jti v t := MkTables (t_blocks t) (t_repo_seq t) (t_repo_roots t) (t_accounts t)
  (t_keys t) (t_invites t) (t_invite_uses t) (t_preferences t) (t_par t) (t_codes t) (t_refresh t) v.

(** A database that holds the shared tables among others. *)
Class HasTables (Db : Type) := {
  tables : Db -> Tables;
  with_tables : Tables -> Db -> Db;
  tables_with t d : tables (with_tables t d) = t;
  with_tables_tables d : with_tables (tables d) d = d;
  with_with_tables t t' d : with_tables t (with_tables t' d) = with_tables t d;
}.

Definition q_tables `{HasTables Db} {A} (f : Tables -> A) : Q Db A := query (fun d => f (tables d)).
Definition x_tables `{HasTables Db} (f : Tables -> Tables) : Q Db unit :=
  execute (fun d => with_tables (f (tables d)) d).
Definition s_tables `{HasTables Db} {A} (f : Tables -> result string (A * Tables)) : Q Db A :=
  stmt (fun d => let? x := f (tables d) in Ok (fst x, with_tables (snd x) d)).

(** ** The statements of the schema *)

Definition visible_row (a : AccountRow) : bool :=
  is_none (ar_deactivated_at a) && is_none (ar_takedown_ref a).
Definition row_has_handle (h : string) (a : AccountRow) : bool :=
  match ar_handle a with Some x => String.eqb x h | None => false end.

(** [SELECT ... WHERE handle = ?]: at most one row, by the UNIQUE constraint. *)
Definition rows_by_handle (h : string) (t : Tables) : list (string * AccountRow) :=
  List.filter (fun x => row_has_handle h (snd x)) (map_to_list (t_accounts t)).
Definition visible_by_handle (h : string) (t : Tables) : option (string * AccountRow) :=
  head (List.filter (fun x => visible_row (snd x)) (rows_by_handle h t)).

Definition with_argon2 phc (a : AccountRow) : AccountRow :=
  MkAccountRow (ar_handle a) (ar_email a) phc (ar_created_at a) (ar_deactivated_at a) (ar_takedown_ref a).
Definition with_takedown_ref r (a : AccountRow) : AccountRow :=
  MkAccountRow (ar_handle a) (ar_email a) (ar_password_argon2 a) (ar_created_at a) (ar_deactivated_at a) r.

(** [did] is the primary key, [handle] is UNIQUE. *)
Definition insert_account_row `{HasTables Db} (did handle : string) (email : option string) (phc now : string)
    : Q Db unit :=
  s_tables (fun t =>
    match t_accounts t !! did with
    | Some _ => Err "UNIQUE constraint failed: accounts.did"
    | None =>
        match rows_by_handle handle t with
        | _ :: _ => Err "UNIQUE constraint failed: accounts.handle"
        | [] => Ok (tt, put_accounts
                          (<[did := MkAccountRow (Some handle) email phc now None None]> (t_accounts t)) t)
        end
    end).

(** [INSERT OR IGNORE INTO blocks]. *)
Definition insert_block (cid : string) (b : bytes) (t : Tables) : Tables :=
  put_blocks (or_insert cid b (t_blocks t)) t.
(** [INSERT OR REPLACE INTO repo_roots]; the time stamp is never read. *)
Definition replace_root (did root : string) (t : Tables) : Tables :=
  put_repo_roots (<[did := root]> (t_repo_roots t)) t.
Definition append_event (r : EventRow) (t : Tables) : Tables :=
  put_repo_seq (t_repo_seq t ++ [r]) t.

(** [SELECT COALESCE(MAX(seq), 0) FROM repo_seq]. *)
Definition max_event_seq (t : Tables) : Z :=
  match t_repo_seq t with [] => 0 | r :: l => foldr (fun r m => Z.max (ev_seq r) m) (ev_seq r) l end.

(** [WHERE seq > ? AND invalidated = 0 ORDER BY seq ASC]. *)
Definition seq_le (a b : EventRow) : Prop := ev_seq a <= ev_seq b.
#[export] Instance seq_le_dec : RelDecision seq_le.
Proof. intros a b. unfold seq_le. apply _. Defined.
Definition events_after (after : Z) (t : Tables) : list (Z * bytes) :=
  map (fun r => (ev_seq r, ev_event r))
    (merge_sort seq_le
       (List.filter (fun r => (after <? ev_seq r) && (ev_invalidated r =? 0)) (t_repo_seq t))).

(** [UPDATE ... WHERE key = ?]: the rows changed, and the table. *)
Definition update_key {V} (k : string) (f : V -> V) (m : gmap string V) : Z * gmap string V :=
  match m !! k with Some v => (1, <[k := f v]> m) | None => (0, m) end.

(** [DELETE ... WHERE p]: the rows deleted, and the table. *)
Definition delete_where {V} (p : V -> bool) (m : gmap string V) : Z * gmap string V :=
  let m' := filter (fun kv => p (snd kv) = false) m in
  (Z.of_nat (size m) - Z.of_nat (size m'), m').
(** [SELECT count( * ) ... WHERE p]. *)
Definition count_where {V} (p : V -> bool) (m : gmap string V) : Z :=
  Z.of_nat (size (filter (fun kv => p (snd kv) = true) m)).

(** Rows of the OAuth tables: times as [i64] columns. *)
Definition par_row (f : Z -> Z) (r : StoredPushedRequest) : StoredPushedRequest := {|
  spr_request_uri_hash := spr_request_uri_hash r; spr_client_id := spr_client_id r;
  spr_redirect_uri := spr_redirect_uri r; spr_scope := spr_scope r; spr_state := spr_state r;
  spr_code_challenge := spr_code_challenge r; spr_dpop_jkt := spr_dpop_jkt r;
  spr_login_hint := spr_login_hint r; spr_expires_at := f (spr_expires_at r) |}.
Definition code_row (f : Z -> Z) (c : AuthCode) : AuthCode := {|
  ac_code_hash := ac_code_hash c; ac_did := ac_did c; ac_client_id := ac_client_id c;
  ac_redirect_uri := ac_redirect_uri c; ac_scope := ac_scope c;
  ac_code_challenge := ac_code_challenge c; ac_dpop_jkt := ac_dpop_jkt c;
  ac_expires_at := f (ac_expires_at c) |}.
Definition refresh_row (f : Z -> Z) (r : RefreshTokenRecord) : RefreshTokenRecord := {|
  rt_token_hash := rt_token_hash r; rt_session_id := rt_session_id r; rt_did := rt_did r;
  rt_client_id := rt_client_id r; rt_scope := rt_scope r; rt_dpop_jkt := rt_dpop_jkt r;
  rt_issued_at := f (rt_issued_at r); rt_expires_at := f (rt_expires_at r) |}.

Definition insert_par (r : StoredPushedRequest) (t : Tables) : Tables :=
  put_par (<[spr_request_uri_hash r := par_row as_i64 r]> (t_par t)) t.
Definition select_par (h : string) (now : Z) (t : Tables) : option StoredPushedRequest :=
  r ← t_par t !! h; if now <? spr_expires_at r then Some (par_row as_u64 r) else None.
Definition delete_par (h : string) (t : Tables) : Tables := put_par (delete h (t_par t)) t.

Definition insert_code (c : AuthCode) (t : Tables) : Tables :=
  put_codes (<[ac_code_hash c := code_row as_i64 c]> (t_codes t)) t.
Definition select_code (h : string) (now : Z) (t : Tables) : option AuthCode :=
  c ← t_codes t !! h; if now <? ac_expires_at c then Some (code_row as_u64 c) else None.
Definition delete_code (h : string) (t : Tables) : Tables := put_codes (delete h (t_codes t)) t.

Definition insert_refresh (r : RefreshTokenRecord) (t : Tables) : Tables :=
  put_refresh (<[rt_token_hash r := (refresh_row as_i64 r, 0)]> (t_refresh t)) t.
Definition select_refresh (h : string) (now : Z) (t : Tables) : option (RefreshTokenRecord * Z) :=
  x ← t_refresh t !! h;
  if now <? rt_expires_at (fst x) then Some (refresh_row as_u64 (fst x), snd x) else None.
Definition mark_refresh_used (h : string) (t : Tables) : Tables :=
  put_refresh (snd (update_key h (fun x => (fst x, 1)) (t_refresh t))) t.
Definition of_session (sid : string) (x : RefreshTokenRecord * Z) : bool :=
  String.eqb (rt_session_id (fst x)) sid.
Definition delete_session (sid : string) (t : Tables) : Z * Tables :=
  let '(n, m) := delete_where (of_session sid) (t_refresh t) in (n, put_refresh m t).

(** [WHERE did = ? AND expires_at > ? AND used = 0]. *)
Definition live_sessions (did : string) (now : Z) (t : Tables) : list RefreshTokenRecord :=
  map fst (List.filter (fun x => String.eqb (rt_did (fst x)) did && (now <? rt_expires_at (fst x)) &&
                                 (snd x =? 0)) (map_to_list (t_refresh t)).*2).

(** [DELETE FROM t WHERE expires_at <= ?], for the four OAuth tables. *)
Definition purge_par (now : Z) (t : Tables) : Z * Tables :=
  let '(n, m) := delete_where (fun r => spr_expires_at r <=? now) (t_par t) in (n, put_par m t).
Definition purge_codes (now : Z) (t : Tables) : Z * Tables :=
  let '(n, m) := delete_where (fun r => ac_expires_at r <=? now) (t_codes t) in (n, put_codes m t).
Definition purge_refresh (now : Z) (t : Tables) : Z * Tables :=
  let '(n, m) := delete_where (fun x => rt_expires_at (fst x) <=? now) (t_refresh t) in (n, put_refresh m t).
Definition purge_jti (now : Z) (t : Tables) : Z * Tables :=
  let '(n, m) := delete_where (fun e => e <=? now) (t_jti t) in (n, put_jti m t).
