(* ===== verification/SqliteStore.v ===== *)
(** * The SQLite backend

    [src/rust-core/src/storage/sqlite/]: the production store.  One writer
    connection behind a mutex, so its calls are taken one at a time; reads go
    through a pool of connections that see the last committed state.  The engine
    may fail any statement.  The pool, WAL mode and the on-disk format are
    SQLite's and its drivers'. *)

From Stdlib Require Import ZArith Lia Ascii.
From S2P Require Import Prelude RustStr Externals Demo StoreTypes Paging MemoryStore MemoryProps Repo.
From S2P Require Import Sql.

(** [Cid::from_str]. *)
Class CidText (Cid : Type) := { cid_from_str : string -> result string Cid }.
Class CidTextLaws (Cid : Type) `{CidLib Cid} `{CidText Cid} := {
  cid_from_to_string (c : Cid) : cid_from_str (cid_to_string c) = Ok c;
}.

(** The order in which the engine visits rows: it decides ties of an [ORDER BY]. *)
Class SqlScan := { scan_rows {A : Type} : list A -> list A }.
Class SqlScanLaws `{SqlScan} := { scan_rows_perm {A} (l : list A) : scan_rows l ≡ₚ l }.

Record BlobRow := MkBlobRow { bl_mime_type : string; bl_size : Z; bl_bytes : bytes }.

(** [seq] is [AUTOINCREMENT]: [sqlite_sequence] keeps the highest one given. *)
Record SqliteDb := MkSqlite {
  sq_tables : Tables;
  sq_sequence : Z;
  sq_blobs : gmap (string * string) BlobRow;
}.
Definition SqliteDb_empty : SqliteDb := MkSqlite Tables_empty 0 ∅.

#[export] Instance sqlite_tables : HasTables SqliteDb.
Proof.
  refine {| tables := sq_tables; with_tables t d := MkSqlite t (sq_sequence d) (sq_blobs d) |}.
  - done.
  - by intros [].
  - done.
Defined.

Definition SqliteStore : Type := Conn SqliteDb.

(** ** The two ways in *)

Definition writer_call {A} (m : Q SqliteDb A) : op SqliteStore A := with_err AsyncSqlite m.
Definition reader {A} (m : Q SqliteDb A) : op SqliteStore A :=
  (with_err Pool (execute id) ;;! with_err Sqlite m)%se.

Section Sqlite.
Context {Cid : Type} `{CidLib Cid} `{CidText Cid} `{SqlScan}.

(** ** Blocks, sequencer, roots *)

Definition sq_read_block_bytes (cid : Cid) : op SqliteStore bytes :=
  (let! b := reader (q_tables (fun t => t_blocks t !! cid_to_string cid)) in
   lift (ok_or b BlockNotFound))%se.

Definition sq_put_block (cid : Cid) (b : bytes) : op SqliteStore unit :=
  writer_call (x_tables (insert_block (cid_to_string cid) b)).

Definition sq_max_seq : op SqliteStore Z := reader (q_tables max_event_seq).

(** A negative [LIMIT] is none. *)
Definition sql_limit {A} (n : Z) (l : list A) : list A := if n <? 0 then l else take (Z.to_nat n) l.

Definition sq_backfill_page (after_seq limit : Z) : op SqliteStore (list (Z * bytes)) :=
  reader (q_tables (fun t => sql_limit limit (events_after after_seq t))).

Definition sq_load_repo_root (did : string) : op SqliteStore (option Cid) :=
  (let! s := writer_call (q_tables (fun t => t_repo_roots t !! did)) in
   match s with
   | None => ret None
   | Some cid_str =>
       let! cid := lift (map_err (fun e => Crypto ("bad root cid: " +:+ e)) (cid_from_str cid_str)) in
       ret (Some cid)
   end)%se.

Definition sq_update_repo_root (did : string) (root_cid : Cid) : op SqliteStore unit :=
  writer_call (x_tables (replace_root did (cid_to_string root_cid))).

(** [INSERT INTO repo_seq]: the row's [seq] is one more than the highest ever. *)
Definition last_seq (d : SqliteDb) : Z :=
  Z.max 0 (Z.max (sq_sequence d) (max_event_seq (sq_tables d))).
Definition insert_event (did : string) (event_body : bytes) : Q SqliteDb Z :=
  stmt (fun d =>
    if last_seq d <? i64_max then
      let seq := i64_add (last_seq d) 1 in
      Ok (seq, MkSqlite (append_event (MkEventRow seq did event_body 0) (sq_tables d)) seq (sq_blobs d))
    else Err "database or disk is full").

Fixpoint insert_block_rows (bs : list (Cid * bytes)) : Q SqliteDb unit :=
  match bs with
  | [] => ret tt
  | (cid, b) :: bs => (x_tables (insert_block (cid_to_string cid) b) ;;! insert_block_rows bs)%se
  end.

Definition sq_commit_blocks (bs : list (Cid * bytes)) (did : string) (new_root : Cid)
    (event_body : bytes) : op SqliteStore Z :=
  writer_call (transaction
    (insert_block_rows bs ;;!
     let! seq := insert_event did event_body in
     x_tables (replace_root did (cid_to_string new_root)) ;;!
     ret (true, seq))%se).

(** ** Accounts *)

Definition sq_count_accounts : op SqliteStore Z :=
  reader (q_tables (fun t => Z.of_nat (size (t_accounts t)))).

Definition sq_insert_account (did handle : string) (email : option string) (phc now : string)
    : op SqliteStore unit :=
  writer_call (insert_account_row did handle email phc now).

Definition sq_count_and_insert_account (did handle : string) (email : option string)
    (phc now : string) : op SqliteStore Z :=
  writer_call (transaction
    (let! n := q_tables (fun t => Z.of_nat (size (t_accounts t))) in
     insert_account_row did handle email phc now ;;!
     ret (true, n))%se).

Definition sq_get_account_by_handle (handle : string) : op SqliteStore (option (string * string)) :=
  reader (q_tables (fun t =>
    (fun x => (fst x, ar_password_argon2 (snd x))) <$> visible_by_handle handle t)).

Definition sq_get_did_by_handle (handle : string) : op SqliteStore (option string) :=
  reader (q_tables (fun t => fst <$> visible_by_handle handle t)).

Definition sq_get_handle_by_did (did : string) : op SqliteStore (option string) :=
  reader (q_tables (fun t =>
    a ← t_accounts t !! did; if visible_row a then ar_handle a else None)).

Definition summary_row (x : string * AccountRow) : AccountSummary := {|
  as_did := fst x; as_handle := ar_handle (snd x); as_deactivated_at := ar_deactivated_at (snd x);
  as_takedown_ref := ar_takedown_ref (snd x); as_created_at := ar_created_at (snd x) |}.

(** [ORDER BY created_at]. *)
Definition created_le (a b : string * AccountRow) : Prop :=
  String.le (ar_created_at (snd a)) (ar_created_at (snd b)).
#[local] Instance created_le_dec : RelDecision created_le.
Proof. intros a b. unfold created_le. apply _. Defined.

Definition sq_list_accounts : op SqliteStore (list AccountSummary) :=
  reader (q_tables (fun t =>
    map summary_row (merge_sort created_le (scan_rows (map_to_list (t_accounts t)))))).

Definition update_account (did : string) (f : AccountRow -> AccountRow) : op SqliteStore Z :=
  writer_call (s_tables (fun t =>
    let '(n, m) := update_key did f (t_accounts t) in Ok (n, put_accounts m t))).

Definition sq_update_password (did phc : string) : op SqliteStore Z :=
  update_account did (with_argon2 phc).
Definition sq_set_takedown (did reference now : string) : op SqliteStore Z :=
  update_account did (with_takedown_ref (Some (if String.eqb reference "" then now else reference))).
Definition sq_clear_takedown (did : string) : op SqliteStore Z :=
  update_account did (with_takedown_ref None).

(** ** Invites and preferences *)

Definition sq_insert_invite (code : string) (uses : Z) (for_account : string) : op SqliteStore unit :=
  writer_call (s_tables (fun t =>
    match t_invites t !! code with
    | Some _ => Err "UNIQUE constraint failed: invites.code"
    | None => Ok (tt, put_invites (<[code := MkInviteRow uses 0 for_account]> (t_invites t)) t)
    end)).

(** [INSERT OR IGNORE INTO invite_uses]: the rows inserted. *)
Definition insert_invite_use (code used_by : string) : Q SqliteDb Z :=
  s_tables (fun t =>
    if decide ((code, used_by) ∈ t_invite_uses t) then Ok (0, t)
    else Ok (1, put_invite_uses ({[ (code, used_by) ]} ∪ t_invite_uses t) t)).

Definition decrement_invite (code : string) : Q SqliteDb unit :=
  x_tables (fun t => put_invites (snd (update_key code
    (fun i => MkInviteRow (ir_available_uses i - 1) (ir_disabled i) (ir_for_account i)) (t_invites t))) t).

Definition sq_consume_invite (code used_by : string) : op SqliteStore bool :=
  writer_call (transaction
    (let! row := q_tables (fun t => t_invites t !! code) in
     match row with
     | None => ret (false, false)
     | Some i =>
         if ir_disabled i =? 1 then ret (false, false)
         else if ir_available_uses i =? 0 then ret (false, false)
         else if ir_available_uses i <=? 0 then ret (false, false)
         else
           let! already_used := q_tables (fun t =>
             if decide ((code, used_by) ∈ t_invite_uses t) then 1 else 0) in
           if 0 <? already_used then ret (false, false)
           else
             let! inserted := insert_invite_use code used_by in
             if inserted =? 0 then ret (false, false)
             else decrement_invite code ;;! ret (true, true)
     end)%se).

Definition sq_upsert_preferences (did prefs_json : string) : op SqliteStore unit :=
  writer_call (x_tables (fun t => put_preferences (<[did := prefs_json]> (t_preferences t)) t)).
Definition sq_get_preferences (did : string) : op SqliteStore (option string) :=
  reader (q_tables (fun t => t_preferences t !! did)).

(** ** Keys and blobs *)

Definition sq_put_key_blob (id : string) (ciphertext : bytes) : op SqliteStore unit :=
  writer_call (x_tables (fun t => put_keys (<[id := ciphertext]> (t_keys t)) t)).
Definition sq_get_key_blob (id : string) : op SqliteStore (option bytes) :=
  reader (q_tables (fun t => t_keys t !! id)).

Definition sq_put_blob (did cid mime_type : string) (size : Z) (b : bytes) : op SqliteStore unit :=
  writer_call (execute (fun d =>
    MkSqlite (sq_tables d) (sq_sequence d) (<[(did, cid) := MkBlobRow mime_type size b]> (sq_blobs d)))).
Definition sq_get_blob (did cid : string) : op SqliteStore (option (string * bytes)) :=
  reader (query (fun d =>
    (fun r => (bl_mime_type r, bl_bytes r)) <$> sq_blobs d !! (did, cid))).

Definition cids_of (did : string) (d : SqliteDb) : list string :=
  map snd (List.filter (fun k => String.eqb (fst k) did) (map_to_list (sq_blobs d)).*1).
Definition sq_list_blobs (did : string) (limit : Z) (cursor : option string)
    : op SqliteStore (list string) :=
  reader (query (fun d =>
    sql_limit (as_i64 limit) (merge_sort String.le (List.filter (after_cursor cursor) (cids_of did d))))).

(** ** OAuth *)

Definition sq_put_pushed_request (r : StoredPushedRequest) : op SqliteStore unit :=
  writer_call (x_tables (insert_par r)).
Definition sq_get_pushed_request (h : string) (now : Z) : op SqliteStore (option StoredPushedRequest) :=
  reader (q_tables (select_par h (as_i64 now))).
Definition sq_delete_pushed_request (h : string) : op SqliteStore unit :=
  writer_call (x_tables (delete_par h)).

Definition sq_put_auth_code (c : AuthCode) : op SqliteStore unit :=
  writer_call (x_tables (insert_code c)).
Definition sq_consume_auth_code (h : string) (now : Z) : op SqliteStore (option AuthCode) :=
  writer_call (transaction
    (let! row := q_tables (select_code h (as_i64 now)) in
     x_tables (delete_code h) ;;!
     ret (true, row))%se).

Definition sq_put_refresh_token (r : RefreshTokenRecord) : op SqliteStore unit :=
  writer_call (x_tables (insert_refresh r)).
Definition sq_consume_refresh_token (h : string) (now : Z) : op SqliteStore ConsumeResult :=
  writer_call (transaction
    (let! row := q_tables (select_refresh h (as_i64 now)) in
     match row with
     | None => ret (true, NotFound)
     | Some (rec, used) =>
         if negb (used =? 0) then ret (true, Reused (rt_session_id rec))
         else x_tables (mark_refresh_used h) ;;! ret (true, Consumed rec)
     end)%se).

Definition sq_revoke_session (sid : string) : op SqliteStore Z :=
  writer_call (s_tables (fun t => Ok (delete_session sid t))).
Definition sq_revoke_refresh_token (h : string) : op SqliteStore bool :=
  writer_call (transaction
    (let! session := q_tables (fun t => (fun x => rt_session_id (fst x)) <$> t_refresh t !! h) in
     match session with
     | None => ret (true, false)
     | Some sid => s_tables (fun t => Ok (delete_session sid t)) ;;! ret (true, true)
     end)%se).

(** [ORDER BY issued_at DESC]. *)
Definition issued_ge (a b : RefreshTokenRecord) : Prop := rt_issued_at b <= rt_issued_at a.
#[local] Instance issued_ge_dec : RelDecision issued_ge.
Proof. intros a b. unfold issued_ge. apply _. Defined.

Definition sq_list_sessions_for_did (did : string) (now : Z) : op SqliteStore (list RefreshTokenRecord) :=
  reader (q_tables (fun t =>
    map (refresh_row as_u64) (merge_sort issued_ge (scan_rows (live_sessions did (as_i64 now) t))))).

(** [INSERT ... ON CONFLICT(jti) DO NOTHING]: the rows inserted. *)
Definition sq_record_dpop_jti (jti : string) (expires_at : Z) : op SqliteStore bool :=
  (let! n := writer_call (s_tables (fun t =>
     match t_jti t !! jti with
     | Some _ => Ok (0, t)
     | None => Ok (1, put_jti (<[jti := as_i64 expires_at]> (t_jti t)) t)
     end)) in
   ret (0 <? n))%se.

Definition sq_purge_expired (now : Z) : op SqliteStore Z :=
  writer_call (transaction
    (let now := as_i64 now in
     let! n1 := s_tables (fun t => Ok (purge_par now t)) in
     let! n2 := s_tables (fun t => Ok (purge_codes now t)) in
     let! n3 := s_tables (fun t => Ok (purge_refresh now t)) in
     let! n4 := s_tables (fun t => Ok (purge_jti now t)) in
     ret (true, n1 + n2 + n3 + n4))%se).

#[export] Instance sqlite_block_store : BlockStore Cid SqliteStore := {
  read_block_bytes := sq_read_block_bytes; put_block := sq_put_block }.
#[export] Instance sqlite_sequencer : Sequencer SqliteStore := {
  max_seq := sq_max_seq; backfill_page := sq_backfill_page }.
#[export] Instance sqlite_repo_store : RepoStore Cid SqliteStore := {
  load_repo_root := sq_load_repo_root; update_repo_root := sq_update_repo_root;
  commit_blocks := sq_commit_blocks }.
#[export] Instance sqlite_account_store : AccountStore SqliteStore := {
  count_accounts := sq_count_accounts; insert_account := sq_insert_account;
  count_and_insert_account := sq_count_and_insert_account;
  get_account_by_handle := sq_get_account_by_handle; get_did_by_handle := sq_get_did_by_handle;
  get_handle_by_did := sq_get_handle_by_did; list_accounts := sq_list_accounts;
  update_password := sq_update_password; set_takedown := sq_set_takedown;
  clear_takedown := sq_clear_takedown; insert_invite := sq_insert_invite;
  consume_invite := sq_consume_invite; upsert_preferences := sq_upsert_preferences;
  get_preferences := sq_get_preferences }.
#[export] Instance sqlite_key_store : KeyStore SqliteStore := {
  put_key_blob := sq_put_key_blob; get_key_blob := sq_get_key_blob }.
#[export] Instance sqlite_blob_store : BlobStore SqliteStore := {
  put_blob := sq_put_blob; get_blob := sq_get_blob; list_blobs := sq_list_blobs }.
#[export] Instance sqlite_oauth_store : OAuthStore SqliteStore := {
  put_pushed_request := sq_put_pushed_request; get_pushed_request := sq_get_pushed_request;
  delete_pushed_request := sq_delete_pushed_request; put_auth_code := sq_put_auth_code;
  consume_auth_code := sq_consume_auth_code; put_refresh_token := sq_put_refresh_token;
  consume_refresh_token := sq_consume_refresh_token; revoke_session := sq_revoke_session;
  revoke_refresh_token := sq_revoke_refresh_token; list_sessions_for_did := sq_list_sessions_for_did;
  record_dpop_jti := sq_record_dpop_jti; purge_expired := sq_purge_expired }.
#[export] Instance sqlite_backend : StorageBackend Cid SqliteStore := {}.

End Sqlite.
