(* ===== verification/Conformance.v ===== *)
(** * Conformance of a storage backend

    The code asserts one behavioural contract for every backend
    ([src/rust-core/src/storage/conformance.rs]) with the in-memory store as the
    simplest implementation of it.  Here the calls of the storage traits are
    data, [perform] makes one on any backend, and a backend conforms when the
    calls that succeed answer as the in-memory store answers, with the failed
    ones left out. *)

From Stdlib Require Import ZArith Lia Ascii.
From S2P Require Import Prelude RustStr Externals StoreTypes MemoryStore MemoryProps.

Inductive outcome (Cid : Type) :=
| OUnit
| ONum (n : Z)
| OBool (b : bool)
| OCode (c : option AuthCode)
| OConsume (r : ConsumeResult)
| OBytes (b : bytes)
| OPage (l : list (Z * bytes))
| ORoot (r : option Cid)
| OAccount (a : option (string * string))
| OText (t : option string)
| OBlob (b : option (string * bytes))
| OCids (l : list string)
| OPushed (r : option StoredPushedRequest).
Arguments OUnit {Cid}.
Arguments ONum {Cid} n.
Arguments OBool {Cid} b.
Arguments OCode {Cid} c.
Arguments OConsume {Cid} r.
Arguments OBytes {Cid} b.
Arguments OPage {Cid} l.
Arguments ORoot {Cid} r.
Arguments OAccount {Cid} a.
Arguments OText {Cid} t.
Arguments OBlob {Cid} b.
Arguments OCids {Cid} l.
Arguments OPushed {Cid} r.

Section Conformance.
Context {Cid : Type} `{Countable Cid}.

(** The calls that do not change the state; [list_accounts] and
    [list_sessions_for_did] are apart, their order being the backend's. *)
Inductive query_call :=
| QReadBlock (c : Cid)
| QMaxSeq
| QBackfill (after_seq limit : Z)
| QLoadRepoRoot (did : string)
| QCountAccounts
| QAccountByHandle (h : string)
| QDidByHandle (h : string)
| QHandleByDid (did : string)
| QPreferences (did : string)
| QKeyBlob (id : string)
| QBlob (did cid : string)
| QListBlobs (did : string) (limit : Z) (cursor : option string)
| QPushedRequest (h : string) (now : Z).

Inductive store_call := Change (c : mem_call Cid) | Ask (q : query_call).

Section Perform.
Context {St : Type} `{!StorageBackend Cid St}.

Definition giving {A} (f : A -> outcome Cid) (m : op St A) : op St (outcome Cid) :=
  bind m (fun a => ret (f a)).

Definition change (c : mem_call Cid) : op St (outcome Cid) :=
  match c with
  | CPutBlock cid b => giving (fun _ => OUnit) (put_block cid b)
  | CUpdateRepoRoot did root => giving (fun _ => OUnit) (update_repo_root did root)
  | CCommitBlocks bs did root body => giving ONum (commit_blocks bs did root body)
  | CInsertAccount did h e p now => giving (fun _ => OUnit) (insert_account did h e p now)
  | CCountAndInsertAccount did h e p now => giving ONum (count_and_insert_account did h e p now)
  | CUpdatePassword did p => giving ONum (update_password did p)
  | CSetTakedown did r now => giving ONum (set_takedown did r now)
  | CClearTakedown did => giving ONum (clear_takedown did)
  | CInsertInvite code n a => giving (fun _ => OUnit) (insert_invite code n a)
  | CConsumeInvite code d => giving OBool (consume_invite code d)
  | CUpsertPreferences d p => giving (fun _ => OUnit) (upsert_preferences d p)
  | CPutKeyBlob i b => giving (fun _ => OUnit) (put_key_blob i b)
  | CPutBlob d c m n b => giving (fun _ => OUnit) (put_blob d c m n b)
  | CPutPushedRequest r => giving (fun _ => OUnit) (put_pushed_request r)
  | CDeletePushedRequest h => giving (fun _ => OUnit) (delete_pushed_request h)
  | CPutAuthCode c => giving (fun _ => OUnit) (put_auth_code c)
  | CConsumeAuthCode h now => giving OCode (consume_auth_code h now)
  | CPutRefreshToken r => giving (fun _ => OUnit) (put_refresh_token r)
  | CConsumeRefreshToken h now => giving OConsume (consume_refresh_token h now)
  | CRevokeSession sid => giving ONum (revoke_session sid)
  | CRevokeRefreshToken h => giving OBool (revoke_refresh_token h)
  | CRecordDpopJti j e => giving OBool (record_dpop_jti j e)
  | CPurgeExpired now => giving ONum (purge_expired now)
  end.

Definition ask (q : query_call) : op St (outcome Cid) :=
  match q with
  | QReadBlock c => giving OBytes (read_block_bytes c)
  | QMaxSeq => giving ONum max_seq
  | QBackfill a l => giving OPage (backfill_page a l)
  | QLoadRepoRoot did => giving ORoot (load_repo_root did)
  | QCountAccounts => giving ONum count_accounts
  | QAccountByHandle h => giving OAccount (get_account_by_handle h)
  | QDidByHandle h => giving OText (get_did_by_handle h)
  | QHandleByDid did => giving OText (get_handle_by_did did)
  | QPreferences did => giving OText (get_preferences did)
  | QKeyBlob id => giving OText (get_key_blob id)
  | QBlob did cid => giving OBlob (get_blob did cid)
  | QListBlobs did limit cursor => giving OCids (list_blobs did limit cursor)
  | QPushedRequest h now => giving OPushed (get_pushed_request h now)
  end.

Definition perform (c : store_call) : op St (outcome Cid) :=
  match c with Change c => change c | Ask q => ask q end.

(** A run of calls, each with the answer it got. *)
Fixpoint run_calls (cs : list store_call) (s : St)
    : list (store_call * result StorageError (outcome Cid)) * St :=
  match cs with
  | [] => ([], s)
  | c :: cs =>
      let '(r, s1) := perform c s in
      let '(l, s2) := run_calls cs s1 in
      ((c, r) :: l, s2)
  end.
End Perform.

(** The calls of a run that succeeded, with their answers. *)
Definition succeeded (l : list (store_call * result StorageError (outcome Cid)))
    : list (store_call * outcome Cid) :=
  omap (fun x => match snd x with Ok o => Some (fst x, o) | Err _ => None end) l.

(** ** The range of arguments on which the backends agree *)

(** A [u64] time that an [i64] column holds unchanged. *)
Definition in_i64 (z : Z) : Prop := 0 <= z <= i64_max.
#[export] Instance in_i64_dec z : Decision (in_i64 z).
Proof. unfold in_i64. apply _. Defined.
Definition record_in_i64 (r : RefreshTokenRecord) : Prop := in_i64 (rt_issued_at r) /\ in_i64 (rt_expires_at r).
#[export] Instance record_in_i64_dec r : Decision (record_in_i64 r).
Proof. unfold record_in_i64. apply _. Defined.

Definition change_in_range (c : mem_call Cid) : Prop :=
  match c with
  | CPutPushedRequest r => in_i64 (spr_expires_at r)
  | CPutAuthCode c => in_i64 (ac_expires_at c)
  | CConsumeAuthCode _ now => in_i64 now
  | CPutRefreshToken r => record_in_i64 r
  | CConsumeRefreshToken _ now => in_i64 now
  | CRecordDpopJti _ e => in_i64 e
  | CPurgeExpired now => in_i64 now
  | _ => True
  end.
Definition query_in_range (q : query_call) : Prop :=
  match q with
  | QBackfill _ limit => 0 <= limit
  | QListBlobs _ limit _ => in_i64 limit
  | QPushedRequest _ now => in_i64 now
  | _ => True
  end.
Definition call_in_range (c : store_call) : Prop :=
  match c with Change c => change_in_range c | Ask q => query_in_range q end.
#[export] Instance call_in_range_dec (c : store_call) : Decision (call_in_range c).
Proof. destruct c as [[]|[]]; apply _. Defined.

End Conformance.
Arguments query_call Cid : clear implicits.
Arguments store_call Cid : clear implicits.
