(* ===== verification/SqlProps.v ===== *)
(** * SQL storage: what a statement and a transaction do

    [does m f] characterises a piece of SQL by a function on the database: when
    it succeeds it did [f], and it fails only where [f] does or where the engine
    failed a statement.  [atomically] adds that a failure leaves the database
    alone: true of one statement and of a transaction, whatever its body. *)

From Stdlib Require Import ZArith Lia Ascii.
From S2P Require Import Prelude RustStr Externals StoreTypes MemoryStore.
From S2P Require Import Sql.

(** ** Ascending keys *)

Definition log_ascending (l : list Z) : Prop := StronglySorted Z.lt l.

Lemma log_ascending_snoc l z : log_ascending l -> (forall x, In x l -> x < z) -> log_ascending (l ++ [z]).
Proof.
  intros Hl Hz. induction Hl as [|x l Hl IH Hx]; simpl; [repeat constructor|].
  constructor; [apply IH; intros; apply Hz; by right|].
  apply Forall_app. split; [done|]. repeat constructor. apply Hz. by left.
Qed.

Lemma log_ascending_inj {A} (key : A -> Z) (l : list A) x y :
  log_ascending (map key l) -> x ∈ l -> y ∈ l -> key x = key y -> x = y.
Proof.
  intros Hl Hx Hy E. induction l as [|z l IH]; [by apply not_elem_of_nil in Hx|].
  inversion_clear Hl as [|?? Hl' Hz]. rewrite Forall_forall in Hz.
  assert (forall w, w ∈ l -> key z < key w) as Hlt by (intros w ?; apply Hz; by apply list_elem_of_fmap_2).
  apply elem_of_cons in Hx as [->|Hx], Hy as [->|Hy]; [done| | |by apply IH].
  - apply Hlt in Hy. lia.
  - apply Hlt in Hx. lia.
Qed.

Lemma log_ascending_filter {A} (key : A -> Z) (p : A -> bool) (l : list A) :
  log_ascending (map key l) -> log_ascending (map key (List.filter p l)).
Proof.
  induction l as [|x l IH]; intros H; [constructor|]. inversion_clear H as [|?? Hl Hx].
  simpl. destruct (p x); [|by apply IH]. simpl. constructor; [by apply IH|].
  rewrite Forall_forall in Hx. apply Forall_forall. intros z Hz. apply list_elem_of_fmap in Hz as (y & -> & Hy).
  apply Hx, list_elem_of_fmap_2. apply list_elem_of_In, filter_In in Hy as [Hy _]. by apply list_elem_of_In.
Qed.

(** On rows whose keys ascend the sort has nothing to do. *)
Lemma merge_sort_keys {A} (key : A -> Z) (R : relation A) `{!RelDecision R} (l : list A) :
  (forall x y, R x y <-> key x <= key y) -> log_ascending (map key l) -> merge_sort R l = l.
Proof.
  intros HR Hl.
  assert (Total R) by (intros x y; rewrite !HR; lia).
  assert (Transitive R) by (intros x y z; rewrite !HR; lia).
  apply (StronglySorted_unique_strong R).
  - intros x y Hx Hy Hxy Hyx. rewrite merge_sort_Permutation in Hx. rewrite HR in Hxy, Hyx.
    apply (log_ascending_inj key l); [done..|]. lia.
  - by apply (StronglySorted_merge_sort R).
  - clear -HR Hl. induction l as [|x l IH]; [constructor|]. inversion_clear Hl as [|?? Hl' Hx].
    constructor; [by apply IH|]. rewrite Forall_forall in Hx. apply Forall_forall. intros y Hy. apply HR.
    apply Z.lt_le_incl, Hx. by apply list_elem_of_fmap_2.
  - apply merge_sort_Permutation.
Qed.

Section Sql.
Context {Db : Type}.

(** The engine fails nothing from here on. *)
Definition sound_conn (c : Conn Db) : Prop := faults c = [].

Definition does {E A} (m : SE (Conn Db) E A) (f : Db -> result string (A * Db)) : Prop :=
  forall c, (sound_conn c -> sound_conn (snd (m c))) /\
    match m c with
    | (Ok a, c') => f (db c) = Ok (a, db c')
    | (Err _, _) => sound_conn c -> exists e, f (db c) = Err e
    end.

Definition atomically {E A} (m : SE (Conn Db) E A) (f : Db -> result string (A * Db)) : Prop :=
  does m f /\ forall c e c', m c = (Err e, c') -> db c' = db c.

Lemma does_ret {E A} (a : A) : does (E := E) (ret a) (fun d => Ok (a, d)).
Proof. intros c. by split. Qed.

Lemma does_bind {E A B} (m : SE (Conn Db) E A) f (k : A -> SE (Conn Db) E B) g :
  does m f -> (forall a, does (k a) (g a)) ->
  does (bind m k) (fun d => let? x := f d in g (fst x) (snd x)).
Proof.
  intros Hm Hk c. destruct (Hm c) as [Hs Hr]. unfold bind.
  destruct (m c) as [[a|e] c1]; simpl in *.
  - destruct (Hk a c1) as [Hs' Hr']. split; [by eauto|]. rewrite Hr. simpl.
    destruct (k a c1) as [[b|e] c2]; [done|]. eauto.
  - split; [done|]. intros H. destruct (Hr H) as [e' ->]. eauto.
Qed.

Lemma does_ext {E A} (m : SE (Conn Db) E A) f g : does m f -> (forall d, f d = g d) -> does m g.
Proof.
  intros H Hg c. destruct (H c) as [Hs Hr]. split; [done|].
  destruct (m c) as [[a|e] c']; by rewrite <- Hg.
Qed.

Lemma atomically_ext {E A} (m : SE (Conn Db) E A) f g :
  atomically m f -> (forall d, f d = g d) -> atomically m g.
Proof. intros [H1 H2] Hg. split; [by eapply does_ext|done]. Qed.

Lemma atomically_stmt {A} (f : Db -> result string (A * Db)) : atomically (stmt f) f.
Proof.
  split.
  - intros [d [|[e|] fs]]; unfold stmt, sound_conn; simpl; [|done|];
      destruct (f d) as [[a d']|e]; simpl; eauto; split; try done; by intros.
  - intros [d [|[x|] fs]] e c'; unfold stmt; simpl; [|naive_solver|];
      destruct (f d) as [[a d']|x]; naive_solver.
Qed.

Lemma does_stmt {A} (f : Db -> result string (A * Db)) : does (stmt f) f.
Proof. apply atomically_stmt. Qed.

Lemma does_execute (f : Db -> Db) : does (execute f) (fun d => Ok (tt, f d)).
Proof. apply does_stmt. Qed.
Lemma does_query {A} (f : Db -> A) : does (query f) (fun d => Ok (f d, d)).
Proof. apply does_stmt. Qed.

Lemma atomically_with_err {E A} (w : string -> E) (m : Q Db A) f :
  atomically m f -> atomically (with_err w m) f.
Proof.
  intros [H1 H2]. unfold with_err. split.
  - intros c. destruct (H1 c) as [Hs Hr]. destruct (m c) as [[a|e] c']; done.
  - intros c e c' E0. destruct (m c) as [[a|x] c1] eqn:E1; simplify_eq/=. eauto.
Qed.

(** A transaction does what its body does when the body commits, and nothing
    otherwise. *)
Lemma atomically_transaction {A} (m : Q Db (bool * A)) f :
  does m f ->
  atomically (transaction m) (fun d =>
    let? x := f d in Ok (snd (fst x), if fst (fst x) then snd x else d)).
Proof.
  intros H. unfold transaction. split.
  - intros c. destruct (does_execute id c) as [Hs0 Hr0].
    destruct (execute id c) as [[u|e] c1]; simpl in *; [|by split; intros; naive_solver].
    injection Hr0 as _ Hc. unfold id in Hc. destruct (H c1) as [Hs Hr].
    destruct (m c1) as [[[[] a]|e] c2]; simpl in *.
    + destruct (does_execute id c2) as [Hs1 Hr1].
      destruct (execute id c2) as [[v|e] c3]; simpl in *.
      * split; [by auto|]. injection Hr1 as _ Hd. unfold id in Hd. rewrite Hc, Hr. simpl. by rewrite Hd.
      * split; [unfold sound_conn in *; simpl; by auto|]. intros Hc0.
        destruct (Hr1 ltac:(auto)) as [? ?]. done.
    + split; [unfold sound_conn in *; simpl; by auto|]. rewrite Hc, Hr. done.
    + split; [unfold sound_conn in *; simpl; by auto|]. intros Hc0.
      destruct (Hr ltac:(auto)) as [x Hx]. rewrite Hc, Hx. eauto.
  - intros c e c' E0. destruct (execute id c) as [[u|x] c1] eqn:E1.
    + destruct (does_execute id c) as [_ Hr0]. rewrite E1 in Hr0. injection Hr0 as _ Hc. unfold id in Hc.
      destruct (m c1) as [[[[] a]|x] c2]; [destruct (execute id c2) as [[v|y] c3]| |];
        simplify_eq/=; done.
    + simplify_eq. eapply (proj2 (atomically_stmt (fun d => Ok (tt, id d)))). exact E1.
Qed.

(** A read first, then a step that is atomic. *)
Lemma atomically_read_bind {E A B} (m : SE (Conn Db) E A) g (k : A -> SE (Conn Db) E B) h :
  atomically m (fun d => Ok (g d, d)) -> (forall a, atomically (k a) (h a)) ->
  atomically (bind m k) (fun d => h (g d) d).
Proof.
  intros [Hm Hm'] Hk. split.
  - eapply does_ext; [by apply does_bind; [exact Hm|intros a; apply Hk]|done].
  - intros c e c' E0. pose proof (Hm' c) as He. destruct (Hm c) as [_ Hr]. unfold bind in E0.
    destruct (m c) as [[a|x] c1]; [|simplify_eq; eauto].
    injection Hr as _ ->. by eapply Hk.
Qed.

Lemma atomically_map {E A B} (m : SE (Conn Db) E A) f (h : A -> B) :
  atomically m f ->
  atomically (bind m (fun a => ret (h a))) (fun d => let? x := f d in Ok (h (fst x), snd x)).
Proof.
  intros [Hm Hm']. split; [apply (does_bind m f (fun a => ret (h a)) (fun a d => Ok (h a, d)));
    [done|intros; apply does_ret]|].
  intros c e c' E0. pose proof (Hm' c) as He. unfold bind in E0.
  destruct (m c) as [[a|x] c1]; simplify_eq/=. eauto.
Qed.

(** A step that keeps the database and cannot fail for the engine. *)
Lemma atomically_lift {E A} (r : result E A) (w : E -> string) :
  atomically (lift r) (fun d : Db => let? a := map_err w r in Ok (a, d)).
Proof.
  split; [|by intros c e c' [= _ <-]]. intros c. destruct r; split; simpl; eauto.
Qed.

Lemma atomically_ret {E A} (a : A) : atomically (E := E) (ret a) (fun d => Ok (a, d)).
Proof. split; [apply does_ret|done]. Qed.

(** [conn_keeps I m]: wherever [m] stops, [I] still holds. *)
Definition conn_keeps (I : Db -> Prop) {E A} (m : SE (Conn Db) E A) : Prop :=
  forall c, I (db c) -> I (db (snd (m c))).

Lemma conn_keeps_ret I {E A} (a : A) : conn_keeps I (ret (E := E) a).
Proof. by intros c. Qed.
Lemma conn_keeps_throw I {E A} (e : E) : conn_keeps I (throw (A := A) e).
Proof. by intros c. Qed.
Lemma conn_keeps_lift I {E A} (r : result E A) : conn_keeps I (lift r).
Proof. by intros c. Qed.
Lemma conn_keeps_bind I {E A B} (m : SE (Conn Db) E A) (k : A -> SE (Conn Db) E B) :
  conn_keeps I m -> (forall a, conn_keeps I (k a)) -> conn_keeps I (bind m k).
Proof.
  intros Hm Hk c Hc. specialize (Hm c Hc). unfold bind.
  destruct (m c) as [[a|e] c1]; [by apply Hk|done].
Qed.
Lemma conn_keeps_with_err I {E F A} (w : E -> F) (m : SE (Conn Db) E A) : conn_keeps I m -> conn_keeps I (with_err w m).
Proof. intros Hm c Hc. specialize (Hm c Hc). unfold with_err. by destruct (m c). Qed.
Lemma conn_keeps_catch I {E F A} (m : SE (Conn Db) E A) : conn_keeps I m -> conn_keeps I (catch (F := F) m).
Proof. intros Hm c Hc. specialize (Hm c Hc). unfold catch. by destruct (m c). Qed.
Lemma conn_keeps_stmt I {A} (f : Db -> result string (A * Db)) :
  (forall d a d', f d = Ok (a, d') -> I d -> I d') -> conn_keeps I (stmt f).
Proof.
  intros Hf c Hc. unfold stmt. destruct (faults c) as [|[e|] fs]; [|done|];
    destruct (f (db c)) as [[a d']|e'] eqn:E; simpl; eauto.
Qed.

End Sql.

(** [does_auto] takes the body of a transaction statement by statement. *)
Ltac does_auto :=
  repeat first [ apply does_ret | apply does_stmt | eapply does_bind; [|intros ?; cbn beta]
               | progress case_match ].

(** ** Weakest preconditions

    [wp m s Q F]: from [s], [m] ends in [Q] with its value or in [F] with its
    error. *)
Definition wp {S E A} (m : SE S E A) (s : S) (Q : A -> S -> Prop) (F : E -> S -> Prop) : Prop :=
  match m s with (Ok a, s') => Q a s' | (Err e, s') => F e s' end.

Lemma wp_run {S E A} (m : SE S E A) s Q F r s' :
  wp m s Q F -> m s = (r, s') -> match r with Ok a => Q a s' | Err e => F e s' end.
Proof. unfold wp. intros H E0. by rewrite E0 in H. Qed.

Lemma wp_ret {S E A} (a : A) (s : S) (Q : A -> S -> Prop) (F : E -> S -> Prop) : Q a s -> wp (ret a) s Q F.
Proof. done. Qed.

Lemma wp_throw {S E A} (e : E) (s : S) (Q : A -> S -> Prop) (F : E -> S -> Prop) : F e s -> wp (throw e) s Q F.
Proof. done. Qed.

Lemma wp_lift {S E A} (r : result E A) (s : S) Q F :
  (forall a, r = Ok a -> Q a s) -> (forall e, r = Err e -> F e s) -> wp (lift r) s Q F.
Proof. unfold wp, lift. destruct r; auto. Qed.

Lemma wp_bind {S E A B} (m : SE S E A) (k : A -> SE S E B) s Q F :
  wp m s (fun a s' => wp (k a) s' Q F) F -> wp (bind m k) s Q F.
Proof. unfold wp, bind. by destruct (m s) as [[a|e] s']. Qed.

Lemma wp_catch {S E G A} (m : SE S E A) s (Q : result E A -> S -> Prop) (F : G -> S -> Prop) :
  wp m s (fun a => Q (Ok a)) (fun e => Q (Err e)) -> wp (catch m) s Q F.
Proof. unfold wp, catch. by destruct (m s) as [[a|e] s']. Qed.

Lemma wp_with_err {S E G A} (f : E -> G) (m : SE S E A) s Q F :
  wp m s Q (fun e => F (f e)) -> wp (with_err f m) s Q F.
Proof. unfold wp, with_err. by destruct (m s) as [[a|e] s']. Qed.

Lemma wp_mono {S E A} (m : SE S E A) s (Q Q' : A -> S -> Prop) (F F' : E -> S -> Prop) :
  wp m s Q F -> (forall a s', Q a s' -> Q' a s') -> (forall e s', F e s' -> F' e s') -> wp m s Q' F'.
Proof. unfold wp. destruct (m s) as [[a|e] s']; auto. Qed.

(** A statement either does what it says or leaves the database. *)
Lemma wp_stmt {Db A} (f : Db -> result string (A * Db)) (c : Conn Db) Q F :
  (forall e c', db c' = db c -> F e c') ->
  (forall a d, f (db c) = Ok (a, d) -> forall c', db c' = d -> Q a c') ->
  wp (stmt f) c Q F.
Proof.
  intros HF HQ. unfold wp, stmt. destruct (faults c) as [|[e|] fs]; [|by apply HF|];
    (destruct (f (db c)) as [[a d]|e] eqn:Ef; [by eapply HQ|by apply HF]).
Qed.

Lemma wp_execute {Db} (f : Db -> Db) (c : Conn Db) Q F :
  (forall e c', db c' = db c -> F e c') ->
  (forall c', db c' = f (db c) -> Q tt c') ->
  wp (execute f) c Q F.
Proof. intros HF HQ. apply wp_stmt; [done|]. intros a d [= <- <-]. apply HQ. Qed.

Lemma wp_query {Db A} (f : Db -> A) (c : Conn Db) Q F :
  (forall e c', db c' = db c -> F e c') ->
  (forall c', db c' = db c -> Q (f (db c)) c') ->
  wp (query f) c Q F.
Proof. intros HF HQ. apply wp_stmt; [done|]. intros a d [= <- <-]. apply HQ. Qed.
