(* ===== verification/SqliteProps.v ===== *)
(** * The SQLite backend implements the storage contracts

    Every call either fails, for a reason of the engine's, and changes nothing,
    or does what the in-memory backend does: the two are related by [sim].  The
    repository contract is met under any schedule of failures, so every theorem
    about the repository layer holds over this store. *)

From Stdlib Require Import ZArith Lia Ascii.
From S2P Require Import Prelude RustStr Externals Demo StoreTypes Paging MemoryStore MemoryProps Repo RepoDemo.
From S2P Require Import Sql.
From S2P Require Import SqliteStore.
From S2P Require Import SqlProps.
From S2P Require Import Conformance.

(** ** The event log *)

Definition event_seqs (t : Tables) : list Z := map ev_seq (t_repo_seq t).

Lemma max_event_seq_ge (t : Tables) r : In r (t_repo_seq t) -> ev_seq r <= max_event_seq t.
Proof.
  unfold max_event_seq. destruct (t_repo_seq t) as [|r0 l]; [done|].
  assert (forall z, z <= foldr (fun r m => Z.max (ev_seq r) m) z l /\
            forall r, In r l -> ev_seq r <= foldr (fun r m => Z.max (ev_seq r) m) z l) as Hf.
  { intros z. induction l as [|x l IH]; simpl; [split; [lia|done]|].
    split; [lia|]. intros y [->|Hy]; [lia|]. apply IH in Hy. lia. }
  intros [->|Hr]; [apply (proj1 (Hf (ev_seq r)))|by apply (proj2 (Hf (ev_seq r0)))].
Qed.

Lemma max_event_seq_snoc (l : list EventRow) r t :
  t_repo_seq t = l ++ [r] -> (forall x, In x l -> ev_seq x <= ev_seq r) -> max_event_seq t = ev_seq r.
Proof.
  intros E Hl. unfold max_event_seq. rewrite E.
  assert (forall z l', z <= ev_seq r -> (forall x, In x l' -> ev_seq x <= ev_seq r) ->
            foldr (fun r m => Z.max (ev_seq r) m) z (l' ++ [r]) = ev_seq r) as Hf.
  { intros z l' Hz. induction l' as [|y l' IH]; simpl; intros Hy; [lia|].
    rewrite IH; [|by auto]. pose proof (Hy y (or_introl eq_refl)). lia. }
  destruct l as [|x l]; simpl; [done|]. apply Hf; [apply Hl; by left|]. intros y Hy. apply Hl. by right.
Qed.

Lemma merge_sort_ascending (l : list EventRow) : log_ascending (map ev_seq l) -> merge_sort seq_le l = l.
Proof. by apply (merge_sort_keys ev_seq). Qed.

Lemma events_after_ascending n (t : Tables) :
  log_ascending (event_seqs t) ->
  events_after n t = map (fun r => (ev_seq r, ev_event r))
    (List.filter (fun r => (n <? ev_seq r) && (ev_invalidated r =? 0)) (t_repo_seq t)).
Proof. intros Hl. unfold events_after. by rewrite merge_sort_ascending by by apply log_ascending_filter. Qed.

(** ** The relation with the in-memory backend *)

Section Simulation.
Context {Cid : Type} `{Countable Cid} `{!CidLib Cid} `{!CidText Cid} `{!CidTextLaws Cid} `{!SqlScan}.

Lemma cid_to_string_inj (c c' : Cid) : cid_to_string c = cid_to_string c' -> c = c'.
Proof. intros E. pose proof (cid_from_to_string c) as H1. rewrite E, cid_from_to_string in H1. congruence. Qed.

Definition account_row (a : Account) : AccountRow :=
  MkAccountRow (a_handle a) (a_email a) (a_password_phc a) (a_created_at a) (a_deactivated_at a)
    (a_takedown_ref a).
Definition refresh_row_of (x : RefreshTokenRecord * bool) : RefreshTokenRecord * Z :=
  (fst x, if snd x then 1 else 0).
Definition invite_of (i : InviteRow) : Invite := MkInvite (ir_available_uses i) (ir_disabled i =? 1).
Definition log_entry (r : EventRow) : Z * bytes * bool := (ev_seq r, ev_event r, ev_invalidated r =? 0).
Definition log_entry_of (r : SeqRow) : Z * bytes * bool := (seq_no r, event r, negb (invalidated r)).


Record sim (d : SqliteDb) (g : Inner Cid) : Prop := MkSim {
  sim_blocks c : t_blocks (sq_tables d) !! cid_to_string c = blocks g !! c;
  sim_log : map log_entry (t_repo_seq (sq_tables d)) = map log_entry_of (repo_seq g);
  sim_ascending : log_ascending (event_seqs (sq_tables d));
  sim_next : last_seq d = next_seq g;
  sim_roots : t_repo_roots (sq_tables d) = cid_to_string <$> repo_roots g;
  sim_accounts : t_accounts (sq_tables d) = account_row <$> accounts g;
  sim_account_inv : account_inv g;
  sim_invites : invite_of <$> t_invites (sq_tables d) = invites g;
  sim_uses : t_invite_uses (sq_tables d) = invite_uses g;
  sim_keys : t_keys (sq_tables d) = keys g;
  sim_blobs : (fun r => (bl_mime_type r, bl_bytes r)) <$> sq_blobs d = blobs g;
  sim_prefs : t_preferences (sq_tables d) = prefs g;
  sim_par : t_par (sq_tables d) = oauth_par g;
  sim_par_times : map_Forall (fun _ r => in_i64 (spr_expires_at r)) (oauth_par g);
  sim_codes : t_codes (sq_tables d) = oauth_codes g;
  sim_code_times : map_Forall (fun _ c => in_i64 (ac_expires_at c)) (oauth_codes g);
  sim_refresh : t_refresh (sq_tables d) = refresh_row_of <$> oauth_refresh g;
  sim_refresh_times : map_Forall (fun _ x => record_in_i64 (fst x)) (oauth_refresh g);
  sim_jti : t_jti (sq_tables d) = oauth_jti g;
  sim_jti_times : map_Forall (fun _ e => in_i64 e) (oauth_jti g);
}.

(** [m] on the database behaves as [n] in memory. *)
Definition simulates {A} (m : op SqliteStore A) (n : op (Inner Cid) A) : Prop :=
  exists F, atomically m F /\
    forall d g, sim d g ->
      match F d with
      | Ok (a, d') => exists g', n g = (Ok a, g') /\ sim d' g'
      | Err _ => last_seq d < i64_max -> exists e, n g = (Err e, g)
      end.

Lemma simulates_map {A B} (m : op SqliteStore A) (n : op (Inner Cid) A) (h : A -> B) :
  simulates m n -> simulates (bind m (fun a => ret (h a))) (bind n (fun a => ret (h a))).
Proof.
  intros (F & Ha & Hs). eexists. split; [by apply atomically_map|].
  intros d g Hd. specialize (Hs d g Hd). cbn beta. unfold bind. destruct (F d) as [[a d']|e]; simpl.
  - destruct Hs as (g' & -> & ?). by exists g'.
  - intros Hl. destruct (Hs Hl) as [e' ->]. by exists e'.
Qed.

(** A single statement on the writer that cannot fail, as a write in memory. *)
Lemma simulates_write {A} (m : Q SqliteDb A) f (n : op (Inner Cid) A) :
  atomically m (fun d => Ok (f d)) ->
  (forall d g, sim d g -> exists g', n g = (Ok (fst (f d)), g') /\ sim (snd (f d)) g') ->
  simulates (writer_call m) n.
Proof.
  intros Ha Hs. exists (fun d => Ok (f d)). split; [by apply atomically_with_err|].
  intros d g Hd. specialize (Hs d g Hd). by destruct (f d).
Qed.

Lemma simulates_reader {A} (f : SqliteDb -> A) (n : Inner Cid -> A) :
  (forall d g, sim d g -> f d = n g) -> simulates (reader (query f)) (read n).
Proof.
  intros Hf. exists (fun d => Ok (f d, d)). split.
  - unfold reader. eapply atomically_ext; [|intros; reflexivity].
    apply (atomically_read_bind (with_err Pool (execute id)) (fun _ => tt) _ (fun _ d => Ok (f d, d))).
    + apply atomically_with_err. eapply atomically_ext; [apply atomically_stmt|]. done.
    + intros _. apply atomically_with_err, atomically_stmt.
  - intros d g Hd. exists g. unfold read. by rewrite (Hf d g Hd).
Qed.

(** A sim that differs in one table. *)
Lemma as_i64_id z : in_i64 z -> as_i64 z = z.
Proof. unfold in_i64, as_i64. intros. apply i64_wrap_id. unfold i64_max in *. lia. Qed.
Lemma as_u64_id z : in_i64 z -> as_u64 z = z.
Proof. unfold in_i64, as_u64, i64_max. intros. apply u64_wrap_id. unfold u64_mod. lia. Qed.

Lemma par_row_id f r : f (spr_expires_at r) = spr_expires_at r -> par_row f r = r.
Proof. destruct r; unfold par_row; simpl. by intros ->. Qed.
Lemma code_row_id f c : f (ac_expires_at c) = ac_expires_at c -> code_row f c = c.
Proof. destruct c; unfold code_row; simpl. by intros ->. Qed.
Lemma refresh_row_id f r :
  f (rt_issued_at r) = rt_issued_at r -> f (rt_expires_at r) = rt_expires_at r -> refresh_row f r = r.
Proof. destruct r; unfold refresh_row; simpl. by intros -> ->. Qed.

(** [sim_fields Hd] leaves the fields of the new relation that the old one does
    not give. *)
Ltac sim_fields Hd := destruct Hd; constructor; cbn; try done.

(** *** Blocks, roots, the log *)

Lemma sim_or_insert (bm : gmap Cid bytes) (tm : gmap string bytes) c b :
  (forall c, tm !! cid_to_string c = bm !! c) ->
  forall c', or_insert (cid_to_string c) b tm !! cid_to_string c' = or_insert c b bm !! c'.
Proof.
  intros Hm c'. unfold or_insert. rewrite Hm. destruct (bm !! c) eqn:E; [done|].
  destruct (decide (c = c')) as [->|Hne]; [by rewrite !lookup_insert_eq|].
  rewrite !lookup_insert_ne; [done|done|]. intros E'. by apply cid_to_string_inj in E'.
Qed.

Lemma put_block_simulates (c : Cid) b : simulates (sq_put_block c b) (mem_put_block c b).
Proof.
  eapply simulates_write; [apply atomically_stmt|]. intros d g Hd. eexists; split; [done|].
  sim_fields Hd. by apply sim_or_insert.
Qed.

Lemma update_repo_root_simulates did (c : Cid) :
  simulates (sq_update_repo_root did c) (mem_update_repo_root did c).
Proof.
  eapply simulates_write; [apply atomically_stmt|]. intros d g Hd. eexists; split; [done|].
  sim_fields Hd. by rewrite fmap_insert, sim_roots0.
Qed.

Definition insert_block_texts (bs : list (Cid * bytes)) (t : Tables) : Tables :=
  foldl (fun t '(cid, b) => insert_block (cid_to_string cid) b t) t bs.

Lemma does_insert_block_rows (bs : list (Cid * bytes)) :
  does (insert_block_rows bs)
    (fun d => Ok (tt, with_tables (insert_block_texts bs (tables d)) d)).
Proof.
  induction bs as [|[c b] bs IH]; simpl.
  - eapply does_ext; [apply does_ret|]. by intros [].
  - eapply does_ext; [eapply does_bind; [apply does_stmt|intros u; apply IH]|]. done.
Qed.

Definition commit_fn (bs : list (Cid * bytes)) did root ev (d : SqliteDb) : result string (Z * SqliteDb) :=
  let t := insert_block_texts bs (sq_tables d) in
  if last_seq d <? i64_max then
    let seq := i64_add (last_seq d) 1 in
    Ok (seq, MkSqlite (replace_root did (cid_to_string root) (append_event (MkEventRow seq did ev 0) t))
               seq (sq_blobs d))
  else Err "database or disk is full".

Lemma insert_block_texts_other (bs : list (Cid * bytes)) t :
  t_repo_seq (insert_block_texts bs t) = t_repo_seq t /\
  insert_block_texts bs t = put_blocks (t_blocks (insert_block_texts bs t)) t.
Proof.
  revert t. induction bs as [|[c b] bs IH]; intros t; [by destruct t|]. simpl.
  destruct (IH (insert_block (cid_to_string c) b t)) as [H1 H2]. by split.
Qed.

Lemma last_seq_ext d d' :
  t_repo_seq (sq_tables d) = t_repo_seq (sq_tables d') -> sq_sequence d = sq_sequence d' ->
  last_seq d = last_seq d'.
Proof. unfold last_seq, max_event_seq. by intros -> ->. Qed.

Lemma commit_atomic (bs : list (Cid * bytes)) did root ev :
  atomically (sq_commit_blocks bs did root ev) (commit_fn bs did root ev).
Proof.
  apply atomically_with_err. eapply atomically_ext.
  - apply atomically_transaction. eapply does_bind; [apply does_insert_block_rows|]. intros u.
    eapply does_bind; [apply does_stmt|]. intros seq.
    eapply does_bind; [apply does_stmt|]. intros u2. apply does_ret.
  - intros d. unfold commit_fn. cbn -[last_seq].
    destruct (insert_block_texts_other bs (sq_tables d)) as [E _].
    rewrite (last_seq_ext (MkSqlite (insert_block_texts bs (sq_tables d)) (sq_sequence d) (sq_blobs d)) d E eq_refl). by destruct (last_seq d <? i64_max).
Qed.

Lemma insert_block_texts_lookup (bs : list (Cid * bytes)) t (bm : gmap Cid bytes) :
  (forall c, t_blocks t !! cid_to_string c = bm !! c) ->
  forall c, t_blocks (insert_block_texts bs t) !! cid_to_string c = insert_blocks bs bm !! c.
Proof.
  revert t bm. induction bs as [|[c b] bs IH]; intros t bm Hm; [done|]. simpl.
  apply IH. by apply sim_or_insert.
Qed.

Lemma last_seq_snoc t seq d r :
  t_repo_seq t = t_repo_seq (sq_tables d) ++ [r] -> ev_seq r = seq -> last_seq d < seq ->
  forall bl, last_seq (MkSqlite t seq bl) = seq.
Proof.
  intros E Hr Hs bl. unfold last_seq in *. simpl. rewrite (max_event_seq_snoc _ r t E); [lia|].
  intros x Hx. apply max_event_seq_ge in Hx. lia.
Qed.

Lemma last_seq_next d : last_seq d < i64_max -> i64_add (last_seq d) 1 = last_seq d + 1.
Proof. intros Hl. apply i64_wrap_id. unfold last_seq in *. lia. Qed.

(** The tables after a commit numbered [seq]. *)
Definition committed (bs : list (Cid * bytes)) did root ev seq (t : Tables) : Tables :=
  replace_root did (cid_to_string root) (append_event (MkEventRow seq did ev 0) (insert_block_texts bs t)).

Lemma commit_sim (bs : list (Cid * bytes)) did root ev d (g : Inner Cid) :
  sim d g -> last_seq d < i64_max ->
  exists g', mem_commit_blocks bs did root ev g = (Ok (last_seq d + 1), g') /\
    next_seq g' = last_seq d + 1 /\
    sim (MkSqlite (committed bs did root ev (last_seq d + 1) (sq_tables d)) (last_seq d + 1) (sq_blobs d)) g'.
Proof.
  intros Hd Hl. unfold committed.
  pose proof (insert_block_texts_lookup bs _ _ (sim_blocks _ _ Hd)) as Hb.
  destruct (insert_block_texts_other bs (sq_tables d)) as [_ Hrest].
  rewrite Hrest. revert Hb. generalize (t_blocks (insert_block_texts bs (sq_tables d))) as tb.
  intros tb Hb. clear Hrest.
  pose proof (last_seq_next d Hl) as Hn.
  assert (forall x, In x (t_repo_seq (sq_tables d)) -> ev_seq x <= last_seq d) as Hle.
  { intros x Hx%max_event_seq_ge. unfold last_seq. lia. }
  exists (MkInner (insert_blocks bs (blocks g)) (repo_seq g ++ [MkSeqRow (last_seq d + 1) ev false])
            (last_seq d + 1) (<[did := root]> (repo_roots g)) (accounts g) (next_ordinal g) (invites g)
            (invite_uses g) (keys g) (blobs g) (prefs g) (oauth_par g) (oauth_codes g) (oauth_refresh g)
            (oauth_jti g)). split.
  { unfold mem_commit_blocks. cbn -[i64_add last_seq]. by rewrite <- (sim_next _ _ Hd), Hn. }
  split; [done|].
  destruct Hd; constructor; cbn -[last_seq]; try done.
  - by rewrite !map_app, sim_log0.
  - unfold event_seqs. cbn -[last_seq]. rewrite map_app. apply log_ascending_snoc; [done|].
    intros x Hx. apply in_map_iff in Hx as (y & <- & Hy). apply Hle in Hy. cbn -[last_seq]. lia.
  - eapply last_seq_snoc; [done|done|lia].
  - by rewrite fmap_insert, sim_roots0.
Qed.

Lemma commit_blocks_simulates (bs : list (Cid * bytes)) did root ev :
  simulates (sq_commit_blocks bs did root ev) (mem_commit_blocks bs did root ev).
Proof.
  exists (commit_fn bs did root ev). split; [apply commit_atomic|].
  intros d g Hd. unfold commit_fn. destruct (Z.ltb_spec (last_seq d) i64_max) as [Hl|Hl]; [|lia].
  rewrite (last_seq_next d Hl). destruct (commit_sim bs did root ev d g Hd Hl) as (g' & E & _ & Hs).
  by exists g'.
Qed.

(** *** Accounts *)

Lemma rows_by_handle_free h t (g : Inner Cid) :
  t_accounts t = account_row <$> accounts g ->
  rows_by_handle h t = [] <-> existsb (has_handle h) (account_values g) = false.
Proof.
  intros Ht. unfold rows_by_handle. split.
  - intros E. apply not_true_is_false. intros (a & Ha & Hh)%existsb_exists.
    apply account_values_spec in Ha as [d Ha].
    assert (In (d, account_row a) []) as []; rewrite <- E. apply filter_In. split; [|done].
    apply list_elem_of_In, elem_of_map_to_list. by rewrite Ht, lookup_fmap, Ha.
  - intros E. destruct (List.filter _ _) as [|[d r] l] eqn:El; [done|].
    assert (In (d, r) (List.filter (fun x => row_has_handle h x.2) (map_to_list (t_accounts t)))) as Hin
      by (rewrite El; by left).
    apply filter_In in Hin as [Hin Hh]. apply list_elem_of_In, elem_of_map_to_list in Hin.
    rewrite Ht, lookup_fmap in Hin. apply fmap_Some in Hin as (a & Ha & ->).
    change (has_handle h a = true) in Hh. apply has_handle_spec in Hh. destruct (handle_free g h E d a Ha Hh).
Qed.

Definition insert_account_fn did handle email phc now (d : SqliteDb) : result string (unit * SqliteDb) :=
  match t_accounts (sq_tables d) !! did with
  | Some _ => Err "UNIQUE constraint failed: accounts.did"
  | None =>
      match rows_by_handle handle (sq_tables d) with
      | _ :: _ => Err "UNIQUE constraint failed: accounts.handle"
      | [] => Ok (tt, with_tables (put_accounts
                (<[did := MkAccountRow (Some handle) email phc now None None]>
                   (t_accounts (sq_tables d))) (sq_tables d)) d)
      end
  end.

Lemma does_insert_account_row did handle email phc now :
  does (insert_account_row did handle email phc now) (insert_account_fn did handle email phc now).
Proof.
  eapply does_ext; [apply does_stmt|]. intros d. unfold insert_account_fn. cbn.
  by repeat case_match; simplify_eq.
Qed.

Lemma insert_account_sim did handle email phc now d (g : Inner Cid) :
  sim d g ->
  match insert_account_fn did handle email phc now d with
  | Ok (_, d') => exists g', insert_account_locked did handle email phc now g = (Ok tt, g') /\ sim d' g'
  | Err _ => exists e, insert_account_locked did handle email phc now g = (Err e, g)
  end.
Proof.
  intros Hd. unfold insert_account_fn, insert_account_locked.
  pose proof (rows_by_handle_free handle _ _ (sim_accounts _ _ Hd)) as Hf.
  rewrite (sim_accounts _ _ Hd), lookup_fmap. destruct (accounts g !! did) as [a|] eqn:Ha; [by eexists|]. cbn.
  destruct (rows_by_handle handle (sq_tables d)) as [|x l].
  - rewrite (proj1 Hf eq_refl). eexists. split; [done|].
    pose proof (account_inv_insert g did handle email phc now (next_ordinal g)
      (sim_account_inv _ _ Hd) Ha (proj1 Hf eq_refl)) as Hi.
    sim_fields Hd. by rewrite fmap_insert.
  - destruct (existsb _ _) eqn:E; [by eexists|]. by pose proof (proj2 Hf eq_refl).
Qed.

Lemma insert_account_simulates did handle email phc now :
  simulates (sq_insert_account did handle email phc now) (mem_insert_account did handle email phc now).
Proof.
  exists (insert_account_fn did handle email phc now). split.
  - apply atomically_with_err. split; [apply does_insert_account_row|].
    intros c e c'. apply (proj2 (atomically_stmt _)).
  - intros d g Hd. pose proof (insert_account_sim did handle email phc now d g Hd) as Hs.
    destruct (insert_account_fn _ _ _ _ _ d) as [[[] d']|e]; [done|]. by intros _.
Qed.

Lemma count_and_insert_account_simulates did handle email phc now :
  simulates (sq_count_and_insert_account did handle email phc now)
    (mem_count_and_insert_account did handle email phc now).
Proof.
  eexists. split.
  - apply atomically_with_err, atomically_transaction.
    eapply does_bind; [apply does_query|]. intros n.
    eapply does_bind; [apply does_insert_account_row|]. intros u. apply does_ret.
  - intros d g Hd. pose proof (insert_account_sim did handle email phc now d g Hd) as Hs. cbn.
    unfold mem_count_and_insert_account, bind.
    destruct (insert_account_fn did handle email phc now d) as [[[] d']|e]; cbn.
    + destruct Hs as (g' & -> & Hg). exists g'. split; [|done]. cbn. unfold ret.
      by rewrite (sim_accounts _ _ Hd), map_size_fmap.
    + intros _. destruct Hs as [e' ->]. by eexists.
Qed.

Lemma update_account_simulates did (fr : AccountRow -> AccountRow) (f : Account -> Account) :
  (forall a, account_row (f a) = fr (account_row a)) ->
  (forall a, a_did (f a) = a_did a /\ a_handle (f a) = a_handle a) ->
  simulates (update_account did fr) (alter_account f did).
Proof.
  intros Hrow Hf. eexists. split; [apply atomically_with_err, atomically_stmt|].
  intros d g Hd. unfold alter_account, update_key. cbn.
  rewrite (sim_accounts _ _ Hd), lookup_fmap.
  destruct (accounts g !! did) as [a|] eqn:Ha; cbn; eexists; (split; [done|]).
  - destruct (Hf a) as [H1 H2]. pose proof (account_inv_alter g did a (f a) (sim_account_inv _ _ Hd) Ha H1 H2).
    sim_fields Hd. by rewrite fmap_insert, Hrow.
  - by sim_fields Hd.
Qed.

(** *** Invites *)

Lemma insert_invite_simulates code uses for_account :
  simulates (sq_insert_invite code uses for_account) (mem_insert_invite code uses for_account).
Proof.
  eexists. split; [apply atomically_with_err, atomically_stmt|].
  intros d g Hd. unfold mem_insert_invite. cbn. rewrite <- (sim_invites _ _ Hd), lookup_fmap.
  destruct (t_invites (sq_tables d) !! code) as [i|]; cbn; [by eexists|].
  eexists. split; [done|]. sim_fields Hd. by rewrite fmap_insert, sim_invites0.
Qed.

Definition consume_invite_fn code used_by (row : option InviteRow) (d : SqliteDb)
    : result string ((bool * bool) * SqliteDb) :=
  match row with
  | None => Ok (false, false, d)
  | Some i =>
      if ir_disabled i =? 1 then Ok (false, false, d)
      else if ir_available_uses i <=? 0 then Ok (false, false, d)
      else if decide ((code, used_by) ∈ t_invite_uses (sq_tables d)) then Ok (false, false, d)
      else Ok (true, true, with_tables (put_invites (snd (update_key code
             (fun i => MkInviteRow (ir_available_uses i - 1) (ir_disabled i) (ir_for_account i))
             (t_invites (sq_tables d))))
             (put_invite_uses ({[ (code, used_by) ]} ∪ t_invite_uses (sq_tables d)) (sq_tables d))) d)
  end.

Lemma does_if {E A} (b : bool) (m n : SE (Conn SqliteDb) E A) f g :
  does m f -> does n g -> does (if b then m else n) (fun d => if b then f d else g d).
Proof. by destruct b. Qed.

Lemma consume_invite_simulates code used_by :
  simulates (sq_consume_invite code used_by) (mem_consume_invite code used_by).
Proof.
  exists (fun d => let? x := consume_invite_fn code used_by (t_invites (sq_tables d) !! code) d in
                   Ok (snd (fst x), if fst (fst x) then snd x else d)). split.
  - apply atomically_with_err. eapply atomically_ext.
    + apply atomically_transaction. eapply (does_bind _ _ _ (consume_invite_fn code used_by)).
      { apply does_query. }
      intros [i|]; [|apply does_ret]. eapply does_ext.
      * apply does_if; [apply does_ret|]. apply does_if; [apply does_ret|].
        apply does_if; [apply does_ret|]. eapply does_bind; [apply does_query|]. intros used.
        apply does_if; [apply does_ret|]. eapply does_bind; [apply does_stmt|]. intros ins.
        apply does_if; [apply does_ret|]. eapply does_bind; [apply does_execute|]. intros u.
        apply does_ret.
      * intros d. cbn. unfold consume_invite_fn. destruct (ir_disabled i =? 1); [done|].
        destruct (Z.eqb_spec (ir_available_uses i) 0) as [E|E]; [by rewrite E|].
        destruct (ir_available_uses i <=? 0); [done|]. by destruct (decide _) as [?|?] eqn:Ed; cbn; rewrite ?Ed.
    + done.
  - intros d g Hd. unfold mem_consume_invite. rewrite <- (sim_invites _ _ Hd), lookup_fmap.
    destruct (t_invites (sq_tables d) !! code) as [i|] eqn:Ei; cbn; [|by exists g].
    destruct (ir_disabled i =? 1) eqn:Eb; cbn; [by exists g|].
    destruct (ir_available_uses i <=? 0); cbn; [by exists g|]. rewrite <- (sim_uses _ _ Hd).
    destruct (decide _); cbn; [by exists g|]. eexists. split; [done|].
    unfold update_key. rewrite Ei. sim_fields Hd.
    rewrite fmap_insert, ?sim_invites0. unfold invite_of. cbn. by rewrite Eb.
Qed.

Lemma upsert_preferences_simulates did prefs_json :
  simulates (sq_upsert_preferences did prefs_json) (mem_upsert_preferences did prefs_json).
Proof.
  eapply simulates_write; [apply atomically_stmt|]. intros d g Hd. eexists; split; [done|].
  sim_fields Hd. by rewrite sim_prefs0.
Qed.

Lemma put_key_blob_simulates id b : simulates (sq_put_key_blob id b) (mem_put_key_blob id b).
Proof.
  eapply simulates_write; [apply atomically_stmt|]. intros d g Hd. eexists; split; [done|].
  sim_fields Hd. by rewrite sim_keys0.
Qed.

Lemma put_blob_simulates did cid mime size b :
  simulates (sq_put_blob did cid mime size b) (mem_put_blob did cid mime size b).
Proof.
  eapply simulates_write; [apply atomically_stmt|]. intros d g Hd. eexists; split; [done|].
  sim_fields Hd. by rewrite fmap_insert, sim_blobs0.
Qed.

(** *** OAuth *)

Lemma put_pushed_request_simulates r :
  in_i64 (spr_expires_at r) -> simulates (sq_put_pushed_request r) (mem_put_pushed_request r).
Proof.
  intros Hr. eapply simulates_write; [apply atomically_stmt|]. intros d g Hd. eexists; split; [done|].
  sim_fields Hd; [|by apply map_Forall_insert_2].
  rewrite par_row_id by by apply as_i64_id. by rewrite sim_par0.
Qed.

Lemma delete_pushed_request_simulates h :
  simulates (sq_delete_pushed_request h) (mem_delete_pushed_request h).
Proof.
  eapply simulates_write; [apply atomically_stmt|]. intros d g Hd. eexists; split; [done|].
  sim_fields Hd; [by rewrite sim_par0|by apply map_Forall_delete].
Qed.

Lemma put_auth_code_simulates c :
  in_i64 (ac_expires_at c) -> simulates (sq_put_auth_code c) (mem_put_auth_code c).
Proof.
  intros Hc. eapply simulates_write; [apply atomically_stmt|]. intros d g Hd. eexists; split; [done|].
  sim_fields Hd; [|by apply map_Forall_insert_2].
  rewrite code_row_id by by apply as_i64_id. by rewrite sim_codes0.
Qed.

Lemma consume_auth_code_simulates h now :
  in_i64 now -> simulates (sq_consume_auth_code h now) (mem_consume_auth_code h now).
Proof.
  intros Hn. eexists. split.
  - apply atomically_with_err, atomically_transaction.
    eapply does_bind; [apply does_query|]. intros row.
    eapply does_bind; [apply does_execute|]. intros u. apply does_ret.
  - intros d g Hd. cbn. eexists. split.
    + unfold mem_consume_auth_code, select_code. rewrite (as_i64_id now Hn), (sim_codes _ _ Hd).
      destruct (oauth_codes g !! h) as [c|] eqn:E; cbn; [|done].
      rewrite code_row_id; [done|]. apply as_u64_id. by apply (sim_code_times _ _ Hd h).
    + sim_fields Hd; [by rewrite sim_codes0|by apply map_Forall_delete].
Qed.

Lemma put_refresh_token_simulates r :
  record_in_i64 r -> simulates (sq_put_refresh_token r) (mem_put_refresh_token r).
Proof.
  intros Hr. eapply simulates_write; [apply atomically_stmt|]. intros d g Hd. eexists; split; [done|].
  sim_fields Hd; [|by apply map_Forall_insert_2].
  destruct Hr. rewrite refresh_row_id by by apply as_i64_id. by rewrite fmap_insert, sim_refresh0.
Qed.

Definition consume_refresh_fn h (row : option (RefreshTokenRecord * Z)) (d : SqliteDb)
    : result string ((bool * ConsumeResult) * SqliteDb) :=
  match row with
  | None => Ok (true, NotFound, d)
  | Some (rec, used) =>
      if negb (used =? 0) then Ok (true, Reused (rt_session_id rec), d)
      else Ok (true, Consumed rec, with_tables (mark_refresh_used h (sq_tables d)) d)
  end.

Lemma consume_refresh_token_simulates h now :
  in_i64 now -> simulates (sq_consume_refresh_token h now) (mem_consume_refresh_token h now).
Proof.
  intros Hn. eexists. split.
  - apply atomically_with_err, atomically_transaction.
    eapply (does_bind _ _ _ (consume_refresh_fn h)); [apply does_query|].
    intros [[rec used]|]; cbn; [|apply does_ret]. apply does_if; [apply does_ret|].
    eapply does_ext; [eapply does_bind; [apply does_execute|]; intros u; apply does_ret|done].
  - intros d g Hd. cbn. unfold select_refresh, mem_consume_refresh_token, consume_refresh_fn.
    rewrite (as_i64_id now Hn), (sim_refresh _ _ Hd), lookup_fmap.
    destruct (oauth_refresh g !! h) as [[r u]|] eqn:E; cbn; [|by exists g].
    destruct (sim_refresh_times _ _ Hd h _ E) as [H1 H2]. rewrite Z.leb_antisym.
    destruct (now <? rt_expires_at r); cbn; [|by exists g].
    rewrite refresh_row_id by by apply as_u64_id.
    destruct u; cbn; [by exists g|]. eexists. split; [done|].
    sim_fields Hd.
    + unfold update_key. rewrite sim_refresh0, lookup_fmap, E. cbn. by rewrite fmap_insert.
    + apply map_Forall_insert_2; [|done]. by split.
Qed.

Lemma filter_fmap_refresh sid (m : gmap string (RefreshTokenRecord * bool)) :
  filter (fun kv => of_session sid (snd kv) = false) (refresh_row_of <$> m) =
  refresh_row_of <$> drop_session sid m.
Proof.
  unfold drop_session. rewrite map_filter_fmap. f_equal. apply map_filter_ext. intros k [r u] _.
  unfold of_session, in_session. cbn. destruct (String.eqb_spec (rt_session_id r) sid); naive_solver.
Qed.

Lemma delete_session_sim sid d (g : Inner Cid) :
  sim d g ->
  sim (with_tables (snd (delete_session sid (sq_tables d))) d) (retain_refresh sid g) /\
  fst (delete_session sid (sq_tables d)) =
    Z.of_nat (size (oauth_refresh g)) - Z.of_nat (size (drop_session sid (oauth_refresh g))).
Proof.
  intros Hd. unfold delete_session, delete_where. cbn.
  rewrite (sim_refresh _ _ Hd), filter_fmap_refresh, !map_size_fmap. split; [|done].
  sim_fields Hd. intros k x [Hx _]%map_lookup_filter_Some. by apply (sim_refresh_times0 k).
Qed.

Definition delete_session_fn sid (d : SqliteDb) : Z * SqliteDb :=
  (fst (delete_session sid (sq_tables d)), with_tables (snd (delete_session sid (sq_tables d))) d).

Lemma atomically_delete_session sid :
  atomically (s_tables (fun t => Ok (delete_session sid t))) (fun d => Ok (delete_session_fn sid d)).
Proof. eapply atomically_ext; [apply atomically_stmt|done]. Qed.

Lemma revoke_session_simulates sid : simulates (sq_revoke_session sid) (mem_revoke_session sid).
Proof.
  eapply simulates_write; [apply atomically_delete_session|]. intros d g Hd.
  destruct (delete_session_sim sid d g Hd) as [Hs Hn]. eexists. split; [|exact Hs].
  unfold mem_revoke_session, delete_session_fn. by rewrite Hn.
Qed.

Lemma revoke_refresh_token_simulates h :
  simulates (sq_revoke_refresh_token h) (mem_revoke_refresh_token h).
Proof.
  eexists. split.
  - apply atomically_with_err, atomically_transaction.
    eapply (does_bind _ _ _ (fun row d =>
      match row with
      | None => Ok (true, false, d)
      | Some sid => Ok (true, true, snd (delete_session_fn sid d))
      end)); [apply does_query|].
    intros [sid|]; cbn; [|apply does_ret].
    eapply does_ext; [eapply does_bind; [apply atomically_delete_session|]; intros n; apply does_ret|done].
  - intros d g Hd. unfold mem_revoke_refresh_token. cbn -[delete_session_fn].
    rewrite (sim_refresh _ _ Hd), lookup_fmap.
    destruct (oauth_refresh g !! h) as [[r u]|]; cbn -[delete_session_fn]; eexists; (split; [done|]); [|done].
    apply delete_session_sim, Hd.
Qed.

Lemma record_dpop_jti_simulates j e :
  in_i64 e -> simulates (sq_record_dpop_jti j e) (mem_record_dpop_jti j e).
Proof.
  intros He. eexists. split.
  - eapply (atomically_map _ _ (fun n => 0 <? n)). apply atomically_with_err, atomically_stmt.
  - intros d g Hd. unfold mem_record_dpop_jti. cbn. rewrite (sim_jti _ _ Hd).
    destruct (oauth_jti g !! j); cbn; eexists; (split; [done|]); [by destruct Hd; constructor|].
    sim_fields Hd; [by rewrite as_i64_id|by apply map_Forall_insert_2].
Qed.

(** *** Purging *)

Lemma filter_keep_live {V} (exp : V -> Z) now (m : gmap string V) :
  filter (fun kv => (exp (snd kv) <=? now) = false) m = filter (fun kv => now < exp (snd kv)) m.
Proof. apply map_filter_ext. intros k v _. simpl. rewrite Z.leb_gt. done. Qed.

Lemma map_Forall_filter_keep {V} (P : string -> V -> Prop) (Q : string * V -> Prop)
    `{!forall x, Decision (Q x)} (m : gmap string V) :
  map_Forall P m -> map_Forall P (filter Q m).
Proof. intros Hm k x [Hx _]%map_lookup_filter_Some. by apply Hm. Qed.

Lemma filter_live_refresh now (m : gmap string (RefreshTokenRecord * bool)) :
  filter (fun kv => (rt_expires_at (fst (snd kv)) <=? now) = false) (refresh_row_of <$> m) =
  refresh_row_of <$> filter (fun kv => now < rt_expires_at (fst (snd kv))) m.
Proof.
  rewrite map_filter_fmap. f_equal. apply map_filter_ext. intros k [r u] _. cbn. rewrite Z.leb_gt. done.
Qed.

Definition purge_fn now (d : SqliteDb) : Z * SqliteDb :=
  let '(n1, t) := purge_par now (sq_tables d) in
  let '(n2, t) := purge_codes now t in
  let '(n3, t) := purge_refresh now t in
  let '(n4, t) := purge_jti now t in
  (n1 + n2 + n3 + n4, with_tables t d).

Lemma atomically_purge now :
  atomically (sq_purge_expired now) (fun d => Ok (purge_fn (as_i64 now) d)).
Proof.
  eapply atomically_ext.
  - apply atomically_with_err, atomically_transaction.
    eapply does_bind; [apply does_stmt|]. intros n1.
    eapply does_bind; [apply does_stmt|]. intros n2.
    eapply does_bind; [apply does_stmt|]. intros n3.
    eapply does_bind; [apply does_stmt|]. intros n4. apply does_ret.
  - intros d. done.
Qed.

Lemma purge_expired_simulates now :
  in_i64 now -> simulates (sq_purge_expired now) (mem_purge_expired now).
Proof.
  intros Hn. eexists. split; [apply atomically_purge|]. intros d g Hd.
  rewrite (as_i64_id now Hn). unfold purge_fn, purge_par, purge_codes, purge_refresh, purge_jti, delete_where.
  cbn. rewrite (sim_par _ _ Hd), (sim_codes _ _ Hd), (sim_refresh _ _ Hd), (sim_jti _ _ Hd).
  rewrite filter_live_refresh, !filter_keep_live, !map_size_fmap.
  rewrite (filter_keep_live (fun e => e)).
  eexists. split.
  - unfold mem_purge_expired, oauth_rows. cbn. f_equal. f_equal. lia.
  - sim_fields Hd; by apply map_Forall_filter_keep.
Qed.

(** *** Reads *)

Lemma reader_atomic {A} (f : SqliteDb -> A) : atomically (reader (query f)) (fun d => Ok (f d, d)).
Proof.
  unfold reader.
  apply (atomically_read_bind (with_err Pool (execute id)) (fun _ => tt) _ (fun _ d => Ok (f d, d))).
  - apply atomically_with_err. eapply atomically_ext; [apply atomically_stmt|done].
  - intros _. apply atomically_with_err, atomically_stmt.
Qed.

Lemma read_block_bytes_simulates (c : Cid) : simulates (sq_read_block_bytes c) (mem_read_block_bytes c).
Proof.
  eexists. split.
  - eapply atomically_read_bind; [apply reader_atomic|]. intros b.
    apply (atomically_lift _ StorageError_to_string).
  - intros d g Hd. unfold mem_read_block_bytes. cbn. rewrite (sim_blocks _ _ Hd).
    destruct (blocks g !! c); cbn; [by exists g|]. intros _. by eexists.
Qed.

Definition root_fn (row : option string) (d : SqliteDb) : result string (option Cid * SqliteDb) :=
  match row with
  | None => Ok (None, d)
  | Some t => let? c := cid_from_str t in Ok (Some c, d)
  end.

Lemma root_fn_atomic row :
  atomically
    match row with
    | None => ret None
    | Some t =>
        (let! cid := lift (map_err (fun e => Crypto ("bad root cid: " +:+ e)) (cid_from_str t)) in
         ret (Some cid))%se
    end (root_fn row).
Proof.
  destruct row as [t|]; [|apply atomically_ret]. unfold root_fn. split.
  - intros c. unfold bind, lift, map_err. destruct (cid_from_str t); split; simpl; eauto.
  - intros c e c'. unfold bind, lift, map_err. destruct (cid_from_str t); intros [= _ <-]; done.
Qed.

Lemma load_repo_root_simulates did :
  simulates (sq_load_repo_root (Cid := Cid) did) (mem_load_repo_root did).
Proof.
  eexists. split.
  - eapply atomically_read_bind; [apply atomically_with_err, atomically_stmt|].
    intros row. apply root_fn_atomic.
  - intros d g Hd. cbn. unfold root_fn, mem_load_repo_root, read. rewrite (sim_roots _ _ Hd), lookup_fmap.
    destruct (repo_roots g !! did) as [c|]; cbn; [|by exists g].
    rewrite cid_from_to_string. cbn. by exists g.
Qed.

(** The log's rows, read through the relation. *)
Lemma log_seqs_eq d (g : Inner Cid) : sim d g -> event_seqs (sq_tables d) = map seq_no (repo_seq g).
Proof.
  intros Hd. unfold event_seqs. pose proof (f_equal (map (fun x => fst (fst x))) (sim_log _ _ Hd)) as E.
  by rewrite !map_map in E.
Qed.

Lemma ascending_last l : log_ascending l -> forall z, In z l -> z <= default 0 (last l).
Proof.
  intros Hl z Hz. destruct l as [|y l _] using rev_ind; [done|]. rewrite last_snoc. simpl.
  apply in_app_iff in Hz as [Hz|[->|[]]]; [|lia].
  apply Z.lt_le_incl, (StronglySorted_app_1_elem_of _ _ _ _ _ Hl); [by apply list_elem_of_In|left].
Qed.

Lemma max_event_seq_last t :
  log_ascending (event_seqs t) -> max_event_seq t = default 0 (last (event_seqs t)).
Proof.
  unfold event_seqs. destruct (t_repo_seq t) as [|r l _] eqn:E using rev_ind.
  { intros _. unfold max_event_seq. by rewrite E. }
  intros Hl. rewrite (max_event_seq_snoc l r t E); [by rewrite map_app; simpl; rewrite last_snoc|].
  intros x Hx. pose proof (ascending_last _ Hl (ev_seq x)) as Hz.
  rewrite map_app in Hz. simpl in Hz. rewrite last_snoc in Hz. apply Hz, in_app_iff. left. by apply in_map.
Qed.

Lemma max_seq_simulates : simulates sq_max_seq (mem_max_seq (Cid := Cid)).
Proof.
  apply simulates_reader. intros d g Hd. cbn.
  rewrite (max_event_seq_last _ (sim_ascending _ _ Hd)), (log_seqs_eq d g Hd).
  assert (last (map seq_no (repo_seq g)) = option_map seq_no (last (repo_seq g))) as ->
    by apply (fmap_last seq_no).
  by destruct (last (repo_seq g)).
Qed.

Lemma log_page after_seq (l : list EventRow) (l' : list SeqRow) :
  map log_entry l = map log_entry_of l' ->
  map (fun r => (ev_seq r, ev_event r))
    (List.filter (fun r => (after_seq <? ev_seq r) && (ev_invalidated r =? 0)) l) =
  map (fun r => (seq_no r, event r)) (List.filter (in_page after_seq) l').
Proof.
  revert l'. induction l as [|r l IH]; intros [|x l']; cbn; try done.
  intros [= Hs He Hi E]. unfold in_page. rewrite Hs, Hi.
  destruct (_ && _); cbn; [rewrite Hs, He; f_equal|]; by apply IH.
Qed.

(** [ORDER BY ... LIMIT] reads the page the in-memory store slices; only for a
    [limit] that is not negative, which SQL takes as no limit at all. *)
Lemma backfill_page_simulates after_seq limit :
  0 <= limit ->
  simulates (sq_backfill_page after_seq limit) (mem_backfill_page (Cid := Cid) after_seq limit).
Proof.
  intros Hl. apply simulates_reader. intros d g Hd. cbn. unfold sql_limit.
  rewrite (events_after_ascending _ _ (sim_ascending _ _ Hd)).
  destruct (Z.ltb_spec limit 0); [lia|]. rewrite Z.max_l by done. rewrite <- firstn_map. f_equal.
  apply log_page, Hd.
Qed.

(** A look-up by handle: the row SQL finds is the one memory finds. *)
Lemma visible_by_handle_sim h d (g : Inner Cid) :
  sim d g ->
  visible_by_handle h (sq_tables d) = (fun a => (a_did a, account_row a)) <$> active_by_handle h g.
Proof.
  intros Hd. pose proof (sim_account_inv _ _ Hd) as Hi. unfold visible_by_handle, rows_by_handle.
  set (rows := List.filter _ (List.filter _ _)).
  assert (forall x, In x rows <-> exists a, x = (a_did a, account_row a) /\ active_by_handle h g = Some a) as Hin.
  { intros [k r]. unfold rows. rewrite !filter_In, <- list_elem_of_In, elem_of_map_to_list.
    rewrite (sim_accounts _ _ Hd), lookup_fmap, fmap_Some. split.
    - intros [[(a & Ha & ->) Hh] Hv]. exists a. pose proof (proj1 Hi _ _ Ha) as <-. split; [done|].
      apply active_by_handle_Some; [done|]. split; [done|]. split; [by apply has_handle_spec|done].
    - intros (a & [= -> ->] & Ha). apply active_by_handle_Some in Ha as (Ha & Hh & Hv); [|done].
      split; [split|done]; [by exists a|by apply has_handle_spec]. }
  destruct rows as [|x l]; simpl.
  - destruct (active_by_handle h g) as [a|]; [|done]. destruct (proj2 (Hin (a_did a, account_row a))). eauto.
  - destruct (proj1 (Hin x) (or_introl eq_refl)) as (a & -> & ->). done.
Qed.

Lemma get_account_by_handle_simulates h :
  simulates (sq_get_account_by_handle h) (mem_get_account_by_handle (Cid := Cid) h).
Proof.
  apply simulates_reader. intros d g Hd. cbn. rewrite (visible_by_handle_sim h d g Hd).
  by destruct (active_by_handle h g).
Qed.

Lemma get_did_by_handle_simulates h :
  simulates (sq_get_did_by_handle h) (mem_get_did_by_handle (Cid := Cid) h).
Proof.
  apply simulates_reader. intros d g Hd. cbn. rewrite (visible_by_handle_sim h d g Hd).
  by destruct (active_by_handle h g).
Qed.

Lemma get_handle_by_did_simulates did :
  simulates (sq_get_handle_by_did did) (mem_get_handle_by_did (Cid := Cid) did).
Proof.
  apply simulates_reader. intros d g Hd. cbn. unfold active.
  rewrite (sim_accounts _ _ Hd), lookup_fmap. destruct (accounts g !! did) as [a|]; cbn; [|done].
  unfold visible_row. cbn. fold (account_visible a). by destruct (account_visible a).
Qed.

Lemma count_accounts_simulates : simulates sq_count_accounts (mem_count_accounts (Cid := Cid)).
Proof.
  apply simulates_reader. intros d g Hd. cbn. by rewrite (sim_accounts _ _ Hd), map_size_fmap.
Qed.

Lemma get_preferences_simulates did :
  simulates (sq_get_preferences did) (mem_get_preferences (Cid := Cid) did).
Proof. apply simulates_reader. intros d g Hd. cbn. by rewrite (sim_prefs _ _ Hd). Qed.

Lemma get_key_blob_simulates id : simulates (sq_get_key_blob id) (mem_get_key_blob (Cid := Cid) id).
Proof. apply simulates_reader. intros d g Hd. cbn. by rewrite (sim_keys _ _ Hd). Qed.

Lemma get_blob_simulates did cid : simulates (sq_get_blob did cid) (mem_get_blob (Cid := Cid) did cid).
Proof.
  apply simulates_reader. intros d g Hd. cbn. by rewrite <- (sim_blobs _ _ Hd), lookup_fmap.
Qed.

Lemma get_pushed_request_simulates h now :
  in_i64 now -> simulates (sq_get_pushed_request h now) (mem_get_pushed_request (Cid := Cid) h now).
Proof.
  intros Hn. apply simulates_reader. intros d g Hd. cbn. unfold select_par.
  rewrite (as_i64_id now Hn), (sim_par _ _ Hd). destruct (oauth_par g !! h) as [r|] eqn:E; cbn; [|done].
  rewrite par_row_id; [done|]. apply as_u64_id. by apply (sim_par_times _ _ Hd h).
Qed.

Lemma filter_list_perm {A} (p : A -> bool) (l l' : list A) :
  l ≡ₚ l' -> List.filter p l ≡ₚ List.filter p l'.
Proof.
  induction 1 as [|x l l' _ IH|x y l|l1 l2 l3 _ IH1 _ IH2]; simpl; [done| | |by etrans].
  - destruct (p x); [by constructor|done].
  - destruct (p x), (p y); try done. constructor.
Qed.

Lemma filter_sorted (p : string -> bool) l :
  StronglySorted String.le l -> StronglySorted String.le (List.filter p l).
Proof.
  induction 1 as [|x l Hl IH Hx]; simpl; [constructor|]. destruct (p x); [|done].
  constructor; [done|]. apply Forall_forall. intros y Hy.
  apply list_elem_of_In, filter_In in Hy as [Hy _]. rewrite Forall_forall in Hx.
  by apply Hx, list_elem_of_In.
Qed.

Lemma cids_of_sim did d (g : Inner Cid) : sim d g -> cids_of did d ≡ₚ blob_cids did g.
Proof.
  intros Hd. unfold cids_of, blob_cids. rewrite <- (sim_blobs _ _ Hd). apply Permutation_map, filter_list_perm.
  rewrite map_to_list_fmap, <- list_fmap_compose. done.
Qed.

Lemma list_blobs_simulates did limit cursor :
  in_i64 limit -> simulates (sq_list_blobs did limit cursor) (mem_list_blobs (Cid := Cid) did limit cursor).
Proof.
  intros Hl. apply simulates_reader. intros d g Hd. cbn. unfold sql_limit.
  rewrite (as_i64_id limit Hl). unfold in_i64 in Hl. destruct (Z.ltb_spec limit 0); [lia|]. f_equal.
  apply (StronglySorted_unique String.le).
  - apply (StronglySorted_merge_sort String.le).
  - apply filter_sorted, (StronglySorted_merge_sort String.le).
  - rewrite merge_sort_Permutation. apply filter_list_perm. rewrite merge_sort_Permutation.
    by apply cids_of_sim.
Qed.

(** ** Conformance *)

Lemma perform_simulates (c : store_call Cid) :
  call_in_range c -> simulates (perform (St := SqliteStore) c) (perform (St := Inner Cid) c).
Proof.
  intros Hc. destruct c as [[]|[]]; simpl in Hc |- *; apply simulates_map; simpl;
    eauto using put_block_simulates, update_repo_root_simulates, commit_blocks_simulates,
      insert_account_simulates, count_and_insert_account_simulates, insert_invite_simulates,
      consume_invite_simulates, upsert_preferences_simulates, put_key_blob_simulates, put_blob_simulates,
      put_pushed_request_simulates, delete_pushed_request_simulates, put_auth_code_simulates,
      consume_auth_code_simulates, put_refresh_token_simulates, consume_refresh_token_simulates,
      revoke_session_simulates, revoke_refresh_token_simulates, record_dpop_jti_simulates,
      purge_expired_simulates, read_block_bytes_simulates, max_seq_simulates, backfill_page_simulates,
      load_repo_root_simulates, count_accounts_simulates, get_account_by_handle_simulates,
      get_did_by_handle_simulates, get_handle_by_did_simulates, get_preferences_simulates,
      get_key_blob_simulates, get_blob_simulates, list_blobs_simulates, get_pushed_request_simulates;
    by apply update_account_simulates.
Qed.

Lemma sim_empty : sim SqliteDb_empty Inner_default.
Proof.
  constructor; try done; try (by intros; rewrite !lookup_empty); try constructor.
  all: try (intros ?? E; by apply lookup_empty_Some in E).
Qed.

Lemma run_calls_simulates (cs : list (store_call Cid)) fs d (g : Inner Cid) :
  Forall call_in_range cs -> sim d g ->
  let '(l, s) := run_calls (St := SqliteStore) cs (MkConn d fs) in
  exists g', run_calls (map fst (succeeded l)) g = (map (fun x => (fst x, Ok (snd x))) (succeeded l), g') /\
    sim (db s) g'.
Proof.
  intros Hcs. revert fs d g. induction Hcs as [|c cs Hc _ IH]; intros fs d g Hd; [by exists g|]. simpl.
  destruct (perform_simulates c Hc) as (F & [Hdoes Hat] & Hs). specialize (Hs d g Hd).
  destruct (Hdoes (MkConn d fs)) as [_ Hr]. specialize (Hat (MkConn d fs)).
  destruct (perform (St := SqliteStore) c (MkConn d fs)) as [[o|e] [d1 fs1]]; simpl in *.
  - rewrite Hr in Hs. destruct Hs as (g1 & E & Hg1). specialize (IH fs1 d1 g1 Hg1).
    destruct (run_calls (St := SqliteStore) cs (MkConn d1 fs1)) as [l s2]. destruct IH as (g2 & E2 & Hg2).
    exists g2. split; [|done].
    change (succeeded ((c, Ok o) :: l)) with ((c, o) :: succeeded l). simpl. by rewrite E, E2.
  - pose proof (Hat e _ eq_refl) as E. simpl in E. subst d1. specialize (IH fs1 d g Hd).
    by destruct (run_calls (St := SqliteStore) cs (MkConn d fs1)) as [l s2].
Qed.

(** What a run shows a caller: which calls failed, and what the others said. *)
Definition seen (x : store_call Cid * result StorageError (outcome Cid)) : option (outcome Cid) := res_opt (snd x).

Lemma giving_state {St A} (f : A -> outcome Cid) (m : op St A) s : snd (giving f m s) = snd (m s).
Proof. unfold giving, bind, ret. by destruct (m s) as [[]]. Qed.

Lemma perform_log_inv (c : store_call Cid) n (g : Inner Cid) :
  log_inv n g -> Z.of_nat n < i64_max ->
  exists n', (n' <= S n)%nat /\ log_inv n' (snd (perform (St := Inner Cid) c g)).
Proof.
  intros Hg Hn. destruct c as [c|q].
  - assert (snd (perform (St := Inner Cid) (Change c) g) = exec c g) as ->
      by (destruct c; unfold perform, change, exec; by rewrite giving_state).
    exists (if is_commit c then S n else n). split; [destruct (is_commit c); lia|]. by apply exec_log_inv.
  - exists n. split; [lia|]. destruct q; unfold perform, ask; by rewrite giving_state.
Qed.

Lemma sound_run_agrees (cs : list (store_call Cid)) n d (g : Inner Cid) :
  Forall call_in_range cs -> sim d g -> log_inv n g -> Z.of_nat (n + length cs) <= i64_max ->
  map seen (fst (run_calls (St := SqliteStore) cs (MkConn d []))) =
  map seen (fst (run_calls (St := Inner Cid) cs g)).
Proof.
  intros Hcs. revert n d g. induction Hcs as [|c cs Hc _ IH]; intros n d g Hd Hg Hn; [done|].
  cbn [run_calls length] in *.
  destruct (perform_simulates c Hc) as (F & [Hdoes Hat] & Hs). specialize (Hs d g Hd).
  destruct (Hdoes (MkConn d [])) as [Hsound Hr]. specialize (Hat (MkConn d [])).
  destruct (perform_log_inv c n g Hg) as (n' & Hn' & Hg'); [lia|].
  destruct (perform (St := SqliteStore) c (MkConn d [])) as [[o|e] [d1 fs1]].
  - specialize (Hsound eq_refl). unfold sound_conn in Hsound. simpl in Hsound, Hr. subst fs1. rewrite Hr in Hs.
    destruct Hs as (g1 & E & Hd1). rewrite E in Hg' |- *. specialize (IH n' d1 g1 Hd1 Hg' ltac:(lia)).
    simpl.
    destruct (run_calls (St := SqliteStore) cs (MkConn d1 [])), (run_calls cs g1). simpl in *. by rewrite IH.
  - specialize (Hsound eq_refl). unfold sound_conn in Hsound. simpl in Hsound. subst fs1.
    pose proof (Hat e _ eq_refl) as E. simpl in E. subst d1.
    destruct (Hr eq_refl) as [e' E]. simpl in E. rewrite E in Hs.
    assert (last_seq d < i64_max) as Hl by (rewrite (sim_next _ _ Hd), (proj2 Hg); lia).
    destruct (Hs Hl) as [e2 E2]. rewrite E2 in Hg' |- *. specialize (IH n' d g Hd Hg' ltac:(lia)).
    simpl.
    destruct (run_calls (St := SqliteStore) cs (MkConn d [])), (run_calls cs g). simpl in *. by rewrite IH.
Qed.

(** ** The repository contract *)

Definition block_entry (x : string * bytes) : option (Cid * bytes) :=
  match cid_from_str (fst x) with
  | Ok c => if decide (cid_to_string c = fst x) then Some (c, snd x) else None
  | Err _ => None
  end.
Definition blocks_view (m : gmap string bytes) : gmap Cid bytes :=
  list_to_map (omap block_entry (map_to_list m)).

Lemma blocks_view_lookup m (c : Cid) : blocks_view m !! c = m !! cid_to_string c.
Proof.
  assert (forall x, x ∈ omap block_entry (map_to_list m) <-> m !! cid_to_string (fst x) = Some (snd x)) as Hin.
  { intros [k v]. rewrite list_elem_of_omap. split.
    - intros ([t b] & Ht & E). apply elem_of_map_to_list in Ht. unfold block_entry in E. cbn in E.
      destruct (cid_from_str t) as [c'|]; [|done]. case_decide; simplify_eq/=. done.
    - intros Hk. exists (cid_to_string k, v). split; [by apply elem_of_map_to_list|].
      unfold block_entry. cbn. by rewrite cid_from_to_string, decide_True. }
  apply option_eq. intros v. unfold blocks_view. rewrite <- elem_of_list_to_map', Hin; [done|].
  intros v'. rewrite !Hin. simpl. congruence.
Qed.

(** The abstract repository state of a database. *)
Definition sq_rview (c : SqliteStore) : RepoView Cid :=
  let t := sq_tables (db c) in
  MkRepoView (blocks_view (t_blocks t)) (omap (fun x => res_opt (cid_from_str x)) (t_repo_roots t))
    (map (fun r => (ev_seq r, ev_event r)) (t_repo_seq t)) (last_seq (db c)).

Lemma blocks_view_insert_block m (c : Cid) b :
  blocks_view (or_insert (cid_to_string c) b m) = or_insert c b (blocks_view m).
Proof.
  apply map_eq. intros c'. rewrite blocks_view_lookup. apply sim_or_insert. intros. by rewrite blocks_view_lookup.
Qed.

Lemma blocks_view_insert_blocks (bs : list (Cid * bytes)) t :
  blocks_view (t_blocks (insert_block_texts bs t)) = insert_blocks bs (blocks_view (t_blocks t)).
Proof.
  apply map_eq. intros c. rewrite blocks_view_lookup. apply insert_block_texts_lookup.
  intros. by rewrite blocks_view_lookup.
Qed.

(** An atomic step of the database, as a step of the abstract state. *)
Lemma atomically_refines {A} (m : op SqliteStore A) F f :
  atomically m F ->
  (forall c a d', F (db c) = Ok (a, d') ->
     a = fst (f (sq_rview c)) /\ forall fs, sq_rview (MkConn d' fs) = snd (f (sq_rview c))) ->
  refines sq_rview m f.
Proof.
  intros [Hd Ha] Hf c. destruct (Hd c) as [_ Hr]. specialize (Ha c).
  destruct (m c) as [[a|e] [d' fs]]; [right|left].
  - simpl in Hr. destruct (Hf c a d' Hr) as [-> Hv]. eexists. split; [done|apply Hv].
  - eexists _, _. split; [done|]. pose proof (Ha e _ eq_refl) as E. unfold sq_rview. by rewrite E.
Qed.

Lemma reader_errors {A} (f : SqliteDb -> A) s e s' :
  reader (query f) s = (Err e, s') -> e <> BlockNotFound.
Proof.
  unfold reader, bind, with_err. destruct (execute id s) as [[u|x] s1]; [|naive_solver].
  destruct (query f s1) as [[y|x] s2]; naive_solver.
Qed.

Lemma sq_read_block_ok (c : Cid) s :
  sq_rview (snd (sq_read_block_bytes c s)) = sq_rview s /\
  (fst (sq_read_block_bytes c s) =
     match rv_blocks (sq_rview s) !! c with Some b => Ok b | None => Err BlockNotFound end \/
   exists e, e <> BlockNotFound /\ fst (sq_read_block_bytes c s) = Err e).
Proof.
  pose proof (reader_atomic (fun d => t_blocks (sq_tables d) !! cid_to_string c)) as [Hd Ha].
  pose proof (reader_errors (fun d => t_blocks (sq_tables d) !! cid_to_string c) s) as He.
  destruct (Hd s) as [_ Hr]. specialize (Ha s).
  assert (rv_blocks (sq_rview s) !! c = t_blocks (sq_tables (db s)) !! cid_to_string c) as ->
    by apply blocks_view_lookup.
  unfold sq_read_block_bytes, bind, q_tables. cbn [tables sqlite_tables].
  destruct (reader _ s) as [[b|e] s1].
  - injection Hr as -> Hdb. split; [unfold sq_rview; simpl; by rewrite Hdb|]. left. simpl.
    by destruct (t_blocks (sq_tables (db s)) !! cid_to_string c).
  - split; [unfold sq_rview; simpl; by rewrite (Ha e _ eq_refl)|]. right. exists e. split; [|done]. by eapply He.
Qed.

Lemma sq_commit_blocks_ok (bs : list (Cid * bytes)) did root ev :
  refines sq_rview (sq_commit_blocks bs did root ev) (spec_commit_blocks bs did root ev).
Proof.
  eapply atomically_refines; [apply commit_atomic|]. intros s a d' E. unfold commit_fn in E.
  destruct (Z.ltb_spec (last_seq (db s)) i64_max) as [Hl|Hl]; [|done]. simplify_eq.
  rewrite (last_seq_next _ Hl). pose proof (blocks_view_insert_blocks bs (sq_tables (db s))) as Hb.
  destruct (insert_block_texts_other bs (sq_tables (db s))) as [_ Hrest]. rewrite Hrest. revert Hb.
  generalize (t_blocks (insert_block_texts bs (sq_tables (db s)))) as tb. intros tb Hb. clear Hrest.
  unfold spec_commit_blocks, sq_rview. cbn -[last_seq i64_add]. rewrite (last_seq_next _ Hl).
  split; [done|]. intros _. f_equal; [done| | |].
  - apply map_eq. intros k. rewrite lookup_omap. destruct (decide (did = k)) as [<-|Hne].
    + rewrite !lookup_insert_eq. simpl. by rewrite cid_from_to_string.
    + by rewrite !lookup_insert_ne, lookup_omap by done.
  - by rewrite map_app.
  - eapply last_seq_snoc; [done|done|lia].
Qed.

(** Under any schedule of failures the store meets the repository contract. *)
#[export] Instance sqlite_repo_ok : RepoStoreOk Cid SqliteStore.
Proof.
  refine {| rview := sq_rview; read_block_ok := sq_read_block_ok; commit_blocks_ok := sq_commit_blocks_ok |}.
  - intros c b. eapply atomically_refines; [apply atomically_with_err, atomically_stmt|].
    intros s a d' [= <- <-]. split; [done|]. intros fs. unfold sq_rview. cbn.
    by rewrite blocks_view_insert_block.
  - intros did. eapply atomically_refines.
    + eapply atomically_read_bind; [apply atomically_with_err, atomically_stmt|].
      intros row. apply root_fn_atomic.
    + intros s a d' E. cbn in E. unfold sq_rview. cbn. rewrite lookup_omap. unfold root_fn in E.
      destruct (t_repo_roots _ !! did) as [t|]; cbn in *; [destruct (cid_from_str t)|]; by simplify_eq/=.
Defined.

End Simulation.

(** ** Theorems *)

(** C15: the SQLite backend conforms, whatever the engine fails.  After any list
    of the calls of [store_call] whose arguments are in range — the times of
    authorization requests, codes, tokens and proofs and the limit of a list of
    blobs within the non-negative [i64], the limit of a backfill not negative —
    on an empty database, under any schedule of failed statements, the calls that
    succeeded answered exactly as the in-memory backend answers those calls alone
    (a failed call changed nothing), and the tables hold what the in-memory
    backend then holds.  [list_accounts] and [list_sessions_for_did] are not
    among these calls; a backfill with a negative limit does differ
    ([negative_limit_differs]). *)
Theorem sqlite_conforms {Cid} `{Countable Cid} `{!CidLib Cid} `{!CidText Cid} `{!CidTextLaws Cid} `{!SqlScan}
    (cs : list (store_call Cid)) (schedule : list (option string)) :
  Forall call_in_range cs ->
  forall l s, run_calls (St := SqliteStore) cs (MkConn SqliteDb_empty schedule) = (l, s) ->
  exists g, run_calls (map fst (succeeded l)) Inner_default =
              (map (fun x => (fst x, Ok (snd x))) (succeeded l), g) /\
            sim (db s) g.
Proof.
  intros Hcs l s E. pose proof (run_calls_simulates cs schedule _ _ Hcs sim_empty) as Hr.
  by rewrite E in Hr.
Qed.

(** C17: when the engine fails nothing, the two backends agree on which calls
    succeed.  For any list of in-range calls of [store_call], on an empty
    database, the same calls succeed with the same answers, and the same calls
    are refused; with which error a call is refused is not compared ([seen]
    drops it: a violated constraint has its own text in SQL), and neither
    [list_accounts] nor [list_sessions_for_did] is a call. *)
Theorem sqlite_equiv_memory {Cid} `{Countable Cid} `{!CidLib Cid} `{!CidText Cid} `{!CidTextLaws Cid}
    `{!SqlScan} (cs : list (store_call Cid)) :
  Forall call_in_range cs -> Z.of_nat (length cs) <= i64_max ->
  map seen (fst (run_calls (St := SqliteStore) cs (MkConn SqliteDb_empty []))) =
  map seen (fst (run_calls (St := Inner Cid) cs Inner_default)).
Proof. intros Hcs Hn. by apply (sound_run_agrees cs 0); [|apply sim_empty|apply log_inv_default|]. Qed.

#[export] Instance demo_cid_text : CidText string := { cid_from_str s := Ok s }.
#[export] Instance demo_cid_text_laws : CidTextLaws string.
Proof. by split. Defined.
#[export] Instance demo_sql_scan : SqlScan := { scan_rows _ l := l }.

Definition demo_calls : list (store_call string) :=
  [ Change (CCountAndInsertAccount "did:a" "al.test" None "phc" "2024");
    Change (CCountAndInsertAccount "did:b" "al.test" None "phc" "2024");
    Change (CInsertInvite "code" 1 "did:a");
    Change (CConsumeInvite "code" "did:b");
    Change (CConsumeInvite "code" "did:c");
    Change (CCommitBlocks [("c1", "b1")] "did:a" "c1" "ev");
    Change (CRecordDpopJti "j" 10);
    Change (CRecordDpopJti "j" 10);
    Ask (QBackfill 0 5);
    Ask (QReadBlock "c1");
    Ask (QDidByHandle "al.test") ].

Lemma sqlite_conforms_witness :
  exists l s, run_calls (St := SqliteStore) demo_calls
                (MkConn SqliteDb_empty [None; None; Some "disk I/O error"]) = (l, s) /\
  exists g, run_calls (map fst (succeeded l)) Inner_default =
              (map (fun x => (fst x, Ok (snd x))) (succeeded l), g) /\
            sim (db s) g.
Proof.
  eexists _, _. split; [apply surjective_pairing|].
  eapply (sqlite_conforms demo_calls); [|apply surjective_pairing].
  apply (bool_decide_unpack _). vm_compute. exact I.
Defined.

Lemma sqlite_equiv_memory_witness :
  map seen (fst (run_calls (St := SqliteStore) demo_calls (MkConn SqliteDb_empty []))) =
  map seen (fst (run_calls (St := Inner string) demo_calls Inner_default)) /\
  map seen (fst (run_calls (St := SqliteStore) demo_calls (MkConn SqliteDb_empty []))) =
    [Some (ONum 0); None; Some OUnit; Some (OBool true); Some (OBool false); Some (ONum 1);
     Some (OBool true); Some (OBool false); Some (OPage [(1, "ev")]); Some (OBytes "b1");
     Some (OText (Some "did:a"))].
Proof.
  split; [|vm_compute; reflexivity]. apply sqlite_equiv_memory.
  - apply (bool_decide_unpack _). vm_compute. exact I.
  - vm_compute. discriminate.
Defined.

(** A negative [LIMIT] is where they part: no rows in memory, every row in SQL. *)
Lemma negative_limit_differs :
  let cs : list (store_call string) :=
    [Change (CCommitBlocks [] "did:a" "c1" "ev"); Ask (QBackfill 0 (-1))] in
  map seen (fst (run_calls (St := SqliteStore) cs (MkConn SqliteDb_empty []))) =
    [Some (ONum 1); Some (OPage [(1, "ev")])] /\
  map seen (fst (run_calls (St := Inner string) cs Inner_default)) = [Some (ONum 1); Some (OPage [])].
Proof. split; vm_compute; reflexivity. Qed.
