(* ===== verification/DoStore.v ===== *)
(** * The Durable Object backend

    [src/rust-worker/src/store.rs] over the schema of [schema.rs]: SQL in the
    object's own storage, blob bytes in an R2 bucket.  The isolate runs one task
    at a time and no method awaits between its statements, so a method is one
    step; but there is no transaction, so the statements before a failing one
    stay done.  A number is an [i64] throughout: the precision of the host's
    numbers is not modelled. *)

From Stdlib Require Import ZArith Lia Ascii.
From S2P Require Import Prelude RustStr Externals Demo StoreTypes Paging MemoryStore MemoryProps Repo.
From S2P Require Import Sql.
From S2P Require Import SqliteStore.

Record BlobRef := MkBlobRef { br_mime_type : string; br_size : Z }.

Record DeviceRow := MkDeviceRow { dv_did_key : string; dv_label : string; dv_created_at : string }.

(** A row of [signin_requests]. *)
Record Signin := MkSignin {
  sg_user_code : string;
  sg_client_name : string;
  sg_status : string;
  sg_did : option string;
  sg_handle : option string;
  sg_access_jwt : option string;
  sg_refresh_jwt : option string;
  sg_created_at : string;
  sg_expires_at : Z;
}.

Record DoDb := MkDo {
  do_tables : Tables;
  seq_counter : option Z;
  blob_refs : gmap (string * string) BlobRef;
  r2 : gmap string bytes;
  device_keys : gmap string DeviceRow;
  signin_requests : gmap string Signin;
}.

(** After [migrate]: the counter's one row is there. *)
Definition DoDb_empty : DoDb := MkDo Tables_empty (Some 0) ∅ ∅ ∅ ∅.

#[export] Instance do_has_tables : HasTables DoDb.
Proof.
  refine {| tables := do_tables;
    with_tables t d := MkDo t (seq_counter d) (blob_refs d) (r2 d) (device_keys d) (signin_requests d) |}.
  - done.
  - by intros [].
  - done.
Defined.

Definition put_counter v d :=
  MkDo (do_tables d) v (blob_refs d) (r2 d) (device_keys d) (signin_requests d).
Definition put_blob_refs v d :=
  MkDo (do_tables d) (seq_counter d) v (r2 d) (device_keys d) (signin_requests d).
Definition put_r2 v d :=
  MkDo (do_tables d) (seq_counter d) (blob_refs d) v (device_keys d) (signin_requests d).
Definition put_device_keys v d :=
  MkDo (do_tables d) (seq_counter d) (blob_refs d) (r2 d) v (signin_requests d).
Definition put_signins v d :=
  MkDo (do_tables d) (seq_counter d) (blob_refs d) (r2 d) (device_keys d) v.

Definition DoStore : Type := Conn DoDb.

(** ** Helpers *)

Definition sql_err (e : string) : StorageError := Pool ("durable object sql: " +:+ e).
Definition sql {A} (m : Q DoDb A) : op DoStore A := with_err sql_err m.

(** [DoStore::exists]: [SELECT count( * )], more than none. *)
Definition exists_row (f : Tables -> bool) : op DoStore bool :=
  (let! n := sql (q_tables (fun t => if f t then 1 else 0)) in ret (0 <? n))%se.
Definition has_account (did : string) (t : Tables) : bool := bool_decide (is_Some (t_accounts t !! did)).
Definition has_handle_row (handle : string) (t : Tables) : bool :=
  match rows_by_handle handle t with [] => false | _ => true end.

Section DoStoreOps.
Context {Cid : Type} `{CidLib Cid} `{CidText Cid} `{SqlScan}.

(** ** Blocks, sequencer, roots *)

Definition do_read_block_bytes (cid : Cid) : op DoStore bytes :=
  (let! b := sql (q_tables (fun t => t_blocks t !! cid_to_string cid)) in
   lift (ok_or b BlockNotFound))%se.

Definition do_put_block (cid : Cid) (b : bytes) : op DoStore unit :=
  sql (x_tables (insert_block (cid_to_string cid) b)).

Definition do_max_seq : op DoStore Z := sql (q_tables max_event_seq).

Definition do_backfill_page (after_seq limit : Z) : op DoStore (list (Z * bytes)) :=
  sql (q_tables (fun t => sql_limit (Z.max limit 0) (events_after after_seq t))).

Definition do_load_repo_root (did : string) : op DoStore (option Cid) :=
  (let! s := sql (q_tables (fun t => t_repo_roots t !! did)) in
   match s with
   | None => ret None
   | Some root_cid =>
       let! cid := lift (map_err (fun e => Crypto ("bad root cid: " +:+ e)) (cid_from_str root_cid)) in
       ret (Some cid)
   end)%se.

Definition do_update_repo_root (did : string) (root_cid : Cid) : op DoStore unit :=
  sql (x_tables (replace_root did (cid_to_string root_cid))).

Fixpoint put_blocks_loop (bs : list (Cid * bytes)) : op DoStore unit :=
  match bs with
  | [] => ret tt
  | (cid, b) :: bs => (sql (x_tables (insert_block (cid_to_string cid) b)) ;;! put_blocks_loop bs)%se
  end.

(** [UPDATE seq_counter SET next = next + 1]. *)
Definition increment_counter : Q DoDb unit :=
  execute (fun d => put_counter (Z.add 1 <$> seq_counter d) d).

(** The counter read back: SQL turns an [i64] that overflows into a real, which
    the row type does not accept. *)
Definition read_counter : Q DoDb (option Z) :=
  stmt (fun d =>
    match seq_counter d with
    | Some n => if n <=? i64_max then Ok (Some n, d) else Err "invalid type: floating point"
    | None => Ok (None, d)
    end).

(** [seq] is a plain primary key here. *)
Definition insert_numbered_event (seq : Z) (did : string) (event_body : bytes) : Q DoDb unit :=
  s_tables (fun t =>
    if existsb (fun r => ev_seq r =? seq) (t_repo_seq t) then Err "UNIQUE constraint failed: repo_seq.seq"
    else Ok (tt, append_event (MkEventRow seq did event_body 0) t)).

Definition do_commit_blocks (bs : list (Cid * bytes)) (did : string) (new_root : Cid)
    (event_body : bytes) : op DoStore Z :=
  (put_blocks_loop bs ;;!
   sql increment_counter ;;!
   let! next := sql read_counter in
   let! seq := lift (ok_or next (Pool "seq_counter row is missing")) in
   sql (insert_numbered_event seq did event_body) ;;!
   sql (x_tables (replace_root did (cid_to_string new_root))) ;;!
   ret seq)%se.

(** ** Device-approval sign-in *)

Definition register_device (device_id did_key label now : string) : op DoStore unit :=
  sql (execute (fun d =>
    put_device_keys (<[device_id := MkDeviceRow did_key label now]> (device_keys d)) d)).

Definition device_did_key (device_id : string) : op DoStore (option string) :=
  sql (query (fun d => dv_did_key <$> device_keys d !! device_id)).

Definition create_signin (request_id user_code client_name : string) (expires_at : Z) (now : string)
    : op DoStore unit :=
  sql (stmt (fun d =>
    match signin_requests d !! request_id with
    | Some _ => Err "UNIQUE constraint failed: signin_requests.request_id"
    | None => Ok (tt, put_signins (<[request_id :=
        MkSignin user_code client_name "pending" None None None None now (as_i64 expires_at)]>
          (signin_requests d)) d)
    end)).

Definition signin_newer (a b : string * Signin) : Prop :=
  String.le (sg_created_at (snd b)) (sg_created_at (snd a)).
#[local] Instance signin_newer_dec : RelDecision signin_newer.
Proof. intros a b. unfold signin_newer. apply _. Defined.

(** What the approving phone sees of a request. *)
Definition pending_row (x : string * Signin) : string * string * string * string :=
  (fst x, sg_user_code (snd x), sg_client_name (snd x), sg_created_at (snd x)).
Definition is_pending (now : Z) (x : string * Signin) : bool :=
  String.eqb (sg_status (snd x)) "pending" && (now <? sg_expires_at (snd x)).

Definition list_pending_signins (now : Z) : op DoStore (list (string * string * string * string)) :=
  sql (query (fun d =>
    map pending_row (merge_sort signin_newer
      (List.filter (is_pending (as_i64 now)) (scan_rows (map_to_list (signin_requests d))))))).

Definition get_signin (request_id : string) : op DoStore (option Signin) :=
  sql (query (fun d => signin_requests d !! request_id)).

(** [UPDATE ... WHERE request_id = ? AND status = 'pending']. *)
Definition decide_signin (request_id : string) (f : Signin -> Signin) (d : DoDb) : DoDb :=
  match signin_requests d !! request_id with
  | Some r =>
      if String.eqb (sg_status r) "pending" then
        put_signins (<[request_id := f r]> (signin_requests d)) d
      else d
  | None => d
  end.

Definition approve_signin (request_id did handle access_jwt refresh_jwt : string) : op DoStore unit :=
  sql (execute (decide_signin request_id (fun r =>
    MkSignin (sg_user_code r) (sg_client_name r) "approved" (Some did) (Some handle)
      (Some access_jwt) (Some refresh_jwt) (sg_created_at r) (sg_expires_at r)))).

Definition deny_signin (request_id : string) : op DoStore unit :=
  sql (execute (decide_signin request_id (fun r =>
    MkSignin (sg_user_code r) (sg_client_name r) "denied" (sg_did r) (sg_handle r)
      (sg_access_jwt r) (sg_refresh_jwt r) (sg_created_at r) (sg_expires_at r)))).

Definition account_password_phc (did : string) : op DoStore (option string) :=
  sql (q_tables (fun t => ar_password_argon2 <$> t_accounts t !! did)).

Definition delete_account_data (did : string) : op DoStore unit :=
  (sql (x_tables (fun t => put_accounts (delete did (t_accounts t)) t)) ;;!
   sql (x_tables (fun t => put_keys (delete (did +:+ "#signing") (t_keys t)) t)) ;;!
   sql (x_tables (fun t => put_keys (delete (did +:+ "#rotation") (t_keys t)) t)) ;;!
   sql (x_tables (fun t => put_preferences (delete did (t_preferences t)) t)) ;;!
   sql (x_tables (fun t => put_repo_roots (delete did (t_repo_roots t)) t)) ;;!
   sql (x_tables (fun t =>
     put_repo_seq (List.filter (fun r => negb (String.eqb (ev_did r) did)) (t_repo_seq t)) t)) ;;!
   sql (execute (fun d =>
     put_blob_refs (filter (fun kv => fst (fst kv) <> did) (blob_refs d)) d)) ;;!
   sql (execute (fun d => put_device_keys ∅ d)) ;;!
   sql (execute (fun d => put_signins ∅ d)) ;;!
   ret tt)%se.

(** ** Accounts *)

Definition do_count_accounts : op DoStore Z :=
  sql (q_tables (fun t => Z.of_nat (size (t_accounts t)))).

Definition do_insert_account (did handle : string) (email : option string) (phc now : string)
    : op DoStore unit :=
  (let! taken := exists_row (has_account did) in
   if taken then throw (Constraint ("account already exists: " +:+ did))
   else
     let! taken := exists_row (has_handle_row handle) in
     if taken then throw (Constraint ("handle already taken: " +:+ handle))
     else sql (insert_account_row did handle email phc now))%se.

Definition do_count_and_insert_account (did handle : string) (email : option string)
    (phc now : string) : op DoStore Z :=
  (let! before := do_count_accounts in
   do_insert_account did handle email phc now ;;!
   ret before)%se.

Definition do_get_account_by_handle (handle : string) : op DoStore (option (string * string)) :=
  sql (q_tables (fun t =>
    (fun x => (fst x, ar_password_argon2 (snd x))) <$> visible_by_handle handle t)).
Definition do_get_did_by_handle (handle : string) : op DoStore (option string) :=
  sql (q_tables (fun t => fst <$> visible_by_handle handle t)).
Definition do_get_handle_by_did (did : string) : op DoStore (option string) :=
  sql (q_tables (fun t => a ← t_accounts t !! did; if visible_row a then ar_handle a else None)).

(** [ORDER BY created_at, did]. *)
Definition created_did_le (a b : string * AccountRow) : Prop :=
  str_ltb (ar_created_at (snd a)) (ar_created_at (snd b)) = true \/
  (ar_created_at (snd a) = ar_created_at (snd b) /\ String.le (fst a) (fst b)).
#[local] Instance created_did_le_dec : RelDecision created_did_le.
Proof. intros a b. unfold created_did_le. apply _. Defined.

Definition do_list_accounts : op DoStore (list AccountSummary) :=
  sql (q_tables (fun t =>
    map summary_row (merge_sort created_did_le (scan_rows (map_to_list (t_accounts t)))))).

(** The check, then the update; one row at most. *)
Definition do_update_account (did : string) (f : AccountRow -> AccountRow) : op DoStore Z :=
  (let! known := exists_row (has_account did) in
   if known then
     sql (x_tables (fun t => put_accounts (snd (update_key did f (t_accounts t))) t)) ;;! ret 1
   else ret 0)%se.

Definition do_update_password (did phc : string) : op DoStore Z :=
  do_update_account did (with_argon2 phc).
Definition do_set_takedown (did reference now : string) : op DoStore Z :=
  do_update_account did (with_takedown_ref (Some (if String.eqb reference "" then now else reference))).
Definition do_clear_takedown (did : string) : op DoStore Z :=
  do_update_account did (with_takedown_ref None).

Definition do_insert_invite (code : string) (uses : Z) (for_account : string) : op DoStore unit :=
  (let! taken := exists_row (fun t => bool_decide (is_Some (t_invites t !! code))) in
   if taken then throw (Constraint ("invite code already exists: " +:+ code))
   else sql (s_tables (fun t =>
     match t_invites t !! code with
     | Some _ => Err "UNIQUE constraint failed: invites.code"
     | None => Ok (tt, put_invites (<[code := MkInviteRow uses 0 for_account]> (t_invites t)) t)
     end)))%se.

Definition do_consume_invite (code used_by : string) : op DoStore bool :=
  (let! row := sql (q_tables (fun t => t_invites t !! code)) in
   match row with
   | None => ret false
   | Some invite =>
       if negb (ir_disabled invite =? 0) || (ir_available_uses invite <=? 0) then ret false
       else
         let! used := exists_row (fun t => bool_decide ((code, used_by) ∈ t_invite_uses t)) in
         if used then ret false
         else
           sql (s_tables (fun t =>
             if decide ((code, used_by) ∈ t_invite_uses t) then
               Err "UNIQUE constraint failed: invite_uses.code, invite_uses.used_by"
             else Ok (tt, put_invite_uses ({[ (code, used_by) ]} ∪ t_invite_uses t) t))) ;;!
           sql (x_tables (fun t => put_invites (snd (update_key code
             (fun i => MkInviteRow (ir_available_uses i - 1) (ir_disabled i) (ir_for_account i))
             (t_invites t))) t)) ;;!
           ret true
   end)%se.

Definition do_upsert_preferences (did prefs_json : string) : op DoStore unit :=
  sql (x_tables (fun t => put_preferences (<[did := prefs_json]> (t_preferences t)) t)).
Definition do_get_preferences (did : string) : op DoStore (option string) :=
  sql (q_tables (fun t => t_preferences t !! did)).

(** ** Keys and blobs *)

Definition do_put_key_blob (id : string) (ciphertext : bytes) : op DoStore unit :=
  sql (x_tables (fun t => put_keys (<[id := ciphertext]> (t_keys t)) t)).
Definition do_get_key_blob (id : string) : op DoStore (option bytes) :=
  sql (q_tables (fun t => t_keys t !! id)).

Definition blob_key (did cid : string) : string := did +:+ "/" +:+ cid.
Definition r2_err (what e : string) : StorageError := Pool ("r2 " +:+ what +:+ ": " +:+ e).

(** The object first, then the row that says whose it is. *)
Definition do_put_blob (did cid mime_type : string) (size : Z) (b : bytes) : op DoStore unit :=
  (with_err (r2_err "put") (execute (fun d => put_r2 (<[blob_key did cid := b]> (r2 d)) d)) ;;!
   sql (execute (fun d => put_blob_refs (<[(did, cid) := MkBlobRef mime_type size]> (blob_refs d)) d)))%se.

Definition do_get_blob (did cid : string) : op DoStore (option (string * bytes)) :=
  (let! meta := sql (query (fun d => blob_refs d !! (did, cid))) in
   match meta with
   | None => ret None
   | Some meta =>
       let! object := with_err (r2_err "get") (query (fun d => r2 d !! blob_key did cid)) in
       match object with
       | None => ret None
       | Some b => with_err (r2_err "read") (execute id) ;;! ret (Some (br_mime_type meta, b))
       end
   end)%se.

Definition do_cids_of (did : string) (d : DoDb) : list string :=
  map snd (List.filter (fun k => String.eqb (fst k) did) (map_to_list (blob_refs d)).*1).
Definition do_list_blobs (did : string) (limit : Z) (cursor : option string)
    : op DoStore (list string) :=
  sql (query (fun d =>
    sql_limit (as_i64 limit) (merge_sort String.le (List.filter (after_cursor cursor) (do_cids_of did d))))).

(** ** OAuth *)

Definition do_put_pushed_request (r : StoredPushedRequest) : op DoStore unit :=
  sql (x_tables (insert_par r)).
Definition do_get_pushed_request (h : string) (now : Z) : op DoStore (option StoredPushedRequest) :=
  sql (q_tables (select_par h (as_i64 now))).
Definition do_delete_pushed_request (h : string) : op DoStore unit := sql (x_tables (delete_par h)).

Definition do_put_auth_code (c : AuthCode) : op DoStore unit := sql (x_tables (insert_code c)).
Definition do_consume_auth_code (h : string) (now : Z) : op DoStore (option AuthCode) :=
  (let! row := sql (q_tables (select_code h (as_i64 now))) in
   sql (x_tables (delete_code h)) ;;!
   ret row)%se.

Definition do_put_refresh_token (r : RefreshTokenRecord) : op DoStore unit :=
  sql (x_tables (insert_refresh r)).
Definition do_consume_refresh_token (h : string) (now : Z) : op DoStore ConsumeResult :=
  (let! row := sql (q_tables (select_refresh h (as_i64 now))) in
   match row with
   | None => ret NotFound
   | Some (rec, used) =>
       if negb (used =? 0) then ret (Reused (rt_session_id rec))
       else sql (x_tables (mark_refresh_used h)) ;;! ret (Consumed rec)
   end)%se.

(** [DELETE ... WHERE session_id = ?], for its effect. *)
Definition drop_session_rows (sid : string) : Q DoDb unit :=
  x_tables (fun t => snd (delete_session sid t)).

(** A count is never negative: [as u64] keeps it. *)
Definition do_revoke_session (sid : string) : op DoStore Z :=
  (let! n := sql (q_tables (fun t => count_where (of_session sid) (t_refresh t))) in
   sql (drop_session_rows sid) ;;!
   ret n)%se.
Definition do_revoke_refresh_token (h : string) : op DoStore bool :=
  (let! row := sql (q_tables (fun t => (fun x => rt_session_id (fst x)) <$> t_refresh t !! h)) in
   match row with
   | None => ret false
   | Some sid => sql (drop_session_rows sid) ;;! ret true
   end)%se.

(** [ORDER BY issued_at DESC, token_hash ASC]. *)
Definition issued_hash_le (a b : RefreshTokenRecord) : Prop :=
  rt_issued_at b < rt_issued_at a \/
  (rt_issued_at a = rt_issued_at b /\ String.le (rt_token_hash a) (rt_token_hash b)).
#[local] Instance issued_hash_le_dec : RelDecision issued_hash_le.
Proof. intros a b. unfold issued_hash_le. apply _. Defined.

Definition do_list_sessions_for_did (did : string) (now : Z) : op DoStore (list RefreshTokenRecord) :=
  sql (q_tables (fun t =>
    map (refresh_row as_u64) (merge_sort issued_hash_le (scan_rows (live_sessions did (as_i64 now) t))))).

Definition do_record_dpop_jti (jti : string) (expires_at : Z) : op DoStore bool :=
  (let! seen := exists_row (fun t => bool_decide (is_Some (t_jti t !! jti))) in
   if seen then ret false
   else
     sql (s_tables (fun t =>
       match t_jti t !! jti with
       | Some _ => Err "UNIQUE constraint failed: oauth_dpop_jti.jti"
       | None => Ok (tt, put_jti (<[jti := as_i64 expires_at]> (t_jti t)) t)
       end)) ;;!
     ret true)%se.

(** Count the expired rows of a table, then delete them. *)
Definition purge_table (count : Tables -> Z) (del : Tables -> Z * Tables) : op DoStore Z :=
  (let! n := sql (q_tables count) in
   sql (x_tables (fun t => snd (del t))) ;;!
   ret n)%se.

Definition do_purge_expired (now : Z) : op DoStore Z :=
  (let now := as_i64 now in
   let! n1 := purge_table (fun t => count_where (fun r => spr_expires_at r <=? now) (t_par t)) (purge_par now) in
   let! n2 := purge_table (fun t => count_where (fun r => ac_expires_at r <=? now) (t_codes t)) (purge_codes now) in
   let! n3 := purge_table (fun t => count_where (fun x => rt_expires_at (fst x) <=? now) (t_refresh t))
                (purge_refresh now) in
   let! n4 := purge_table (fun t => count_where (fun e => e <=? now) (t_jti t)) (purge_jti now) in
   ret (n1 + n2 + n3 + n4))%se.

#[export] Instance do_block_store : BlockStore Cid DoStore := {
  read_block_bytes := do_read_block_bytes; put_block := do_put_block }.
#[export] Instance do_sequencer : Sequencer DoStore := {
  max_seq := do_max_seq; backfill_page := do_backfill_page }.
#[export] Instance do_repo_store : RepoStore Cid DoStore := {
  load_repo_root := do_load_repo_root; update_repo_root := do_update_repo_root;
  commit_blocks := do_commit_blocks }.
#[export] Instance do_account_store : AccountStore DoStore := {
  count_accounts := do_count_accounts; insert_account := do_insert_account;
  count_and_insert_account := do_count_and_insert_account;
  get_account_by_handle := do_get_account_by_handle; get_did_by_handle := do_get_did_by_handle;
  get_handle_by_did := do_get_handle_by_did; list_accounts := do_list_accounts;
  update_password := do_update_password; set_takedown := do_set_takedown;
  clear_takedown := do_clear_takedown; insert_invite := do_insert_invite;
  consume_invite := do_consume_invite; upsert_preferences := do_upsert_preferences;
  get_preferences := do_get_preferences }.
#[export] Instance do_key_store : KeyStore DoStore := {
  put_key_blob := do_put_key_blob; get_key_blob := do_get_key_blob }.
#[export] Instance do_blob_store : BlobStore DoStore := {
  put_blob := do_put_blob; get_blob := do_get_blob; list_blobs := do_list_blobs }.
#[export] Instance do_oauth_store : OAuthStore DoStore := {
  put_pushed_request := do_put_pushed_request; get_pushed_request := do_get_pushed_request;
  delete_pushed_request := do_delete_pushed_request; put_auth_code := do_put_auth_code;
  consume_auth_code := do_consume_auth_code; put_refresh_token := do_put_refresh_token;
  consume_refresh_token := do_consume_refresh_token; revoke_session := do_revoke_session;
  revoke_refresh_token := do_revoke_refresh_token; list_sessions_for_did := do_list_sessions_for_did;
  record_dpop_jti := do_record_dpop_jti; purge_expired := do_purge_expired }.
#[export] Instance do_backend : StorageBackend Cid DoStore := {}.

End DoStoreOps.
