(* ===== verification/DoProps.v ===== *)
(** * The Durable Object backend and the contracts

    While no statement fails, the backend is the in-memory one, errors included.
    When one does, a commit is not all or nothing; its log stays ascending and
    its numbers are never given twice.  A decided sign-in stays decided. *)

From Stdlib Require Import ZArith Lia Ascii.
From S2P Require Import Prelude RustStr Externals Demo StoreTypes Paging MemoryStore MemoryProps Repo RepoDemo.
From S2P Require Import Sql.
From S2P Require Import SqliteStore.
From S2P Require Import Conformance.
From S2P Require Import SqlProps.
From S2P Require Import SqliteProps.
From S2P Require Import DoStore.

(** [run_sql] runs both engines on a connection that fails nothing. *)
Ltac run_sql :=
  unfold sq_insert_account, insert_account_row, update_account, sq_insert_invite, sq_consume_invite,
    insert_invite_use, decrement_invite, sq_put_blob, sq_consume_refresh_token, sq_revoke_session,
    sq_revoke_refresh_token, sq_record_dpop_jti, sq_purge_expired, transaction, writer_call,
    do_insert_account, do_update_account, do_insert_invite, do_consume_invite, do_put_blob,
    do_consume_refresh_token, do_revoke_session, do_revoke_refresh_token, drop_session_rows,
    do_record_dpop_jti, do_purge_expired, purge_table, exists_row, has_account, has_handle_row,
    sql, bind, with_err, x_tables, s_tables, q_tables, query, execute, stmt, lift, ret, throw;
  cbn.

Section Agreement.
Context {Cid : Type} `{Countable Cid} `{!CidLib Cid} `{!CidText Cid} `{!CidTextLaws Cid} `{!SqlScan}.

(** ** The relation with the in-memory backend *)

(** A CID's text has no slash: the object's key splits into its two parts. *)
Definition no_slash (s : string) : bool := forallb (fun c => negb (Ascii.eqb c "/"%char)) (String.list_ascii_of_string s).

Definition blobs_of (d : DoDb) : gmap (string * string) BlobRow :=
  map_imap (fun k x => b ← r2 d !! blob_key (fst k) (snd k); Some (MkBlobRow (br_mime_type x) (br_size x) b))
    (blob_refs d).

(** The same contents as a SQLite database. *)
Definition sqlite_of (d : DoDb) : SqliteDb := MkSqlite (do_tables d) (default 0 (seq_counter d)) (blobs_of d).

(** No call disables an invite. *)
Definition all_enabled (t : Tables) : Prop := map_Forall (fun _ i => ir_disabled i = 0) (t_invites t).

Record do_sim (d : DoDb) (g : Inner Cid) : Prop := MkDoSim {
  ds_sim : sim (sqlite_of d) g;
  ds_counter : seq_counter d = Some (next_seq g);
  ds_refs k x : blob_refs d !! k = Some x -> no_slash (snd k) = true /\ is_Some (r2 d !! blob_key (fst k) (snd k));
  ds_enabled : all_enabled (do_tables d);
}.

Definition agrees {A} (m : op DoStore A) (n : op (Inner Cid) A) : Prop :=
  forall d g, do_sim d g ->
    exists d', m (MkConn d []) = (fst (n g), MkConn d' []) /\ do_sim d' (snd (n g)).

(** The next number is the log's, so it moves only with the log. *)
Lemma next_seq_tables d t g g' :
  do_sim d g -> t_repo_seq t = t_repo_seq (do_tables d) ->
  sim (MkSqlite t (default 0 (seq_counter d)) (blobs_of d)) g' -> next_seq g' = next_seq g.
Proof.
  intros Hg Ht Hs'. pose proof (ds_sim _ _ Hg) as Hs. rewrite <- (sim_next _ _ Hs), <- (sim_next _ _ Hs'). by apply last_seq_ext.
Qed.

(** A step on the shared tables that SQLite makes too. *)
Lemma table_step {A} (m : op DoStore A) (m' : op SqliteStore A) n d g a t :
  simulates m' n -> do_sim d g ->
  m' (MkConn (sqlite_of d) []) = (Ok a, MkConn (with_tables t (sqlite_of d)) []) ->
  t_repo_seq t = t_repo_seq (do_tables d) ->
  (all_enabled (do_tables d) -> all_enabled t) ->
  m (MkConn d []) = (Ok a, MkConn (with_tables t d) []) ->
  exists d', m (MkConn d []) = (fst (n g), MkConn d' []) /\ do_sim d' (snd (n g)).
Proof.
  intros (F & [Hd _] & Hs) Hg Hm' Ht He Hm. specialize (Hs _ _ (ds_sim _ _ Hg)).
  destruct (Hd (MkConn (sqlite_of d) [])) as [_ Hr]. rewrite Hm' in Hr. simpl in Hr. rewrite Hr in Hs.
  destruct Hs as (g' & -> & Hs). exists (with_tables t d). split; [exact Hm|].
  pose proof (next_seq_tables d t g g' Hg Ht Hs) as E. destruct Hg as [H1 H2 H3 H4].
  constructor; [exact Hs| |exact H3|by apply He]. simpl. by rewrite E.
Qed.

Lemma agrees_map {A B} (m : op DoStore A) (n : op (Inner Cid) A) (h : A -> B) :
  agrees m n -> agrees (bind m (fun a => ret (h a))) (bind n (fun a => ret (h a))).
Proof.
  intros Hm d g Hg. destruct (Hm d g Hg) as (d' & E & Hd'). exists d'. unfold bind. rewrite E.
  by destruct (n g) as [[a|e] g'].
Qed.

(** *** Statements that both make *)

Lemma do_put_block_agrees (c : Cid) b : agrees (do_put_block c b) (mem_put_block c b).
Proof. intros d g Hg. by eapply table_step; [apply put_block_simulates| | | | |]. Qed.

Lemma do_update_repo_root_agrees did (c : Cid) : agrees (do_update_repo_root did c) (mem_update_repo_root did c).
Proof. intros d g Hg. by eapply table_step; [apply update_repo_root_simulates| | | | |]. Qed.

Lemma do_upsert_preferences_agrees did p :
  agrees (do_upsert_preferences did p) (mem_upsert_preferences did p).
Proof. intros d g Hg. by eapply table_step; [apply upsert_preferences_simulates| | | | |]. Qed.

Lemma do_put_key_blob_agrees id b : agrees (do_put_key_blob id b) (mem_put_key_blob id b).
Proof. intros d g Hg. by eapply table_step; [apply put_key_blob_simulates| | | | |]. Qed.

Lemma do_put_pushed_request_agrees r :
  in_i64 (spr_expires_at r) -> agrees (do_put_pushed_request r) (mem_put_pushed_request r).
Proof. intros Hr d g Hg. by eapply table_step; [by apply put_pushed_request_simulates| | | | |]. Qed.

Lemma do_delete_pushed_request_agrees h :
  agrees (do_delete_pushed_request h) (mem_delete_pushed_request h).
Proof. intros d g Hg. by eapply table_step; [apply delete_pushed_request_simulates| | | | |]. Qed.

Lemma do_put_auth_code_agrees c :
  in_i64 (ac_expires_at c) -> agrees (do_put_auth_code c) (mem_put_auth_code c).
Proof. intros Hc d g Hg. by eapply table_step; [by apply put_auth_code_simulates| | | | |]. Qed.

Lemma do_consume_auth_code_agrees h now :
  in_i64 now -> agrees (do_consume_auth_code h now) (mem_consume_auth_code h now).
Proof. intros Hn d g Hg. by eapply table_step; [by apply consume_auth_code_simulates| | | | |]. Qed.

Lemma do_put_refresh_token_agrees r :
  record_in_i64 r -> agrees (do_put_refresh_token r) (mem_put_refresh_token r).
Proof. intros Hr d g Hg. by eapply table_step; [by apply put_refresh_token_simulates| | | | |]. Qed.

(** *** Reads *)

Lemma read_step {A} (m : op DoStore A) (m' : op SqliteStore A) n d g a :
  simulates m' n -> do_sim d g ->
  m' (MkConn (sqlite_of d) []) = (Ok a, MkConn (sqlite_of d) []) ->
  m (MkConn d []) = (Ok a, MkConn d []) ->
  exists d', m (MkConn d []) = (fst (n g), MkConn d' []) /\ do_sim d' (snd (n g)).
Proof.
  intros Hs Hg Hm' Hm. pose proof (table_step m m' n d g a (do_tables d) Hs Hg) as Ht.
  change (with_tables (do_tables d) (sqlite_of d)) with (sqlite_of d) in Ht.
  pose proof (with_tables_tables d) as E. change (tables d) with (do_tables d) in E.
  rewrite E in Ht. by apply Ht.
Qed.

Lemma do_read_block_bytes_agrees (c : Cid) : agrees (do_read_block_bytes c) (mem_read_block_bytes c).
Proof.
  intros d g Hg. exists d. unfold mem_read_block_bytes. rewrite <- (sim_blocks _ _ (ds_sim _ _ Hg)).
  split; [|exact Hg]. by cbn; destruct (t_blocks _ !! _).
Qed.

Lemma do_max_seq_agrees : agrees do_max_seq (mem_max_seq (Cid := Cid)).
Proof. intros d g Hg. by eapply read_step; [apply max_seq_simulates| | |]. Qed.

Lemma do_backfill_page_agrees after_seq limit :
  agrees (do_backfill_page after_seq limit) (mem_backfill_page (Cid := Cid) after_seq limit).
Proof.
  intros d g Hg. assert (mem_backfill_page (Cid := Cid) after_seq limit g =
    mem_backfill_page after_seq (Z.max limit 0) g) as -> by
    (unfold mem_backfill_page, read; by rewrite (Z.max_l (Z.max limit 0) 0) by lia).
  by eapply read_step; [apply (backfill_page_simulates after_seq (Z.max limit 0)); lia| | |].
Qed.

Lemma do_load_repo_root_agrees did : agrees (do_load_repo_root (Cid := Cid) did) (mem_load_repo_root did).
Proof.
  intros d g Hg. exists d. split; [|exact Hg]. pose proof (sim_roots _ _ (ds_sim _ _ Hg)) as E. cbn in E.
  unfold mem_load_repo_root, read. cbn. rewrite E, lookup_fmap.
  destruct (repo_roots g !! did) as [c|]; cbn; [|done]. by rewrite cid_from_to_string.
Qed.

Lemma do_count_accounts_agrees : agrees do_count_accounts (mem_count_accounts (Cid := Cid)).
Proof. intros d g Hg. by eapply read_step; [apply count_accounts_simulates| | |]. Qed.

Lemma do_get_account_by_handle_agrees h :
  agrees (do_get_account_by_handle h) (mem_get_account_by_handle (Cid := Cid) h).
Proof. intros d g Hg. by eapply read_step; [apply get_account_by_handle_simulates| | |]. Qed.

Lemma do_get_did_by_handle_agrees h :
  agrees (do_get_did_by_handle h) (mem_get_did_by_handle (Cid := Cid) h).
Proof. intros d g Hg. by eapply read_step; [apply get_did_by_handle_simulates| | |]. Qed.

Lemma do_get_handle_by_did_agrees did :
  agrees (do_get_handle_by_did did) (mem_get_handle_by_did (Cid := Cid) did).
Proof. intros d g Hg. by eapply read_step; [apply get_handle_by_did_simulates| | |]. Qed.

Lemma do_get_preferences_agrees did :
  agrees (do_get_preferences did) (mem_get_preferences (Cid := Cid) did).
Proof. intros d g Hg. by eapply read_step; [apply get_preferences_simulates| | |]. Qed.

Lemma do_get_key_blob_agrees id : agrees (do_get_key_blob id) (mem_get_key_blob (Cid := Cid) id).
Proof. intros d g Hg. by eapply read_step; [apply get_key_blob_simulates| | |]. Qed.

Lemma do_get_pushed_request_agrees h now :
  in_i64 now -> agrees (do_get_pushed_request h now) (mem_get_pushed_request (Cid := Cid) h now).
Proof. intros Hn d g Hg. by eapply read_step; [by apply get_pushed_request_simulates| | |]. Qed.

(** *** Statements after a check *)

Lemma do_insert_account_agrees did h e p now :
  agrees (do_insert_account did h e p now) (mem_insert_account (Cid := Cid) did h e p now).
Proof.
  intros d g Hg. pose proof (ds_sim _ _ Hg) as Hs.
  pose proof (rows_by_handle_free h _ _ (sim_accounts _ _ Hs)) as Hf.
  pose proof (sim_accounts _ _ Hs) as Ha. cbn in Ha, Hf.
  destruct (accounts g !! did) as [a|] eqn:Ed.
  - exists d. split; [|unfold mem_insert_account, insert_account_locked; by rewrite Ed].
    unfold mem_insert_account, insert_account_locked. rewrite Ed. run_sql.
    rewrite Ha, lookup_fmap, Ed, bool_decide_true by done. done.
  - destruct (rows_by_handle h (do_tables d)) as [|x l] eqn:Er.
    + eapply table_step; [apply insert_account_simulates|done| | | |].
      * run_sql. rewrite Ha, lookup_fmap, Ed, Er. cbn. reflexivity.
      * done.
      * done.
      * run_sql. rewrite Ha, lookup_fmap, Ed, bool_decide_false by (by intros []). cbn. rewrite Er. cbn.
        by rewrite Ha, lookup_fmap, Ed, Er.
    + exists d. assert (existsb (has_handle h) (account_values g) = true) as Ex.
      { destruct (existsb _ _); [done|]. by pose proof (proj2 Hf eq_refl). }
      unfold mem_insert_account, insert_account_locked. rewrite Ed, Ex. split; [|done]. run_sql.
      rewrite Ha, lookup_fmap, Ed, bool_decide_false by (by intros []). cbn. by rewrite Er.
Qed.

Lemma do_count_and_insert_account_agrees did h e p now :
  agrees (do_count_and_insert_account did h e p now) (mem_count_and_insert_account (Cid := Cid) did h e p now).
Proof.
  intros d g Hg. destruct (do_insert_account_agrees did h e p now d g Hg) as (d' & E & Hd').
  unfold mem_count_and_insert_account, do_count_and_insert_account, bind.
  assert (do_count_accounts (MkConn d []) = (Ok (Z.of_nat (size (accounts g))), MkConn d [])) as ->.
  { pose proof (sim_accounts _ _ (ds_sim _ _ Hg)) as Ha. cbn in Ha. cbn. by rewrite Ha, map_size_fmap. }
  unfold mem_insert_account in *. rewrite E. exists d'. by destruct (insert_account_locked did h e p now g) as [[[]|] g'].
Qed.

Lemma do_update_account_agrees did fr (f : Account -> Account) :
  (forall a, account_row (f a) = fr (account_row a)) ->
  (forall a, a_did (f a) = a_did a /\ a_handle (f a) = a_handle a) ->
  agrees (do_update_account did fr) (alter_account f did : op (Inner Cid) Z).
Proof.
  intros H1 H2 d g Hg. pose proof (sim_accounts _ _ (ds_sim _ _ Hg)) as Ha. cbn in Ha.
  destruct (accounts g !! did) as [a|] eqn:Ed.
  - eapply table_step; [by eapply update_account_simulates|done| | | |].
    + run_sql. unfold update_key. rewrite Ha, lookup_fmap, Ed. cbn. reflexivity.
    + done.
    + done.
    + run_sql. unfold update_key. rewrite Ha, lookup_fmap, Ed, bool_decide_true by done. cbn.
      by rewrite Ha, lookup_fmap, Ed.
  - exists d. unfold alter_account. rewrite Ed. split; [|done]. run_sql.
    rewrite Ha, lookup_fmap, Ed. by rewrite bool_decide_false by (by intros []).
Qed.

Lemma do_insert_invite_agrees code uses a :
  agrees (do_insert_invite code uses a) (mem_insert_invite (Cid := Cid) code uses a).
Proof.
  intros d g Hg. pose proof (sim_invites _ _ (ds_sim _ _ Hg)) as Hi. cbn in Hi.
  destruct (t_invites (do_tables d) !! code) as [i|] eqn:E.
  - exists d. unfold mem_insert_invite. rewrite <- Hi, lookup_fmap, E. cbn. split; [|done]. run_sql.
    by rewrite E, bool_decide_true by done.
  - eapply table_step; [apply insert_invite_simulates|done| | | |].
    + run_sql. rewrite E. cbn. reflexivity.
    + done.
    + intros He. by apply map_Forall_insert_2.
    + run_sql. rewrite E, bool_decide_false by (by intros []). cbn. by rewrite E.
Qed.

Lemma do_consume_invite_agrees code used_by :
  agrees (do_consume_invite code used_by) (mem_consume_invite (Cid := Cid) code used_by).
Proof.
  intros d g Hg. pose proof (consume_invite_simulates (Cid := Cid) code used_by) as Hs.
  pose proof (ds_enabled _ _ Hg) as He.
  destruct (t_invites (do_tables d) !! code) as [i|] eqn:E.
  - pose proof (He _ _ E) as Ei. cbn in Ei.
    destruct (Z.leb_spec (ir_available_uses i) 0) as [Hl|Hl].
    { eapply read_step; [exact Hs|done| |].
      - run_sql. rewrite E. cbn. rewrite Ei. cbn. destruct (ir_available_uses i =? 0); [done|].
        by rewrite (proj2 (Z.leb_le _ _) Hl).
      - run_sql. rewrite E. cbn. by rewrite Ei, (proj2 (Z.leb_le _ _) Hl). }
    assert ((ir_available_uses i =? 0) = false) as Hz by lia.
    assert ((ir_available_uses i <=? 0) = false) as Hl' by lia.
    destruct (decide ((code, used_by) ∈ t_invite_uses (do_tables d))) as [Hin|Hin].
    + eapply read_step; [exact Hs|done| |].
      * run_sql. rewrite E. cbn. rewrite Ei. cbn. rewrite Hz, Hl'. by rewrite decide_True by done.
      * run_sql. rewrite E. cbn. rewrite Ei. cbn. rewrite Hl'. cbn. by rewrite bool_decide_true by done.
    + eapply table_step; [exact Hs|done| | | |].
      * run_sql. rewrite E. cbn. rewrite Ei. cbn. rewrite Hz, Hl'.
        repeat (rewrite decide_False by done; cbn). reflexivity.
      * done.
      * intros _ k x. cbn. unfold update_key. rewrite E. cbn. intros Hk.
        apply lookup_insert_Some in Hk as [[<- <-]|[_ Hk]]; [done|]. by apply (He k).
      * run_sql. rewrite E. cbn. rewrite Ei. cbn. rewrite Hl'. cbn. rewrite bool_decide_false by done.
        cbn. by rewrite decide_False by done.
  - eapply read_step; [exact Hs|done| |]; run_sql; by rewrite E.
Qed.

Lemma do_consume_refresh_token_agrees h now :
  in_i64 now -> agrees (do_consume_refresh_token h now) (mem_consume_refresh_token (Cid := Cid) h now).
Proof.
  intros Hn d g Hg. pose proof (consume_refresh_token_simulates (Cid := Cid) h now Hn) as Hs.
  destruct (select_refresh h (as_i64 now) (do_tables d)) as [[r u]|] eqn:E.
  - destruct (u =? 0) eqn:Eu.
    + eapply table_step; [exact Hs|done| | | |].
      * run_sql. rewrite E, Eu. cbn. reflexivity.
      * done.
      * done.
      * run_sql. by rewrite E, Eu.
    + eapply read_step; [exact Hs|done| |]; run_sql; by rewrite E, Eu.
  - eapply read_step; [exact Hs|done| |]; by run_sql; rewrite E.
Qed.
(** [count( * )] before a [DELETE] with the same condition is the rows deleted. *)
Lemma count_where_deleted {V} (p : V -> bool) (m : gmap string V) :
  count_where p m = fst (delete_where p m).
Proof.
  unfold count_where, delete_where. simpl.
  rewrite <- (map_filter_union_complement (fun kv => p (snd kv) = true) m) at 2.
  rewrite map_size_disj_union by apply map_disjoint_filter_complement.
  assert (filter (fun kv => ~ p kv.2 = true) m = filter (fun kv => p kv.2 = false) m) as ->; [|lia].
  apply map_filter_ext. intros k v _. simpl. by destruct (p v).
Qed.

Lemma do_revoke_session_agrees sid :
  agrees (do_revoke_session sid) (mem_revoke_session (Cid := Cid) sid).
Proof.
  intros d g Hg. eapply table_step; [apply revoke_session_simulates|done| | | |].
  - run_sql. reflexivity.
  - done.
  - done.
  - run_sql. by rewrite count_where_deleted.
Qed.

Lemma do_revoke_refresh_token_agrees h :
  agrees (do_revoke_refresh_token h) (mem_revoke_refresh_token (Cid := Cid) h).
Proof.
  intros d g Hg. destruct (t_refresh (do_tables d) !! h) as [x|] eqn:E.
  - eapply table_step; [apply revoke_refresh_token_simulates|done| | | |].
    + run_sql. rewrite E. cbn. reflexivity.
    + done.
    + done.
    + run_sql. by rewrite E.
  - eapply read_step; [apply revoke_refresh_token_simulates|done| |]; run_sql; by rewrite E.
Qed.

Lemma do_record_dpop_jti_agrees j e :
  in_i64 e -> agrees (do_record_dpop_jti j e) (mem_record_dpop_jti (Cid := Cid) j e).
Proof.
  intros He d g Hg. destruct (t_jti (do_tables d) !! j) as [x|] eqn:E.
  - eapply read_step; [by apply record_dpop_jti_simulates|done| |]; run_sql; rewrite E; [done|].
    by rewrite bool_decide_true by done.
  - eapply table_step; [by apply record_dpop_jti_simulates|done| | | |].
    + run_sql. rewrite E. cbn. reflexivity.
    + done.
    + done.
    + run_sql. rewrite E, bool_decide_false by (by intros []). cbn. by rewrite E.
Qed.

Lemma do_purge_expired_agrees now :
  in_i64 now -> agrees (do_purge_expired now) (mem_purge_expired (Cid := Cid) now).
Proof.
  intros Hn d g Hg. eapply table_step; [by apply purge_expired_simulates|done| | | |].
  - run_sql. reflexivity.
  - done.
  - done.
  - run_sql. rewrite !count_where_deleted. done.
Qed.

(** *** Blobs *)

Lemma no_slash_app a b : no_slash (a +:+ String "/" b) = false.
Proof.
  unfold no_slash. induction a as [|c a IH]; [done|]. rewrite str_app_cons.
  cbn [String.list_ascii_of_string forallb]. by rewrite IH, andb_false_r.
Qed.

Lemma blob_key_inj did cid did' cid' :
  no_slash cid = true -> no_slash cid' = true -> blob_key did cid = blob_key did' cid' ->
  did = did' /\ cid = cid'.
Proof.
  unfold blob_key. intros Hc Hc'. revert did'. induction did as [|a did IH]; intros [|a' did'] E.
  - injection E as E. assert (cid = cid') as -> by exact E. done.
  - injection E as _ E. assert (cid = did' +:+ String "/" cid') as -> by exact E.
    by rewrite no_slash_app in Hc.
  - injection E as _ E. assert (cid' = did +:+ String "/" cid) as -> by (symmetry; exact E).
    by rewrite no_slash_app in Hc'.
  - injection E as -> E. by destruct (IH did' E) as [-> ->].
Qed.

Definition blob_row (d : DoDb) (k : string * string) (x : BlobRef) : option BlobRow :=
  b ← r2 d !! blob_key (fst k) (snd k); Some (MkBlobRow (br_mime_type x) (br_size x) b).

Lemma blobs_of_lookup d k : blobs_of d !! k = (blob_refs d !! k) ≫= blob_row d k.
Proof. unfold blobs_of. rewrite map_lookup_imap. by destruct (blob_refs d !! k). Qed.

Lemma blobs_of_put d did cid mime size b :
  no_slash cid = true ->
  (forall k x, blob_refs d !! k = Some x -> no_slash (snd k) = true) ->
  blobs_of (put_blob_refs (<[(did, cid) := MkBlobRef mime size]> (blob_refs d))
              (put_r2 (<[blob_key did cid := b]> (r2 d)) d)) =
  <[(did, cid) := MkBlobRow mime size b]> (blobs_of d).
Proof.
  intros Hc Hr. apply map_eq. intros k. rewrite blobs_of_lookup. cbn.
  destruct (decide (k = (did, cid))) as [->|Hne].
  - rewrite !lookup_insert_eq. cbn. unfold blob_row. cbn. by rewrite lookup_insert_eq.
  - rewrite !lookup_insert_ne, blobs_of_lookup by done.
    destruct (blob_refs d !! k) as [x|] eqn:E; [|done]. cbn. unfold blob_row. cbn.
    rewrite lookup_insert_ne; [done|]. intros Ek. destruct k as [k1 k2]. apply Hne. cbn in Ek.
    destruct (blob_key_inj did cid k1 k2 Hc (Hr _ _ E) Ek) as [-> ->]. done.
Qed.

Lemma do_put_blob_agrees did cid mime size b :
  no_slash cid = true -> agrees (do_put_blob did cid mime size b) (mem_put_blob (Cid := Cid) did cid mime size b).
Proof.
  intros Hc d g Hg. eexists. split; [reflexivity|].
  destruct (put_blob_simulates (Cid := Cid) did cid mime size b) as (F & [Hd _] & Hs).
  specialize (Hs _ _ (ds_sim _ _ Hg)). destruct (Hd (MkConn (sqlite_of d) [])) as [_ Hr]. cbn in Hr.
  rewrite Hr in Hs. destruct Hs as (g' & Eg & Hs). injection Eg as <-.
  destruct Hg as [H1 H2 H3 H4]. constructor; [|done| |done].
  - unfold sqlite_of. cbn. rewrite blobs_of_put; [exact Hs|done|]. intros k x Hk. by eapply H3.
  - cbn. intros k x Hk. apply lookup_insert_Some in Hk as [[<- _]|[Hne Hk]]; cbn.
    + split; [done|]. rewrite lookup_insert_eq. by eexists.
    + destruct (H3 _ _ Hk) as [Hn Hsome]. split; [done|].
      destruct (decide (blob_key did cid = blob_key (fst k) (snd k))) as [->|Hk'];
        [rewrite lookup_insert_eq; by eexists|by rewrite lookup_insert_ne].
Qed.

Lemma do_get_blob_agrees did cid : agrees (do_get_blob did cid) (mem_get_blob (Cid := Cid) did cid).
Proof.
  intros d g Hg. exists d. split; [|exact Hg]. unfold mem_get_blob, read.
  rewrite <- (sim_blobs _ _ (ds_sim _ _ Hg)), lookup_fmap. cbn [sq_blobs sqlite_of].
  rewrite blobs_of_lookup. unfold do_get_blob. run_sql.
  destruct (blob_refs d !! (did, cid)) as [x|] eqn:E; cbn; [|done].
  destruct (ds_refs _ _ Hg _ _ E) as [_ [b Hb]]. unfold blob_row. cbn in Hb |- *. by rewrite Hb.
Qed.

Lemma do_cids_perm did d (g : Inner Cid) : do_sim d g -> do_cids_of did d ≡ₚ cids_of did (sqlite_of d).
Proof.
  intros Hg. unfold do_cids_of, cids_of. apply Permutation_map, filter_list_perm. cbn.
  apply NoDup_Permutation; [apply NoDup_fst_map_to_list..|]. intros k.
  rewrite !list_elem_of_fmap. split.
  - intros ([k' x] & -> & Hk). apply elem_of_map_to_list in Hk.
    destruct (ds_refs _ _ Hg _ _ Hk) as [_ [b Hb]].
    exists (k', MkBlobRow (br_mime_type x) (br_size x) b). split; [done|].
    apply elem_of_map_to_list. rewrite blobs_of_lookup, Hk. cbn. unfold blob_row. by rewrite Hb.
  - intros ([k' r] & -> & Hk). apply elem_of_map_to_list in Hk. rewrite blobs_of_lookup in Hk.
    destruct (blob_refs d !! k') as [x|] eqn:E; [|done]. exists (k', x). split; [done|].
    by apply elem_of_map_to_list.
Qed.

Lemma do_list_blobs_agrees did limit cursor :
  in_i64 limit -> agrees (do_list_blobs did limit cursor) (mem_list_blobs (Cid := Cid) did limit cursor).
Proof.
  intros Hl d g Hg. eapply read_step; [by apply list_blobs_simulates|done|reflexivity|].
  assert (merge_sort String.le (List.filter (after_cursor cursor) (do_cids_of did d)) =
          merge_sort String.le (List.filter (after_cursor cursor) (cids_of did (sqlite_of d)))) as E.
  2: { unfold do_list_blobs. run_sql. by rewrite E. }
  apply (StronglySorted_unique String.le).
  - apply (StronglySorted_merge_sort String.le).
  - apply (StronglySorted_merge_sort String.le).
  - rewrite !merge_sort_Permutation. apply filter_list_perm. by eapply do_cids_perm.
Qed.

(** *** Commits *)

Lemma put_blocks_loop_sound (bs : list (Cid * bytes)) d :
  put_blocks_loop bs (MkConn d []) =
  (Ok tt, MkConn (with_tables (insert_block_texts bs (do_tables d)) d) []).
Proof.
  revert d. induction bs as [|[c b] bs IH]; intros d; [by destruct d|]. cbn [put_blocks_loop insert_block_texts].
  unfold bind at 1, sql at 1, with_err at 1, x_tables at 1, execute at 1, stmt at 1. cbn [faults db map_err tail].
  by rewrite IH.
Qed.

Lemma counter_fresh d (g : Inner Cid) t :
  do_sim d g -> t_repo_seq t = t_repo_seq (do_tables d) ->
  existsb (fun r => ev_seq r =? next_seq g + 1) (t_repo_seq t) = false.
Proof.
  intros Hg ->. apply not_true_is_false. intros (r & Hr & E)%existsb_exists. apply Z.eqb_eq in E.
  apply (max_event_seq_ge (do_tables d)) in Hr. pose proof (sim_next _ _ (ds_sim _ _ Hg)) as Hn.
  unfold last_seq in Hn. cbn in Hn. lia.
Qed.

Lemma do_commit_blocks_agrees (bs : list (Cid * bytes)) did root ev d g :
  do_sim d g -> next_seq g < i64_max ->
  exists d', do_commit_blocks bs did root ev (MkConn d []) =
               (fst (mem_commit_blocks bs did root ev g), MkConn d' []) /\
             do_sim d' (snd (mem_commit_blocks bs did root ev g)).
Proof.
  intros Hg Hl. pose proof (sim_next _ _ (ds_sim _ _ Hg)) as Hn. rewrite <- Hn in Hl.
  destruct (commit_sim bs did root ev _ _ (ds_sim _ _ Hg) Hl) as (g' & -> & Hn' & Hs). rewrite Hn in Hn', Hs |- *.
  exists (MkDo (committed bs did root ev (next_seq g + 1) (do_tables d)) (Some (next_seq g + 1)) (blob_refs d)
            (r2 d) (device_keys d) (signin_requests d)). split.
  - unfold do_commit_blocks. unfold bind at 1. rewrite put_blocks_loop_sound.
    unfold increment_counter, read_counter, insert_numbered_event. run_sql.
    rewrite (ds_counter _ _ Hg). cbn -[Z.leb i64_max Z.eqb]. rewrite (Z.add_comm 1).
    rewrite (proj2 (Z.leb_le _ _)) by lia. cbn -[Z.eqb].
    destruct (insert_block_texts_other bs (do_tables d)) as [Ht _].
    by rewrite (counter_fresh d g _ Hg Ht).
  - destruct Hg as [H1 H2 H3 H4]. constructor; [exact Hs|simpl; by rewrite Hn'|exact H3|].
    destruct (insert_block_texts_other bs (do_tables d)) as [_ E]. unfold all_enabled, committed. cbn.
    by rewrite E.
Qed.

(** ** Conformance *)

(** Arguments on which the backends agree here: a blob's CID is a CID's text,
    and no limit is below zero for blobs alone. *)
Definition do_in_range (c : store_call Cid) : Prop :=
  match c with
  | Change (CPutBlob _ cid _ _ _) => no_slash cid = true
  | Change c => change_in_range c
  | Ask (QBackfill _ _) => True
  | Ask q => query_in_range q
  end.
#[export] Instance do_in_range_dec c : Decision (do_in_range c).
Proof. destruct c as [[]|[]]; apply _. Defined.

Lemma do_perform_agrees (c : store_call Cid) d g :
  do_in_range c -> do_sim d g -> next_seq g < i64_max ->
  exists d', perform (St := DoStore) c (MkConn d []) =
               (fst (perform (St := Inner Cid) c g), MkConn d' []) /\
             do_sim d' (snd (perform (St := Inner Cid) c g)).
Proof.
  intros Hc Hg Hl. destruct c as [c|q].
  - destruct c; simpl in Hc;
      [ | |destruct (do_commit_blocks_agrees bs did root body d g Hg Hl) as (d' & E & Hd');
           exists d'; simpl; unfold giving, bind; rewrite E; by split|..];
      clear Hl; revert d g Hg; apply agrees_map.
    + by apply do_put_block_agrees.
    + by apply do_update_repo_root_agrees.
    + by apply do_insert_account_agrees.
    + by apply do_count_and_insert_account_agrees.
    + by apply do_update_account_agrees.
    + by apply do_update_account_agrees.
    + by apply do_update_account_agrees.
    + by apply do_insert_invite_agrees.
    + by apply do_consume_invite_agrees.
    + by apply do_upsert_preferences_agrees.
    + by apply do_put_key_blob_agrees.
    + by apply do_put_blob_agrees.
    + by apply do_put_pushed_request_agrees.
    + by apply do_delete_pushed_request_agrees.
    + by apply do_put_auth_code_agrees.
    + by apply do_consume_auth_code_agrees.
    + by apply do_put_refresh_token_agrees.
    + by apply do_consume_refresh_token_agrees.
    + by apply do_revoke_session_agrees.
    + by apply do_revoke_refresh_token_agrees.
    + by apply do_record_dpop_jti_agrees.
    + by apply do_purge_expired_agrees.
  - clear Hl. revert d g Hg. destruct q; simpl in Hc; apply agrees_map.
    + by apply do_read_block_bytes_agrees.
    + by apply do_max_seq_agrees.
    + by apply do_backfill_page_agrees.
    + by apply do_load_repo_root_agrees.
    + by apply do_count_accounts_agrees.
    + by apply do_get_account_by_handle_agrees.
    + by apply do_get_did_by_handle_agrees.
    + by apply do_get_handle_by_did_agrees.
    + by apply do_get_preferences_agrees.
    + by apply do_get_key_blob_agrees.
    + by apply do_get_blob_agrees.
    + by apply do_list_blobs_agrees.
    + by apply do_get_pushed_request_agrees.
Qed.

Lemma do_run_agrees (cs : list (store_call Cid)) n d (g : Inner Cid) :
  Forall do_in_range cs -> do_sim d g -> log_inv n g -> Z.of_nat (n + length cs) <= i64_max ->
  exists d', run_calls (St := DoStore) cs (MkConn d []) =
               (fst (run_calls (St := Inner Cid) cs g), MkConn d' []) /\
             do_sim d' (snd (run_calls (St := Inner Cid) cs g)).
Proof.
  intros Hcs. revert n d g. induction Hcs as [|c cs Hc _ IH]; intros n d g Hd Hg Hn; [by exists d|].
  cbn [run_calls length] in *.
  destruct (perform_log_inv c n g Hg) as (n' & Hn' & Hg'); [lia|].
  destruct (do_perform_agrees c d g Hc Hd) as (d1 & E & Hd1); [rewrite (proj2 Hg); lia|].
  rewrite E. destruct (perform (St := Inner Cid) c g) as [r g1]. simpl in Hg', Hd1 |- *.
  destruct (IH n' d1 g1 Hd1 Hg' ltac:(lia)) as (d2 & E2 & Hd2). rewrite E2.
  exists d2. by destruct (run_calls cs g1) as [l g2].
Qed.

Lemma do_sim_empty : do_sim DoDb_empty Inner_default.
Proof.
  constructor; [|done|intros k x E; cbn in E; by rewrite lookup_empty in E|apply map_Forall_empty].
  assert (sqlite_of DoDb_empty = SqliteDb_empty) as ->; [|apply sim_empty].
  unfold sqlite_of, SqliteDb_empty. f_equal.
Qed.

End Agreement.

(** ** What holds when statements fail *)

Section Faults.
Context {Cid : Type} `{Countable Cid} `{!CidLib Cid} `{!CidText Cid} `{!SqlScan}.

(** The counter is there, and every number in the log was its value once. *)
Definition log_ok (d : DoDb) : Prop :=
  exists n, seq_counter d = Some n /\ log_ascending (event_seqs (do_tables d)) /\
    forall r, In r (t_repo_seq (do_tables d)) -> ev_seq r <= n.

Lemma log_ok_tables d t : t_repo_seq t = t_repo_seq (do_tables d) -> log_ok d -> log_ok (with_tables t d).
Proof. intros E (n & H1 & H2 & H3). exists n. unfold event_seqs in *. cbn. by rewrite E. Qed.

Lemma log_ok_ext d d' :
  seq_counter d' = seq_counter d -> t_repo_seq (do_tables d') = t_repo_seq (do_tables d) -> log_ok d -> log_ok d'.
Proof. intros E1 E2 (n & H1 & H2 & H3). exists n. unfold event_seqs in *. by rewrite E1, E2. Qed.

(** [keeps_auto] goes through the statements of an operation that leaves the log
    alone. *)
Ltac keeps_auto :=
  repeat first
    [ apply conn_keeps_ret | apply conn_keeps_throw | apply conn_keeps_lift
    | apply conn_keeps_with_err
    | apply conn_keeps_bind; [|intros ?]
    | apply conn_keeps_stmt; intros ? ? ?; cbn;
      repeat (case_match; simplify_eq/=; try done); intros; simplify_eq/=; by eapply log_ok_ext
    | progress unfold sql, exists_row, purge_table, q_tables, x_tables, s_tables, query, execute
    | progress case_match ].

(** A statement: either nothing and an error, or what it says. *)
Lemma sql_stmt_cases {A} (f : DoDb -> result string (A * DoDb)) c r c' :
  sql (stmt f) c = (r, c') ->
  (exists e, r = Err e /\ db c' = db c) \/ (exists a, f (db c) = Ok (a, db c') /\ r = Ok a).
Proof.
  unfold sql, with_err, stmt. destruct (faults c) as [|[e|] fs]; [|intros [= <- <-]; left; by eexists|];
    (destruct (f (db c)) as [[a d]|e'];
       [intros [= <- <-]; right; by eexists|intros [= <- <-]; left; by eexists]).
Qed.

(** A statement, then the rest: what is left to show of each. *)
Lemma keeps_stmt_bind (I : DoDb -> Prop) {A B} (f : DoDb -> result string (A * DoDb)) (k : A -> op DoStore B) c :
  I (db c) ->
  (forall a c1, f (db c) = Ok (a, db c1) -> I (db (snd (k a c1)))) ->
  I (db (snd (bind (sql (stmt f)) k c))).
Proof.
  intros Hc Hk. unfold bind. destruct (sql (stmt f) c) as [r c1] eqn:E.
  destruct (sql_stmt_cases f c r c1 E) as [(e & -> & Ed)|(a & Ef & ->)]; [simpl; by rewrite Ed|eauto].
Qed.

Lemma log_ok_append d n r t :
  log_ok d -> seq_counter d = Some n -> (forall x, In x (t_repo_seq (do_tables d)) -> ev_seq x < n) -> ev_seq r = n ->
  t_repo_seq t = t_repo_seq (do_tables d) ++ [r] -> log_ok (with_tables t d).
Proof.
  intros (n' & Hn & Ha & Hle) Hn' Hlt Hr Ht. exists n. split; [done|]. unfold event_seqs. cbn. rewrite Ht.
  split.
  - rewrite map_app. apply log_ascending_snoc; [done|]. cbn. rewrite Hr.
    intros z Hz. apply in_map_iff in Hz as (y & <- & Hy). by apply Hlt.
  - intros y Hy. apply in_app_iff in Hy as [Hy|[<-|[]]]; [apply Hlt in Hy; lia|lia].
Qed.

Lemma do_commit_keeps_log (bs : list (Cid * bytes)) did root ev : conn_keeps log_ok (do_commit_blocks bs did root ev).
Proof.
  unfold do_commit_blocks. apply conn_keeps_bind.
  { induction bs as [|[c b] bs IH]; [apply conn_keeps_ret|]. apply conn_keeps_bind; [keeps_auto|by intros]. }
  intros _ c (n & Hn & Ha & Hle).
  unfold increment_counter, read_counter, insert_numbered_event, s_tables, execute.
  apply (keeps_stmt_bind log_ok); [by exists n|]. intros u c1 E1. injection E1 as _ E1.
  rewrite Hn in E1. assert (log_ok (db c1)) as Hc1.
  { rewrite <- E1. exists (1 + n). split_and!; [done..|]. intros r Hr. apply Hle in Hr. lia. }
  apply (keeps_stmt_bind log_ok); [done|]. intros next c2 E2.
  assert (next = Some (1 + n) /\ db c2 = db c1) as [-> Ec2].
  { rewrite <- E1 in E2 |- *. cbn -[Z.leb i64_max Z.add] in E2.
    destruct (1 + n <=? i64_max); [|done]. injection E2 as <- <-. done. }
  unfold bind at 1, lift at 1. cbn [ok_or]. rewrite <- Ec2 in Hc1.
  apply (keeps_stmt_bind log_ok); [done|]. intros u' c3 E3.
  assert (log_ok (db c3)) as Hc3.
  { cbn in E3. destruct (existsb _ _); [done|]. injection E3 as _ E3. rewrite <- E3.
    apply (log_ok_append _ (1 + n) (MkEventRow (1 + n) did ev 0)); [done|by rewrite Ec2, <- E1| |done|done].
    rewrite Ec2, <- E1. intros x Hx. apply Hle in Hx. lia. }
  assert (conn_keeps log_ok (sql (x_tables (replace_root did (cid_to_string root))) ;;! ret (1 + n))%se) as Hk by keeps_auto.
  by apply Hk.
Qed.

Lemma do_perform_keeps_log (c : store_call Cid) : conn_keeps log_ok (perform (St := DoStore) c).
Proof.
  destruct c as [c|q].
  - destruct c; apply conn_keeps_bind; try (intros ?; apply conn_keeps_ret).
    3: apply do_commit_keeps_log.
    all: simpl; unfold do_put_block, do_update_repo_root, do_insert_account, do_count_and_insert_account,
      do_count_accounts, do_update_password, do_set_takedown, do_clear_takedown, do_update_account,
      do_insert_account, insert_account_row, do_insert_invite, do_consume_invite, do_upsert_preferences,
      do_put_key_blob, do_put_blob, do_put_pushed_request, do_delete_pushed_request, do_put_auth_code,
      do_consume_auth_code, do_put_refresh_token, do_consume_refresh_token, do_revoke_session,
      do_revoke_refresh_token, drop_session_rows, do_record_dpop_jti, do_purge_expired; keeps_auto.
  - destruct q; apply conn_keeps_bind; try (intros ?; apply conn_keeps_ret); simpl;
      unfold do_read_block_bytes, do_max_seq, do_backfill_page, do_load_repo_root, do_count_accounts,
        do_get_account_by_handle, do_get_did_by_handle, do_get_handle_by_did, do_get_preferences,
        do_get_key_blob, do_get_blob, do_list_blobs, do_get_pushed_request; keeps_auto.
Qed.

Lemma do_run_keeps_log (cs : list (store_call Cid)) c : log_ok (db c) -> log_ok (db (snd (run_calls (St := DoStore) cs c))).
Proof.
  revert c. induction cs as [|x cs IH]; intros c Hc; [done|]. simpl.
  pose proof (do_perform_keeps_log x c Hc) as Hx. destruct (perform (St := DoStore) x c) as [r c1].
  specialize (IH c1 Hx). by destruct (run_calls (St := DoStore) cs c1).
Qed.

Lemma log_ok_empty : log_ok DoDb_empty.
Proof. exists 0. split_and!; [done|constructor|done]. Qed.

End Faults.

(** ** Device-approval sign-ins *)

Inductive signin_call :=
| SCreate (request_id user_code client_name : string) (expires_at : Z) (now : string)
| SApprove (request_id did handle access_jwt refresh_jwt : string)
| SDeny (request_id : string).

Definition signin_perform (x : signin_call) : op DoStore unit :=
  match x with
  | SCreate i u c e now => create_signin i u c e now
  | SApprove i d h a r => approve_signin i d h a r
  | SDeny i => deny_signin i
  end.

Definition signin_run (xs : list signin_call) (c : DoStore) : DoStore :=
  foldl (fun c x => snd (signin_perform x c)) c xs.

Lemma decide_signin_decided i f d j r :
  signin_requests d !! j = Some r -> sg_status r <> "pending" ->
  signin_requests (decide_signin i f d) !! j = Some r.
Proof.
  intros Hj Hr. unfold decide_signin. destruct (signin_requests d !! i) as [r'|] eqn:Ei; [|done].
  destruct (String.eqb_spec (sg_status r') "pending") as [Hp|]; [|done]. cbn.
  rewrite lookup_insert_ne; [done|]. intros ->. simplify_eq.
Qed.

Lemma signin_step_decided x j r :
  sg_status r <> "pending" -> conn_keeps (fun d => signin_requests d !! j = Some r) (signin_perform x).
Proof.
  intros Hr. destruct x; apply conn_keeps_with_err, conn_keeps_stmt; intros d a d'.
  - destruct (signin_requests d !! request_id) as [r'|] eqn:E; [done|]. intros [= <- <-] Hj. cbn.
    rewrite lookup_insert_ne; [done|]. by intros ->; rewrite E in Hj.
  - intros [= <- <-] Hj. by apply decide_signin_decided.
  - intros [= <- <-] Hj. by apply decide_signin_decided.
Qed.

(** a sign-in request that was approved or denied stays exactly as decided,
    session and all, through any further requests, approvals and denials and any
    failed statements. *)
Theorem signin_decided_final (xs : list signin_call) (c : DoStore) (request_id : string) (r : Signin) :
  signin_requests (db c) !! request_id = Some r -> sg_status r <> "pending" ->
  signin_requests (db (signin_run xs c)) !! request_id = Some r.
Proof.
  intros Hj Hr. unfold signin_run. revert c Hj. induction xs as [|x xs IH]; intros c Hj; [done|].
  simpl. apply IH. by apply (signin_step_decided x request_id r Hr c).
Qed.

Lemma signin_decided_final_witness :
  let c := signin_run [SCreate "r" "1234" "app" 100 "2024"; SApprove "r" "did:a" "al" "acc" "ref"]
             (MkConn DoDb_empty []) in
  let r := MkSignin "1234" "app" "approved" (Some "did:a") (Some "al") (Some "acc") (Some "ref") "2024" 100 in
  signin_requests (db c) !! "r" = Some r /\
  signin_requests (db (signin_run [SDeny "r"; SApprove "r" "did:evil" "e" "x" "y"; SCreate "r" "0" "z" 5 "t"] c))
    !! "r" = Some r.
Proof.
  split; [vm_compute; reflexivity|].
  apply (signin_decided_final _ _ "r"); [vm_compute; reflexivity|done].
Defined.

(** ** Theorems *)

Section Theorems.
Context {Cid : Type} `{Countable Cid} `{!CidLib Cid} `{!CidText Cid} `{!CidTextLaws Cid} `{!SqlScan}.

(** C16: while no statement fails, the Durable Object backend answers as the
    in-memory one.  For any list of calls of [store_call] that are in range — the
    times of authorization requests, codes, tokens and proofs and the limit of a
    list of blobs within the non-negative [i64], the cid of a blob without a
    slash — on a new object, the answers and the errors are the same, call for
    call.  [list_accounts], whose order differs, and [list_sessions_for_did] are
    not among these calls. *)
Theorem do_equiv_memory (cs : list (store_call Cid)) :
  Forall do_in_range cs -> Z.of_nat (length cs) <= i64_max ->
  fst (run_calls (St := DoStore) cs (MkConn DoDb_empty [])) =
  fst (run_calls (St := Inner Cid) cs Inner_default).
Proof.
  intros Hcs Hn. destruct (do_run_agrees cs 0 DoDb_empty Inner_default) as (d' & -> & _);
    [done|apply do_sim_empty|apply log_inv_default|done|done].
Qed.

(** whatever statements fail in between, the event log's numbers ascend
    strictly and none is above the counter: no number is ever given twice. *)
Theorem do_log_ascending (cs : list (store_call Cid)) (schedule : list (option string)) :
  let d := db (snd (run_calls (St := DoStore) cs (MkConn DoDb_empty schedule))) in
  exists n, seq_counter d = Some n /\ StronglySorted Z.lt (event_seqs (do_tables d)) /\
    forall r, In r (t_repo_seq (do_tables d)) -> ev_seq r <= n.
Proof. apply (do_run_keeps_log cs (MkConn DoDb_empty schedule)), log_ok_empty. Qed.

(** a commit is not all or nothing here.  If the last statement of
    [commit_blocks] fails, the caller is told the commit failed, while its blocks
    and its event are stored and numbered and the repository's root is the old
    one: subscribers are sent a commit the repository does not have. *)
Theorem do_commit_torn (bs : list (Cid * bytes)) did root ev d n e :
  seq_counter d = Some n -> n < i64_max -> (forall r, In r (t_repo_seq (do_tables d)) -> ev_seq r <= n) ->
  exists d', do_commit_blocks bs did root ev (MkConn d (repeat None (length bs + 3) ++ [Some e])) =
               (Err (Pool ("durable object sql: " +:+ e)), MkConn d' []) /\
    t_repo_seq (do_tables d') = t_repo_seq (do_tables d) ++ [MkEventRow (n + 1) did ev 0] /\
    t_blocks (do_tables d') = t_blocks (insert_block_texts bs (do_tables d)) /\
    t_repo_roots (do_tables d') = t_repo_roots (do_tables d).
Proof.
  intros Hc Hn Hle.
  assert (forall d fs, put_blocks_loop bs (MkConn d (repeat None (length bs) ++ fs)) =
            (Ok tt, MkConn (with_tables (insert_block_texts bs (do_tables d)) d) fs)) as Hloop.
  { clear. induction bs as [|[c b] bs IH]; intros d fs; [by destruct d|].
    cbn [put_blocks_loop length repeat app]. unfold bind, sql, with_err, x_tables, execute, stmt. cbn.
    by rewrite IH. }
  destruct (insert_block_texts_other bs (do_tables d)) as [Ht Ho].
  assert (existsb (fun r => ev_seq r =? n + 1) (t_repo_seq (insert_block_texts bs (do_tables d))) = false) as Hf.
  { rewrite Ht. apply not_true_is_false. intros (r & Hr & E%Z.eqb_eq)%existsb_exists. apply Hle in Hr. lia. }
  rewrite repeat_app, <- app_assoc. unfold do_commit_blocks. unfold bind at 1. rewrite Hloop.
  unfold increment_counter, read_counter, insert_numbered_event. run_sql. rewrite Hc.
  cbn -[Z.leb i64_max Z.eqb]. rewrite (Z.add_comm 1), (proj2 (Z.leb_le _ _)) by lia. cbn -[Z.eqb].
  rewrite Hf. cbn. eexists. split; [reflexivity|]. cbn. by rewrite Ho.
Qed.

(** deleting an account leaves nothing of it to look up by its DID: no row,
    keys, preferences, root, events, blobs, devices or sign-ins; what belongs to
    other DIDs stays, and so do the blocks and the sequence counter. *)
Theorem delete_account_erases (did : string) (d : DoDb) :
  exists d', delete_account_data did (MkConn d []) = (Ok tt, MkConn d' []) /\
    let t := do_tables d in let t' := do_tables d' in
    (t_accounts t' !! did = None /\ t_keys t' !! (did +:+ "#signing") = None /\
     t_keys t' !! (did +:+ "#rotation") = None /\ t_preferences t' !! did = None /\
     t_repo_roots t' !! did = None /\ (forall r, In r (t_repo_seq t') -> ev_did r <> did) /\
     (forall cid, blob_refs d' !! (did, cid) = None) /\ device_keys d' = ∅ /\ signin_requests d' = ∅) /\
    (forall did', did' <> did ->
      t_accounts t' !! did' = t_accounts t !! did' /\ t_preferences t' !! did' = t_preferences t !! did' /\
      t_repo_roots t' !! did' = t_repo_roots t !! did' /\
      (forall cid, blob_refs d' !! (did', cid) = blob_refs d !! (did', cid)) /\
      List.filter (fun r => String.eqb (ev_did r) did') (t_repo_seq t') =
        List.filter (fun r => String.eqb (ev_did r) did') (t_repo_seq t)) /\
    t_blocks t' = t_blocks t /\ seq_counter d' = seq_counter d.
Proof.
  eexists. split; [reflexivity|]. cbn. split; [split_and!|split; [|done]]; try done.
  - apply lookup_delete_eq.
  - destruct (decide (did +:+ "#rotation" = did +:+ "#signing")) as [E|Hne].
    + rewrite E. by rewrite lookup_delete_eq.
    + rewrite lookup_delete_ne by done. apply lookup_delete_eq.
  - apply lookup_delete_eq.
  - apply lookup_delete_eq.
  - apply lookup_delete_eq.
  - intros r [_ Hr]%filter_In. apply negb_true_iff in Hr. by apply String.eqb_neq in Hr.
  - intros cid. apply map_lookup_filter_None. right. by intros x _ [].
  - intros did' Hne. rewrite !lookup_delete_ne by done. split_and!; try done.
    + intros cid. rewrite map_lookup_filter_case. destruct (_ !! _); [|done]. by rewrite decide_True.
    + induction (t_repo_seq (do_tables d)) as [|r l IH]; [done|]. simpl.
      destruct (String.eqb_spec (ev_did r) did) as [->|]; simpl.
      * destruct (String.eqb_spec did did') as [->|]; [done|]. exact IH.
      * destruct (String.eqb (ev_did r) did'); [by rewrite IH|exact IH].
Qed.

End Theorems.

Definition do_demo_calls : list (store_call string) :=
  demo_calls ++ [ Change (CPutBlob "did:a" "c9" "image/png" 1 "x"); Ask (QBlob "did:a" "c9");
                  Ask (QBackfill 0 (-1)) ].

Lemma do_equiv_memory_witness :
  fst (run_calls (St := DoStore) do_demo_calls (MkConn DoDb_empty [])) =
  fst (run_calls (St := Inner string) do_demo_calls Inner_default) /\
  map snd (drop 1 (take 2 (fst (run_calls (St := DoStore) do_demo_calls (MkConn DoDb_empty []))))) =
    [Err (Constraint "handle already taken: al.test")].
Proof.
  split; [|vm_compute; reflexivity]. apply do_equiv_memory.
  - apply (bool_decide_unpack _). vm_compute. exact I.
  - vm_compute. discriminate.
Defined.

Lemma do_commit_torn_witness :
  exists d', do_commit_blocks [("c1", "b1")] "did:a" "c1" "ev"
      (MkConn DoDb_empty [None; None; None; None; Some "disk full"]) =
    (Err (Pool "durable object sql: disk full"), MkConn d' []) /\
    t_repo_seq (do_tables d') = [MkEventRow 1 "did:a" "ev" 0] /\ t_repo_roots (do_tables d') = ∅.
Proof.
  destruct (do_commit_torn [("c1", "b1")] "did:a" "c1" "ev" DoDb_empty 0 "disk full")
    as (d' & E & H1 & _ & H2); [reflexivity|reflexivity|intros r []|].
  exists d'. split; [exact E|]. split; [exact H1|exact H2].
Defined.
