(* ===== verification/Suite.v ===== *)
(** * The conformance suite of the storage backends

    [src/rust-core/src/storage/conformance.rs]: the tests a backend must pass,
    as runs over any backend.  A failed assertion, or an [unwrap] of an error, is
    the error of the run.  Concurrent calls of one kind are a sequence of them:
    each takes effect at once.  The clock and the random draws of the calls are
    arguments of the tests. *)

From Stdlib Require Import ZArith Lia Ascii.
From S2P Require Import Prelude RustStr Externals Demo StoreTypes MemoryStore MemoryProps Client Repo RepoDemo Session KeyCrypto Identity.
From S2P Require Import Accounts AccountProps Sql SqliteStore SqlProps SqliteProps DoStore DoProps.

#[export] Instance StoredPushedRequest_eq_dec : EqDecision StoredPushedRequest.
Proof. solve_decision. Defined.
#[export] Instance AuthCode_eq_dec : EqDecision AuthCode.
Proof. solve_decision. Defined.
#[export] Instance RefreshTokenRecord_eq_dec : EqDecision RefreshTokenRecord.
Proof. solve_decision. Defined.
#[export] Instance ConsumeResult_eq_dec : EqDecision ConsumeResult.
Proof. solve_decision. Defined.

Section Suite.
Context {Cid St : Type} `{EqDecision Cid} `{CidLib Cid} `{KeyCiphers} `{!StorageBackend Cid St}.
(** What the call reads of the clock, the draws of the key functions, and the
    backend set up. *)
Variable now : string.
Variable salt nonce : bytes.
Variable setup : St.

Notation T := (SE St string unit).
Notation M A := (SE St string A).

Definition unwrap {E A} (m : SE St E A) : M A := with_err (fun _ => "unwrap") m.

Definition assert_eq {A} `{EqDecision A} (a b : A) : T := assert_or (bool_decide (a = b)) "assertion `left == right` failed".

Definition expect_err {E A} (m : SE St E A) : M bool :=
  (let! r := catch m in ret (is_err r))%se.


(** The backend of one test is the one set up. *)
Definition passes (t : T) : bool := is_ok (fst (t setup)).

(** ** Blocks *)

Definition block_roundtrip_and_missing : T :=
  (let bytes := "conformance block" in
   let cid := cid_of DAG_CBOR bytes in
   unwrap (put_block cid bytes) ;;!
   let! b := unwrap (read_block_bytes cid) in
   assert_eq b bytes ;;!
   let missing := cid_of DAG_CBOR "absent" in
   let! r := catch (read_block_bytes missing) in
   assert_or (match r with Err BlockNotFound => true | _ => false end)
     "a missing CID must map to BlockNotFound, not a backend error")%se.

Definition put_block_is_idempotent : T :=
  (let bytes := "written twice" in
   let cid := cid_of DAG_CBOR bytes in
   unwrap (put_block cid bytes) ;;!
   unwrap (put_block cid bytes) ;;!
   let! b := unwrap (read_block_bytes cid) in
   assert_eq b bytes)%se.

(** ** Commits, roots, sequencer *)

Definition empty_repo_has_no_root : T :=
  (let! r := unwrap (load_repo_root "did:plc:none") in
   assert_eq r None)%se.

Definition commit_sets_root_and_returns_increasing_seq : T :=
  (let did := "did:plc:commit" in
   let a := "root A" in
   let cid_a := cid_of DAG_CBOR a in
   let! seq1 := unwrap (commit_blocks [(cid_a, a)] did cid_a (String "160" "")) in
   assert_or (0 <? seq1) "seq must be positive" ;;!
   let! r := unwrap (load_repo_root did) in
   assert_eq r (Some cid_a) ;;!
   let b := "root B" in
   let cid_b := cid_of DAG_CBOR b in
   let! seq2 := unwrap (commit_blocks [(cid_b, b)] did cid_b (String "160" "")) in
   assert_eq seq2 (seq1 + 1) ;;!
   let! r := unwrap (load_repo_root did) in
   assert_eq r (Some cid_b))%se.

Definition event_bytes : bytes := String "001" (String "002" (String "003" (String "004" ""))).

Definition commit_persists_blocks_and_event_body : T :=
  (let payload := "committed block" in
   let cid := cid_of DAG_CBOR payload in
   let! seq := unwrap (commit_blocks [(cid, payload)] "did:plc:body" cid event_bytes) in
   let! b := unwrap (read_block_bytes cid) in
   assert_eq b payload ;;!
   let! page := unwrap (backfill_page (seq - 1) 10) in
   assert_eq (option_map snd (head page)) (Some event_bytes))%se.

Definition max_seq_starts_at_zero_and_tracks_commits : T :=
  (let! n := unwrap max_seq in
   assert_eq n 0 ;;!
   let payload := "seq tracking" in
   let cid := cid_of DAG_CBOR payload in
   let! seq := unwrap (commit_blocks [(cid, payload)] "did:plc:seq" cid (String "160" "")) in
   let! n := unwrap max_seq in
   assert_eq n seq)%se.

(** The commits of the next test, and their numbers. *)
Fixpoint commit_each (l : list (bytes * bytes)) : M (list Z) :=
  match l with
  | [] => ret []
  | (data, body) :: l =>
      (let cid := cid_of DAG_CBOR data in
       let! seq := unwrap (commit_blocks [(cid, data)] "did:plc:bf" cid body) in
       let! seqs := commit_each l in
       ret (seq :: seqs))%se
  end.

Definition bf_bodies : list bytes := [String "001" ""; String "002" ""; String "003" ""; String "004" ""].

Definition backfill_is_ordered_and_paged : T :=
  (let! written := commit_each (combine ["backfill 0"; "backfill 1"; "backfill 2"; "backfill 3"] bf_bodies) in
   let! all := unwrap (backfill_page 0 500) in
   assert_eq (length all) 4%nat ;;!
   assert_eq all (combine written bf_bodies) ;;!
   let! page1 := unwrap (backfill_page 0 2) in
   assert_eq (length page1) 2%nat ;;!
   let! l := lift (ok_or (last page1) "unwrap") in
   let! page2 := unwrap (backfill_page (fst l) 500) in
   assert_eq (length page2) 2%nat ;;!
   assert_eq (option_map fst (head page2)) (written !! 2%nat))%se.

Definition update_repo_root_overwrites : T :=
  (let did := "did:plc:setroot" in
   let a := cid_of DAG_CBOR "a" in
   let b := cid_of DAG_CBOR "b" in
   unwrap (update_repo_root did a) ;;!
   let! r := unwrap (load_repo_root did) in
   assert_eq r (Some a) ;;!
   unwrap (update_repo_root did b) ;;!
   let! r := unwrap (load_repo_root did) in
   assert_eq r (Some b))%se.

(** ** Accounts *)

Definition insert_plain (did handle : string) (email : option string) (phc : string) : M unit :=
  unwrap (insert_account did handle email phc now).

Definition account_insert_and_lookups : T :=
  (insert_plain "did:plc:a1" "alice.test" (Some "a@x.test") "phc-a" ;;!
   let! a := unwrap (get_account_by_handle "alice.test") in
   assert_eq a (Some ("did:plc:a1", "phc-a")) ;;!
   let! d := unwrap (get_did_by_handle "alice.test") in
   assert_eq d (Some "did:plc:a1") ;;!
   let! h := unwrap (get_handle_by_did "did:plc:a1") in
   assert_eq h (Some "alice.test") ;;!
   let! d := unwrap (get_did_by_handle "nobody.test") in
   assert_eq d None ;;!
   let! h := unwrap (get_handle_by_did "did:plc:nope") in
   assert_eq h None)%se.

Definition duplicate_did_is_rejected : T :=
  (insert_plain "did:plc:dup" "first.test" None "phc" ;;!
   let! e := expect_err (insert_account "did:plc:dup" "second.test" None "phc" now) in
   assert_or e "did is a primary key — a duplicate must be rejected")%se.

Definition duplicate_handle_is_rejected : T :=
  (insert_plain "did:plc:h1" "taken.test" None "phc" ;;!
   let! e := expect_err (insert_account "did:plc:h2" "taken.test" None "phc" now) in
   assert_or e "handle is unique — a duplicate must be rejected")%se.

Definition count_and_insert_returns_prior_count : T :=
  (let! n := unwrap count_accounts in
   assert_eq n 0 ;;!
   let! before_first := unwrap (count_and_insert_account "did:plc:c1" "c1.test" None "phc" now) in
   assert_eq before_first 0 ;;!
   let! before_second := unwrap (count_and_insert_account "did:plc:c2" "c2.test" None "phc" now) in
   assert_eq before_second 1 ;;!
   let! n := unwrap count_accounts in
   assert_eq n 2)%se.

Definition failed_insert_leaves_backend_usable : T :=
  (let! _n := unwrap (count_and_insert_account "did:plc:dup" "first.test" None "phc-1" now) in
   let! e := expect_err (count_and_insert_account "did:plc:dup" "second.test" None "phc-2" now) in
   assert_or e "is_err" ;;!
   let! before := unwrap (count_and_insert_account "did:plc:fresh" "fresh.test" None "phc-3" now) in
   assert_eq before 1)%se.

Definition takedown_hides_from_auth_lookups_and_clears : T :=
  (insert_plain "did:plc:t1" "target.test" None "phc" ;;!
   let! h := unwrap (get_handle_by_did "did:plc:t1") in
   assert_or (is_some h) "is_some" ;;!
   let! n := unwrap (set_takedown "did:plc:t1" "spam-42" now) in
   assert_eq n 1 ;;!
   let! h := unwrap (get_handle_by_did "did:plc:t1") in
   assert_or (is_none h) "a taken-down account must be invisible to DID lookup" ;;!
   let! d := unwrap (get_did_by_handle "target.test") in
   assert_or (is_none d) "a taken-down account must be invisible to handle lookup" ;;!
   let! a := unwrap (get_account_by_handle "target.test") in
   assert_or (is_none a) "a taken-down account must not be able to authenticate" ;;!
   let! n := unwrap (clear_takedown "did:plc:t1") in
   assert_eq n 1 ;;!
   let! h := unwrap (get_handle_by_did "did:plc:t1") in
   assert_or (is_some h) "is_some")%se.

Definition takedown_with_empty_reference_still_takes_effect : T :=
  (insert_plain "did:plc:t2" "empty.test" None "phc" ;;!
   let! n := unwrap (set_takedown "did:plc:t2" "" now) in
   assert_eq n 1 ;;!
   let! h := unwrap (get_handle_by_did "did:plc:t2") in
   assert_or (is_none h) "an empty reference must still mark the account taken down")%se.

Definition takedown_on_unknown_did_affects_zero_rows : T :=
  (let! n := unwrap (set_takedown "did:plc:nope" "x" now) in
   assert_eq n 0 ;;!
   let! n := unwrap (clear_takedown "did:plc:nope") in
   assert_eq n 0)%se.

Definition update_password_replaces_hash : T :=
  (insert_plain "did:plc:p1" "bob.test" None "old-phc" ;;!
   let! n := unwrap (update_password "did:plc:p1" "new-phc") in
   assert_eq n 1 ;;!
   let! a := unwrap (get_account_by_handle "bob.test") in
   assert_eq (option_map snd a) (Some "new-phc") ;;!
   let! n := unwrap (update_password "did:plc:none" "x") in
   assert_eq n 0)%se.

Definition list_accounts_includes_taken_down_in_creation_order : T :=
  (insert_plain "did:plc:l1" "l1.test" None "phc" ;;!
   insert_plain "did:plc:l2" "l2.test" None "phc" ;;!
   let! _n := unwrap (set_takedown "did:plc:l2" "reason" now) in
   let! accounts := unwrap list_accounts in
   assert_eq (length accounts) 2%nat ;;!
   assert_eq (map as_did accounts) ["did:plc:l1"; "did:plc:l2"] ;;!
   assert_eq (option_map as_takedown_ref (find (fun a => String.eqb (as_did a) "did:plc:l2") accounts))
     (Some (Some "reason")))%se.

(** ** Invites *)

Definition redeems (code did : string) (expected : bool) : T :=
  (let! b := unwrap (consume_invite code did) in
   assert_or (Bool.eqb b expected) "redemption")%se.

Definition invite_consumes_once_per_did : T :=
  (unwrap (insert_invite "code-1" 1 "admin") ;;!
   redeems "code-1" "did:plc:u1" true ;;!
   redeems "code-1" "did:plc:u1" false ;;!
   redeems "code-1" "did:plc:u2" false)%se.

Definition invite_with_multiple_uses_serves_distinct_dids : T :=
  (unwrap (insert_invite "code-2" 2 "admin") ;;!
   redeems "code-2" "did:plc:a" true ;;!
   redeems "code-2" "did:plc:b" true ;;!
   redeems "code-2" "did:plc:c" false)%se.

Definition unknown_invite_is_false_not_error : T := redeems "never-issued" "did:plc:u" false.

(** ** Preferences *)

Definition json_quoted (s : string) : string := String "034" (s +:+ String "034" "").

Definition preferences_round_trip_and_overwrite : T :=
  (let! p := unwrap (get_preferences "did:plc:x") in
   assert_eq p None ;;!
   let v1 := "[{" +:+ json_quoted "$type" +:+ ":" +:+ json_quoted "a" +:+ "}]" in
   unwrap (upsert_preferences "did:plc:x" v1) ;;!
   let! p := unwrap (get_preferences "did:plc:x") in
   assert_eq p (Some v1) ;;!
   unwrap (upsert_preferences "did:plc:x" "[]") ;;!
   let! p := unwrap (get_preferences "did:plc:x") in
   assert_eq p (Some "[]"))%se.

(** ** Blobs *)

Definition b123 : bytes := String "001" (String "002" (String "003" "")).
Definition b99 : bytes := String "009" (String "009" "").

Fixpoint put_blobs (did : string) (cids : list string) : T :=
  match cids with
  | [] => ret tt
  | cid :: cids => (unwrap (put_blob did cid "image/png" 3 b123) ;;! put_blobs did cids)%se
  end.

Definition list_blobs_paginates_in_cid_order_and_is_did_scoped : T :=
  (put_blobs "did:plc:one" ["bafyc"; "bafya"; "bafyd"; "bafyb"] ;;!
   unwrap (put_blob "did:plc:two" "bafya" "image/png" 3 (String "009" "")) ;;!
   let! all := unwrap (list_blobs "did:plc:one" 50 None) in
   assert_eq all ["bafya"; "bafyb"; "bafyc"; "bafyd"] ;;!
   let! page1 := unwrap (list_blobs "did:plc:one" 2 None) in
   assert_eq page1 ["bafya"; "bafyb"] ;;!
   let! page2 := unwrap (list_blobs "did:plc:one" 2 (last page1)) in
   assert_eq page2 ["bafyc"; "bafyd"] ;;!
   let! page3 := unwrap (list_blobs "did:plc:one" 2 (last page2)) in
   assert_eq page3 [] ;;!
   let! other := unwrap (list_blobs "did:plc:two" 50 None) in
   assert_eq other ["bafya"])%se.

Definition list_blobs_is_empty_for_an_account_with_none : T :=
  (let! l := unwrap (list_blobs "did:plc:nobody" 50 None) in
   assert_eq l [])%se.

Definition blob_round_trip_scoped_per_did : T :=
  (let! b := unwrap (get_blob "did:plc:b" "cid1") in
   assert_eq b None ;;!
   unwrap (put_blob "did:plc:b" "cid1" "image/png" 3 b123) ;;!
   let! b := unwrap (get_blob "did:plc:b" "cid1") in
   assert_eq b (Some ("image/png", b123)) ;;!
   let! b := unwrap (get_blob "did:plc:other" "cid1") in
   assert_eq b None ;;!
   unwrap (put_blob "did:plc:b" "cid1" "image/jpeg" 2 b99) ;;!
   let! b := unwrap (get_blob "did:plc:b" "cid1") in
   assert_eq b (Some ("image/jpeg", b99)))%se.

(** ** Keys *)

Definition key_blob_round_trip : T :=
  (let! k := unwrap (get_key_blob "absent") in
   assert_eq k None ;;!
   unwrap (put_key_blob "signing" b123) ;;!
   let! k := unwrap (get_key_blob "signing") in
   assert_eq k (Some b123) ;;!
   unwrap (put_key_blob "signing" b99) ;;!
   let! k := unwrap (get_key_blob "signing") in
   assert_eq k (Some b99))%se.

(** The bytes 0 to 31. *)
Definition key_0_31 : bytes := fold_right (fun n s => String (ascii_of_nat n) s) "" (seq 0 32).

Definition store_and_load_key_round_trip : T :=
  (let pass := "conformance passphrase" in
   unwrap (store_key salt nonce "signing" key_0_31 pass) ;;!
   let! k := unwrap (load_key "signing" pass) in
   assert_eq k key_0_31 ;;!
   let! o := unwrap (get_key_blob "signing") in
   let! raw := lift (ok_or o "unwrap") in
   assert_or (negb (contains_str key_0_31 raw)) "stored blob contains the plaintext key" ;;!
   let! e := expect_err (load_key "signing" "wrong") in
   assert_or e "the wrong passphrase must fail" ;;!
   let! e := expect_err (load_key "missing" pass) in
   assert_or e "a missing key must fail")%se.

(** The second backend of the next test. *)
Definition imports_exported (blob pass : bytes) : T :=
  (let! imp := lift (ok_or (import_keys usize64 "signing" blob pass) "panic") in
   unwrap imp ;;!
   let! k := unwrap (load_key "signing" pass) in
   assert_eq k key_0_31 ;;!
   let! imp := lift (ok_or (import_keys usize64 "signing" blob "wrong") "panic") in
   let! e := expect_err imp in
   assert_or e "importing with the wrong passphrase must fail")%se.

Definition key_export_import_round_trip : T :=
  (let pass := "export passphrase" in
   unwrap (store_key salt nonce "signing" key_0_31 pass) ;;!
   let! blob := unwrap (export_keys "signing" pass) in
   lift (fst (imports_exported blob pass setup)) ;;!
   let! e := expect_err (export_keys "absent" pass) in
   assert_or e "exporting a missing key must fail")%se.

(** ** Pushed authorization requests *)

Definition par (hash : string) (expires_at : Z) : StoredPushedRequest := {|
  spr_request_uri_hash := hash; spr_client_id := "https://app.test/client-metadata.json";
  spr_redirect_uri := "https://app.test/cb"; spr_scope := "atproto"; spr_state := "st";
  spr_code_challenge := "chal"; spr_dpop_jkt := Some "jkt"; spr_login_hint := None; spr_expires_at := expires_at |}.

Definition pushed_request_round_trip_and_expiry : T :=
  (let! r := unwrap (get_pushed_request "nope" 100) in
   assert_eq r None ;;!
   unwrap (put_pushed_request (par "h1" 1000)) ;;!
   let! r := unwrap (get_pushed_request "h1" 100) in
   assert_eq r (Some (par "h1" 1000)) ;;!
   let! r := unwrap (get_pushed_request "h1" 100) in
   assert_or (is_some r) "is_some" ;;!
   let! r := unwrap (get_pushed_request "h1" 1001) in
   assert_eq r None ;;!
   unwrap (delete_pushed_request "h1") ;;!
   let! r := unwrap (get_pushed_request "h1" 100) in
   assert_eq r None)%se.

(** ** Authorization codes *)

Definition code (hash : string) (expires_at : Z) : AuthCode := {|
  ac_code_hash := hash; ac_did := "did:plc:user"; ac_client_id := "https://app.test/client-metadata.json";
  ac_redirect_uri := "https://app.test/cb"; ac_scope := "atproto"; ac_code_challenge := "chal";
  ac_dpop_jkt := Some "jkt"; ac_expires_at := expires_at |}.

Definition auth_code_is_single_use : T :=
  (unwrap (put_auth_code (code "c1" 1000)) ;;!
   let! c := unwrap (consume_auth_code "c1" 100) in
   assert_eq c (Some (code "c1" 1000)) ;;!
   let! c := unwrap (consume_auth_code "c1" 100) in
   assert_eq c None)%se.

Definition expired_and_unknown_auth_codes_are_not_redeemable : T :=
  (let! c := unwrap (consume_auth_code "never-issued" 100) in
   assert_eq c None ;;!
   unwrap (put_auth_code (code "c2" 500)) ;;!
   let! c := unwrap (consume_auth_code "c2" 501) in
   assert_eq c None)%se.

(** Calls that race, one after the other: how many won. *)
Fixpoint wins (n : nat) (attempt : M bool) : M nat :=
  match n with
  | O => ret O
  | S n =>
      (let! b := attempt in
       let! w := wins n attempt in
       ret (if b : bool then S w else w))%se
  end.

Definition concurrent_auth_code_redemption_yields_one_winner : T :=
  (unwrap (put_auth_code (code "race" 1000000)) ;;!
   let! w := wins 8 (let! c := unwrap (consume_auth_code "race" 100) in ret (is_some c)) in
   assert_eq w 1%nat)%se.

(** ** Refresh tokens *)

Definition refresh (hash session : string) (expires_at : Z) : RefreshTokenRecord := {|
  rt_token_hash := hash; rt_session_id := session; rt_did := "did:plc:user";
  rt_client_id := "https://app.test/client-metadata.json"; rt_scope := "atproto"; rt_dpop_jkt := "jkt";
  rt_issued_at := 100; rt_expires_at := expires_at |}.

Definition consumed_in (session : option string) (r : ConsumeResult) : bool :=
  match r with
  | Consumed rec => match session with Some s => String.eqb (rt_session_id rec) s | None => true end
  | _ => false
  end.

Definition refresh_token_rotation_detects_reuse : T :=
  (unwrap (put_refresh_token (refresh "r1" "sess-1" 1000)) ;;!
   let! r := unwrap (consume_refresh_token "r1" 200) in
   assert_or (consumed_in (Some "sess-1") r) "first use must consume" ;;!
   let! r := unwrap (consume_refresh_token "r1" 200) in
   assert_eq r (Reused "sess-1"))%se.

Definition unknown_and_expired_refresh_tokens_are_not_found : T :=
  (let! r := unwrap (consume_refresh_token "nope" 200) in
   assert_eq r NotFound ;;!
   unwrap (put_refresh_token (refresh "r-exp" "s" 500)) ;;!
   let! r := unwrap (consume_refresh_token "r-exp" 501) in
   assert_eq r NotFound)%se.

Definition revoking_a_session_kills_every_token_in_the_chain : T :=
  (unwrap (put_refresh_token (refresh "a1" "sess-a" 1000)) ;;!
   unwrap (put_refresh_token (refresh "a2" "sess-a" 1000)) ;;!
   unwrap (put_refresh_token (refresh "b1" "sess-b" 1000)) ;;!
   let! n := unwrap (revoke_session "sess-a") in
   assert_eq n 2 ;;!
   let! r := unwrap (consume_refresh_token "a2" 200) in
   assert_eq r NotFound ;;!
   let! r := unwrap (consume_refresh_token "b1" 200) in
   assert_or (consumed_in None r) "matches!")%se.

Definition revoking_one_token_revokes_its_chain : T :=
  (unwrap (put_refresh_token (refresh "c1" "sess-c" 1000)) ;;!
   unwrap (put_refresh_token (refresh "c2" "sess-c" 1000)) ;;!
   let! b := unwrap (revoke_refresh_token "c1") in
   assert_or b "revoked" ;;!
   let! r := unwrap (consume_refresh_token "c2" 200) in
   assert_eq r NotFound ;;!
   let! b := unwrap (revoke_refresh_token "never-issued") in
   assert_or (negb b) "revoking an unknown token reports false, not an error")%se.

Definition with_did (did : string) (r : RefreshTokenRecord) : RefreshTokenRecord := {|
  rt_token_hash := rt_token_hash r; rt_session_id := rt_session_id r; rt_did := did;
  rt_client_id := rt_client_id r; rt_scope := rt_scope r; rt_dpop_jkt := rt_dpop_jkt r;
  rt_issued_at := rt_issued_at r; rt_expires_at := rt_expires_at r |}.

Definition list_sessions_shows_only_live_unused_tokens_for_the_did : T :=
  (unwrap (put_refresh_token (refresh "l1" "s1" 1000)) ;;!
   unwrap (put_refresh_token (refresh "l2" "s2" 1000)) ;;!
   unwrap (put_refresh_token (with_did "did:plc:someone-else" (refresh "l3" "s3" 1000))) ;;!
   let! sessions := unwrap (list_sessions_for_did "did:plc:user" 200) in
   assert_eq (length sessions) 2%nat ;;!
   let! _r := unwrap (consume_refresh_token "l1" 200) in
   let! sessions := unwrap (list_sessions_for_did "did:plc:user" 200) in
   assert_eq (length sessions) 1%nat ;;!
   let! sessions := unwrap (list_sessions_for_did "did:plc:user" 5000) in
   assert_eq (length sessions) 0%nat)%se.

(** ** DPoP replay cache *)

Definition dpop_jti_is_recorded_once : T :=
  (let! b := unwrap (record_dpop_jti "jti-1" 1000) in
   assert_or b "recorded" ;;!
   let! b := unwrap (record_dpop_jti "jti-1" 1000) in
   assert_or (negb b) "a repeated jti must report replay" ;;!
   let! b := unwrap (record_dpop_jti "jti-2" 1000) in
   assert_or b "recorded")%se.

Definition concurrent_dpop_jti_yields_one_winner : T :=
  (let! w := wins 8 (unwrap (record_dpop_jti "contended" 1000000)) in
   assert_eq w 1%nat)%se.

(** ** Maintenance *)

Definition purge_removes_only_expired_records : T :=
  (unwrap (put_pushed_request (par "p-old" 100)) ;;!
   unwrap (put_pushed_request (par "p-new" 9999)) ;;!
   unwrap (put_auth_code (code "c-old" 100)) ;;!
   unwrap (put_auth_code (code "c-new" 9999)) ;;!
   unwrap (put_refresh_token (refresh "r-old" "s" 100)) ;;!
   unwrap (put_refresh_token (refresh "r-new" "s" 9999)) ;;!
   let! _b := unwrap (record_dpop_jti "j-old" 100) in
   let! _b := unwrap (record_dpop_jti "j-new" 9999) in
   let! n := unwrap (purge_expired 500) in
   assert_eq n 4 ;;!
   let! r := unwrap (get_pushed_request "p-new" 500) in
   assert_or (is_some r) "is_some" ;;!
   let! c := unwrap (consume_auth_code "c-new" 500) in
   assert_or (is_some c) "is_some" ;;!
   let! r := unwrap (consume_refresh_token "r-new" 500) in
   assert_or (consumed_in None r) "matches!" ;;!
   let! b := unwrap (record_dpop_jti "j-old" 9999) in
   assert_or b "recorded" ;;!
   let! b := unwrap (record_dpop_jti "j-new" 9999) in
   assert_or (negb b) "replay")%se.

(** ** The suite *)

Definition storage_conformance : list (string * T) :=
  [ ("block_roundtrip_and_missing", block_roundtrip_and_missing);
    ("put_block_is_idempotent", put_block_is_idempotent);
    ("empty_repo_has_no_root", empty_repo_has_no_root);
    ("commit_sets_root_and_returns_increasing_seq", commit_sets_root_and_returns_increasing_seq);
    ("commit_persists_blocks_and_event_body", commit_persists_blocks_and_event_body);
    ("max_seq_starts_at_zero_and_tracks_commits", max_seq_starts_at_zero_and_tracks_commits);
    ("backfill_is_ordered_and_paged", backfill_is_ordered_and_paged);
    ("update_repo_root_overwrites", update_repo_root_overwrites);
    ("account_insert_and_lookups", account_insert_and_lookups);
    ("duplicate_did_is_rejected", duplicate_did_is_rejected);
    ("duplicate_handle_is_rejected", duplicate_handle_is_rejected);
    ("count_and_insert_returns_prior_count", count_and_insert_returns_prior_count);
    ("failed_insert_leaves_backend_usable", failed_insert_leaves_backend_usable);
    ("takedown_hides_from_auth_lookups_and_clears", takedown_hides_from_auth_lookups_and_clears);
    ("takedown_with_empty_reference_still_takes_effect", takedown_with_empty_reference_still_takes_effect);
    ("takedown_on_unknown_did_affects_zero_rows", takedown_on_unknown_did_affects_zero_rows);
    ("update_password_replaces_hash", update_password_replaces_hash);
    ("list_accounts_includes_taken_down_in_creation_order", list_accounts_includes_taken_down_in_creation_order);
    ("invite_consumes_once_per_did", invite_consumes_once_per_did);
    ("invite_with_multiple_uses_serves_distinct_dids", invite_with_multiple_uses_serves_distinct_dids);
    ("unknown_invite_is_false_not_error", unknown_invite_is_false_not_error);
    ("preferences_round_trip_and_overwrite", preferences_round_trip_and_overwrite);
    ("list_blobs_paginates_in_cid_order_and_is_did_scoped", list_blobs_paginates_in_cid_order_and_is_did_scoped);
    ("list_blobs_is_empty_for_an_account_with_none", list_blobs_is_empty_for_an_account_with_none);
    ("key_blob_round_trip", key_blob_round_trip);
    ("store_and_load_key_round_trip", store_and_load_key_round_trip);
    ("key_export_import_round_trip", key_export_import_round_trip);
    ("blob_round_trip_scoped_per_did", blob_round_trip_scoped_per_did);
    ("pushed_request_round_trip_and_expiry", pushed_request_round_trip_and_expiry);
    ("auth_code_is_single_use", auth_code_is_single_use);
    ("expired_and_unknown_auth_codes_are_not_redeemable", expired_and_unknown_auth_codes_are_not_redeemable);
    ("concurrent_auth_code_redemption_yields_one_winner", concurrent_auth_code_redemption_yields_one_winner);
    ("refresh_token_rotation_detects_reuse", refresh_token_rotation_detects_reuse);
    ("unknown_and_expired_refresh_tokens_are_not_found", unknown_and_expired_refresh_tokens_are_not_found);
    ("revoking_a_session_kills_every_token_in_the_chain", revoking_a_session_kills_every_token_in_the_chain);
    ("revoking_one_token_revokes_its_chain", revoking_one_token_revokes_its_chain);
    ("list_sessions_shows_only_live_unused_tokens_for_the_did", list_sessions_shows_only_live_unused_tokens_for_the_did);
    ("dpop_jti_is_recorded_once", dpop_jti_is_recorded_once);
    ("concurrent_dpop_jti_yields_one_winner", concurrent_dpop_jti_yields_one_winner);
    ("purge_removes_only_expired_records", purge_removes_only_expired_records) ].

(** The tests a backend fails. *)
Definition failing : list string :=
  map fst (filter (fun t => passes (snd t) = false) storage_conformance).

End Suite.

(** ** The backends pass *)

(** A cipher whose text is not the plain one. *)
#[local] Instance hiding_ciphers : KeyCiphers := {
  argon2_into p s := Ok (p +:+ s);
  aes_encrypt k n p := Some (k +:+ n +:+ demo_encode p);
  aes_decrypt k n c := strip_prefix (k +:+ n) c ≫= demo_decode;
}.

(** every backend passes the suite.  The in-memory store, the SQLite backend and
    the worker's Durable Object storage, newly set up and with an engine that
    fails nothing, pass every test of the conformance suite. *)
Theorem backends_pass :
  failing (Cid := string) (St := Inner string) "2026" "0123456789abcdef" "0123456789ab" Inner_default = [] /\
  failing (Cid := string) (St := SqliteStore) "2026" "0123456789abcdef" "0123456789ab"
    (MkConn SqliteDb_empty []) = [] /\
  failing (Cid := string) (St := DoStore) "2026" "0123456789abcdef" "0123456789ab" (MkConn DoDb_empty []) = [].
Proof. split_and!; vm_compute; reflexivity. Qed.
