(* ===== verification/Registry.v ===== *)
(** * The worker's registry of handles and invites

    [src/rust-worker/src/registry.rs]: the one Durable Object that sees every
    hostname, and the handle rules of [register.rs].  The object runs one
    request at a time and no operation awaits between its statements, so an
    operation is one step over the connection; there is no transaction, so the
    statements before a failing one stay done. *)

From Stdlib Require Import ZArith Lia Ascii.
From S2P Require Import Prelude RustStr Externals StoreTypes MemoryStore.
From S2P Require Import Sql.
From S2P Require Import SqliteStore.

(** ** Handle rules: [register.rs] *)

Definition RESERVED : list string :=
  ["www"; "api"; "admin"; "pds"; "signup"; "registry"; "plc"; "oauth"; "xrpc"; "mail"; "ns1"; "ns2" ].

Definition is_label_char (c : ascii) : bool := is_ascii_alphanumeric c || Ascii.eqb c "-"%char.

Definition validate_label (label : string) : result string unit :=
  ensure negb (String.eqb label EmptyString) orelse "Pick a handle." in
  ensure str_len label <=? 63 orelse "That's too long — 63 characters at most." in
  ensure negb (starts_with "-" label || ends_with "-" label)
    orelse "Can't start or end with a hyphen." in
  ensure all_bytes is_label_char label orelse "Letters, numbers and hyphens only." in
  ensure negb (existsb (String.eqb label) RESERVED) orelse "That name is reserved." in
  Ok tt.

(** Escaping for HTML text and attributes; a code point that is not one of the
    five is copied, so the bytes of the others are. *)
Definition escape_char (c : ascii) : string :=
  if Ascii.eqb c "&"%char then "&amp;"
   else if Ascii.eqb c "<"%char then "&lt;"
   else if Ascii.eqb c ">"%char then "&gt;"
   else if Ascii.eqb c "034"%char then "&quot;"
   else if Ascii.eqb c "'"%char then "&#x27;"
   else String c EmptyString.

Fixpoint escape (s : string) : string :=
  match s with
  | EmptyString => EmptyString
  | String c s => escape_char c +:+ escape s
  end.

(** ** State *)

Record ClaimRow := MkClaim {
  cl_did : option string;
  cl_state : string;
  cl_invite_code : option string;
  cl_created_at : string;
}.

Record RegistryDb := MkRegistry {
  (** the table of claims: absent, or there, without or with the column
      [invite_code] *)
  claims_column : option bool;
  claims : gmap string ClaimRow;
  invites : gmap string (Z * Z);
}.

Definition RegistryDb_empty : RegistryDb := MkRegistry None ∅ ∅.

Definition put_claims_column v r := MkRegistry v (claims r) (invites r).
Definition put_claims v r := MkRegistry (claims_column r) v (invites r).
Definition put_invites v r := MkRegistry (claims_column r) (claims r) v.

Definition RegistryObject : Type := Conn RegistryDb.

(** What the registry answers. *)
Inductive RegistryReply :=
| CheckResp (available : bool) (reason : option string)
| OkResp (ok : bool) (error : option string)
| LabelResp (label : option string)
| RegistryError (status : Z) (text : string).

(** ** Statements *)

(** [CREATE TABLE IF NOT EXISTS claims]. *)
Definition create_claims : Q RegistryDb unit :=
  execute (fun r => if claims_column r then r else put_claims_column (Some true) r).

(** [ALTER TABLE claims ADD COLUMN invite_code TEXT]. *)
Definition add_invite_code : Q RegistryDb unit :=
  stmt (fun r =>
    match claims_column r with
    | None => Err "no such table: claims"
    | Some true => Err "duplicate column name: invite_code"
    | Some false => Ok (tt, put_claims_column (Some true) r)
    end).

(** [sql]: the schema, then the migrations, whose errors are dropped. *)
Definition open_sql : Q RegistryDb unit :=
  (create_claims ;;! execute id ;;! (let! _ := catch add_invite_code in ret tt))%se.

(** [SELECT count( * ) AS n FROM claims WHERE label = ?], more than none. *)
Definition is_taken (label : string) : Q RegistryDb bool :=
  (let! n := query (fun r => if decide (is_Some (claims r !! label)) then 1 else 0) in
   ret (0 <? n))%se.

Definition with_invite_column {A} (r : RegistryDb) (k : result string A) : result string A :=
  match claims_column r with
  | Some true => k
  | _ => Err "no such column: invite_code"
  end.

(** [INSERT INTO claims (label, did, state, invite_code, created_at)
    VALUES (?, NULL, 'reserved', ?, ?)]. *)
Definition insert_reservation (label : string) (invite_code : option string) (now : string) : Q RegistryDb unit :=
  stmt (fun r => with_invite_column r
    (if decide (is_Some (claims r !! label)) then Err "UNIQUE constraint failed: claims.label"
     else Ok (tt, put_claims (<[label := MkClaim None "reserved" invite_code now]> (claims r)) r))).

(** The row type reads the count as an [i64]: a count that left its range is a
    real in SQL, and is not read. *)
Definition select_invite (code : string) : Q RegistryDb (option (Z * Z)) :=
  stmt (fun r =>
    match invites r !! code with
    | Some (uses, disabled) =>
        if uses <=? i64_max then Ok (Some (uses, disabled), r) else Err "invalid type: floating point"
    | None => Ok (None, r)
    end).

(** [UPDATE invites SET available_uses = available_uses + ? WHERE code = ?]. *)
Definition add_uses (n : Z) (code : string) : Q RegistryDb unit :=
  execute (fun r => put_invites (alter (fun '(uses, disabled) => (uses + n, disabled)) code (invites r)) r).

Definition is_reserved (row : ClaimRow) : bool := String.eqb (cl_state row) "reserved".

(** [SELECT invite_code FROM claims WHERE label = ? AND state = 'reserved']. *)
Definition select_reserved (label : string) : Q RegistryDb (option (option string)) :=
  stmt (fun r => with_invite_column r
    (Ok (row ← claims r !! label; if is_reserved row then Some (cl_invite_code row) else None, r))).

(** [DELETE FROM claims WHERE label = ? AND state = 'reserved']. *)
Definition delete_reserved (label : string) : Q RegistryDb unit :=
  execute (fun r =>
    match claims r !! label with
    | Some row => if is_reserved row then put_claims (delete label (claims r)) r else r
    | None => r
    end).

(** ** Operations *)

Definition ok_resp : RegistryReply := OkResp true None.
Definition refused (error : string) : RegistryReply := OkResp false (Some error).

Section Registry.
Context `{SqlScan}.

Definition check (label : string) : Q RegistryDb RegistryReply :=
  (open_sql ;;!
   let! taken := is_taken label in
   ret (if taken then CheckResp false (Some "taken") else CheckResp true None))%se.

Definition claim (label : string) (invite_code : option string) (open : bool) (now : string) :
    Q RegistryDb RegistryReply :=
  (open_sql ;;!
   let! taken := is_taken label in
   if (taken : bool) then ret (refused "HandleNotAvailable")
   else if open then insert_reservation label None now ;;! ret ok_resp
   else
     match invite_code with
     | None => ret (refused "InvalidInviteCode")
     | Some code =>
         let! row := select_invite code in
         let valid := match row with
                      | Some (uses, disabled) => (disabled =? 0) && (0 <? uses)
                      | None => false
                      end in
         if negb valid then ret (refused "InvalidInviteCode")
         else
           add_uses (-1) code ;;!
           insert_reservation label (Some code) now ;;!
           ret ok_resp
     end)%se.

Definition release (label : string) : Q RegistryDb RegistryReply :=
  (open_sql ;;!
   let! row := select_reserved label in
   match row with
   | None => ret ok_resp
   | Some invite_code =>
       match invite_code with Some code => add_uses 1 code | None => ret tt end ;;!
       delete_reserved label ;;!
       ret ok_resp
   end)%se.

Definition bind_did (label did : string) : Q RegistryDb RegistryReply :=
  (open_sql ;;!
   execute (fun r => put_claims (alter (fun row =>
     MkClaim (Some did) "active" (cl_invite_code row) (cl_created_at row)) label (claims r)) r) ;;!
   ret ok_resp)%se.

Definition seed_invite (code : string) (uses : Z) : Q RegistryDb RegistryReply :=
  (open_sql ;;! execute (fun r => put_invites (<[code := (uses, 0)]> (invites r)) r) ;;! ret ok_resp)%se.

Definition force_release (label : string) : Q RegistryDb RegistryReply :=
  (open_sql ;;! execute (fun r => put_claims (delete label (claims r)) r) ;;! ret ok_resp)%se.

Definition bound_to (did : string) (row : ClaimRow) : bool :=
  bool_decide (cl_did row = Some did) && String.eqb (cl_state row) "active".

(** [SELECT label FROM claims WHERE did = ? AND state = 'active'], the first
    row. *)
Definition resolve_did (did : string) : Q RegistryDb RegistryReply :=
  (open_sql ;;!
   let! rows := query (fun r => scan_rows (List.filter (fun kr => bound_to did kr.2) (map_to_list (claims r)))) in
   ret (LabelResp (fst <$> head rows)))%se.

(** ** The object: [route] and [fetch] *)

(** A path and the body it is sent with. *)
Inductive RegistryReq :=
| ReqCheck (label : string)
| ReqClaim (label : string) (invite_code : option string) (open : bool)
| ReqRelease (label : string)
| ReqBind (label did : string)
| ReqInvite (code : string) (uses : Z)
| ReqForceRelease (label : string)
| ReqResolveDid (did : string)
| ReqUnknown (path : string).

Definition registry_route (now : string) (req : RegistryReq) : Q RegistryDb RegistryReply :=
  match req with
  | ReqCheck label => check label
  | ReqClaim label invite_code open => claim label invite_code open now
  | ReqRelease label => release label
  | ReqBind label did => bind_did label did
  | ReqInvite code uses => seed_invite code uses
  | ReqForceRelease label => force_release label
  | ReqResolveDid did => resolve_did did
  | ReqUnknown _ => ret (RegistryError 404 "unknown registry endpoint")
  end.

Definition registry_fetch (now : string) (req : RegistryReq) (c : RegistryObject) : RegistryReply * RegistryObject :=
  match registry_route now req c with
  | (Ok resp, c') => (resp, c')
  | (Err e, c') => (RegistryError 500 ("registry error: " +:+ e), c')
  end.

End Registry.
