(* ===== verification/RegistryProps.v ===== *)
(** * The worker's registry: what it promises

    Handles are exclusive, an active handle stays until it is force-released,
    and an invite admits as many handles as it had uses — as long as no
    statement of a release fails half-way. *)

From Stdlib Require Import ZArith Lia Ascii.
From S2P Require Import Prelude RustStr Externals StoreTypes MemoryStore.
From S2P Require Import Sql.
From S2P Require Import SqliteStore.
From S2P Require Import SqlProps.
From S2P Require Import Registry.

(** ** Handle rules *)

(** An accepted label is one DNS label of letters, digits and inner hyphens, of
    the right length, that is not reserved. *)
Definition label_spec (label : string) : Prop :=
  1 <= str_len label <= 63 /\
  all_bytes is_label_char label = true /\
  starts_with "-" label = false /\ ends_with "-" label = false /\
  ~ In label RESERVED.

Lemma existsb_eqb_false x l : existsb (String.eqb x) l = false <-> ~ In x l.
Proof.
  rewrite <- Bool.not_true_iff_false, existsb_exists. split.
  - intros H Hx. apply H. exists x. split; [done|]. by apply String.eqb_eq.
  - intros H (y & Hy & E). apply String.eqb_eq in E as <-. done.
Qed.

Lemma str_len_pos s : s <> EmptyString -> 1 <= str_len s.
Proof. destruct s; [done|]. intros _. unfold str_len. simpl. lia. Qed.

Theorem validate_label_iff label : validate_label label = Ok tt <-> label_spec label.
Proof.
  unfold validate_label, label_spec. destruct (String.eqb_spec label EmptyString) as [->|Hne].
  { simpl. split; [done|]. intros [H _]. unfold str_len in H. simpl in H. lia. }
  pose proof (str_len_pos label Hne). cbn [negb].
  destruct (Z.leb_spec (str_len label) 63); [|split; [done|lia]].
  destruct (starts_with "-" label); [split; [done|naive_solver]|].
  destruct (ends_with "-" label); [split; [done|naive_solver]|]. cbn [negb orb].
  destruct (all_bytes is_label_char label); [|split; [done|naive_solver]].
  destruct (existsb (String.eqb label) RESERVED) eqn:E; cbn [negb].
  - split; [done|]. intros (_ & _ & _ & _ & H'). apply existsb_eqb_false in H'. congruence.
  - split; [|done]. intros _. split_and!; try done; try lia. by apply existsb_eqb_false.
Qed.

(** ** Escaping *)

Definition html_special (c : ascii) : bool :=
  Ascii.eqb c "<" || Ascii.eqb c ">" || Ascii.eqb c "034" || Ascii.eqb c "'".

(** No text escaped can open a tag or close an attribute. *)
Lemma escape_safe s : all_bytes (fun c => negb (html_special c)) (escape s) = true.
Proof.
  induction s as [|c s IH]; [done|]. simpl. rewrite all_bytes_app, IH, andb_true_r.
  unfold escape_char. repeat case_match; try done. simpl. unfold html_special.
  repeat match goal with H : Ascii.eqb _ _ = false |- _ => rewrite H; clear H end. done.
Qed.

(** ** One operation with no engine failure *)

Section Registry.
Context `{SqlScan}.
Implicit Types (r : RegistryDb) (c : RegistryObject).

(** The schema is complete once an operation has begun. *)
Definition opened r : RegistryDb := put_claims_column (Some true) r.

Lemma open_sql_sound r : open_sql (MkConn r []) = (Ok tt, MkConn (opened r) []).
Proof. destruct r as [[[]|] cs xs]; reflexivity. Qed.

(** A claim, by cases. *)
Definition claim_fun (label : string) (invite_code : option string) (open : bool) (now : string) r :
    result string RegistryReply * RegistryDb :=
  let r := opened r in
  let row code := MkClaim None "reserved" code now in
  if decide (is_Some (claims r !! label)) then (Ok (refused "HandleNotAvailable"), r)
  else if open then (Ok ok_resp, put_claims (<[label := row None]> (claims r)) r)
  else
    match invite_code with
    | Some code =>
        match invites r !! code with
        | Some (uses, disabled) =>
            if negb (uses <=? i64_max) then (Err "invalid type: floating point", r)
            else if (disabled =? 0) && (0 <? uses)
            then (Ok ok_resp, MkRegistry (Some true) (<[label := row (Some code)]> (claims r))
                             (<[code := (uses - 1, disabled)]> (invites r)))
            else (Ok (refused "InvalidInviteCode"), r)
        | None => (Ok (refused "InvalidInviteCode"), r)
        end
    | None => (Ok (refused "InvalidInviteCode"), r)
    end.

Lemma alter_present {V} (f : V -> V) (m : gmap string V) k x :
  m !! k = Some x -> alter f k m = <[k := f x]> m.
Proof.
  intros E. apply map_eq. intros i. destruct (decide (i = k)) as [->|Hi].
  - by rewrite lookup_alter_eq, lookup_insert_eq, E.
  - by rewrite lookup_alter_ne, lookup_insert_ne by done.
Qed.

(** A release, by cases. *)
Definition release_fun (label : string) r : RegistryDb :=
  let r := opened r in
  match claims r !! label with
  | Some row =>
      if is_reserved row then
        put_claims (delete label (claims r))
          (match cl_invite_code row with
           | Some code => put_invites (alter (fun '(uses, disabled) => (uses + 1, disabled)) code (invites r)) r
           | None => r
           end)
      else r
  | None => r
  end.

Lemma claim_sound label invite_code open now r :
  claim label invite_code open now (MkConn r []) =
  let x := claim_fun label invite_code open now r in (x.1, MkConn x.2 []).
Proof.
  unfold claim, claim_fun, is_taken. unfold bind at 1. rewrite open_sql_sound.
  unfold bind at 1, bind at 1, query, stmt at 1. cbn.
  destruct (decide (is_Some (claims r !! label))) as [Hl|Hl]; [done|]. cbn.
  assert (forall x, insert_reservation label x now (MkConn (opened r) []) =
    (Ok tt, MkConn (put_claims (<[label := MkClaim None "reserved" x now]> (claims r)) (opened r)) [])) as Hi.
  { intros x. unfold insert_reservation, stmt. cbn. by rewrite decide_False. }
  destruct open; [unfold bind; by rewrite Hi|].
  destruct invite_code as [code|]; [|done]. unfold bind at 1, select_invite, stmt at 1. cbn -[Z.leb i64_max].
  destruct (invites r !! code) as [[n d]|] eqn:E; [|done]. cbn -[Z.leb i64_max Z.ltb].
  destruct (n <=? i64_max); [|done]. cbn -[Z.ltb].
  destruct ((d =? 0) && (0 <? n)); [|done]. cbn.
  unfold bind, insert_reservation, stmt. cbn. rewrite decide_False by done. cbn.
  by rewrite (alter_present _ _ _ _ E).
Qed.

Lemma release_sound label r :
  release label (MkConn r []) = (Ok ok_resp, MkConn (release_fun label r) []).
Proof.
  unfold release, release_fun. unfold bind at 1. rewrite open_sql_sound. unfold bind at 1.
  unfold select_reserved, stmt at 1. cbn.
  destruct (claims r !! label) as [row|] eqn:E; [|done]. cbn.
  destruct (is_reserved row) eqn:Er; [|done]. cbn.
  destruct (cl_invite_code row) as [code|]; unfold bind, delete_reserved, execute, stmt; cbn; by rewrite E, Er.
Qed.

Lemma bind_sound label did r :
  bind_did label did (MkConn r []) =
  (Ok ok_resp, MkConn (put_claims (alter (fun row =>
     MkClaim (Some did) "active" (cl_invite_code row) (cl_created_at row)) label (claims r)) (opened r)) []).
Proof. unfold bind_did. unfold bind at 1. by rewrite open_sql_sound. Qed.

Lemma force_release_sound label r :
  force_release label (MkConn r []) = (Ok ok_resp, MkConn (put_claims (delete label (claims r)) (opened r)) []).
Proof. unfold force_release. unfold bind at 1. by rewrite open_sql_sound. Qed.

Lemma seed_sound code uses r :
  seed_invite code uses (MkConn r []) =
  (Ok ok_resp, MkConn (put_invites (<[code := (uses, 0)]> (invites r)) (opened r)) []).
Proof. unfold seed_invite. unfold bind at 1. by rewrite open_sql_sound. Qed.

Lemma check_sound label r :
  check label (MkConn r []) =
  (Ok (if decide (is_Some (claims r !! label)) then CheckResp false (Some "taken") else CheckResp true None),
   MkConn (opened r) []).
Proof.
  unfold check. unfold bind at 1. rewrite open_sql_sound. unfold is_taken, query, bind, stmt. cbn.
  by destruct (decide _).
Qed.

Lemma resolve_sound did r :
  exists l, resolve_did did (MkConn r []) = (Ok (LabelResp l), MkConn (opened r) []).
Proof. unfold resolve_did. unfold bind at 1. rewrite open_sql_sound. by eexists. Qed.

(** ** The uses of an invite *)

Definition uses_left r (code : string) : Z := default 0 (fst <$> invites r !! code).

(** Whether a handle is held by [code]: 1 or 0. *)
Definition holds (code : string) (row : ClaimRow) : Z :=
  if decide (cl_invite_code row = Some code) then 1 else 0.

(** The number of handles held by [code], reserved or active. *)
Definition spent (m : gmap string ClaimRow) (code : string) : Z :=
  Z.of_nat (size (filter (fun kr => cl_invite_code kr.2 = Some code) m)).

Lemma spent_insert m l row code :
  m !! l = None -> spent (<[l := row]> m) code = spent m code + holds code row.
Proof.
  intros E. unfold spent, holds. case_decide as D.
  - rewrite map_filter_insert_True by done. rewrite map_size_insert_None; [lia|].
    apply map_lookup_filter_None. by left.
  - rewrite map_filter_insert_not' by (try done; intros y Hy; by simplify_eq). lia.
Qed.

Lemma spent_delete m l row code :
  m !! l = Some row -> spent (delete l m) code = spent m code - holds code row.
Proof.
  intros E. rewrite <- (insert_delete_id m l row E) at 2.
  rewrite spent_insert by apply lookup_delete_eq. lia.
Qed.

Lemma spent_replace m l row row' code :
  m !! l = Some row -> cl_invite_code row' = cl_invite_code row ->
  spent (<[l := row']> m) code = spent m code.
Proof.
  intros E Hc. rewrite <- insert_delete_eq, spent_insert by apply lookup_delete_eq.
  rewrite (spent_delete _ _ row) by done. unfold holds. rewrite Hc. lia.
Qed.

Lemma spent_nonneg m code : 0 <= spent m code.
Proof. unfold spent. lia. Qed.

(** A use is either left or held by a handle. *)
Definition potential r (code : string) : Z := uses_left r code + spent (claims r) code.

(** The code's uses are countable: it exists if it was spent, its count is not
    negative, and what can come back to it is an [i64]. *)
Definition code_ok r (code : string) : Prop :=
  (forall l row, claims r !! l = Some row -> cl_invite_code row = Some code -> is_Some (invites r !! code)) /\
  (forall n d, invites r !! code = Some (n, d) -> 0 <= n) /\ potential r code <= i64_max.

Lemma uses_left_nonneg r code : code_ok r code -> 0 <= uses_left r code.
Proof.
  intros (_ & H2 & _). unfold uses_left. destruct (invites r !! code) as [[n d]|] eqn:E; [|done].
  cbn. by apply (H2 n d).
Qed.

Definition reseeds (code : string) (req : RegistryReq) : bool :=
  match req with ReqInvite c _ => String.eqb c code | _ => false end.
Definition force_releases (req : RegistryReq) : bool :=
  match req with ReqForceRelease _ => true | _ => false end.

(** What any request but a new seed does to a code: its uses are kept, unless a
    handle that held one is force-released. *)
Definition code_kept (code : string) (exactly : bool) r r' : Prop :=
  code_ok r code -> code_ok r' code /\ (potential r' code <= potential r code) /\
    (exactly = true -> potential r' code = potential r code).

Lemma code_kept_opened code b r : code_kept code b r (opened r).
Proof. by intros H'. Qed.

Lemma code_kept_claim code label x open now r b : code_kept code b r (claim_fun label x open now r).2.
Proof.
  unfold claim_fun. intros Hk. pose proof (code_kept_opened code b r Hk) as Ho.
  destruct (decide _) as [|Hl]; [done|].
  assert (claims r !! label = None) as El.
  { destruct (claims r !! label) eqn:E; [|done]. destruct Hl. cbn. by rewrite E. }
  destruct Hk as (H1 & H2 & H3). unfold potential, uses_left in H3.
  destruct open.
  { unfold code_ok, potential, uses_left. cbn. rewrite !spent_insert by done. unfold holds. cbn.
    rewrite decide_False by done. split_and!; try done; try lia.
    intros l row. rewrite lookup_insert_Some. intros [[<- <-]|[_ Hr]]; [done|]. eauto. }
  destruct x as [c|]; [|done]. cbn. destruct (invites r !! c) as [[n d]|] eqn:E; [|done].
  destruct (n <=? i64_max); [|done]. cbn -[Z.ltb].
  destruct ((d =? 0) && (0 <? n)) eqn:Ev; [|done].
  apply andb_true_iff in Ev as [_ Hn]. apply Z.ltb_lt in Hn.
  unfold code_ok, potential, uses_left. cbn. rewrite !spent_insert by done. unfold holds. cbn.
  destruct (decide (c = code)) as [->|Hc].
  - rewrite lookup_insert_eq, decide_True by done. rewrite E in *. cbn in *. split_and!; try lia.
    + by eexists.
    + intros n' d' [= <- <-]. lia.
  - rewrite lookup_insert_ne, decide_False by congruence. split_and!; try done; try lia.
    intros l row. rewrite lookup_insert_Some. intros [[<- <-]|[_ Hr]]; [naive_solver|]. eauto.
Qed.

Lemma code_kept_delete code label row r b (give : bool) :
  claims r !! label = Some row ->
  let r' := put_claims (delete label (claims r))
    (if give then match cl_invite_code row with
                  | Some c => put_invites (alter (fun '(uses, disabled) => (uses + 1, disabled)) c (invites r)) r
                  | None => r
                  end else r) in
  (give = false -> b = false) -> code_kept code b r r'.
Proof.
  intros E r' Hb (H1 & H2 & H3).
  assert (forall l x, claims r' !! l = Some x -> claims r !! l = Some x) as Hc.
  { intros l x. unfold r'. destruct give, (cl_invite_code row); cbn; rewrite lookup_delete_Some; tauto. }
  assert (spent (claims r') code = spent (claims r) code - holds code row) as Hs.
  { rewrite <- (spent_delete _ label) by done. by destruct give, (cl_invite_code row). }
  assert (uses_left r' code = uses_left r code + (if give then holds code row else 0) /\
          (is_Some (invites r' !! code) <-> is_Some (invites r !! code)) /\
          forall n d, invites r' !! code = Some (n, d) -> 0 <= n) as (Hu & Hi & Hn).
  { unfold uses_left, r', holds. destruct give; [|cbn; split_and!; try done; lia].
    destruct (cl_invite_code row) as [c|] eqn:Ec; cbn; [|rewrite decide_False by done; split_and!; try done; lia].
    destruct (decide (c = code)) as [->|Hne].
    - destruct (H1 _ _ E Ec) as [[n d] Ei]. rewrite lookup_alter_eq, Ei. cbn. rewrite decide_True by done.
      split_and!; [lia|done|]. intros n' d' [= <- <-]. specialize (H2 _ _ Ei). lia.
    - rewrite lookup_alter_ne, decide_False by congruence. split_and!; try done; lia. }
  unfold code_ok, potential in *. rewrite Hs, Hu. unfold holds in *.
  split_and!.
  - intros l x Hl Hx. apply Hi. by eapply H1; [apply Hc|].
  - done.
  - destruct give; case_decide; lia.
  - destruct give; case_decide; lia.
  - intros Hb'. destruct give; [case_decide; lia|]. by rewrite (Hb eq_refl) in Hb'.
Qed.

Lemma code_kept_release code label r b : code_kept code b r (release_fun label r).
Proof.
  unfold release_fun. intros Hk. pose proof (code_kept_opened code b r Hk) as Ho.
  destruct (claims (opened r) !! label) as [row|] eqn:E; [|done].
  destruct (is_reserved row); [|done].
  pose proof (code_kept_delete code label row (opened r) b true E ltac:(done) (proj1 Ho)) as Hd. exact Hd.
Qed.

Lemma code_kept_bind code label did r b :
  code_kept code b r (put_claims (alter (fun row =>
    MkClaim (Some did) "active" (cl_invite_code row) (cl_created_at row)) label (claims r)) (opened r)).
Proof.
  intros Hk. pose proof (code_kept_opened code b r Hk) as Ho.
  destruct (claims r !! label) as [row|] eqn:E.
  - rewrite (alter_present _ _ _ _ E). unfold code_ok, potential, uses_left in *. cbn in *.
    rewrite !(spent_replace _ _ row) by done. split_and!; try tauto; try lia.
    destruct Hk as [H1 _]. intros l x. rewrite lookup_insert_Some. intros [[<- <-]|[_ Hl]]; cbn; [|by eapply H1].
    by apply (H1 label row E).
  - assert (alter (fun row => MkClaim (Some did) "active" (cl_invite_code row) (cl_created_at row)) label (claims r)
            = claims r) as ->; [|done].
    apply map_eq. intros i. destruct (decide (i = label)) as [->|]; [|by rewrite lookup_alter_ne].
    by rewrite lookup_alter_eq, E.
Qed.

Lemma code_kept_request code now req r b :
  reseeds code req = false -> (force_releases req = true -> b = false) ->
  exists x r', registry_route now req (MkConn r []) = (x, MkConn r' []) /\ code_kept code b r r'.
Proof.
  intros Hs Hf. destruct req; cbn [registry_route].
  - rewrite check_sound. do 2 eexists. split; [done|apply code_kept_opened].
  - rewrite claim_sound. do 2 eexists. split; [done|apply code_kept_claim].
  - rewrite release_sound. do 2 eexists. split; [done|apply code_kept_release].
  - rewrite bind_sound. do 2 eexists. split; [done|apply code_kept_bind].
  - rewrite seed_sound. do 2 eexists. split; [done|]. cbn in Hs. apply String.eqb_neq in Hs.
    intros Hk. unfold code_ok, potential, uses_left in *. cbn. rewrite lookup_insert_ne by done. split_and!; try tauto; lia.
  - rewrite force_release_sound. do 2 eexists. split; [done|].
    intros Hk. destruct (claims r !! label) as [row|] eqn:E.
    + pose proof (code_kept_delete code label row (opened r) b false E ltac:(auto) Hk) as Hd. exact Hd.
    + rewrite delete_id by done. exact (code_kept_opened code b r Hk).
  - destruct (resolve_sound did r) as [l El]. rewrite El. do 2 eexists. split; [done|apply code_kept_opened].
  - do 2 eexists. split; [done|]. by intros Hk.
Qed.

End Registry.

(** ** Histories *)

Section Histories.
Context `{SqlScan}.

(** A sequence of requests, each with the clock it reads. *)
Definition registry_run (reqs : list (string * RegistryReq)) (c : RegistryObject) : RegistryObject :=
  foldl (fun c '(now, req) => snd (registry_fetch now req c)) c reqs.

Lemma registry_fetch_snd now req c : snd (registry_fetch now req c) = snd (registry_route now req c).
Proof. unfold registry_fetch. by destruct (registry_route now req c) as [[] c']. Qed.

(** C27: while no statement fails, an invite's uses are neither lost nor made:
    whatever is claimed, released, bound, checked, resolved or seeded for other
    codes, the uses left and the handles held by the code add up to what they
    were; force-releasing a handle only loses its use. *)
Theorem registry_conserves_uses (code : string) (reqs : list (string * RegistryReq)) (r : RegistryDb) :
  code_ok r code -> Forall (fun x => reseeds code x.2 = false) reqs ->
  let c' := registry_run reqs (MkConn r []) in
  faults c' = [] /\ code_ok (db c') code /\ potential (db c') code <= potential r code /\
  spent (claims (db c')) code <= potential r code /\
  (Forall (fun x => force_releases x.2 = false) reqs -> potential (db c') code = potential r code).
Proof.
  intros Hk Hreqs. unfold registry_run. revert r Hk. induction Hreqs as [|[now req] reqs Hx _ IH]; intros r Hk.
  { pose proof (uses_left_nonneg r code Hk). cbn. unfold potential in *. split_and!; try done; lia. }
  cbn [foldl]. rewrite registry_fetch_snd.
  destruct (code_kept_request code now req r (negb (force_releases req)) Hx) as (x & r' & E & Hr); [by intros ->|].
  rewrite E. cbn [snd]. destruct (Hr Hk) as (Hk' & Hle & Heq). destruct (IH r' Hk') as (H1 & H2 & H3 & H4 & H5).
  split_and!; [done|done|lia|lia|]. intros Hall. apply Forall_cons in Hall as [Hf Hall].
  rewrite H5 by done. apply Heq. cbn in Hf. by rewrite Hf.
Qed.

Lemma open_sql_keeps (I : RegistryDb -> Prop) :
  (forall r, I r -> I (opened r)) -> conn_keeps I open_sql.
Proof.
  intros HI. assert (forall r b, claims_column r = b -> match b with Some true => opened r = r | _ => True end) as Ho.
  { intros [b cs xs] b' <-. by destruct b as [[]|]. }
  unfold open_sql. apply conn_keeps_bind; [|intros _; apply conn_keeps_bind; [|intros _; apply conn_keeps_bind]].
  - apply conn_keeps_stmt. intros r a r' [= _ <-] Hr. destruct (claims_column r); [done|by apply HI].
  - apply conn_keeps_stmt. by intros r a r' [= _ <-].
  - apply conn_keeps_catch, conn_keeps_stmt. intros r a r'. destruct (claims_column r) as [[]|]; [done| |done].
    intros [= <- <-] Hr. by apply HI.
  - intros ?. apply conn_keeps_ret.
Qed.

(** The request takes a handle out of the active ones. *)
Definition rebinds (label : string) (req : RegistryReq) : bool :=
  match req with
  | ReqBind l _ | ReqForceRelease l => String.eqb l label
  | _ => false
  end.

(** The statements of the registry, each on a table it leaves alone or on
    another row. *)
Lemma insert_reservation_keeps label row l x now :
  conn_keeps (fun r => claims r !! label = Some row) (insert_reservation l x now).
Proof.
  apply conn_keeps_stmt. intros r a r'. unfold with_invite_column.
  destruct (claims_column r) as [[]|]; [|done..]. case_decide as D; [done|]. intros [= _ <-] Hr. cbn.
  rewrite lookup_insert_ne; [done|]. intros ->. apply D. rewrite Hr. by eexists.
Qed.

Lemma delete_reserved_keeps label row l :
  is_reserved row = false -> conn_keeps (fun r => claims r !! label = Some row) (delete_reserved l).
Proof.
  intros Hn. apply conn_keeps_stmt. intros r a r' [= _ <-] Hr.
  destruct (claims r !! l) as [x|] eqn:E; [|done]. destruct (is_reserved x) eqn:Ex; [|done]. cbn.
  rewrite lookup_delete_ne; [done|]. intros ->. congruence.
Qed.

Ltac registry_keeps :=
  repeat first
    [ apply open_sql_keeps; by intros
    | apply insert_reservation_keeps
    | apply delete_reserved_keeps; assumption
    | apply conn_keeps_ret
    | apply conn_keeps_bind; [|intros ?]
    | apply conn_keeps_stmt; intros ? ? ? [= _ <-]; cbn; by rewrite ?lookup_insert_ne, ?lookup_alter_ne, ?lookup_delete_ne
    | apply conn_keeps_stmt; intros ? ? ?; unfold with_invite_column; repeat case_match; by intros; simplify_eq/=
    | progress unfold is_taken, query, select_invite, select_reserved, add_uses, execute
    | progress case_match ].

Lemma request_keeps_active label row now req :
  cl_state row = "active" -> rebinds label req = false ->
  conn_keeps (fun r => claims r !! label = Some row) (registry_route now req).
Proof.
  intros Ha Hq. assert (is_reserved row = false) as Hn by (unfold is_reserved; by rewrite Ha).
  destruct req; cbn in Hq |- *; try apply String.eqb_neq in Hq.
  - unfold check. registry_keeps.
  - unfold claim. registry_keeps.
  - unfold release. registry_keeps.
  - unfold bind_did. registry_keeps.
  - unfold seed_invite. registry_keeps.
  - unfold force_release. registry_keeps.
  - unfold resolve_did. registry_keeps.
  - registry_keeps.
Qed.

(** an active handle stays with its DID through any requests, claims and
    releases of the same handle among them, and any failed statements, as long
    as it is not bound anew or force-released. *)
Theorem active_handle_kept (label : string) (row : ClaimRow) (reqs : list (string * RegistryReq)) (c : RegistryObject) :
  claims (db c) !! label = Some row -> cl_state row = "active" ->
  Forall (fun x => rebinds label x.2 = false) reqs ->
  claims (db (registry_run reqs c)) !! label = Some row.
Proof.
  intros Hc Ha Hreqs. unfold registry_run. revert c Hc.
  induction Hreqs as [|[now req] reqs Hx _ IH]; intros c Hc; [done|].
  cbn [foldl]. apply IH. rewrite registry_fetch_snd. by apply (request_keeps_active label row now req Ha Hx c).
Qed.

(** What an operation that succeeded did, whatever was failed on the way. *)
Lemma stmt_Ok {Db A} (f : Db -> result string (A * Db)) c a c' :
  stmt f c = (Ok a, c') -> f (db c) = Ok (a, db c').
Proof. intros E. pose proof (proj2 (does_stmt f c)) as H'. by rewrite E in H'. Qed.

Lemma open_sql_rows c u c' : open_sql c = (Ok u, c') -> claims (db c') = claims (db c) /\ invites (db c') = invites (db c).
Proof.
  intros E. pose proof (open_sql_keeps (fun r => claims r = claims (db c) /\ invites r = invites (db c))
    ltac:(done) c ltac:(done)) as Hk. by rewrite E in Hk.
Qed.

Lemma is_taken_Ok label c b c' :
  is_taken label c = (Ok b, c') -> db c' = db c /\ b = bool_decide (is_Some (claims (db c) !! label)).
Proof.
  unfold is_taken. intros E. apply bind_Ok in E as (n & c1 & E1 & E). apply stmt_Ok in E1.
  injection E as <- <-. injection E1 as <- <-. split; [done|]. by repeat case_match; repeat case_bool_decide.
Qed.

Lemma insert_reservation_Ok label x now c u c' :
  insert_reservation label x now c = (Ok u, c') ->
  claims (db c) !! label = None /\ db c' = put_claims (<[label := MkClaim None "reserved" x now]> (claims (db c))) (db c).
Proof.
  intros E. apply stmt_Ok in E. unfold with_invite_column in E.
  destruct (claims_column (db c)) as [[]|]; [|done..]. case_decide as D; [done|].
  injection E as _ E. split; [|done]. by apply eq_None_not_Some.
Qed.

(** What a granted claim did. *)
Lemma granted_claim (label : string) (x : option string) (open : bool) (now : string) (c c' : RegistryObject) (e : option string) :
  registry_fetch now (ReqClaim label x open) c = (OkResp true e, c') ->
  let r := db c in
  let r' := db c' in
  claims r !! label = None /\
  if open then claims r' = <[label := MkClaim None "reserved" None now]> (claims r) /\ invites r' = invites r
  else exists code uses, x = Some code /\ invites r !! code = Some (uses, 0) /\ 0 < uses <= i64_max /\
    claims r' = <[label := MkClaim None "reserved" (Some code) now]> (claims r) /\
    invites r' = <[code := (uses - 1, 0)]> (invites r).
Proof.
  unfold registry_fetch. cbn [registry_route].
  destruct (claim label x open now c) as [[resp|e'] c1] eqn:E; [|done]. intros [= -> ->]. unfold claim in E. cbn zeta.
  apply bind_Ok in E as (u & c1 & E1 & E). apply open_sql_rows in E1 as [Ec Ei].
  apply bind_Ok in E as (taken & c2 & E1 & E). apply is_taken_Ok in E1 as [Ed ->].
  case_bool_decide as D; [done|]. rewrite <- Ec, <- Ei. rewrite <- Ed in *.
  destruct open.
  - apply bind_Ok in E as (u' & c3 & E1 & E). apply insert_reservation_Ok in E1 as [Hl E1].
    injection E as _ <-. by rewrite E1.
  - destruct x as [code|]; [|done]. apply bind_Ok in E as (row & c3 & E1 & E). apply stmt_Ok in E1.
    destruct (invites (db c2) !! code) as [[n d]|] eqn:Ev; [|by injection E1 as <- _].
    destruct (Z.leb_spec n i64_max) as [Hn|]; [|done]. injection E1 as <- Ed3.
    destruct (Z.eqb_spec d 0) as [->|]; [|done]. destruct (Z.ltb_spec 0 n) as [Hn0|]; [|done]. cbn in E.
    apply bind_Ok in E as (u1 & c4 & E1 & E). apply stmt_Ok in E1. injection E1 as _ E4.
    apply bind_Ok in E as (u2 & c5 & E1 & E). apply insert_reservation_Ok in E1 as [Hl E1].
    injection E as _ <-. rewrite <- Ed3 in E4. rewrite <- E4 in E1, Hl. rewrite E1. cbn in Hl |- *. split; [done|].
    exists code, n. split_and!; try done. by rewrite (alter_present _ _ _ _ Ev).
Qed.

(** The handle was free and is reserved now, for the code that paid for it. *)
Lemma claim_spends label x (open : bool) now c c' e :
  registry_fetch now (ReqClaim label x open) c = (OkResp true e, c') ->
  exists code, claims (db c) !! label = None /\
    claims (db c') = <[label := MkClaim None "reserved" code now]> (claims (db c)) /\
    if open then code = None /\ invites (db c') = invites (db c)
    else exists spent uses, x = Some spent /\ code = Some spent /\ invites (db c) !! spent = Some (uses, 0) /\
           0 < uses <= i64_max /\ invites (db c') = <[spent := (uses - 1, 0)]> (invites (db c)).
Proof.
  intros [Hf Hc]%granted_claim. destruct open.
  - destruct Hc as [-> ->]. by eexists.
  - destruct Hc as (spent & n & -> & Hn & Hr & -> & ->). exists (Some spent). split_and!; try done. by exists spent, n.
Qed.

(** a claim that is granted found the handle free and reserves it, whatever
    statements failed; with registration closed it has spent one use of a code
    that was enabled and had one left, with open registration none, and it
    touches nothing else. *)
Theorem claim_granted (label : string) (x : option string) (open : bool) (now : string) (c c' : RegistryObject) (e : option string) :
  registry_fetch now (ReqClaim label x open) c = (OkResp true e, c') ->
  let r := db c in
  let r' := db c' in
  claims r !! label = None /\
  if open then claims r' = <[label := MkClaim None "reserved" None now]> (claims r) /\ invites r' = invites r
  else exists code uses, x = Some code /\ invites r !! code = Some (uses, 0) /\ 0 < uses <= i64_max /\
    claims r' = <[label := MkClaim None "reserved" (Some code) now]> (claims r) /\
    invites r' = <[code := (uses - 1, 0)]> (invites r).
Proof. exact (granted_claim label x open now c c' e). Qed.

(** a release whose last statement fails has already given the use back and
    left the reservation: the release tried again gives it back once more, so the
    code has gained a use.  The comment of [release] rules this out for an
    interruption; a failed statement is one. *)
Theorem release_refunds_twice (label code now e : string) (row : ClaimRow) (uses d : Z) (r : RegistryDb) :
  claims_column r = Some true ->
  claims r !! label = Some row -> cl_state row = "reserved" -> cl_invite_code row = Some code ->
  invites r !! code = Some (uses, d) ->
  let '(x, c1) := registry_fetch now (ReqRelease label) (MkConn r [None; None; None; None; None; Some e]) in
  let '(y, c2) := registry_fetch now (ReqRelease label) c1 in
  x = RegistryError 500 ("registry error: " +:+ e) /\ y = OkResp true None /\
  claims (db c2) = delete label (claims r) /\ invites (db c2) = <[code := (uses + 1 + 1, d)]> (invites r).
Proof.
  intros Hcol Hl Hs Hi Hv. destruct r as [col cs xs]. cbn in *. subst col.
  assert (is_reserved row = true) as Hr by (unfold is_reserved; by rewrite Hs).
  unfold registry_fetch at 1. cbn [registry_route].
  assert (release label (MkConn (MkRegistry (Some true) cs xs) [None; None; None; None; None; Some e]) =
    (Err e, MkConn (MkRegistry (Some true) cs (<[code := (uses + 1, d)]> xs)) [])) as ->.
  { unfold release, bind, open_sql, create_claims, add_invite_code, select_reserved, delete_reserved, add_uses,
      catch, execute, stmt. cbn. rewrite Hl. cbn. rewrite Hr. cbn. rewrite Hi. cbn.
    by rewrite (alter_present _ _ _ _ Hv). }
  unfold registry_fetch. cbn [registry_route]. rewrite release_sound. unfold release_fun. cbn.
  rewrite Hl, Hr, Hi. cbn. split_and!; try done.
  rewrite (alter_present _ _ _ (uses + 1, d)) by apply lookup_insert_eq. by rewrite insert_insert_eq.
Qed.

End Histories.

(** ** Witnesses *)

#[local] Instance registry_scan : SqlScan := { scan_rows _ l := l }.

Definition demo_registry : RegistryDb :=
  MkRegistry (Some true) {[ "bob" := MkClaim (Some "did:b") "active" (Some "inv") "2024";
                            "eve" := MkClaim None "reserved" (Some "inv") "2024" ]} {[ "inv" := (1, 0) ]}.

Definition demo_requests : list (string * RegistryReq) :=
  [("2025", ReqClaim "bob" (Some "inv") false); ("2025", ReqClaim "al" (Some "inv") false);
   ("2025", ReqRelease "eve"); ("2025", ReqRelease "bob"); ("2026", ReqClaim "zoe" (Some "inv") false)].

Lemma demo_code_ok : code_ok demo_registry "inv".
Proof.
  assert (invites demo_registry !! "inv" = Some (1, 0)) as E by (vm_compute; reflexivity).
  split_and!; rewrite ?E.
  - intros l row _ _. by exists (1, 0).
  - by intros n d [= <- <-].
  - vm_compute. discriminate.
Qed.

Lemma registry_conserves_uses_witness :
  let c' := registry_run demo_requests (MkConn demo_registry []) in
  potential demo_registry "inv" = 3 /\ potential (db c') "inv" = 3 /\ spent (claims (db c')) "inv" = 3 /\
  (fst <$> map_to_list (claims (db c'))) ≡ₚ ["bob"; "al"; "zoe"].
Proof.
  assert (Forall (fun x => force_releases x.2 = false) demo_requests) as Hf by by repeat constructor.
  destruct (registry_conserves_uses "inv" demo_requests demo_registry demo_code_ok) as (_ & _ & _ & _ & H).
  { by repeat constructor. }
  split_and!; [vm_compute; reflexivity|rewrite (H Hf); vm_compute; reflexivity|vm_compute; reflexivity|].
  apply NoDup_Permutation; [by apply (bool_decide_unpack _); vm_compute|by apply (bool_decide_unpack _); vm_compute|].
  intros x. vm_compute. set_solver.
Defined.

Lemma active_handle_kept_witness :
  claims (db (registry_run demo_requests (MkConn demo_registry [None; Some "disk"; None; Some "disk"]))) !! "bob" =
  Some (MkClaim (Some "did:b") "active" (Some "inv") "2024").
Proof. apply active_handle_kept; [vm_compute; reflexivity|done|by repeat constructor]. Defined.

Lemma claim_granted_witness :
  exists uses, invites demo_registry !! "inv" = Some (uses, 0) /\ 0 < uses <= i64_max.
Proof.
  destruct (registry_fetch "2025" (ReqClaim "al" (Some "inv") false) (MkConn demo_registry [])) as [x c'] eqn:E.
  assert (x = OkResp true None) as -> by (vm_compute in E; congruence).
  destruct (claim_granted "al" (Some "inv") false "2025" (MkConn demo_registry []) c' None E)
    as (_ & code & uses & [= <-] & Hi & Hu & _).
  exists uses. by split.
Defined.

Lemma release_refunds_twice_witness :
  let c1 := snd (registry_fetch "2025" (ReqRelease "eve") (MkConn demo_registry [None; None; None; None; None; Some "disk"])) in
  let c2 := snd (registry_fetch "2025" (ReqRelease "eve") c1) in
  invites (db c2) !! "inv" = Some (3, 0) /\ potential (db c2) "inv" = 4.
Proof.
  pose proof (release_refunds_twice "eve" "inv" "2025" "disk" (MkClaim None "reserved" (Some "inv") "2024") 1 0
    demo_registry eq_refl ltac:(vm_compute; reflexivity) eq_refl eq_refl ltac:(vm_compute; reflexivity)) as H.
  cbv zeta. destruct (registry_fetch "2025" (ReqRelease "eve") (MkConn demo_registry _)) as [x c1]. cbn [snd].
  destruct (registry_fetch "2025" (ReqRelease "eve") c1) as [y c2]. cbn [snd].
  destruct H as (_ & _ & Hc & Hi). unfold potential, uses_left. rewrite Hc, Hi. vm_compute. by split.
Defined.
