(* ===== verification/WorkerSeq.v ===== *)
(** * The worker's firehose sequencer

    [src/rust-worker/src/sequencer.rs]: the one Durable Object that numbers every
    account's commits, logs their frames and sends them to the connected
    sockets; and [enqueue_commit] of [durable.rs], which hands it a commit.  The
    object runs one request at a time; the only suspension of [enqueue] is after
    the log and the fan-out, when the indexer is told. *)

From Stdlib Require Import ZArith Lia Ascii.
From S2P Require Import Prelude RustStr Externals StoreTypes MemoryStore Repo.
From S2P Require Import Sql.
From S2P Require Import SqliteStore.
From S2P Require Import Firehose.

(** [data_encoding::BASE64]. *)
Class Base64 := {
  b64_encode : bytes -> string;
  b64_decode : string -> option bytes;
}.
Class Base64Laws `{Base64} := { b64_decode_encode b : b64_decode (b64_encode b) = Some b }.

(** ** State *)

Record LogRow := MkLogRow { lg_seq : Z; lg_repo : string; lg_frame : bytes; lg_created_at : string }.

(** The counter's one row, and the log in the order of insertion. *)
Record SequencerDb := MkSequencer { next_seq : option Z; firehose_log : list LogRow }.
Definition SequencerDb_empty : SequencerDb := MkSequencer None [].

(** A WebSocket: whether its peer is there, and what it was sent. *)
Record Socket := MkSocket { sk_alive : bool; sk_frames : list bytes }.

(** A send to a dead socket fails, and the error is dropped. *)
Definition ws_send (frame : bytes) (s : Socket) : Socket :=
  if sk_alive s then MkSocket true (sk_frames s ++ [frame]) else s.

Section Sequencer.
Context `{Json} {Cid : Type} `{CidLib Cid} `{CidText Cid} `{RepoSerde Cid} `{Base64}.

Record EnqueueOp := MkEnqueueOp {
  eo_action : string;
  eo_path : string;
  eo_cid : option string;
  eo_record : option Value;
}.

Record EnqueueReq := MkEnqueueReq {
  eq_repo : string;
  eq_commit : string;
  eq_rev : string;
  eq_since : option string;
  eq_blocks_b64 : string;
  eq_ops : list EnqueueOp;
  eq_too_big : bool;
}.

(** What the queue of the indexer is sent. *)
Record IndexerMessage := MkIndexerMessage {
  im_seq : Z;
  im_repo : string;
  im_rev : string;
  im_ops : list EnqueueOp;
}.

Record SequencerObject := MkSequencerObject {
  so_conn : Conn SequencerDb;
  so_sockets : list Socket;
  so_queue : list IndexerMessage;
}.
Definition so_db (o : SequencerObject) : SequencerDb := db (so_conn o).

Notation M A := (SE SequencerObject string A).

Definition on_sql {A} (m : Q SequencerDb A) : M A :=
  fun o => let '(r, c) := m (so_conn o) in (r, MkSequencerObject c (so_sockets o) (so_queue o)).
Definition on_sockets (f : list Socket -> list Socket) : M unit :=
  fun o => (Ok tt, MkSequencerObject (so_conn o) (f (so_sockets o)) (so_queue o)).

(** ** Statements *)

(** [sql]: the schema's three statements. *)
Definition open_log : Q SequencerDb unit :=
  (execute id ;;!
   execute (fun d => MkSequencer (Some (default 1 (next_seq d))) (firehose_log d)) ;;!
   execute id)%se.

Definition read_next : Q SequencerDb Z := query (fun d => default 1 (next_seq d)).
Definition write_next (n : Z) : Q SequencerDb unit :=
  execute (fun d => MkSequencer (option_map (fun _ => n) (next_seq d)) (firehose_log d)).

Definition insert_log (row : LogRow) : Q SequencerDb unit :=
  stmt (fun d =>
    if existsb (fun x => lg_seq x =? lg_seq row) (firehose_log d)
    then Err "UNIQUE constraint failed: firehose_log.seq"
    else Ok (tt, MkSequencer (next_seq d) (firehose_log d ++ [row]))).

(** [SELECT frame FROM firehose_log WHERE seq > ? ORDER BY seq ASC]. *)
Definition row_le (a b : LogRow) : Prop := lg_seq a <= lg_seq b.
#[export] Instance row_le_dec : RelDecision row_le.
Proof. intros a b. unfold row_le. apply _. Defined.
Definition backlog (after : Z) (d : SequencerDb) : list bytes :=
  map lg_frame (merge_sort row_le (List.filter (fun r => after <? lg_seq r) (firehose_log d))).

(** ** Operations *)

Definition op_of_req (o : EnqueueOp) : result string (RepoOp Cid) :=
  match eo_cid o with
  | Some c => let? cid := map_err (fun e => "bad op cid: " +:+ e) (cid_from_str c) in
              Ok (MkRepoOp (eo_action o) (eo_path o) (Some cid))
  | None => Ok (MkRepoOp (eo_action o) (eo_path o) None)
  end.

Fixpoint ops_of_req (l : list EnqueueOp) : result string (list (RepoOp Cid)) :=
  match l with
  | [] => Ok []
  | o :: l => let? x := op_of_req o in let? xs := ops_of_req l in Ok (x :: xs)
  end.

(** The body of the frame, with the number given. *)
Definition body_of_req (seq : Z) (now : string) (ev : EnqueueReq) : result string (CommitBody Cid) :=
  let? commit_cid := map_err (fun e => "bad commit cid: " +:+ e) (cid_from_str (eq_commit ev)) in
  let blocks := default EmptyString (b64_decode (eq_blocks_b64 ev)) in
  let? ops := ops_of_req (eq_ops ev) in
  Ok {| cb_seq := seq; cb_rebase := false; cb_too_big := eq_too_big ev; cb_repo := eq_repo ev;
        cb_commit := commit_cid; cb_rev := eq_rev ev; cb_since := eq_since ev; cb_blocks := blocks;
        cb_ops := ops; cb_blobs := []; cb_time := now; cb_prev_data := None |}.

(** [queue] is what the binding does with a message: [None] when it is absent. *)
Definition publish_to_indexer (queue : option (result string unit)) (seq : Z) (ev : EnqueueReq) : M unit :=
  match queue with
  | None => ret tt
  | Some (Err e) => throw e
  | Some (Ok _) => fun o =>
      (Ok tt, MkSequencerObject (so_conn o) (so_sockets o)
                (so_queue o ++ [MkIndexerMessage seq (eq_repo ev) (eq_rev ev) (eq_ops ev)]))
  end.

Definition enqueue (queue : option (result string unit)) (now : string) (ev : EnqueueReq) : M Z :=
  (on_sql open_log ;;!
   let! seq := on_sql read_next in
   on_sql (write_next (i64_add seq 1)) ;;!
   let! body := lift (body_of_req seq now ev) in
   let frame := encode_message_frame "#commit" body in
   on_sql (insert_log (MkLogRow seq (eq_repo ev) frame now)) ;;!
   on_sockets (map (ws_send frame)) ;;!
   let! _ := catch (publish_to_indexer queue seq ev) in
   ret seq)%se.

(** The socket is accepted first, then sent what it missed; the reply names it. *)
Definition seq_subscribe (cursor : option Z) : M nat :=
  (let! i := (fun o => (Ok (length (so_sockets o)), o)) in
   on_sockets (fun l => l ++ [MkSocket true []]) ;;!
   match cursor with
   | Some after =>
       on_sql open_log ;;!
       let! rows := on_sql (query (backlog after)) in
       on_sockets (alter (fun s => foldl (fun s f => ws_send f s) s rows) i)
   | None => ret tt
   end ;;!
   ret i)%se.

(** ** The object: [route] and [fetch] *)

Inductive SequencerReq :=
| SqSubscribe (cursor : option string)
| SqEnqueue (ev : EnqueueReq)
| SqTestInject (ev : EnqueueReq)
| SqUnknown (path : string).

Inductive SequencerReply :=
| SqUpgraded (socket : nat)
| SqSequenced (seq : Z)
| SqError (status : Z) (text : string).

Definition sequencer_route (queue : option (result string unit)) (now : string) (req : SequencerReq) : M SequencerReply :=
  match req with
  | SqSubscribe cursor => (let! i := seq_subscribe (c ← cursor; parse_i64 c) in ret (SqUpgraded i))%se
  | SqEnqueue ev | SqTestInject ev => (let! seq := enqueue queue now ev in ret (SqSequenced seq))%se
  | SqUnknown _ => ret (SqError 404 "unknown sequencer endpoint")
  end.

Definition sequencer_fetch (queue : option (result string unit)) (now : string) (req : SequencerReq)
    (o : SequencerObject) : SequencerReply * SequencerObject :=
  match sequencer_route queue now req o with
  | (Ok resp, o') => (resp, o')
  | (Err e, o') => (SqError 500 ("sequencer error: " +:+ e), o')
  end.

(** ** Handing a commit over: [enqueue_commit] of [durable.rs] *)

(** Each op with its record; ops past the records have none. *)
Fixpoint zip_records (ops : list (RepoOp Cid)) (records : list (option Value)) : list EnqueueOp :=
  match ops with
  | [] => []
  | o :: ops =>
      let cid := cid_to_string <$> ro_cid o in
      match records with
      | r :: records => MkEnqueueOp (ro_action o) (ro_path o) cid r :: zip_records ops records
      | [] => MkEnqueueOp (ro_action o) (ro_path o) cid None :: zip_records ops []
      end
  end.

Definition enqueue_payload (body : CommitBody Cid) (records : list (option Value)) : EnqueueReq := {|
  eq_repo := cb_repo body;
  eq_commit := cid_to_string (cb_commit body);
  eq_rev := cb_rev body;
  eq_since := cb_since body;
  eq_blocks_b64 := b64_encode (cb_blocks body);
  eq_ops := zip_records (cb_ops body) records;
  eq_too_big := cb_too_big body |}.

End Sequencer.
