(* ===== verification/WorkerSeqProps.v ===== *)
(** * The worker's sequencer: what it promises

    A subscriber is sent every frame after its cursor, in order and once; the
    frame of a commit says what the writer committed; and when numbers are
    lost. *)

From Stdlib Require Import ZArith Lia Ascii.
From S2P Require Import Prelude RustStr Externals StoreTypes MemoryStore Repo.
From S2P Require Import Sql.
From S2P Require Import SqliteStore.
From S2P Require Import SqlProps.
From S2P Require Import Firehose.
From S2P Require Import RepoWriter.
From S2P Require Import WorkerSeq.
From S2P Require Import Demo.
From S2P Require Import RepoDemo.
From S2P Require Import SqliteProps.

Section Sequencer.
Context `{Json} {Cid : Type} `{CidLib Cid} `{CidText Cid} `{RepoSerde Cid} `{Base64}.
Implicit Types (o : SequencerObject) (d : SequencerDb).

(** The number given next. *)
Definition counter d : Z := default 1 (next_seq d).

(** The log ascends strictly, below the counter. *)
Definition seq_log_ok d : Prop :=
  log_ascending (map lg_seq (firehose_log d)) /\ forall r, In r (firehose_log d) -> lg_seq r < counter d.

Definition with_conn (c : Conn SequencerDb) o : SequencerObject := MkSequencerObject c (so_sockets o) (so_queue o).

Lemma wp_on_sql {A} (m : Q SequencerDb A) o Q F :
  wp m (so_conn o) (fun a c => Q a (with_conn c o)) (fun e c => F e (with_conn c o)) -> wp (on_sql m) o Q F.
Proof. unfold wp, on_sql. by destruct (m (so_conn o)) as [[a|e] c]. Qed.

(** The schema's statements leave the log and the number given next. *)
Lemma wp_open_log c (Q : unit -> Conn SequencerDb -> Prop) (F : string -> Conn SequencerDb -> Prop) :
  (forall e c', firehose_log (db c') = firehose_log (db c) -> counter (db c') = counter (db c) -> F e c') ->
  (forall c', firehose_log (db c') = firehose_log (db c) -> next_seq (db c') = Some (counter (db c)) -> Q tt c') ->
  wp open_log c Q F.
Proof.
  intros HF HQ. unfold open_log.
  apply wp_bind, wp_execute; [intros e c1 E1; by apply HF; rewrite E1|]. intros c1 E1. unfold id in E1.
  apply wp_bind, wp_execute; [intros e c2 E2; by apply HF; rewrite E2, E1|]. intros c2 E2. rewrite E1 in E2.
  apply wp_execute; [intros e c3 E3; by apply HF; rewrite E3, E2|]. intros c3 E3. unfold id in E3.
  by apply HQ; rewrite E3, E2.
Qed.

(** An enqueue, by cases: the commit is logged under the next number and sent to
    every socket, or it is not and the number may still be spent. *)
Lemma enqueue_cases queue now ev o r o' :
  enqueue queue now ev o = (r, o') ->
  let n := counter (so_db o) in
  (exists body, r = Ok n /\ body_of_req n now ev = Ok body /\
     counter (so_db o') = i64_add n 1 /\
     let frame := encode_message_frame "#commit" body in
     firehose_log (so_db o') = firehose_log (so_db o) ++ [MkLogRow n (eq_repo ev) frame now] /\
     so_sockets o' = map (ws_send frame) (so_sockets o))
  \/
  (exists e, r = Err e /\ firehose_log (so_db o') = firehose_log (so_db o) /\
     so_sockets o' = so_sockets o /\ so_queue o' = so_queue o /\
     (counter (so_db o') = n \/ counter (so_db o') = i64_add n 1)).
Proof.
  intros E n. assert (wp (enqueue queue now ev) o
    (fun m o' => m = n /\ exists body, body_of_req n now ev = Ok body /\
       counter (so_db o') = i64_add n 1 /\
       firehose_log (so_db o') = firehose_log (so_db o) ++
         [MkLogRow n (eq_repo ev) (encode_message_frame "#commit" body) now] /\
       so_sockets o' = map (ws_send (encode_message_frame "#commit" body)) (so_sockets o))
    (fun e o' => firehose_log (so_db o') = firehose_log (so_db o) /\
       so_sockets o' = so_sockets o /\ so_queue o' = so_queue o /\
       (counter (so_db o') = n \/ counter (so_db o') = i64_add n 1))) as Hw.
  2: { pose proof (wp_run _ _ _ _ _ _ Hw E) as Hr. destruct r as [m|e]; [left|right; by exists e].
       destruct Hr as [-> (body & Hr)]. exists body. destruct Hr as (? & ? & ? & ?). by repeat split. }
  clear E. unfold enqueue. unfold so_db in *.
  apply wp_bind, wp_on_sql, wp_open_log; [intros e c1 El Ec; by auto|]. intros c1 El En. fold n in En.
  apply wp_bind, wp_on_sql, wp_query; [intros e c2 E2; cbn in *; rewrite E2; unfold counter; rewrite En; by auto|].
  intros c2 E2. cbn in E2 |- *. rewrite En. cbn.
  apply wp_bind, wp_on_sql, wp_execute; [intros e c3 E3; cbn in *; rewrite E3, E2; unfold counter; rewrite En; by auto|].
  intros c3 E3. cbn in E3. rewrite E2, En in E3. cbn in E3. rewrite El in E3.
  apply wp_bind, wp_lift; [|intros e _; cbn; rewrite E3; by auto]. intros body Hb.
  apply wp_bind, wp_on_sql, wp_stmt; [intros e c4 E4; cbn in *; rewrite E4, E3; by auto|].
  intros u d4. cbn. rewrite E3. cbn. destruct (existsb _ _); [done|]. intros [= _ <-] c4 E4.
  apply wp_bind. unfold wp at 1, on_sockets. apply wp_bind, wp_catch. cbn.
  unfold publish_to_indexer. destruct queue as [[[]|e]|]; cbn; rewrite E4; cbn; eauto 10.
Qed.

Lemma send_all fs l : foldl (fun s f => ws_send f s) (MkSocket true l) fs = MkSocket true (l ++ fs).
Proof.
  revert l. induction fs as [|f fs IH]; intros l; [by rewrite app_nil_r|].
  cbn. rewrite IH. by rewrite <- app_assoc.
Qed.

(** What a new subscriber missed. *)
Definition missed (cursor : option Z) d : list bytes :=
  match cursor with Some n => backlog n d | None => [] end.

(** Subscribing adds a socket, and nothing else; it holds what it missed when
    the request succeeds. *)
Lemma subscribe_cases cursor o r o' :
  seq_subscribe cursor o = (r, o') ->
  firehose_log (so_db o') = firehose_log (so_db o) /\ counter (so_db o') = counter (so_db o) /\
  exists fs, so_sockets o' = so_sockets o ++ [MkSocket true fs] /\
    forall i, r = Ok i -> i = length (so_sockets o) /\ fs = missed cursor (so_db o).
Proof.
  intros E. set (P := fun fs o' =>
    firehose_log (so_db o') = firehose_log (so_db o) /\ counter (so_db o') = counter (so_db o) /\
    so_sockets o' = so_sockets o ++ [MkSocket true fs]).
  assert (wp (seq_subscribe cursor) o
    (fun i o' => i = length (so_sockets o) /\ P (missed cursor (so_db o)) o') (fun _ o' => P [] o')) as Hw.
  2: { pose proof (wp_run _ _ _ _ _ _ Hw E) as Hr. destruct r as [i|e].
       - destruct Hr as (-> & H1' & H2' & H3'). split_and!; [done|done|]. eexists. split; [done|]. by intros i [= <-].
       - destruct Hr as (H1' & H2' & H3'). split_and!; [done|done|]. by eexists. }
  clear E. unfold seq_subscribe. apply wp_bind. unfold wp at 1. apply wp_bind. unfold wp at 1, on_sockets.
  destruct cursor as [n|]; [|by apply wp_bind, wp_ret, wp_ret].
  unfold P, so_db. apply wp_bind, wp_bind, wp_on_sql, wp_open_log; [done|]. intros c1 El En.
  assert (counter (db c1) = counter (db (so_conn o))) as Ec by (unfold counter; by rewrite En).
  apply wp_bind, wp_on_sql, wp_query; [intros e c2 E2; cbn in *; by rewrite E2|]. intros c2 E2. cbn in E2.
  unfold wp at 1, on_sockets. apply wp_ret. cbn. rewrite E2. split_and!; try done.
  cbn [so_conn] in El. assert (backlog n (db c1) = backlog n (db (so_conn o))) as -> by (unfold backlog; by rewrite El).
  rewrite alter_app_r_alt by lia. rewrite Nat.sub_diag. cbn. by rewrite send_all.
Qed.

(** ** Histories of the object *)

(** A request, with what the queue does and the clock; or a peer goes away. *)
Inductive SeqEvent :=
| SeRequest (queue : option (result string unit)) (now : string) (req : SequencerReq)
| SeClosed (i : nat).

Definition seq_step o (e : SeqEvent) : SequencerObject :=
  match e with
  | SeRequest queue now req => snd (sequencer_fetch queue now req o)
  | SeClosed i => MkSequencerObject (so_conn o) (alter (fun s => MkSocket false (sk_frames s)) i (so_sockets o)) (so_queue o)
  end.

Definition seq_run (es : list SeqEvent) o : SequencerObject := foldl seq_step o es.

Definition closes (i : nat) (e : SeqEvent) : Prop := match e with SeClosed j => j = i | _ => False end.

Lemma fetch_route queue now req o :
  snd (sequencer_fetch queue now req o) = snd (sequencer_route queue now req o).
Proof. unfold sequencer_fetch. by destruct (sequencer_route queue now req o) as [[] o']. Qed.

(** A step: the log grows by at most one row, numbered by the counter, and a
    socket there that is not closed by the step is sent it. *)
Definition stepped o e o' : Prop :=
  exists rows,
    firehose_log (so_db o') = firehose_log (so_db o) ++ rows /\
    ((rows = [] /\ (counter (so_db o') = counter (so_db o) \/ counter (so_db o') = i64_add (counter (so_db o)) 1)) \/
     (exists r, rows = [r] /\ lg_seq r = counter (so_db o) /\ counter (so_db o') = i64_add (counter (so_db o)) 1)) /\
    forall i fs, so_sockets o !! i = Some (MkSocket true fs) -> ~ closes i e ->
      so_sockets o' !! i = Some (MkSocket true (fs ++ map lg_frame rows)).

Lemma enqueue_stepped queue now ev o e :
  (forall i, ~ closes i e) -> stepped o e (snd (enqueue queue now ev o)).
Proof.
  intros He. destruct (enqueue queue now ev o) as [r o'] eqn:E.
  apply enqueue_cases in E as [(body & _ & _ & Hc & Hl & Hs)|(x & _ & Hl & Hs & _ & Hc)]; cbn [snd].
  - eexists. split; [exact Hl|]. split; [right; by eexists|]. intros i fs Hi _. rewrite Hs, list_lookup_fmap, Hi. done.
  - exists []. rewrite app_nil_r. split_and!; [done|by left|]. intros i fs Hi _. by rewrite Hs, app_nil_r.
Qed.

Lemma seq_step_stepped o e : stepped o e (seq_step o e).
Proof.
  destruct e as [queue now req|j]; cbn [seq_step].
  - rewrite fetch_route. destruct req as [cursor|ev|ev|path]; cbn [sequencer_route].
    + unfold bind. destruct (seq_subscribe _ o) as [r o'] eqn:E.
      assert (snd (match r with Ok a => ret (SqUpgraded a) o' | Err e => (Err e, o') end) = o') as -> by by destruct r.
      apply subscribe_cases in E as (El & Ec & fs & Es & _). exists []. rewrite El, Ec, Es, app_nil_r.
      split_and!; [done|auto|]. intros i gs Hi _. rewrite app_nil_r. by apply lookup_app_l_Some.
    + pose proof (enqueue_stepped queue now ev o (SeRequest queue now (SqEnqueue ev)) ltac:(by intros ? [])) as Hs.
      unfold bind. by destruct (enqueue queue now ev o) as [[] o'].
    + pose proof (enqueue_stepped queue now ev o (SeRequest queue now (SqTestInject ev)) ltac:(by intros ? [])) as Hs.
      unfold bind. by destruct (enqueue queue now ev o) as [[] o'].
    + exists []. rewrite app_nil_r. split_and!; [done|auto|]. intros i gs Hi _. by rewrite app_nil_r.
  - exists []. rewrite app_nil_r. split_and!; [done|auto|]. intros i gs Hi Hj. cbn in Hj |- *.
    rewrite app_nil_r, list_lookup_alter_ne; done.
Qed.

(** What the subscriber of socket [i], with cursor [n], has been sent. *)
Definition caught_up (i : nat) (n : Z) o : Prop :=
  so_sockets o !! i =
  Some (MkSocket true (map lg_frame (List.filter (fun r => n <? lg_seq r) (firehose_log (so_db o))))).

Lemma step_counter o e :
  0 <= counter (so_db o) < i64_max -> counter (so_db o) <= counter (so_db (seq_step o e)) <= counter (so_db o) + 1.
Proof.
  intros Hb. destruct (seq_step_stepped o e) as (rows & _ & Hc & _).
  assert (i64_add (counter (so_db o)) 1 = counter (so_db o) + 1) as Ei.
  { unfold i64_add. apply i64_wrap_id. unfold i64_max in *. lia. }
  rewrite Ei in Hc. destruct Hc as [[_ [->| ->]]|(r & _ & _ & ->)]; lia.
Qed.

Lemma step_log_ok o e : 0 <= counter (so_db o) < i64_max -> seq_log_ok (so_db o) -> seq_log_ok (so_db (seq_step o e)).
Proof.
  intros Hb [Ha Hlt]. pose proof (step_counter o e Hb) as Hc'.
  destruct (seq_step_stepped o e) as (rows & Hl & Hc & _). unfold seq_log_ok. rewrite Hl.
  destruct Hc as [[-> _]|(r & -> & Hr & Hc)]; [rewrite app_nil_r; split; [done|]; intros x Hx; apply Hlt in Hx; lia|].
  unfold i64_add in Hc. rewrite i64_wrap_id in Hc by (unfold i64_max in *; lia). split.
  - rewrite map_app. apply log_ascending_snoc; [done|]. intros z Hz. apply in_map_iff in Hz as (y & <- & Hy).
    rewrite Hr. by apply Hlt.
  - intros x Hx. apply in_app_iff in Hx as [Hx|[<-|[]]]; [apply Hlt in Hx|]; lia.
Qed.

Lemma step_caught_up i n o e :
  n < counter (so_db o) -> ~ closes i e -> caught_up i n o -> caught_up i n (seq_step o e).
Proof.
  intros Hn He Hi. destruct (seq_step_stepped o e) as (rows & Hl & Hc & Hs). unfold caught_up in *.
  rewrite (Hs i _ Hi He), Hl, List.filter_app, map_app. do 3 f_equal.
  destruct Hc as [[-> _]|(r & -> & Hr & _)]; [done|]. cbn. rewrite Hr. by rewrite (proj2 (Z.ltb_lt _ _) Hn).
Qed.

(** C26: a subscriber accepted with a cursor that is not past the head has been
    sent, whatever has happened since and whichever statements failed, exactly
    the logged frames after its cursor: each once, in ascending order of their
    numbers, none missing. *)
Theorem worker_stream_complete (o o1 : SequencerObject) queue now (cursor : string) (n : Z) (i : nat) (es : list SeqEvent) :
  seq_log_ok (so_db o) -> 0 <= counter (so_db o) -> counter (so_db o) + Z.of_nat (length es) <= i64_max ->
  parse_i64 cursor = Some n -> n < counter (so_db o) ->
  sequencer_fetch queue now (SqSubscribe (Some cursor)) o = (SqUpgraded i, o1) ->
  (forall e, In e es -> ~ closes i e) ->
  let o2 := seq_run es o1 in
  log_ascending (map lg_seq (firehose_log (so_db o2))) /\
  so_sockets o2 !! i =
    Some (MkSocket true (map lg_frame (List.filter (fun r => n <? lg_seq r) (firehose_log (so_db o2))))).
Proof.
  intros Hok Hz Hmax Hp Hn E Hes. unfold sequencer_fetch in E. cbn [sequencer_route mbind option_bind] in E.
  rewrite Hp in E. unfold bind in E. destruct (seq_subscribe (Some n) o) as [[j|e] o'] eqn:Es; [|done].
  injection E as -> ->. apply subscribe_cases in Es as (El & Ec & fs & Hs & Hj).
  destruct (Hj i eq_refl) as [-> ->].
  assert (caught_up (length (so_sockets o)) n o1) as Hc.
  { unfold caught_up. rewrite Hs, El, list_lookup_middle by done. unfold missed, backlog.
    by rewrite (merge_sort_keys lg_seq) by (done || by apply log_ascending_filter, Hok). }
  assert (seq_log_ok (so_db o1)) as Hok1 by (unfold seq_log_ok; by rewrite El, Ec).
  rewrite <- Ec in Hz, Hmax, Hn. clear -Hz Hmax Hn Hes Hc Hok1. unfold seq_run.
  revert o1 Hz Hmax Hn Hc Hok1. induction es as [|e es IH]; intros o1 Hz Hmax Hn Hc Hok1; [by destruct Hok1|].
  cbn [length] in Hmax. cbn [foldl]. pose proof (step_counter o1 e ltac:(lia)).
  apply IH; [intros; apply Hes; by right|lia|lia|lia|apply step_caught_up; [lia|apply Hes; by left|done]|].
  apply step_log_ok; [lia|done].
Qed.

(** ** With no failed statement *)

Lemma open_log_sound d :
  open_log (MkConn d []) = (Ok tt, MkConn (MkSequencer (Some (counter d)) (firehose_log d)) []).
Proof. reflexivity. Qed.

(** The body as it is sent: numbered and timed by the sequencer. *)
Definition stamped (n : Z) (now : string) (b : CommitBody Cid) : CommitBody Cid :=
  MkCommitBody n (cb_rebase b) (cb_too_big b) (cb_repo b) (cb_commit b) (cb_rev b) (cb_since b)
    (cb_blocks b) (cb_ops b) (cb_blobs b) now (cb_prev_data b).

(** As the writer makes them. *)
Definition writer_body (b : CommitBody Cid) : Prop :=
  cb_rebase b = false /\ cb_blobs b = [] /\ cb_prev_data b = None.

Lemma ops_of_zip `{!CidTextLaws Cid} (ops : list (RepoOp Cid)) records : ops_of_req (zip_records ops records) = Ok ops.
Proof.
  revert records. induction ops as [|[a p c] ops IH]; intros records; [done|].
  destruct records as [|r records]; cbn [zip_records ops_of_req]; unfold op_of_req; cbn; rewrite IH;
    (destruct c as [c|]; cbn; [by rewrite cid_from_to_string|done]).
Qed.

Lemma body_of_payload `{!CidTextLaws Cid} `{!Base64Laws} n now b records :
  writer_body b -> body_of_req n now (enqueue_payload b records) = Ok (stamped n now b).
Proof.
  intros (H1' & H2' & H3'). unfold body_of_req. cbn. rewrite cid_from_to_string, b64_decode_encode, ops_of_zip. cbn.
  unfold stamped. by rewrite H1', H2', H3'.
Qed.

Lemma log_fresh d : seq_log_ok d -> existsb (fun x => lg_seq x =? counter d) (firehose_log d) = false.
Proof.
  intros [_ Hlt]. apply not_true_iff_false. rewrite existsb_exists. intros (x & Hx & E). apply Hlt in Hx. lia.
Qed.

(** Each op of the batch with its own record, whatever else is in the lists. *)
Lemma zip_records_lookup (ops : list (RepoOp Cid)) records k x :
  ops !! k = Some x ->
  zip_records ops records !! k =
    Some (MkEnqueueOp (ro_action x) (ro_path x) (cid_to_string <$> ro_cid x) (mjoin (records !! k))).
Proof.
  revert records k. induction ops as [|o ops IH]; intros records k Hk; [done|].
  destruct k as [|k]; cbn in Hk.
  - simplify_eq. by destruct records.
  - destruct records as [|r records]; cbn; by rewrite IH.
Qed.

(** A commit handed over, whatever the indexer's queue does. *)
Lemma enqueue_logs `{!CidTextLaws Cid} `{!Base64Laws} (o : SequencerObject) queue now (b : CommitBody Cid) records :
  faults (so_conn o) = [] -> seq_log_ok (so_db o) -> writer_body b ->
  let n := counter (so_db o) in
  let frame := encode_message_frame "#commit" (stamped n now b) in
  exists o', sequencer_fetch queue now (SqEnqueue (enqueue_payload b records)) o = (SqSequenced n, o') /\
    firehose_log (so_db o') = firehose_log (so_db o) ++ [MkLogRow n (cb_repo b) frame now] /\
    so_sockets o' = map (ws_send frame) (so_sockets o) /\
    so_queue o' = so_queue o ++
      match queue with
      | Some (Ok _) => [MkIndexerMessage n (cb_repo b) (cb_rev b) (zip_records (cb_ops b) records)]
      | _ => []
      end.
Proof.
  intros Hf Hok Hb n frame. destruct o as [[d fs] socks q]. cbn in Hf. subst fs. unfold so_db in *. cbn in *.
  unfold sequencer_fetch. cbn [sequencer_route]. unfold enqueue, bind, on_sql. cbn [so_conn]. rewrite open_log_sound.
  cbn. fold n. change (default 1 (next_seq d)) with n. unfold lift. rewrite (body_of_payload n now b records Hb).
  fold frame. pose proof (log_fresh d Hok) as Hfr. fold n in Hfr. cbn. rewrite Hfr. cbn.
  destruct queue as [[u|e]|]; cbn; eexists; (split_and!; [done|done|done|]); [done|cbn; by rewrite app_nil_r..].
Qed.

(** a commit handed over by an account's object is given the next number and
    logged and sent to every open socket as the frame of the very body the writer
    committed, its blocks and ops included, with that number and the sequencer's
    clock; and the indexer is told each x with its own record. *)
Theorem enqueued_commit_faithful `{!CidTextLaws Cid} `{!Base64Laws} (o : SequencerObject) now (b : CommitBody Cid) records :
  faults (so_conn o) = [] -> seq_log_ok (so_db o) -> writer_body b ->
  let n := counter (so_db o) in
  let frame := encode_message_frame "#commit" (stamped n now b) in
  exists o', sequencer_fetch (Some (Ok tt)) now (SqEnqueue (enqueue_payload b records)) o = (SqSequenced n, o') /\
    firehose_log (so_db o') = firehose_log (so_db o) ++ [MkLogRow n (cb_repo b) frame now] /\
    so_sockets o' = map (ws_send frame) (so_sockets o) /\
    exists ops, so_queue o' = so_queue o ++ [MkIndexerMessage n (cb_repo b) (cb_rev b) ops] /\
      forall k x, cb_ops b !! k = Some x ->
        ops !! k = Some (MkEnqueueOp (ro_action x) (ro_path x) (cid_to_string <$> ro_cid x) (mjoin (records !! k))).
Proof.
  intros Hf Hok Hb n frame. destruct (enqueue_logs o (Some (Ok tt)) now b records Hf Hok Hb) as (o' & E & Hl & Hs & Hq).
  exists o'. split_and!; try done. eexists. split; [exact Hq|]. intros k x Hk. by apply zip_records_lookup.
Qed.

(** the log is not gap-free, as the comment of [enqueue] has it: a commit that
    is refused for its CIDs has already spent its number, and the commit after it
    gets the number after that. *)
Theorem refused_commit_leaves_gap `{!CidTextLaws Cid} `{!Base64Laws} (o : SequencerObject) queue now ev e (b : CommitBody Cid) records :
  faults (so_conn o) = [] -> seq_log_ok (so_db o) -> writer_body b ->
  0 <= counter (so_db o) < i64_max ->
  let n := counter (so_db o) in
  body_of_req n now ev = Err e ->
  let '(x, o1) := sequencer_fetch queue now (SqEnqueue ev) o in
  let '(y, o2) := sequencer_fetch queue now (SqEnqueue (enqueue_payload b records)) o1 in
  x = SqError 500 ("sequencer error: " +:+ e) /\ y = SqSequenced (n + 1) /\
  exists row, firehose_log (so_db o2) = firehose_log (so_db o) ++ [row] /\ lg_seq row = n + 1 /\
    (forall r, In r (firehose_log (so_db o)) -> lg_seq r < n).
Proof.
  intros Hf Hok Hb Hn n He. destruct o as [[d fs] socks q]. cbn in Hf. subst fs. unfold so_db in *. cbn in Hok, Hn, n, He.
  assert (i64_add n 1 = n + 1) as Ei by (apply i64_wrap_id; unfold i64_max in *; unfold n; lia).
  assert (sequencer_fetch queue now (SqEnqueue ev) (MkSequencerObject (MkConn d []) socks q) =
    (SqError 500 ("sequencer error: " +:+ e),
     MkSequencerObject (MkConn (MkSequencer (Some (n + 1)) (firehose_log d)) []) socks q)) as ->.
  { unfold sequencer_fetch. cbn [sequencer_route]. unfold enqueue, bind, on_sql. cbn [so_conn]. rewrite open_log_sound.
    cbn -[i64_add]. unfold n in He, Ei. unfold counter in *. rewrite He, Ei. done. }
  set (o1 := MkSequencerObject _ socks q).
  assert (counter (so_db o1) = n + 1) as Ec by done.
  assert (seq_log_ok (so_db o1)) as Hok1.
  { destruct Hok as [Ha Hlt]. split; [done|]. intros r Hr. rewrite Ec. apply Hlt in Hr. unfold n. lia. }
  destruct (sequencer_fetch queue now (SqEnqueue (enqueue_payload b records)) o1) as [y o2] eqn:E.
  unfold sequencer_fetch in E. cbn [sequencer_route] in E. unfold bind in E.
  destruct (enqueue queue now (enqueue_payload b records) o1) as [r o'] eqn:E'.
  assert (exists m, r = Ok m) as [m ->].
  { revert E'. unfold enqueue, bind, on_sql, o1. cbn [so_conn]. rewrite open_log_sound. cbn -[i64_add].
    unfold lift. rewrite (body_of_payload (n + 1) now b records Hb).
    pose proof (log_fresh _ Hok1) as Hfr. unfold o1, so_db, counter in Hfr. cbn in Hfr. cbn -[i64_add]. rewrite Hfr.
    cbn -[i64_add]. unfold catch. destruct (publish_to_indexer _ _ _ _) as [z o3]. intros [= <- _]. by eexists. }
  injection E as <- <-. apply enqueue_cases in E' as [(body & Hm & _ & _ & Hl & _)|(? & ? & _)]; [|done].
  injection Hm as ->. rewrite Ec. split_and!; [done|done|]. eexists. split; [exact Hl|]. split; [done|]. apply Hok.
Qed.

End Sequencer.

(** ** Witnesses *)

#[local] Instance demo_base64 : Base64 := { b64_encode s := s; b64_decode s := Some s }.
#[local] Instance demo_base64_laws : Base64Laws.
Proof. by constructor. Qed.
(** An identifier is written after a [c:]. *)
#[local] Instance demo_prefixed_cid : CidLib string := {
  cid_new_v1 _ _ digest := digest; cid_to_string c := "c:" +:+ c }.
#[local] Instance demo_prefixed_cid_text : CidText string :=
  { cid_from_str s := ok_or (strip_prefix "c:" s) "not a cid" }.
#[local] Instance demo_prefixed_cid_laws : CidTextLaws string.
Proof. by constructor. Qed.

Definition demo_commit (acct path : string) : CommitBody string :=
  MkCommitBody 7 false false acct "c1" "rev" None "car" [MkRepoOp "create" path (Some "c2")] [] "then" None.

Definition demo_event (ev : EnqueueReq) : SeqEvent := SeRequest (Some (Err "queue down")) "now" (SqEnqueue ev).
Definition demo_events : list SeqEvent :=
  [ demo_event (enqueue_payload (demo_commit "did:a" "a/1") [Some (DStr "x")]);
    demo_event (MkEnqueueReq "did:b" "not-a-cid" "r" None "" [] false);
    SeRequest None "now" (SqSubscribe None);
    SeClosed 1;
    demo_event (enqueue_payload (demo_commit "did:b" "b/1") []) ].

Definition demo_sequencer : SequencerObject :=
  seq_run [demo_event (enqueue_payload (demo_commit "did:c" "c/0") [])] (MkSequencerObject (MkConn SequencerDb_empty []) [] []).

Lemma demo_sequencer_ok : seq_log_ok (so_db demo_sequencer) /\ counter (so_db demo_sequencer) = 2.
Proof. vm_compute. split; [|done]. split; [repeat constructor|]. intros r [<-|[]]. done. Qed.

Lemma demo_subscribed :
  sequencer_fetch None "now" (SqSubscribe (Some "0")) demo_sequencer =
  (SqUpgraded 0, snd (sequencer_fetch None "now" (SqSubscribe (Some "0")) demo_sequencer)).
Proof.
  assert (fst (sequencer_fetch None "now" (SqSubscribe (Some "0")) demo_sequencer) = SqUpgraded 0) as E
    by (vm_compute; reflexivity).
  rewrite <- E. apply surjective_pairing.
Qed.

Lemma worker_stream_complete_witness :
  let o2 := seq_run demo_events (snd (sequencer_fetch None "now" (SqSubscribe (Some "0")) demo_sequencer)) in
  map lg_seq (firehose_log (so_db o2)) = [1; 2; 4] /\
  so_sockets o2 !! 0%nat =
    Some (MkSocket true (map lg_frame (List.filter (fun r => 0 <? lg_seq r) (firehose_log (so_db o2))))).
Proof.
  split; [vm_compute; reflexivity|].
  refine (proj2 (worker_stream_complete demo_sequencer _ None "now" "0" 0 0 demo_events
    (proj1 demo_sequencer_ok) _ _ eq_refl _ demo_subscribed _)).
  - by rewrite (proj2 demo_sequencer_ok).
  - rewrite (proj2 demo_sequencer_ok). vm_compute. discriminate.
  - by rewrite (proj2 demo_sequencer_ok).
  - intros e He. by repeat (destruct He as [<-|He]; [intros ?|]).
Defined.

Lemma enqueued_commit_faithful_witness :
  exists o', sequencer_fetch (Some (Ok tt)) "now" (SqEnqueue (enqueue_payload (demo_commit "did:a" "a/1") [Some (DStr "x")]))
      demo_sequencer = (SqSequenced 2, o') /\
    exists ops, so_queue o' = [MkIndexerMessage 2 "did:a" "rev" ops] /\
      ops !! 0%nat = Some (MkEnqueueOp "create" "a/1" (Some "c:c2") (Some (DStr "x"))).
Proof.
  destruct (enqueued_commit_faithful demo_sequencer "now" (demo_commit "did:a" "a/1") [Some (DStr "x")]
    eq_refl (proj1 demo_sequencer_ok) ltac:(done)) as (o' & E & _ & _ & ops & Hq & Ho).
  rewrite (proj2 demo_sequencer_ok) in E, Hq. exists o'. split; [exact E|]. exists ops. split; [exact Hq|].
  exact (Ho 0%nat _ eq_refl).
Defined.

Lemma refused_commit_leaves_gap_witness :
  let '(x, o1) := sequencer_fetch None "now" (SqEnqueue (MkEnqueueReq "did:b" "not-a-cid" "r" None "" [] false)) demo_sequencer in
  let '(y, _) := sequencer_fetch None "now" (SqEnqueue (enqueue_payload (demo_commit "did:a" "a/1") [])) o1 in
  x = SqError 500 "sequencer error: bad commit cid: not a cid" /\ y = SqSequenced 3.
Proof.
  pose proof (refused_commit_leaves_gap demo_sequencer None "now" (MkEnqueueReq "did:b" "not-a-cid" "r" None "" [] false)
    "bad commit cid: not a cid" (demo_commit "did:a" "a/1") [] eq_refl (proj1 demo_sequencer_ok) ltac:(done)) as H.
  rewrite (proj2 demo_sequencer_ok) in H. specialize (H ltac:(done) eq_refl).
  destruct (sequencer_fetch None "now" (SqEnqueue (MkEnqueueReq _ _ _ _ _ _ _)) demo_sequencer) as [x o1].
  destruct (sequencer_fetch None "now" (SqEnqueue (enqueue_payload _ _)) o1) as [y o2].
  destruct H as (H1 & H2 & _). by split.
Defined.
