(* ===== verification/WorkerAccounts.v ===== *)
(** * The worker's account object: identity, sessions, sign-in

    [src/rust-worker/src/handlers.rs], the handlers that do not touch the
    repository, over the storage of [DoStore].  A handler ends with its answer,
    with an early answer of its own ([WReply], [WText]), or with an error of the
    runtime ([WFault]), which the object turns into a 500.  Randomness and clock
    readings are arguments. *)

From Stdlib Require Import ZArith Lia Ascii.
From S2P Require Import Prelude RustStr Externals StoreTypes MemoryStore OAuthCore Jose Client Session Repo.
From S2P Require Import KeyCrypto Identity Accounts EmbServer.
From S2P Require Import Sql.
From S2P Require Import SqliteStore.
From S2P Require Import DoStore.

(** ** Answers *)

Inductive WFail :=
| WReply (status : Z) (error message : string)
| WText (status : Z) (text : string)
| WFault (e : string).

Notation H A := (SE DoStore WFail A).

Definition fault {E A} (what : string) (show : E -> string) (r : result E A) : result WFail A :=
  map_err (fun e => WFault (what +:+ ": " +:+ show e)) r.

(** A store call whose error becomes the runtime's. *)
Definition w_store {A} (what : string) (m : op DoStore A) : H A :=
  with_err (fun e => WFault (what +:+ ": " +:+ StorageError_to_string e)) m.

(** ** Which PDS *)

Record Ctx := MkCtx { cx_issuer : string; cx_service_did : string }.

Definition from_host (hostname : string) : Ctx :=
  MkCtx ("https://" +:+ hostname) ("did:web:" +:+ hostname).

Definition worker_describe_server (ctx : Ctx) (zone_suffix : string) (open_registration : bool) : DescribeServerResponse := {|
  ds_did := cx_service_did ctx;
  ds_available_user_domains := ["." +:+ zone_suffix];
  ds_invite_code_required := negb open_registration |}.

(** The service's document: no key in it. *)
Definition service_did_document (ctx : Ctx) : DidDocument := {|
  dd_context := ["https://www.w3.org/ns/did/v1"; "https://w3id.org/security/multikey/v1"];
  dd_id := cx_service_did ctx;
  dd_also_known_as := [];
  dd_verification_method := [];
  dd_service := [MkServiceEntry "#atproto_pds" "AtprotoPersonalDataServer" (cx_issuer ctx)] |}.

(** ** Draws *)

Definition AS_SIGNING_KEY_ID : string := "oauth#as-signing".
Definition SIGNIN_TTL_SECS : Z := 300.

Definition LETTERS : string := "ABCDEFGHJKLMNPQRSTUVWXYZ".
Definition DIGITS : string := "0123456789".

(** The characters at the drawn positions. *)
Fixpoint pick (alphabet : string) (l : list nat) : string :=
  match l with
  | [] => EmptyString
  | n :: l => match String.get n alphabet with
              | Some c => String c (pick alphabet l)
              | None => pick alphabet l
              end
  end.
Definition user_code (ls ds : list nat) : string := pick LETTERS ls +:+ "-" +:+ pick DIGITS ds.

Section Handlers.
Context `{Digests} `{Json} `{!JsonMore} `{Ecdsa} `{Jwt} `{Argon2} `{KeyCiphers} `{KeypairIO} `{PlcLib} `{SqlScan}.

Definition random_token (drawn : bytes) : string := to_ascii_lowercase (base32_nopad_encode drawn).

(** ** Identity *)

Definition atproto_did (hostname : string) : H string :=
  (let! did := w_store "handle lookup" (do_get_did_by_handle hostname) in
   lift (ok_or did (WText 404 "no account for this handle")))%se.

Definition worker_resolve_handle (handle : string) : H string :=
  (let! did := w_store "handle lookup" (do_get_did_by_handle (to_ascii_lowercase handle)) in
   lift (ok_or did (WReply 404 "HandleNotFound" "Unable to resolve handle")))%se.

(** The stored key when it loads and imports, or a fresh one, stored. *)
Definition load_or_create_signing_key (fresh : P256Key) (salt nonce : bytes) (passphrase : bytes) : H SigningKey :=
  (let! loaded := catch (load_key (St := DoStore) AS_SIGNING_KEY_ID passphrase) in
   match (scalar ← res_opt loaded; res_opt (import scalar)) with
   | Some key => ret key
   | None =>
       let key := generate fresh in
       w_store "persist OAuth signing key"
         (store_key (St := DoStore) salt nonce AS_SIGNING_KEY_ID (export key) passphrase) ;;!
       ret key
   end)%se.

Definition jwks (fresh : P256Key) (salt nonce : bytes) (passphrase : bytes) : H (list PublicJwk) :=
  (let! key := load_or_create_signing_key fresh salt nonce passphrase in ret [public_jwk key])%se.

(** ** Provisioning *)

Inductive ProvisionOutcome :=
| Created (did access_jwt refresh_jwt : string)
| Rejected (error message : string).

(** The object's storage, and the operations posted to the PLC directory. *)
Definition PV (A : Type) : Type := SE (DoStore * PlcPosts) WFail A.
Definition pv_store {A} (m : H A) : PV A :=
  fun '(s, posts) => let '(r, s') := m s in (r, (s', posts)).
Definition pv_plc {A} (m : SE PlcPosts CoreError A) : PV (result CoreError A) :=
  fun '(s, posts) => let '(r, posts') := m posts in (Ok r, (s, posts')).

Variable plc_answer : string -> PlcGenesisOpSigned -> result CoreError unit.

(** [now] and [now'] are the two clock readings. *)
Definition worker_tokens (did : string) (jwt_secret : bytes) (uuid : string) (now now' : Z) : result WFail (string * string) :=
  let? access := fault "access jwt" CoreError_to_string (encode_access_jwt_at did jwt_secret now) in
  let? refresh := fault "refresh jwt" CoreError_to_string (encode_refresh_jwt_at uuid did jwt_secret now') in
  Ok (access, refresh).

Definition provision_account (d : AccountDraw) (ctx : Ctx) (handle : string) (email : option string)
    (password : string) (passphrase jwt_secret : bytes) : PV ProvisionOutcome :=
  if str_len password <? 8 then ret (Rejected "InvalidRequest" "Password must be at least 8 characters.")
  else
    (let! existing := pv_store (w_store "count accounts" do_count_accounts) in
     if 0 <? existing then ret (Rejected "HandleNotAvailable" "That handle already has an account.")
     else
       let! registered := pv_plc (register_did_plc plc_answer handle (cx_issuer ctx) (ad_signing d) (ad_rotation d)) in
       match registered with
       | Err e => ret (Rejected "UpstreamFailure" ("Could not register your identity: " +:+ CoreError_to_string e))
       | Ok did =>
           let! phc := lift (fault "hash password" CoreError_to_string (hash_password (ad_phc_salt d) password)) in
           pv_store (w_store "insert account" (do_count_and_insert_account did handle email phc (ad_created_at d))) ;;!
           pv_store (w_store "store signing key"
             (store_key (St := DoStore) (ad_signing_salt d) (ad_signing_nonce d) (did +:+ "#signing")
                (kp_export (ad_signing d)) passphrase)) ;;!
           pv_store (w_store "store rotation key"
             (store_key (St := DoStore) (ad_rotation_salt d) (ad_rotation_nonce d) (did +:+ "#rotation")
                (kp_export (ad_rotation d)) passphrase)) ;;!
           let! t := lift (worker_tokens did jwt_secret (sd_uuid (ad_session d))
                             (sd_now_access (ad_session d)) (sd_now_refresh (ad_session d))) in
           ret (Created did (fst t) (snd t))
       end)%se.

(** ** Sessions *)

Definition BAD_CREDENTIALS : WFail := WReply 401 "AuthenticationRequired" "Invalid identifier or password.".
Definition INVALID_TOKEN : WFail := WReply 401 "AuthenticationRequired" "Invalid token.".

(** The account a bearer token names, of whatever scope. *)
Definition bearer_did (bearer : option string) (jwt_secret : bytes) (now : Z) : result WFail string :=
  ok_or (t ← bearer; au_sub <$> res_opt (decode_jwt now t jwt_secret)) INVALID_TOKEN.

(** The one account the object holds. *)
Definition sole_account : H (option AccountSummary) :=
  (let! l := w_store "list accounts" do_list_accounts in ret (head l))%se.

Definition worker_create_session (identifier password : string) (jwt_secret : bytes) (uuid : string) (now : Z) : H SessionResponse :=
  (let! account := sole_account in
   let! account := lift (ok_or account BAD_CREDENTIALS) in
   let did := as_did account in
   let handle := default EmptyString (as_handle account) in
   let id := to_ascii_lowercase identifier in
   assert_or (String.eqb id (to_ascii_lowercase handle) || String.eqb id (to_ascii_lowercase did)) BAD_CREDENTIALS ;;!
   let! phc := w_store "load phc" (account_password_phc did) in
   let ok := match phc with
             | Some p => match verify_password password p with Ok b => b | Err _ => false end
             | None => false
             end in
   assert_or ok BAD_CREDENTIALS ;;!
   let! t := lift (worker_tokens did jwt_secret uuid now now) in
   ret (MkSession (fst t) (snd t) handle did true))%se.

Definition worker_get_session (bearer : option string) (jwt_secret : bytes) (now : Z) : H GetSessionResponse :=
  (let! token := lift (ok_or bearer (WReply 401 "AuthenticationRequired" "Missing bearer token.")) in
   let! claims := lift (ok_or (res_opt (decode_jwt now token jwt_secret)) INVALID_TOKEN) in
   let! handle := w_store "handle lookup" (do_get_handle_by_did (au_sub claims)) in
   ret (MkGetSession (default EmptyString handle) (au_sub claims) true))%se.

(** ** Preferences *)

Definition worker_get_preferences (bearer : option string) (jwt_secret : bytes) (now : Z) : H Value :=
  (let! did := lift (bearer_did bearer jwt_secret now) in
   let! prefs := w_store "get prefs" (do_get_preferences did) in
   ret (default (json_array []) (s ← prefs; json_from_slice s)))%se.

Definition worker_put_preferences (bearer : option string) (jwt_secret : bytes) (now : Z) (body : string) : H unit :=
  (let! did := lift (bearer_did bearer jwt_secret now) in
   let prefs := default (json_array []) (v ← json_from_slice body; json_get "preferences" v) in
   w_store "put prefs" (do_upsert_preferences did (json_to_string prefs)))%se.

(** ** Sign in with a device *)

Definition BAD_DEVICE_LOGIN : WFail := WReply 401 "Unauthorized" "Handle or password is incorrect.".

Definition device_register (token : bytes) (created_at : string) (handle password device_did_key label : string) : H string :=
  (assert_or (starts_with "did:key:z" device_did_key)
     (WReply 400 "InvalidRequest" "deviceDidKey must be a did:key.") ;;!
   let! account := w_store "account lookup" (do_get_account_by_handle handle) in
   let! account := lift (ok_or account BAD_DEVICE_LOGIN) in
   let ok := match verify_password password (snd account) with Ok b => b | Err _ => false end in
   assert_or ok BAD_DEVICE_LOGIN ;;!
   let device_id := random_token token in
   w_store "register device" (register_device device_id device_did_key label created_at) ;;!
   ret device_id)%se.

Record SigninDraw := {
  gd_token : bytes; gd_letters : list nat; gd_digits : list nat;
  gd_now : Z; gd_now' : Z; gd_created_at : string }.
Record SigninStarted := MkSigninStarted {
  ss_request_id : string; ss_user_code : string; ss_challenge : bytes; ss_expires_at : Z }.

Definition signin_start (d : SigninDraw) (client_name : string) : H SigninStarted :=
  (let request_id := random_token (gd_token d) in
   let code := user_code (gd_letters d) (gd_digits d) in
   w_store "create signin"
     (create_signin request_id code client_name (u64_add (gd_now d) SIGNIN_TTL_SECS) (gd_created_at d)) ;;!
   ret (MkSigninStarted request_id code (approval_challenge request_id code) (u64_add (gd_now' d) SIGNIN_TTL_SECS)))%se.

Definition signin_pending (now : Z) : H (list (string * string * string * string)) :=
  w_store "list pending" (list_pending_signins now).

Definition NO_SIGNIN : WFail := WReply 404 "NotFound" "No such sign-in request.".

(** The status, and the session of an approved request. *)
Record SigninPolled := MkSigninPolled { sp_status : string; sp_session : option (option string * option string * option string * option string) }.

Definition signin_poll (request_id : string) (now : Z) : H SigninPolled :=
  (let! row := w_store "get signin" (get_signin request_id) in
   let! row := lift (ok_or row NO_SIGNIN) in
   let status := if String.eqb (sg_status row) "pending" && (as_u64 (sg_expires_at row) <? now)
                 then "expired" else sg_status row in
   ret (MkSigninPolled status
     (if String.eqb status "approved"
      then Some (sg_did row, sg_handle row, sg_access_jwt row, sg_refresh_jwt row) else None)))%se.

(** A [did:key] and a message: whether the signature verifies. *)
Variable verify_signature : string -> bytes -> bytes -> result string unit.

(** The pending request, and the key of the deciding device. *)
Definition pending_signin (request_id : string) : H Signin :=
  (let! row := w_store "get signin" (get_signin request_id) in
   let! row := lift (ok_or row NO_SIGNIN) in
   assert_or (String.eqb (sg_status row) "pending")
     (WReply 409 "AlreadyDecided" "This sign-in is no longer pending.") ;;!
   ret row)%se.

Definition signed_by_device (request_id device_id : string) (row : Signin) (signature : bytes) (refusal : string) : H unit :=
  (let! key := w_store "device lookup" (device_did_key device_id) in
   let! did_key := lift (ok_or key (WReply 401 "Unauthorized" "Unknown device.")) in
   assert_or (verify_approval verify_signature did_key request_id (sg_user_code row) signature)
     (WReply 401 "Unauthorized" refusal))%se.

(** The clock is read for the expiry and for each token. *)
Record ApproveDraw := { pd_now : Z; pd_uuid : string; pd_now_access : Z; pd_now_refresh : Z }.

Definition device_approve (d : ApproveDraw) (request_id device_id : string) (signature : bytes) (jwt_secret : bytes) : H unit :=
  (let! row := pending_signin request_id in
   assert_or (negb (as_u64 (sg_expires_at row) <? pd_now d)) (WReply 410 "Expired" "This sign-in has expired.") ;;!
   signed_by_device request_id device_id row signature "Approval signature did not verify." ;;!
   let! account := sole_account in
   let! a := lift (ok_or account (WReply 409 "NoAccount" "This host has no account to sign in to.")) in
   let! t := lift (worker_tokens (as_did a) jwt_secret (pd_uuid d) (pd_now_access d) (pd_now_refresh d)) in
   w_store "approve signin"
     (approve_signin request_id (as_did a) (default EmptyString (as_handle a)) (fst t) (snd t)))%se.

Definition device_deny (request_id device_id : string) (signature : bytes) : H unit :=
  (let! row := pending_signin request_id in
   signed_by_device request_id device_id row signature "Signature did not verify." ;;!
   w_store "deny signin" (deny_signin request_id))%se.

(** ** Deletion *)

(** [None]: there was no account. *)
Definition worker_delete_account : H (option (string * string)) :=
  (let! account := sole_account in
   match account with
   | None => ret None
   | Some a =>
       w_store "delete account data" (delete_account_data (as_did a)) ;;!
       ret (Some (as_did a, default EmptyString (as_handle a)))
   end)%se.

End Handlers.
