(* ===== verification/WorkerRepo.v ===== *)
(** * The worker's account object: the repository, blobs, the proxy

    [src/rust-worker/src/handlers.rs]: record writes and reads, the blobs, the
    sync methods and the AppView proxy, over the storage of [DoStore], the
    writer of [RepoWriter] and the readers of [RepoRead].  The writer's broadcast
    channel has no receiver here; a commit is handed to the sequencer by the
    object ([enqueue_payload]). *)

From Stdlib Require Import ZArith Lia Ascii.
From stdpp Require Import pretty.
From S2P Require Import Prelude RustStr Externals StoreTypes MemoryStore RepoUtil OAuthCore Jose Client Session Repo.
From S2P Require Import KeyCrypto Identity Accounts EmbServer RepoWriter RepoRead RepoXrpc ServiceProxy.
From S2P Require Import Sql.
From S2P Require Import SqliteStore.
From S2P Require Import DoStore.
From S2P Require Import WorkerAccounts.

(** [BlobError]'s [Display]. *)
Definition BlobError_to_string (e : BlobError) : string :=
  match e with
  | BlobEmpty => "blob is empty"
  | BlobTooLarge n => "blob is " +:+ pretty n +:+ " bytes, over the " +:+ pretty MAX_BLOB_BYTES +:+ " limit"
  | BlobStorage e => StorageError_to_string e
  end.

Section Handlers.
Context `{Digests} `{Json} `{!JsonMore} `{Jwt} `{Argon2} `{SqlScan}.
Context {Cid : Type} `{CidLib Cid} `{Countable Cid} `{CidText Cid}.
Context `{RepoSerde Cid} `{!Atrium Cid} `{!AtriumRead Cid} `{Keypairs} `{!KeypairIO} `{CarLib Cid}.
Context `{KeyCiphers} `{!Serde Value}.
Variable did_parse : string -> result string unit.

Notation H A := (SE DoStore WFail A).

(** ** Shared steps *)

Definition reject (message : string) : WFail := WReply 400 "InvalidRequest" message.

(** A call of the writer: nothing hears its channel. *)
Definition on_writer {A} (what : string) (m : SE (World (St := DoStore)) RepoError A) : H A :=
  fun s => let '(r, (s', _)) := m (s, []) in (fault what repo_error_to_string r, s').

Definition on_reader {A} (what : string) (m : SE DoStore RepoError A) : H A :=
  with_err (fun e => WFault (what +:+ ": " +:+ repo_error_to_string e)) m.

Definition parse_body (body : string) : H Value := lift (ok_or (json_from_slice body) (reject "Malformed body.")).

Definition str_member (key : string) (v : Value) : option string := json_as_str (json_index key v).

Definition repo_is (did : string) (input : Value) : H unit :=
  assert_or (bool_decide (str_member "repo" input = Some did)) (reject "repo must match the authenticated DID.").

Definition needs_collection (missing : string) (v : Value) : H string :=
  (let! collection := lift (ok_or (str_member "collection" v) (reject missing)) in
   lift (map_err reject (validate_collection collection)) ;;!
   ret collection)%se.

Definition checked_rkey (rk : string) : H string := (lift (map_err reject (validate_rkey rk)) ;;! ret rk)%se.

(** [tid_from_micros(Date::now().as_millis() * 1_000)]. *)
Definition fresh_rkey (now_ms : Z) : string := tid_from_micros (u64_wrap (now_ms * 1000)).

(** A value that is there, as IPLD. *)
Definition needs_value (missing unencodable : string) (v : Value) : H Ipld :=
  (assert_or (negb (json_is_null v)) (reject missing) ;;!
   lift (map_err (fun _ => reject unencodable) (json_value_to_ipld to_vec from_slice v)))%se.

Definition signing_keypair (what_import : string) (did : string) (passphrase : bytes) : H Keypair :=
  (let! scalar := w_store "load signing key" (load_key (St := DoStore) (did +:+ "#signing") passphrase) in
   lift (fault what_import id (kp_import scalar)))%se.

Definition writer_for (key : Keypair) (did : string) : H Writer :=
  (lift (fault "bad account DID" id (did_parse did)) ;;! ret (MkWriter key did))%se.

(** ** Writes *)

(** What a write needs handed to the sequencer. *)
Record Sequenced := MkSequenced {
  sd_uri : string;
  sd_cid : string;
  sd_body : CommitBody Cid;
  sd_records : list (option Value);
}.

Definition first_cid (missing : string) (commit : CommitBody Cid) : H string :=
  lift (ok_or (x ← head (cb_ops commit); cid_to_string <$> ro_cid x) (WFault missing)).

Definition worker_uri (did mst_key : string) : string := "at://" +:+ did +:+ "/" +:+ mst_key.

Definition worker_create_record (now now_ms : Z) (st : Stamps) (bearer : option string)
    (jwt_secret passphrase : bytes) (body : string) : H Sequenced :=
  (let! did := lift (bearer_did bearer jwt_secret now) in
   let! input := parse_body body in
   repo_is did input ;;!
   let! collection := needs_collection "collection is required." input in
   let! rkey := match str_member "rkey" input with
                | Some rk => checked_rkey rk
                | None => ret (fresh_rkey now_ms)
                end in
   let record := json_index "record" input in
   let! ipld := needs_value "record is required." "record is not encodable as IPLD." record in
   let! key := signing_keypair "import signing key" did passphrase in
   let! writer := writer_for key did in
   let mst_key := collection +:+ "/" +:+ rkey in
   let! x := on_writer "repo write failed" (apply_one_parts writer st (WCreate mst_key ipld)) in
   let! cid := first_cid "create op yielded no record cid" (snd x) in
   ret (MkSequenced (worker_uri did mst_key) cid (snd x) [Some record]))%se.

Definition write_preamble (now : Z) (bearer : option string) (jwt_secret passphrase : bytes) (input : Value) :
    H (string * Keypair * string * string) :=
  (let! did := lift (bearer_did bearer jwt_secret now) in
   repo_is did input ;;!
   let! collection := needs_collection "collection is required." input in
   let! rkey := lift (ok_or (str_member "rkey" input) (reject "rkey is required.")) in
   let! rkey := checked_rkey rkey in
   let! key := signing_keypair "import signing key" did passphrase in
   ret (did, key, collection, rkey))%se.

Definition worker_put_record (now : Z) (st : Stamps) (bearer : option string)
    (jwt_secret passphrase : bytes) (body : string) : H Sequenced :=
  (let! input := parse_body body in
   let! pre := write_preamble now bearer jwt_secret passphrase input in
   let '(did, key, collection, rkey) := pre in
   let record := json_index "record" input in
   let! ipld := needs_value "record is required." "record is not encodable as IPLD." record in
   let mst_key := collection +:+ "/" +:+ rkey in
   let! existing := on_reader "lookup existing" (RepoRead.get_record (St := DoStore) did mst_key) in
   let! writer := writer_for key did in
   let wop := match existing with Some _ => WUpdate mst_key ipld | None => WCreate mst_key ipld end in
   let! x := on_writer "repo write failed" (apply_one_parts writer st wop) in
   let! cid := first_cid "write yielded no record cid" (snd x) in
   ret (MkSequenced (worker_uri did mst_key) cid (snd x) [Some record]))%se.

Definition worker_delete_record (now : Z) (st : Stamps) (bearer : option string)
    (jwt_secret passphrase : bytes) (body : string) : H (option Sequenced) :=
  (let! input := parse_body body in
   let! pre := write_preamble now bearer jwt_secret passphrase input in
   let '(did, key, collection, rkey) := pre in
   let mst_key := collection +:+ "/" +:+ rkey in
   let! existing := on_reader "lookup existing" (RepoRead.get_record (St := DoStore) did mst_key) in
   match existing with
   | None => ret None
   | Some _ =>
       let! writer := writer_for key did in
       let! x := on_writer "repo delete failed" (apply_one_parts writer st (WDelete mst_key)) in
       ret (Some (MkSequenced (worker_uri did mst_key) EmptyString (snd x) [None]))
   end)%se.

(** ** Batches *)

Inductive BatchResult :=
| BrDeleted
| BrWritten (action uri : string) (cid : option string).

Record BatchSequenced := MkBatchSequenced {
  bs_results : list BatchResult;
  bs_body : CommitBody Cid;
  bs_records : list (option Value);
}.

(** One entry of the batch: its operation, its URI, its record. *)
Definition batch_entry (now_ms : Z) (did : string) (w : Value) : H (WriteOp * string * option Value) :=
  (let kind := default EmptyString (str_member "$type" w) in
   let! collection := needs_collection "each write needs a collection." w in
   let! rkey := match str_member "rkey" w with
                | Some rk => checked_rkey rk
                | None => if ends_with "#create" kind then ret (fresh_rkey now_ms)
                          else throw (reject "rkey is required for update and delete.")
                end in
   let key := collection +:+ "/" +:+ rkey in
   let uri := worker_uri did key in
   if ends_with "#delete" kind then ret (WDelete key, uri, None)
   else
     let value := json_index "value" w in
     let! ipld := needs_value "create and update need a value." "value is not encodable as IPLD." value in
     if ends_with "#update" kind then ret (WUpdate key ipld, uri, Some value)
     else if ends_with "#create" kind then ret (WCreate key ipld, uri, Some value)
     else throw (reject "each write must be a create, update or delete."))%se.

(** The [n]-th entry reads the clock as [now_ms n]. *)
Fixpoint batch_entries (now_ms : nat -> Z) (n : nat) (did : string) (writes : list Value) :
    H (list (WriteOp * string * option Value)) :=
  match writes with
  | [] => ret []
  | w :: writes =>
      (let! x := batch_entry (now_ms n) did w in
       let! xs := batch_entries now_ms (S n) did writes in
       ret (x :: xs))%se
  end.

Definition batch_result (x : WriteOutcome Cid * string) : BatchResult :=
  if String.eqb (wo_action (fst x)) "delete" then BrDeleted
  else BrWritten (wo_action (fst x)) (snd x) (cid_to_string <$> wo_record_cid (fst x)).

Definition worker_apply_writes (now : Z) (now_ms : nat -> Z) (st : Stamps) (bearer : option string)
    (jwt_secret passphrase : bytes) (body : string) : H BatchSequenced :=
  (let! did := lift (bearer_did bearer jwt_secret now) in
   let! input := parse_body body in
   repo_is did input ;;!
   let! writes := lift (ok_or (json_as_array (json_index "writes" input)) (reject "writes must be an array.")) in
   assert_or (match writes with [] => false | _ => true end) (reject "writes must not be empty.") ;;!
   let! entries := batch_entries now_ms 0 did writes in
   let! key := signing_keypair "import signing key" did passphrase in
   let! writer := writer_for key did in
   let! x := on_writer "batch write failed"
     (apply_many_parts writer st (map (fun e => fst (fst e)) entries)) in
   ret (MkBatchSequenced (map batch_result (zip (fst x) (map (fun e => snd (fst e)) entries)))
          (snd x) (map snd entries)))%se.

(** ** Reads *)

Definition NO_REPO : WFail := WReply 404 "RepoNotFound" "No account on this host.".
Definition NO_COMMITS : WFail := WReply 400 "RepoNotFound" "Repo has no commits.".

Definition sole_account_did : H string :=
  (let! a := sole_account in lift (ok_or (as_did <$> a) NO_REPO))%se.

Definition record_output (did : string) (e : RecordEntry) : GetRecordOutput (Value := Value) :=
  MkGetRecordOutput (worker_uri did (re_key e)) (cid_to_string (re_cid e)) (re_value e).

Definition worker_get_record (collection rkey : string) : H (GetRecordOutput (Value := Value)) :=
  (let! did := sole_account_did in
   let! found := on_reader "get_record" (RepoRead.get_record (St := DoStore) did (collection +:+ "/" +:+ rkey)) in
   let! e := lift (ok_or found (WReply 404 "RecordNotFound" "Record not found.")) in
   ret (record_output did e))%se.

Definition worker_list_records (collection : string) (limit : option nat) (cursor : option string) :
    H (ListRecordsOutput (Value := Value)) :=
  (let! did := sole_account_did in
   let! page := on_reader "list_records"
     (RepoRead.list_records (St := DoStore) did collection (default 50%nat limit) cursor) in
   ret (MkListRecordsOutput (map (record_output did) (rp_records page)) (rp_cursor page)))%se.

(** The DID document a resolver would fetch has no key here. *)
Definition worker_describe_repo (ctx : Ctx) (hostname : string) : H DescribeRepoOutput :=
  (let! a := sole_account in
   let! account := lift (ok_or a NO_REPO) in
   let did := as_did account in
   let handle := default hostname (as_handle account) in
   let! collections := on_reader "list_collections" (RepoRead.list_collections (St := DoStore) did) in
   ret (MkDescribeRepoOutput handle did
     {| dd_context := ["https://www.w3.org/ns/did/v1"]; dd_id := did;
        dd_also_known_as := ["at://" +:+ handle]; dd_verification_method := [];
        dd_service := [MkServiceEntry "#atproto_pds" "AtprotoPersonalDataServer" (cx_issuer ctx)] |}
     collections true))%se.

Definition worker_latest_commit : H (string * string) :=
  (let! did := sole_account_did in
   let! found := on_reader "latest_commit" (RepoRead.latest_commit (St := DoStore) did) in
   let! x := lift (ok_or found NO_COMMITS) in
   ret (cid_to_string (fst x), snd x))%se.

Definition worker_get_repo : H (bytes * string) :=
  (let! did := sole_account_did in
   let! found := on_reader "export_car" (export_car (St := DoStore) did) in
   let! x := lift (ok_or found NO_COMMITS) in
   ret (rx_car x, rx_rev x))%se.

(** ** Blobs *)

Definition worker_upload_blob (now : Z) (bearer : option string) (jwt_secret : bytes) (mime_type : string) (b : bytes) :
    H (string * string * Z) :=
  (let! did := lift (bearer_did bearer jwt_secret now) in
   let! x := with_err (fun e => match e with
                       | BlobEmpty => reject "Blob is empty."
                       | BlobTooLarge n => WReply 413 "InvalidRequest" (BlobError_to_string (BlobTooLarge n))
                       | BlobStorage e => WFault ("store blob: " +:+ StorageError_to_string e)
                       end) (store_blob (St := DoStore) did mime_type b) in
   let '(cid, mime, size) := x in
   ret (cid_to_string cid, mime, size))%se.

Definition worker_get_blob (cid : string) : H (string * bytes) :=
  (let! did := sole_account_did in
   let! found := w_store "get_blob" (do_get_blob did cid) in
   lift (ok_or found (WReply 404 "BlobNotFound" "Blob not found.")))%se.

Definition clamp_blob_limit (limit : option Z) : Z := Z.max 1 (Z.min (default 500 limit) 1000).

Definition worker_list_blobs (limit : option Z) (cursor : option string) : H (list string * option string) :=
  (let! did := sole_account_did in
   let limit := clamp_blob_limit limit in
   let! cids := w_store "list_blobs" (do_list_blobs did limit cursor) in
   ret (cids, if Z.of_nat (length cids) =? limit then last cids else None))%se.

End Handlers.
