(* ===== verification/Durable.v ===== *)
(** * The worker's account object: routing

    [src/rust-worker/src/durable.rs]: the Durable Object of one hostname, every
    request of it from the path to the handler that answers, and the hand-over
    of each commit to the sequencer.  The deployment is the objects by hostname,
    the registry, the sequencer, what was posted to the PLC directory and
    fetched from other services, and the fate of the next messages between the
    objects. *)

From Stdlib Require Import ZArith Lia Ascii.
From stdpp Require Import pretty.
From S2P Require Import Prelude RustStr Externals StoreTypes MemoryStore RepoUtil OAuthCore Jose Client Session Repo.
From S2P Require Import KeyCrypto Identity Accounts Utf8 EmbServer EmbRepo RepoWriter RepoRead RepoXrpc ServiceProxy.
From S2P Require Import Sql.
From S2P Require Import SqliteStore.
From S2P Require Import DoStore.
From S2P Require Import Registry.
From S2P Require Import WorkerSeq.
From S2P Require Import WorkerAccounts.
From S2P Require Import WorkerRepo.

(** ** Configuration: the variables and secrets of the deployment *)

Record Env := MkEnv {
  en_jwt_secret : option bytes;
  en_key_passphrase : option bytes;
  en_admin_token : option string;
  en_zone_suffix : option string;
  en_signup_host : option string;
  en_open_registration : option string;
  en_appview_url : option string;
  en_appview_did : option string;
}.

Definition zone_suffix (env : Env) : string := default "invalid" (en_zone_suffix env).
Definition open_registration (env : Env) : bool :=
  match en_open_registration env with Some v => String.eqb v "true" | None => false end.
Definition env_jwt_secret (env : Env) : result WFail bytes :=
  ok_or (en_jwt_secret env) (WFault "PDS_JWT_SECRET secret is not set").
Definition env_key_passphrase (env : Env) : result WFail bytes :=
  ok_or (en_key_passphrase env) (WFault "PDS_KEY_PASSPHRASE secret is not set").
Definition non_empty (o : option string) : option string :=
  s ← o; if String.eqb s EmptyString then None else Some s.
Definition own_appview_url (env : Env) : option string := non_empty (en_appview_url env).
Definition own_appview_did (env : Env) : option string := non_empty (en_appview_did env).

(** ** Messages *)

Record ProvisionInput := MkProvisionInput { pi_handle : string; pi_email : option string; pi_password : string }.
Record DeviceRegisterInput := {
  dr_handle : string; dr_password : string; dr_device_did_key : string; dr_label : string }.
Record SigninStartInput := { si_client_name : string }.
Record DeviceDecisionInput := { dd_request_id : string; dd_device_id : string; dd_signature : string }.

(** A request as the object sees it; [oq_query] is decoded. *)
Record ObjReq := MkObjReq {
  oq_path : string;
  oq_query : list (string * string);
  oq_raw_query : option string;
  oq_authorization : option string;
  oq_content_type : option string;
  oq_body : bytes;
}.

Definition query_value (key : string) (req : ObjReq) : option string :=
  snd <$> head (List.filter (fun kv => String.eqb (fst kv) key) (oq_query req)).
Definition req_bearer (req : ObjReq) : option string := a ← oq_authorization req; strip_prefix "Bearer " a.

(** What was fetched: the URL, and the token presented. *)
Record Fetched := MkFetched { fe_url : string; fe_token : option string }.
Record FetchAnswer := MkFetchAnswer { fa_status : Z; fa_content_type : option string; fa_body : bytes }.

(** The fate of a message between objects. *)
Inductive Delivery := Delivered | NotSent (e : string) | ReplyLost (e : string).

Section Deployment.
Context `{Digests} `{Json} `{!JsonMore} `{Ecdsa} `{Jwt} `{Argon2} `{SqlScan} `{Base64}.
Context {Cid : Type} `{CidLib Cid} `{Countable Cid} `{CidText Cid}.
Context `{RepoSerde Cid} `{!Atrium Cid} `{!AtriumRead Cid} `{Keypairs} `{!KeypairIO} `{CarLib Cid} `{PlcLib}.
Context `{KeyCiphers} `{!Serde Value}.
Context `{!Serde ProvisionInput} `{!Serde CreateSessionInput} `{!Serde DeviceRegisterInput}.
Context `{!Serde SigninStartInput} `{!Serde DeviceDecisionInput}.
Variable did_parse : string -> result string unit.
Variable verify_signature : string -> bytes -> bytes -> result string unit.
Variable plc_answer : string -> PlcGenesisOpSigned -> result CoreError unit.
Variable fetch_answer : Fetched -> result string FetchAnswer.

Record Deployment := MkDeployment {
  dp_registry : RegistryObject;
  dp_objects : gmap string DoStore;
  dp_sequencer : SequencerObject;
  dp_posts : PlcPosts;
  dp_fetched : list Fetched;
  dp_net : list Delivery;
}.

(** The object of a host nobody has addressed is empty. *)
Definition object_of (host : string) (w : Deployment) : DoStore := default (MkConn DoDb_empty []) (dp_objects w !! host).
Definition put_object (host : string) (s : DoStore) (w : Deployment) : Deployment :=
  MkDeployment (dp_registry w) (<[host := s]> (dp_objects w)) (dp_sequencer w) (dp_posts w) (dp_fetched w) (dp_net w).
Definition put_registry (r : RegistryObject) (w : Deployment) : Deployment :=
  MkDeployment r (dp_objects w) (dp_sequencer w) (dp_posts w) (dp_fetched w) (dp_net w).
Definition put_sequencer (o : SequencerObject) (w : Deployment) : Deployment :=
  MkDeployment (dp_registry w) (dp_objects w) o (dp_posts w) (dp_fetched w) (dp_net w).
Definition put_posts (p : PlcPosts) (w : Deployment) : Deployment :=
  MkDeployment (dp_registry w) (dp_objects w) (dp_sequencer w) p (dp_fetched w) (dp_net w).
Definition put_fetched (l : list Fetched) (w : Deployment) : Deployment :=
  MkDeployment (dp_registry w) (dp_objects w) (dp_sequencer w) (dp_posts w) l (dp_net w).
Definition put_net (n : list Delivery) (w : Deployment) : Deployment :=
  MkDeployment (dp_registry w) (dp_objects w) (dp_sequencer w) (dp_posts w) (dp_fetched w) n.

(** A call of another object: it may not arrive, or its reply may be lost. *)
Definition call_stub {A} (step : Deployment -> result string A * Deployment) : SE Deployment string A :=
  fun w =>
    let w' := put_net (tail (dp_net w)) w in
    match dp_net w with
    | NotSent e :: _ => (Err e, w')
    | ReplyLost e :: _ => (Err e, snd (step w'))
    | _ => step w'
    end.

(** ** The object's handlers over the deployment *)

Notation D A := (SE Deployment WFail A).

Section Object.
Variable env : Env.
Variable host : string.

Definition on_object {A} (m : SE DoStore WFail A) : D A :=
  fun w => let '(r, s) := m (object_of host w) in (r, put_object host s w).

Definition on_provision {A} (m : PV A) : D A :=
  fun w => let '(r, (s, posts)) := m (object_of host w, dp_posts w) in (r, put_posts posts (put_object host s w)).

(** [store]: the schema is applied on every use, its statements all idempotent. *)
Definition open_store : D unit :=
  on_object (with_err (fun e => WFault ("schema migration failed: " +:+ StorageError_to_string e))
    (sql (execute (fun d => put_counter (Some (default 0 (seq_counter d))) d)))).

Definition with_store {A} (m : SE DoStore WFail A) : D A := (open_store ;;! on_object m)%se.

(** What a fetch outside the deployment answers. *)
Definition fetch_out (url : string) (token : option string) : D FetchAnswer :=
  fun w => let f := MkFetched url token in
    (map_err WFault (fetch_answer f), put_fetched (dp_fetched w ++ [f]) w).

(** ** The AppView *)

Definition APPVIEW_DID : string := "did:web:api.bsky.app".
Definition APPVIEW_URL : string := "https://api.bsky.app".
Definition CHAT_DID : string := "did:web:api.bsky.chat".
Definition CHAT_URL : string := "https://api.bsky.chat".

Definition xrpc_url (base nsid query : string) : string :=
  if String.eqb query EmptyString then base +:+ "/xrpc/" +:+ nsid
  else base +:+ "/xrpc/" +:+ nsid +:+ "?" +:+ query.

(** The token for the target, signed by the caller's key. *)
Definition proxy_token (now now_mint rand : Z) (bearer : option string) (jwt_secret passphrase : bytes)
    (target_did nsid : string) : SE DoStore WFail string :=
  (let! did := lift (bearer_did bearer jwt_secret now) in
   let! key := signing_keypair "import key" did passphrase in
   lift (fault "mint service auth" id
     (mint_service_auth_jwt_at key did target_did (Some nsid) (u64_add now_mint 60) now_mint rand)))%se.

Definition relayed (a : FetchAnswer) : Z * string * bytes :=
  (fa_status a, default "application/json" (fa_content_type a), fa_body a).

Definition proxy_appview (now now_mint rand : Z) (bearer : option string) (jwt_secret passphrase : bytes)
    (nsid query : string) : D (Z * string * bytes) :=
  (let target := if starts_with "chat.bsky." nsid then (CHAT_DID, CHAT_URL) else (APPVIEW_DID, APPVIEW_URL) in
   let! token := on_object (proxy_token now now_mint rand bearer jwt_secret passphrase (fst target) nsid) in
   let! a := fetch_out (xrpc_url (snd target) nsid query) (Some token) in
   ret (relayed a))%se.

Definition proxy_own_appview (appview_url nsid query : string) : D (Z * string * bytes) :=
  (let! a := fetch_out (xrpc_url appview_url nsid query) None in ret (relayed a))%se.

(** ** Answers *)

Inductive ObjAnswer :=
| OaAsMetadata (m : AuthorizationServerMetadata)
| OaProtectedResource (m : ProtectedResourceMetadata)
| OaDidDocument (d : DidDocument)
| OaText (text : string)
| OaJwks (keys : list PublicJwk)
| OaDevice (device_id : string)
| OaSignin (s : SigninStarted)
| OaPolled (p : SigninPolled)
| OaPending (l : list (string * string * string * string))
| OaOk
| OaServer (d : DescribeServerResponse)
| OaDid (did : string)
| OaRepo (r : DescribeRepoOutput)
| OaRecord (r : GetRecordOutput (Value := Value))
| OaRecords (r : ListRecordsOutput (Value := Value))
| OaBatch (results : list BatchResult)
| OaWritten (uri cid : string)
| OaEmpty
| OaBlob (blob : string * string * Z)
| OaBytes (content_type : string) (body : bytes) (rev : option string)
| OaBlobs (page : list string * option string)
| OaCommit (c : string * string)
| OaSession (s : SessionResponse)
| OaIdentity (s : GetSessionResponse)
| OaPreferences (v : Value)
| OaProvisioned (o : ProvisionOutcome)
| OaDeleted (o : option (string * string))
| OaHealth (checks : list (string * bool)) (detail : string)
| OaRelayed (r : Z * string * bytes).

(** ** Handing a commit to the sequencer *)

(** What the sequencer's clock and queue do with it. *)
Record SeqDraw := { qd_now : string; qd_queue : option (result string unit) }.

Definition call_sequencer (q : SeqDraw) (req : SequencerReq) : SE Deployment string SequencerReply :=
  call_stub (fun w =>
    let '(reply, o) := sequencer_fetch (qd_queue q) (qd_now q) req (dp_sequencer w) in
    (match reply with
     | SqError _ text => Err ("not JSON: " +:+ text)
     | _ => Ok reply
     end, put_sequencer o w)).

(** A failure is only logged: the commit is durable already. *)
Definition enqueue_commit (q : SeqDraw) (body : CommitBody Cid) (records : list (option Value)) : D unit :=
  (let! _ := catch (call_sequencer q (SqEnqueue (enqueue_payload body records))) in ret tt)%se.

(** ** Health *)

Definition HEALTH_PROBE : bytes := "stelyph health probe".

Definition health : D ObjAnswer :=
  (let cid := cid_of (Cid := Cid) 0x71 HEALTH_PROBE in
   open_store ;;!
   let! put := on_object (catch (do_put_block cid HEALTH_PROBE)) in
   let! sql_check := match put with
     | Ok _ =>
         let! got := on_object (catch (do_read_block_bytes cid)) in
         ret match got with
             | Ok b => if String.eqb b HEALTH_PROBE then (true, EmptyString)
                     else (false, "read back " +:+ pretty (str_len b) +:+ " bytes, expected " +:+ pretty (str_len HEALTH_PROBE))
             | Err e => (false, "read failed: " +:+ StorageError_to_string e)
             end
     | Err e => ret (false, "write failed: " +:+ StorageError_to_string e)
     end in
   let! seq := on_object (catch do_max_seq) in
   let! put := on_object (catch (do_put_blob "did:plc:health" "probe" "text/plain" 5 "probe")) in
   let! r2_ok := match put with
     | Ok _ =>
         let! got := on_object (catch (do_get_blob "did:plc:health" "probe")) in
         ret match got with
             | Ok (Some (mime, b)) => String.eqb mime "text/plain" && String.eqb b "probe"
             | _ => false
             end
     | Err _ => ret false
     end in
   ret (OaHealth [("do_sqlite", fst sql_check); ("sequencer", is_ok seq); ("r2", r2_ok)] (snd sql_check)))%se.

(** ** [route] *)

(** Everything a request draws. *)
Record ObjDraw := {
  od_now : Z;
  od_now_ms : nat -> Z;
  od_stamps : Stamps;
  od_account : AccountDraw;
  od_signin : SigninDraw;
  od_approve : ApproveDraw;
  od_token : bytes;
  od_created_at : string;
  od_uuid : string;
  od_fresh_key : P256Key;
  od_salt : bytes;
  od_nonce : bytes;
  od_now_mint : Z;
  od_rand : Z;
  od_seq : SeqDraw;
}.
Variable d : ObjDraw.

Definition parse_json {T} `{Serde T} (b : bytes) : D T := lift (map_err WFault (from_slice b)).
Definition decode_b64 (s : string) : D bytes := lift (ok_or (b64_decode s) (WFault "signature is not valid base64")).

(** What every write ends with. *)
Definition sequenced (q : SeqDraw) (body : CommitBody Cid) (records : list (option Value)) (a : ObjAnswer) : D ObjAnswer :=
  (enqueue_commit q body records ;;! ret a)%se.

Definition ctx_of : Ctx := from_host (zone_suffix env).

(** The arm of [/_stelyph/provision]. *)
Definition object_provision (input : ProvisionInput) : D ObjAnswer :=
  (open_store ;;!
   let! passphrase := lift (env_key_passphrase env) in
   let! jwt_secret := lift (env_jwt_secret env) in
   let! o := on_provision (provision_account plc_answer (od_account d) ctx_of
               (pi_handle input) (pi_email input) (pi_password input) passphrase jwt_secret) in
   ret (OaProvisioned o))%se.

(** The arm of [/_stelyph/delete-account]. *)
Definition object_delete : D ObjAnswer :=
  (let! o := with_store worker_delete_account in ret (OaDeleted o))%se.

Definition own_feed (nsid : string) (req : ObjReq) : option string :=
  url ← own_appview_url env;
  did ← own_appview_did env;
  if String.eqb nsid "app.bsky.feed.getFeed" &&
     existsb (fun kv => String.eqb (fst kv) "feed" && starts_with ("at://" +:+ did +:+ "/") (snd kv)) (oq_query req)
  then Some url else None.

Definition object_proxy (req : ObjReq) : D ObjAnswer :=
  (let nsid := default (oq_path req) (strip_prefix "/xrpc/" (oq_path req)) in
   let query := default EmptyString (oq_raw_query req) in
   open_store ;;!
   match own_feed nsid req with
   | Some url => let! r := proxy_own_appview url nsid query in ret (OaRelayed r)
   | None =>
       let! jwt_secret := lift (env_jwt_secret env) in
       let! passphrase := lift (env_key_passphrase env) in
       let! r := proxy_appview (od_now d) (od_now_mint d) (od_rand d) (req_bearer req) jwt_secret passphrase nsid query in
       ret (OaRelayed r)
   end)%se.

(** The discovery and sign-in arms. *)
Definition route_identity (path : string) (req : ObjReq) : option (D ObjAnswer) :=
  (if String.eqb path "/.well-known/oauth-authorization-server" then
     Some (ret (OaAsMetadata (AuthorizationServerMetadata_new (cx_issuer ctx_of))))
   else if String.eqb path "/.well-known/oauth-protected-resource" then
     Some (ret (OaProtectedResource (ProtectedResourceMetadata_new (cx_issuer ctx_of))))
   else if String.eqb path "/.well-known/did.json" then
     Some (ret (OaDidDocument (service_did_document ctx_of)))
   else if String.eqb path "/.well-known/atproto-did" then
     Some (let! did := with_store (atproto_did host) in ret (OaText did))
   else if String.eqb path "/oauth/jwks" then
     Some (open_store ;;!
           let! passphrase := lift (env_key_passphrase env) in
           let! keys := on_object (jwks (od_fresh_key d) (od_salt d) (od_nonce d) passphrase) in
           ret (OaJwks keys))
   else if String.eqb path "/oauth/device/register" then
     Some (let! b := parse_json (T := DeviceRegisterInput) (oq_body req) in
           let! id := with_store (device_register (od_token d) (od_created_at d) (dr_handle b) (dr_password b)
                                    (dr_device_did_key b) (dr_label b)) in
           ret (OaDevice id))
   else if String.eqb path "/oauth/signin/start" then
     Some (let! b := parse_json (T := SigninStartInput) (oq_body req) in
           let! s := with_store (signin_start (od_signin d) (si_client_name b)) in
           ret (OaSignin s))
   else if String.eqb path "/oauth/signin/poll" then
     Some (let! p := with_store (signin_poll (default EmptyString (query_value "requestId" req)) (od_now d)) in
           ret (OaPolled p))
   else if String.eqb path "/oauth/signin/pending" then
     Some (let! l := with_store (signin_pending (od_now d)) in ret (OaPending l))
   else if String.eqb path "/oauth/device/approve" then
     Some (let! b := parse_json (T := DeviceDecisionInput) (oq_body req) in
           let! sig := decode_b64 (dd_signature b) in
           open_store ;;!
           let! jwt_secret := lift (env_jwt_secret env) in
           on_object (device_approve verify_signature (od_approve d) (dd_request_id b) (dd_device_id b) sig jwt_secret) ;;!
           ret OaOk)
   else if String.eqb path "/oauth/device/deny" then
     Some (let! b := parse_json (T := DeviceDecisionInput) (oq_body req) in
           let! sig := decode_b64 (dd_signature b) in
           with_store (device_deny verify_signature (dd_request_id b) (dd_device_id b) sig) ;;!
           ret OaOk)
   else None)%se.

(** The read arms. *)
Definition route_reads (path : string) (req : ObjReq) : option (D ObjAnswer) :=
  (if String.eqb path "/xrpc/com.atproto.server.describeServer" then
     Some (ret (OaServer (worker_describe_server ctx_of (zone_suffix env) (open_registration env))))
   else if String.eqb path "/xrpc/com.atproto.identity.resolveHandle" then
     Some (match query_value "handle" req with
           | Some handle => let! did := with_store (worker_resolve_handle handle) in ret (OaDid did)
           | None => throw (reject "handle is required")
           end)
   else if String.eqb path "/xrpc/com.atproto.repo.describeRepo" then
     Some (let! r := with_store (worker_describe_repo ctx_of host) in ret (OaRepo r))
   else if String.eqb path "/xrpc/com.atproto.repo.getRecord" then
     Some (match query_value "collection" req, query_value "rkey" req with
           | Some collection, Some rkey =>
               let! r := with_store (worker_get_record collection rkey) in ret (OaRecord r)
           | _, _ => throw (reject "collection and rkey are required")
           end)
   else if String.eqb path "/xrpc/com.atproto.sync.getBlob" then
     Some (match query_value "cid" req with
           | Some cid => let! x := with_store (worker_get_blob cid) in ret (OaBytes (fst x) (snd x) None)
           | None => throw (reject "cid is required")
           end)
   else if String.eqb path "/xrpc/com.atproto.sync.listBlobs" then
     Some (let limit := l ← query_value "limit" req; parse_usize 32 l in
           let! p := with_store (worker_list_blobs limit (query_value "cursor" req)) in
           ret (OaBlobs p))
   else if String.eqb path "/xrpc/com.atproto.sync.getLatestCommit" then
     Some (let! c := with_store worker_latest_commit in ret (OaCommit c))
   else if String.eqb path "/xrpc/com.atproto.sync.getRepo" then
     Some (let! x := with_store worker_get_repo in ret (OaBytes "application/vnd.ipld.car" (fst x) (Some (snd x))))
   else if String.eqb path "/xrpc/com.atproto.repo.listRecords" then
     Some (match query_value "collection" req with
           | Some collection =>
               let limit := Z.to_nat <$> (l ← query_value "limit" req; parse_usize 32 l) in
               let! r := with_store (worker_list_records collection limit (query_value "cursor" req)) in
               ret (OaRecords r)
           | None => throw (reject "collection is required")
           end)
   else None)%se.

(** The arms that need a token, and the internal ones. *)
Definition route_accounts (path : string) (req : ObjReq) : option (D ObjAnswer) :=
  (let secret := lift (env_jwt_secret env) in
   let key := lift (env_key_passphrase env) in
   let text := from_utf8_lossy (oq_body req) in
   if String.eqb path "/xrpc/com.atproto.repo.applyWrites" then
     Some (open_store ;;!
           let! jwt_secret := secret in
           let! passphrase := key in
           let! x := on_object (worker_apply_writes did_parse (od_now d) (od_now_ms d) (od_stamps d)
                                  (req_bearer req) jwt_secret passphrase text) in
           sequenced (od_seq d) (bs_body x) (bs_records x) (OaBatch (bs_results x)))
   else if String.eqb path "/xrpc/com.atproto.repo.putRecord" then
     Some (open_store ;;!
           let! jwt_secret := secret in
           let! passphrase := key in
           let! x := on_object (worker_put_record did_parse (od_now d) (od_stamps d) (req_bearer req) jwt_secret passphrase text) in
           sequenced (od_seq d) (sd_body x) (sd_records x) (OaWritten (sd_uri x) (sd_cid x)))
   else if String.eqb path "/xrpc/com.atproto.repo.deleteRecord" then
     Some (open_store ;;!
           let! jwt_secret := secret in
           let! passphrase := key in
           let! x := on_object (worker_delete_record did_parse (od_now d) (od_stamps d) (req_bearer req) jwt_secret passphrase text) in
           match x with
           | None => ret OaEmpty
           | Some x => sequenced (od_seq d) (sd_body x) (sd_records x) OaEmpty
           end)
   else if String.eqb path "/xrpc/com.atproto.repo.uploadBlob" then
     Some (let mime_type := default "application/octet-stream" (oq_content_type req) in
           open_store ;;!
           let! jwt_secret := secret in
           let! b := on_object (worker_upload_blob (od_now d) (req_bearer req) jwt_secret mime_type (oq_body req)) in
           ret (OaBlob b))
   else if String.eqb path "/xrpc/com.atproto.server.createSession" then
     Some (let! b := parse_json (T := CreateSessionInput) (oq_body req) in
           open_store ;;!
           let! jwt_secret := secret in
           let! s := on_object (worker_create_session (cs_identifier b) (cs_password b) jwt_secret (od_uuid d) (od_now d)) in
           ret (OaSession s))
   else if String.eqb path "/xrpc/com.atproto.server.getSession" then
     Some (open_store ;;!
           let! jwt_secret := secret in
           let! s := on_object (worker_get_session (req_bearer req) jwt_secret (od_now d)) in
           ret (OaIdentity s))
   else if String.eqb path "/xrpc/app.bsky.actor.getPreferences" then
     Some (open_store ;;!
           let! jwt_secret := secret in
           let! v := on_object (worker_get_preferences (req_bearer req) jwt_secret (od_now d)) in
           ret (OaPreferences v))
   else if String.eqb path "/xrpc/com.atproto.repo.createRecord" then
     Some (open_store ;;!
           let! jwt_secret := secret in
           let! passphrase := key in
           let! x := on_object (worker_create_record did_parse (od_now d) (od_now_ms d 0%nat) (od_stamps d)
                                  (req_bearer req) jwt_secret passphrase text) in
           sequenced (od_seq d) (sd_body x) (sd_records x) (OaWritten (sd_uri x) (sd_cid x)))
   else if String.eqb path "/xrpc/app.bsky.actor.putPreferences" then
     Some (open_store ;;!
           let! jwt_secret := secret in
           on_object (worker_put_preferences (req_bearer req) jwt_secret (od_now d) text) ;;!
           ret OaEmpty)
   else if String.eqb path "/_stelyph/provision" then
     Some (let! input := parse_json (T := ProvisionInput) (oq_body req) in object_provision input)
   else if String.eqb path "/_stelyph/delete-account" then Some object_delete
   else if String.eqb path "/_stelyph/health" then Some health
   else if starts_with "/xrpc/app.bsky." path || starts_with "/xrpc/chat.bsky." path then Some (object_proxy req)
   else None)%se.

Definition object_route (req : ObjReq) : D ObjAnswer :=
  let path := oq_path req in
  match route_identity path req with
  | Some m => m
  | None =>
      match route_reads path req with
      | Some m => m
      | None =>
          match route_accounts path req with
          | Some m => m
          | None => throw (WReply 404 "MethodNotImplemented" "unknown endpoint")
          end
      end
  end.

(** [fetch]: a fault is a 500, and the object stays up. *)
Inductive ObjReply :=
| OrAnswer (a : ObjAnswer)
| OrError (status : Z) (error message : string)
| OrText (status : Z) (text : string).

Definition reply_of (r : result WFail ObjAnswer) : ObjReply :=
  match r with
  | Ok a => OrAnswer a
  | Err (WReply status error message) => OrError status error message
  | Err (WText status text) => OrText status text
  | Err (WFault e) => OrText 500 ("durable object error: " +:+ e)
  end.

Definition object_fetch (req : ObjReq) (w : Deployment) : ObjReply * Deployment :=
  let '(r, w') := object_route req w in (reply_of r, w').

End Object.
End Deployment.
