(* ===== verification/WorkerFront.v ===== *)
(** * The worker in front: routing by host, registration

    [src/rust-worker/src/lib.rs]: what every request of the deployment meets
    first.  It picks the account object a request is for, serves the
    registration surface on the sign-up hosts, and runs registration itself:
    reserve the handle in the registry, provision the account in its object,
    bind the two. *)

From Stdlib Require Import ZArith Lia Ascii.
From S2P Require Import Prelude RustStr Externals StoreTypes MemoryStore OAuthCore Jose Client Session Repo.
From S2P Require Import KeyCrypto Identity Accounts Utf8 EmbServer EmbRepo RepoWriter RepoRead RepoXrpc ServiceProxy.
From S2P Require Import Sql.
From S2P Require Import SqliteStore.
From S2P Require Import DoStore.
From S2P Require Import Registry.
From S2P Require Import WorkerSeq.
From S2P Require Import WorkerAccounts.
From S2P Require Import WorkerRepo.
From S2P Require Import Durable.

(** ** Strings *)

(** [u8::from_str_radix] of two characters: the first may be a sign. *)
Definition hex_pair (a b : ascii) : option Z :=
  if Ascii.eqb a "+" then to_digit16 b
  else h ← to_digit16 a; l ← to_digit16 b; Some (h * 16 + l).

Fixpoint worker_percent_bytes (s : string) : bytes :=
  match s with
  | EmptyString => EmptyString
  | String c r =>
      if Ascii.eqb c "%" then
        match r with
        | String a (String b r2) =>
            match hex_pair a b with
            | Some v => String (ascii_of_N (Z.to_N v)) (worker_percent_bytes r2)
            | None => String c (worker_percent_bytes r)
            end
        | _ => String c (worker_percent_bytes r)
        end
      else String c (worker_percent_bytes r)
  end.
Definition worker_percent_decode (s : string) : string := from_utf8_lossy (worker_percent_bytes s).

Definition plus_to_space (c : ascii) : ascii := if Ascii.eqb c "+" then " "%char else c.

Fixpoint worker_find_param (key : string) (pairs : list string) : option string :=
  match pairs with
  | [] => None
  | kv :: pairs =>
      match split_once "=" kv with
      | Some (k, v) => if String.eqb k key then Some (worker_percent_decode (map_bytes plus_to_space v))
                       else worker_find_param key pairs
      | None => worker_find_param key pairs
      end
  end.
Definition worker_query_param (query key : string) : option string :=
  worker_find_param key (split_char "&" query).

(** [zip] stops at the shorter. *)
Fixpoint xor_fold (acc : N) (a b : string) : N :=
  match a, b with
  | String x a, String y b => xor_fold (N.lor acc (N.lxor (N_of_ascii x) (N_of_ascii y))) a b
  | _, _ => acc
  end.
Definition worker_constant_time_eq (a b : bytes) : bool :=
  if negb (str_len a =? str_len b) then false else N.eqb (xor_fold 0 a b) 0.

(** ** Requests *)

(** A header is its value when it is visible ASCII; the body arrives in chunks,
    of which one may fail. *)
Record FrontReq := MkFrontReq {
  fq_method : string;
  fq_host : option string;
  fq_path_and_query : string;
  fq_admin : option string;
  fq_authorization : option string;
  fq_content_type : option string;
  fq_request_headers : option string;
  fq_body : list (result string bytes);
}.

Definition MAX_BODY : Z := 64 * 1024.

Fixpoint read_body_bytes (max : Z) (chunks : list (result string bytes)) (buf : bytes) : result string bytes :=
  match chunks with
  | [] => Ok buf
  | chunk :: chunks =>
      let? chunk := chunk in
      if max <? str_len buf + str_len chunk then Err "request body too large"
      else read_body_bytes max chunks (buf +:+ chunk)
  end.

Definition read_body (chunks : list (result string bytes)) : result string string :=
  let? buf := read_body_bytes MAX_BODY chunks EmptyString in
  ensure valid_utf8 buf orelse "request body was not UTF-8" in
  Ok buf.

(** The request's host, without a port, in lower case. *)
Definition request_host (req : FrontReq) : string :=
  to_ascii_lowercase (before_char ":" (default EmptyString (fq_host req))).

Definition route_of (path : string) : string := before_char "?" path.

Definition is_signup_host (host zone_suffix : string) (configured : option string) : bool :=
  String.eqb host zone_suffix || bool_decide (configured = Some host) || ends_with ".workers.dev" host.

(** ** CORS *)

Definition BASE_HEADERS : string := "content-type,authorization,atproto-accept-labelers,atproto-proxy".
(** [HeaderValue::from_str]: no control character but a tab. *)
Definition header_value_ok (s : string) : bool :=
  all_bytes (fun c => ((32 <=? byte_val c) && negb (byte_val c =? 127)) || (byte_val c =? 9)) s.
Definition allow_headers (requested : option string) : string :=
  match requested with
  | Some v => if header_value_ok v then v else BASE_HEADERS
  | None => BASE_HEADERS
  end.
Definition add_cors (requested : option string) : list (string * string) :=
  [("access-control-allow-origin", "*"); ("access-control-allow-methods", "GET,POST,OPTIONS");
   ("access-control-allow-headers", allow_headers requested); ("access-control-max-age", "86400")].

(** ** Messages *)

Record MintInviteReq := { mi_code : string; mi_uses : Z }.
Record DeleteAccountReq := { da_handle : string }.
Record CheckInput := { ci_label : string }.
Record RegisterInput := { ri_handle : string; ri_email : option string; ri_password : option string; ri_invite_code : option string }.
Record RegisterResponse := MkRegisterResponse { rr_access_jwt : string; rr_refresh_jwt : string; rr_handle : string; rr_did : string }.

(** ** Over the deployment *)

Section Front.
Context `{Digests} `{Json} `{!JsonMore} `{Ecdsa} `{Jwt} `{Argon2} `{SqlScan} `{Base64}.
Context {Cid : Type} `{CidLib Cid} `{Countable Cid} `{CidText Cid}.
Context `{RepoSerde Cid} `{!Atrium Cid} `{!AtriumRead Cid} `{Keypairs} `{!KeypairIO} `{CarLib Cid} `{PlcLib}.
Context `{KeyCiphers} `{!Serde Value}.
Context `{!Serde ProvisionInput} `{!Serde CreateSessionInput} `{!Serde DeviceRegisterInput}.
Context `{!Serde SigninStartInput} `{!Serde DeviceDecisionInput}.
Context `{!Serde MintInviteReq} `{!Serde DeleteAccountReq} `{!Serde CheckInput} `{!Serde RegisterInput}.
Variable did_parse : string -> result string unit.
Variable verify_signature : string -> bytes -> bytes -> result string unit.
Variable plc_answer : string -> PlcGenesisOpSigned -> result CoreError unit.
Variable fetch_answer : Fetched -> result string FetchAnswer.
(** How the runtime reads the path of a URL, and a value as an [EnqueueReq]. *)
Variable url_parts : string -> string * list (string * string) * option string.
Variable enqueue_of_value : Value -> result string EnqueueReq.
Variable env : Env.

Notation D A := (SE Deployment string A).

Inductive FrontAnswer :=
| FaPreflight
| FaText (status : Z) (text : string)
| FaPage (zone : string) (open : bool)
| FaError (status : Z) (error message : string)
| FaCheck (available : bool) (message : string)
| FaCreated (r : RegisterResponse)
| FaInvite (code : string) (uses : Z)
| FaDeleted (ok : bool) (handle did : string)
| FaSequencer (r : SequencerReply)
| FaObject (r : ObjReply).

(** ** Calls of the other objects: [call_do], [call_pds_do]

    A reply is read as JSON whatever its status; a text is not JSON. *)

Definition call_registry (now : string) (req : RegistryReq) : D RegistryReply :=
  call_stub (fun w =>
    let '(reply, r) := registry_fetch now req (dp_registry w) in
    (match reply with
     | RegistryError _ text => Err ("not JSON: " +:+ text)
     | _ => Ok reply
     end, put_registry r w)).

Definition call_object (m : SE Deployment WFail ObjAnswer) : D ObjReply :=
  call_stub (fun w =>
    let '(r, w') := m w in
    (match reply_of r with
     | OrText _ text => Err ("not JSON: " +:+ text)
     | reply => Ok reply
     end, w')).

(** The members the front reads of a reply. *)
Definition reply_ok (r : ObjReply) : bool :=
  match r with
  | OrAnswer (OaProvisioned (Created _ _ _)) => true
  | OrAnswer (OaDeleted (Some _)) => true
  | _ => false
  end.
Definition reply_error (r : ObjReply) : option string * option string :=
  match r with
  | OrAnswer (OaProvisioned (Rejected error message)) => (Some error, Some message)
  | OrError _ error message => (Some error, Some message)
  | _ => (None, None)
  end.
Definition reply_created (r : ObjReply) : string * string * string :=
  match r with
  | OrAnswer (OaProvisioned (Created did access refresh)) => (did, access, refresh)
  | _ => (EmptyString, EmptyString, EmptyString)
  end.
Definition reply_did (r : ObjReply) : string :=
  match r with
  | OrAnswer (OaDeleted (Some (did, _))) => did
  | _ => EmptyString
  end.
Definition label_of (r : RegistryReply) : option string :=
  match r with LabelResp l => l | _ => None end.

(** ** Administration *)

(** The token first: [Some] is the refusal. *)
Definition admin_refusal (not_configured presented : string) : option FrontAnswer :=
  match en_admin_token env with
  | None => Some (FaError 503 "NotConfigured" not_configured)
  | Some expected =>
      if worker_constant_time_eq presented expected then None
      else Some (FaError 401 "Unauthorized" "Not authorized.")
  end.

Definition mint_invite (now presented : string) (body : string) : D FrontAnswer :=
  match admin_refusal "Invites are not configured." presented with
  | Some refusal => ret refusal
  | None =>
      match from_slice (T := MintInviteReq) body with
      | Err _ => ret (FaError 400 "InvalidRequest" ("Expected {" +:+ quoted "code" +:+ ", " +:+ quoted "uses" +:+ "}."))
      | Ok req =>
          if String.eqb (trim (mi_code req)) EmptyString || (mi_uses req <? 0)
          then ret (FaError 400 "InvalidRequest" "A code and a non-negative use count.")
          else (call_registry now (ReqInvite (mi_code req) (mi_uses req)) ;;!
                ret (FaInvite (mi_code req) (mi_uses req)))%se
      end
  end.

Definition firehose_inject (q : SeqDraw) (presented : string) (body : string) : D FrontAnswer :=
  match admin_refusal "Admin actions are not configured." presented with
  | Some refusal => ret refusal
  | None =>
      match json_from_slice body with
      | None => ret (FaError 400 "InvalidRequest" "Malformed body.")
      | Some payload =>
          (let! res := call_stub (fun w =>
             match enqueue_of_value payload with
             | Err e => (Err e, w)
             | Ok ev =>
                 let '(reply, o) := sequencer_fetch (qd_queue q) (qd_now q) (SqTestInject ev) (dp_sequencer w) in
                 (match reply with SqError _ text => Err ("not JSON: " +:+ text) | _ => Ok reply end, put_sequencer o w)
             end) in
           ret (FaSequencer res))%se
      end
  end.

Definition front_delete_account (now presented : string) (body : string) : D FrontAnswer :=
  match admin_refusal "Admin actions are not configured." presented with
  | Some refusal => ret refusal
  | None =>
      match from_slice (T := DeleteAccountReq) body with
      | Err _ => ret (FaError 400 "InvalidRequest" ("Expected {" +:+ quoted "handle" +:+ "}."))
      | Ok req =>
          let handle := to_ascii_lowercase (trim (da_handle req)) in
          let suffix := "." +:+ zone_suffix env in
          match strip_suffix suffix handle with
          | None => ret (FaError 400 "UnsupportedDomain" ("Handles end in " +:+ suffix))
          | Some label =>
              (let! wiped := call_object (object_delete handle) in
               let! _ := catch (call_registry now (ReqForceRelease label)) in
               ret (FaDeleted (reply_ok wiped) handle (reply_did wiped)))%se
          end
      end
  end.

(** ** Registration *)

Definition check_handle (now : string) (body : string) : D FrontAnswer :=
  match from_slice (T := CheckInput) body with
  | Err _ => ret (FaError 400 "InvalidRequest" "Expected a JSON body with a label.")
  | Ok input =>
      let label := to_ascii_lowercase (trim (ci_label input)) in
      match validate_label label with
      | Err msg => ret (FaCheck false msg)
      | Ok _ =>
          (let! res := call_registry now (ReqCheck label) in
           let available := match res with CheckResp b _ => b | _ => false end in
           ret (FaCheck available (if available then "Available" else "That one's taken. Try another.")))%se
      end
  end.

(** A claim that was not granted, as an answer. *)
Definition claim_refused (reply : RegistryReply) : FrontAnswer :=
  let code := match reply with OkResp _ (Some e) => e | _ => "InvalidRequest" end in
  let message := if String.eqb code "HandleNotAvailable" then "That one's taken. Try another."
                 else if String.eqb code "InvalidInviteCode" then "That invite code isn't valid."
                 else "Could not reserve that handle." in
  FaError 400 code message.

Definition claim_ok (reply : RegistryReply) : bool := match reply with OkResp b _ => b | _ => false end.

(** What a failed provisioning is answered with. *)
Definition provision_refused (r : result string ObjReply) : FrontAnswer :=
  match r with
  | Ok v => FaError 400 (default "InternalError" (fst (reply_error v)))
                        (default "Could not create the account." (snd (reply_error v)))
  | Err _ => FaError 400 "InternalError" "Could not create the account."
  end.

(** The label of a handle of this deployment, checked. *)
Definition register_label (handle : string) : result FrontAnswer string :=
  let suffix := "." +:+ zone_suffix env in
  let? label := ok_or (strip_suffix suffix handle) (FaError 400 "UnsupportedDomain" ("Handles here end in " +:+ suffix)) in
  let? _u := map_err (FaError 400 "InvalidHandle") (validate_label label) in
  Ok label.

(** [now] is the registry's clock at each of its calls. *)
Definition register (now : string) (d : ObjDraw) (body : string) : D FrontAnswer :=
  match from_slice (T := RegisterInput) body with
  | Err _ => ret (FaError 400 "InvalidRequest" "Malformed request body.")
  | Ok input =>
      let handle := to_ascii_lowercase (trim (ri_handle input)) in
      match register_label handle with
      | Err refusal => ret refusal
      | Ok label =>
          let password := default EmptyString (ri_password input) in
          if str_len password <? 8
          then ret (FaError 400 "InvalidRequest" "Password must be at least 8 characters.")
          else
            (let! claimed := call_registry now (ReqClaim label (ri_invite_code input) (open_registration env)) in
             if negb (claim_ok claimed) then ret (claim_refused claimed)
             else
               let! provisioned := catch (call_object (object_provision plc_answer env handle d
                                      (MkProvisionInput handle (ri_email input) password))) in
               match provisioned with
               | Ok v =>
                   if reply_ok v then
                     let '(did, access, refresh) := reply_created v in
                     let! _ := catch (call_registry now (ReqBind label did)) in
                     ret (FaCreated (MkRegisterResponse access refresh handle did))
                   else
                     let! _ := catch (call_registry now (ReqRelease label)) in
                     ret (provision_refused provisioned)
               | Err _ =>
                   let! _ := catch (call_registry now (ReqRelease label)) in
                   ret (provision_refused provisioned)
               end)%se
      end
  end.

(** ** Routing by account *)

Definition jwt_sub (token : string) : option string :=
  payload_b64 ← split_char "." token !! 1%nat;
  b ← b64url_decode payload_b64;
  v ← json_from_slice b;
  json_str "sub" v.

(** A registry look-up whose failure counts as no answer. *)
Definition label_host (now did : string) : SE Deployment string (option string) :=
  (let! res := catch (call_registry now (ReqResolveDid did)) in
   ret (r ← res_opt res; label ← label_of r; Some (label +:+ "." +:+ zone_suffix env)))%se.

Definition session_target (now identifier : string) : SE Deployment string (option string) :=
  let id := to_ascii_lowercase identifier in
  if starts_with "did:" id then label_host now id
  else if ends_with ("." +:+ zone_suffix env) id then ret (Some id)
  else ret (Some (id +:+ "." +:+ zone_suffix env)).

Definition REPO_SCOPED : list string :=
  ["/xrpc/com.atproto.repo.getRecord"; "/xrpc/com.atproto.repo.listRecords"; "/xrpc/com.atproto.repo.describeRepo";
   "/xrpc/com.atproto.sync.getRepo"; "/xrpc/com.atproto.sync.getLatestCommit"; "/xrpc/com.atproto.sync.getBlob";
   "/xrpc/com.atproto.sync.listBlobs"].

Definition repo_scoped_target (now path : string) : SE Deployment string (option string) :=
  match split_once "?" path with
  | None => ret None
  | Some (route, query) =>
      if negb (existsb (String.eqb route) REPO_SCOPED) then ret None
      else
        match (match worker_query_param query "repo" with
               | Some x => Some x
               | None => worker_query_param query "did"
               end) with
        | None => ret None
        | Some ident =>
            if starts_with "did:" ident then label_host now ident
            else
              let h := to_ascii_lowercase ident in
              ret (if ends_with ("." +:+ zone_suffix env) h then Some h else None)
        end
  end.

Definition resolve_handle_target (path : string) : option string :=
  '(route, query) ← split_once "?" path;
  if negb (String.eqb route "/xrpc/com.atproto.identity.resolveHandle") then None
  else
    h ← worker_query_param query "handle";
    let handle := to_ascii_lowercase h in
    if ends_with ("." +:+ zone_suffix env) handle then Some handle else None.

(** The methods whose account is the token's. *)
Definition AUTH_ROUTES : list string :=
  ["/xrpc/com.atproto.server.getSession"; "/xrpc/app.bsky.actor.getPreferences"; "/xrpc/app.bsky.actor.putPreferences";
   "/xrpc/com.atproto.repo.createRecord"; "/xrpc/com.atproto.repo.uploadBlob"; "/xrpc/com.atproto.repo.putRecord";
   "/xrpc/com.atproto.repo.deleteRecord"; "/xrpc/com.atproto.repo.applyWrites"].
Definition is_auth_route (route : string) : bool :=
  existsb (String.eqb route) AUTH_ROUTES || starts_with "/xrpc/app.bsky." route || starts_with "/xrpc/chat.bsky." route.

Definition mutating (method : string) : bool :=
  String.eqb method "POST" || String.eqb method "PUT" || String.eqb method "PATCH".

Definition body_cap (route : string) : Z :=
  if String.eqb route "/xrpc/com.atproto.repo.uploadBlob" then MAX_BLOB_BYTES else MAX_BODY.

Definition front_bearer (req : FrontReq) : option string := a ← fq_authorization req; strip_prefix "Bearer " a.

Definition is_subscribe (path : string) : bool :=
  ends_with "/xrpc/com.atproto.sync.subscribeRepos" (route_of path).

(** On the shared host the account a request names; elsewhere the host. *)
Definition shared_target (now host path : string) : SE Deployment string string :=
  if String.eqb host (zone_suffix env) then
    (let! t := repo_scoped_target now path in
     ret (match t with Some h => h | None => default host (resolve_handle_target path) end))%se
  else ret host.

Definition token_target (now host path : string) (bearer : option string) (target : string) : SE Deployment string string :=
  if String.eqb host (zone_suffix env) && is_auth_route (route_of path) then
    match (t ← bearer; jwt_sub t) with
    | Some did => (let! h := session_target now did in ret (default target h))%se
    | None => ret target
    end
  else ret target.

Definition login_target (now host method path : string) (body : option bytes) (target : string) : SE Deployment string string :=
  if String.eqb host (zone_suffix env) && String.eqb method "POST" &&
     ends_with "/xrpc/com.atproto.server.createSession" (route_of path) then
    match (b ← body; v ← json_from_slice b; json_str "identifier" v) with
    | Some id => (let! h := session_target now id in ret (default target h))%se
    | None => ret target
    end
  else ret target.

(** The object a request is for, and its body when it has one. *)
Definition pick_object (now host path : string) (req : FrontReq) : D (string * option bytes) :=
  (let! target := shared_target now host path in
   let! body := lift (if mutating (fq_method req)
                      then let? b := read_body_bytes (body_cap (route_of path)) (fq_body req) EmptyString in Ok (Some b)
                      else Ok None) in
   let! target := token_target now host path (front_bearer req) target in
   let! target := login_target now host (fq_method req) path body target in
   ret (target, body))%se.

(** The request rebuilt for the object. *)
Definition forward_req (path : string) (req : FrontReq) (body : option bytes) : ObjReq :=
  let '(p, query, raw) := url_parts path in
  MkObjReq p query raw (option_map (fun t => "Bearer " +:+ t) (front_bearer req)) (fq_content_type req)
    (default EmptyString body).

(** ** [dispatch] *)

Record FrontDraw := { fd_now : string; fd_obj : ObjDraw }.

(** The registration surface, when the host serves it. *)
Definition signup_surface (d : FrontDraw) (host path : string) (req : FrontReq) : option (D FrontAnswer) :=
  if negb (is_signup_host host (zone_suffix env) (en_signup_host env)) then None
  else
    let route := route_of path in
    let admin := default EmptyString (fq_admin req) in
    let with_body (k : string -> D FrontAnswer) : option (D FrontAnswer) :=
      Some (let! body := lift (read_body (fq_body req)) in k body)%se in
    if String.eqb (fq_method req) "GET" then
      if String.eqb route "/" then Some (ret (FaPage (zone_suffix env) (open_registration env))) else None
    else if String.eqb (fq_method req) "POST" then
      if String.eqb route "/register/check" then with_body (check_handle (fd_now d))
      else if String.eqb route "/xrpc/com.atproto.server.createAccount" then with_body (register (fd_now d) (fd_obj d))
      else if String.eqb route "/_stelyph/admin/invite" then with_body (mint_invite (fd_now d) admin)
      else if String.eqb route "/_stelyph/admin/delete-account" then with_body (front_delete_account (fd_now d) admin)
      else if String.eqb route "/_stelyph/admin/firehose-inject" then with_body (firehose_inject (od_seq (fd_obj d)) admin)
      else None
    else None.

Definition forward (d : FrontDraw) (host path : string) (req : FrontReq) : D FrontAnswer :=
  (let! x := pick_object (fd_now d) host path req in
   let '(target, body) := x in
   let! reply := call_stub (fun w =>
     let '(r, w') := object_fetch did_parse verify_signature plc_answer fetch_answer env target (fd_obj d)
                       (forward_req path req body) w in (Ok r, w')) in
   ret (FaObject reply))%se.

Definition dispatch (d : FrontDraw) (req : FrontReq) : D FrontAnswer :=
  let host := request_host req in
  let path := fq_path_and_query req in
  if String.eqb host EmptyString then ret (FaText 400 "missing Host header")
  else
    match signup_surface d host path req with
    | Some m => m
    | None =>
        if starts_with "/_stelyph/" path then ret (FaError 404 "NotFound" "Not found.")
        else if is_subscribe path then
          (let '(_, query, _) := url_parts path in
           let cursor := snd <$> head (List.filter (fun kv => String.eqb (fst kv) "cursor") query) in
           let! reply := call_stub (fun w =>
             let '(r, o) := sequencer_fetch (qd_queue (od_seq (fd_obj d))) (qd_now (od_seq (fd_obj d)))
                              (SqSubscribe cursor) (dp_sequencer w) in (Ok r, put_sequencer o w)) in
           ret (FaSequencer reply))%se
        else forward d host path req
    end.

(** [fetch]: every answer with its CORS headers. *)
Definition front_fetch (d : FrontDraw) (req : FrontReq) : D (FrontAnswer * list (string * string)) :=
  if String.eqb (fq_method req) "OPTIONS" then ret (FaPreflight, add_cors (fq_request_headers req))
  else (let! resp := dispatch d req in ret (resp, add_cors None))%se.

End Front.
