(* ===== verification/Transport.v ===== *)
(** * The repository over two stores

    Two stores are in step when their block reads, block writes, root look-ups
    and commits answer alike and lead to stores in step again.  Whatever the
    repository layer does — a write, a batch, any read — then answers alike over
    both.  With one store on both sides and an invariant as the relation, the
    same lemmas say that the repository layer keeps the invariant. *)

From Stdlib Require Import ZArith Lia Ascii FunctionalExtensionality.
From S2P Require Import Prelude RustStr Externals StoreTypes MemoryStore MemoryProps Repo RepoWriter RepoRead.
From S2P Require Import Sql.
From S2P Require Import SqlProps.

(** ** Related computations *)

(** From stores related by [P] both answer the same and end related by [Q]. *)
Definition rel {S T} (P Q : S -> T -> Prop) {E A} (m : SE S E A) (n : SE T E A) : Prop :=
  forall s t, P s t -> fst (m s) = fst (n t) /\ Q (snd (m s)) (snd (n t)).

Section Rel.
Context {S T : Type}.
Implicit Types P Q R : S -> T -> Prop.

Lemma rel_bind P Q {E A B} (m : SE S E A) n (k : A -> SE S E B) l :
  (forall s t, P s t -> Q s t) ->
  rel P P m n -> (forall a, rel P Q (k a) (l a)) -> rel P Q (bind m k) (bind n l).
Proof.
  intros HPQ Hm Hk s t Hst. destruct (Hm s t Hst) as [Hr Hs]. unfold bind.
  destruct (m s) as [[a|e] s'], (n t) as [[b|e'] t']; cbn in Hr, Hs |- *; simplify_eq; [by apply Hk|].
  split; [done|by apply HPQ].
Qed.

(** The other way around: first the step, then what keeps [Q]. *)
Lemma rel_bind_after P Q {E A B} (m : SE S E A) n (k : A -> SE S E B) l :
  rel P Q m n -> (forall a, rel Q Q (k a) (l a)) -> rel P Q (bind m k) (bind n l).
Proof.
  intros Hm Hk s t Hst. destruct (Hm s t Hst) as [Hr Hs]. unfold bind.
  destruct (m s) as [[a|e] s'], (n t) as [[b|e'] t']; cbn in Hr, Hs |- *; simplify_eq; [by apply Hk|done].
Qed.

Lemma rel_weaken P Q Q' {E A} (m : SE S E A) n : (forall s t, Q s t -> Q' s t) -> rel P Q m n -> rel P Q' m n.
Proof. intros HQ Hm s t Hst. destruct (Hm s t Hst). auto. Qed.

Lemma rel_ret P {E A} (a : A) : rel P P (E := E) (ret a) (ret a).
Proof. by intros s t. Qed.
Lemma rel_throw P {E A} (e : E) : rel P P (A := A) (throw e) (throw e).
Proof. by intros s t. Qed.
Lemma rel_lift P {E A} (r : result E A) : rel P P (lift r) (lift r).
Proof. by intros s t. Qed.
Lemma rel_with_err P Q {E F A} (w : E -> F) (m : SE S E A) n : rel P Q m n -> rel P Q (with_err w m) (with_err w n).
Proof.
  intros Hm s t Hst. destruct (Hm s t Hst) as [Hr Hs]. unfold with_err.
  destruct (m s) as [[] ?], (n t) as [[] ?]; cbn in *; by simplify_eq.
Qed.
End Rel.

(** One store on both sides, with an invariant. *)
Definition both {S} (I : S -> Prop) (s t : S) : Prop := s = t /\ I s.

Lemma rel_both {S} (I : S -> Prop) {E A} (m : SE S E A) :
  rel (both I) (both I) m m <-> forall s, I s -> I (snd (m s)).
Proof.
  split.
  - intros Hm s Hs. by destruct (Hm s s (conj eq_refl Hs)) as (_ & _ & H).
  - intros Hm s t [<- Hs]. split; [done|]. split; [done|by apply Hm].
Qed.

(** ** Stores in step *)

Class StoreSim (Cid S T : Type) `{Countable Cid} `{StorageBackend Cid S} `{StorageBackend Cid T}
    (P Q : S -> T -> Prop) := {
  step_weaken s t : P s t -> Q s t;
  step_read c : rel P P (read_block_bytes c) (read_block_bytes c);
  step_put c b : rel P P (put_block c b) (put_block c b);
  step_root d : rel P P (load_repo_root (Cid := Cid) d) (load_repo_root d);
  step_commit (bs : list (Cid * bytes)) d root ev : rel P Q (commit_blocks bs d root ev) (commit_blocks bs d root ev);
}.

Section Transport.
Context `{Digests} {Cid S T : Type} `{CidLib Cid} `{Countable Cid}.
Context `{HS : StorageBackend Cid S} `{HT : StorageBackend Cid T}.
Context `{RepoSerde Cid} `{!Atrium Cid} `{!AtriumRead Cid} `{Keypairs} `{CarLib Cid}.
Context (P Q : S -> T -> Prop) `{Hsim : !StoreSim Cid S T P Q}.

(** With the trace of a program, or the frames broadcast. *)
Definition alongside {X} (R : S -> T -> Prop) (s : S * X) (t : T * X) : Prop := R (fst s) (fst t) /\ snd s = snd t.

Lemma adapter_read_rel c : rel P P (adapter_read (St := S) c) (adapter_read (St := T) c).
Proof.
  intros s t Hst. destruct (step_read c s t Hst) as [Hr Hs]. unfold adapter_read.
  destruct (read_block_bytes c s) as [r s'], (read_block_bytes c t) as [r' t']. cbn in Hr, Hs. subst r'.
  by destruct r as [|[]].
Qed.

Lemma adapter_write_rel codec hash b :
  rel P P (adapter_write (Cid := Cid) (St := S) codec hash b) (adapter_write (St := T) codec hash b).
Proof.
  unfold adapter_write, assert_or. case_match; [|by intros s t].
  apply rel_bind; [done|by intros s t|]. intros _. cbn zeta.
  apply rel_bind; [done|apply rel_with_err, step_put|]. intros _. apply rel_ret.
Qed.

Lemma run_prog_rel {A} (p : BProg Cid A) :
  rel (alongside P) (alongside P) (run_prog (St := S) p) (run_prog (St := T) p).
Proof.
  induction p as [r|c k IH|codec hash b k IH]; intros [s tr] [t tr'] [Hst Htr]; cbn in Hst, Htr; subst tr'; cbn [run_prog].
  - by split.
  - destruct (adapter_read_rel c s t Hst) as [Hr Hs].
    destruct (adapter_read c s) as [r s'], (adapter_read c t) as [r' t']. cbn in Hr, Hs. subst r'.
    apply IH. by split.
  - destruct (adapter_write_rel codec hash b s t Hst) as [Hr Hs].
    destruct (adapter_write codec hash b s) as [r s'], (adapter_write codec hash b t) as [r' t']. cbn in Hr, Hs. subst r'.
    apply IH. by split.
Qed.

(** ** The writer *)

Abbreviation PW := (alongside (X := list FirehoseEvent) P).
Abbreviation QW := (alongside (X := list FirehoseEvent) Q).

Lemma on_store_rel {A} R (m : SE S StorageError A) (n : SE T StorageError A) :
  rel P R m n -> rel PW (alongside R) (on_store m) (on_store n).
Proof.
  intros Hm [s pub] [t pub'] [Hst Hp]. cbn in Hst, Hp. subst pub'. destruct (Hm s t Hst) as [Hr Hs]. unfold on_store.
  destruct (m s) as [r s'], (n t) as [r' t']. cbn in *. by subst r'.
Qed.

Lemma prog_rel {A} f (p : BProg Cid A) tr : rel PW PW (prog (St := S) f p tr) (prog (St := T) f p tr).
Proof.
  intros [s pub] [t pub'] [Hst Hp]. cbn in Hst, Hp. subst pub'. unfold prog.
  destruct (run_prog_rel p (s, tr) (t, tr)) as [Hr [Hs Ht]]; [by split|].
  destruct (run_prog p (s, tr)) as [r [s' tr1]], (run_prog p (t, tr)) as [r' [t' tr2]]. cbn in *. subst. by destruct r'.
Qed.

(** [step_auto] goes through a computation that only reads and writes blocks. *)
Ltac step_auto :=
  repeat first
    [ apply rel_bind; [done| |intros ?]
    | apply rel_ret | apply rel_throw | apply rel_lift | apply prog_rel
    | apply on_store_rel; first [apply step_read|apply step_root|apply step_put]
    | progress cbn beta iota zeta | progress case_match ].

Lemma read_blocks_rel cids : rel PW PW (read_blocks (St := S) cids) (read_blocks (St := T) cids).
Proof. induction cids as [|c cids IH]; cbn [read_blocks]; unfold read_block; step_auto. apply IH. Qed.

Lemma open_or_create_rel (self : Writer) st root :
  rel PW PW (open_or_create (St := S) self st root) (open_or_create (St := T) self st root).
Proof. unfold open_or_create, sign. step_auto. Qed.

Lemma apply_op_rel (self : Writer) st repo wop tr :
  rel PW PW (apply_op (St := S) self st repo wop tr) (apply_op (St := T) self st repo wop tr).
Proof. destruct wop; unfold apply_op, chain_and_sign, sign; step_auto. Qed.

Lemma commit_rev_rel ctx c : rel PW PW (commit_rev (Cid := Cid) (St := S) ctx c) (commit_rev (St := T) ctx c).
Proof. unfold commit_rev, read_block, repo_err. step_auto. Qed.

Lemma since_of_rel ctx root c : rel PW PW (since_of (Cid := Cid) (St := S) ctx root c) (since_of (St := T) ctx root c).
Proof. unfold since_of. step_auto. Qed.

Lemma prepare_rel ops tr : rel PW PW (prepare (St := S) ops tr) (prepare (St := T) ops tr).
Proof.
  revert tr. induction ops as [|wop ops IH]; intros tr; cbn [prepare]; [apply rel_ret|].
  unfold prepare_one, prepare_record, repo_err. step_auto; apply IH.
Qed.

Lemma tree_steps_rel l root tr : rel PW PW (tree_steps (St := S) l root tr) (tree_steps (St := T) l root tr).
Proof.
  revert root tr. induction l as [|p l IH]; intros root tr; cbn [tree_steps]; [apply rel_ret|].
  unfold tree_step. step_auto; apply IH.
Qed.

Lemma write_commit_rel (self : Writer) st prev data tr :
  rel PW PW (write_commit (St := S) self st prev data tr) (write_commit (St := T) self st prev data tr).
Proof. unfold write_commit, repo_err, sign. step_auto. Qed.

Lemma PW_QW s t : PW s t -> QW s t.
Proof. intros [Hst Hp]. split; [by apply step_weaken|done]. Qed.

Lemma persist_rel (self : Writer) blocks body :
  rel PW QW (persist (St := S) self blocks body) (persist (St := T) self blocks body).
Proof.
  unfold persist. apply rel_bind; [apply PW_QW|apply rel_lift|]. intros ev.
  apply rel_bind_after; [apply on_store_rel, step_commit|]. intros seq. apply rel_ret.
Qed.

Lemma broadcast_rel R (publish : Publish) (body : CommitBody Cid) :
  rel (alongside R) (alongside R) (broadcast (St := S) publish body) (broadcast (St := T) publish body).
Proof.
  destruct publish; [|apply rel_ret]. intros [s pub] [t pub'] [Hst Hp]. cbn in *. subst pub'. by split.
Qed.

Lemma commit_op_rel (self : Writer) st wop publish :
  rel PW QW (commit_op (St := S) self st wop publish) (commit_op (St := T) self st wop publish).
Proof.
  unfold commit_op. apply rel_bind; [apply PW_QW|apply on_store_rel, step_root|]. intros root.
  apply rel_bind; [apply PW_QW|apply open_or_create_rel|]. intros rt. cbv zeta.
  apply rel_bind; [apply PW_QW|apply apply_op_rel|]. intros [[[[action key] cid] c] tr].
  apply rel_bind; [apply PW_QW|apply read_blocks_rel|]. intros l.
  apply rel_bind; [apply PW_QW|apply rel_lift|]. intros car.
  apply rel_bind; [apply PW_QW|apply commit_rev_rel|]. intros rev.
  apply rel_bind; [apply PW_QW|apply since_of_rel|]. intros since.
  apply rel_bind_after; [apply persist_rel|]. intros body.
  apply rel_bind; [done|apply broadcast_rel|]. intros _. apply rel_ret.
Qed.

Lemma apply_many_rel (self : Writer) st ops :
  rel PW QW (apply_many_parts (St := S) self st ops) (apply_many_parts (St := T) self st ops).
Proof.
  unfold apply_many_parts. destruct ops as [|wop ops]; [eapply rel_weaken; [apply PW_QW|apply rel_throw]|].
  apply rel_bind; [apply PW_QW|apply on_store_rel, step_root|]. intros root.
  apply rel_bind; [apply PW_QW|apply open_or_create_rel|]. intros rt. cbv zeta.
  apply rel_bind; [apply PW_QW|apply prepare_rel|]. intros pt.
  apply rel_bind; [apply PW_QW|apply tree_steps_rel|]. intros nt.
  apply rel_bind; [apply PW_QW|apply write_commit_rel|]. intros ct.
  apply rel_bind; [apply PW_QW|apply read_blocks_rel|]. intros l.
  apply rel_bind; [apply PW_QW|apply rel_lift|]. intros car.
  apply rel_bind; [apply PW_QW|apply since_of_rel|]. intros since.
  apply rel_bind_after; [apply persist_rel|]. intros body. apply rel_ret.
Qed.

(** ** The readers *)

Context {Value : Type} `{Serde Value}.

Lemma rd_store_rel {A} (m : SE S StorageError A) (n : SE T StorageError A) :
  rel P P m n -> rel P P (rd_store m) (rd_store n).
Proof. apply rel_with_err. Qed.

Lemma rd_prog_rel {A} (p : BProg Cid A) : rel P P (rd_prog (St := S) p) (rd_prog (St := T) p).
Proof.
  intros s t Hst. unfold rd_prog. destruct (run_prog_rel p (s, []) (t, [])) as [Hr [Hs Ht]]; [by split|].
  destruct (run_prog p (s, [])) as [r [s' tr1]], (run_prog p (t, [])) as [r' [t' tr2]]. cbn in *. by subst.
Qed.

Lemma rd_stream_rel {A} (f : (Cid -> result BlockErr bytes) -> A) : rel P P (rd_stream (St := S) f) (rd_stream (St := T) f).
Proof.
  intros s t Hst. cbn. split; [|done]. do 2 f_equal. apply functional_extensionality. intros c.
  by destruct (adapter_read_rel c s t Hst).
Qed.

Ltac read_auto :=
  repeat first
    [ apply rel_bind; [done| |intros ?]
    | apply rel_ret | apply rel_throw | apply rel_lift | apply rd_prog_rel | apply rd_stream_rel
    | apply rd_store_rel; first [apply step_read|apply step_root]
    | progress cbn beta iota zeta | progress case_match ].

Lemma read_entry_rel key cid : rel P P (read_entry (Value := Value) (St := S) key cid) (read_entry (St := T) key cid).
Proof. unfold read_entry. read_auto. Qed.

Lemma get_record_rel did key : rel P P (get_record (Value := Value) (St := S) did key) (get_record (St := T) did key).
Proof. unfold get_record. read_auto. Qed.

Lemma list_loop_rel limit cursor stream acc :
  rel P P (list_loop (Value := Value) (Cid := Cid) (St := S) limit cursor stream acc) (list_loop (St := T) limit cursor stream acc).
Proof.
  revert acc. induction stream as [|[[key cid]|e] stream IH]; intros acc; cbn [list_loop]; [apply rel_ret| |apply rel_throw].
  destruct (match cursor with Some c => str_leb key c | None => false end); [apply IH|].
  apply rel_bind; [done|apply read_entry_rel|]. intros e. cbv zeta.
  destruct (_ <=? _)%nat; [apply rel_ret|apply IH].
Qed.

Lemma list_records_rel did collection limit cursor :
  rel P P (list_records (Value := Value) (St := S) did collection limit cursor) (list_records (St := T) did collection limit cursor).
Proof. unfold list_records. read_auto. apply list_loop_rel. Qed.

Lemma list_collections_rel did : rel P P (list_collections (St := S) did) (list_collections (St := T) did).
Proof. unfold list_collections. read_auto. Qed.

Lemma read_commit_rev_rel c : rel P P (read_commit_rev (Cid := Cid) (St := S) c) (read_commit_rev (St := T) c).
Proof. unfold read_commit_rev. read_auto. Qed.

Lemma latest_commit_rel did : rel P P (latest_commit (Cid := Cid) (St := S) did) (latest_commit (St := T) did).
Proof. unfold latest_commit. read_auto. Qed.

Lemma export_loop_rel cids w : rel P P (export_loop (St := S) cids w) (export_loop (St := T) cids w).
Proof. revert w. induction cids as [|c cids IH]; intros w; cbn [export_loop]; read_auto. apply IH. Qed.

Lemma export_car_rel did : rel P P (export_car (St := S) did) (export_car (St := T) did).
Proof. unfold export_car. read_auto. apply export_loop_rel. Qed.

End Transport.
