(* ===== verification/WorkerProps.v ===== *)
(** * The worker's account object: accounts and sign-in

    What provisioning leaves in the object, who can log in afterwards, what a
    bearer token is taken for, and what an approval by a device amounts to —
    with statements failing wherever the schedule says. *)

From Stdlib Require Import ZArith Lia Ascii.
From S2P Require Import Prelude RustStr Externals Demo StoreTypes MemoryStore OAuthCore Jose Client Session Repo.
From S2P Require Import RepoDemo KeyCrypto Identity Accounts AccountProps EmbServer.
From S2P Require Import Sql.
From S2P Require Import SqliteStore.
From S2P Require Import SqlProps.
From S2P Require Import SqliteProps.
From S2P Require Import DoStore.
From S2P Require Import WorkerAccounts.

Definition do_accounts (d : DoDb) : gmap string AccountRow := t_accounts (do_tables d).
Definition do_keys (d : DoDb) : gmap string bytes := t_keys (do_tables d).

(** ** What a step that succeeded did *)

Lemma sql_Ok {A} (f : DoDb -> result string (A * DoDb)) c a c' :
  sql (stmt f) c = (Ok a, c') -> f (db c) = Ok (a, db c').
Proof.
  unfold sql, with_err. pose proof (proj2 (does_stmt f c)) as H. intros E.
  destruct (stmt f c) as [[x|e] c1]; [|done]. by injection E as -> ->.
Qed.

Lemma with_err_Ok {S E F A} (w : E -> F) (m : SE S E A) s a s' :
  with_err w m s = (Ok a, s') -> m s = (Ok a, s').
Proof. unfold with_err. by destruct (m s) as [[x|e] s1]; intros [= <- <-]. Qed.

Lemma lift_Ok {S E A} (r : result E A) (s : S) a s' : lift r s = (Ok a, s') -> r = Ok a /\ s' = s.
Proof. by intros [= -> ->]. Qed.


Lemma fault_Ok {E A} what (show : E -> string) (r : result E A) a : fault what show r = Ok a -> r = Ok a.
Proof. apply map_err_Ok. Qed.

Lemma exists_row_Ok f c b c' : exists_row f c = (Ok b, c') -> c'.(db) = db c /\ b = f (do_tables (db c)).
Proof.
  intros E. apply bind_Ok in E as (n & c1 & E1 & E). apply sql_Ok in E1. injection E as <- <-.
  injection E1 as <- <-. split; [done|]. by destruct (f _).
Qed.

Lemma do_count_Ok c n c' : do_count_accounts c = (Ok n, c') -> n = Z.of_nat (size (do_accounts (db c))) /\ db c' = db c.
Proof. intros E. apply sql_Ok in E. by injection E as <- <-. Qed.

(** The new row's DID and handle were nobody's. *)
Lemma do_insert_Ok did handle email phc now c n c' :
  do_count_and_insert_account did handle email phc now c = (Ok n, c') ->
  do_accounts (db c) !! did = None /\
  db c' = with_tables (put_accounts (<[did := MkAccountRow (Some handle) email phc now None None]> (do_accounts (db c)))
                         (do_tables (db c))) (db c).
Proof.
  intros E. apply bind_Ok in E as (n0 & c1 & E1 & E). apply do_count_Ok in E1 as [_ H1].
  apply bind_Ok in E as (u & c2 & E2 & E). injection E as _ <-. unfold do_insert_account in E2.
  apply bind_Ok in E2 as (b & c3 & E3 & E2). apply exists_row_Ok in E3 as [H3 ->]. rewrite H1 in *.
  destruct (has_account did _); [done|].
  apply bind_Ok in E2 as (b & c4 & E4 & E2). apply exists_row_Ok in E4 as [H4 ->]. rewrite H3 in *.
  destruct (has_handle_row handle _); [done|]. apply sql_Ok in E2. rewrite H4 in E2. cbn in E2.
  unfold do_accounts. destruct (t_accounts (do_tables (db c)) !! did) eqn:Ea; [done|].
  destruct (rows_by_handle handle _); [|done]. cbn in E2. by injection E2 as <-.
Qed.

Lemma do_put_key_Ok id b c u c' :
  do_put_key_blob id b c = (Ok u, c') ->
  db c' = with_tables (put_keys (<[id := b]> (do_keys (db c))) (do_tables (db c))) (db c).
Proof. intros E. apply sql_Ok in E. injection E as _ <-. done. Qed.

(** An object with this account alone, and its two keys, and all else it held. *)
Definition provisioned_db (did : string) (row : AccountRow) (b1 b2 : bytes) (d : DoDb) : DoDb :=
  with_tables (put_keys (<[did +:+ "#rotation" := b2]> (<[did +:+ "#signing" := b1]> (do_keys d)))
                 (put_accounts {[did := row]} (do_tables d))) d.

Section Accounts.
Context `{Digests} `{Jwt} `{Argon2} `{KeyCiphers} `{KeypairIO} `{PlcLib} `{SqlScan}.

Lemma worker_store_key_Ok salt nonce id pt pass (c : DoStore) u c' :
  store_key (St := DoStore) salt nonce id pt pass c = (Ok u, c') ->
  exists b, encrypt_key salt nonce pt pass = Ok b /\
    db c' = with_tables (put_keys (<[id := b]> (do_keys (db c))) (do_tables (db c))) (db c).
Proof.
  intros E. apply bind_Ok in E as (b & c1 & E1 & E). apply lift_Ok in E1 as [E1 ->].
  exists b. split; [done|]. by eapply do_put_key_Ok.
Qed.

(** ** Provisioning *)

Section Provision.
Variable plc_answer : string -> PlcGenesisOpSigned -> result CoreError unit.

Lemma pv_store_Ok {A} what (m : op DoStore A) s posts a x :
  pv_store (w_store what m) (s, posts) = (Ok a, x) -> exists s', m s = (Ok a, s') /\ x = (s', posts).
Proof.
  unfold pv_store. destruct (w_store what m s) as [r s'] eqn:E. intros [= -> <-].
  apply with_err_Ok in E. by exists s'.
Qed.

(** A provisioning that created an account: the object had none, and has this
    one, with its two keys and its tokens; the DID is on the ledger. *)
Lemma provision_Created d ctx handle email password passphrase secret s posts did a r s' posts' :
  provision_account plc_answer d ctx handle email password passphrase secret (s, posts) = (Ok (Created did a r), (s', posts')) ->
  8 <= str_len password /\ do_accounts (db s) = ∅ /\
  register_did_plc plc_answer handle (cx_issuer ctx) (ad_signing d) (ad_rotation d) posts = (Ok did, posts') /\
  exists phc b1 b2, hash_password (ad_phc_salt d) password = Ok phc /\
    encrypt_key (ad_signing_salt d) (ad_signing_nonce d) (kp_export (ad_signing d)) passphrase = Ok b1 /\
    encrypt_key (ad_rotation_salt d) (ad_rotation_nonce d) (kp_export (ad_rotation d)) passphrase = Ok b2 /\
    db s' = provisioned_db did (MkAccountRow (Some handle) email phc (ad_created_at d) None None) b1 b2 (db s) /\
    worker_tokens did secret (sd_uuid (ad_session d)) (sd_now_access (ad_session d)) (sd_now_refresh (ad_session d)) = Ok (a, r).
Proof.
  unfold provision_account. destruct (Z.ltb_spec (str_len password) 8) as [|Hlen]; [done|]. intros E.
  apply bind_Ok in E as (n & x & E1 & E). apply pv_store_Ok in E1 as (s1 & E1 & ->).
  apply do_count_Ok in E1 as [-> C1]. destruct (Z.ltb_spec 0 (Z.of_nat (size (do_accounts (db s))))) as [|Hn]; [done|].
  apply bind_Ok in E as (reg & x & E1 & E). unfold pv_plc in E1.
  destruct (register_did_plc _ _ _ _ _ posts) as [reg' posts1] eqn:Er. injection E1 as <- <-.
  destruct reg' as [did'|e]; [|done].
  apply bind_Ok in E as (phc & x & E1 & E). apply lift_Ok in E1 as [Ep ->]. apply fault_Ok in Ep.
  apply bind_Ok in E as (u1 & x & E1 & E). apply pv_store_Ok in E1 as (s2 & E1 & ->). apply do_insert_Ok in E1 as [_ C2].
  apply bind_Ok in E as (u2 & x & E1 & E). apply pv_store_Ok in E1 as (s3 & E1 & ->). apply worker_store_key_Ok in E1 as (b1 & Hb1 & K1).
  apply bind_Ok in E as (u3 & x & E1 & E). apply pv_store_Ok in E1 as (s4 & E1 & ->). apply worker_store_key_Ok in E1 as (b2 & Hb2 & K2).
  apply bind_Ok in E as ([ta tr] & x & E1 & E). apply lift_Ok in E1 as [Et ->]. injection E as <- <- <- <- <-.
  assert (do_accounts (db s) = ∅) as He by (apply map_size_empty_inv; lia).
  split_and!; try done. exists phc, b1, b2. split_and!; try done.
  - rewrite K2, K1, C2, C1, He. by destruct (db s) as [[] ? ? ? ? ?].
Qed.

End Provision.

(** ** Logging in *)

Lemma sole_account_run `{!SqlScanLaws} d did row : do_accounts d = {[did := row]} ->
  sole_account (MkConn d []) = (Ok (Some (summary_row (did, row))), MkConn d []).
Proof.
  intros E. unfold sole_account, w_store, do_list_accounts, sql, bind, with_err, q_tables, query, stmt. cbn.
  unfold do_accounts in E. rewrite E, map_to_list_singleton.
  assert (scan_rows [(did, row)] = [(did, row)]) as -> by (apply Permutation_singleton_r, scan_rows_perm). done.
Qed.

(** What createSession answers over an object with one account. *)
Lemma login_run `{!SqlScanLaws} (d : DoDb) did row handle (identifier password : string) secret uuid now
    (Hrow : do_accounts d = {[did := row]}) (Hh : ar_handle row = Some handle) :
  let id := to_ascii_lowercase identifier in
  let granted := (String.eqb id (to_ascii_lowercase handle) || String.eqb id (to_ascii_lowercase did)) &&
                 match verify_password password (ar_password_argon2 row) with Ok b => b | Err _ => false end in
  worker_create_session identifier password secret uuid now (MkConn d []) =
  (if granted
   then let? t := worker_tokens did secret uuid now now in Ok (MkSession (fst t) (snd t) handle did true)
   else Err BAD_CREDENTIALS, MkConn d []).
Proof.
  intros id granted. unfold worker_create_session. unfold bind at 1. rewrite (sole_account_run d did row) by done.
  unfold bind at 1. cbn [lift ok_or]. unfold granted. cbn [summary_row as_did as_handle fst snd]. rewrite Hh. cbn [default].
  cbn beta zeta. fold id. unfold assert_or at 1. destruct (_ || _); [|done]. cbn [andb].
  unfold w_store, account_password_phc, sql, bind, with_err, q_tables, query, stmt, assert_or, lift, ret. cbn.
  unfold do_accounts in Hrow. rewrite Hrow, lookup_singleton_eq. cbn.
  destruct (match verify_password password (ar_password_argon2 row) with Ok b => b | Err _ => false end); [|done].
  by destruct (worker_tokens did secret uuid now now).
Qed.

(** the one account of an object can log in, under its handle or its DID in any
    case and with its password only: createSession answers tokens for it then,
    and the same 401 in every other case. *)
Theorem worker_login_exact `{!SqlScanLaws} (d : DoDb) did row handle (identifier password : string) secret uuid now
    (Hrow : do_accounts d = {[did := row]}) (Hh : ar_handle row = Some handle) :
  let id := to_ascii_lowercase identifier in
  let granted := (String.eqb id (to_ascii_lowercase handle) || String.eqb id (to_ascii_lowercase did)) &&
                 match verify_password password (ar_password_argon2 row) with Ok b => b | Err _ => false end in
  worker_create_session identifier password secret uuid now (MkConn d []) =
  (if granted
   then let? t := worker_tokens did secret uuid now now in Ok (MkSession (fst t) (snd t) handle did true)
   else Err BAD_CREDENTIALS, MkConn d []).
Proof. exact (login_run d did row handle identifier password secret uuid now Hrow Hh). Qed.

(** ** Bearer tokens *)

(** on the worker a session's refresh token is as good as its access token:
    the handlers that ask for a bearer token take either for the account, the
    refresh token for ninety days, where the server refuses it as an access
    token. *)
Theorem refresh_token_is_access `{!JwtLaws} did uuid secret t0 ta tr now
    (Ht : 0 <= t0 /\ t0 + 7776000 < u64_mod) (Ha : encode_access_jwt_at did secret t0 = Ok ta) (Hr : encode_refresh_jwt_at uuid did secret t0 = Ok tr) :
  bearer_did (Some ta) secret now = (if now - 60 <=? t0 + 7200 then Ok did else Err INVALID_TOKEN) /\
  bearer_did (Some tr) secret now = (if now - 60 <=? t0 + 7776000 then Ok did else Err INVALID_TOKEN) /\
  (forall x, authenticate_access [Some ("Bearer " +:+ tr)] secret now <> Ok x).
Proof.
  unfold encode_access_jwt_at in Ha. unfold encode_refresh_jwt_at in Hr.
  destruct (session_token_runs "Bearer" _ secret ta [] now eq_refl Ha) as [_ Da].
  destruct (session_token_runs "Bearer" _ secret tr [] now eq_refl Hr) as [Hb Dr].
  unfold bearer_did, authenticate_access. cbn [mbind option_bind].
  change (Some ("Bearer " +:+ tr)) with (Some ("Bearer" +:+ String " " tr)). rewrite Hb. cbn beta iota.
  rewrite Da, Dr. cbn. rewrite !u64_add_id by lia. rewrite !(Z.ltb_antisym (_ - _)).
  split_and!.
  - by destruct (now - 60 <=? t0 + 7200).
  - by destruct (now - 60 <=? t0 + 7776000).
  - intros x. by destruct (now - 60 <=? t0 + 7776000).
Qed.

(** ** Approval by a device *)

Section Approval.
Variable verify_signature : string -> bytes -> bytes -> result string unit.

Lemma pending_signin_Ok i c row c' :
  pending_signin i c = (Ok row, c') ->
  db c' = db c /\ signin_requests (db c) !! i = Some row /\ sg_status row = "pending".
Proof.
  intros E. apply bind_Ok in E as (o & c1 & E1 & E). apply with_err_Ok, sql_Ok in E1. injection E1 as <- Ed.
  apply bind_Ok in E as (row' & c2 & E1 & E). apply lift_Ok in E1 as [Er ->]. apply ok_or_Ok in Er.
  apply bind_Ok in E as (u & c3 & E1 & E). apply assert_or_Ok in E1 as [Hs ->].
  injection E as <- <-. apply String.eqb_eq in Hs. by split_and!.
Qed.

(** The device is enrolled, and signed this request's challenge. *)
Definition device_signed (d : DoDb) (request_id device_id : string) (row : Signin) (signature : bytes) : Prop :=
  exists dev, device_keys d !! device_id = Some dev /\
    verify_signature (dv_did_key dev) (approval_challenge request_id (sg_user_code row)) signature = Ok tt.

Lemma signed_by_device_Ok i j row sg refusal c u c' :
  signed_by_device verify_signature i j row sg refusal c = (Ok u, c') -> db c' = db c /\ device_signed (db c) i j row sg.
Proof.
  intros E. apply bind_Ok in E as (o & c1 & E1 & E). apply with_err_Ok, sql_Ok in E1. injection E1 as <- Ed.
  apply bind_Ok in E as (k & c2 & E1 & E). apply lift_Ok in E1 as [E1 ->]. apply ok_or_Ok in E1.
  apply assert_or_Ok in E as [Hv ->]. split; [done|].
  apply fmap_Some in E1 as (dev & Hd & ->). exists dev. split; [done|]. unfold verify_approval, is_ok in Hv.
  by destruct (verify_signature _ _ _) as [[]|].
Qed.

Lemma sole_account_Ok c o c' : sole_account c = (Ok o, c') ->
  db c' = db c /\ o = head (map summary_row (merge_sort created_did_le (scan_rows (map_to_list (do_accounts (db c)))))).
Proof.
  intros E. apply bind_Ok in E as (l & c1 & E1 & E). apply with_err_Ok, sql_Ok in E1.
  injection E1 as <- Ed. injection E as <- <-. done.
Qed.

(** C29: an approval that succeeds found the request pending and not expired, and
    its challenge signed by a device enrolled in this object; the request then
    is approved, with tokens that are the account's, and nothing else in the
    object changed: a poll hands out exactly that session.  Whatever statements
    fail, nobody is signed in without such a signature. *)
Theorem device_approve_sound `{!SqlScanLaws} d request_id device_id signature secret (c c' : DoStore)
    (Hok : device_approve verify_signature d request_id device_id signature secret c = (Ok tt, c')) :
  exists row did acct access refresh,
    signin_requests (db c) !! request_id = Some row /\ sg_status row = "pending" /\
    pd_now d <= as_u64 (sg_expires_at row) /\ device_signed (db c) request_id device_id row signature /\
    do_accounts (db c) !! did = Some acct /\
    worker_tokens did secret (pd_uuid d) (pd_now_access d) (pd_now_refresh d) = Ok (access, refresh) /\
    let handle := default EmptyString (ar_handle acct) in
    db c' = put_signins (<[request_id := MkSignin (sg_user_code row) (sg_client_name row) "approved" (Some did)
              (Some handle) (Some access) (Some refresh) (sg_created_at row) (sg_expires_at row)]>
              (signin_requests (db c))) (db c) /\
    forall now, faults c' = [] -> signin_poll request_id now c' =
      (Ok (MkSigninPolled "approved" (Some (Some did, Some handle, Some access, Some refresh))), c').
Proof.
  unfold device_approve in Hok. apply bind_Ok in Hok as (row & c1 & E & Hok).
  apply pending_signin_Ok in E as (Ed1 & Hrow & Hp).
  apply bind_Ok in Hok as (u & c2 & E & Hok). apply assert_or_Ok in E as [He ->].
  apply bind_Ok in Hok as (u2 & c3 & E & Hok). apply signed_by_device_Ok in E as [Ed2 Hsig].
  apply bind_Ok in Hok as (o & c4 & E & Hok). apply sole_account_Ok in E as [Ed3 Ho].
  apply bind_Ok in Hok as (a & c5 & E & Hok). apply lift_Ok in E as [E ->]. apply ok_or_Ok in E as ->.
  apply bind_Ok in Hok as ([access refresh] & c6 & E & Hok). apply lift_Ok in E as [Ht ->].
  apply with_err_Ok, sql_Ok in Hok. injection Hok as Hd. rewrite Ed1 in *. rewrite Ed2 in *. rewrite Ed3 in *.
  symmetry in Ho. apply head_Some_elem_of, list_elem_of_fmap in Ho as ([did acct] & -> & Hin).
  rewrite merge_sort_Permutation, scan_rows_perm in Hin. apply elem_of_map_to_list in Hin.
  cbn in Ht, Hd. unfold decide_signin in Hd. rewrite Hrow, Hp in Hd. cbn in Hd.
  exists row, did, acct, access, refresh. cbv zeta. split_and!; try done.
  - apply negb_true_iff, Z.ltb_ge in He. done.
  - intros now Hf. destruct c' as [d' fs]. cbn in Hf, Hd. subst fs. rewrite <- Hd.
    unfold signin_poll, w_store, get_signin, sql, bind, with_err, query, stmt, lift, ret. cbn.
    rewrite lookup_insert_eq. cbn. done.
Qed.

End Approval.
End Accounts.

(** ** Witnesses *)

#[export] Instance demo_scan_laws : SqlScanLaws (H := demo_sql_scan).
Proof. by split. Defined.

Definition demo_worker_row : AccountRow := MkAccountRow (Some "al.pds.test") None "phc:correct horse" "2026" None None.
Definition demo_worker_db : DoDb :=
  put_signins {[ "req" := MkSignin "ABCD-1234" "app" "pending" None None None None "2026" 2000 ]}
    (put_device_keys {[ "phone" := MkDeviceRow "did:key:zPhone" "phone" "2026" ]}
      (with_tables (put_accounts {[ "did:plc:al" := demo_worker_row ]} Tables_empty) DoDb_empty)).

Lemma worker_login_exact_witness :
  (exists r, fst (worker_create_session "AL.pds.test" "correct horse" "hmac" "uuid" 1000 (MkConn demo_worker_db [])) = Ok r /\
             sr_did r = "did:plc:al") /\
  fst (worker_create_session "al.pds.test" "correct" "hmac" "uuid" 1000 (MkConn demo_worker_db [])) = Err BAD_CREDENTIALS.
Proof.
  split; rewrite (worker_login_exact demo_worker_db "did:plc:al" demo_worker_row "al.pds.test") by (vm_compute; reflexivity).
  - eexists. split; vm_compute; reflexivity.
  - vm_compute. reflexivity.
Defined.

Lemma refresh_token_is_access_witness :
  bearer_did (Some demo_refresh_jwt) "hmac" 1000000 = Ok "did:a".
Proof.
  refine (proj1 (proj2 (refresh_token_is_access "did:a" "uuid" "hmac" 1000 demo_access_jwt demo_refresh_jwt 1000000 _ _ _)));
    [vm_compute; by split|reflexivity|reflexivity].
Defined.

(** A signature is the challenge, signed. *)
Definition demo_verify (key : string) (msg sig : bytes) : result string unit :=
  if String.eqb sig (key +:+ msg) then Ok tt else Err "bad signature".

Definition demo_approval : DoStore -> result WFail unit * DoStore :=
  device_approve demo_verify {| pd_now := 1000; pd_uuid := "uuid"; pd_now_access := 1000; pd_now_refresh := 1000 |}
    "req" "phone" ("did:key:zPhone" +:+ approval_challenge "req" "ABCD-1234") "hmac".

Lemma device_approve_sound_witness :
  exists a r, fst (signin_poll "req" 5000 (snd (demo_approval (MkConn demo_worker_db [])))) =
    Ok (MkSigninPolled "approved" (Some (Some "did:plc:al", Some "al.pds.test", a, r))).
Proof.
  destruct (demo_approval (MkConn demo_worker_db [])) as [x c'] eqn:E.
  assert (x = Ok tt) as -> by (apply (f_equal fst) in E; cbn [fst] in E; rewrite <- E; vm_compute; reflexivity).
  assert (faults c' = []) as Hf by (apply (f_equal snd) in E; cbn [snd] in E; rewrite <- E; vm_compute; reflexivity).
  destruct (device_approve_sound demo_verify _ _ _ _ _ _ _ E)
    as (row & did & acct & a & r & _ & _ & _ & _ & Hacct & _ & _ & Hpoll).
  exists (Some a), (Some r). cbn [snd]. rewrite (Hpoll 5000 Hf). cbn [fst].
  assert (do_accounts (db (MkConn demo_worker_db [])) = {["did:plc:al" := demo_worker_row]}) as Ha by reflexivity.
  rewrite Ha in Hacct. apply lookup_singleton_Some in Hacct as [<- <-]. reflexivity.
Defined.
