(* ===== verification/WorkerInv.v ===== *)
(** * The worker's objects: isolation and their one account

    A request to the object of one host touches no other object and not the
    registry; only provisioning and deletion touch the object's accounts.  So no
    object ever holds two accounts, whatever requests come and whatever
    statements and messages fail. *)

From Stdlib Require Import ZArith Lia Ascii.
From S2P Require Import Prelude RustStr Externals Demo StoreTypes MemoryStore MemoryProps OAuthCore Jose Client Session Repo.
From S2P Require Import KeyCrypto Identity Accounts EmbServer RepoWriter RepoRead RepoXrpc ServiceProxy.
From S2P Require Import Sql.
From S2P Require Import SqliteStore.
From S2P Require Import SqlProps.
From S2P Require Import DoStore.
From S2P Require Import SqliteProps.
From S2P Require Import DoProps.
From S2P Require Import Registry.
From S2P Require Import WorkerSeq.
From S2P Require Import WorkerAccounts.
From S2P Require Import WorkerRepo.
From S2P Require Import Durable.
From S2P Require Import Transport.
From S2P Require Import WorkerProps.

(** ** The handlers that leave the accounts alone *)

(** [quiet_with] goes through the statements of an operation, none of which is on
    the accounts. *)
Ltac quiet_with tac :=
  repeat first
    [ tac
    | apply conn_keeps_ret | apply conn_keeps_throw | apply conn_keeps_lift
    | apply conn_keeps_with_err | apply conn_keeps_catch
    | apply conn_keeps_bind; [|intros ?]
    | apply conn_keeps_stmt; intros ? ? ?; cbn;
      repeat (case_match; simplify_eq/=; try done); intros; by simplify_eq/=
    | progress unfold w_store, sql, exists_row, purge_table, assert_or, q_tables, x_tables, s_tables, query, execute
    | progress cbn beta iota zeta
    | progress case_match ].
Ltac quiet_auto := quiet_with fail.

Section Keeps.
Context `{Digests} `{Json} `{!JsonMore} `{Ecdsa} `{Jwt} `{Argon2} `{SqlScan}.
Context {Cid : Type} `{CidLib Cid} `{Countable Cid} `{CidText Cid}.
Context `{RepoSerde Cid} `{!Atrium Cid} `{!AtriumRead Cid} `{Keypairs} `{!KeypairIO} `{CarLib Cid} `{PlcLib}.
Context `{KeyCiphers} `{!Serde Value}.
Variable A : gmap string AccountRow.

Definition accounts_are (d : DoDb) : Prop := do_accounts d = A.
Abbreviation keeps_accounts m := (conn_keeps accounts_are m).

Lemma put_blocks_quiet (bs : list (Cid * bytes)) : keeps_accounts (put_blocks_loop bs).
Proof. induction bs as [|[c b] bs IH]; cbn [put_blocks_loop]; quiet_auto. apply IH. Qed.

Lemma do_commit_quiet (bs : list (Cid * bytes)) did root ev : keeps_accounts (do_commit_blocks bs did root ev).
Proof.
  unfold do_commit_blocks, increment_counter, read_counter, insert_numbered_event.
  apply conn_keeps_bind; [apply put_blocks_quiet|intros _]. quiet_auto.
Qed.

Abbreviation quiet_pair := (both (fun c : DoStore => accounts_are (db c))).

#[local] Instance quiet_sim : StoreSim Cid DoStore DoStore quiet_pair quiet_pair.
Proof.
  split; [done|..]; intros; apply rel_both.
  - assert (keeps_accounts (do_read_block_bytes c)) as Hk by (unfold do_read_block_bytes; quiet_auto). exact Hk.
  - assert (keeps_accounts (do_put_block c b)) as Hk by (unfold do_put_block; quiet_auto). exact Hk.
  - assert (keeps_accounts (do_load_repo_root (Cid := Cid) d)) as Hk by (unfold do_load_repo_root; quiet_auto). exact Hk.
  - apply do_commit_quiet.
Qed.

Lemma on_writer_quiet {B} what (m : SE (World (St := DoStore)) RepoError B) :
  rel (alongside quiet_pair) (alongside quiet_pair) m m ->
  keeps_accounts (on_writer what m).
Proof.
  intros Hm c Hc. unfold on_writer. destruct (Hm (c : DoStore, []) (c : DoStore, [])) as [_ [[_ Hk] _]]; [by repeat split|].
  revert Hk. by destruct (m _) as [r [c' pub]].
Qed.

Lemma on_reader_quiet {B} what (m : SE DoStore RepoError B) :
  rel quiet_pair quiet_pair m m ->
  keeps_accounts (on_reader what m).
Proof. intros Hm. apply conn_keeps_with_err. exact (proj1 (rel_both _ _) Hm). Qed.

(** Every handler of the object, but provisioning and deletion. *)
Ltac handler_quiet :=
  quiet_with ltac:(first
    [ apply on_writer_quiet; first [apply (commit_op_rel quiet_pair quiet_pair)|apply (apply_many_rel quiet_pair quiet_pair)]
    | apply on_reader_quiet; first
        [ apply (get_record_rel quiet_pair quiet_pair) | apply (list_records_rel quiet_pair quiet_pair)
        | apply (list_collections_rel quiet_pair quiet_pair) | apply (latest_commit_rel quiet_pair quiet_pair)
        | apply (export_car_rel quiet_pair quiet_pair) ]
    | progress unfold parse_body, repo_is, needs_collection, checked_rkey, needs_value, signing_keypair, writer_for,
        first_cid, sole_account, sole_account_did, pending_signin, signed_by_device, load_key, store_key ]).

Lemma signing_keypair_quiet what did pass : keeps_accounts (signing_keypair what did pass).
Proof. unfold signing_keypair, load_key. quiet_auto. Qed.

Variable did_parse : string -> result string unit.

Lemma create_record_quiet now now_ms st bearer secret pass body :
  keeps_accounts (worker_create_record did_parse now now_ms st bearer secret pass body).
Proof. unfold worker_create_record. handler_quiet. Qed.

Lemma write_preamble_quiet now bearer secret pass input : keeps_accounts (write_preamble now bearer secret pass input).
Proof. unfold write_preamble. handler_quiet. Qed.

Lemma put_record_quiet now st bearer secret pass body :
  keeps_accounts (worker_put_record did_parse now st bearer secret pass body).
Proof.
  unfold worker_put_record. apply conn_keeps_bind; [handler_quiet|intros input].
  apply conn_keeps_bind; [apply write_preamble_quiet|intros [[[did key] collection] rkey]]. handler_quiet.
Qed.

Lemma delete_record_quiet now st bearer secret pass body :
  keeps_accounts (worker_delete_record did_parse now st bearer secret pass body).
Proof.
  unfold worker_delete_record. apply conn_keeps_bind; [handler_quiet|intros input].
  apply conn_keeps_bind; [apply write_preamble_quiet|intros [[[did key] collection] rkey]]. handler_quiet.
Qed.

Lemma batch_entries_quiet now_ms n did writes : keeps_accounts (batch_entries now_ms n did writes).
Proof.
  revert n. induction writes as [|w writes IH]; intros n; cbn [batch_entries]; [apply conn_keeps_ret|].
  apply conn_keeps_bind; [unfold batch_entry; handler_quiet|intros x].
  apply conn_keeps_bind; [apply IH|intros xs]. apply conn_keeps_ret.
Qed.

Lemma apply_writes_quiet now now_ms st bearer secret pass body :
  keeps_accounts (worker_apply_writes did_parse now now_ms st bearer secret pass body).
Proof.
  unfold worker_apply_writes. do 4 (apply conn_keeps_bind; [handler_quiet|intros ?]).
  apply conn_keeps_bind; [handler_quiet|intros _]. apply conn_keeps_bind; [apply batch_entries_quiet|intros ?]. handler_quiet.
Qed.

(** The other handlers, one by one. *)
Ltac quiet_def t := unfold t; handler_quiet.

Lemma get_record_quiet collection rkey : keeps_accounts (worker_get_record collection rkey).
Proof. quiet_def @worker_get_record. Qed.
Lemma list_records_quiet collection limit cursor : keeps_accounts (worker_list_records collection limit cursor).
Proof. quiet_def @worker_list_records. Qed.
Lemma describe_repo_quiet ctx host : keeps_accounts (worker_describe_repo ctx host).
Proof. quiet_def @worker_describe_repo. Qed.
Lemma latest_commit_quiet : keeps_accounts worker_latest_commit.
Proof. quiet_def @worker_latest_commit. Qed.
Lemma get_repo_quiet : keeps_accounts worker_get_repo.
Proof. quiet_def @worker_get_repo. Qed.
Lemma get_blob_quiet cid : keeps_accounts (worker_get_blob cid).
Proof. unfold worker_get_blob, do_get_blob. handler_quiet. Qed.
Lemma list_blobs_quiet limit cursor : keeps_accounts (worker_list_blobs limit cursor).
Proof. unfold worker_list_blobs, do_list_blobs. handler_quiet. Qed.
Lemma upload_blob_quiet now bearer secret mime b : keeps_accounts (worker_upload_blob now bearer secret mime b).
Proof. unfold worker_upload_blob, store_blob, put_blob. cbn. unfold do_put_blob. handler_quiet. Qed.

Lemma atproto_did_quiet hostname : keeps_accounts (atproto_did hostname).
Proof. quiet_def @atproto_did. Qed.
Lemma resolve_handle_quiet handle : keeps_accounts (worker_resolve_handle handle).
Proof. quiet_def @worker_resolve_handle. Qed.
Lemma jwks_quiet fresh salt nonce pass : keeps_accounts (jwks fresh salt nonce pass).
Proof. unfold jwks, load_or_create_signing_key. handler_quiet. Qed.
Lemma device_register_quiet token now handle password key label :
  keeps_accounts (device_register token now handle password key label).
Proof. unfold device_register, register_device. handler_quiet. Qed.
Lemma signin_start_quiet sd name : keeps_accounts (signin_start sd name).
Proof. unfold signin_start, create_signin. handler_quiet. Qed.
Lemma signin_poll_quiet request_id now : keeps_accounts (signin_poll request_id now).
Proof. quiet_def @signin_poll. Qed.
Lemma signin_pending_quiet now : keeps_accounts (signin_pending now).
Proof. quiet_def @signin_pending. Qed.

Lemma decide_quiet i f : keeps_accounts (execute (decide_signin i f)).
Proof. apply conn_keeps_stmt. intros d u d' [= _ <-]. unfold decide_signin. by repeat case_match. Qed.

Lemma device_approve_quiet verify d request_id device_id sig secret :
  keeps_accounts (device_approve verify d request_id device_id sig secret).
Proof. unfold device_approve, approve_signin. handler_quiet. apply decide_quiet. Qed.
Lemma device_deny_quiet verify request_id device_id sig : keeps_accounts (device_deny verify request_id device_id sig).
Proof. unfold device_deny, deny_signin. handler_quiet. apply decide_quiet. Qed.

Lemma create_session_quiet identifier password secret uuid now :
  keeps_accounts (worker_create_session identifier password secret uuid now).
Proof. quiet_def @worker_create_session. Qed.
Lemma get_session_quiet bearer secret now : keeps_accounts (worker_get_session bearer secret now).
Proof. quiet_def @worker_get_session. Qed.
Lemma get_preferences_quiet bearer secret now : keeps_accounts (worker_get_preferences bearer secret now).
Proof. quiet_def @worker_get_preferences. Qed.
Lemma put_preferences_quiet bearer secret now body : keeps_accounts (worker_put_preferences bearer secret now body).
Proof. unfold worker_put_preferences, do_upsert_preferences. handler_quiet. Qed.
Lemma proxy_token_quiet now mint rand bearer secret pass target nsid :
  keeps_accounts (proxy_token now mint rand bearer secret pass target nsid).
Proof. unfold proxy_token. handler_quiet. Qed.

End Keeps.

Create HintDb quiet.
#[export] Hint Resolve create_record_quiet put_record_quiet delete_record_quiet apply_writes_quiet get_record_quiet
  list_records_quiet describe_repo_quiet latest_commit_quiet get_repo_quiet get_blob_quiet list_blobs_quiet
  upload_blob_quiet atproto_did_quiet resolve_handle_quiet jwks_quiet device_register_quiet signin_start_quiet
  signin_poll_quiet signin_pending_quiet device_approve_quiet device_deny_quiet create_session_quiet
  get_session_quiet get_preferences_quiet put_preferences_quiet proxy_token_quiet : quiet.

(** ** Provisioning and deletion *)

Definition one_account (d : DoDb) : Prop := (size (do_accounts d) <= 1)%nat.
Definition no_account (d : DoDb) : Prop := do_accounts d = ∅.

Lemma no_one d : no_account d -> one_account d.
Proof. unfold no_account, one_account. intros ->. rewrite map_size_empty. lia. Qed.

(** A property of the object's database while the ledger is at hand. *)
Abbreviation pv I := (fun x : DoStore * PlcPosts => I (db (fst x))).

Section OneAccount.
Context `{Digests} `{Jwt} `{Argon2} `{KeyCiphers} `{KeypairIO} `{PlcLib} `{SqlScan}.

(** What keeps every table of accounts keeps the number of accounts. *)
Lemma quiet_one {E B} (m : SE DoStore E B) : (forall A, conn_keeps (accounts_are A) m) -> conn_keeps one_account m.
Proof. intros Hm c Hc. unfold one_account. by rewrite (Hm (do_accounts (db c)) c eq_refl). Qed.

Lemma store_key_quiet A salt nonce id pt pass : conn_keeps (accounts_are A) (store_key (St := DoStore) salt nonce id pt pass).
Proof.
  unfold store_key. apply conn_keeps_bind; [apply conn_keeps_lift|intros b].
  apply conn_keeps_with_err, conn_keeps_stmt. by intros d u d' [= _ <-].
Qed.

(** [leads I J m]: from [I], wherever [m] stops, [J] holds. *)
Definition leads {S} (I J : S -> Prop) {E B} (m : SE S E B) : Prop := forall s, I s -> J (snd (m s)).

Lemma leads_bind {S} (I J : S -> Prop) {E B C} (m : SE S E B) (k : B -> SE S E C) :
  (forall s, I s -> J s) -> leads I I m -> (forall b, leads I J (k b)) -> leads I J (bind m k).
Proof.
  intros HIJ Hm Hk s Hs. specialize (Hm s Hs). unfold bind. destruct (m s) as [[b|e] s1]; [by apply Hk|by apply HIJ].
Qed.

Lemma leads_after {S} (I J : S -> Prop) {E B C} (m : SE S E B) (k : B -> SE S E C) :
  leads I J m -> (forall b, leads J J (k b)) -> leads I J (bind m k).
Proof. intros Hm Hk s Hs. specialize (Hm s Hs). unfold bind. destruct (m s) as [[b|e] s1]; [by apply Hk|done]. Qed.

Abbreviation none := (fun c : DoStore => no_account (db c)).
Abbreviation at_most_one := (fun c : DoStore => one_account (db c)).

Lemma read_none {B} (f : Tables -> B) : leads none none (sql (q_tables f)).
Proof.
  assert (conn_keeps no_account (sql (q_tables f))) as Hk; [|exact Hk].
  apply conn_keeps_with_err, conn_keeps_stmt. by intros d a d' [= _ <-].
Qed.

Lemma insert_one did handle email phc now : leads none at_most_one (do_count_and_insert_account did handle email phc now).
Proof.
  assert (forall f, leads none none (exists_row f)) as Hx.
  { intros f. unfold exists_row. apply leads_bind; [done|apply read_none|by intros n s]. }
  assert (forall s, none s -> at_most_one s) as Hn by (intros s; apply no_one).
  unfold do_count_and_insert_account, do_insert_account.
  apply leads_bind; [exact Hn|apply read_none|intros n]. apply leads_after; [|by intros u s].
  apply leads_bind; [exact Hn|apply Hx|intros b]. destruct b; [intros s; apply no_one|].
  apply leads_bind; [exact Hn|apply Hx|intros b]. destruct b; [intros s; apply no_one|].
  intros c Hc. destruct (sql (insert_account_row did handle email phc now) c) as [r c'] eqn:E. cbn [snd].
  apply sql_stmt_cases in E as [(e & _ & ->)|(u & E & _)]; [by apply no_one|].
  unfold no_account, do_accounts in Hc. cbn in E. rewrite Hc, lookup_empty in E.
  destruct (rows_by_handle handle _); [|done]. cbn in E. injection E as _ E. rewrite <- E.
  unfold one_account, do_accounts. cbn. rewrite insert_empty, map_size_singleton. lia.
Qed.

Lemma pv_store_leads I J {B} what (m : op DoStore B) :
  leads (fun c => I (db c)) (fun c => J (db c)) m -> leads (pv I) (pv J) (pv_store (w_store what m)).
Proof.
  intros Hm [s posts] Hs. specialize (Hm s Hs). unfold pv_store, w_store, with_err.
  by destruct (m s) as [[b|e] s'].
Qed.

Lemma pv_plc_leads I {B} (m : SE PlcPosts CoreError B) : leads (pv I) (pv I) (pv_plc m).
Proof. intros [s posts] Hs. unfold pv_plc. by destruct (m posts). Qed.

(** Provisioning counts first, and the object runs one task at a time. *)
Lemma provision_one plc d ctx handle email password pass secret :
  leads (pv one_account) (pv one_account) (provision_account plc d ctx handle email password pass secret).
Proof.
  unfold provision_account. case_match; [by intros x|]. intros [s posts] Hs. unfold bind at 1.
  pose proof (pv_store_leads (accounts_are (do_accounts (db s))) (accounts_are (do_accounts (db s))) "count accounts" do_count_accounts) as Hc.
  specialize (Hc ltac:(intros c; apply (conn_keeps_with_err _ sql_err); apply conn_keeps_stmt; by intros ? ? ? [= _ <-]) (s, posts) eq_refl).
  destruct (pv_store (w_store "count accounts" do_count_accounts) (s, posts)) as [[n|e] [s1 posts1]] eqn:E; cbn [snd fst] in Hc |- *;
    [|unfold one_account; by rewrite Hc].
  apply pv_store_Ok in E as (s2 & E & [= <- <-]). apply do_count_Ok in E as [-> _].
  destruct (Z.ltb_spec 0 (Z.of_nat (size (do_accounts (db s))))) as [|Hn]; [cbn; unfold one_account; by rewrite Hc|].
  assert (no_account (db s1)) as Hno by (unfold no_account; rewrite Hc; apply map_size_empty_inv; lia).
  assert (forall x, pv no_account x -> pv one_account x) as Hw by (intros x; apply no_one).
  match goal with |- one_account (db (fst (snd (?m _)))) => enough (leads (pv no_account) (pv one_account) m) as Hm; [exact (Hm (s1, _) Hno)|] end.
  apply leads_bind; [exact Hw|apply pv_plc_leads|intros [did|e]]; [|intros x; apply Hw].
  apply leads_bind; [exact Hw|by intros x|intros phc].
  apply leads_after; [apply (pv_store_leads no_account one_account), insert_one|intros u].
  apply leads_bind; [done|apply (pv_store_leads one_account one_account), quiet_one; intros A; apply store_key_quiet|intros u'].
  apply leads_bind; [done|apply (pv_store_leads one_account one_account), quiet_one; intros A; apply store_key_quiet|intros u''].
  apply leads_bind; [done|by intros x|by intros t x].
Qed.

Lemma delete_one : leads at_most_one at_most_one worker_delete_account.
Proof.
  assert (conn_keeps one_account worker_delete_account) as Hk; [|exact Hk].
  assert (forall (f : DoDb -> DoDb), (forall d, (size (do_accounts (f d)) <= size (do_accounts d))%nat) ->
    conn_keeps one_account (sql (execute f))) as Hx.
  { intros f Hf. apply conn_keeps_with_err, conn_keeps_stmt. intros d u d' [= _ <-] Hd. unfold one_account in *. specialize (Hf d). lia. }
  unfold worker_delete_account. apply conn_keeps_bind.
  - unfold sole_account. apply conn_keeps_bind; [|intros l; apply conn_keeps_ret].
    apply conn_keeps_with_err, conn_keeps_with_err, conn_keeps_stmt. by intros d l d' [= _ <-].
  - intros [a|]; [|apply conn_keeps_ret]. apply conn_keeps_bind; [|intros u; apply conn_keeps_ret].
    apply conn_keeps_with_err. unfold delete_account_data.
    repeat (apply conn_keeps_bind; [|intros ?]); try apply conn_keeps_ret; apply Hx; try done.
    intros d. unfold do_accounts. cbn. rewrite map_size_delete. by destruct (t_accounts _ !! _); [apply Nat.le_pred_l|].
Qed.

End OneAccount.

(** ** The object among the others *)

Section Isolation.
Context `{Digests} `{Json} `{!JsonMore} `{Ecdsa} `{Jwt} `{Argon2} `{SqlScan} `{Base64}.
Context {Cid : Type} `{CidLib Cid} `{Countable Cid} `{CidText Cid}.
Context `{RepoSerde Cid} `{!Atrium Cid} `{!AtriumRead Cid} `{Keypairs} `{!KeypairIO} `{CarLib Cid} `{PlcLib}.
Context `{KeyCiphers} `{!Serde Value}.
Context `{!Serde ProvisionInput} `{!Serde CreateSessionInput} `{!Serde DeviceRegisterInput}.
Context `{!Serde SigninStartInput} `{!Serde DeviceDecisionInput}.
Variable did_parse : string -> result string unit.
Variable verify_signature : string -> bytes -> bytes -> result string unit.
Variable plc_answer : string -> PlcGenesisOpSigned -> result CoreError unit.
Variable fetch_answer : Fetched -> result string FetchAnswer.
Variable env : Env.
Variable host : string.

(** Only the object of [host] has changed, and the sequencer. *)
Definition elsewhere (w w' : Deployment) : Prop :=
  dp_registry w' = dp_registry w /\ forall h, h <> host -> object_of h w' = object_of h w.

(** [m] runs inside the object of [host], whose database stays in [I]. *)
Definition inside (I : DoDb -> Prop) {B} (m : SE Deployment WFail B) : Prop :=
  forall w, elsewhere w (snd (m w)) /\ (I (db (object_of host w)) -> I (db (object_of host (snd (m w))))).

Lemma elsewhere_refl w : elsewhere w w.
Proof. done. Qed.
Lemma elsewhere_trans w1 w2 w3 : elsewhere w1 w2 -> elsewhere w2 w3 -> elsewhere w1 w3.
Proof. intros [R1 O1] [R2 O2]. split; [congruence|]. intros h Hh. by rewrite O2, O1. Qed.

Lemma inside_bind I {B C} (m : SE Deployment WFail B) (k : B -> SE Deployment WFail C) :
  inside I m -> (forall b, inside I (k b)) -> inside I (bind m k).
Proof.
  intros Hm Hk w. destruct (Hm w) as [He Hi]. unfold bind. destruct (m w) as [[b|e] w1]; [|by split].
  destruct (Hk b w1) as [He' Hi']. split; [by eapply elsewhere_trans|auto].
Qed.
Lemma inside_ret I {B} (b : B) : inside I (ret b).
Proof. by intros w. Qed.
Lemma inside_throw I {B} e : inside I (throw (A := B) e).
Proof. by intros w. Qed.
Lemma inside_lift I {B} (r : result WFail B) : inside I (lift r).
Proof. by intros w. Qed.

Lemma object_put_same s w : object_of host (put_object host s w) = s.
Proof. unfold object_of, put_object. cbn. by rewrite lookup_insert_eq. Qed.
Lemma elsewhere_put s w : elsewhere w (put_object host s w).
Proof. split; [done|]. intros h Hh. unfold object_of, put_object. cbn. by rewrite lookup_insert_ne. Qed.

Lemma inside_object I {B} (m : SE DoStore WFail B) : conn_keeps I m -> inside I (on_object host m).
Proof.
  intros Hm w. unfold on_object. specialize (Hm (object_of host w)). destruct (m _) as [r s]. cbn [snd] in *.
  split; [apply elsewhere_put|]. by rewrite object_put_same.
Qed.

Lemma inside_provision I {B} (m : PV B) : leads (pv I) (pv I) m -> inside I (on_provision host m).
Proof.
  intros Hm w. unfold on_provision. specialize (Hm (object_of host w, dp_posts w)). cbn [fst] in Hm.
  destruct (m _) as [r [s posts]]. cbn [snd fst] in *. split; [exact (elsewhere_put s w)|].
  intros Hi. change (I (db (object_of host (put_object host s w)))). rewrite object_put_same. auto.
Qed.

Lemma inside_sequencer I (q : SeqDraw) (body : CommitBody Cid) records : inside I (enqueue_commit q body records).
Proof.
  intros w. unfold enqueue_commit, call_sequencer, call_stub, bind, catch.
  destruct (dp_net w) as [|[]]; cbn; repeat case_match; simplify_eq/=; by split.
Qed.

Lemma inside_fetch I url token : inside I (fetch_out fetch_answer url token).
Proof. by intros w. Qed.

Variable d : ObjDraw.

Section Quiet.
Variable A : gmap string AccountRow.
Abbreviation calm m := (inside (accounts_are A) m).

Lemma open_store_calm : calm (open_store host).
Proof. apply inside_object, conn_keeps_with_err, conn_keeps_with_err, conn_keeps_stmt. by intros s u s' [= _ <-]. Qed.

Lemma with_store_calm {B} (m : SE DoStore WFail B) : conn_keeps (accounts_are A) m -> calm (with_store host m).
Proof. intros Hm. apply inside_bind; [apply open_store_calm|intros _]. by apply inside_object. Qed.

Lemma health_calm : calm (health host).
Proof.
  assert (conn_keeps (accounts_are A) (do_put_block (cid_of (Cid := Cid) 0x71 HEALTH_PROBE) HEALTH_PROBE) /\
          conn_keeps (accounts_are A) (do_read_block_bytes (cid_of (Cid := Cid) 0x71 HEALTH_PROBE)) /\
          conn_keeps (accounts_are A) do_max_seq /\
          (forall a b c n e, conn_keeps (accounts_are A) (do_put_blob a b c n e)) /\
          (forall a b, conn_keeps (accounts_are A) (do_get_blob a b))) as (K1 & K2 & K3 & K4 & K5).
  { unfold do_put_block, do_read_block_bytes, do_max_seq, do_put_blob, do_get_blob. split_and!; intros; quiet_with fail. }
  unfold health. cbv zeta. apply inside_bind; [apply open_store_calm|intros _].
  apply inside_bind; [by apply inside_object, conn_keeps_catch|intros put].
  apply inside_bind.
  { destruct put; [|apply inside_ret]. apply inside_bind; [by apply inside_object, conn_keeps_catch|intros got; apply inside_ret]. }
  intros sql_check. apply inside_bind; [by apply inside_object, conn_keeps_catch|intros seq].
  apply inside_bind; [apply inside_object, conn_keeps_catch, K4|intros put'].
  apply inside_bind; [|intros r2_ok; apply inside_ret].
  destruct put'; [|apply inside_ret]. apply inside_bind; [apply inside_object, conn_keeps_catch, K5|intros got; apply inside_ret].
Qed.

(** [calm_auto] goes through an arm of the route. *)
Ltac calm_auto :=
  repeat first
    [ apply inside_sequencer | apply open_store_calm | apply health_calm
    | apply inside_bind; [|intros ?]
    | apply inside_ret | apply inside_throw | apply inside_lift | apply inside_fetch
    | apply with_store_calm | apply inside_object
    | solve [eauto with quiet nocore]
    | progress unfold sequenced, parse_json, decode_b64, object_proxy, proxy_own_appview, proxy_appview
    | progress cbn beta iota zeta | progress case_match ].

(** The arms of one of the three tables. *)
Ltac arms := repeat (case_match; [intros [= <-]; calm_auto|]); try done.

Lemma identity_calm path req m :
  route_identity verify_signature env host d path req = Some m -> calm m.
Proof. unfold route_identity. arms. Qed.

Lemma reads_calm path req m : route_reads env host path req = Some m -> calm m.
Proof. unfold route_reads. arms. Qed.

(** The internal arms that touch the accounts. *)
Definition account_arm (path : string) : bool :=
  String.eqb path "/_stelyph/provision" || String.eqb path "/_stelyph/delete-account".

Lemma accounts_calm path req m : account_arm path = false ->
  route_accounts did_parse plc_answer fetch_answer env host d path req = Some m -> calm m.
Proof.
  unfold account_arm. intros [Hp Hd]%orb_false_iff. unfold route_accounts. rewrite Hp, Hd. cbv zeta. arms.
Qed.

End Quiet.

(** ** One request, and any number *)

Lemma object_route_calm A req : account_arm (oq_path req) = false ->
  inside (accounts_are A) (object_route did_parse verify_signature plc_answer fetch_answer env host d req).
Proof.
  intros Hp. unfold object_route. destruct (route_identity _ _ _ _ _) eqn:E1; [by eapply identity_calm|].
  destruct (route_reads _ _ _ _) eqn:E2; [by eapply reads_calm|].
  destruct (route_accounts _ _ _ _ _ _ _ _) eqn:E3; [by eapply accounts_calm|]. apply inside_throw.
Qed.

Lemma inside_one {B} (m : SE Deployment WFail B) : (forall A, inside (accounts_are A) m) -> inside one_account m.
Proof.
  intros Hm w. destruct (Hm (do_accounts (db (object_of host w))) w) as [He Hi]. split; [done|].
  unfold one_account. by rewrite (Hi eq_refl).
Qed.

Lemma object_provision_one input : inside one_account (object_provision plc_answer env host d input).
Proof.
  unfold object_provision. apply inside_bind; [apply inside_one; intros A; apply open_store_calm|intros _].
  apply inside_bind; [apply inside_lift|intros pass]. apply inside_bind; [apply inside_lift|intros secret].
  apply inside_bind; [apply inside_provision, provision_one|intros o]. apply inside_ret.
Qed.

Lemma object_delete_one : inside one_account (object_delete host).
Proof.
  unfold object_delete, with_store. apply inside_bind; [|intros o; apply inside_ret].
  apply inside_bind; [apply inside_one; intros A; apply open_store_calm|intros _]. apply inside_object, delete_one.
Qed.

Lemma object_route_one req :
  inside one_account (object_route did_parse verify_signature plc_answer fetch_answer env host d req).
Proof.
  destruct (account_arm (oq_path req)) eqn:Hp; [|apply inside_one; intros A; by apply object_route_calm].
  unfold object_route. destruct req as [path query raw auth ct body]. cbn in Hp |- *.
  apply orb_true_iff in Hp as [->%String.eqb_eq| ->%String.eqb_eq]; cbn.
  - apply inside_bind; [apply inside_lift|intros input]. apply object_provision_one.
  - apply object_delete_one.
Qed.

End Isolation.
