(* ===== verification/WorkerDemo.v ===== *)
(** * A concrete deployment of the worker

    The messages as members of a JSON text, an environment, and requests: the
    deployment of [WorkerFront] runs on them. *)

From Stdlib Require Import ZArith Lia Ascii.
From S2P Require Import Prelude RustStr Externals Demo StoreTypes MemoryStore OAuthCore Jose Client Session Repo RepoDemo.
From S2P Require Import KeyCrypto Identity Accounts AccountProps Utf8 EmbServer EmbRepo EmbDemo RepoWriter RepoRead RepoXrpc.
From S2P Require Import Sql.
From S2P Require Import SqliteStore.
From S2P Require Import SqliteProps.
From S2P Require Import DoStore.
From S2P Require Import Registry.
From S2P Require Import WorkerSeq.
From S2P Require Import WorkerAccounts.
From S2P Require Import WorkerRepo.
From S2P Require Import Durable.
From S2P Require Import WorkerFront.

(** A member of a message, required or not. *)
Definition member (k : string) (b : bytes) : result string string := ok_or (text_get k b ≫= text_str) ("missing " +:+ k).
Definition opt_member (k : string) (b : bytes) : option string := text_get k b ≫= text_str.

(** A message that is only read here. *)
Definition read_only {T} (f : bytes -> result string T) : Serde T := {| to_vec _ := Err "unused"; from_slice := f |}.

#[export] Instance demo_base64_lib : Base64 := { b64_encode s := s; b64_decode s := Some s }.
#[export] Instance demo_provision_serde : Serde ProvisionInput := read_only (fun b =>
  let? h := member "handle" b in let? p := member "password" b in Ok (MkProvisionInput h (opt_member "email" b) p)).
#[export] Instance demo_login_serde : Serde CreateSessionInput := read_only (fun b =>
  let? i := member "identifier" b in let? p := member "password" b in Ok {| cs_identifier := i; cs_password := p |}).
#[export] Instance demo_device_serde : Serde DeviceRegisterInput := read_only (fun b =>
  let? h := member "handle" b in let? p := member "password" b in
  let? k := member "deviceDidKey" b in let? l := member "label" b in
  Ok {| dr_handle := h; dr_password := p; dr_device_did_key := k; dr_label := l |}).
#[export] Instance demo_start_serde : Serde SigninStartInput := read_only (fun b =>
  let? c := member "clientName" b in Ok {| si_client_name := c |}).
#[export] Instance demo_decision_serde : Serde DeviceDecisionInput := read_only (fun b =>
  let? r := member "requestId" b in let? i := member "deviceId" b in let? s := member "signature" b in
  Ok {| dd_request_id := r; dd_device_id := i; dd_signature := s |}).
#[export] Instance demo_mint_serde : Serde MintInviteReq := read_only (fun b =>
  let? c := member "code" b in Ok {| mi_code := c; mi_uses := 1 |}).
#[export] Instance demo_delete_serde : Serde DeleteAccountReq := read_only (fun b =>
  let? h := member "handle" b in Ok {| da_handle := h |}).
#[export] Instance demo_check_serde : Serde CheckInput := read_only (fun b =>
  let? l := member "label" b in Ok {| ci_label := l |}).
#[export] Instance demo_register_serde : Serde RegisterInput := read_only (fun b =>
  let? h := member "handle" b in
  Ok {| ri_handle := h; ri_email := opt_member "email" b; ri_password := opt_member "password" b;
        ri_invite_code := opt_member "inviteCode" b |}).

Definition demo_env : Env := {|
  en_jwt_secret := Some "hmac"; en_key_passphrase := Some "pass"; en_admin_token := Some "root";
  en_zone_suffix := Some "pds.test"; en_signup_host := None; en_open_registration := Some "true";
  en_appview_url := None; en_appview_did := None |}.

Definition demo_seq_draw : SeqDraw := {| qd_now := "2026"; qd_queue := None |}.
Definition demo_obj_draw : ObjDraw := {|
  od_now := 1000; od_now_ms _ := 1000000;
  od_stamps := {| rev_create := "rev0"; rev_now := "rev1"; time_now := "2026" |};
  od_account := demo_draw "ka";
  od_signin := {| gd_token := "tok"; gd_letters := [0; 1; 2; 3]%nat; gd_digits := [1; 2; 3; 4]%nat;
                  gd_now := 1000; gd_now' := 1000; gd_created_at := "2026" |};
  od_approve := {| pd_now := 1000; pd_uuid := "uuid"; pd_now_access := 1000; pd_now_refresh := 1000 |};
  od_token := "tok"; od_created_at := "2026"; od_uuid := "uuid";
  od_fresh_key := "fresh" : P256Key; od_salt := "0123456789abcdef"; od_nonce := "0123456789ab";
  od_now_mint := 1000; od_rand := 7; od_seq := demo_seq_draw |}.
Definition demo_front_draw : FrontDraw := {| fd_now := "2026"; fd_obj := demo_obj_draw |}.

Definition demo_parts (path : string) : string * list (string * string) * option string :=
  (before_char "?" path, [], None).
Definition demo_did_parse (did : string) : result string unit := Ok tt.
Definition demo_fetch (f : Fetched) : result string FetchAnswer := Err "offline".
Definition demo_enqueue (v : Value) : result string EnqueueReq := Err "unused".
Definition demo_verify_none (key : string) (msg sig : bytes) : result string unit := Err "unused".

Definition demo_post (path : string) (body : list (string * string)) : FrontReq := {|
  fq_method := "POST"; fq_host := Some "PDS.test:443"; fq_path_and_query := path; fq_admin := None;
  fq_authorization := None; fq_content_type := Some "application/json"; fq_request_headers := None;
  fq_body := [Ok (text_body body)] |}.

(** Nothing has happened yet. *)
Definition demo_deployment (net : list Delivery) : Deployment :=
  MkDeployment (MkConn RegistryDb_empty []) ∅ (MkSequencerObject (MkConn SequencerDb_empty []) [] []) [] [] net.

Definition demo_signup : list (string * string) :=
  [("handle", "Al.pds.test"); ("password", "correct horse")].
