(* ===== verification/WorkerRepoProps.v ===== *)
(** * The worker's account object: its repository

    While no statement fails, the object's store and the in-memory one are in
    step ([Transport]), so what the writer does over memory it does here: a
    write of the object is one signed commit, numbered and logged, or leaves the
    repository as it was, and a record written is the record read. *)

From Stdlib Require Import ZArith Lia Ascii.
From S2P Require Import Prelude RustStr Externals Demo StoreTypes MemoryStore MemoryProps RepoUtil OAuthCore Jose Client.
From S2P Require Import Session Repo RepoDemo KeyCrypto Identity Accounts AccountProps EmbServer RepoWriter RepoProps RepoRead RepoXrpc.
From S2P Require Import RepoXrpcProps EmbDemo.
From S2P Require Import Sql.
From S2P Require Import SqliteStore.
From S2P Require Import Conformance.
From S2P Require Import SqlProps.
From S2P Require Import SqliteProps.
From S2P Require Import DoStore.
From S2P Require Import DoProps.
From S2P Require Import WorkerAccounts.
From S2P Require Import WorkerRepo.
From S2P Require Import Transport.
From S2P Require Import WorkerProps.
From S2P Require Import WorkerInv.

Section InStep.
Context `{Digests} {Cid : Type} `{CidLib Cid} `{Countable Cid} `{!CidText Cid} `{!CidTextLaws Cid} `{!SqlScan}.
Context `{RepoSerde Cid} `{!Atrium Cid} `{!AtriumRead Cid} `{Keypairs} `{CarLib Cid}.
Context `{!CidLaws Cid} `{!RepoSerdeLaws Cid} `{!KeypairLaws} `{!AtriumLaws Cid} `{!AtriumReadLaws Cid}.
Implicit Types (c : DoStore) (g : Inner Cid) (m : gmap string Cid).

(** ** The object in step with memory *)

Definition in_step c g : Prop := faults c = [] /\ do_sim (db c) g.

(** ... with a number left. *)
Definition room c g : Prop := in_step c g /\ next_seq g < i64_max.

Lemma agrees_rel {A} (m : op DoStore A) (n : op (Inner Cid) A) :
  agrees m n -> (forall g, next_seq (snd (n g)) = next_seq g) -> rel room room m n.
Proof.
  intros Hm Hn [d f] g [[Hf Hd] Hr]. cbn in Hf, Hd. subst f. destruct (Hm d g Hd) as (d' & -> & Hd').
  split; [done|]. split; [by split|by rewrite Hn].
Qed.

#[export] Instance object_sim : StoreSim Cid DoStore (Inner Cid) room in_step.
Proof.
  split.
  - by intros c g [].
  - intros cid. apply agrees_rel; [apply do_read_block_bytes_agrees|done].
  - intros cid b. apply agrees_rel; [apply do_put_block_agrees|done].
  - intros did. apply agrees_rel; [apply do_load_repo_root_agrees|done].
  - intros bs did root ev [d f] g [[Hf Hd] Hr]. cbn in Hf, Hd. subst f.
    destruct (do_commit_blocks_agrees bs did root ev d g Hd Hr) as (d' & E & Hd').
    cbn -[do_commit_blocks mem_commit_blocks]. by rewrite E.
Qed.

(** The object stores a repository of [did], signed by [k], with the records
    [m]: what it holds is what an in-memory store would hold. *)
Definition object_repo (k : Keypair) (did : string) m c : Prop :=
  exists g, in_step c g /\ addressed (blocks g) /\ current (blocks g) k did (repo_roots g !! did) m.

(** The sequence counter, and that it has a number left. *)
Definition repo_counter c : Z := default 0 (seq_counter (db c)).
Definition numbers_left c : Prop := repo_counter c < i64_max.

Lemma in_step_counter c g : in_step c g -> repo_counter c = next_seq g.
Proof. intros [_ Hd]. unfold repo_counter. by rewrite (ds_counter _ _ Hd). Qed.

Definition event_log c : list (Z * bytes) := map (fun r => (ev_seq r, ev_event r)) (t_repo_seq (do_tables (db c))).

Lemma in_step_log c g : in_step c g -> event_log c = map (fun r => (seq_no r, event r)) (repo_seq g).
Proof.
  intros [_ Hd]. pose proof (f_equal (map fst) (sim_log _ _ (ds_sim _ _ Hd))) as E. rewrite !map_map in E. exact E.
Qed.

(** One commit of [ops] on top of what was there: one log row under the next
    number, the root of the account the new commit. *)
Definition one_commit (did : string) (ops : list (RepoOp Cid)) (body : CommitBody Cid) c c' : Prop :=
  cb_repo body = did /\ cb_ops body = ops /\ cb_seq body = repo_counter c + 1 /\ repo_counter c' = repo_counter c + 1 /\
  t_repo_roots (do_tables (db c')) !! did = Some (cid_to_string (cb_commit body)) /\
  exists ev, to_vec (with_seq 0 body) = Ok ev /\ event_log c' = event_log c ++ [(repo_counter c + 1, ev)].

(** The record of an operation, as a block of the object. *)
Definition record_stored (o : WriteOp) (rc : option Cid) c : Prop :=
  match o with
  | WCreate _ v | WUpdate _ v =>
      exists cid blk, rc = Some cid /\ to_vec v = Ok blk /\ t_blocks (do_tables (db c)) !! cid_to_string cid = Some blk
  | WDelete _ => rc = None
  end.

(** ** Writes *)

Lemma on_writer_mem {A} what (m : SE (World (St := DoStore)) RepoError A) n c g r c' :
  rel (alongside room) (alongside in_step) m n -> room c g -> on_writer what m c = (r, c') ->
  exists r0 g' pub, n (g, []) = (r0, (g', pub)) /\ r = fault what repo_error_to_string r0 /\ in_step c' g'.
Proof.
  intros Hm Hc. unfold on_writer. destruct (Hm (c, []) (g, [])) as [Hr [Hs _]]; [by split|].
  destruct (m (c, [])) as [r1 [c1 pub1]], (n (g, [])) as [r0 [g' pub]]. cbn in Hr, Hs. subst r1.
  intros [= <- <-]. by exists r0, g', pub.
Qed.

Lemma committed_object (self : Writer) st c c' g g' pub m m' ops body l :
  room c g -> in_step c' g' -> RepoProps.committed self st (g, []) (g', pub) m m' ops Never body l ->
  object_repo (signing_key self) (did self) m' c' /\ one_commit (did self) ops body c c'.
Proof.
  intros [Hc Hroom] Hc' (_ & Ha & (prev & rev0 & ev & _ & Hat & _ & Hev & Hv) & Hseq & Hdid & _ & Hops & _).
  unfold wblocks, wview in *. cbn [fst snd] in *. injection Hv as Hroots Hlog Hnext.
  pose proof (in_step_counter _ _ Hc) as Hn. pose proof (in_step_counter _ _ Hc') as Hn'.
  assert (i64_add (next_seq g) 1 = next_seq g + 1) as Hi.
  { rewrite <- (sim_next _ _ (ds_sim _ _ (proj2 Hc))) in Hroom |- *. by apply last_seq_next. }
  split; [|unfold one_commit; rewrite Hn, Hn', <- Hi; split_and!; try done].
  - exists g'. split_and!; try done. rewrite Hroots, lookup_insert_eq. by exists (rev_now st), (Some prev).
  - pose proof (sim_roots _ _ (ds_sim _ _ (proj2 Hc'))) as E. cbn in E.
    by rewrite E, Hroots, lookup_fmap, lookup_insert_eq.
  - exists ev. split; [done|]. by rewrite (in_step_log _ _ Hc), (in_step_log _ _ Hc'), Hlog.
Qed.

(** A write that failed may have stored blocks, and nothing else. *)
Lemma failed_object k did m c' g g' pub :
  addressed (blocks g) -> current (blocks g) k did (repo_roots g !! did) m ->
  grows (g, []) (g', pub) -> in_step c' g' -> object_repo k did m c' /\ repo_counter c' = next_seq g /\
  event_log c' = map (fun r => (seq_no r, event r)) (repo_seq g).
Proof.
  intros Ha Hcur (_ & Hv & Hs & Ha') Hc'. unfold wblocks, wview in *. cbn [fst] in *. injection Hv as Hroots Hlog Hnext.
  rewrite (in_step_counter _ _ Hc'), (in_step_log _ _ Hc'). split_and!; [|done..].
  exists g'. split_and!; [done|by apply Ha'|]. rewrite Hroots.
  destruct (repo_roots g !! did) as [root|]; [|done]. destruct Hcur as (rev & prev & Hc). exists rev, prev.
  by eapply commit_at_mono.
Qed.

Lemma stored_object c g tr o rc : in_step c g -> op_stored (blocks g) tr o rc -> record_stored o rc c.
Proof.
  intros [_ Hg] Hst. destruct o; cbn in *; [..|done]; destruct Hst as (cid & blk & ? & _ & ? & Hb);
    exists cid, blk; split_and!; try done; by rewrite <- (sim_blocks _ _ (ds_sim _ _ Hg)) in Hb.
Qed.

(** A write of the object: one commit, or no change of its repository. *)
Lemma write_effect what k did st o c r c' m :
  object_repo k did m c -> numbers_left c ->
  on_writer what (apply_one_parts (MkWriter k did) st o) c = (r, c') ->
  match r with
  | Ok x => let rc := wo_record_cid (fst x) in
      object_repo k did (op_records o rc m) c' /\ record_stored o rc c' /\ (wo_action (fst x), wo_key (fst x)) = op_label o /\
      one_commit did [MkRepoOp (wo_action (fst x)) (wo_key (fst x)) rc] (snd x) c c'
  | Err _ => object_repo k did m c' /\ repo_counter c' = repo_counter c /\ event_log c' = event_log c
  end.
Proof.
  intros (g & Hg & Ha & Hcur) Hn E.
  assert (room c g) as Hr by (split; [done|]; unfold numbers_left in Hn; by rewrite (in_step_counter _ _ Hg) in Hn).
  assert (addressed (wblocks (g, []))) as Ha' by exact Ha.
  assert (current (wblocks (g, [])) k did (rv_roots (wview (g, [])) !! did) m) as Hcur' by exact Hcur.
  destruct (on_writer_mem what _ _ _ _ _ _ (commit_op_rel room in_step (MkWriter k did) st o Never) Hr E)
    as (r0 & g' & pub & Em & -> & Hg'). destruct r0 as [[out body]|e]; cbn [fault map_err fst snd].
  - destruct (commit_op_Ok (MkWriter k did) st o Never (g, []) (g', pub) out body m Ha' Hcur' Em) as (l & Hc & Hst & Hlab & _).
    destruct (committed_object _ _ _ _ _ _ _ _ _ _ _ _ Hr Hg' Hc) as [Ho Hone]. split_and!; try done.
    by eapply stored_object.
  - rewrite (in_step_counter _ _ Hg), (in_step_log _ _ Hg). apply (failed_object k did m c' g g' pub Ha Hcur); [|done].
    exact (clean_commit_op _ _ _ _ _ _ _ Em).
Qed.

(** ... and the same of a batch. *)
Lemma batch_effect what k did st os c r c' m :
  object_repo k did m c -> numbers_left c ->
  on_writer what (apply_many_parts (MkWriter k did) st os) c = (r, c') ->
  match r with
  | Ok x => let rcs := map wo_record_cid (fst x) in
      object_repo k did (batch_records (zip os rcs) m) c' /\
      Forall2 (fun o out => record_stored o (wo_record_cid out) c' /\ (wo_action out, wo_key out) = op_label o) os (fst x) /\
      one_commit did (map (fun out => MkRepoOp (wo_action out) (wo_key out) (wo_record_cid out)) (fst x)) (snd x) c c'
  | Err _ => object_repo k did m c' /\ repo_counter c' = repo_counter c /\ event_log c' = event_log c
  end.
Proof.
  intros (g & Hg & Ha & Hcur) Hn E.
  assert (room c g) as Hr by (split; [done|]; unfold numbers_left in Hn; by rewrite (in_step_counter _ _ Hg) in Hn).
  assert (addressed (wblocks (g, []))) as Ha' by exact Ha.
  assert (current (wblocks (g, [])) k did (rv_roots (wview (g, [])) !! did) m) as Hcur' by exact Hcur.
  destruct (on_writer_mem what _ _ _ _ _ _ (apply_many_rel room in_step (MkWriter k did) st os) Hr E)
    as (r0 & g' & pub & Em & -> & Hg'). destruct r0 as [[outs body]|e]; cbn [fault map_err fst snd].
  - destruct (apply_many_Ok (MkWriter k did) st os (g, []) (g', pub) outs body m Ha' Hcur' Em) as (_ & l & Hc & Hst).
    destruct (committed_object _ _ _ _ _ _ _ _ _ _ _ _ Hr Hg' Hc) as [Ho Hone]. split_and!; try done.
    eapply Forall2_impl; [exact Hst|]. intros o out (Hs & Hlab & _). split; [|done]. by eapply stored_object.
  - rewrite (in_step_counter _ _ Hg), (in_step_log _ _ Hg). apply (failed_object k did m c' g g' pub Ha Hcur); [|done].
    exact (clean_apply_many _ _ _ _ _ _ Em).
Qed.

(** ** Reads *)

Context {Value : Type} `{Serde Value}.

Lemma rd_prog_x ctx {A} (p : BProg Cid A) g a g' : x_prog ctx p g = (Ok a, g') -> rd_prog p g = (Ok a, g').
Proof. unfold rd_prog, x_prog. destruct (run_prog p (g, [])) as [[x|e] [g1 tr]]; cbn; [|done]. by intros [= <- <-]. Qed.

Lemma mem_get_record k did m g key :
  addressed (blocks g) -> current (blocks g) k did (repo_roots g !! did) m ->
  RepoRead.get_record (Value := Value) (St := Inner Cid) did key g =
  (match m !! key with
   | Some cid => let? e := fst (read_entry key cid g) in Ok (Some e)
   | None => Ok None
   end, g).
Proof.
  intros Ha Hcur. unfold RepoRead.get_record, bind at 1, rd_store at 1, with_err. cbn.
  destruct (repo_roots g !! did) as [root|] eqn:Er; cbn; [|cbn in Hcur; by rewrite Hcur, lookup_empty].
  destruct (mem_open _ _ _ Ha (current_holds _ _ _ _ _ Hcur Er)) as (root' & repo & Hr' & Ho & Hm).
  rewrite Er in Hr'. injection Hr' as <-. unfold bind at 1. rewrite Ho. unfold bind at 1.
  rewrite (rd_prog_x EmptyString _ _ _ _ (mem_tree_get EmptyString _ _ _ _ Ha Hm)).
  destruct (m !! key) as [cid|]; [|done]. unfold bind, ret, read_entry, bind, rd_store, with_err, lift. cbn.
  destruct (blocks g !! cid) as [b|]; cbn; [|done]. by destruct (decode_record cid b).
Qed.

(** A record of the object, read. *)
Lemma object_get_record what k did m c key cid blk :
  object_repo k did m c -> numbers_left c -> m !! key = Some cid ->
  t_blocks (do_tables (db c)) !! cid_to_string cid = Some blk ->
  exists c', on_reader what (RepoRead.get_record (Value := Value) (St := DoStore) did key) c =
    (match decode_record cid blk with
     | Ok v => Ok (Some (MkRecordEntry key cid v))
     | Err e => Err (WFault (what +:+ ": " +:+ repo_error_to_string e))
     end, c').
Proof.
  intros (g & Hg & Ha & Hcur) Hn Hm Hb.
  assert (room c g) as Hr by (split; [done|]; unfold numbers_left in Hn; by rewrite (in_step_counter _ _ Hg) in Hn).
  destruct (get_record_rel (Value := Value) room in_step did key c g Hr) as [E _].
  rewrite (mem_get_record k did m) in E by done. rewrite Hm in E. unfold on_reader, with_err.
  destruct (RepoRead.get_record did key c) as [r c']. cbn [fst] in E. subst r. exists c'.
  pose proof (sim_blocks _ _ (ds_sim _ _ (proj2 Hg)) cid) as Eb. cbn in Eb. rewrite Hb in Eb.
  unfold read_entry, bind, rd_store, with_err, lift, ret. cbn. rewrite <- Eb. cbn. by destruct (decode_record cid blk).
Qed.

End InStep.

(** ** The handlers *)

Section Handlers.
Context `{Digests} `{Json} `{!JsonMore} `{Jwt} `{Argon2} `{SqlScan} `{!SqlScanLaws}.
Context {Cid : Type} `{CidLib Cid} `{Countable Cid} `{CidText Cid} `{!CidTextLaws Cid}.
Context `{RepoSerde Cid} `{!Atrium Cid} `{!AtriumRead Cid} `{Keypairs} `{!KeypairIO} `{CarLib Cid}.
Context `{!CidLaws Cid} `{!RepoSerdeLaws Cid} `{!KeypairLaws} `{!AtriumLaws Cid} `{!AtriumReadLaws Cid}.
Context `{KeyCiphers} `{!Serde Value}.
Variable did_parse : string -> result string unit.

(** The stored signing key of [did] is [k]. *)
Definition object_key (did : string) (passphrase : bytes) (k : Keypair) (c : DoStore) : Prop :=
  forall what key c', signing_keypair what did passphrase c = (Ok key, c') -> key = k.

Lemma signing_keypair_calm what did pass (c : DoStore) r c' :
  faults c = [] -> signing_keypair what did pass c = (r, c') -> c' = c.
Proof.
  destruct c as [d f]. intros E. cbn in E. subst f. unfold signing_keypair, load_key, bind, w_store, with_err, lift. cbn.
  destruct (t_keys (do_tables d) !! (did +:+ "#signing")); cbn; [|by intros [= _ <-]].
  destruct (decrypt_key _ _); cbn; by intros [= _ <-].
Qed.

Lemma repo_faults k did m (c : DoStore) : object_repo k did m c -> faults c = [].
Proof. by intros (g & [Hf _] & _). Qed.

Lemma writer_for_Ok key did (c c' : DoStore) w : writer_for did_parse key did c = (Ok w, c') -> w = MkWriter key did /\ c' = c.
Proof.
  intros E. apply bind_Ok in E as ([] & c1 & E1 & E). apply lift_Ok in E1 as [_ ->]. by injection E as <- <-.
Qed.

Lemma needs_value_Ok missing unenc v (c c' : DoStore) i :
  needs_value missing unenc v c = (Ok i, c') ->
  json_is_null v = false /\ json_value_to_ipld to_vec from_slice v = Ok i /\ c' = c.
Proof.
  intros E. apply bind_Ok in E as ([] & c1 & E1 & E). apply assert_or_Ok in E1 as [E1 ->].
  apply lift_Ok in E as [E ->]. apply map_err_Ok in E. by apply negb_true_iff in E1.
Qed.

Lemma needs_collection_Ok missing v (c c' : DoStore) s :
  needs_collection missing v c = (Ok s, c') ->
  str_member "collection" v = Some s /\ validate_collection s = Ok tt /\ c' = c.
Proof.
  intros E. apply bind_Ok in E as (x & c1 & E1 & E). apply lift_Ok in E1 as [E1 ->]. apply ok_or_Ok in E1.
  apply bind_Ok in E as ([] & c2 & E2 & E). apply lift_Ok in E2 as [E2 ->]. apply map_err_Ok in E2.
  by injection E as <- <-.
Qed.

Lemma checked_rkey_Ok rk (c c' : DoStore) s :
  checked_rkey rk c = (Ok s, c') -> s = rk /\ validate_rkey rk = Ok tt /\ c' = c.
Proof.
  intros E. apply bind_Ok in E as ([] & c1 & E1 & E). apply lift_Ok in E1 as [E1 ->]. apply map_err_Ok in E1.
  by injection E as <- <-.
Qed.

(** getRecord of a stored record. *)
Lemma worker_get_stored k did row m (c : DoStore) collection rkey cid blk :
  object_repo k did m c -> numbers_left c -> do_accounts (db c) = {[did := row]} ->
  m !! (collection +:+ "/" +:+ rkey) = Some cid ->
  t_blocks (do_tables (db c)) !! cid_to_string cid = Some blk ->
  fst (worker_get_record collection rkey c) =
  match decode_record cid blk with
  | Ok v => Ok (MkGetRecordOutput (worker_uri did (collection +:+ "/" +:+ rkey)) (cid_to_string cid) v)
  | Err e => Err (WFault ("get_record: " +:+ repo_error_to_string e))
  end.
Proof.
  intros Hrepo Hn Hrow Hm Hb. destruct (object_get_record (Value := Value) "get_record" _ _ _ _ _ _ _ Hrepo Hn Hm Hb) as (c' & E).
  pose proof (repo_faults _ _ _ _ Hrepo) as Hf. destruct c as [d f]. cbn in Hf, Hrow. subst f.
  unfold worker_get_record, sole_account_did. unfold bind at 1. unfold bind at 1. rewrite (sole_account_run d did row Hrow).
  cbn [fmap option_fmap option_map lift ok_or summary_row as_did fst]. unfold bind at 1. rewrite E.
  by destruct (decode_record cid blk).
Qed.

(** ** Batches *)

(** A step that leaves the object as it is, and what follows it. *)
Definition calm {A} (x : SE DoStore WFail A) : Prop := forall c, snd (x c) = c.

Lemma calm_lift {A} (r : result WFail A) : calm (lift r).
Proof. done. Qed.
Lemma calm_assert b e : calm (assert_or b e).
Proof. intros c. unfold assert_or. by destruct b. Qed.
Lemma calm_bind {A B} (x : SE DoStore WFail A) (f : A -> SE DoStore WFail B) :
  calm x -> (forall a, calm (f a)) -> calm (bind x f).
Proof.
  intros Hx Hf c. unfold bind. specialize (Hx c). destruct (x c) as [[a|e] c1]; cbn in *; subst c1; [apply Hf|done].
Qed.

Ltac calm_auto :=
  repeat first [ apply calm_bind; [|intros ?] | apply calm_lift | apply calm_assert | by intros ? | progress cbn beta iota zeta | progress case_match ].

Lemma batch_entry_calm now_ms did w : calm (batch_entry now_ms did w).
Proof. unfold batch_entry, needs_collection, checked_rkey, needs_value. calm_auto. Qed.

Lemma batch_entries_calm now_ms did writes n : calm (batch_entries now_ms n did writes).
Proof.
  revert n. induction writes as [|w writes IH]; intros n; cbn [batch_entries]; [done|].
  apply calm_bind; [apply batch_entry_calm|intros x]. apply calm_bind; [apply IH|done].
Qed.

Lemma batch_entries_length now_ms did writes n c l c' :
  batch_entries now_ms n did writes c = (Ok l, c') -> length l = length writes.
Proof.
  revert n c l c'. induction writes as [|w writes IH]; intros n c l c' E; cbn [batch_entries] in E; [by injection E as <- <-|].
  apply bind_Ok in E as (x & c1 & _ & E). apply bind_Ok in E as (xs & c2 & E1 & E). injection E as <- <-.
  cbn. f_equal. by eapply IH.
Qed.

(** A run from [c] either stops at its first step, leaving [c], or goes on. *)
Lemma calm_cases {A B} (x : SE DoStore WFail A) (f : A -> SE DoStore WFail B) c r c' :
  snd (x c) = c -> bind x f c = (r, c') ->
  (exists a, x c = (Ok a, c) /\ f a c = (r, c')) \/ (is_err r = true /\ c' = c).
Proof.
  unfold bind. intros Hc. destruct (x c) as [[a|e] c1]; cbn in Hc; subst c1; [|intros [= <- <-]; by right].
  intros E. left. by exists a.
Qed.

(** applyWrites up to the write. *)
Lemma batch_run k did now now_ms st bearer secret pass body (c c' : DoStore) r :
  bearer_did bearer secret now = Ok did -> faults c = [] -> object_key did pass k c ->
  worker_apply_writes did_parse now now_ms st bearer secret pass body c = (r, c') ->
  (is_err r = true /\ c' = c) \/
  exists v writes entries,
    json_from_slice body = Some v /\ json_as_array (json_index "writes" v) = Some writes /\ writes <> [] /\
    batch_entries now_ms 0 did writes c = (Ok entries, c) /\
    (let! x := on_writer "batch write failed" (apply_many_parts (MkWriter k did) st (map (fun e => fst (fst e)) entries)) in
     ret (MkBatchSequenced (map batch_result (zip (fst x) (map (fun e => snd (fst e)) entries)))
            (snd x) (map snd entries)))%se c = (r, c').
Proof.
  intros Hauth Hf Hkey Hrun. unfold worker_apply_writes in Hrun. rewrite Hauth in Hrun.
  apply calm_cases in Hrun as [(x & [= <-] & Hrun)|Hs]; [|by left|done].
  apply calm_cases in Hrun as [(v & E & Hrun)|Hs]; [|by left|done]. apply lift_Ok in E as [Hv _]. apply ok_or_Ok in Hv.
  apply calm_cases in Hrun as [(u & _ & Hrun)|Hs]; [|by left|apply calm_assert].
  apply calm_cases in Hrun as [(writes & E & Hrun)|Hs]; [|by left|done]. apply lift_Ok in E as [Hw _]. apply ok_or_Ok in Hw.
  apply calm_cases in Hrun as [(u1 & E & Hrun)|Hs]; [|by left|apply calm_assert]. apply assert_or_Ok in E as [Hne _].
  apply calm_cases in Hrun as [(entries & He & Hrun)|Hs]; [|by left|apply batch_entries_calm].
  apply calm_cases in Hrun as [(key & E & Hrun)|Hs]; [|by left|].
  2: { destruct (signing_keypair _ _ _ c) as [q c1] eqn:E. by apply signing_keypair_calm in E. }
  apply Hkey in E as ->.
  apply calm_cases in Hrun as [(w & E & Hrun)|Hs]; [|by left|unfold writer_for; by apply calm_bind].
  apply writer_for_Ok in E as [-> _]. right. exists v, writes, entries. split_and!; try done. by destruct writes.
Qed.

(** A create that leaves its key to the server. *)
Lemma batch_create t did w collection (c c' : DoStore) x :
  str_member "collection" w = Some collection -> str_member "rkey" w = None ->
  batch_entry t did w c = (Ok x, c') ->
  let key := collection +:+ "/" +:+ fresh_rkey t in
  exists i, fst (fst x) = WCreate key i /\ snd (fst x) = worker_uri did key.
Proof.
  intros Hcol Hrk E key. apply bind_Ok in E as (col & c1 & E1 & E). apply needs_collection_Ok in E1 as (Ec & _ & ->).
  rewrite Hcol in Ec. injection Ec as <-. rewrite Hrk in E.
  apply bind_Ok in E as (rk & c2 & E2 & E). set (kind := default EmptyString (str_member "$type" w)) in *.
  destruct (ends_with "#create" kind) eqn:Ek; [|done]. injection E2 as <- <-.
  destruct (ends_with "#delete" kind) eqn:Ed; [by pose proof (ends_with_same "#create" "#delete" kind eq_refl Ek Ed)|].
  apply bind_Ok in E as (i & c3 & E3 & E). destruct (ends_with "#update" kind) eqn:Eu; [by pose proof (ends_with_same "#create" "#update" kind eq_refl Ek Eu)|].
  injection E as <- <-. by exists i.
Qed.

(** The operations of a batch, as they are listed in its commit. *)
Definition batch_ops (os : list WriteOp) (rcs : list (option Cid)) : list (RepoOp Cid) :=
  zip_with (fun o rc => MkRepoOp (fst (op_label o)) (snd (op_label o)) rc) os rcs.

Lemma batch_ops_outcomes os (outs : list (WriteOutcome Cid)) c :
  Forall2 (fun o out => record_stored o (wo_record_cid out) c /\ (wo_action out, wo_key out) = op_label o) os outs ->
  map (fun out => MkRepoOp (wo_action out) (wo_key out) (wo_record_cid out)) outs = batch_ops os (map wo_record_cid outs) /\
  length outs = length os.
Proof.
  induction 1 as [|o out os outs (_ & Hlab) _ [IH Hl]]; [done|]. cbn. by rewrite IH, Hl, <- Hlab.
Qed.

(** createRecord, done. *)
Lemma create_readable k did row m now now_ms st bearer secret pass body (c c' : DoStore) out
    (Hrepo : object_repo k did m c) (Hn : repo_counter c + 1 < i64_max) (Hrow : do_accounts (db c) = {[did := row]})
    (Hkey : object_key did pass k c) (Hauth : bearer_did bearer secret now = Ok did)
    (Hok : worker_create_record did_parse now now_ms st bearer secret pass body c = (Ok out, c')) :
  exists v collection rkey (ipld : Ipld) cid blk,
    json_from_slice body = Some v /\ str_member "repo" v = Some did /\
    str_member "collection" v = Some collection /\ validate_collection collection = Ok tt /\
    match str_member "rkey" v with
    | Some rk => rkey = rk /\ validate_rkey rk = Ok tt
    | None => rkey = tid_from_micros (u64_wrap (now_ms * 1000))
    end /\
    json_value_to_ipld to_vec from_slice (json_index "record" v) = Ok ipld /\ to_vec ipld = Ok blk /\
    let key := collection +:+ "/" +:+ rkey in
    object_repo k did (<[key := cid]> m) c' /\
    one_commit did [MkRepoOp "create" key (Some cid)] (sd_body out) c c' /\
    sd_uri out = worker_uri did key /\ sd_cid out = cid_to_string cid /\ sd_records out = [Some (json_index "record" v)] /\
    do_accounts (db c') = do_accounts (db c) /\
    fst (worker_get_record collection rkey c') =
      match decode_record cid blk with
      | Ok v => Ok (MkGetRecordOutput (sd_uri out) (sd_cid out) v)
      | Err e => Err (WFault ("get_record: " +:+ repo_error_to_string e))
      end /\
    t_blocks (do_tables (db c')) !! cid_to_string cid = Some blk.
Proof.
  assert (do_accounts (db c') = do_accounts (db c)) as Hacc.
  { pose proof (create_record_quiet (do_accounts (db c)) did_parse now now_ms st bearer secret pass body c eq_refl) as Hq.
    by rewrite Hok in Hq. }
  unfold worker_create_record in Hok. rewrite Hauth in Hok.
  apply bind_Ok in Hok as (? & c1 & E & Hok). apply lift_Ok in E as [[= <-] ->].
  apply bind_Ok in Hok as (v & c1 & E & Hok). apply lift_Ok in E as [Hv ->]. apply ok_or_Ok in Hv.
  apply bind_Ok in Hok as ([] & c1 & E & Hok). apply assert_or_Ok in E as [Hown%bool_decide_eq_true ->].
  apply bind_Ok in Hok as (collection & c1 & E & Hok). apply needs_collection_Ok in E as (Hcol & Hvc & ->).
  apply bind_Ok in Hok as (rkey & c1 & E & Hok).
  assert (c1 = c /\ match str_member "rkey" v with
                    | Some rk => rkey = rk /\ validate_rkey rk = Ok tt
                    | None => rkey = tid_from_micros (u64_wrap (now_ms * 1000))
                    end) as [-> Hrk].
  { destruct (str_member "rkey" v) as [rk|]; [by apply checked_rkey_Ok in E as (-> & ? & ->)|by injection E as <- <-]. }
  clear E. apply bind_Ok in Hok as (ipld & c1 & E & Hok). apply needs_value_Ok in E as (_ & Hipld & ->).
  apply bind_Ok in Hok as (key & c1 & E & Hok). pose proof (signing_keypair_calm _ _ _ _ _ _ (repo_faults _ _ _ _ Hrepo) E) as ->.
  apply Hkey in E as ->.
  apply bind_Ok in Hok as (w & c1 & E & Hok). apply writer_for_Ok in E as [-> ->].
  apply bind_Ok in Hok as (x & c2 & Ew & Hok). apply bind_Ok in Hok as (cid' & c3 & E & Hok).
  unfold first_cid in E. apply lift_Ok in E as [E ->]. apply ok_or_Ok in E. injection Hok as <- <-.
  assert (numbers_left c) as Hn0 by (unfold numbers_left; lia).
  destruct (write_effect _ _ _ _ _ _ _ _ _ Hrepo Hn0 Ew) as (Hrepo' & (cid & blk & Hrc & Hvec & Hblk) & Hlab & Hone).
  rewrite Hrc in Hone, Hrepo'. cbn in Hlab, Hrepo'. injection Hlab as Ha Hk. rewrite Ha, Hk in Hone.
  exists v, collection, rkey, ipld, cid, blk. cbn zeta.
  pose proof Hone as (_ & Hops & _ & Hc' & _). rewrite Hops in E. cbn in E. injection E as <-.
  cbn [sd_body sd_uri sd_cid sd_records]. split_and!; try done.
  apply (worker_get_stored k did row (<[collection +:+ "/" +:+ rkey := cid]> m)); try done.
  - unfold numbers_left. by rewrite Hc'.
  - by rewrite Hacc.
  - apply lookup_insert_eq.
Qed.

(** ** Properties *)

(** C28: a record created on the worker is one commit, and is read back.  When
    createRecord of the account's own bearer succeeds, the collection and the
    key are valid, the key given or fresh; the repository has gained exactly
    this record by one signed commit, logged under the next number, whose body
    and record are what is handed to the sequencer; the accounts stand; and
    getRecord answers what the stored block of the record decodes to. *)
Theorem worker_create_readable k did row m now now_ms st bearer secret pass body (c c' : DoStore) out
    (Hrepo : object_repo k did m c) (Hn : repo_counter c + 1 < i64_max) (Hrow : do_accounts (db c) = {[did := row]})
    (Hkey : object_key did pass k c) (Hauth : bearer_did bearer secret now = Ok did)
    (Hok : worker_create_record did_parse now now_ms st bearer secret pass body c = (Ok out, c')) :
  exists v collection rkey (ipld : Ipld) cid blk,
    json_from_slice body = Some v /\ str_member "repo" v = Some did /\
    str_member "collection" v = Some collection /\ validate_collection collection = Ok tt /\
    match str_member "rkey" v with
    | Some rk => rkey = rk /\ validate_rkey rk = Ok tt
    | None => rkey = tid_from_micros (u64_wrap (now_ms * 1000))
    end /\
    json_value_to_ipld to_vec from_slice (json_index "record" v) = Ok ipld /\ to_vec ipld = Ok blk /\
    let key := collection +:+ "/" +:+ rkey in
    object_repo k did (<[key := cid]> m) c' /\
    one_commit did [MkRepoOp "create" key (Some cid)] (sd_body out) c c' /\
    sd_uri out = worker_uri did key /\ sd_cid out = cid_to_string cid /\ sd_records out = [Some (json_index "record" v)] /\
    do_accounts (db c') = do_accounts (db c) /\
    fst (worker_get_record collection rkey c') =
      match decode_record cid blk with
      | Ok v => Ok (MkGetRecordOutput (sd_uri out) (sd_cid out) v)
      | Err e => Err (WFault ("get_record: " +:+ repo_error_to_string e))
      end.
Proof.
  destruct (create_readable k did row m now now_ms st bearer secret pass body c c' out Hrepo Hn Hrow Hkey Hauth Hok)
    as (v & collection & rkey & ipld & cid & blk & Hv & Hown & Hcol & Hvc & Hrk & Hi & Hb & Hr & Ho & Hu & Hc & Hrec & Hacc & Hget & _).
  exists v, collection, rkey, ipld, cid, blk. by split_and!.
Qed.

(** C20: a batch on the worker is all or nothing, while no statement of the
    object's storage fails ([object_repo] holds of an object without failures to
    come) and numbers are left.  applyWrites of the account's own bearer either
    makes one signed commit that lists every write in order, each with its own
    record, and hands every record over; or, whatever it is refused for and
    wherever the writer fails, leaves the repository's records, its log and its
    numbers as they were.  When a statement does fail the commit can be torn
    ([do_commit_torn]). *)
Theorem worker_batch_atomic k did m now now_ms st bearer secret pass body (c c' : DoStore) r
    (Hrepo : object_repo k did m c) (Hn : numbers_left c)
    (Hkey : object_key did pass k c) (Hauth : bearer_did bearer secret now = Ok did)
    (Hrun : worker_apply_writes did_parse now now_ms st bearer secret pass body c = (r, c')) :
  match r with
  | Ok out => exists v writes entries rcs,
      json_from_slice body = Some v /\ json_as_array (json_index "writes" v) = Some writes /\ writes <> [] /\
      batch_entries now_ms 0 did writes c = (Ok entries, c) /\
      length entries = length writes /\ length rcs = length writes /\
      let os := map (fun e => fst (fst e)) entries in
      object_repo k did (batch_records (zip os rcs) m) c' /\
      one_commit did (batch_ops os rcs) (bs_body out) c c' /\
      bs_records out = map snd entries /\ length (bs_results out) = length writes
  | Err _ => object_repo k did m c' /\ repo_counter c' = repo_counter c /\ event_log c' = event_log c
  end.
Proof.
  destruct (batch_run k did now now_ms st bearer secret pass body c c' r Hauth (repo_faults _ _ _ _ Hrepo) Hkey Hrun)
    as [[Hr ->]|(v & writes & entries & Hv & Hw & Hne & He & Hgo)]; [by destruct r|]. clear Hrun. rename Hgo into Hrun.
  pose proof (batch_entries_length _ _ _ _ _ _ _ He) as Hlen. unfold bind in Hrun.
  destruct (on_writer _ _ c) as [[x|e] c1] eqn:Ew; pose proof (batch_effect _ _ _ _ _ _ _ _ _ Hrepo Hn Ew) as Hb; cbn in Hb;
    injection Hrun as <- <-; [|done].
  destruct Hb as (Hrepo' & Hst & Hone). destruct (batch_ops_outcomes _ _ _ Hst) as [Hops Hl]. rewrite Hops in Hone. rewrite length_map in Hl.
  exists v, writes, entries, (map wo_record_cid (fst x)). cbn [bs_body bs_records bs_results].
  rewrite !length_map, length_zip, Hl, length_map. split_and!; try done; lia.
Qed.

(** two creates of a batch that leave their key to the server get the same one.
    The key is made from the clock alone, and the clock of a Worker stands while
    a request computes: [batch_entries] then gives both creates of one
    collection one key and one URI, so that whatever the repository makes of
    them, at most the second record is kept. *)
Theorem batch_creates_collide t did w1 w2 collection (c c' : DoStore) x1 x2
    (Hc1 : str_member "collection" w1 = Some collection) (Hc2 : str_member "collection" w2 = Some collection)
    (Hr1 : str_member "rkey" w1 = None) (Hr2 : str_member "rkey" w2 = None)
    (Hok : batch_entries (fun _ => t) 0 did [w1; w2] c = (Ok [x1; x2], c')) :
  let key := collection +:+ "/" +:+ fresh_rkey t in
  exists i1 i2, fst (fst x1) = WCreate key i1 /\ fst (fst x2) = WCreate key i2 /\
    snd (fst x1) = worker_uri did key /\ snd (fst x2) = worker_uri did key /\
    forall cid1 cid2 m, batch_records [(fst (fst x1), Some cid1); (fst (fst x2), Some cid2)] m = <[key := cid2]> m.
Proof.
  intros key. cbn [batch_entries] in Hok.
  apply bind_Ok in Hok as (y1 & c1 & E1 & Hok). apply bind_Ok in Hok as (ys & c2 & E2 & Hok).
  apply bind_Ok in E2 as (y2 & c3 & E2 & E3). injection E3 as <- <-. injection Hok as <- <- <-.
  destruct (batch_create _ _ _ _ _ _ _ Hc1 Hr1 E1) as (i1 & Ho1 & Hu1).
  destruct (batch_create _ _ _ _ _ _ _ Hc2 Hr2 E2) as (i2 & Ho2 & Hu2).
  exists i1, i2. split_and!; try done. intros cid1 cid2 m. rewrite Ho1, Ho2. cbn. apply insert_insert_eq.
Qed.

End Handlers.

(** ** Witnesses *)

(** An object with one account and its signing key. *)
Definition demo_object_calls : list (store_call string) :=
  [ Change (CInsertAccount "did:a" "al.pds.test" None "phc:correct horse" "2026");
    Change (CPutKeyBlob "did:a#signing"
      (default "" (res_opt (encrypt_key "0123456789abcdef" "0123456789ab" "did:a" "pass")))) ].
Definition demo_object : DoStore := snd (run_calls (St := DoStore) demo_object_calls (MkConn DoDb_empty [])).
Definition demo_memory : Inner string := snd (run_calls (St := Inner string) demo_object_calls Inner_default).

Lemma demo_object_repo : object_repo (Cid := string) (demo_keys "did:a") "did:a" ∅ demo_object.
Proof.
  exists demo_memory. split_and!.
  - destruct (do_run_agrees demo_object_calls 0 DoDb_empty Inner_default) as (d' & E & Hd).
    + apply (bool_decide_unpack _). vm_compute. exact I.
    + apply do_sim_empty.
    + by split.
    + vm_compute. discriminate.
    + unfold demo_object. rewrite E. by split.
  - intros cid b E. exfalso. vm_compute in E. discriminate E.
  - vm_compute. reflexivity.
Qed.

Lemma demo_object_key : object_key "did:a" "pass" (demo_keys "did:a") demo_object.
Proof.
  intros what key c' E. apply (f_equal (fun x => res_opt (fst x))) in E. vm_compute in E. by injection E as <-.
Qed.

Definition demo_worker_bearer : option string := res_opt (encode_access_jwt_at "did:a" "hmac" 1000).

Lemma demo_worker_auth : bearer_did demo_worker_bearer "hmac" 1000 = Ok "did:a".
Proof. vm_compute. reflexivity. Qed.

Definition demo_create_body : bytes :=
  text_object [("repo", "sdid:a"); ("collection", "sapp.x.y"); ("rkey", "s1"); ("record", "shello")].

Definition demo_worker_create : result WFail Sequenced * DoStore :=
  worker_create_record (Cid := string) demo_str_parse 1000 1000 (demo_stamps "1") demo_worker_bearer "hmac" "pass"
    demo_create_body demo_object.

Lemma worker_create_readable_witness :
  exists cid, is_ok (fst demo_worker_create) = true /\
    fst (worker_get_record (Cid := string) "app.x.y" "1" (snd demo_worker_create)) =
    Ok (MkGetRecordOutput "at://did:a/app.x.y/1" cid "shello").
Proof.
  destruct demo_worker_create as [[out|e] c'] eqn:E;
    [|exfalso; apply (f_equal (fun x => is_ok (fst x))) in E; vm_compute in E; discriminate E].
  unfold demo_worker_create in E.
  destruct (worker_create_readable (Cid := string) demo_str_parse (demo_keys "did:a") "did:a"
              (MkAccountRow (Some "al.pds.test") None "phc:correct horse" "2026" None None) ∅ _ _ _ _ _ _ _ _ _ _
              demo_object_repo ltac:(vm_compute; reflexivity) ltac:(vm_compute; reflexivity) demo_object_key demo_worker_auth E)
    as (v & collection & rkey & ipld & cid & blk & Hv & _ & Hcol & _ & Hrk & Hi & Hblk & _ & _ & Hu & _ & _ & _ & Hget).
  exists (sd_cid out). split; [reflexivity|]. cbn [snd].
  cbn in Hv. injection Hv as <-. vm_compute in Hcol. injection Hcol as <-.
  assert (rkey = "1") as -> by (vm_compute in Hrk; exact (proj1 Hrk)).
  assert (ipld = "shello") as -> by (vm_compute in Hi; congruence).
  assert (blk = "shello") as -> by (cbn in Hblk; congruence).
  refine (eq_trans Hget _). rewrite Hu. reflexivity.
Defined.

(** A batch whose second entry has no collection. *)
Definition demo_worker_batch : result WFail BatchSequenced * DoStore :=
  worker_apply_writes (Cid := string) demo_str_parse 1000 (fun _ => 1000) (demo_stamps "1") demo_worker_bearer "hmac" "pass"
    (text_object [("repo", "sdid:a"); ("writes", String "a" (fields_encode
      [ text_object [("$type", "sx#create"); ("collection", "sapp.x.y"); ("rkey", "s1"); ("value", "shello")];
        text_object [("$type", "sx#create"); ("rkey", "s2"); ("value", "slost")] ]))]) demo_object.

Lemma worker_batch_atomic_witness :
  fst demo_worker_batch = Err (reject "each write needs a collection.") /\
  object_repo (Cid := string) (demo_keys "did:a") "did:a" ∅ (snd demo_worker_batch).
Proof.
  assert (fst demo_worker_batch = Err (reject "each write needs a collection.")) as Hr by (vm_compute; reflexivity).
  split; [exact Hr|]. destruct demo_worker_batch as [r c'] eqn:E. unfold demo_worker_batch in E. cbn [fst] in Hr. subst r.
  exact (proj1 (worker_batch_atomic (Cid := string) demo_str_parse (demo_keys "did:a") "did:a" ∅ _ _ _ _ _ _ _ _ _ _
                  demo_object_repo ltac:(vm_compute; reflexivity) demo_object_key demo_worker_auth E)).
Defined.

Definition demo_unkeyed (v : string) : Value (Json := text_json) :=
  text_object [("$type", "sx#create"); ("collection", "sapp.x.y"); ("value", String "s" v)].

Definition demo_unkeyed_batch : result WFail (list (WriteOp * string * option Value)) * DoStore :=
  batch_entries (Cid := string) (fun _ => 1000) 0 "did:a" [demo_unkeyed "one"; demo_unkeyed "two"] demo_object.

Lemma batch_creates_collide_witness :
  exists x1 x2, fst demo_unkeyed_batch = Ok [x1; x2] /\ snd x1 <> snd x2 /\
    snd (fst x1) = worker_uri "did:a" ("app.x.y/" +:+ fresh_rkey 1000) /\ snd (fst x2) = snd (fst x1).
Proof.
  assert (match fst demo_unkeyed_batch with
          | Ok [x1; x2] => bool_decide (snd x1 = snd x2) = false
          | _ => False
          end) as Hr by (vm_compute; reflexivity).
  destruct demo_unkeyed_batch as [[[|x1 [|x2 [|x3 l]]]|e] c'] eqn:E; cbn [fst] in Hr; try contradiction Hr.
  unfold demo_unkeyed_batch in E. exists x1, x2. split; [reflexivity|].
  destruct (batch_creates_collide (Cid := string) 1000 "did:a" (demo_unkeyed "one") (demo_unkeyed "two") "app.x.y"
              demo_object c' x1 x2 ltac:(vm_compute; reflexivity) ltac:(vm_compute; reflexivity)
              ltac:(vm_compute; reflexivity) ltac:(vm_compute; reflexivity) E)
    as (i1 & i2 & _ & _ & U1 & U2 & _).
  split; [by apply bool_decide_eq_false in Hr|]. split; [exact U1|congruence].
Defined.
