(* ===== verification/WorkerCommitProps.v ===== *)
(** * The worker: from a write to the firehose

    A record created through an account's object is a commit of its repository
    and, when the message to the sequencer arrives, the next frame of the
    deployment's stream. *)

From Stdlib Require Import ZArith Lia Ascii.
From S2P Require Import Prelude RustStr Externals Demo StoreTypes MemoryStore MemoryProps RepoUtil OAuthCore Jose Client.
From S2P Require Import Session Repo RepoDemo KeyCrypto Identity Accounts AccountProps EmbServer RepoWriter RepoProps RepoRead RepoXrpc.
From S2P Require Import RepoXrpcProps Utf8 ServiceProxy Outbound EmbDemo.
From S2P Require Import Sql.
From S2P Require Import SqliteStore.
From S2P Require Import SqliteProps.
From S2P Require Import DoStore.
From S2P Require Import DoProps.
From S2P Require Import Registry.
From S2P Require Import WorkerSeq.
From S2P Require Import WorkerSeqProps.
From S2P Require Import WorkerAccounts.
From S2P Require Import WorkerRepo.
From S2P Require Import Durable.
From S2P Require Import WorkerProps.
From S2P Require Import WorkerInv.
From S2P Require Import WorkerRepoProps.
From S2P Require Import WorkerFront.
From S2P Require Import WorkerDemo.

Section Body.
Context `{Digests} {Cid St : Type} `{CidLib Cid} `{Countable Cid} `{StorageBackend Cid St}.
Context `{RepoSerde Cid} `{!Atrium Cid} `{Keypairs} `{CarLib Cid}.

(** A commit of the writer is made as the sequencer's round trip needs it. *)
Lemma commit_op_body (self : Writer) st o publish (w w' : World (St := St)) out (body : CommitBody Cid) :
  commit_op self st o publish w = (Ok (out, body), w') -> writer_body body.
Proof.
  unfold commit_op. intros E. do 2 (apply bind_Ok in E as (? & ? & _ & E)). cbv zeta in E.
  apply bind_Ok in E as ([[[[action key] rc] c] tr] & ? & _ & E). do 4 (apply bind_Ok in E as (? & ? & _ & E)).
  apply bind_Ok in E as (b & ? & Eb & E). apply bind_Ok in E as (? & ? & _ & E). unfold ret in E. injection E as _ <- _.
  unfold persist in Eb. do 2 (apply bind_Ok in Eb as (? & ? & _ & Eb)). unfold ret in Eb. injection Eb as <- _. by split_and!.
Qed.

End Body.

Section Stream.
Context `{Digests} `{Json} `{!JsonMore} `{Ecdsa} `{Jwt} `{Argon2} `{SqlScan} `{Base64}.
Context {Cid : Type} `{CidLib Cid} `{Countable Cid} `{CidText Cid}.
Context `{RepoSerde Cid} `{!Atrium Cid} `{!AtriumRead Cid} `{Keypairs} `{!KeypairIO} `{CarLib Cid} `{PlcLib}.
Context `{KeyCiphers} `{!Serde Value}.
Context `{!Serde ProvisionInput} `{!Serde CreateSessionInput} `{!Serde DeviceRegisterInput}.
Context `{!Serde SigninStartInput} `{!Serde DeviceDecisionInput}.
Context `{!SqlScanLaws} `{!CidTextLaws Cid} `{!Base64Laws}.
Context `{!CidLaws Cid} `{!RepoSerdeLaws Cid} `{!KeypairLaws} `{!AtriumLaws Cid} `{!AtriumReadLaws Cid}.
Variable did_parse : string -> result string unit.
Variable verify_signature : string -> bytes -> bytes -> result string unit.
Variable plc_answer : string -> PlcGenesisOpSigned -> result CoreError unit.
Variable fetch_answer : Fetched -> result string FetchAnswer.
Variable env : Env.
Variable host : string.
Implicit Types (w : Deployment).

Definition CREATE : string := "/xrpc/com.atproto.repo.createRecord".

(** Opening the store of an object that holds a repository changes nothing. *)
Lemma open_store_repo k did m w : object_repo k did m (object_of host w) ->
  open_store host w = (Ok tt, put_object host (object_of host w) w).
Proof.
  intros (g & [Hf Hd] & _). unfold open_store, on_object. destruct (object_of host w) as [db0 f] eqn:Eo. cbn in Hf. subst f.
  cbn. pose proof (ds_counter _ _ Hd) as Hc. cbn in Hc. rewrite Hc. cbn. do 3 f_equal. rewrite <- Hc. by destruct db0.
Qed.

(** The hand-over of a commit, by the fate of its message. *)
Definition log_of w : list LogRow := firehose_log (so_db (dp_sequencer w)).

Lemma enqueue_commit_run q (b : CommitBody Cid) records w :
  faults (so_conn (dp_sequencer w)) = [] -> seq_log_ok (so_db (dp_sequencer w)) -> writer_body b ->
  let n := counter (so_db (dp_sequencer w)) in
  let frame := encode_message_frame "#commit" (stamped n (qd_now q) b) in
  exists w', enqueue_commit q b records w = (Ok tt, w') /\ dp_objects w' = dp_objects w /\
    match dp_net w with
    | NotSent _ :: _ => dp_sequencer w' = dp_sequencer w
    | _ => log_of w' = log_of w ++ [MkLogRow n (cb_repo b) frame (qd_now q)] /\
           so_sockets (dp_sequencer w') = map (ws_send frame) (so_sockets (dp_sequencer w))
    end.
Proof.
  intros Hf Hok Hb n frame.
  destruct (enqueue_logs (dp_sequencer w) (qd_queue q) (qd_now q) b records Hf Hok Hb) as (o' & E & Hl & Hs & _).
  unfold enqueue_commit, call_sequencer, call_stub, catch, bind, ret, log_of.
  destruct (dp_net w) as [|[|e|e] net] eqn:En; cbn [dp_sequencer put_net tail]; rewrite ?E; cbn; eexists; (split; [done|]); by split.
Qed.

(** createRecord through the object's route. *)
Lemma create_route k did m (d : ObjDraw) req w w' a secret pass :
  object_repo k did m (object_of host w) -> oq_path req = CREATE ->
  en_jwt_secret env = Some secret -> env_key_passphrase env = Ok pass ->
  object_route did_parse verify_signature plc_answer fetch_answer env host d req w = (Ok a, w') ->
  exists out c', worker_create_record did_parse (od_now d) (od_now_ms d 0%nat) (od_stamps d) (req_bearer req) secret pass
                   (from_utf8_lossy (oq_body req)) (object_of host w) = (Ok out, c') /\
    a = OaWritten (sd_uri out) (sd_cid out) /\
    enqueue_commit (od_seq d) (sd_body out) (sd_records out) (put_object host c' (put_object host (object_of host w) w)) = (Ok tt, w').
Proof.
  intros Hrepo Hp Hsec Hpass Hok. destruct req as [path q raw auth ct body]. cbn in Hp. subst path.
  assert (object_route did_parse verify_signature plc_answer fetch_answer env host d (MkObjReq CREATE q raw auth ct body) =
    (open_store host ;;!
     let! jwt_secret := lift (env_jwt_secret env) in
     let! passphrase := lift (env_key_passphrase env) in
     let! x := on_object host (worker_create_record did_parse (od_now d) (od_now_ms d 0%nat) (od_stamps d)
                                 (req_bearer (MkObjReq CREATE q raw auth ct body)) jwt_secret passphrase (from_utf8_lossy body)) in
     sequenced (od_seq d) (sd_body x) (sd_records x) (OaWritten (sd_uri x) (sd_cid x)))%se) as Hr by reflexivity.
  rewrite Hr in Hok. unfold bind at 1 in Hok. rewrite (open_store_repo _ _ _ _ Hrepo) in Hok.
  unfold env_jwt_secret in Hok. rewrite Hsec, Hpass in Hok. cbn [ok_or] in Hok.
  apply bind_Ok in Hok as (s1 & w1 & E & Hok). injection E as <- <-.
  apply bind_Ok in Hok as (s2 & w2 & E & Hok). injection E as <- <-.
  apply bind_Ok in Hok as (out & w3 & E & Hok). unfold on_object in E. rewrite (object_put_same host) in E.
  destruct (worker_create_record _ _ _ _ _ _ _ _ (object_of host w)) as [r c'] eqn:Ew. injection E as -> <-.
  unfold sequenced in Hok. apply bind_Ok in Hok as ([] & w4 & E & Hok). injection Hok as <- <-. by exists out, c'.
Qed.

(** The commit of a createRecord is one the sequencer can take. *)
Lemma create_body now now_ms st bearer secret pass body (c c' : DoStore) out :
  worker_create_record did_parse now now_ms st bearer secret pass body c = (Ok out, c') -> writer_body (sd_body out).
Proof.
  intros E. unfold worker_create_record in E. do 8 (apply bind_Ok in E as (? & ? & _ & E)).
  apply bind_Ok in E as (y & c1 & Ew & E). apply bind_Ok in E as (? & ? & _ & E). injection E as <- _.
  unfold on_writer in Ew. destruct (apply_one_parts _ _ _ _) as [r [c2 pub]] eqn:Ec. injection Ew as Er _.
  apply map_err_Ok in Er as ->. destruct y as [outc b]. by apply commit_op_body in Ec.
Qed.

(** Handing over leaves the objects, whatever happens to the message. *)
Lemma enqueue_commit_objects q (b : CommitBody Cid) records w w' r :
  enqueue_commit q b records w = (r, w') -> dp_objects w' = dp_objects w.
Proof.
  unfold enqueue_commit, call_sequencer, call_stub, catch, bind, ret.
  destruct (dp_net w) as [|[|e|e] net]; try (by intros [= _ <-]);
    cbn [dp_sequencer put_net tail]; destruct (sequencer_fetch _ _ _ _) as [[] o]; cbn; by intros [= _ <-].
Qed.

(** C11: a record created on the worker reaches the firehose.  When the account's
    object, no statement of whose storage fails, answers a createRecord of its
    account's own bearer, its repository has gained the record of the request, by
    one commit: under the collection of the request and its key, or a fresh one
    where it has none, with as its cid the one under which the encoding of its
    record is stored.  Unless the message to the sequencer is lost on its way,
    and as long as no statement of the sequencer's storage fails, the
    deployment's log has gained exactly one frame, of that commit with that
    operation, under the sequencer's next number, and every open socket was sent
    it; if the message is lost, the answer is the same and the stream never has
    it. *)
Theorem created_record_streams k did row m (d : ObjDraw) req w w' a secret pass
    (Hrepo : object_repo k did m (object_of host w)) (Hn : repo_counter (object_of host w) + 1 < i64_max)
    (Hrow : do_accounts (db (object_of host w)) = {[did := row]})
    (Hpath : oq_path req = CREATE) (Hsec : en_jwt_secret env = Some secret) (Hpass : env_key_passphrase env = Ok pass)
    (Hkey : object_key did pass k (object_of host w)) (Hauth : bearer_did (req_bearer req) secret (od_now d) = Ok did)
    (Hlog : seq_log_ok (so_db (dp_sequencer w)))
    (Hok : object_route did_parse verify_signature plc_answer fetch_answer env host d req w = (Ok a, w')) :
  exists v collection rkey (ipld : Ipld) blk cid b,
    json_from_slice (from_utf8_lossy (oq_body req)) = Some v /\ str_member "collection" v = Some collection /\
    match str_member "rkey" v with
    | Some rk => rkey = rk
    | None => rkey = tid_from_micros (u64_wrap (od_now_ms d 0%nat * 1000))
    end /\
    json_value_to_ipld to_vec from_slice (json_index "record" v) = Ok ipld /\ to_vec ipld = Ok blk /\
    t_blocks (do_tables (db (object_of host w'))) !! cid_to_string cid = Some blk /\
    let key := collection +:+ "/" +:+ rkey in
    a = OaWritten (worker_uri did key) (cid_to_string cid) /\
    object_repo k did (<[key := cid]> m) (object_of host w') /\
    cb_repo b = did /\ cb_ops b = [MkRepoOp "create" key (Some cid)] /\
    t_repo_roots (do_tables (db (object_of host w'))) !! did = Some (cid_to_string (cb_commit b)) /\
    let n := WorkerSeqProps.counter (so_db (dp_sequencer w)) in
    let frame := encode_message_frame "#commit" (stamped n (qd_now (od_seq d)) b) in
    match dp_net w with
    | NotSent _ :: _ => dp_sequencer w' = dp_sequencer w
    | _ => faults (so_conn (dp_sequencer w)) = [] ->
           log_of w' = log_of w ++ [MkLogRow n did frame (qd_now (od_seq d))] /\
           so_sockets (dp_sequencer w') = map (ws_send frame) (so_sockets (dp_sequencer w))
    end.
Proof.
  destruct (create_route _ _ _ _ _ _ _ _ _ _ Hrepo Hpath Hsec Hpass Hok) as (out & c' & Ew & -> & Eq).
  destruct (create_readable _ _ _ _ _ _ _ _ _ _ _ _ _ _ _ Hrepo Hn Hrow Hkey Hauth Ew)
    as (v & collection & rkey & ipld & cid & blk & Hv & _ & Hcol & _ & Hrk & Hi & Hb & Hrepo' & Hone & Hu & Hc & _ & _ & _ & Hblk).
  assert (object_of host w' = c') as Ho.
  { unfold object_of. rewrite (enqueue_commit_objects _ _ _ _ _ _ Eq). cbn. by rewrite lookup_insert_eq. }
  destruct Hone as (Hr & Hops & _ & _ & Hroot & _). rewrite Hu, Hc, Ho.
  exists v, collection, rkey, ipld, blk, cid, (sd_body out).
  assert (match str_member "rkey" v with
          | Some rk => rkey = rk
          | None => rkey = tid_from_micros (u64_wrap (od_now_ms d 0%nat * 1000))
          end) as Hrk' by (destruct (str_member "rkey" v); [by destruct Hrk|done]).
  do 6 (split; [done|]). cbv zeta. do 5 (split; [done|]).
  set (n := WorkerSeqProps.counter _). set (frame := encode_message_frame _ _).
  assert (match dp_net w with NotSent _ :: _ => True | _ => faults (so_conn (dp_sequencer w)) = [] end ->
    match dp_net w with
    | NotSent _ :: _ => dp_sequencer w' = dp_sequencer w
    | _ => log_of w' = log_of w ++ [MkLogRow n did frame (qd_now (od_seq d))] /\
           so_sockets (dp_sequencer w') = map (ws_send frame) (so_sockets (dp_sequencer w))
    end) as Hstream.
  { intros Hseq. destruct (dp_net w) as [|[|e|e] net] eqn:En.
    3: { unfold enqueue_commit, call_sequencer, call_stub, catch, bind, ret in Eq. cbn in Eq. rewrite En in Eq. cbn in Eq. by injection Eq as <-. }
    all: destruct (enqueue_commit_run (od_seq d) (sd_body out) (sd_records out) (put_object host c' (put_object host (object_of host w) w))
                Hseq Hlog (create_body _ _ _ _ _ _ _ _ _ _ Ew)) as (w2 & E & _ & Hs);
      rewrite Eq in E; injection E as <-; cbn in Hs; rewrite En, Hr in Hs; exact Hs. }
  destruct (dp_net w) as [|[|e|e] net]; [exact Hstream|exact Hstream|by apply Hstream|exact Hstream].
Qed.

End Stream.

(** ** Witness *)

#[local] Instance demo_base64_lib_laws : Base64Laws.
Proof. by split. Defined.

Definition demo_stream (net : list Delivery) : Deployment := put_object "al.pds.test" demo_object (demo_deployment net).

Definition demo_create_req : ObjReq :=
  MkObjReq CREATE [] None (Some ("Bearer " +:+ default EmptyString demo_worker_bearer)) None demo_create_body.

Definition demo_ledger (did : string) (g : PlcGenesisOpSigned) : result CoreError unit := Ok tt.

Definition demo_streamed (net : list Delivery) : result WFail ObjAnswer * Deployment :=
  object_route (Cid := string) demo_did_parse demo_verify_none demo_ledger demo_fetch demo_env "al.pds.test" demo_obj_draw
    demo_create_req (demo_stream net).

Lemma created_record_streams_witness :
  (exists b : CommitBody string,
     log_of (snd (demo_streamed [])) = [MkLogRow 1 "did:a" (encode_message_frame "#commit" (stamped 1 "2026" b)) "2026"]) /\
  log_of (snd (demo_streamed [NotSent "down"])) = [].
Proof.
  assert (forall net, is_ok (fst (demo_streamed net)) = true -> exists a, demo_streamed net = (Ok a, snd (demo_streamed net))) as Hrun.
  { intros net Hi. destruct (demo_streamed net) as [[a|e] w']; [by exists a|discriminate Hi]. }
  assert (forall net, is_ok (fst (demo_streamed net)) = true -> exists b,
    match net with
    | NotSent _ :: _ => dp_sequencer (snd (demo_streamed net)) = dp_sequencer (demo_stream net)
    | _ => log_of (snd (demo_streamed net)) =
             [MkLogRow 1 "did:a" (encode_message_frame "#commit" (stamped 1 "2026" (b : CommitBody string))) "2026"]
    end) as Hall.
  { intros net Hi. destruct (Hrun net Hi) as [a E].
    destruct (created_record_streams (Cid := string) demo_did_parse demo_verify_none demo_ledger demo_fetch demo_env "al.pds.test"
      (demo_keys "did:a") "did:a" (MkAccountRow (Some "al.pds.test") None "phc:correct horse" "2026" None None) ∅
      demo_obj_draw demo_create_req (demo_stream net) (snd (demo_streamed net)) a "hmac" "pass"
      demo_object_repo ltac:(vm_compute; reflexivity) ltac:(vm_compute; reflexivity) eq_refl eq_refl eq_refl
      demo_object_key ltac:(vm_compute; reflexivity) ltac:(split; [constructor|by intros r []]) E)
      as (v & collection & rkey & ipld & blk & cid & b & _ & _ & _ & _ & _ & _ & -> & _ & _ & _ & _ & Hs).
    exists b. cbv zeta in Hs. destruct net as [|[|e|e] net]; [exact (proj1 (Hs eq_refl))..|exact Hs|exact (proj1 (Hs eq_refl))]. }
  split.
  - exact (Hall [] ltac:(vm_compute; reflexivity)).
  - destruct (Hall [NotSent "down"] ltac:(vm_compute; reflexivity)) as [b Hb]. unfold log_of. rewrite Hb. reflexivity.
Defined.
