(* ===== verification/FrontProps.v ===== *)
(** * The worker in front: what a request may do

    Every object holds at most one account; accounts are created by
    registration only and deleted with the administrator's token only; the
    internal paths of an object are out of reach; what a registration that is
    granted has done in registry, object and ledger, and what a lost message
    leaves. *)

From Stdlib Require Import ZArith Lia Ascii.
From S2P Require Import Prelude RustStr Externals Demo StoreTypes MemoryStore MemoryProps OAuthCore Jose Client Session Repo.
From S2P Require Import KeyCrypto Identity Accounts AccountProps Utf8 EmbServer EmbRepo RepoWriter RepoRead RepoXrpc ServiceProxy.
From S2P Require Import Sql.
From S2P Require Import SqliteStore.
From S2P Require Import SqlProps.
From S2P Require Import DoStore.
From S2P Require Import Registry.
From S2P Require Import RegistryProps.
From S2P Require Import WorkerSeq.
From S2P Require Import WorkerAccounts.
From S2P Require Import WorkerRepo.
From S2P Require Import Durable.
From S2P Require Import WorkerFront.
From S2P Require Import Transport.
From S2P Require Import WorkerProps.
From S2P Require Import WorkerInv.
From S2P Require Import EmbDemo.
From S2P Require Import RepoDemo.
From S2P Require Import SqliteProps.
From S2P Require Import WorkerDemo.

(** [follows R m]: wherever [m] stops, it has moved along [R]. *)
Definition follows {S} (R : S -> S -> Prop) {E A} (m : SE S E A) : Prop := forall s, R s (snd (m s)).

Section Follows.
Context {S : Type} (R : S -> S -> Prop) `{!PreOrder R}.

Lemma follows_ret {E A} (a : A) : follows R (ret (E := E) a).
Proof. by intros s. Qed.
Lemma follows_lift {E A} (r : result E A) : follows R (lift r).
Proof. by intros s. Qed.
Lemma follows_bind {E A B} (m : SE S E A) (k : A -> SE S E B) :
  follows R m -> (forall a, follows R (k a)) -> follows R (bind m k).
Proof.
  intros Hm Hk s. specialize (Hm s). unfold bind. destruct (m s) as [[a|e] s1]; [|done].
  etrans; [exact Hm|apply Hk].
Qed.
Lemma follows_catch {E F A} (m : SE S E A) : follows R m -> follows R (catch (F := F) m).
Proof. intros Hm s. specialize (Hm s). unfold catch. by destruct (m s). Qed.
End Follows.

(** ** The comparison of the token, the query parameters *)

Lemma lor_zero a b : N.lor a b = 0%N <-> a = 0%N /\ b = 0%N.
Proof. apply N.lor_eq_0_iff. Qed.

Lemma xor_fold_zero a b acc :
  String.length a = String.length b -> xor_fold acc a b = 0%N <-> acc = 0%N /\ a = b.
Proof.
  revert b acc. induction a as [|x a IH]; intros [|y b] acc Hl; try done; [naive_solver|].
  cbn [xor_fold]. rewrite IH by (by injection Hl). rewrite lor_zero, N.lxor_eq_0_iff. split.
  - intros [[-> Hx] ->]. split; [done|]. f_equal. by rewrite <- (ascii_N_embedding x), <- (ascii_N_embedding y), Hx.
  - by intros [-> [= -> ->]].
Qed.

(** the administrator's token is accepted exactly when it is the one
    configured: the fold that does not depend on where two tokens differ is
    equality. *)
Theorem constant_time_eq_exact (a b : bytes) : worker_constant_time_eq a b = String.eqb a b.
Proof.
  unfold worker_constant_time_eq. destruct (Z.eqb_spec (str_len a) (str_len b)) as [Hl|Hl]; cbn [negb].
  - apply eq_true_iff_eq. rewrite N.eqb_eq, String.eqb_eq, xor_fold_zero by (unfold str_len in Hl; lia). naive_solver.
  - symmetry. apply String.eqb_neq. by intros ->.
Qed.

Lemma hex_pair_plain a b : a <> "+"%char ->
  hex_pair a b = (h ← to_digit16 a; l ← to_digit16 b; Some (h * 16 + l)).
Proof. unfold hex_pair. by destruct (Ascii.eqb_spec a "+"). Qed.

Lemma plus_to_space_digit c : to_digit16 (plus_to_space c) = to_digit16 c.
Proof. unfold plus_to_space. by destruct (Ascii.eqb_spec c "+") as [->|]. Qed.

Lemma plus_to_space_not c : plus_to_space c <> "+"%char.
Proof. unfold plus_to_space. by destruct (Ascii.eqb_spec c "+"). Qed.

Lemma worker_percent_bytes_plus s : worker_percent_bytes (map_bytes plus_to_space s) = percent_bytes s.
Proof.
  enough (forall n s, (String.length s <= n)%nat -> worker_percent_bytes (map_bytes plus_to_space s) = percent_bytes s) as Hn by by eapply Hn.
  clear s. intros n. induction n as [|n IH]; intros [|c s] Hl; try done; [cbn in Hl; lia|].
  cbn [map_bytes worker_percent_bytes percent_bytes]. cbn in Hl.
  destruct (Ascii.eqb_spec c "+") as [->|Hc].
  - cbn. f_equal. apply IH. lia.
  - assert (plus_to_space c = c) as -> by (unfold plus_to_space; by destruct (Ascii.eqb_spec c "+")).
    destruct (Ascii.eqb_spec c "%") as [->|Hp]; [|f_equal; apply IH; lia].
    destruct s as [|a [|b r]]; [done|f_equal; apply (IH (String a EmptyString)); cbn in *; lia|]. cbn [map_bytes].
    rewrite hex_pair_plain, !plus_to_space_digit by apply plus_to_space_not.
    destruct (to_digit16 a) as [h|], (to_digit16 b) as [l|]; cbn [mbind option_bind];
      f_equal; first [apply IH; cbn in *; lia|apply (IH (String a (String b r))); cbn in *; lia].
Qed.

(** the worker's own reading of a query parameter is the server's: the same
    value for every query and key. *)
Theorem worker_query_param_agrees query key : worker_query_param query key = query_param query key.
Proof.
  unfold worker_query_param, query_param. induction (split_char "&" query) as [|kv l IH]; [done|]. cbn.
  destruct (split_once "=" kv) as [[k v]|]; [|done]. destruct (String.eqb k key); [|done].
  unfold worker_percent_decode, percent_decode. by rewrite worker_percent_bytes_plus.
Qed.

(** ** What requests do to accounts and handles *)

Section Front.
Context `{Digests} `{Json} `{!JsonMore} `{Ecdsa} `{Jwt} `{Argon2} `{SqlScan} `{Base64}.
Context {Cid : Type} `{CidLib Cid} `{Countable Cid} `{CidText Cid}.
Context `{RepoSerde Cid} `{!Atrium Cid} `{!AtriumRead Cid} `{Keypairs} `{!KeypairIO} `{CarLib Cid} `{PlcLib}.
Context `{KeyCiphers} `{!Serde Value}.
Context `{!Serde ProvisionInput} `{!Serde CreateSessionInput} `{!Serde DeviceRegisterInput}.
Context `{!Serde SigninStartInput} `{!Serde DeviceDecisionInput}.
Context `{!Serde MintInviteReq} `{!Serde DeleteAccountReq} `{!Serde CheckInput} `{!Serde RegisterInput}.
Variable did_parse : string -> result string unit.
Variable verify_signature : string -> bytes -> bytes -> result string unit.
Variable plc_answer : string -> PlcGenesisOpSigned -> result CoreError unit.
Variable fetch_answer : Fetched -> result string FetchAnswer.
Variable url_parts : string -> string * list (string * string) * option string.
Variable enqueue_of_value : Value -> result string EnqueueReq.
Variable env : Env.
Implicit Types w : Deployment.

Abbreviation front_dispatch :=
  (dispatch did_parse verify_signature plc_answer fetch_answer url_parts enqueue_of_value env).

Definition accounts_of (h : string) w : gmap string AccountRow := do_accounts (db (object_of h w)).
Definition claims_of w : gmap string ClaimRow := claims (db (dp_registry w)).
Definition invites_of w : gmap string (Z * Z) := invites (db (dp_registry w)).

(** The accounts of every object stand, and so does every active handle. *)
Definition settled w w' : Prop :=
  (forall h, accounts_of h w' = accounts_of h w) /\
  (forall label row, claims_of w !! label = Some row -> cl_state row = "active" -> claims_of w' !! label = Some row).

#[local] Instance settled_preorder : PreOrder settled.
Proof.
  split; [by intros w|]. intros w1 w2 w3 [A1 C1] [A2 C2]. split; [intros h; by rewrite A2, A1|eauto].
Qed.

(** A call moves along [R] when the step it sends does. *)
Lemma follows_stub (R : Deployment -> Deployment -> Prop) `{!PreOrder R} {A} (step : Deployment -> result string A * Deployment) :
  (forall w n, R w (put_net n w)) -> (forall w, R w (snd (step w))) -> follows R (call_stub step).
Proof.
  intros Hn Hs w. unfold call_stub. pose proof (Hn w (tail (dp_net w))) as Hw1.
  destruct (dp_net w) as [|[]]; cbn [snd] in *; try done; (etrans; [exact Hw1|apply Hs]).
Qed.

Lemma settled_net w n : settled w (put_net n w).
Proof. by split. Qed.
Lemma settled_sequencer w o : settled w (put_sequencer o w).
Proof. by split. Qed.

(** A registry request that neither binds nor force-releases. *)
Definition mild (req : RegistryReq) : bool :=
  match req with ReqBind _ _ | ReqForceRelease _ => false | _ => true end.

Lemma settled_registry now req : mild req = true -> follows settled (call_registry now req).
Proof.
  intros Hm. apply follows_stub; [apply _|apply settled_net|]. intros w. split.
  - intros h. unfold accounts_of. by destruct (registry_fetch now req (dp_registry w)) as [[] r].
  - intros label row Hr Ha. pose proof (request_keeps_active label row now req Ha ltac:(by destruct req) _ Hr) as Hk.
    rewrite <- registry_fetch_snd in Hk. unfold claims_of.
    by destruct (registry_fetch now req (dp_registry w)) as [[] r].
Qed.

Lemma settled_object {B} h (m : SE Deployment WFail B) : (forall A, inside h (accounts_are A) m) -> follows settled m.
Proof.
  intros Hm w. split.
  - intros h'. unfold accounts_of. destruct (decide (h' = h)) as [->|Hh].
    + by destruct (Hm (do_accounts (db (object_of h w))) w) as [_ ->].
    + destruct (Hm ∅ w) as [[_ He] _]. by rewrite He.
  - intros label row Hr _. destruct (Hm ∅ w) as [[He _] _]. unfold claims_of in *. by rewrite He.
Qed.

Ltac settled_auto :=
  repeat first
    [ apply follows_bind; [apply _| |intros ?]
    | apply follows_ret; apply _ | apply follows_lift; apply _ | apply follows_catch; [..|]
    | by apply settled_registry
    | progress cbn beta iota zeta | progress case_match ].

Lemma targets_settled now host path method bearer body target :
  follows settled (shared_target env now host path) /\ follows settled (token_target env now host path bearer target) /\
  follows settled (login_target env now host method path body target).
Proof.
  unfold shared_target, token_target, login_target, repo_scoped_target, session_target, label_host.
  split_and!; settled_auto.
Qed.

Lemma pick_settled now host path req : follows settled (pick_object env now host path req).
Proof.
  unfold pick_object. destruct (targets_settled now host path (fq_method req) (front_bearer req) None host) as (Hs & _ & _).
  apply follows_bind; [apply _|exact Hs|intros t1]. apply follows_bind; [apply _|apply follows_lift; apply _|intros body].
  apply follows_bind; [apply _| |intros t2]; [by apply targets_settled; repeat constructor|].
  apply follows_bind; [apply _| |intros t3]; [by apply targets_settled; repeat constructor|apply follows_ret; apply _].
Qed.

(** The runtime hands over a path that is already normalised: reading the
    forwarded URL gives it back. *)
Definition path_is_normal (path : string) : Prop := fst (fst (url_parts path)) = route_of path.

Lemma before_char_prefix c s : exists r, s = before_char c s +:+ r.
Proof.
  unfold before_char. destruct (split_once c s) as [[x y]|] eqn:E; [|exists EmptyString; by rewrite str_app_nil_r].
  apply split_once_Some in E as [-> _]. by exists (String c y).
Qed.

Lemma starts_with_before p c s : starts_with p s = false -> starts_with p (before_char c s) = false.
Proof.
  intros Hs. apply not_true_iff_false. intros Hb. destruct (before_char_prefix c s) as [r Er].
  apply starts_with_spec in Hb as [x Hx]. rewrite Hx in Er. apply not_true_iff_false in Hs. apply Hs.
  apply starts_with_spec. exists (x +:+ r). by rewrite Er, str_app_assoc.
Qed.

Lemma not_internal path p : starts_with "/_stelyph/" path = false -> p = route_of path -> account_arm p = false.
Proof.
  intros Hs ->. unfold route_of. apply (starts_with_before _ "?") in Hs. unfold account_arm. apply orb_false_iff.
  split; apply String.eqb_neq; intros E; by rewrite E in Hs.
Qed.

Lemma forward_settled d host path req : path_is_normal path -> starts_with "/_stelyph/" path = false ->
  follows settled (WorkerFront.forward did_parse verify_signature plc_answer fetch_answer url_parts env d host path req).
Proof.
  intros Hu Hs. unfold WorkerFront.forward. apply follows_bind; [apply _|apply pick_settled|intros [target body]].
  apply follows_bind; [apply _| |intros r; apply follows_ret; apply _].
  apply follows_stub; [apply _|apply settled_net|]. intros w. unfold object_fetch.
  assert (forall A, inside target (accounts_are A) (object_route did_parse verify_signature plc_answer fetch_answer env
    target (fd_obj d) (forward_req url_parts path req body))) as Hi.
  { intros A. apply object_route_calm, (not_internal path); [done|]. unfold forward_req. unfold path_is_normal in Hu.
    by destruct (url_parts path) as [[p q] raw]. }
  pose proof (settled_object _ _ Hi w) as Hset. by destruct (object_route _ _ _ _ _ _ _ _ w).
Qed.

Lemma refused_settled not_configured presented (m : SE Deployment string FrontAnswer) :
  en_admin_token env <> Some presented ->
  follows settled (match admin_refusal env not_configured presented with Some r => ret r | None => m end) .
Proof.
  intros Ha. unfold admin_refusal. destruct (en_admin_token env) as [expected|]; [|apply follows_ret; apply _].
  rewrite constant_time_eq_exact. destruct (String.eqb_spec presented expected) as [->|]; [done|]. apply follows_ret; apply _.
Qed.

(** A registration, where the host serves it. *)
Definition is_registration (req : FrontReq) : bool :=
  String.eqb (fq_method req) "POST" &&
  String.eqb (route_of (fq_path_and_query req)) "/xrpc/com.atproto.server.createAccount".

Lemma check_handle_settled now body : follows settled (check_handle now body).
Proof. unfold check_handle. settled_auto. Qed.

Lemma signup_settled d host req m :
  en_admin_token env <> Some (default EmptyString (fq_admin req)) -> is_registration req = false ->
  signup_surface plc_answer enqueue_of_value env d host (fq_path_and_query req) req = Some m -> follows settled m.
Proof.
  unfold is_registration, signup_surface. intros Ha Hr. destruct (is_signup_host _ _ _); [|done]. cbn [negb].
  destruct (String.eqb (fq_method req) "GET").
  { case_match; [|done]. intros [= <-]. apply follows_ret; apply _. }
  destruct (String.eqb (fq_method req) "POST"); [|done]. cbn [andb] in Hr. rewrite Hr. cbv zeta.
  repeat (case_match; [intros [= <-]; apply follows_bind; [apply _|apply follows_lift; apply _|intros body]|]); [..|done].
  - apply check_handle_settled.
  - by apply refused_settled.
  - by apply refused_settled.
  - by apply refused_settled.
Qed.

(** C9: without the administrator's token nothing but a registration touches an
    account or an active handle: whatever a request asks for, whatever host it
    names and whatever messages or statements fail, every object keeps exactly
    the accounts it had and every active handle its DID.  In particular the
    internal paths of the objects cannot be reached from outside. *)
Theorem accounts_guarded (d : FrontDraw) (req : FrontReq) w
    (Hurl : path_is_normal (fq_path_and_query req))
    (Hreg : is_registration req = false)
    (Hadmin : en_admin_token env <> Some (default EmptyString (fq_admin req))) :
  let w' := snd (front_fetch did_parse verify_signature plc_answer fetch_answer url_parts enqueue_of_value env d req w) in
  (forall h, accounts_of h w' = accounts_of h w) /\
  (forall label row, claims_of w !! label = Some row -> cl_state row = "active" -> claims_of w' !! label = Some row).
Proof.
  revert w. change (follows settled (front_fetch did_parse verify_signature plc_answer fetch_answer url_parts enqueue_of_value env d req)).
  unfold front_fetch. case_match; [apply follows_ret; apply _|].
  apply follows_bind; [apply _| |intros r; apply follows_ret; apply _].
  unfold dispatch. case_match; [apply follows_ret; apply _|].
  destruct (signup_surface _ _ _ _ _ _ _) as [m|] eqn:Es; [by eapply signup_settled|].
  destruct (starts_with "/_stelyph/" (fq_path_and_query req)) eqn:Ei; [apply follows_ret; apply _|].
  destruct (is_subscribe _); [|by apply forward_settled].
  destruct (url_parts _) as [[p q] raw]. apply follows_bind; [apply _| |intros r; apply follows_ret; apply _].
  apply follows_stub; [apply _|apply settled_net|]. intros w.
  destruct (sequencer_fetch _ _ _ _) as [r o]. apply settled_sequencer.
Qed.

(** ** One account per object *)

Definition all_single w w' : Prop :=
  (forall h, one_account (db (object_of h w))) -> forall h, one_account (db (object_of h w')).

#[local] Instance all_single_preorder : PreOrder all_single.
Proof. split; [by intros w Hw|]. intros w1 w2 w3 S1 S2. unfold all_single in *. auto. Qed.

Lemma single_same w w' : dp_objects w' = dp_objects w -> all_single w w'.
Proof. intros E Hw h. unfold object_of. rewrite E. apply Hw. Qed.

Lemma single_registry now req : follows all_single (call_registry now req).
Proof.
  apply follows_stub; [apply _|by intros w n; apply single_same|]. intros w.
  apply single_same. by destruct (registry_fetch now req (dp_registry w)) as [[] r].
Qed.

Lemma single_inside {A} h (m : SE Deployment WFail A) : inside h one_account m -> follows all_single m.
Proof.
  intros Hm w Hw h'. destruct (Hm w) as [[_ He] Hi]. destruct (decide (h' = h)) as [->|Hh]; [by apply Hi, Hw|].
  rewrite He by done. apply Hw.
Qed.

Lemma single_object h m : inside h one_account m -> follows all_single (call_object m).
Proof.
  intros Hm. apply follows_stub; [apply _|by intros w n; apply single_same|]. intros w.
  pose proof (single_inside h m Hm w) as Hs. destruct (m w) as [r w']. cbn [snd] in *. by destruct (reply_of r).
Qed.

Lemma settled_single {A} (m : SE Deployment string A) : follows settled m -> follows all_single m.
Proof.
  intros Hm w Hw h. destruct (Hm w) as [Ha _]. specialize (Ha h). unfold accounts_of, one_account in *. rewrite Ha. apply Hw.
Qed.

Ltac single_auto :=
  repeat first
    [ apply follows_bind; [apply _| |intros ?]
    | apply follows_ret; apply _ | apply follows_lift; apply _ | apply follows_catch
    | apply single_registry
    | eapply single_object; first [apply object_provision_one|apply object_delete_one]
    | progress cbn beta iota zeta | progress case_match ].

Lemma single_inject q presented body : follows all_single (firehose_inject enqueue_of_value env q presented body).
Proof.
  unfold firehose_inject. single_auto; (apply follows_stub; [apply _|by intros w n; apply single_same|]);
    intros w; repeat case_match; by apply single_same.
Qed.

Lemma single_surface d host path req m :
  signup_surface plc_answer enqueue_of_value env d host path req = Some m -> follows all_single m.
Proof.
  unfold signup_surface. destruct (is_signup_host _ _ _); [|done]. cbn [negb].
  destruct (String.eqb (fq_method req) "GET").
  { case_match; [|done]. intros [= <-]. apply follows_ret; apply _. }
  destruct (String.eqb (fq_method req) "POST"); [|done]. cbv zeta.
  repeat (case_match; [intros [= <-]; apply follows_bind; [apply _|apply follows_lift; apply _|intros body]|]); [..|done].
  - apply settled_single, check_handle_settled.
  - unfold register. single_auto.
  - unfold mint_invite. single_auto.
  - unfold front_delete_account. single_auto.
  - apply single_inject.
Qed.

Lemma single_forward d host path req :
  follows all_single (WorkerFront.forward did_parse verify_signature plc_answer fetch_answer url_parts env d host path req).
Proof.
  unfold WorkerFront.forward. apply follows_bind; [apply _|apply settled_single, pick_settled|intros [target body]].
  apply follows_bind; [apply _| |intros r; apply follows_ret; apply _].
  apply follows_stub; [apply _|by intros w n; apply single_same|]. intros w. unfold object_fetch.
  pose proof (single_inside target _ (object_route_one did_parse verify_signature plc_answer fetch_answer env target (fd_obj d)
    (forward_req url_parts path req body)) w) as Hs.
  by destruct (object_route _ _ _ _ _ _ _ _ w).
Qed.

(** The requests the deployment sees, one after another. *)
Definition front_run (reqs : list (FrontDraw * FrontReq)) w : Deployment :=
  foldl (fun w '(d, req) =>
    snd (front_fetch did_parse verify_signature plc_answer fetch_answer url_parts enqueue_of_value env d req w)) w reqs.

(** C30: an account object is one account's: whatever requests a deployment gets,
    registrations and administration among them, and whatever messages and
    statements fail, no object ever holds two. *)
Theorem one_account_per_object (reqs : list (FrontDraw * FrontReq)) w :
  (forall h, one_account (db (object_of h w))) -> forall h, one_account (db (object_of h (front_run reqs w))).
Proof.
  revert w. induction reqs as [|[d req] reqs IH]; intros w Hw; [done|]. cbn [front_run foldl]. apply IH.
  revert w Hw. change (follows all_single (front_fetch did_parse verify_signature plc_answer fetch_answer url_parts enqueue_of_value env d req)).
  unfold front_fetch. case_match; [apply follows_ret; apply _|].
  apply follows_bind; [apply _| |intros r; apply follows_ret; apply _].
  unfold dispatch. case_match; [apply follows_ret; apply _|].
  destruct (signup_surface _ _ _ _ _ _ _) as [m|] eqn:Es; [by eapply single_surface|].
  case_match; [apply follows_ret; apply _|]. destruct (is_subscribe _); [|apply single_forward].
  destruct (url_parts _) as [[p q] raw]. apply follows_bind; [apply _| |intros r; apply follows_ret; apply _].
  apply follows_stub; [apply _|by intros w n; apply single_same|]. intros w.
  destruct (sequencer_fetch _ _ _ _) as [r o]. by apply single_same.
Qed.

(** ** Registration *)

Lemma call_stub_Ok {A} (step : Deployment -> result string A * Deployment) w a w' :
  call_stub step w = (Ok a, w') -> exists n, step (put_net n w) = (Ok a, w').
Proof. unfold call_stub. destruct (dp_net w) as [|[]]; intros E; try done; eauto. Qed.

(** Everything but the registry and the messages to come. *)
Definition beside w w' : Prop :=
  dp_objects w' = dp_objects w /\ dp_posts w' = dp_posts w /\ dp_sequencer w' = dp_sequencer w /\
  dp_fetched w' = dp_fetched w.

Lemma call_registry_Ok now req w reply w' :
  call_registry now req w = (Ok reply, w') ->
  registry_fetch now req (dp_registry w) = (reply, dp_registry w') /\ beside w w'.
Proof.
  intros E. apply call_stub_Ok in E as [n E]. cbn in E. destruct (registry_fetch _ _ _) as [rep r].
  destruct rep; try done; injection E as <- <-; by repeat split.
Qed.

(** A message to the registry, arriving or not. *)
Lemma call_registry_keeps I now req w :
  conn_keeps I (registry_route now req) -> I (db (dp_registry w)) ->
  let w' := snd (call_registry now req w) in I (db (dp_registry w')) /\ beside w w'.
Proof.
  intros Hk Hi. pose proof (Hk _ Hi) as Hk'. rewrite <- registry_fetch_snd in Hk'. unfold call_registry, call_stub.
  destruct (dp_net w) as [|[]]; cbn; destruct (registry_fetch now req (dp_registry w)) as [[] r]; by repeat split.
Qed.

Lemma registry_active_handle now label did (row : ClaimRow) (C : gmap string ClaimRow) (I : gmap string (Z * Z)) :
  let bound := MkClaim (Some did) "active" (cl_invite_code row) (cl_created_at row) in
  conn_keeps (fun r => (claims r !! label = Some row \/ claims r !! label = Some bound) /\
                       (forall l, l <> label -> claims r !! l = C !! l) /\ invites r = I)
    (registry_route now (ReqBind label did)).
Proof.
  intros bound. cbn. unfold bind_did. apply conn_keeps_bind; [apply open_sql_keeps; by intros|intros u].
  apply conn_keeps_bind; [|intros u'; apply conn_keeps_ret]. apply conn_keeps_stmt.
  intros r a r' [= _ <-] (Hr & Hl & Hi). cbn. split_and!; [|intros l Hn|done].
  - right. rewrite lookup_alter_eq. by destruct Hr as [-> | ->].
  - rewrite lookup_alter_ne by done. by apply Hl.
Qed.

(** The object is the migrated one with this account and its two keys, encrypted
    under the passphrase of the deployment, and nothing else of it changed. *)
Definition object_provisioned h did row (a : AccountDraw) w w' : Prop :=
  exists pass b1 b2, en_key_passphrase env = Some pass /\
    encrypt_key (ad_signing_salt a) (ad_signing_nonce a) (kp_export (ad_signing a)) pass = Ok b1 /\
    encrypt_key (ad_rotation_salt a) (ad_rotation_nonce a) (kp_export (ad_rotation a)) pass = Ok b2 /\
    db (object_of h w') = provisioned_db did row b1 b2
      (put_counter (Some (default 0 (seq_counter (db (object_of h w))))) (db (object_of h w))).

(** Opening an object's store. *)
Lemma open_store_Ok h w w1 :
  open_store h w = (Ok tt, w1) ->
  exists s, w1 = put_object h s w /\
    db s = put_counter (Some (default 0 (seq_counter (db (object_of h w))))) (db (object_of h w)).
Proof.
  unfold open_store, on_object. destruct (with_err _ _ (object_of h w)) as [[[]|e] s] eqn:E; [|done].
  intros [= <-]. exists s. split; [done|]. apply with_err_Ok in E. apply sql_Ok in E. by injection E as <-.
Qed.

(** A provisioning that created an account, in its deployment. *)
Lemma object_provision_Created `{!DigestLaws} `{!KeypairLaws} h d input w did access refresh w' :
  object_provision plc_answer env h d input w = (Ok (OaProvisioned (Created did access refresh)), w') ->
  exists secret phc gop,
    en_jwt_secret env = Some secret /\ 8 <= str_len (pi_password input) /\
    hash_password (ad_phc_salt (od_account d)) (pi_password input) = Ok phc /\
    worker_tokens did secret (sd_uuid (ad_session (od_account d))) (sd_now_access (ad_session (od_account d)))
      (sd_now_refresh (ad_session (od_account d))) = Ok (access, refresh) /\
    accounts_of h w = ∅ /\
    accounts_of h w' = {[did := MkAccountRow (Some (pi_handle input)) (pi_email input) phc (ad_created_at (od_account d)) None None]} /\
    dp_posts w' = dp_posts w ++ [(did, gop)] /\ plc_answer did gop = Ok tt /\
    pg_also_known_as gop = ["at://" +:+ pi_handle input] /\
    dp_registry w' = dp_registry w /\ (forall h', h' <> h -> object_of h' w' = object_of h' w) /\
    dp_sequencer w' = dp_sequencer w /\ dp_fetched w' = dp_fetched w /\
    object_provisioned h did (MkAccountRow (Some (pi_handle input)) (pi_email input) phc (ad_created_at (od_account d)) None None)
      (od_account d) w w'.
Proof.
  intros E. pose proof (object_provision_one plc_answer env h d input w) as [[Hreg Hoth] _]. rewrite E in Hreg, Hoth.
  unfold object_provision in E. apply bind_Ok in E as ([] & w1 & E1 & E).
  apply open_store_Ok in E1 as (s1 & -> & Hd1).
  apply bind_Ok in E as (pass & w2 & E2 & E). apply WorkerProps.lift_Ok in E2 as [Epass ->].
  apply bind_Ok in E as (secret & w2 & E2 & E). apply WorkerProps.lift_Ok in E2 as [Esec ->].
  apply bind_Ok in E as (o & w2 & E2 & E). injection E as -> ->. unfold on_provision in E2.
  rewrite object_put_same in E2. change (dp_posts (put_object h s1 w)) with (dp_posts w) in E2.
  destruct (provision_account _ _ _ _ _ _ _ _ _) as [r [s posts]] eqn:Ep. injection E2 as -> E2.
  apply ok_or_Ok in Esec. apply ok_or_Ok in Epass.
  apply (provision_Created plc_answer) in Ep as (Hlen & Hno & Hplc & phc & b1 & b2 & Hphc & Hb1 & Hb2 & Hdb & Htok).
  apply (register_did_plc_Ok plc_answer) in Hplc as (gop & _ & _ & _ & Hposts & Hans & _ & _ & Haka & _).
  assert (object_of h w' = s) as Ho.
  { rewrite <- E2. change (object_of h _) with (object_of h (put_object h s (put_object h s1 w))). by rewrite object_put_same. }
  exists secret, phc, gop. unfold accounts_of. rewrite Ho. rewrite Hd1 in Hno, Hdb.
  split_and!; try done; [by rewrite Hdb|by rewrite <- E2..|].
  exists pass, b1, b2. by rewrite Ho.
Qed.

Lemma register_label_Ok handle label :
  register_label env handle = Ok label -> handle = label +:+ "." +:+ zone_suffix env /\ label_spec label.
Proof.
  unfold register_label. destruct (strip_suffix _ handle) as [l|] eqn:E; [|done]. cbn.
  destruct (validate_label l) as [[]|] eqn:Ev; [|done]. cbn. intros [= ->]. split; [by apply strip_suffix_Some|].
  by apply validate_label_iff.
Qed.

Lemma register_label_Err handle refusal :
  register_label env handle = Err refusal -> exists st e m, refusal = FaError st e m.
Proof.
  unfold register_label. destruct (strip_suffix _ handle) as [l|]; cbn; [|intros [= <-]; by do 3 eexists].
  destruct (validate_label l); cbn; [done|]. intros [= <-]. by do 3 eexists.
Qed.

(** What the object's answer to a provisioning is. *)
Lemma provision_answer h d input w a w' :
  object_provision plc_answer env h d input w = (Ok a, w') -> exists o, a = OaProvisioned o.
Proof.
  unfold object_provision. intros E. do 4 (apply bind_Ok in E as (? & ? & _ & E)). injection E as <- _. by eexists.
Qed.

Lemma provision_call h d input w a w' :
  catch (F := string) (call_object (object_provision plc_answer env h d input)) w = (Ok (Ok (OrAnswer a)), w') ->
  exists n, object_provision plc_answer env h d input (put_net n w) = (Ok a, w').
Proof.
  unfold catch. destruct (call_object _ w) as [r w1] eqn:E. intros [= -> ->]. apply call_stub_Ok in E as [n E]. exists n.
  destruct (object_provision _ _ _ _ _ _) as [[b|[]] w2]; cbn in E; try done. by injection E as -> ->.
Qed.

(** What a registration that answers with an account has done. *)
Lemma registration_facts `{!DigestLaws} `{!KeypairLaws} now d body w r w'
    (Hok : register plc_answer env now d body w = (Ok (FaCreated r), w')) :
  exists input label secret phc gop code,
    from_slice body = Ok input /\
    rr_handle r = to_ascii_lowercase (trim (ri_handle input)) /\ rr_handle r = label +:+ "." +:+ zone_suffix env /\
    label_spec label /\
    let password := default EmptyString (ri_password input) in
    8 <= str_len password /\ hash_password (ad_phc_salt (od_account d)) password = Ok phc /\
    en_jwt_secret env = Some secret /\
    worker_tokens (rr_did r) secret (sd_uuid (ad_session (od_account d))) (sd_now_access (ad_session (od_account d)))
      (sd_now_refresh (ad_session (od_account d))) = Ok (rr_access_jwt r, rr_refresh_jwt r) /\
    claims_of w !! label = None /\ accounts_of (rr_handle r) w = ∅ /\
    accounts_of (rr_handle r) w' =
      {[rr_did r := MkAccountRow (Some (rr_handle r)) (ri_email input) phc (ad_created_at (od_account d)) None None]} /\
    dp_posts w' = dp_posts w ++ [(rr_did r, gop)] /\ plc_answer (rr_did r) gop = Ok tt /\
    pg_also_known_as gop = ["at://" +:+ rr_handle r] /\
    (claims_of w' !! label = Some (MkClaim None "reserved" code now) \/
     claims_of w' !! label = Some (MkClaim (Some (rr_did r)) "active" code now)) /\
    (forall l, l <> label -> claims_of w' !! l = claims_of w !! l) /\
    (forall h, h <> rr_handle r -> object_of h w' = object_of h w) /\
    (if open_registration env then code = None /\ invites_of w' = invites_of w
     else exists spent uses, ri_invite_code input = Some spent /\ code = Some spent /\
            invites_of w !! spent = Some (uses, 0) /\ 0 < uses <= i64_max /\
            invites_of w' = <[spent := (uses - 1, 0)]> (invites_of w)) /\
    dp_sequencer w' = dp_sequencer w /\ dp_fetched w' = dp_fetched w /\
    object_provisioned (rr_handle r) (rr_did r)
      (MkAccountRow (Some (rr_handle r)) (ri_email input) phc (ad_created_at (od_account d)) None None)
      (od_account d) w w'.
Proof.
  unfold register in Hok. destruct (from_slice body) as [input|] eqn:Eb; [|done]. cbv zeta in Hok.
  set (handle := to_ascii_lowercase (trim (ri_handle input))) in *.
  destruct (register_label env handle) as [label|refusal] eqn:El; [|apply register_label_Err in El as (? & ? & ? & ->); done].
  apply register_label_Ok in El as [Hh Hl].
  destruct (Z.ltb_spec (str_len (default EmptyString (ri_password input))) 8) as [|Hlen]; [done|].
  apply bind_Ok in Hok as (claimed & w1 & E1 & Hok). apply call_registry_Ok in E1 as [E1 (Ho1 & Hp1 & Hq1 & Hf1)].
  destruct (claim_ok claimed) eqn:Ec; [|done]. cbn [negb] in Hok.
  destruct claimed as [|ok err| |]; try done. cbn in Ec. subst ok. apply claim_spends in E1 as (code & Hfree & Hc1 & Hinv1).
  apply bind_Ok in Hok as (prov & w2 & E2 & Hok).
  destruct prov as [v|e]; [|apply bind_Ok in Hok as (x & w3 & _ & Hok); done].
  destruct (reply_ok v) eqn:Ev; [|apply bind_Ok in Hok as (x & w3 & _ & Hok); by destruct v].
  destruct v as [a| |]; [|done..]. apply provision_call in E2 as [n E2].
  destruct (provision_answer _ _ _ _ _ _ E2) as [o ->]. destruct o as [did access refresh|]; [|done].
  apply bind_Ok in Hok as (bound & w3 & E3 & Hok). injection Hok as <- <-. cbn [rr_handle rr_did rr_access_jwt rr_refresh_jwt].
  apply object_provision_Created in E2
    as (secret & phc & gop & Hs & _ & Hphc & Htok & Hno & Hrow & Hp2 & Hans & Haka & Hr2 & Ho2 & Hq2 & Hf2 & Hprov).
  cbn [pi_handle pi_email pi_password] in *.
  destruct (call_registry_keeps _ now (ReqBind label did) w2
    (registry_active_handle now label did (MkClaim None "reserved" code now) (claims_of w) (invites_of w1)))
    as [(Hc3 & Hl3 & Hi3) (Ho3 & Hp3 & Hq3 & Hf3)].
  { rewrite Hr2. change (dp_registry (put_net n w1)) with (dp_registry w1). rewrite Hc1.
    split_and!; [left; by rewrite lookup_insert_eq| |done]. intros l Hn. by rewrite lookup_insert_ne. }
  assert (w3 = snd (call_registry now (ReqBind label did) w2)) as ->.
  { unfold catch in E3. by destruct (call_registry now (ReqBind label did) w2) as [[] ?]; injection E3 as _ <-. }
  assert (forall h, object_of h (snd (call_registry now (ReqBind label did) w2)) = object_of h w2) as Hobj
    by (intros h; unfold object_of; by rewrite Ho3).
  assert (forall h, object_of h (put_net n w1) = object_of h w) as Hobj1 by (intros h; unfold object_of; cbn; by rewrite Ho1).
  exists input, label, secret, phc, gop, code. unfold accounts_of, object_provisioned in *. rewrite !Hobj, !Hobj1 in *. cbv zeta.
  split_and!; try done.
  - rewrite Hp3, Hp2. cbn. by rewrite Hp1.
  - intros h Hh'. rewrite Hobj, Ho2 by done. apply Hobj1.
  - unfold invites_of in *. by rewrite Hi3.
  - by rewrite Hq3, Hq2.
  - by rewrite Hf3, Hf2.
Qed.

(** C3: a registration that answers with an account has, whatever statements and
    messages failed on the way: found the handle valid and free and its object
    without an account; posted the identity of this handle, which the ledger
    accepted; left one account with that DID, handle and password in the object,
    with its two keys, encrypted under the deployment's passphrase, and nothing
    else of the object's storage changed but that it is migrated; left the handle
    taken — active for the DID, or still reserved when the last message was lost;
    and spent, unless registration is open, exactly one use of the enabled code
    it was given, and no use of any other.  Every other handle and object, the
    sequencer and what was fetched are as they were. *)
Theorem registration_sound `{!DigestLaws} `{!KeypairLaws} now d body w r w'
    (Hok : register plc_answer env now d body w = (Ok (FaCreated r), w')) :
  exists input label secret phc gop code,
    from_slice body = Ok input /\
    rr_handle r = to_ascii_lowercase (trim (ri_handle input)) /\ rr_handle r = label +:+ "." +:+ zone_suffix env /\
    label_spec label /\
    let password := default EmptyString (ri_password input) in
    8 <= str_len password /\ hash_password (ad_phc_salt (od_account d)) password = Ok phc /\
    en_jwt_secret env = Some secret /\
    worker_tokens (rr_did r) secret (sd_uuid (ad_session (od_account d))) (sd_now_access (ad_session (od_account d)))
      (sd_now_refresh (ad_session (od_account d))) = Ok (rr_access_jwt r, rr_refresh_jwt r) /\
    claims_of w !! label = None /\ accounts_of (rr_handle r) w = ∅ /\
    accounts_of (rr_handle r) w' =
      {[rr_did r := MkAccountRow (Some (rr_handle r)) (ri_email input) phc (ad_created_at (od_account d)) None None]} /\
    dp_posts w' = dp_posts w ++ [(rr_did r, gop)] /\ plc_answer (rr_did r) gop = Ok tt /\
    pg_also_known_as gop = ["at://" +:+ rr_handle r] /\
    (claims_of w' !! label = Some (MkClaim None "reserved" code now) \/
     claims_of w' !! label = Some (MkClaim (Some (rr_did r)) "active" code now)) /\
    (forall l, l <> label -> claims_of w' !! l = claims_of w !! l) /\
    (forall h, h <> rr_handle r -> object_of h w' = object_of h w) /\
    (if open_registration env then code = None /\ invites_of w' = invites_of w
     else exists spent uses, ri_invite_code input = Some spent /\ code = Some spent /\
            invites_of w !! spent = Some (uses, 0) /\ 0 < uses <= i64_max /\
            invites_of w' = <[spent := (uses - 1, 0)]> (invites_of w)) /\
    dp_sequencer w' = dp_sequencer w /\ dp_fetched w' = dp_fetched w /\
    object_provisioned (rr_handle r) (rr_did r)
      (MkAccountRow (Some (rr_handle r)) (ri_email input) phc (ad_created_at (od_account d)) None None)
      (od_account d) w w'.
Proof. exact (registration_facts now d body w r w' Hok). Qed.

(** *** When it is refused, and when a reply is lost *)

(** Everything arrives, and the registry's engine fails nothing. *)
Definition calm_registry w : Prop := dp_net w = [] /\ faults (dp_registry w) = [].

(** A registration without failures, up to its provisioning: the handle taken,
    and what giving it back leaves. *)
Lemma granted_release now label code open (r : RegistryDb) x r1 :
  claim_fun label code open now r = (Ok (OkResp true x), r1) ->
  claims (release_fun label r1) = claims r /\ invites (release_fun label r1) = invites r.
Proof.
  unfold claim_fun. case_decide as Hd; [done|]. apply eq_None_not_Some in Hd. cbn in Hd.
  destruct open.
  - intros [= _ <-]. unfold release_fun. cbn. rewrite lookup_insert_eq. cbn. rewrite delete_insert_id by done. done.
  - destruct code as [code|]; [|done]. destruct (invites (opened r) !! code) as [[uses dis]|] eqn:Ei; [|done].
    destruct (uses <=? i64_max); [|done]. cbn [negb]. destruct ((dis =? 0) && (0 <? uses)) eqn:Ev; [|done].
    intros [= _ <-]. unfold release_fun. cbn. rewrite lookup_insert_eq. cbn. rewrite delete_insert_id by done. split; [done|].
    rewrite (alter_present _ _ _ (uses - 1, dis)) by apply lookup_insert_eq. rewrite insert_insert_eq.
    replace (uses - 1 + 1) with uses by lia. by apply insert_id.
Qed.

(** [netless m]: no message is sent, and none waiting matters. *)
Definition netless {E A} (m : SE Deployment E A) : Prop :=
  forall w n, m (put_net n w) = (fst (m w), put_net n (snd (m w))).

Lemma netless_bind {E A B} (m : SE Deployment E A) (k : A -> SE Deployment E B) :
  netless m -> (forall a, netless (k a)) -> netless (bind m k).
Proof. intros Hm Hk w n. unfold bind. rewrite Hm. destruct (m w) as [[a|e] w1]; cbn; [apply Hk|done]. Qed.

Lemma provision_netless h d input : netless (object_provision plc_answer env h d input).
Proof.
  assert (forall A (m : SE DoStore WFail A), netless (on_object h m)) as Hobj.
  { intros A m w n. unfold on_object. change (object_of h (put_net n w)) with (object_of h w). by destruct (m _). }
  unfold object_provision. apply netless_bind; [apply Hobj|intros _].
  apply netless_bind; [done|intros pass]. apply netless_bind; [done|intros secret].
  apply netless_bind; [|done]. intros w n. unfold on_provision.
  change (object_of h (put_net n w)) with (object_of h w). change (dp_posts (put_net n w)) with (dp_posts w).
  by destruct (provision_account _ _ _ _ _ _ _ _ _) as [r [s posts]].
Qed.

Lemma put_net_same w : put_net (dp_net w) w = w.
Proof. by destruct w. Qed.

Lemma netless_keeps {E A} (m : SE Deployment E A) w : netless m -> dp_net (snd (m w)) = dp_net w.
Proof. intros Hm. pose proof (Hm w (dp_net w)) as E0. rewrite put_net_same in E0. by rewrite E0. Qed.

(** The next message arrives. *)
Definition arrives w : Prop := match dp_net w with [] | Delivered :: _ => True | _ => False end.

Lemma arrives_stub {A} (step : Deployment -> result string A * Deployment) w :
  arrives w -> call_stub step w = step (put_net (tail (dp_net w)) w).
Proof. unfold arrives, call_stub. by destruct (dp_net w) as [|[]]. Qed.

(** The registry after a claim, and after a release. *)
Lemma call_claim now label code open w :
  arrives w -> faults (dp_registry w) = [] ->
  call_registry now (ReqClaim label code open) w =
  let x := claim_fun label code open now (db (dp_registry w)) in
  (match fst x with Ok reply => Ok reply | Err e => Err ("not JSON: registry error: " +:+ e) end,
   put_registry (MkConn (snd x) []) (put_net (tail (dp_net w)) w)).
Proof.
  intros Ha Hf. unfold call_registry. rewrite arrives_stub by done. cbn [dp_registry put_net]. unfold registry_fetch.
  destruct (dp_registry w) as [r fs]. cbn in Hf. subst fs. cbn [registry_route db]. rewrite claim_sound. cbv zeta.
  destruct (claim_fun label code open now r) as [[reply|e] r'] eqn:E; [|done].
  cbn. revert E. unfold claim_fun. repeat case_match; by intros [= <- _].
Qed.

Lemma call_release now label w :
  arrives w -> faults (dp_registry w) = [] ->
  call_registry now (ReqRelease label) w =
  (Ok ok_resp, put_registry (MkConn (release_fun label (db (dp_registry w))) []) (put_net (tail (dp_net w)) w)).
Proof.
  intros Ha Hf. unfold call_registry. rewrite arrives_stub by done. cbn [dp_registry put_net]. unfold registry_fetch.
  destruct (dp_registry w) as [r fs]. cbn in Hf. subst fs. cbn [registry_route db]. by rewrite release_sound.
Qed.

(** What a registration does once its handle and password are fine. *)
Definition register_tail (now : string) (d : ObjDraw) (input : RegisterInput) (handle label : string) : SE Deployment string FrontAnswer :=
  (let! provisioned := catch (call_object (object_provision plc_answer env handle d
                         (MkProvisionInput handle (ri_email input) (default EmptyString (ri_password input))))) in
   match provisioned with
   | Ok v =>
       if reply_ok v then
         let '(did, access, refresh) := reply_created v in
         let! _ := catch (call_registry now (ReqBind label did)) in
         ret (FaCreated (MkRegisterResponse access refresh handle did))
       else
         let! _ := catch (call_registry now (ReqRelease label)) in
         ret (provision_refused provisioned)
   | Err _ =>
       let! _ := catch (call_registry now (ReqRelease label)) in
       ret (provision_refused provisioned)
   end)%se.

Lemma register_cases now d body w r w' :
  register plc_answer env now d body w = (r, w') ->
  (w' = w /\ exists st e m, r = Ok (FaError st e m)) \/
  exists input handle label,
    from_slice body = Ok input /\ handle = to_ascii_lowercase (trim (ri_handle input)) /\
    register_label env handle = Ok label /\ 8 <= str_len (default EmptyString (ri_password input)) /\
    (let! claimed := call_registry now (ReqClaim label (ri_invite_code input) (open_registration env)) in
     if negb (claim_ok claimed) then ret (claim_refused claimed) else register_tail now d input handle label)%se w = (r, w').
Proof.
  unfold register. destruct (from_slice body) as [input|]; [|intros [= <- <-]; left; by eauto]. cbv zeta.
  set (handle := to_ascii_lowercase _). destruct (register_label env handle) as [label|refusal] eqn:El.
  - destruct (Z.ltb_spec (str_len (default EmptyString (ri_password input))) 8) as [|Hlen]; [intros [= <- <-]; left; by eauto|].
    intros E. right. exists input, handle, label. by split_and!.
  - apply register_label_Err in El as (st & e & m & ->). intros [= <- <-]. left. by eauto.
Qed.

Lemma claim_fun_refused label code open now (r : RegistryDb) reply r1 :
  claim_fun label code open now r = (Ok reply, r1) -> claim_ok reply = false ->
  claims r1 = claims r /\ invites r1 = invites r.
Proof. unfold claim_fun. repeat case_match; intros [= <- <-] ?; try done; by destruct r. Qed.

Lemma claim_fun_granted label code open now (r : RegistryDb) reply r1 :
  claim_fun label code open now r = (Ok reply, r1) -> claim_ok reply = true -> reply = ok_resp.
Proof. unfold claim_fun. repeat case_match; by intros [= <- <-]. Qed.

(** a registration that is refused costs nothing: while messages arrive and no
    statement of the registry fails, whatever refuses it — the handle, the
    password, the claim, the object, the ledger — the handles taken and the uses
    of every invite are what they were. *)
Theorem refused_registration_restores now d body w a w'
    (Hw : calm_registry w) (Hok : register plc_answer env now d body w = (Ok a, w'))
    (Hrefused : forall r, a <> FaCreated r) :
  claims_of w' = claims_of w /\ invites_of w' = invites_of w.
Proof.
  destruct Hw as [Hn Hf]. apply register_cases in Hok as [[-> _]|(input & handle & label & _ & _ & _ & _ & Hok)]; [done|].
  apply bind_Ok in Hok as (reply & w1 & E & Hok). rewrite call_claim in E by (unfold arrives; by rewrite ?Hn).
  cbv zeta in E. destruct (claim_fun _ _ _ _ _) as [[reply'|e] r1] eqn:Ec; [|done]. cbn in E. injection E as -> <-.
  destruct (claim_ok reply) eqn:Er; cbn [negb] in Hok.
  2:{ injection Hok as _ <-. exact (claim_fun_refused _ _ _ _ _ _ _ Ec Er). }
  pose proof (claim_fun_granted _ _ _ _ _ _ _ Ec Er) as ->. apply granted_release in Ec.
  set (w1 := put_registry _ _) in Hok. unfold register_tail in Hok. apply bind_Ok in Hok as (prov & w2 & E & Hok).
  assert (dp_net w2 = [] /\ dp_registry w2 = MkConn r1 []) as [Hn2 Hr2].
  { unfold catch, call_object in E. rewrite arrives_stub in E by (unfold w1, arrives; cbn; by rewrite Hn).
    cbn [dp_net put_registry put_net w1] in E. rewrite Hn in E. cbn [tail] in E.
    pose proof (netless_keeps (object_provision plc_answer env handle d
      (MkProvisionInput handle (ri_email input) (default EmptyString (ri_password input)))) (put_net [] w1) (provision_netless _ _ _)) as Hk.
    pose proof (object_provision_one plc_answer env handle d
      (MkProvisionInput handle (ri_email input) (default EmptyString (ri_password input))) (put_net [] w1)) as [[Hreg _] _].
    destruct (object_provision _ _ _ _ _ _) as [x w3]. cbn in Hk, Hreg. destruct (reply_of x); injection E as _ <-; by split. }
  assert (forall e, (let! _ := catch (F := string) (call_registry now (ReqRelease label)) in ret e)%se w2 = (Ok a, w') ->
    claims_of w' = claims_of w /\ invites_of w' = invites_of w) as Hrel.
  { intros x Hx. unfold bind, catch in Hx. rewrite call_release in Hx by (unfold arrives; by rewrite ?Hn2, ?Hr2).
    injection Hx as _ <-. unfold claims_of, invites_of. cbn. by rewrite Hr2. }
  destruct prov as [v|e]; [|by eapply Hrel]. destruct (reply_ok v); [|by eapply Hrel].
  destruct (reply_created v) as [[did access] refresh]. apply bind_Ok in Hok as (x & w3 & _ & Hok).
  injection Hok as <- _. by destruct (Hrefused (MkRegisterResponse access refresh handle did)).
Qed.

Lemma register_enters now d body w input handle label :
  from_slice body = Ok input -> handle = to_ascii_lowercase (trim (ri_handle input)) ->
  register_label env handle = Ok label -> 8 <= str_len (default EmptyString (ri_password input)) ->
  register plc_answer env now d body w =
  (let! claimed := call_registry now (ReqClaim label (ri_invite_code input) (open_registration env)) in
   if negb (claim_ok claimed) then ret (claim_refused claimed) else register_tail now d input handle label)%se w.
Proof.
  intros Hb -> Hl Hlen. unfold register. rewrite Hb. cbv zeta. rewrite Hl.
  by destruct (Z.ltb_spec (str_len (default EmptyString (ri_password input))) 8); [lia|].
Qed.

(** a lost reply gives a handle away.  Take a registration that would succeed,
    and let the reply of the account object be lost after the object has done
    its work: the registration is refused and the handle released, free for the
    next one, while its account exists and its identity is on the ledger.  The
    comment of [create_account] says a label is never released then. *)
Theorem lost_reply_frees_handle `{!DigestLaws} `{!KeypairLaws} now d body w e n r w1
    (Hn : dp_net w = Delivered :: ReplyLost e :: n) (Hnext : arrives (put_net n w)) (Hf : faults (dp_registry w) = [])
    (Hok : register plc_answer env now d body (put_net [] w) = (Ok (FaCreated r), w1)) :
  exists label w', 
    register plc_answer env now d body w = (Ok (FaError 400 "InternalError" "Could not create the account."), w') /\
    rr_handle r = label +:+ "." +:+ zone_suffix env /\
    claims_of w' !! label = None /\
    (exists row, accounts_of (rr_handle r) w' = {[rr_did r := row]}) /\
    (exists gop, dp_posts w' = dp_posts w ++ [(rr_did r, gop)] /\ plc_answer (rr_did r) gop = Ok tt).
Proof.
  pose proof Hok as Hcalm.
  apply register_cases in Hok as [[_ (? & ? & ? & [=])]|(input & handle & label & Hb & Hh & Hl & Hlen & Hok)].
  apply bind_Ok in Hok as (reply & w2 & E & Hok). rewrite call_claim in E by done. cbv zeta in E.
  change (dp_registry (put_net [] w)) with (dp_registry w) in E.
  destruct (claim_fun _ _ _ _ _) as [[reply'|x] r1] eqn:Ec; [|done]. cbn in E. injection E as -> <-.
  destruct (claim_ok reply) eqn:Er; cbn [negb] in Hok; [|by destruct reply].
  pose proof (claim_fun_granted _ _ _ _ _ _ _ Ec Er) as ->.
  set (wa := put_registry (MkConn r1 []) w). change (put_registry _ _) with (put_net [] wa) in Hok.
  unfold register_tail in Hok. set (input' := MkProvisionInput _ _ _) in Hok.
  apply bind_Ok in Hok as (prov & w2 & E & Hok). unfold catch, call_object in E. rewrite arrives_stub in E by done.
  cbn [tail dp_net put_net] in E. change (put_net [] (put_net [] wa)) with (put_net [] wa) in E.
  rewrite provision_netless in E. destruct (object_provision plc_answer env handle d input' wa) as [res wb] eqn:Ep. cbn [fst snd] in E.
  destruct res as [ans|fail]; [destruct (provision_answer _ _ _ _ _ _ Ep) as [o ->]; destruct o as [did access refresh|]|].
  2,3: exfalso; revert Hok; (try destruct fail); injection E as <- <-; unfold bind, catch; repeat case_match; intros; by simplify_eq/=.
  injection E as <- <-. apply bind_Ok in Hok as (x & w2 & _ & Hok). injection Hok as <- _. cbn [rr_handle rr_did].
  pose proof Ep as Ep'. apply object_provision_Created in Ep as (secret & phc & gop & _ & _ & _ & _ & _ & Hrow & Hposts & Hans & _ & Hreg & _).
  destruct (granted_release _ _ _ _ _ _ _ Ec) as [Hrel _].
  exists label, (put_registry (MkConn (release_fun label r1) []) (put_net (tail n) wb)). split_and!.
  - rewrite (register_enters now d body w input handle label) by done. unfold bind at 1.
    rewrite call_claim by (unfold arrives; by rewrite ?Hn). cbv zeta. rewrite Ec. cbn [fst snd]. cbn [claim_ok negb ok_resp].
    rewrite Hn. cbn [tail].
    change (put_registry (MkConn r1 []) (put_net (ReplyLost e :: n) w)) with (put_net (ReplyLost e :: n) wa).
    unfold register_tail. fold input'. unfold bind at 1, catch at 1, call_object, call_stub at 1. cbn [dp_net put_net tail].
    change (put_net n (put_net (ReplyLost e :: n) wa)) with (put_net n wa).
    rewrite provision_netless. unfold bind, catch.
    rewrite Ep'. cbn [fst snd]. rewrite call_release; [|exact Hnext|cbn; by rewrite Hreg].
    cbn. by rewrite Hreg.
  - by apply register_label_Ok in Hl as [? _].
  - unfold claims_of. cbn. rewrite Hrel. revert Ec. unfold claim_fun. case_decide as Hd; [done|]. intros _.
    by apply eq_None_not_Some in Hd.
  - eexists. exact Hrow.
  - exists gop. split; [exact Hposts|done].
Qed.

(** ** From registration to login *)

Lemma lowercase_idem s : to_ascii_lowercase (to_ascii_lowercase s) = to_ascii_lowercase s.
Proof.
  unfold to_ascii_lowercase. induction s as [|c s IH]; [done|]. cbn. f_equal; [|done].
  destruct c as [[] [] [] [] [] [] [] []]; reflexivity.
Qed.

(** A registered handle is no DID. *)
Lemma handle_not_did label zone : label_spec label -> starts_with "did:" (label +:+ "." +:+ zone) = false.
Proof.
  intros (_ & Hc & _). apply not_true_iff_false. intros [r Er]%starts_with_spec.
  destruct label as [|a [|b [|c [|x l]]]]; try discriminate Er.
  apply (f_equal (String.get 3)) in Er. cbn in Er. injection Er as ->. cbn in Hc.
  by destruct (is_label_char a), (is_label_char b), (is_label_char c).
Qed.

Definition LOGIN : string := "/xrpc/com.atproto.server.createSession".

(** A login on the shared host goes to the object of the handle it names. *)
Lemma pick_login now req b v handle w :
  request_host req = zone_suffix env -> fq_method req = "POST" ->
  read_body_bytes MAX_BODY (fq_body req) EmptyString = Ok b -> json_from_slice b = Some v ->
  json_str "identifier" v = Some handle -> to_ascii_lowercase handle = handle ->
  starts_with "did:" handle = false -> ends_with ("." +:+ zone_suffix env) handle = true ->
  pick_object env now (zone_suffix env) LOGIN req w = (Ok (handle, Some b), w).
Proof.
  intros Hhost Hm Hb Hv Hid Hlow Hdid Hend. unfold pick_object, shared_target. rewrite String.eqb_refl.
  change (repo_scoped_target env now LOGIN) with (ret (S := Deployment) (E := string) (@None string)).
  change (resolve_handle_target env LOGIN) with (@None string). unfold bind, ret. cbn beta iota. rewrite Hm.
  change (mutating "POST") with true. change (body_cap (route_of LOGIN)) with MAX_BODY. rewrite Hb. cbn beta iota.
  unfold lift. unfold token_target. change (is_auth_route (route_of LOGIN)) with false. rewrite andb_false_r. unfold ret.
  unfold login_target. rewrite String.eqb_refl.
  change (true && String.eqb "POST" "POST" && ends_with "/xrpc/com.atproto.server.createSession" (route_of LOGIN)) with true.
  cbn beta iota. cbn [mbind option_bind]. rewrite Hv. cbn [mbind option_bind]. rewrite Hid. unfold session_target. rewrite Hlow, Hdid, Hend. done.
Qed.

Lemma open_store_run h w (d0 : DoDb) : object_of h w = MkConn d0 [] ->
  open_store h w = (Ok tt, put_object h (MkConn (put_counter (Some (default 0 (seq_counter d0))) d0) []) w).
Proof. intros E. unfold open_store, on_object. by rewrite E. Qed.

(** createSession in the object that holds the account. *)
Lemma object_login `{!SqlScanLaws} h d oreq input secret did row w :
  oq_path oreq = LOGIN -> from_slice (oq_body oreq) = Ok input -> en_jwt_secret env = Some secret ->
  accounts_of h w = {[did := row]} -> ar_handle row = Some (cs_identifier input) ->
  verify_password (cs_password input) (ar_password_argon2 row) = Ok true -> faults (object_of h w) = [] ->
  fst (object_fetch did_parse verify_signature plc_answer fetch_answer env h d oreq w) =
  reply_of (let? t := worker_tokens did secret (od_uuid d) (od_now d) (od_now d) in
            Ok (OaSession (MkSession (fst t) (snd t) (cs_identifier input) did true))).
Proof.
  intros Hp Hb Hs Hacc Hh Hv Hf. destruct oreq as [path q raw auth ct body]. cbn in Hp, Hb. subst path.
  assert (object_route did_parse verify_signature plc_answer fetch_answer env h d (MkObjReq LOGIN q raw auth ct body) =
    (let! b := parse_json (T := CreateSessionInput) body in
     open_store h ;;!
     let! jwt_secret := lift (env_jwt_secret env) in
     let! s := on_object h (worker_create_session (cs_identifier b) (cs_password b) jwt_secret (od_uuid d) (od_now d)) in
     ret (OaSession s))%se) as Hr by reflexivity.
  unfold object_fetch. rewrite Hr. unfold parse_json. rewrite Hb. unfold bind at 1, lift at 1. cbn [map_err].
  unfold env_jwt_secret. rewrite Hs. unfold accounts_of in Hacc. destruct (object_of h w) as [db0 fs] eqn:Eo. cbn in Hf, Hacc. subst fs.
  unfold bind at 1. rewrite (open_store_run h w db0 Eo). unfold bind, lift. cbn [ok_or]. unfold on_object. rewrite object_put_same.
  rewrite (login_run _ did row (cs_identifier input)) by done. rewrite String.eqb_refl, Hv. cbn [orb andb].
  by destruct (worker_tokens did secret (od_uuid d) (od_now d) (od_now d)).
Qed.

(** C22: who registered can log in.  After a registration that answered with an
    account, a createSession on the shared host with that handle and password
    is routed to the account's object and answers a session for the DID, tokens
    signed with the deployment's secret, while everything arrives. *)
Theorem registered_user_logs_in `{!DigestLaws} `{!KeypairLaws} `{!Argon2Laws} `{!SqlScanLaws}
    now d body w r w' input fd req b v secret access refresh
    (Hreg : register plc_answer env now d body w = (Ok (FaCreated r), w'))
    (Hinput : from_slice body = Ok input) (Hsecret : en_jwt_secret env = Some secret)
    (Hnet : dp_net w' = []) (Hfaults : faults (object_of (rr_handle r) w') = [])
    (Hhost : request_host req = zone_suffix env) (Hzone : zone_suffix env <> EmptyString)
    (Hmethod : fq_method req = "POST") (Hpath : fq_path_and_query req = LOGIN) (Hurl : path_is_normal LOGIN)
    (Hread : read_body_bytes MAX_BODY (fq_body req) EmptyString = Ok b)
    (Hjson : json_from_slice b = Some v) (Hid : json_str "identifier" v = Some (rr_handle r))
    (Htyped : from_slice b = Ok {| cs_identifier := rr_handle r; cs_password := default EmptyString (ri_password input) |})
    (Htok : worker_tokens (rr_did r) secret (od_uuid (fd_obj fd)) (od_now (fd_obj fd)) (od_now (fd_obj fd)) = Ok (access, refresh)) :
  fst (front_fetch did_parse verify_signature plc_answer fetch_answer url_parts enqueue_of_value env fd req w') =
  Ok (FaObject (OrAnswer (OaSession (MkSession access refresh (rr_handle r) (rr_did r) true))), add_cors None).
Proof.
  apply registration_facts in Hreg as (input' & label & secret' & phc & gop & code & Hb & Hh & Hlab & Hspec & Hlen & Hphc & Hs & _ & _ & _ & Hrow & _).
  rewrite Hinput in Hb. injection Hb as <-. apply map_err_Ok in Hphc.
  assert (starts_with "did:" (rr_handle r) = false) as Hdid by (rewrite Hlab; by apply handle_not_did).
  assert (ends_with ("." +:+ zone_suffix env) (rr_handle r) = true) as Hend by (rewrite Hlab; apply ends_with_suffix).
  assert (to_ascii_lowercase (rr_handle r) = rr_handle r) as Hlow by (rewrite Hh; apply lowercase_idem).
  unfold front_fetch. rewrite Hmethod. change (String.eqb "POST" "OPTIONS") with false. cbn beta iota.
  unfold dispatch. rewrite Hhost, Hpath. apply String.eqb_neq in Hzone. rewrite Hzone.
  assert (signup_surface plc_answer enqueue_of_value env fd (zone_suffix env) LOGIN req = None) as ->.
  { unfold signup_surface. case_match; [done|]. by rewrite Hmethod. }
  change (starts_with "/_stelyph/" LOGIN) with false. change (is_subscribe LOGIN) with false. cbn beta iota.
  unfold WorkerFront.forward. unfold bind at 1, bind at 1.
  rewrite (pick_login _ _ b v (rr_handle r)) by done. cbn beta iota. unfold bind at 1. unfold call_stub. rewrite Hnet.
  assert (verify_password (default EmptyString (ri_password input)) phc = Ok true) as Hver.
  { apply argon2_verify_hash in Hphc as (ph & Hp & Hv). unfold verify_password. rewrite Hp. cbn. by rewrite Hv. }
  pose proof (object_login (rr_handle r) (fd_obj fd) (forward_req url_parts LOGIN req (Some b))
    {| cs_identifier := rr_handle r; cs_password := default EmptyString (ri_password input) |} secret (rr_did r)
    (MkAccountRow (Some (rr_handle r)) (ri_email input) phc (ad_created_at (od_account d)) None None) (put_net [] w')) as Hlogin.
  cbn [tail]. rewrite Htok in Hlogin.
  destruct (object_fetch _ _ _ _ _ _ _ _ (put_net [] w')) as [reply w2]. cbn [fst] in Hlogin |- *. rewrite Hlogin; try done.
  - unfold forward_req. unfold path_is_normal in Hurl. destruct (url_parts LOGIN) as [[p q] raw]. cbn in Hurl |- *. by rewrite Hurl.
  - unfold forward_req. by destruct (url_parts LOGIN) as [[p q] raw].
Qed.

End Front.

(** ** Witnesses *)

Abbreviation demo_front := (front_fetch demo_did_parse demo_verify_none demo_directory demo_fetch demo_parts
  demo_enqueue demo_env demo_front_draw).
Abbreviation demo_register := (register demo_directory demo_env "2026" demo_obj_draw (text_body demo_signup)).

(** Al has registered. *)
Definition demo_registered : Deployment := snd (demo_register (demo_deployment [])).
Definition demo_created : RegisterResponse :=
  match fst (demo_register (demo_deployment [])) with
  | Ok (FaCreated r) => r
  | _ => MkRegisterResponse "" "" "" ""
  end.

Lemma demo_register_run : demo_register (demo_deployment []) = (Ok (FaCreated demo_created), demo_registered).
Proof.
  assert (fst (demo_register (demo_deployment [])) = Ok (FaCreated demo_created)) as <- by (vm_compute; reflexivity).
  apply surjective_pairing.
Qed.

Lemma registration_sound_witness :
  rr_handle demo_created = "al.pds.test" /\
  (claims_of demo_registered !! "al" = Some (MkClaim (Some (rr_did demo_created)) "active" None "2026")) /\
  exists row, accounts_of "al.pds.test" demo_registered = {[rr_did demo_created := row]}.
Proof.
  split; [vm_compute; reflexivity|]. split; [vm_compute; reflexivity|].
  destruct (registration_sound demo_directory demo_env "2026" demo_obj_draw (text_body demo_signup)
    (demo_deployment []) demo_created demo_registered demo_register_run)
    as (input & label & secret & phc & gop & code & _ & _ & _ & _ & _ & _ & _ & _ & _ & _ & Hrow & _).
  eexists. exact Hrow.
Defined.

Lemma accounts_guarded_witness :
  let w' := snd (demo_front (demo_post "/_stelyph/provision?x" demo_signup) demo_registered) in
  accounts_of "al.pds.test" w' = accounts_of "al.pds.test" demo_registered /\
  claims_of w' !! "al" = Some (MkClaim (Some (rr_did demo_created)) "active" None "2026").
Proof.
  destruct (accounts_guarded demo_did_parse demo_verify_none demo_directory demo_fetch demo_parts demo_enqueue demo_env
    demo_front_draw (demo_post "/_stelyph/provision?x" demo_signup) demo_registered eq_refl eq_refl ltac:(done)) as [Ha Hc].
  split; [apply Ha|]. apply Hc; [vm_compute; reflexivity|done].
Defined.

(** Al registers twice, then the administrator deletes the account, and Al
    registers again. *)
Definition demo_admin_delete : FrontReq := {|
  fq_method := "POST"; fq_host := Some "pds.test"; fq_path_and_query := "/_stelyph/admin/delete-account";
  fq_admin := Some "root"; fq_authorization := None; fq_content_type := None; fq_request_headers := None;
  fq_body := [Ok (text_body [("handle", "al.pds.test")])] |}.
Definition demo_signup_req : FrontReq := demo_post "/xrpc/com.atproto.server.createAccount" demo_signup.
Definition demo_history : list (FrontDraw * FrontReq) :=
  map (pair demo_front_draw) [demo_signup_req; demo_signup_req; demo_admin_delete; demo_signup_req].

Abbreviation demo_run := (front_run (Cid := string) demo_did_parse demo_verify_none demo_directory demo_fetch demo_parts
  demo_enqueue demo_env).

Lemma one_account_per_object_witness :
  one_account (db (object_of "al.pds.test" (demo_run demo_history (demo_deployment [])))) /\
  size (accounts_of "al.pds.test" (demo_run demo_history (demo_deployment []))) = 1%nat /\
  size (accounts_of "al.pds.test" (demo_run (take 3 demo_history) (demo_deployment []))) = 0%nat.
Proof.
  split; [|split; vm_compute; reflexivity].
  apply (one_account_per_object demo_did_parse demo_verify_none demo_directory demo_fetch demo_parts demo_enqueue demo_env).
  intros h. vm_compute. lia.
Defined.

Abbreviation demo_refusal := (FaError 400 "HandleNotAvailable" "That one's taken. Try another.").

Lemma demo_refused : demo_register demo_registered = (Ok demo_refusal, snd (demo_register demo_registered)).
Proof.
  assert (fst (demo_register demo_registered) = Ok demo_refusal) as <- by (vm_compute; reflexivity).
  apply surjective_pairing.
Qed.

Lemma refused_registration_restores_witness :
  claims_of (snd (demo_register demo_registered)) = claims_of demo_registered.
Proof.
  refine (proj1 (refused_registration_restores demo_directory demo_env "2026" demo_obj_draw (text_body demo_signup)
    demo_registered demo_refusal _ _ demo_refused _)); [vm_compute; by split|done].
Defined.

Lemma lost_reply_frees_handle_witness :
  let w' := snd (demo_register (demo_deployment [Delivered; ReplyLost "gone"])) in
  claims_of w' !! "al" = None /\ exists gop, dp_posts w' = [(rr_did demo_created, gop)].
Proof.
  destruct (lost_reply_frees_handle demo_directory demo_env "2026" demo_obj_draw (text_body demo_signup)
    (demo_deployment [Delivered; ReplyLost "gone"]) "gone" [] demo_created demo_registered eq_refl I eq_refl demo_register_run)
    as (label & w' & E & Hl & Hc & _ & gop & Hp & _).
  cbv zeta. split; [vm_compute; reflexivity|]. rewrite E. cbn [snd]. by exists gop.
Defined.

Definition demo_login : FrontReq := demo_post LOGIN [("identifier", "al.pds.test"); ("password", "correct horse")].

Lemma registered_user_logs_in_witness :
  exists access refresh,
    fst (demo_front demo_login demo_registered) =
    Ok (FaObject (OrAnswer (OaSession (MkSession access refresh "al.pds.test" (rr_did demo_created) true))), add_cors None).
Proof.
  destruct (worker_tokens (rr_did demo_created) "hmac" "uuid" 1000 1000) as [[access refresh]|e] eqn:Et;
    [|exfalso; vm_compute in Et; discriminate Et].
  exists access, refresh. assert (rr_handle demo_created = "al.pds.test") as <- by (vm_compute; reflexivity).
  refine (registered_user_logs_in demo_did_parse demo_verify_none demo_directory demo_fetch demo_parts demo_enqueue demo_env
    "2026" demo_obj_draw (text_body demo_signup) (demo_deployment []) demo_created demo_registered
    {| ri_handle := "Al.pds.test"; ri_email := None; ri_password := Some "correct horse"; ri_invite_code := None |}
    demo_front_draw demo_login (text_body [("identifier", "al.pds.test"); ("password", "correct horse")])
    (text_body [("identifier", "al.pds.test"); ("password", "correct horse")]) "hmac" access refresh
    demo_register_run _ _ _ _ _ _ _ _ _ _ _ _ _ Et); try (vm_compute; reflexivity); done.
Defined.
